(* ===== verification/_CoqProject ===== *)
-Q . S2P
Prelude.v
Float.v
Json.v
Errors.v
RateLimit.v
Breaker.v
Routing.v
Calendar.v
Plans.v
Metering.v
Body.v
Streams.v
Machine.v
InlineThink.v
Chat.v
ToolMedia.v
AnthropicResponse.v
ErrorShape.v
Rectify.v
Upstream.v
Health.v
Status.v
ConfigTables.v
Database.v
PlanConfig.v
ConfigStore.v
Accounts.v
ConfigAdmin.v
ConfigHistory.v
ConfigEffects.v
PlanMembers.v
Sessions.v
PlanHistory.v
PlanEffects.v
PlanExamples.v
Directory.v
Startup.v
ConfigExamples.v
AnthropicRequest.v
AnthropicStream.v
AnthropicProtocol.v
AnthropicContent.v
AnthropicTools.v
StreamAdapter.v
AnthropicAdapter.v
ResponsesContext.v
ResponsesOutput.v
ResponsesRequest.v
ResponsesTraffic.v
ResponsesStream.v
ResponsesProtocol.v
ResponsesContent.v
ResponsesHistory.v
ResponsesAdapter.v
Pipeline.v
Alerts.v
Intake.v
Gateway.v
GatewayHistory.v
GatewayEffects.v
Catalog.v
GatewayExamples.v
