(* ===== verification/Prelude.v ===== *)
(** * LLM gateway: a verification development

The program is an LLM API gateway: one Rust binary that accepts OpenAI and Anthropic requests,
checks the caller's key, concurrency limits and plan quota, resolves the model to a list of upstream
providers, rewrites the request body, forwards it with failover, streams the answer back and
accounts for the tokens used; a console administers users, keys, plans, groups and the configuration
of providers and routes. All paths below are relative to the repository's [src/] directory of
Rust sources.

** The parts and the files that model them

A request goes through [service/proxy.rs] in this order, and the files follow it.

- [Prelude] (this file): results with a [?] bind, machine-width integers (saturating and wrapping
  [i64]), ASCII case, prefixes and suffixes, Rust's Unicode [trim], [str::replace], decimal numerals.
- [Float]: [f64] as the standard library's specification floats at IEEE double precision, with the
  methods and saturating casts the code uses.
- [Json]: [serde_json::Value] with objects as sorted maps (the crate is built without
  [preserve_order]), the accessors, and the invariant [wf] that objects are sorted.
- [Errors]: [error.rs], the error type and its HTTP response, and the rejection messages of
  [state.rs].
- [RateLimit]: [service/ratelimit.rs]. [RateLimiter] is the table of token buckets of the console
  login ([api/console.rs]); [matched_rules] the rules that apply to a request; [Concurrency] the
  counters of requests in flight and their guards. The states are finite maps, the operations
  functions on them (each runs under one mutex), histories are step relations.
- [Breaker]: [service/breaker.rs], one record per provider, with the abstract three-phase breaker
  ([Closed], [Open], [Probing]) that it refines.
- [Routing]: [service/routing.rs] and the rows it reads: route resolution, access white list,
  disabled models, candidate list, dialect pairing, and the price of a request.
- [Calendar]: what the code takes from the [chrono] crate, as a type class with its laws, and the
  proleptic Gregorian calendar as the instance that has them.
- [Plans]: [store/plans.rs], the pure part of coding plans: validation, model scopes, statistics
  windows, active hours, the choice of the plan that applies, and the loading of plan rows.
- [Metering]: [store/usage.rs], [service/usage.rs], [service/notify.rs] and [service/plans.rs]: the
  usage record, the in-memory counters ([UsageCache]), threshold alerts ([Notify]), the quota check,
  the accounting transaction on a record of tables, and the incremental daily aggregation
  ([Aggregation]) as a step relation with transactions that commit out of order.
- [Body]: the rewrites of a request body in [service/proxy.rs], [service/system_head.rs],
  [service/model_family.rs] and [service/canonical.rs].
- [Streams]: the stream adapters of [service/proxy.rs]: event parsing and usage capture ([Sse]), the
  priming window ([Prime]), time-outs ([Timeouts]), keep-alive pings ([Ping]), accounting of a
  stream ([Billing]).
- [ErrorShape]: [service/anthropic/mod.rs] and [service/responses/mod.rs], the gateway's errors and
  the upstream's in the dialect of the client.
- [Rectify]: [service/rectify.rs] and [send_with_rectify], the rewrites of a request that an upstream
  has refused, and the one retry.
- [Upstream]: [send_upstream] of [service/proxy.rs], the address and the headers of a request to a
  provider.
- [Health]: [service/health.rs], the two-hop probe of a provider and the cache of its results.
- [Status]: [api/status.rs], the status page computed from the usage log and the probes.
- [ConfigTables], [Database]: the tables and the caches. [Database] is the monad of statements, each of
  which may fail, and of transactions, which an error undoes, with [AppState::reload] of [state.rs],
  which copies tables into the caches that requests read; [ConfigTables] has the tables of the
  configuration and what a reload reads of them.
- [PlanConfig], [PlanMembers]: [store/plans.rs], [store/groups.rs], [service/plans.rs] and
  [api/plans.rs], the administration of plans, groups and members and the synchronisation of groups
  with the directory. [PlanHistory] has what any sequence of these operations keeps true,
  [PlanEffects] what it means for requests, [PlanExamples] witnesses and counterexamples.
- [ConfigStore], [ConfigAdmin]: [store/config.rs], [store/access.rs] and [api/admin_config.rs], the
  statements on providers, routes, models, concurrency rules, prices, access rules and settings, and
  the handlers that check a request, run them, reload and write the audit log. [ConfigHistory],
  [ConfigEffects] and [ConfigExamples] are divided as for plans.
- [Accounts], [Sessions]: users, refresh tokens and API keys. [Accounts] has the statements of
  [store/users.rs], [store/tokens.rs] and [store/keys.rs] on the tables of [Database], and on top of them
  [service/session.rs], [service/console.rs], [service/auth.rs] and the handlers of [api/console.rs]
  that administer users and keys; [Sessions] has the theorems on histories of these operations.
- [Directory]: [service/ldap.rs], the login at the directory, the groups that make an administrator and
  the list of users, on a server whose answers are parameters.
- [Alerts]: the delivery of threshold alerts in [service/notify.rs] by mail and hook, the settings of
  mail, and the processes that share the table of alerts as a step relation.
- [Startup]: [config.rs], the configuration read from the environment, and the periodic task of
  [worker/aggregator.rs].
- [InlineThink]: [service/inline_think.rs], thinking written between tags inside the answer: the
  incremental splitter of a stream and the splitter of a whole text.
- [Chat]: the Chat Completions chunk as [service/responses/dto.rs] deserialises it.
- [ToolMedia]: [service/tool_media.rs], the separation of the output of a tool into text and media.
- [AnthropicRequest], [AnthropicResponse]: [service/anthropic/transform.rs] and
  [service/anthropic/convert_resp.rs], the conversion of a Messages request into a Chat request and
  of a Chat response into a Messages response.
- [AnthropicStream]: [service/anthropic/stream.rs], the state machine that turns Chat chunks into
  the events of a Messages stream: a record [State] and operations [State -> State * list Event]
  composed with [seq] as the code pushes into its vector. Its theorems are in [AnthropicProtocol]
  (the automaton of a legal event sequence), [AnthropicContent] (the text and thinking delivered)
  and [AnthropicTools] (the arguments of tool calls).
- [Machine]: the shape both stream converters share, operations that change a state and append
  events, with the relations between states and events that they preserve.
- [StreamAdapter]: the adapter around a converter, which feeds it the upstream bytes, ends it on
  [[DONE]], end of stream or error, and bills. [Converter] is the interface it asks for,
  [ConverterLaws] what it relies on; [AnthropicAdapter] ([wrap_chat_stream_to_anthropic]) and
  [ResponsesAdapter] ([wrap_chat_stream_to_responses]) are its two instances.
- [ResponsesRequest]: [service/responses/convert_req.rs], the conversion of a Responses request into a
  Chat request; its theorems are in [ResponsesTraffic].
- [ResponsesContext]: [service/responses/tool_ctx.rs], the names of the tools of a request.
- [ResponsesOutput]: [service/responses/convert_resp.rs] and the output half of
  [service/responses/dto.rs], the conversion of a Chat response into a Responses response.
- [ResponsesStream]: [service/responses/stream.rs], the state machine from Chat chunks to Responses
  events. Its theorems are in [ResponsesProtocol] (the automaton of a legal event sequence) and
  [ResponsesContent] (what the events and the final response say).
- [ResponsesHistory]: [service/responses/history.rs], the bounded store of earlier responses and the
  requests that refer to it.
- [Pipeline]: [proxy_authed] itself: the guards that count running requests ([Guards]), the
  selection of candidates ([select]), the outbound body ([build_outbound]) and the two failover
  loops ([plain_loop], [stream_loop]), composed from the components above.
- [Intake]: the body of a request before the pipeline ([decompress_request_body],
  [parse_request_json]), the capped read of a response, the session and address of a client, and the
  custom headers of a response ([api/v1.rs]).
- [Gateway]: [proxy], [proxy_test] and [proxy_authed] from the key of the client to the answer, on the
  state of the whole process: the tables and caches, the counters and slots, the breakers, the usage
  of plans, the responses kept and the accounting calls. It joins [Accounts], [Intake], [RateLimit],
  [Pipeline], [Rectify] and [Upstream], so that what a loop takes as a reply is here the outcome of
  the requests that are really sent. [GatewayHistory] has the step relation of overlapping requests,
  [GatewayEffects] what is sent and left behind, [GatewayExamples] a gateway with its providers and users.
- [Catalog]: [GET /v1/models] of [api/v1.rs].

** How state and effects are modelled

A method on [&mut self] or on a mutex-protected field takes the state and returns the new one; the
clock, the random jitter and the failures of the database are arguments. A handler that runs
statements is a function [World -> result A AppError * World] of the tables, the caches and the
outcomes of the statements to come. [Result] is
[result], a fallible or partial operation returns [option] or [result] with the source's error. A
byte string is a [string] of 8-bit characters; an integer is a [Z] with its wrap-around or
saturation written out where the code's width matters; an instant is a number of nanoseconds. What
the code awaits from the network is an input: for each provider an [Attempt] holds the reply the
loop would get, and the items of a response stream are a list. Histories of concurrent requests
are sequences of atomic steps ([rtc] of a step relation) in which every interleaving is allowed.

Code of other crates (JSON codec, UTF-8 decoding, Unicode case folding, SHA-256, calendar) is an
argument of the definitions that use it, and so are the compression codecs, the ciphers, the checks of
the [http] crate on headers, the network and the directory. In the pipeline the converters between
dialects are arguments as well, collected in [Pipeline.Deps].

** What the theorems show

- A request from end to end. Every request sent to a provider goes to an enabled provider of the route
  of the model that the request names (or that its plan downgrades it to), for a model that is on there
  and that the user whose key was accepted may use, at the address of that provider, with its key as the
  only credential; the answer depends on the network through no other request; a request refused before
  the pipeline leaves no trace; and however requests overlap, fail or are cancelled, the counters
  and slots are those of the requests under way. Tests of an administrator are never accounted for.
  A body is read back through any stack of codings, and never exceeds the budget. The list of models
  promises no more than every usable provider gives, and the names of routes in it can be called.
- Configuration. Whatever the administration does and whatever fails, the tables stay consistent and
  the caches hold only what the checks admit; no channel or custom header can replace a credential;
  no rule is aimed at the protected administrator; the models an upstream lists are all routed, and
  rows that stay keep their settings.
- Plans and members. The tables of plans, groups and members stay consistent; a change of members is
  made as a whole and applies to the next request; the synchronisation gives every user of the directory
  an account, makes the members from the directory those of the directory and leaves those added by
  hand.
- Directory, alerts and start. A login at the directory needs a password that a bind as the entry found
  has accepted, and no name can change the filter of the search; an alert is delivered at most once
  however many processes reach its level, and a mark never hides one that is lost; a process that
  starts has keys of the right length and parameters in range.
- Accounting. Each answer of either failover loop is billed exactly once, to the candidate that gave it
  and with its status, a stream exactly once when it ends; an accounting transaction changes everything or nothing; the in-memory counter is
  the sum of the bookings of the current period; the daily aggregation counts no row twice, and
  every row when rows commit in order; prices charge each token once; alerts are sent once.
- Admission. A request is admitted iff every applicable cap has room, no cap is ever exceeded, and
  counters return to nothing when requests end; the bucket table is bounded and the login burst is
  exact in double arithmetic; the quota check is specified on every branch.
- Plans. The windows of a plan tile time, the period key identifies the window, the chosen plan is
  the documented maximum, parsed scopes are well formed, corrupt rows affect no other row.
- Failover. The breaker refines its abstract machine, lets one probe through and trips exactly at the
  threshold of failures or of the error rate; candidates are exactly the permitted providers, tried in
  order, with failures and successes recorded where they belong, and when none of them answers, the
  client gets the last response that was noted.
- Bodies. The layers of [extra_body], the private-field filter and its test, the collection of system
  messages, the effort clamp and the canonical form meet their contracts; passing the raw bytes
  through is sound when the reasoning configuration has nothing to do.
- Streams. Event parsing and priming do not depend on how the stream is cut, priming keeps every
  byte in order, pings change nothing but insert comment lines, a time-out is final.
- Anthropic dialect. Whatever chunks arrive, the events sent form a prefix of a legal Messages
  stream, and a complete one when it is finalised; text, thinking and tool arguments are delivered
  entire and in order unless the upstream reports an error; the stop reason and usage reported are those of the upstream; the adapter
  bills once and completes the stream whenever it ends. The request conversion fails exactly on the
  documented inputs, keeps every tool call and tool result, and produces tools within the limits of
  the Chat dialect. Inline thinking is split the same way however the text is cut.
- Responses dialect. For a well-formed upstream the events form a complete Responses stream, with every
  event of a call under the id of its item when the calls keep their ids and names; for any upstream
  there is exactly one terminal event, the last, whose response restates the increments sent before it,
  all of them, and, when the calls are indexed and keep their names and no error is reported, holds all
  the upstream said; the adapter ends the stream whenever it finishes. Tool names lead back to the tools. The history is bounded, keeps what
  is in use, and a request that refers to a kept response continues it; what is kept is what was
  sent. The request conversion keeps every call, output and message in order, with ids, names and
  arguments as read from the request that is sent, fails exactly on the documented inputs, and a call of
  a response comes back as the call it was.
- Errors and retries. Both dialects show the same status and wait for an error; reshaped messages are
  bounded; a rectified request is rectified at most once and keeps what was not refused.
- Upstream requests. No header of the client beyond the white list reaches a provider.
- Health and status. A snapshot holds a fresh result for exactly the enabled providers; incidents are
  the maximal runs of failing hours; availability by day is what the log counts.
- Accounts. The break-glass administrator can always log in; a forced logout revokes every session
  issued before it for good; a refresh token is exchanged once; a key admits its owner alone, and a
  created key works.

Several theorems exhibit behaviour that differs from the comments or the intent of the code; they
are stated as what the code does: [Breaker.stale_probe_success], [Pipeline.half_open_never_probed],
[Pipeline.failure_billed_to_skipped], [Pipeline.fast_path_skips_reasoning_config],
[Metering.CacheProofs.late_booking_erases_counter],
[Metering.AggregationProofs.aggregation_misses_late_commit],
[Metering.NotifyProofs.crossed_level_wraps], [Metering.retry_after_can_be_early],
[Streams.PingProofs.ping_can_split_event], [Streams.BillingProofs.disconnect_can_lose_billing],
[Streams.TimeoutProofs.idle_timeout_hits_slow_reader],
[Streams.mixed_line_ends_depend_on_chunks], [RateLimit.Concurrency.retry_hint_not_constant],
[Plans.scope_match_is_caseless_route_match], [AnthropicAdapter.events_after_stop],
[AnthropicRequest.long_tool_choice_dangles], [ToolMedia.unknown_block_lost_with_media],
[InlineThink.split_leading_drops_prefix], [AnthropicResponse.unknown_finish_hides_tool_use],
[AnthropicResponse.fresh_input_can_be_negative], [ResponsesProtocol.late_text_breaks_protocol],
[ResponsesProtocol.call_without_id_lost], [ResponsesProtocol.renamed_call_changes_item],
[AnthropicContent.error_drops_held_text], [AnthropicTools.error_drops_held_arguments],
[Routing.negative_cache_read], [ResponsesContext.namespace_names_collide],
[ResponsesContext.empty_namespace_breaks_roundtrip], [ResponsesAdapter.failed_stream_remembered],
[ErrorShape.unclamped_wait_shown], [Upstream.channel_header_not_overriding],
[Upstream.anthropic_version_sent_twice], [Upstream.slash_before_query_kept],
[Health.full_address_not_probed], [Status.provider_known_without_database],
[Sessions.login_escapes_reset], [Sessions.local_password_survives_directory],
[Sessions.eleven_keys], [PlanExamples.failed_upsert_removes_member],
[PlanExamples.removed_member_returns], [PlanExamples.zero_limit_as_text],
[PlanExamples.limit_is_cut_off], [PlanExamples.overlapping_updates],
[PlanExamples.reload_is_per_section], [ConfigExamples.deleted_provider_lifts_restriction],
[ConfigExamples.later_key_of_admin_limited], [ConfigExamples.repeated_model_gets_two_routes],
[ConfigExamples.listed_star_is_a_wildcard], [ConfigExamples.future_price_applies_now],
[ConfigExamples.long_model_name_fails_sync], [ConfigExamples.illegal_header_name_stored],
[Intake.decoder_output_unbounded], [GatewayExamples.listed_but_forbidden],
[GatewayExamples.refused_key_lists_all], [GatewayExamples.stale_providers_refuse_listed],
[Directory.failed_bind_empties_group],
[Directory.name_attribute_never_found], [Directory.group_filter_not_escaped],
[Directory.container_counts_as_group], [Startup.full_name_of_group_torn],
[Startup.revoked_token_kept], [Alerts.bad_address_silences_admins],
[Alerts.spaced_address_mailed_twice],
[Alerts.skipped_mail_reported_ok].

** Bounds and fuel

Event splitting recurses with the length of the buffer as fuel: each event consumes at least two
bytes, and [event_parsing_chunk_invariant] includes that the rest holds no complete event. The
private-field filter and the media walk have the code's own depth limit of 32 as fuel. The loop of
the inline-thinking splitter has the length of its buffer as fuel: each turn that goes on consumes a
tag, and [inline_think_chunk_invariant] shows the result independent of the cuts. The loop that
releases tool calls has the number of calls as fuel: each turn releases one
([ResponsesProtocol.release_loop_done]). The eviction loop of the history has the length of its queue
as fuel, and runs at most once ([ResponsesHistory.push_evict]). Splitting a text into characters has its
length in bytes as fuel: each character has at least one. The month search of the Gregorian
instance has fuel 5, shown to be enough by its laws. All other recursion is structural.

** What is not modelled

The lists, searches and reports of the console ([api/console.rs], [api/plans.rs],
[api/admin_config.rs], [store/usage.rs]) only read. The stored settings of the directory, which replace
those of the environment, and the stored results of endpoint tests are not part of the tables. The
protocols of LDAP and mail, TLS, ciphers, compression codecs, path routing, listeners and seeding
([main.rs]) are calls into other crates. The cleaning of expired tokens is not a step of the histories
of [Sessions]: it removes only tokens that no session can use ([Startup.cleaning_keeps_sessions]). A
statement that a constraint refuses advances no identifier here, where the database would skip one. The
sums of the daily table are unbounded here, where its columns have a range. *)

From Stdlib Require Export Sorted.
From stdpp Require Export prelude gmap strings pretty list fin_maps.
From Stdlib Require Export ZArith Lia.
From Stdlib Require Export (notations) Ascii.

#[global] Set Default Goal Selector "!".

(** ** Results

Rust's [Result<T, E>], with the [?] operator as a bind. *)

Inductive result (A E : Type) : Type :=
| Ok (a : A)
| Err (e : E).
Arguments Ok {A E} a.
Arguments Err {A E} e.

Declare Scope gateway_scope.
Delimit Scope gateway_scope with gw.

Notation "'let?' x := c1 'in' c2" :=
  (match c1 with Ok x => c2 | Err e => Err e end)
  (at level 10, x pattern, c1 at level 100, c2 at level 200) : gateway_scope.
#[global] Open Scope gateway_scope.

Definition is_ok {A E} (r : result A E) : bool :=
  match r with Ok _ => true | Err _ => false end.

Definition map_err {A E F} (f : E -> F) (r : result A E) : result A F :=
  match r with Ok a => Ok a | Err e => Err (f e) end.

Lemma is_ok_true {A E} (r : result A E) : is_ok r = true <-> exists a, r = Ok a.
Proof. destruct r; naive_solver. Qed.

Lemma is_ok_false {A E} (r : result A E) : is_ok r = false <-> exists e, r = Err e.
Proof. destruct r; naive_solver. Qed.

(** ** Machine integers

A Rust integer is a [Z] kept inside its width: [i64] arithmetic written with [+] in the
source wraps in a release build ([wrap_i64]); the [saturating_*] methods clamp. *)

Definition i64_min : Z := -(2 ^ 63).
Definition i64_max : Z := 2 ^ 63 - 1.
Definition u64_max : Z := 2 ^ 64 - 1.
Definition i32_max : Z := 2 ^ 31 - 1.
Definition i128_min : Z := -(2 ^ 127).
Definition i128_max : Z := 2 ^ 127 - 1.

Definition in_i64 (z : Z) : Prop := (i64_min <= z <= i64_max)%Z.

Definition clamp (lo hi z : Z) : Z := Z.max lo (Z.min hi z).
Definition sat_i64 (z : Z) : Z := clamp i64_min i64_max z.
Definition sat_add (a b : Z) : Z := sat_i64 (a + b).
Definition sat_sub (a b : Z) : Z := sat_i64 (a - b).
Definition wrap_i64 (z : Z) : Z := ((z + 2 ^ 63) mod 2 ^ 64 - 2 ^ 63)%Z.

Ltac unfold_ints :=
  unfold in_i64, sat_add, sat_sub, sat_i64, clamp, i64_min, i64_max, u64_max, i32_max,
    i128_min, i128_max in *.

(** [ints] closes linear goals about widths and saturation. *)
Ltac ints := unfold_ints; lia.

Lemma sat_i64_id z : in_i64 z -> sat_i64 z = z.
Proof. ints. Qed.

Lemma sat_add_in a b : in_i64 (sat_add a b).
Proof. ints. Qed.

Lemma wrap_i64_id z : in_i64 z -> wrap_i64 z = z.
Proof. intros H. unfold wrap_i64. rewrite Z.mod_small; ints. Qed.

Lemma wrap_i64_in z : in_i64 (wrap_i64 z).
Proof.
  unfold wrap_i64. pose proof (Z.mod_pos_bound (z + 2 ^ 63) (2 ^ 64) eq_refl). ints.
Qed.

(** ** Strings

A Rust [str] is its UTF-8 byte sequence, a [string] of 8-bit characters. *)

Definition starts_with (p s : string) : bool := String.prefix p s.

Fixpoint strip_prefix (p s : string) : option string :=
  match p, s with
  | EmptyString, _ => Some s
  | String a p', String b s' => if bool_decide (a = b) then strip_prefix p' s' else None
  | _, _ => None
  end.

Fixpoint strip_suffix_char (c : Ascii.ascii) (s : string) : option string :=
  match s with
  | EmptyString => None
  | String a s' =>
      match s' with
      | EmptyString => if bool_decide (a = c) then Some EmptyString else None
      | _ => option_map (String a) (strip_suffix_char c s')
      end
  end.

Definition ends_with_char (c : Ascii.ascii) (s : string) : bool :=
  bool_decide (is_Some (strip_suffix_char c s)).

Definition ascii_lower (a : Ascii.ascii) : Ascii.ascii :=
  let n := Ascii.nat_of_ascii a in
  if (65 <=? n)%nat && (n <=? 90)%nat then Ascii.ascii_of_nat (n + 32) else a.

Fixpoint to_ascii_lowercase (s : string) : string :=
  match s with
  | EmptyString => EmptyString
  | String a s' => String (ascii_lower a) (to_ascii_lowercase s')
  end.

Definition eq_ignore_ascii_case (a b : string) : bool :=
  bool_decide (to_ascii_lowercase a = to_ascii_lowercase b).

#[local] Arguments String.append : simpl nomatch.

Lemma string_app_assoc (a b c : string) : (a +:+ b) +:+ c = a +:+ (b +:+ c).
Proof. induction a; cbn; by f_equal. Qed.

Lemma string_app_empty_r (a : string) : a +:+ "" = a.
Proof. induction a; cbn; by f_equal. Qed.

Lemma starts_with_spec p s : starts_with p s = true <-> exists t, s = p +:+ t.
Proof.
  unfold starts_with. revert s. induction p as [|a p IH]; intros [|b s]; cbn.
  - naive_solver.
  - split; [by eexists | done].
  - split; [done | intros [t [=]]].
  - destruct (Ascii.ascii_dec a b) as [->|Hne].
    + rewrite IH. split; intros [t Ht]; exists t; [by rewrite Ht | by inversion Ht].
    + split; [done | intros [t Ht]; congruence].
Qed.

Lemma strip_suffix_char_spec c s p :
  strip_suffix_char c s = Some p <-> s = p +:+ String c "".
Proof.
  revert p. induction s as [|a s IH]; intros p; cbn.
  - split; [done | by destruct p].
  - destruct s as [|b s].
    + case_bool_decide as Hac.
      * subst. split; [intros [=<-]; done |].
        destruct p as [|x p]; cbn; [done | intros [= _ Hp]; by destruct p].
      * split; [done |]. destruct p as [|x p]; cbn; [naive_solver | intros [= _ Hp]; by destruct p].
    + destruct (strip_suffix_char c (String b s)) as [q|] eqn:Hq; cbn.
      * split.
        -- intros [=<-]. cbn. f_equal. by apply IH.
        -- destruct p as [|x p]; cbn; [intros [=] | intros [= -> Hp]].
           apply IH in Hp. by simplify_eq.
      * split; [done |]. destruct p as [|x p]; cbn; [intros [=] | intros [= -> Hp]].
        apply IH in Hp. done.
Qed.

Lemma strip_suffix_char_None c s :
  strip_suffix_char c s = None <-> forall p, s <> p +:+ String c "".
Proof.
  split.
  - intros H p Hs. apply strip_suffix_char_spec in Hs. congruence.
  - intros H. destruct (strip_suffix_char c s) as [p|] eqn:E; [|done].
    apply strip_suffix_char_spec in E. by destruct (H p).
Qed.

(** [str::trim] removes the Unicode [White_Space] characters at both ends; these are their UTF-8
    encodings. *)
Definition ws1 (a : nat) : bool := (9 <=? a)%nat && (a <=? 13)%nat || (a =? 32)%nat.
Definition ws2 (a b : nat) : bool := (a =? 194)%nat && ((b =? 133)%nat || (b =? 160)%nat).
Definition ws3 (a b c : nat) : bool :=
  (a =? 225)%nat && (b =? 154)%nat && (c =? 128)%nat ||
  (a =? 226)%nat && (b =? 128)%nat &&
    ((128 <=? c)%nat && (c <=? 138)%nat || (c =? 168)%nat || (c =? 169)%nat || (c =? 175)%nat) ||
  (a =? 226)%nat && (b =? 129)%nat && (c =? 159)%nat ||
  (a =? 227)%nat && (b =? 128)%nat && (c =? 128)%nat.

Fixpoint skip_ws (rev : bool) (s : string) : string :=
  match s with
  | EmptyString => s
  | String a s1 =>
      let na := Ascii.nat_of_ascii a in
      if ws1 na then skip_ws rev s1 else
      match s1 with
      | EmptyString => s
      | String b s2 =>
          let nb := Ascii.nat_of_ascii b in
          if (if rev then ws2 nb na else ws2 na nb) then skip_ws rev s2 else
          match s2 with
          | EmptyString => s
          | String c s3 =>
              let nc := Ascii.nat_of_ascii c in
              if (if rev then ws3 nc nb na else ws3 na nb nc) then skip_ws rev s3 else s
          end
      end
  end.

Fixpoint string_rev_app (s acc : string) : string :=
  match s with EmptyString => acc | String a s' => string_rev_app s' (String a acc) end.
Definition string_rev (s : string) : string := string_rev_app s "".

Lemma string_rev_app_spec s acc : string_rev_app s acc = string_rev s +:+ acc.
Proof.
  unfold string_rev. revert acc. induction s as [|c s IH]; intros acc; [done|]. cbn. rewrite IH, (IH (String c "")).
  by rewrite string_app_assoc.
Qed.
Lemma string_rev_append a b : string_rev (a +:+ b) = string_rev b +:+ string_rev a.
Proof.
  induction a as [|c a IH]; [by rewrite string_app_empty_r|]. change (String c a +:+ b) with (String c (a +:+ b)).
  unfold string_rev at 1 3. cbn [string_rev_app]. rewrite !string_rev_app_spec, IH. by rewrite string_app_assoc.
Qed.
Lemma string_rev_invol s : string_rev (string_rev s) = s.
Proof.
  induction s as [|c s IH]; [done|]. unfold string_rev at 2. cbn [string_rev_app].
  by rewrite string_rev_app_spec, string_rev_append, IH.
Qed.

Definition trim_start (s : string) : string := skip_ws false s.
Definition trim_end (s : string) : string := string_rev (skip_ws true (string_rev s)).
Definition trim (s : string) : string := trim_end (trim_start s).

Definition str_is_empty (s : string) : bool := bool_decide (s = "").

(** [str::replace]: every non-overlapping occurrence of a non-empty pattern, from the left. *)
Fixpoint replace_go (pat rep : string) (skip : nat) (s : string) : string :=
  match s with
  | EmptyString => ""
  | String a s' =>
      match skip with
      | S n => replace_go pat rep n s'
      | 0 => if starts_with pat s then rep +:+ replace_go pat rep (String.length pat - 1) s'
             else String a (replace_go pat rep 0 s')
      end
  end.
Definition str_replace (pat rep s : string) : string := replace_go pat rep 0 s.

Example trim_spaces : trim "  a b　 " = "a b".
Proof. reflexivity. Qed.
Example replace_twice : str_replace "{x}" "7" "{x}-{x}{y" = "7-7{y".
Proof. reflexivity. Qed.

(** ** Characters of decimal numerals, and separators *)

Fixpoint str_all (p : Ascii.ascii -> bool) (s : string) : bool :=
  match s with EmptyString => true | String a s' => p a && str_all p s' end.

Lemma str_all_app p a b : str_all p (a +:+ b) = str_all p a && str_all p b.
Proof. induction a as [|c a IH]; cbn; [done|]. by rewrite IH, andb_assoc. Qed.

Lemma str_all_impl (p q : Ascii.ascii -> bool) s :
  (forall a, p a = true -> q a = true) -> str_all p s = true -> str_all q s = true.
Proof. intros H. induction s; cbn; [done|]. rewrite !andb_true_iff. naive_solver. Qed.

Definition is_digit (a : Ascii.ascii) : bool :=
  let n := Ascii.nat_of_ascii a in (48 <=? n)%nat && (n <=? 57)%nat.
Definition is_numeral_char (a : Ascii.ascii) : bool := is_digit a || (Ascii.nat_of_ascii a =? 45)%nat.

Lemma pretty_N_go_digits x s :
  str_all is_digit s = true -> str_all is_digit (pretty_N_go x s) = true.
Proof.
  revert s. induction (N.lt_wf_0 x) as [x _ IH]; intros s Hs.
  destruct (decide (x = 0)%N) as [->|Hx]; [by rewrite pretty_N_go_0|].
  rewrite pretty_N_go_step by lia. apply IH; [apply N.div_lt; lia|].
  cbn. rewrite Hs, andb_true_r. unfold pretty_N_char. by repeat case_match.
Qed.

Lemma pretty_N_digits (n : N) : str_all is_digit (pretty n) = true.
Proof. unfold pretty, pretty_N. case_decide; [done|]. by apply pretty_N_go_digits. Qed.

Lemma pretty_Z_numeral (z : Z) : str_all is_numeral_char (pretty z) = true.
Proof.
  assert (forall s, str_all is_digit s = true -> str_all is_numeral_char s = true) as H.
  { intros s. apply str_all_impl. unfold is_numeral_char. intros a ->. done. }
  unfold pretty, pretty_Z. destruct z; cbn; [done| |]; apply H, pretty_N_digits.
Qed.

(** The first occurrence of a separator splits a string in one way only. *)
Lemma sep_inj (c : Ascii.ascii) (a b x y : string) :
  str_all (fun d => negb (bool_decide (d = c))) a = true ->
  str_all (fun d => negb (bool_decide (d = c))) b = true ->
  a +:+ String c x = b +:+ String c y -> a = b /\ x = y.
Proof.
  revert b. induction a as [|d a IH]; intros [|e b]; cbn.
  - intros _ _ [= ->]. done.
  - intros _ Hb [= -> _]. by rewrite bool_decide_true in Hb.
  - intros Ha _ [= -> _]. by rewrite bool_decide_true in Ha.
  - intros [_ Ha]%andb_true_iff [_ Hb]%andb_true_iff [= -> H]. apply IH in H as [-> ->]; done.
Qed.

Lemma no_sep_app (c : Ascii.ascii) (a b x : string) :
  str_all (fun d => negb (bool_decide (d = c))) a = true -> a <> b +:+ String c x.
Proof.
  intros Ha ->. rewrite str_all_app in Ha. cbn in Ha. rewrite bool_decide_true in Ha by done.
  by rewrite andb_false_r in Ha.
Qed.

Lemma string_app_inj_l (p a b : string) : p +:+ a = p +:+ b -> a = b.
Proof. induction p; cbn; [done|]. intros [= H]. auto. Qed.

(** ** Sorting *)

(** A stable sort by a key: [ORDER BY], [sort_by_key]. *)
Fixpoint sort_insert {A} (key : A -> Z) (x : A) (l : list A) : list A :=
  match l with
  | [] => [x]
  | y :: l' => if (key x <=? key y)%Z then x :: l else y :: sort_insert key x l'
  end.
Definition sort_by_key {A} (key : A -> Z) (l : list A) : list A := foldr (sort_insert key) [] l.
Lemma sort_insert_perm {A} (key : A -> Z) x l : sort_insert key x l ≡ₚ x :: l.
Proof. induction l as [|y l IH]; cbn; [done|]. destruct (_ <=? _)%Z; [done|]. rewrite IH. apply Permutation_swap. Qed.
Lemma sort_by_key_perm {A} (key : A -> Z) l : sort_by_key key l ≡ₚ l.
Proof. induction l as [|y l IH]; cbn; [done|]. by rewrite sort_insert_perm, IH. Qed.

Definition increasing {A} (key : A -> Z) (l : list A) : Prop := StronglySorted (fun x y => (key x <= key y)%Z) l.
Lemma sort_by_key_sorted {A} (key : A -> Z) l : increasing key (sort_by_key key l).
Proof.
  unfold increasing. induction l as [|x l0 IH]; cbn; [constructor|]. change (foldr _ [] l0) with (sort_by_key key l0).
  revert IH. generalize (sort_by_key key l0). intros l Hl. induction Hl as [|y l Hl IH Hy]; cbn; [by repeat constructor|]. destruct (Z.leb_spec (key x) (key y)) as [Hxy|Hxy].
  - constructor; [by constructor|]. constructor; [done|]. eapply Forall_impl; [exact Hy|]. cbn. lia.
  - constructor; [done|]. rewrite sort_insert_perm. constructor; [lia|done].
Qed.
Lemma filter_sorted {A} (R : A -> A -> Prop) (f : A -> bool) l : StronglySorted R l -> StronglySorted R (List.filter f l).
Proof.
  induction 1 as [|x l Hl IH Hx]; cbn; [constructor|]. destruct (f x); [|done]. constructor; [done|].
  apply Forall_forall. intros y Hy. apply list_elem_of_In, List.filter_In in Hy as [Hy _].
  rewrite Forall_forall in Hx. by apply Hx, list_elem_of_In.
Qed.

(** Sorted keys that are all different increase strictly. *)
Definition strictly {A} (key : A -> Z) (l : list A) : Prop := StronglySorted (fun x y => (key x < key y)%Z) l.
Lemma strictly_of_nodup {A} (key : A -> Z) l : increasing key l -> NoDup (key <$> l) -> strictly key l.
Proof.
  induction 1 as [|x l Hl IH Hx]; cbn; [constructor|]. intros [Hn Hd]%NoDup_cons. constructor; [by apply IH|].
  apply Forall_forall. intros y Hy. rewrite Forall_forall in Hx. specialize (Hx y Hy). cbn in Hx.
  assert (key x <> key y); [|lia]. intros E. apply Hn. rewrite E. by apply list_elem_of_fmap_2.
Qed.
