(* ===== verification/Float.v ===== *)
(** * IEEE-754 double precision

The [f64] of the source as the executable specification floats of the standard library
([SpecFloat] at precision 53 and exponent bound 1024), with the methods and casts the gateway
uses: [min], [max], [ceil], [round], [is_finite], [as u64] and [as i128] (saturating, NaN to 0),
[Duration::as_secs_f64], and the lemmas on the order that the components share. *)

From Stdlib Require Import SpecFloat.
From S2P Require Import Prelude.

Local Open Scope Z_scope.

#[global] Instance spec_float_eq_dec : EqDecision spec_float.
Proof. solve_decision. Defined.

Module F64.

Abbreviation t := spec_float.

Definition prec : Z := 53.
Definition emax : Z := 1024.

Definition of_Z (z : Z) : t := binary_normalize prec emax z 0 false.
Definition zero : t := S754_zero false.
Definition one : t := of_Z 1.
Definition infinity : t := S754_infinity false.

Definition add : t -> t -> t := SFadd prec emax.
Definition sub : t -> t -> t := SFsub prec emax.
Definition mul : t -> t -> t := SFmul prec emax.
Definition div : t -> t -> t := SFdiv prec emax.
Definition eqb : t -> t -> bool := SFeqb.
Definition ltb : t -> t -> bool := SFltb.
Definition leb : t -> t -> bool := SFleb.

Definition is_nan (x : t) : bool := match x with S754_nan => true | _ => false end.

Definition is_finite (x : t) : bool :=
  match x with S754_zero _ | S754_finite _ _ _ => true | _ => false end.

(** [f64::min] and [f64::max] return the other operand when one is NaN. *)
Definition min (x y : t) : t :=
  if is_nan x then y else if is_nan y then x else if ltb y x then y else x.
Definition max (x y : t) : t :=
  if is_nan x then y else if is_nan y then x else if ltb x y then y else x.

(** The value of a finite float times [2^k], rounded down and up. *)
Definition floor_Z (s : bool) (m : positive) (e : Z) : Z :=
  let v := cond_Zopp s (Zpos m) in
  if 0 <=? e then v * 2 ^ e else v / 2 ^ (- e).
Definition ceil_Z (s : bool) (m : positive) (e : Z) : Z := - floor_Z (negb s) m e.

(** The float of an integer of at most 53 bits, exact and in canonical form. *)
Definition int_float (s : bool) (p : positive) : t :=
  let d := Zpos (digits2_pos p) in
  if d <=? prec then S754_finite s (Z.to_pos (Zpos p * 2 ^ (prec - d))) (d - prec)
  else of_Z (cond_Zopp s (Zpos p)).

(** [f64::ceil]: a canonical float with a negative exponent is below [2^52] in absolute value, so
    the result is an integer of at most 53 bits. *)
Definition ceil (x : t) : t :=
  match x with
  | S754_finite s m e => if 0 <=? e then x else
      match ceil_Z s m e with
      | 0 => S754_zero s
      | Zpos p => int_float false p
      | Zneg p => int_float true p
      end
  | _ => x
  end.

(** [f64::round]: to the nearest integer, halves away from zero. *)
Definition round (x : t) : t :=
  match x with
  | S754_finite s m e => if 0 <=? e then x else
      match (2 * Zpos m + 2 ^ (- e)) / (2 * 2 ^ (- e)) with
      | 0 => S754_zero s
      | z => of_Z (cond_Zopp s z)
      end
  | _ => x
  end.

(** The integer part, towards zero; [as] casts clamp it to the target width. *)
Definition trunc_Z (s : bool) (m : positive) (e : Z) : Z :=
  if 0 <=? e then cond_Zopp s (Zpos m * 2 ^ e) else cond_Zopp s (Zpos m / 2 ^ (- e)).

Definition as_int (lo hi : Z) (x : t) : Z :=
  match x with
  | S754_nan => 0
  | S754_zero _ => 0
  | S754_infinity s => if s then lo else hi
  | S754_finite s m e => clamp lo hi (trunc_Z s m e)
  end.

Definition as_u64 : t -> Z := as_int 0 u64_max.
Definition as_i64 : t -> Z := as_int i64_min i64_max.
Definition as_i128 : t -> Z := as_int i128_min i128_max.

(** A [Duration] is a number of nanoseconds; [Duration::as_secs_f64] adds the seconds and the
    nanoseconds as floats. *)
Definition nanos_per_sec : Z := 10 ^ 9.
Definition as_secs_f64 (d : Z) : t :=
  add (of_Z (d / nanos_per_sec)) (div (of_Z (d mod nanos_per_sec)) (of_Z nanos_per_sec)).

(** ** Order *)

Lemma compare_refl x : is_nan x = false -> SFcompare x x = Some Eq.
Proof.
  destruct x as [s|s| |s m e]; cbn; try done; [by destruct s|].
  rewrite Z.compare_refl. intros _. destruct s; by rewrite Pos.compare_cont_refl.
Qed.

Lemma leb_refl x : is_nan x = false -> leb x x = true.
Proof. intros H. unfold leb, SFleb. by rewrite compare_refl. Qed.

Lemma ltb_leb x y : ltb x y = true -> leb x y = true.
Proof. unfold ltb, leb, SFltb, SFleb. by destruct (SFcompare x y) as [[]|]. Qed.

Lemma compare_swap x y :
  SFcompare y x = option_map CompOpp (SFcompare x y).
Proof.
  destruct x as [s|s| |s m e], y as [s'|s'| |s' m' e']; cbn;
    try done; try (by destruct s); try (by destruct s'); try (by destruct s, s').
  destruct s, s'; cbn; try done;
    rewrite (Z.compare_antisym e e'); destruct (e ?= e'); cbn; try done;
    rewrite (Pos.compare_cont_antisym m m' Eq); cbn; by destruct (Pos.compare_cont Eq m m').
Qed.

Lemma ltb_total x y :
  is_nan x = false -> is_nan y = false -> ltb y x = false -> leb x y = true.
Proof.
  intros Hx Hy. unfold ltb, leb, SFltb, SFleb. rewrite (compare_swap x y).
  destruct (SFcompare x y) as [[]|] eqn:E; cbn; try done.
  destruct x as [[]|[]| |[] ? ?], y as [[]|[]| |[] ? ?]; cbn in *; try done.
  all: destruct (_ ?= _)%Z in E; cbn in E; try done.
Qed.

Lemma min_le_r x y : is_nan y = false -> leb (min x y) y = true.
Proof.
  intros Hy. unfold min. destruct (is_nan x) eqn:Hx; [by apply leb_refl|].
  rewrite Hy. destruct (ltb y x) eqn:E; [by apply leb_refl | by apply ltb_total].
Qed.

Lemma min_nan x y : is_nan y = false -> is_nan (min x y) = false.
Proof. intros Hy. unfold min. destruct (is_nan x) eqn:?; [done|]. rewrite Hy. by case_match. Qed.

Lemma max_cases x y : max x y = x \/ max x y = y.
Proof. unfold max. repeat case_match; auto. Qed.

Lemma as_int_bounds lo hi x : lo <= 0 <= hi -> lo <= as_int lo hi x <= hi.
Proof. intros H. destruct x as [s|s| |s m e]; cbn; try lia; [destruct s; lia|]. unfold clamp. lia. Qed.

(** ** Canonical floats *)

Lemma digits2_pos_spec p :
  2 ^ (Zpos (digits2_pos p) - 1) <= Zpos p < 2 ^ Zpos (digits2_pos p).
Proof.
  induction p as [p IH|p IH|]; cbn [digits2_pos]; [| |done].
  all: rewrite Pos2Z.inj_succ; rewrite Z.pow_succ_r by lia.
  all: replace (Z.succ (Zpos (digits2_pos p)) - 1) with (Z.succ (Zpos (digits2_pos p) - 1)) by lia.
  all: rewrite Z.pow_succ_r by lia; lia.
Qed.

Definition valid (x : t) : bool := valid_binary prec emax x.

Lemma valid_finite s m e :
  valid (S754_finite s m e) = true ->
  Zpos m < 2 ^ prec /\ (- 1074 < e -> 2 ^ (prec - 1) <= Zpos m).
Proof.
  unfold valid, valid_binary, bounded, canonical_mantissa. intros [H _]%andb_true_iff.
  apply Z.eqb_eq in H. unfold fexp, emin, prec, emax in *.
  pose proof (digits2_pos_spec m) as [Hlo Hhi]. split.
  - eapply Z.lt_le_trans; [exact Hhi|]. apply Z.pow_le_mono_r; lia.
  - intros He. etrans; [|exact Hlo]. apply Z.pow_le_mono_r; lia.
Qed.

Lemma digits2_pos_unique p d :
  0 < d -> 2 ^ (d - 1) <= Zpos p < 2 ^ d -> Zpos (digits2_pos p) = d.
Proof.
  intros Hd H. pose proof (digits2_pos_spec p) as H'. set (d' := Zpos (digits2_pos p)) in *.
  assert (0 < d') by done.
  destruct (Z.lt_total d' d) as [?|[?|?]]; [|done|].
  - assert (2 ^ d' <= 2 ^ (d - 1)) by (apply Z.pow_le_mono_r; lia). lia.
  - assert (2 ^ d <= 2 ^ (d' - 1)) by (apply Z.pow_le_mono_r; lia). lia.
Qed.

Lemma int_float_valid s p : Zpos p < 2 ^ prec -> valid (int_float s p) = true.
Proof.
  intros Hp. unfold int_float. pose proof (digits2_pos_spec p) as [Hlo Hhi].
  set (d := Zpos (digits2_pos p)) in *. assert (0 < d) as Hd0 by done.
  assert (d <= prec) as Hd.
  { destruct (Z.le_gt_cases d prec) as [|Hgt]; [done|].
    assert (2 ^ prec <= 2 ^ (d - 1)) by (apply Z.pow_le_mono_r; lia). lia. }
  rewrite (proj2 (Z.leb_le d prec) Hd). unfold valid, valid_binary, bounded, canonical_mantissa.
  set (k := prec - d). assert (0 <= k) as Hk by lia. pose proof (Z.pow_pos_nonneg 2 k ltac:(lia) Hk).
  rewrite (digits2_pos_unique _ prec); [|done|].
  - unfold fexp, emin, prec, emax, k in *. apply andb_true_iff.
    split; [apply Z.eqb_eq; lia | apply Z.leb_le; lia].
  - rewrite Z2Pos.id by lia. unfold prec in *. replace 53 with (d + k) by lia. split.
    + replace (d + k - 1) with ((d - 1) + k) by lia. rewrite Z.pow_add_r by lia. nia.
    + rewrite Z.pow_add_r by lia. nia.
Qed.

Lemma ceil_valid x : valid x = true -> valid (ceil x) = true.
Proof.
  destruct x as [s|s| |s m e]; cbn [ceil]; try done. intros Hv.
  destruct (Z.leb_spec 0 e) as [|He]; [done|]. apply valid_finite in Hv as [Hm _].
  assert (Z.abs (ceil_Z s m e) <= 2 ^ 52).
  { unfold ceil_Z, floor_Z, prec in *. destruct (Z.leb_spec 0 e); [lia|].
    assert (2 ^ 1 <= 2 ^ (- e)) by (apply Z.pow_le_mono_r; lia).
    destruct s; cbn [negb cond_Zopp].
    - assert (0 <= Zpos m / 2 ^ (- e)) by (apply Z.div_pos; lia).
      assert (Zpos m / 2 ^ (- e) < 2 ^ 52) by (apply Z.div_lt_upper_bound; lia). lia.
    - assert (- 2 ^ 52 <= Z.opp (Zpos m) / 2 ^ (- e)) by (apply Z.div_le_lower_bound; lia).
      assert (Z.opp (Zpos m) / 2 ^ (- e) < 0) by (apply Z.div_lt_upper_bound; lia). lia. }
  assert (2 ^ 52 < 2 ^ prec) by done.
  destruct (ceil_Z s m e); [done|apply int_float_valid; lia..].
Qed.

Lemma pos_compare_not_lt m n :
  match Some (Pos.compare_cont Eq m n) with Some Lt => true | _ => false end = false ->
  Zpos n <= Zpos m.
Proof.
  change (Pos.compare_cont Eq m n) with (Pos.compare m n).
  destruct (Pos.compare_spec m n); [lia|done|lia].
Qed.

(** [x.max(1.0).min(hi) as u64] stays within its bounds, for the bound the error layer uses. *)
Lemma as_u64_clamped x :
  valid x = true ->
  1 <= as_u64 (min (max x (of_Z 1)) (of_Z 86400)) <= 86400.
Proof.
  intros Hv. unfold min, max.
  change (is_nan (of_Z 1)) with false. change (is_nan (of_Z 86400)) with false. cbv iota.
  destruct (is_nan x) eqn:Hn; [by vm_compute|].
  destruct (ltb x (of_Z 1)) eqn:H1; [by vm_compute|]. rewrite Hn.
  destruct (ltb (of_Z 86400) x) eqn:H2; [by vm_compute|].
  revert H1 H2. unfold ltb, SFltb.
  change (of_Z 1) with (S754_finite false 4503599627370496 (-52)).
  change (of_Z 86400) with (S754_finite false 5937362789990400 (-36)).
  destruct x as [s|s| |s m e]; cbn [SFcompare]; try done; try by destruct s.
  destruct s; [done|]. apply valid_finite in Hv as [Hhi Hlo]. unfold prec in *.
  destruct (Z.compare_spec e (-52)) as [->|He|He]; [|done|].
  - intros H1 _. unfold as_u64, as_int, trunc_Z, clamp, u64_max. cbn [cond_Zopp].
    change (0 <=? -52) with false. cbv iota. change (2 ^ (- -52)) with 4503599627370496.
    apply pos_compare_not_lt in H1.
    pose proof (Z.div_le_lower_bound (Zpos m) 4503599627370496 1 ltac:(lia) ltac:(lia)).
    pose proof (Z.div_lt_upper_bound (Zpos m) 4503599627370496 2 ltac:(lia) ltac:(lia)). lia.
  - intros _ H2. assert (e <= -36 /\ (e = -36 -> Zpos m <= 5937362789990400)) as [He2 Hm].
    { destruct (Z.compare_spec (-36) e) as [<-|?|?]; [|done|lia].
      apply pos_compare_not_lt in H2. lia. }
    specialize (Hlo ltac:(lia)). unfold as_u64, as_int, trunc_Z, clamp, u64_max. cbn [cond_Zopp].
    destruct (Z.leb_spec 0 e); [lia|].
    assert (2 ^ 36 <= 2 ^ (- e)) by (apply Z.pow_le_mono_r; lia).
    assert (2 ^ (- e) <= 2 ^ 51) by (apply Z.pow_le_mono_r; lia).
    assert (1 <= Zpos m / 2 ^ (- e)) by (apply Z.div_le_lower_bound; lia).
    assert (Zpos m / 2 ^ (- e) < 86401).
    { apply Z.div_lt_upper_bound; [lia|]. destruct (decide (e = -36)) as [->|].
      - specialize (Hm eq_refl). change (2 ^ (- -36)) with (2 ^ 36). lia.
      - assert (2 ^ 37 <= 2 ^ (- e)) by (apply Z.pow_le_mono_r; lia). lia. }
    lia.
Qed.

End F64.
