(* ===== verification/Json.v ===== *)
(** * JSON values

The data type of [serde_json::Value] as the gateway uses it. The crate is built without its
[preserve_order] feature (see [Cargo.lock]), so an object is a [BTreeMap]: a list of bindings
strictly sorted by key. [Map] holds the map operations, [wf] the sortedness invariant of a value
and the lemmas that every operation keeps it. The JSON parser and printer are code of the crate
and are parameters of the definitions that call them. *)

From Stdlib Require Export Sorted.
From S2P Require Import Prelude Float.

(** ** Sorted maps *)

Module Map.

Section map.
Context {A : Type}.
Implicit Types (m : list (string * A)).

Fixpoint get (k : string) m : option A :=
  match m with
  | [] => None
  | (k', v) :: m' => if bool_decide (k = k') then Some v else get k m'
  end.

Fixpoint insert (k : string) (v : A) m : list (string * A) :=
  match m with
  | [] => [(k, v)]
  | (k', v') :: m' =>
      match String.compare k k' with
      | Lt => (k, v) :: m
      | Eq => (k, v) :: m'
      | Gt => (k', v') :: insert k v m'
      end
  end.

Definition remove (k : string) m : list (string * A) :=
  List.filter (fun kv => negb (bool_decide (kv.1 = k))) m.

Definition retain (p : string -> A -> bool) m : list (string * A) :=
  List.filter (fun kv => p kv.1 kv.2) m.

Definition keys m : list string := m.*1.

Definition of_list (l : list (string * A)) : list (string * A) :=
  foldl (fun m kv => insert kv.1 kv.2 m) [] l.

Definition contains (k : string) m : bool := bool_decide (is_Some (get k m)).

Definition lt_key (k1 k2 : string) : Prop := String.compare k1 k2 = Lt.

(** Keys strictly increasing. *)
Definition sorted m : Prop := StronglySorted lt_key (keys m).

Lemma string_compare_refl k : String.compare k k = Eq.
Proof.
  induction k as [|a k IH]; cbn; [done|]. unfold Ascii.compare. by rewrite N.compare_refl.
Qed.

Lemma compare_gt_lt k1 k2 : String.compare k1 k2 = Gt -> lt_key k2 k1.
Proof. unfold lt_key. intros H. by rewrite String.compare_antisym, H. Qed.

#[global] Instance lt_key_trans : Transitive lt_key.
Proof.
  unfold lt_key. intros x. induction x as [|a x IH]; intros [|b y] [|c z]; cbn; try done.
  assert (forall p q, Ascii.compare p q = Lt <-> (Ascii.N_of_ascii p < Ascii.N_of_ascii q)%N)
    as Hlt by (intros; apply N.compare_lt_iff).
  assert (forall p q, Ascii.compare p q = Eq <-> p = q) as Heq
    by (intros p q; split; [apply Ascii.compare_eq_iff | intros ->; apply N.compare_refl]).
  intros H1 H2.
  destruct (Ascii.compare a b) eqn:E1; try done; destruct (Ascii.compare b c) eqn:E2; try done.
  - apply Heq in E1 as ->. apply Heq in E2 as ->. rewrite (proj2 (Heq c c) eq_refl). by eapply IH.
  - apply Heq in E1 as ->. by rewrite E2.
  - apply Heq in E2 as ->. by rewrite E1.
  - apply Hlt in E1, E2. rewrite (proj2 (Hlt a c)); [done|by eapply N.lt_trans].
Qed.

Lemma lt_key_irrefl k : ~ lt_key k k.
Proof. unfold lt_key. by rewrite string_compare_refl. Qed.

Lemma get_insert_eq k v m : get k (insert k v m) = Some v.
Proof.
  induction m as [|[k' v'] m IH]; cbn; [by rewrite bool_decide_true|].
  destruct (String.compare k k') eqn:E; cbn; [by rewrite bool_decide_true..|].
  rewrite bool_decide_false; [done|]. intros ->. by rewrite string_compare_refl in E.
Qed.

Lemma get_insert_ne k k' v m : k <> k' -> get k (insert k' v m) = get k m.
Proof.
  intros Hne. induction m as [|[k0 v0] m IH]; cbn; [by rewrite bool_decide_false|].
  destruct (String.compare k' k0) eqn:E; cbn.
  - apply String.compare_eq_iff in E as ->. by rewrite !bool_decide_false.
  - by rewrite (bool_decide_false (k = k')).
  - by rewrite IH.
Qed.

Lemma get_insert k k' v m :
  get k (insert k' v m) = if bool_decide (k = k') then Some v else get k m.
Proof.
  case_bool_decide as H; [subst; apply get_insert_eq | by apply get_insert_ne].
Qed.

Lemma get_retain (p : string -> bool) k m :
  get k (retain (fun k' _ => p k') m) = if p k then get k m else None.
Proof.
  unfold retain. induction m as [|[k0 v0] m IH]; cbn; [by destruct (p k)|].
  destruct (p k0) eqn:Hp; cbn.
  - case_bool_decide as Hk; [subst; by rewrite Hp | done].
  - case_bool_decide as Hk; [subst; rewrite Hp in *; done | done].
Qed.

Lemma remove_retain k m : remove k m = retain (fun k' _ => negb (bool_decide (k' = k))) m.
Proof. done. Qed.

Lemma get_remove k k' m :
  get k (remove k' m) = if bool_decide (k = k') then None else get k m.
Proof. rewrite remove_retain, get_retain. by repeat case_bool_decide. Qed.

Lemma get_Some_in k v m : get k m = Some v -> (k, v) ∈ m.
Proof.
  induction m as [|[k0 v0] m IH]; cbn; [done|].
  case_bool_decide; intros; simplify_eq; [left | right; auto].
Qed.

Lemma get_None_keys k m : get k m = None <-> k ∉ keys m.
Proof.
  induction m as [|[k0 v0] m IH]; cbn; [split; [intros _ H; inversion H | done]|].
  rewrite not_elem_of_cons. case_bool_decide; naive_solver.
Qed.

Lemma in_get_Some k v m : sorted m -> (k, v) ∈ m -> get k m = Some v.
Proof.
  induction m as [|[k0 v0] m IH]; cbn; [intros _ H; inversion H|].
  intros Hs [[= -> ->]|Hin]%elem_of_cons; [by rewrite bool_decide_true|].
  apply StronglySorted_inv in Hs as [Hs Hall]. rewrite bool_decide_false; [by apply IH|].
  intros ->. rewrite Forall_forall in Hall. apply (lt_key_irrefl k0), Hall.
  apply list_elem_of_fmap. by exists (k0, v).
Qed.

Lemma keys_insert k v m k' : k' ∈ keys (insert k v m) -> k' = k \/ k' ∈ keys m.
Proof.
  induction m as [|[k0 v0] m IH]; cbn; [rewrite elem_of_cons; set_solver|].
  destruct (String.compare k k0) eqn:E; cbn; rewrite !elem_of_cons; [naive_solver..|].
  intros [->|H]; [by right; left|]. naive_solver.
Qed.

Lemma sorted_insert k v m : sorted m -> sorted (insert k v m).
Proof.
  unfold sorted. induction m as [|[k0 v0] m IH]; cbn; [intros; repeat constructor|].
  intros [Hs Hall]%StronglySorted_inv.
  destruct (String.compare k k0) eqn:E; cbn.
  - apply String.compare_eq_iff in E as ->. by constructor.
  - constructor; [by constructor|]. constructor; [done|].
    eapply Forall_impl; [exact Hall|]. intros x Hx. by etrans.
  - constructor; [by apply IH|]. rewrite Forall_forall in *. intros x [->|Hx]%keys_insert.
    + by apply compare_gt_lt.
    + by apply Hall.
Qed.

Lemma sorted_retain p m : sorted m -> sorted (retain p m).
Proof.
  unfold sorted, retain. induction m as [|[k0 v0] m IH]; cbn; [done|].
  intros [Hs Hall]%StronglySorted_inv. case_match; cbn; [|by apply IH].
  constructor; [by apply IH|]. rewrite Forall_forall in *. intros x Hx. apply Hall.
  apply list_elem_of_fmap in Hx as ([k v] & -> & Hin). apply list_elem_of_fmap.
  exists (k, v). split; [done|]. apply list_elem_of_In in Hin. apply filter_In in Hin as [Hin _].
  by apply list_elem_of_In.
Qed.

Lemma sorted_remove k m : sorted m -> sorted (remove k m).
Proof. rewrite remove_retain. apply sorted_retain. Qed.

Lemma sorted_of_list l : sorted (of_list l).
Proof.
  unfold of_list. assert (sorted (@nil (string * A))) as H by constructor.
  revert H. generalize (@nil (string * A)). induction l as [|[k v] l IH]; intros m Hm; cbn; [done|].
  by apply IH, sorted_insert.
Qed.

(** Two sorted maps with the same bindings are the same map. *)
Lemma sorted_ext m1 m2 :
  sorted m1 -> sorted m2 -> (forall k, get k m1 = get k m2) -> m1 = m2.
Proof.
  revert m2. induction m1 as [|[k1 v1] m1 IH]; intros [|[k2 v2] m2] Hs1 Hs2 Hget.
  - done.
  - specialize (Hget k2). cbn in Hget. by rewrite bool_decide_true in Hget.
  - specialize (Hget k1). cbn in Hget. by rewrite bool_decide_true in Hget.
  - pose proof Hs1 as [Hs1' Hall1]%StronglySorted_inv. pose proof Hs2 as [Hs2' Hall2]%StronglySorted_inv.
    rewrite Forall_forall in Hall1, Hall2.
    assert (k1 = k2) as <-.
    { destruct (decide (k1 = k2)) as [|Hne]; [done|]. exfalso.
      pose proof (Hget k1) as H1. pose proof (Hget k2) as H2. cbn in H1, H2.
      rewrite bool_decide_true, bool_decide_false in H1 by done.
      rewrite bool_decide_false, bool_decide_true in H2 by done.
      symmetry in H1. apply get_Some_in in H1, H2.
      apply (list_elem_of_fmap_2 fst) in H1, H2.
      apply (lt_key_irrefl k1). etrans; [by apply Hall1|]. by apply Hall2. }
    pose proof (Hget k1) as H1. cbn in H1. rewrite !bool_decide_true in H1 by done.
    simplify_eq. f_equal. apply IH; [done..|]. intros k. specialize (Hget k). cbn in Hget.
    case_bool_decide as Hk; [|done]. subst k.
    assert (forall m, sorted ((k1, v2) :: m) -> get k1 m = None) as Hnone.
    { intros m Hm. apply get_None_keys. intros Hin.
      apply StronglySorted_inv in Hm as [_ Hall]. rewrite Forall_forall in Hall.
      by apply (lt_key_irrefl k1), Hall. }
    by rewrite (Hnone m1), (Hnone m2).
Qed.

End map.

(** Mapping the values keeps the keys. *)
Definition map_values {A B} (f : string -> A -> B) (m : list (string * A)) : list (string * B) :=
  (fun kv => (kv.1, f kv.1 kv.2)) <$> m.

Lemma keys_map_values {A B} (f : string -> A -> B) m : keys (map_values f m) = keys m.
Proof. unfold keys, map_values. rewrite <-list_fmap_compose. by apply list_fmap_ext. Qed.

Lemma sorted_map_values {A B} (f : string -> A -> B) m : sorted m -> sorted (map_values f m).
Proof. unfold sorted. by rewrite keys_map_values. Qed.

Lemma get_map_values {A B} (f : string -> A -> B) k m :
  get k (map_values f m) = f k <$> get k m.
Proof.
  induction m as [|[k0 v0] m IH]; cbn; [done|]. case_bool_decide; [by subst|done].
Qed.

End Map.

Create HintDb json.
#[export] Hint Resolve Map.sorted_insert Map.sorted_retain Map.sorted_remove Map.sorted_of_list
  Map.sorted_map_values : json.

(** ** Values *)

(** [serde_json::Number]: a non-negative integer, a negative integer or a finite float. *)
Inductive Number : Type :=
| PosInt (n : Z)
| NegInt (n : Z)
| Float (f : F64.t).

Inductive Value : Type :=
| VNull
| VBool (b : bool)
| VNumber (n : Number)
| VString (s : string)
| VArray (items : list Value)
| VObject (m : list (string * Value)).

Section value_ind.
Variable P : Value -> Prop.
Hypothesis HNull : P VNull.
Hypothesis HBool : forall b, P (VBool b).
Hypothesis HNumber : forall n, P (VNumber n).
Hypothesis HString : forall s, P (VString s).
Hypothesis HArray : forall l, Forall P l -> P (VArray l).
Hypothesis HObject : forall m, Forall (fun kv => P kv.2) m -> P (VObject m).

Fixpoint value_nested_ind (v : Value) : P v :=
  match v with
  | VNull => HNull
  | VBool b => HBool b
  | VNumber n => HNumber n
  | VString s => HString s
  | VArray l =>
      HArray l ((fix go l : Forall P l :=
                   match l with
                   | [] => Forall_nil_2 _
                   | x :: l' => Forall_cons_2 _ _ _ (value_nested_ind x) (go l')
                   end) l)
  | VObject m =>
      HObject m ((fix go m : Forall (fun kv => P kv.2) m :=
                    match m with
                    | [] => Forall_nil_2 _
                    | kv :: m' => Forall_cons_2 _ _ _ (value_nested_ind kv.2) (go m')
                    end) m)
  end.

End value_ind.

(** The accessors of [serde_json::Value]. *)

Definition get (k : string) (v : Value) : option Value :=
  match v with VObject m => Map.get k m | _ => None end.

Definition as_str (v : Value) : option string :=
  match v with VString s => Some s | _ => None end.

Definition as_bool (v : Value) : option bool :=
  match v with VBool b => Some b | _ => None end.

Definition as_array (v : Value) : option (list Value) :=
  match v with VArray l => Some l | _ => None end.

Definition as_object (v : Value) : option (list (string * Value)) :=
  match v with VObject m => Some m | _ => None end.

Definition as_i64 (v : Value) : option Z :=
  match v with
  | VNumber (PosInt n) => if (n <=? i64_max)%Z then Some n else None
  | VNumber (NegInt n) => Some n
  | _ => None
  end.

Definition as_u64 (v : Value) : option Z :=
  match v with VNumber (PosInt n) => Some n | _ => None end.

Definition is_object (v : Value) : bool := match v with VObject _ => true | _ => false end.
Definition is_array (v : Value) : bool := match v with VArray _ => true | _ => false end.
Definition is_null (v : Value) : bool := match v with VNull => true | _ => false end.

(** [v["k"] = x] ([IndexMut]): inserts into an object, turns [null] into an object, and panics on
    any other value ([None]). *)
Definition set_index (k : string) (x : Value) (v : Value) : option Value :=
  match v with
  | VObject m => Some (VObject (Map.insert k x m))
  | VNull => Some (VObject [(k, x)])
  | _ => None
  end.

(** The [json!] macro on an object literal. *)
Definition json_object (l : list (string * Value)) : Value := VObject (Map.of_list l).

Definition of_int (z : Z) : Value := VNumber (if (0 <=? z)%Z then PosInt z else NegInt z).

Definition get_str (k : string) (v : Value) : option string := get k v ≫= as_str.

(** Well-formed values: every object, at any depth, is strictly sorted by key. *)
Fixpoint wf (v : Value) : Prop :=
  match v with
  | VArray l => (fix all l := match l with [] => True | x :: l' => wf x /\ all l' end) l
  | VObject m =>
      Map.sorted m /\
      (fix all m := match m with [] => True | (_, x) :: m' => wf x /\ all m' end) m
  | _ => True
  end.

Lemma wf_array l : wf (VArray l) <-> Forall wf l.
Proof.
  cbn. induction l as [|x l IH]; [by split; [constructor|]|].
  rewrite Forall_cons, <-IH. done.
Qed.

Lemma wf_object m : wf (VObject m) <-> Map.sorted m /\ Forall (fun kv => wf kv.2) m.
Proof.
  cbn. apply and_iff_compat_l. induction m as [|[k x] m IH]; [by split; [constructor|]|].
  rewrite Forall_cons, <-IH. done.
Qed.

Lemma wf_get k m v : wf (VObject m) -> Map.get k m = Some v -> wf v.
Proof.
  rewrite wf_object, Forall_forall. intros [_ Hall] H%Map.get_Some_in. by apply (Hall (k, v)).
Qed.

Lemma forall_insert (P : Value -> Prop) k v m :
  P v -> Forall (fun kv => P kv.2) m -> Forall (fun kv => P kv.2) (Map.insert k v m).
Proof.
  intros Hv Hm. induction Hm as [|[k0 v0] m H0 Hm IH]; cbn; [by repeat constructor|].
  case_match; by repeat constructor.
Qed.

Lemma forall_retain (P : Value -> Prop) p m :
  Forall (fun kv => P kv.2) m -> Forall (fun kv => P kv.2) (Map.retain p m).
Proof. intros Hm. induction Hm; cbn; [done|]. case_match; [by constructor|done]. Qed.

Lemma wf_insert k v m : wf v -> wf (VObject m) -> wf (VObject (Map.insert k v m)).
Proof.
  rewrite !wf_object. intros Hv [Hs Hm]. split; [by apply Map.sorted_insert | by apply forall_insert].
Qed.

Lemma wf_retain p m : wf (VObject m) -> wf (VObject (Map.retain p m)).
Proof.
  rewrite !wf_object. intros [Hs Hm]. split; [by apply Map.sorted_retain | by apply forall_retain].
Qed.

Lemma wf_remove k m : wf (VObject m) -> wf (VObject (Map.remove k m)).
Proof. rewrite Map.remove_retain. apply wf_retain. Qed.

#[export] Hint Resolve wf_insert wf_retain wf_remove : json.
