(* ===== verification/Errors.v ===== *)
(** * Errors and their responses

[AppError] of [src/error.rs] with [with_request_id] and [into_response], and the rejection
message templates [MessageTemplates] of [src/state.rs]. A request id is the text of a UUID. *)

From Stdlib Require Import SpecFloat.
From S2P Require Import Prelude Float Json.

Local Open Scope Z_scope.

Inductive AppError : Type :=
| Auth (m : string)
| Unauthorized (m : string)
| Forbidden (m : string)
| RateLimited (secs : F64.t)
| ConcurrentLimited (m : string) (secs : F64.t)
| PlanQuotaExceeded (m : string) (retry : option Z)
| Conflict (m : string)
| BadRequest (m : string)
| Internal (m : string)
| ServiceUnavailable (m : string)
| UpstreamTimeout (m : string)
| BadGateway (m : string)
| UpstreamExhausted (m : string)
| WithRequestId (inner : AppError) (request_id : string).

Definition with_request_id (e : AppError) (request_id : string) : AppError :=
  match e with
  | WithRequestId inner _ => WithRequestId inner request_id
  | other => WithRequestId other request_id
  end.

(** An HTTP response: status, headers in the order they are added, JSON body. *)
Record Response : Type := {
  status : Z;
  headers : list (string * string);
  body : Value;
}.

(** [secs.ceil().max(1.0).min(86400.0) as u64] *)
Definition retry_after_secs (secs : F64.t) : Z :=
  F64.as_u64 (F64.min (F64.max (F64.ceil secs) (F64.of_Z 1)) (F64.of_Z 86400)).

(** The (status, code, message, retry-after) of an unwrapped error. *)
Definition error_parts (e : AppError) : option (Z * string * string * option Z) :=
  match e with
  | WithRequestId _ _ => None
  | Auth m => Some (401, "invalid_api_key", m, None)
  | Unauthorized m => Some (401, "unauthorized", m, None)
  | Forbidden m => Some (403, "forbidden", m, None)
  | RateLimited secs =>
      let retry := retry_after_secs secs in
      Some (429, "rate_limit_exceeded",
            "Rate limit exceeded, retry after " +:+ pretty retry +:+ "s", Some retry)
  | ConcurrentLimited m secs => Some (429, "rate_limit_exceeded", m, Some (retry_after_secs secs))
  | PlanQuotaExceeded m retry => Some (429, "insufficient_quota", m, retry)
  | Conflict m => Some (409, "conflict", m, None)
  | BadRequest m => Some (400, "invalid_request_error", m, None)
  | Internal m => Some (500, "internal_error", m, None)
  | ServiceUnavailable m => Some (503, "api_disabled", m, None)
  | UpstreamTimeout m => Some (504, "upstream_timeout", m, None)
  | BadGateway m => Some (502, "bad_gateway", m, None)
  | UpstreamExhausted m => Some (503, "upstream_exhausted", m, None)
  end.

Definition build_response (request_id : option string) (parts : Z * string * string * option Z)
    : Response :=
  let '(st, code, message, retry_after) := parts in
  {| status := st;
     headers :=
       [("content-type", "application/json")] ++
       match retry_after with Some r => [("Retry-After", pretty r)] | None => [] end ++
       match request_id with Some id => [("X-Request-Id", id)] | None => [] end;
     body := json_object [("error", json_object [("message", VString message);
                                                 ("type", VString code);
                                                 ("code", VString code)])] |}.

(** A doubly wrapped error is unwrapped by a recursive call, which drops the outer id. *)
Fixpoint into_response (e : AppError) : Response :=
  match e with
  | WithRequestId inner id =>
      match error_parts inner with
      | Some parts => build_response (Some id) parts
      | None => match inner with WithRequestId inner' _ => into_response inner' | _ => into_response inner end
      end
  | other => match error_parts other with
             | Some parts => build_response None parts
             | None => build_response None (0, "", "", None)
             end
  end.

(** ** Message templates *)

Definition DEFAULT_MSG_CONCURRENCY : string :=
  "并发请求过高，请稍后重试（{retry} 秒后自动恢复）".
Definition DEFAULT_MSG_MODEL_DENIED : string :=
  "您的当前订阅套餐尚未包含对模型 {model} 的访问权限，请联系管理员开通".

Record MessageTemplates : Type := {
  tpl_concurrency : string;
  tpl_model_denied : string;
}.

Definition concurrency_tpl (t : MessageTemplates) : string :=
  if str_is_empty (trim t.(tpl_concurrency)) then DEFAULT_MSG_CONCURRENCY else t.(tpl_concurrency).

Definition model_denied_tpl (t : MessageTemplates) : string :=
  if str_is_empty (trim t.(tpl_model_denied)) then DEFAULT_MSG_MODEL_DENIED
  else t.(tpl_model_denied).

Definition concurrency_message (t : MessageTemplates) (retry_secs : Z) : string :=
  str_replace "{retry}" (pretty retry_secs) (concurrency_tpl t).

Definition model_denied_message (t : MessageTemplates) (model : string) : string :=
  str_replace "{model}" model (model_denied_tpl t).

(** ** Properties *)

Lemma retry_after_secs_bounds secs :
  F64.valid secs = true -> 1 <= retry_after_secs secs <= 86400.
Proof. intros H. by apply F64.as_u64_clamped, F64.ceil_valid. Qed.

Definition header (k : string) (r : Response) : option string := Map.get k r.(headers).

(** The status codes the gateway answers errors with, each fixed by the error's constructor. *)
Fixpoint error_status (e : AppError) : Z :=
  match e with
  | Auth _ | Unauthorized _ => 401
  | Forbidden _ => 403
  | RateLimited _ | ConcurrentLimited _ _ | PlanQuotaExceeded _ _ => 429
  | Conflict _ => 409
  | BadRequest _ => 400
  | Internal _ => 500
  | ServiceUnavailable _ | UpstreamExhausted _ => 503
  | UpstreamTimeout _ => 504
  | BadGateway _ => 502
  | WithRequestId inner _ => error_status inner
  end.

Lemma into_response_status e : status (into_response e) = error_status e.
Proof.
  assert (forall n e, (fix depth e := match e with WithRequestId i _ => S (depth i) | _ => O end) e
            <= n -> status (into_response e) = error_status e)%nat as H.
  { clear e. intros n. induction n as [|n IH]; intros [] Hd; try done; cbn in Hd; [lia|].
    destruct inner; try done. cbn in *. apply IH. lia. }
  by eapply H.
Qed.

(** Errors are wrapped through [with_request_id] only, which never nests two wrappers. *)
Definition double_wrapped (e : AppError) : bool :=
  match e with WithRequestId (WithRequestId _ _) _ => true | _ => false end.

Lemma with_request_id_not_double e id :
  double_wrapped e = false -> double_wrapped (with_request_id e id) = false.
Proof. by destruct e as [| | | | | | | | | | | | |[] rid]. Qed.

Lemma build_response_id id parts :
  header "X-Request-Id" (build_response (Some id) parts) = Some id.
Proof. by destruct parts as [[[st code] m] [r|]]. Qed.

Lemma build_response_retry rid st code m r :
  header "Retry-After" (build_response rid (st, code, m, r)) = pretty <$> r.
Proof. by destruct r, rid. Qed.

(** A response built from a wrapped error carries the request id it was last wrapped with and
    the status of the error itself, and its [Retry-After], where the error has one, is between one
    second and a day for every wait the rate limiters can compute, infinite and NaN included. *)
Theorem error_response_contract e id :
  double_wrapped e = false ->
  (forall secs, (exists m, e = ConcurrentLimited m secs) \/ e = RateLimited secs ->
     F64.valid secs = true) ->
  header "X-Request-Id" (into_response (with_request_id e id)) = Some id /\
  status (into_response (with_request_id e id)) = error_status e /\
  match e with
  | RateLimited _ | ConcurrentLimited _ _ =>
      exists r, 1 <= r <= 86400 /\
        header "Retry-After" (into_response (with_request_id e id)) = Some (pretty r)
  | _ => True
  end.
Proof.
  intros Hd Hv. rewrite into_response_status. split; [|split; [by destruct e|]].
  - destruct e as [| | | | | | | | | | | | |[] rid]; try apply build_response_id. done.
  - destruct e; try done; eexists; (split; [apply retry_after_secs_bounds, Hv; naive_solver|]);
      apply build_response_retry.
Qed.

Lemma error_response_contract_witness :
  header "X-Request-Id" (into_response (with_request_id (RateLimited F64.infinity) "id-1")) =
    Some "id-1" /\
  exists r, 1 <= r <= 86400 /\
    header "Retry-After" (into_response (with_request_id (RateLimited F64.infinity) "id-1")) =
      Some (pretty r).
Proof.
  destruct (error_response_contract (RateLimited F64.infinity) "id-1") as (H1 & _ & H3).
  - reflexivity.
  - intros secs [[m H]|H]; [discriminate | inversion H; reflexivity].
  - split; [exact H1 | exact H3].
Defined.
