(* ===== verification/RateLimit.v ===== *)
(** * Rate limits

[src/service/ratelimit.rs]: the token buckets that guard the console login ([RateLimiter]), the
rules of [src/store/rules.rs] matched against a request ([matched_rules]), and the in-flight
request counters ([Concurrency]) with their RAII guards. The mutexes of the source make every
operation atomic, so a limiter is a pure state and an operation a function on it. *)

From Stdlib Require Import SpecFloat.
From S2P Require Import Prelude Float Json Errors.

Local Open Scope Z_scope.

(** ** Token buckets *)

Module RateLimiter.

(** Instants are nanoseconds on the boot-time clock. *)
Record Bucket : Type := {
  tokens : F64.t;
  last : Z;
  rpm : F64.t;
  burst : F64.t;
}.

Definition MAX_BUCKETS : Z := 10000.
Definition IDLE_EVICT_AFTER : Z := 3600 * F64.nanos_per_sec.

Definition len (buckets : gmap string Bucket) : Z := Z.of_nat (size buckets).

(** [Duration::saturating_sub] *)
Definition saturating_sub (a b : Z) : Z := Z.max 0 (a - b).

Definition evict (now : Z) (buckets : gmap string Bucket) : gmap string Bucket :=
  if MAX_BUCKETS <=? len buckets then
    let kept := filter (fun kb => saturating_sub now kb.2.(last) < IDLE_EVICT_AFTER) buckets in
    if MAX_BUCKETS <=? len kept then ∅ else kept
  else buckets.

Definition refill (now : Z) (rpm' burst' : F64.t) (b : Bucket) : Bucket :=
  let elapsed := F64.as_secs_f64 (saturating_sub now b.(last)) in
  {| tokens := F64.min (F64.add b.(tokens)
                         (F64.div (F64.mul elapsed rpm') (F64.of_Z 60))) burst';
     last := now; rpm := rpm'; burst := burst' |}.

(** The parameters are refreshed on every check, so the stored ones never matter. *)
Definition check_at (now : Z) (key : string) (rpm' burst' : F64.t) (buckets : gmap string Bucket)
    : gmap string Bucket * result unit F64.t :=
  let buckets := evict now buckets in
  let bucket := default {| tokens := burst'; last := now; rpm := rpm'; burst := burst' |}
                        (buckets !! key) in
  let bucket := refill now rpm' burst' bucket in
  let ok := F64.leb F64.one bucket.(tokens) in
  let bucket :=
    if ok then {| tokens := F64.sub bucket.(tokens) F64.one; last := bucket.(last);
                  rpm := bucket.(rpm); burst := bucket.(burst) |}
    else bucket in
  (<[key := bucket]> buckets,
   if ok then Ok tt
   else Err (if F64.ltb F64.zero rpm'
             then F64.div (F64.sub F64.one bucket.(tokens)) (F64.div rpm' (F64.of_Z 60))
             else F64.infinity)).

Definition reset (key : string) (buckets : gmap string Bucket) : gmap string Bucket :=
  delete key buckets.

(** *** Bounded memory *)

Lemma len_evict now buckets : len (evict now buckets) < MAX_BUCKETS.
Proof.
  unfold evict. destruct (Z.leb_spec MAX_BUCKETS (len buckets)); [|done].
  case_match eqn:E; [|by apply Z.leb_gt in E]. unfold len. by rewrite map_size_empty.
Qed.

Lemma len_insert key b buckets : len (<[key := b]> buckets) <= len buckets + 1.
Proof. unfold len. rewrite map_size_insert. destruct (_ !! _); unfold id; lia. Qed.

Inductive step : gmap string Bucket -> gmap string Bucket -> Prop :=
| step_check now key r b m : step m (check_at now key r b m).1
| step_reset key m : step m (reset key m).

(** Whatever keys an attacker sends, the bucket table never holds more than [MAX_BUCKETS]
    entries: every state reachable by [check_at] and [reset] from the empty table is bounded. *)
Theorem buckets_bounded m : rtc step ∅ m -> len m <= MAX_BUCKETS.
Proof.
  revert m. apply (rtc_ind_r (fun m => len m <= MAX_BUCKETS)).
  - unfold len. rewrite map_size_empty. done.
  - intros x y _ [now key r b m'|key m'] IH; cbn.
    + etrans; [apply len_insert|]. pose proof (len_evict now m'). lia.
    + unfold reset, len in *. rewrite map_size_delete. destruct (_ !! _); unfold id; lia.
Qed.

Lemma buckets_bounded_witness :
  len (check_at 0 "login:user:a" (F64.of_Z 10) (F64.of_Z 10) ∅).1 <= MAX_BUCKETS.
Proof. apply buckets_bounded. eapply rtc_once. apply step_check. Defined.

(** *** Admission *)

Lemma check_at_lookup now key r b m :
  exists bk, (check_at now key r b m).1 !! key = Some bk /\ bk.(last) = now.
Proof.
  unfold check_at. eexists. split; [apply lookup_insert_eq|]. by case_match.
Qed.

(** A check touches no other key's bucket while the table is below its bound. *)
Lemma check_at_other now key key' r b m :
  key <> key' -> len m < MAX_BUCKETS -> (check_at now key r b m).1 !! key' = m !! key'.
Proof.
  intros Hne Hlen. unfold check_at, evict. cbn.
  destruct (Z.leb_spec MAX_BUCKETS (len m)); [lia|]. by rewrite lookup_insert_ne.
Qed.

(** A rejected check deducts nothing: the stored bucket is exactly the refilled one. *)
Lemma check_at_reject now key r b m w bk :
  len m < MAX_BUCKETS -> m !! key = Some bk -> (check_at now key r b m).2 = Err w ->
  (check_at now key r b m).1 !! key = Some (refill now r b bk) /\
  F64.leb F64.one (refill now r b bk).(tokens) = false.
Proof.
  intros Hlen Hk. unfold check_at, evict. destruct (Z.leb_spec MAX_BUCKETS (len m)); [lia|].
  rewrite Hk. cbn [from_option id fst snd]. destruct (F64.leb F64.one _) eqn:E; [done|].
  intros _. by rewrite lookup_insert_eq.
Qed.

(** *** Bursts at one instant *)

Fixpoint burst_run (n : nat) (now : Z) (key : string) (r b : F64.t) (m : gmap string Bucket)
    : list bool :=
  match n with
  | 0%nat => []
  | S n' => let '(m', res) := check_at now key r b m in is_ok res :: burst_run n' now key r b m'
  end.

Definition at_rest (now : Z) (k : Z) (r b : F64.t) : Bucket :=
  {| tokens := F64.of_Z k; last := now; rpm := r; burst := b |}.

(** With no time elapsed a refill leaves a bucket of [k <= b] tokens as it is. *)
Definition rest_ok (r b : Z) : bool :=
  forallb (fun k =>
    let t := F64.of_Z (Z.of_nat k) in
    let t' := F64.min (F64.add t (F64.div (F64.mul (F64.as_secs_f64 0) (F64.of_Z r))
                                         (F64.of_Z 60))) (F64.of_Z b) in
    bool_decide (t' = t) && Bool.eqb (F64.leb F64.one t') (0 <? Z.of_nat k) &&
    bool_decide (0 <? Z.of_nat k = true -> F64.sub t' F64.one = F64.of_Z (Z.of_nat k - 1)))
    (seq 0 (S (Z.to_nat b))).

Lemma rest_ok_at r b now k :
  rest_ok r b = true -> 0 <= k <= b ->
  refill now (F64.of_Z r) (F64.of_Z b) (at_rest now k (F64.of_Z r) (F64.of_Z b)) =
    at_rest now k (F64.of_Z r) (F64.of_Z b) /\
  F64.leb F64.one (F64.of_Z k) = (0 <? k) /\
  (0 < k -> F64.sub (F64.of_Z k) F64.one = F64.of_Z (k - 1)).
Proof.
  intros H Hk. unfold rest_ok in H. rewrite forallb_forall in H.
  specialize (H (Z.to_nat k)). rewrite in_seq, Z2Nat.id in H by lia.
  specialize (H ltac:(lia)). apply andb_true_iff in H as [[H1 H2]%andb_true_iff H3].
  apply bool_decide_eq_true in H1, H3. apply Bool.eqb_prop in H2. rewrite H1 in H2, H3.
  unfold refill, at_rest, saturating_sub. cbn [tokens last]. rewrite Z.sub_diag. change (Z.max 0 0) with 0.
  rewrite H1. split; [done|]. split; [done|]. intros. apply H3. by apply Z.ltb_lt.
Qed.

Lemma burst_run_from r b now key n k m :
  rest_ok r b = true -> 0 <= k <= b -> len m < MAX_BUCKETS ->
  m !! key = Some (at_rest now k (F64.of_Z r) (F64.of_Z b)) ->
  burst_run n now key (F64.of_Z r) (F64.of_Z b) m =
    (fun i => bool_decide (Z.of_nat i < k)) <$> seq 0 n.
Proof.
  intros Hok. revert k m. induction n as [|n IH]; intros k m Hk Hlen Hm; [done|].
  cbn [burst_run]. unfold check_at, evict.
  destruct (Z.leb_spec MAX_BUCKETS (len m)); [lia|]. rewrite Hm. cbn [from_option id].
  destruct (rest_ok_at r b now k Hok Hk) as (-> & Hle & Hsub). cbn [tokens last rpm burst at_rest].
  rewrite Hle. change (seq 0 (S n)) with (0%nat :: seq 1 n).
  rewrite <-fmap_S_seq, fmap_cons, <-list_fmap_compose.
  assert (forall bk, len (<[key:=bk]> m) = len m) as Hlen'.
  { intros bk. unfold len. by rewrite map_size_insert, Hm. }
  destruct (Z.ltb_spec 0 k).
  - rewrite Hsub by lia. cbn [is_ok]. f_equal; [by rewrite bool_decide_true by lia|].
    rewrite (IH (k - 1)); [|lia|by rewrite Hlen'|by rewrite lookup_insert_eq].
    apply list_fmap_ext. intros i x _. apply bool_decide_ext. cbn. lia.
  - cbn [is_ok]. f_equal; [by rewrite bool_decide_false by lia|].
    rewrite (IH k); [|lia|by rewrite Hlen'|by rewrite lookup_insert_eq].
    apply list_fmap_ext. intros i x _. apply bool_decide_ext. cbn. lia.
Qed.

(** The first check on a fresh key takes one token off a full bucket. *)
Lemma burst_run_fresh r b now key n m :
  rest_ok r b = true -> 0 <= b -> len m + 1 < MAX_BUCKETS -> m !! key = None ->
  burst_run n now key (F64.of_Z r) (F64.of_Z b) m =
    (fun i => bool_decide (Z.of_nat i < b)) <$> seq 0 n.
Proof.
  intros Hok Hb Hlen Hm.
  rewrite <-(burst_run_from r b now key n b
               (<[key := at_rest now b (F64.of_Z r) (F64.of_Z b)]> m));
    [|done|lia|pose proof (len_insert key (at_rest now b (F64.of_Z r) (F64.of_Z b)) m); lia
     |apply lookup_insert_eq].
  destruct n as [|n]; [done|]. cbn [burst_run]. unfold check_at, evict.
  pose proof (len_insert key (at_rest now b (F64.of_Z r) (F64.of_Z b)) m).
  destruct (Z.leb_spec MAX_BUCKETS (len m)); [lia|].
  destruct (Z.leb_spec MAX_BUCKETS (len (<[key := at_rest now b (F64.of_Z r) (F64.of_Z b)]> m))); [lia|].
  rewrite Hm, lookup_insert_eq. cbn [from_option id]. change {| tokens := F64.of_Z b; last := now;
    rpm := F64.of_Z r; burst := F64.of_Z b |} with (at_rest now b (F64.of_Z r) (F64.of_Z b)).
  by rewrite !insert_insert_eq.
Qed.

(** With the parameters of the console login, from no history, exactly the first ten attempts
    on a user name made at one instant pass and every further one is refused, and likewise the
    first thirty from one address; in IEEE double arithmetic, for every key and instant. *)
Theorem login_burst_exact now key n m :
  len m + 1 < MAX_BUCKETS -> m !! key = None ->
  burst_run n now key (F64.of_Z 10) (F64.of_Z 10) m =
    ((fun i => bool_decide (Z.of_nat i < 10)) <$> seq 0 n) /\
  burst_run n now key (F64.of_Z 30) (F64.of_Z 30) m =
    ((fun i => bool_decide (Z.of_nat i < 30)) <$> seq 0 n).
Proof.
  intros Hlen Hm. split; apply burst_run_fresh; try done; try lia; by vm_compute.
Qed.

Lemma login_burst_exact_witness :
  burst_run 12 1000 "login:user:alice" (F64.of_Z 10) (F64.of_Z 10) ∅ =
    (replicate 10 true ++ [false; false]).
Proof.
  rewrite (proj1 (login_burst_exact 1000 "login:user:alice" 12 ∅ ltac:(by vm_compute) eq_refl)).
  reflexivity.
Defined.

(** The console login: 10 attempts a minute for a user name, 30 for a source address. *)
Definition login_check (now : Z) (username client_ip : string) (m : gmap string Bucket)
    : gmap string Bucket * result unit AppError :=
  match check_at now ("login:user:" +:+ username) (F64.of_Z 10) (F64.of_Z 10) m with
  | (m1, Err secs) => (m1, Err (RateLimited secs))
  | (m1, Ok _) =>
      match check_at now ("login:ip:" +:+ client_ip) (F64.of_Z 30) (F64.of_Z 30) m1 with
      | (m2, Err secs) => (m2, Err (RateLimited secs))
      | (m2, Ok _) => (m2, Ok tt)
      end
  end.

Definition login_succeeded (username client_ip : string) (m : gmap string Bucket)
    : gmap string Bucket :=
  reset ("login:ip:" +:+ client_ip) (reset ("login:user:" +:+ username) m).

End RateLimiter.

(** ** Rules *)

Record RateRule : Type := {
  scope : string;
  scope_id : option Z;
  rule_model : option string;
  concurrency : Z;
}.

(** The bucket key of a rule's scope for a request; [None] when the rule does not apply. *)
Definition scope_key (r : RateRule) (user_id key_id : option Z) : option string :=
  if bool_decide (r.(scope) = "global") then Some "global"
  else if bool_decide (r.(scope) = "user") then
    uid ← user_id;
    match r.(scope_id) with
    | Some sid => if bool_decide (uid = sid) then Some ("user:" +:+ pretty uid) else None
    | None => Some ("user:" +:+ pretty uid)
    end
  else if bool_decide (r.(scope) = "api_key") then
    kid ← key_id;
    if bool_decide (Some kid = r.(scope_id)) then Some ("key:" +:+ pretty kid) else None
  else None.

Definition match_rule (r : RateRule) (user_id key_id : option Z) (model : string)
    : option (string * Z) :=
  bucket_key ← scope_key r user_id key_id;
  match r.(rule_model) with
  | Some m =>
      if bool_decide (m = model) then Some (bucket_key +:+ "|model:" +:+ m, r.(concurrency))
      else None
  | None => Some (bucket_key, r.(concurrency))
  end.

Definition matched_rules (rules : list RateRule) (user_id key_id : option Z) (model : string)
    : list (string * Z) :=
  omap (fun r => match_rule r user_id key_id model) rules.

(** ** In-flight request counters *)

Module Concurrency.

(** A guard is the list of bucket keys it holds. *)
Definition Guard : Type := list string.

Definition active_in (counts : gmap string Z) (key : string) : Z := default 0 (counts !! key).

Definition full (counts : gmap string Z) (kl : string * Z) : bool :=
  (0 <? kl.2) && (kl.2 <=? active_in counts kl.1).

Definition acquired_keys (rules : list (string * Z)) : Guard :=
  (List.filter (fun kl => 0 <? kl.2) rules).*1.

Definition incr (counts : gmap string Z) (key : string) : gmap string Z :=
  <[key := active_in counts key + 1]> counts.

(** All or nothing: the first full bucket rejects the request and nothing is counted. *)
Definition try_acquire (rules : list (string * Z)) (counts : gmap string Z)
    : result (gmap string Z * Guard) (string * Z) :=
  match List.find (full counts) rules with
  | Some kl => Err kl
  | None => let keys := acquired_keys rules in Ok (foldl incr counts keys, keys)
  end.

Definition decr (counts : gmap string Z) (key : string) : gmap string Z :=
  match counts !! key with
  | Some c => <[key := c - 1]> counts
  | None => counts
  end.

(** [Drop for ConcurrencyGuard] *)
Definition drop_guard (guard : Guard) (counts : gmap string Z) : gmap string Z :=
  match guard with
  | [] => counts
  | _ => filter (fun kc => 0 < kc.2) (foldl decr counts guard)
  end.

(** Duplicate keys keep the smallest limit; the result is sorted by key. *)
Definition dedup_insert (m : list (string * Z)) (kl : string * Z) : list (string * Z) :=
  match Map.get kl.1 m with
  | Some e => if kl.2 <? e then Map.insert kl.1 kl.2 m else m
  | None => Map.insert kl.1 kl.2 m
  end.

Definition dedup_min_limit (rules : list (string * Z)) : list (string * Z) :=
  foldl dedup_insert [] rules.

Definition effective_rules (rules : list RateRule) (user_id key_id : option Z) (model : string)
    : list (string * Z) :=
  dedup_min_limit (List.filter (fun kl => 0 <? kl.2) (matched_rules rules user_id key_id model)).

(** [jitter] is the random draw from [0.0..1.0]; the retry hint is [5.5 + jitter]. *)
Definition five_and_half : F64.t := F64.div (F64.of_Z 11) (F64.of_Z 2).

Definition apply_concurrency_limits (rules : list RateRule) (templates : MessageTemplates)
    (jitter : F64.t) (user_id key_id : option Z) (model : string) (counts : gmap string Z)
    : result (gmap string Z * Guard) AppError :=
  match try_acquire (effective_rules rules user_id key_id model) counts with
  | Ok r => Ok r
  | Err _ =>
      let retry := F64.add five_and_half jitter in
      Err (ConcurrentLimited (concurrency_message templates (retry_after_secs retry)) retry)
  end.

(** *** Accounting: the counters are the live guards *)

Definition occ (k : string) (l : list string) : Z :=
  Z.of_nat (length (List.filter (fun x => bool_decide (x = k)) l)).

Lemma occ_cons k x l : occ k (x :: l) = (if bool_decide (x = k) then 1 else 0) + occ k l.
Proof. unfold occ. cbn. case_bool_decide; cbn; lia. Qed.

Lemma occ_app k l1 l2 : occ k (l1 ++ l2) = occ k l1 + occ k l2.
Proof. unfold occ. rewrite List.filter_app, length_app. lia. Qed.

Lemma occ_nonneg k l : 0 <= occ k l.
Proof. unfold occ. lia. Qed.

Lemma occ_NoDup k l : NoDup l -> occ k l <= 1.
Proof.
  induction 1 as [|x l Hx Hl IH]; [done|]. rewrite occ_cons. case_bool_decide; [|lia].
  subst. assert (occ k l = 0); [|lia]. unfold occ.
  assert (List.filter (fun x => bool_decide (x = k)) l = []) as ->; [|done].
  clear Hl IH. induction l as [|y l IH]; [done|]. cbn. apply not_elem_of_cons in Hx as [? ?].
  rewrite bool_decide_false by done. auto.
Qed.

Lemma occ_zero k l : occ k l <= 0 -> k ∉ l.
Proof.
  intros H Hin. induction Hin as [x|]; rewrite occ_cons in H.
  - rewrite bool_decide_true in H by done. pose proof (occ_nonneg x l). lia.
  - case_bool_decide; [|by auto]. pose proof (occ_nonneg x l). lia.
Qed.

Lemma active_in_incr counts key k :
  active_in (incr counts key) k = active_in counts k + (if bool_decide (key = k) then 1 else 0).
Proof.
  unfold incr, active_in. rewrite lookup_insert. case_decide; case_bool_decide; try done; subst; cbn; lia.
Qed.

Lemma active_in_foldl_incr keys counts k :
  active_in (foldl incr counts keys) k = active_in counts k + occ k keys.
Proof.
  revert counts. induction keys as [|key keys IH]; intros counts; cbn; [unfold occ; cbn; lia|].
  rewrite IH, active_in_incr, occ_cons. lia.
Qed.

Lemma active_in_decr counts key k :
  1 <= active_in counts key ->
  active_in (decr counts key) k = active_in counts k - (if bool_decide (key = k) then 1 else 0).
Proof.
  unfold decr, active_in. intros H. destruct (counts !! key) as [c|] eqn:E; cbn in H; [|lia].
  rewrite lookup_insert. case_decide; case_bool_decide; try done; [|lia]. subst. rewrite E. done.
Qed.

Lemma active_in_foldl_decr keys counts k :
  (forall k, occ k keys <= active_in counts k) ->
  active_in (foldl decr counts keys) k = active_in counts k - occ k keys.
Proof.
  revert counts. induction keys as [|key keys IH]; intros counts H; cbn; [unfold occ; cbn; lia|].
  assert (1 <= active_in counts key).
  { specialize (H key). rewrite occ_cons, bool_decide_true in H by done.
    pose proof (occ_nonneg key keys). lia. }
  rewrite IH, active_in_decr, occ_cons by (try done; intros k'; rewrite active_in_decr by done;
    specialize (H k'); rewrite occ_cons in H; lia). lia.
Qed.

Definition positive_counts (counts : gmap string Z) : Prop := map_Forall (fun _ c => 0 < c) counts.

Lemma active_in_filter counts k :
  0 <= active_in counts k ->
  active_in (filter (fun kc => 0 < kc.2) counts) k = active_in counts k.
Proof.
  unfold active_in. intros H. rewrite map_lookup_filter.
  destruct (counts !! k) as [c|]; cbn in *; [|done]. unfold guard. case_decide; cbn in *; [done|lia].
Qed.

Lemma positive_filter counts : positive_counts (filter (fun kc : string * Z => 0 < kc.2) counts).
Proof. intros k c H. by apply map_lookup_filter_Some in H as [_ H]. Qed.

Lemma positive_foldl_incr keys counts :
  positive_counts counts -> positive_counts (foldl incr counts keys).
Proof.
  revert counts. induction keys as [|key keys IH]; intros counts H; cbn; [done|].
  apply IH, map_Forall_insert_2; [|done]. unfold active_in.
  destruct (counts !! key) as [c|] eqn:E; cbn; [|lia]. specialize (H _ _ E). cbn in H. lia.
Qed.

Lemma drop_guard_active g counts k :
  (forall k, occ k g <= active_in counts k) -> active_in (drop_guard g counts) k =
    active_in counts k - occ k g.
Proof.
  intros H. destruct g as [|key g]; [unfold occ; cbn; lia|]. unfold drop_guard.
  rewrite active_in_filter; rewrite active_in_foldl_decr by done; [done|]. specialize (H k). lia.
Qed.

Lemma drop_guard_positive g counts :
  positive_counts counts -> positive_counts (drop_guard g counts).
Proof. intros H. destruct g; [done|]. apply positive_filter. Qed.

(** The limiter and the guards bound to response bodies that are still being sent. Requests are
    admitted under the rules in force when they arrive ([config] says which these may be: the rules
    are reloaded at run time), and a guard is released when its body ends. *)
Inductive step (config : list RateRule -> Prop)
    : gmap string Z * list Guard -> gmap string Z * list Guard -> Prop :=
| step_admit rules tpl jitter user_id key_id model counts counts' g live :
    config rules ->
    apply_concurrency_limits rules tpl jitter user_id key_id model counts = Ok (counts', g) ->
    step config (counts, live) (counts', g :: live)
| step_release counts g l1 l2 :
    step config (counts, l1 ++ g :: l2) (drop_guard g counts, l1 ++ l2).

Definition reachable config := rtc (step config) (∅, []).

Lemma try_acquire_ok rs counts counts' g :
  try_acquire rs counts = Ok (counts', g) ->
  List.find (full counts) rs = None /\ g = acquired_keys rs /\ counts' = foldl incr counts g.
Proof. unfold try_acquire. case_match; naive_solver. Qed.

Lemma apply_ok rules tpl jitter u k m counts counts' g :
  apply_concurrency_limits rules tpl jitter u k m counts = Ok (counts', g) ->
  try_acquire (effective_rules rules u k m) counts = Ok (counts', g).
Proof. unfold apply_concurrency_limits. case_match; naive_solver. Qed.

Definition accounted (st : gmap string Z * list Guard) : Prop :=
  positive_counts st.1 /\ forall k, active_in st.1 k = occ k (concat st.2).

Lemma accounted_step config st st' : step config st st' -> accounted st -> accounted st'.
Proof.
  intros [rules tpl j u kid m counts counts' g live _ H|counts g l1 l2] [Hpos Hacc]; cbn in *.
  - apply apply_ok, try_acquire_ok in H as (_ & _ & ->). split; cbn.
    + by apply positive_foldl_incr.
    + intros k. rewrite active_in_foldl_incr, Hacc, occ_app. lia.
  - assert (forall k, occ k (concat (l1 ++ g :: l2)) = occ k g + occ k (concat (l1 ++ l2))) as Hsplit.
    { intros k. rewrite !concat_app. cbn. rewrite !occ_app. lia. }
    split; cbn; [by apply drop_guard_positive|]. intros k.
    rewrite drop_guard_active; [rewrite Hacc, Hsplit; lia|].
    intros k'. rewrite Hacc, Hsplit. pose proof (occ_nonneg k' (concat (l1 ++ l2))). lia.
Qed.

Lemma accounted_reachable config st : reachable config st -> accounted st.
Proof.
  revert st. apply (rtc_ind_r accounted).
  - split; [by apply map_Forall_empty|]. done.
  - intros y z _ Hyz Hy. by eapply accounted_step.
Qed.

(** In every reachable state, under any sequence of admissions, refusals, releases and rule
    reloads, each bucket's counter is exactly the number of live guards that hold it, and the table
    has an entry only for buckets in use: when no request is in flight it is empty again. *)
Theorem counters_match_live_guards config counts live :
  reachable config (counts, live) ->
  (forall k, active_in counts k = occ k (concat live)) /\
  (forall k c, counts !! k = Some c -> 0 < c) /\
  (live = [] -> counts = ∅).
Proof.
  intros H. apply accounted_reachable in H as [Hpos Hacc]. cbn in *.
  split; [done|]. split; [exact Hpos|]. intros ->. apply map_eq. intros k. rewrite lookup_empty.
  destruct (counts !! k) as [c|] eqn:E; [|done]. specialize (Hpos _ _ E). cbn in Hpos.
  specialize (Hacc k). unfold active_in in Hacc. rewrite E in Hacc. unfold occ in Hacc. cbn in *. lia.
Qed.

(** *** Deduplication *)

Definition least_limit (rs : list (string * Z)) (k : string) (l : Z) : Prop :=
  (k, l) ∈ rs /\ forall l', (k, l') ∈ rs -> l <= l'.

Lemma dedup_insert_sorted m kl : Map.sorted m -> Map.sorted (dedup_insert m kl).
Proof. intros H. unfold dedup_insert. repeat case_match; auto with json. Qed.

Lemma get_dedup_insert m k0 l0 k :
  Map.get k (dedup_insert m (k0, l0)) =
    if bool_decide (k = k0) then Some (match Map.get k0 m with Some e => Z.min e l0 | None => l0 end)
    else Map.get k m.
Proof.
  unfold dedup_insert. cbn. case_bool_decide as Hk.
  - subst k0. destruct (Map.get k m) as [e|] eqn:E; [|apply Map.get_insert_eq].
    destruct (Z.ltb_spec l0 e); [rewrite Map.get_insert_eq|rewrite E]; f_equal; lia.
  - repeat case_match; by rewrite ?Map.get_insert_ne.
Qed.

Lemma dedup_min_limit_snoc rs kl :
  dedup_min_limit (rs ++ [kl]) = dedup_insert (dedup_min_limit rs) kl.
Proof. unfold dedup_min_limit. by rewrite foldl_app. Qed.

Lemma dedup_sorted rs : Map.sorted (dedup_min_limit rs).
Proof.
  induction rs as [|kl rs IH] using rev_ind; [constructor|].
  rewrite dedup_min_limit_snoc. by apply dedup_insert_sorted.
Qed.

Lemma least_limit_snoc rs k l k0 l0 :
  least_limit (rs ++ [(k0, l0)]) k l <->
  (k <> k0 /\ least_limit rs k l) \/
  (k = k0 /\ (least_limit rs k l /\ l <= l0 \/ l = l0 /\ forall l', (k, l') ∈ rs -> l0 <= l')).
Proof.
  unfold least_limit. setoid_rewrite elem_of_app. setoid_rewrite list_elem_of_singleton.
  split.
  - intros [[Hin|[= -> ->]] Hall].
    + destruct (decide (k = k0)) as [->|Hne].
      * right. split; [done|]. left. split; [naive_solver|]. apply Hall. by right.
      * left. naive_solver.
    + right. split; [done|]. right. split; [done|]. naive_solver.
  - intros [[Hne [Hin Hall]]|[-> [[[Hin Hall] Hle]|[-> Hall]]]].
    + split; [by left|]. intros l' [?|[= -> ->]]; [by apply Hall|done].
    + split; [by left|]. intros l' [?|[= ->]]; [by apply Hall|done].
    + split; [by right|]. intros l' [?|[= ->]]; [by apply Hall|lia].
Qed.

Lemma dedup_get_None rs k : Map.get k (dedup_min_limit rs) = None <-> forall l, (k, l) ∉ rs.
Proof.
  induction rs as [|[k0 l0] rs IH] using rev_ind; [split; [intros _ l H; inversion H|done]|].
  rewrite dedup_min_limit_snoc, get_dedup_insert. setoid_rewrite elem_of_app.
  setoid_rewrite list_elem_of_singleton. case_bool_decide as Hk.
  - split; [done|]. intros H. destruct (H l0). right. by subst.
  - rewrite IH. naive_solver.
Qed.

Lemma dedup_get rs k l : Map.get k (dedup_min_limit rs) = Some l <-> least_limit rs k l.
Proof.
  revert k l. induction rs as [|[k0 l0] rs IH] using rev_ind; intros k l.
  { cbn. split; [done|]. intros [H _]. inversion H. }
  rewrite dedup_min_limit_snoc, get_dedup_insert, least_limit_snoc.
  case_bool_decide as Hk; [subst k0|rewrite IH; naive_solver].
  destruct (Map.get k (dedup_min_limit rs)) as [e|] eqn:E.
  - apply IH in E as He. split.
    + intros [= <-]. right. split; [done|]. destruct (Z.le_gt_cases e l0).
      * left. rewrite Z.min_l by done. done.
      * right. rewrite Z.min_r by lia. split; [done|]. intros l' Hl'. apply He in Hl'. lia.
    + intros [[? _]|[_ [[Hl Hle]|[-> Hall]]]]; [done| |].
      * apply IH in Hl. simplify_eq. f_equal. lia.
      * f_equal. destruct He as [He _]. specialize (Hall _ He). lia.
  - rewrite dedup_get_None in E. split.
    + intros [= <-]. right. split; [done|]. right. split; [done|]. intros l' Hl'. by destruct (E l').
    + intros [[? _]|[_ [[[Hin _] _]|[-> _]]]]; [done|by destruct (E l)|done].
Qed.

Lemma acquired_keys_elem rs k : k ∈ acquired_keys rs <-> exists l, (k, l) ∈ rs /\ 0 < l.
Proof.
  unfold acquired_keys. rewrite list_elem_of_fmap. split.
  - intros ([k' l] & -> & Hin). apply list_elem_of_In, filter_In in Hin as [Hin Hl].
    exists l. cbn in *. rewrite Z.ltb_lt in Hl. by rewrite list_elem_of_In.
  - intros (l & Hin & Hl). exists (k, l). split; [done|]. apply list_elem_of_In, filter_In.
    rewrite list_elem_of_In in Hin. split; [done|]. by apply Z.ltb_lt.
Qed.

Lemma sorted_NoDup {A} (m : list (string * A)) : Map.sorted m -> NoDup m.*1.
Proof.
  unfold Map.sorted, Map.keys. induction 1 as [|k l Hs IH Hall]; constructor; [|done].
  intros Hin. rewrite Forall_forall in Hall. by apply (Map.lt_key_irrefl k), Hall.
Qed.

Lemma acquired_NoDup rs : NoDup rs.*1 -> NoDup (acquired_keys rs).
Proof.
  unfold acquired_keys. induction rs as [|[k l] rs IH]; cbn; [done|].
  rewrite NoDup_cons. intros [Hk Hnd]. case_match; [|by apply IH]. cbn. constructor; [|by apply IH].
  intros Hin. apply Hk. apply list_elem_of_fmap in Hin as (kl & Hkl & Hin).
  apply list_elem_of_In, filter_In in Hin as [Hin _]. apply list_elem_of_fmap. exists kl.
  by rewrite list_elem_of_In.
Qed.

(** Deduplication is the minimum per key, sorted by key, whatever the order of the rules: its
    bindings are exactly the least limits, and permuting the input does not change the output. *)
Theorem dedup_is_minimum rs rs' :
  rs ≡ₚ rs' ->
  Map.sorted (dedup_min_limit rs) /\
  (forall k l, Map.get k (dedup_min_limit rs) = Some l <-> least_limit rs k l) /\
  dedup_min_limit rs' = dedup_min_limit rs.
Proof.
  intros Hp. split; [apply dedup_sorted|]. split; [intros; apply dedup_get|].
  apply Map.sorted_ext; [apply dedup_sorted..|]. intros k. apply option_eq. intros l.
  rewrite !dedup_get. unfold least_limit. by setoid_rewrite Hp.
Qed.

Lemma dedup_is_minimum_witness :
  dedup_min_limit [("user:7", 2); ("global", 3); ("global", 6)] =
  dedup_min_limit [("global", 6); ("global", 3); ("user:7", 2)].
Proof. apply (dedup_is_minimum [("global", 6); ("global", 3); ("user:7", 2)]). solve_Permutation. Defined.

(** *** Bucket keys determine their rules *)

Definition no_pipe (s : string) : bool := str_all (fun d => negb (bool_decide (d = "|"%char))) s.

Lemma no_pipe_pretty (p : string) (z : Z) : no_pipe p = true -> no_pipe (p +:+ pretty z) = true.
Proof.
  intros Hp. unfold no_pipe. rewrite str_all_app. fold (no_pipe p). rewrite Hp.
  eapply str_all_impl; [|apply pretty_Z_numeral].
  intros a Ha. apply negb_true_iff, bool_decide_eq_false. intros ->. done.
Qed.

Lemma scope_key_no_pipe r u k b : scope_key r u k = Some b -> no_pipe b = true.
Proof.
  unfold scope_key. intros H. repeat case_match; simplify_option_eq; try done;
    by apply no_pipe_pretty.
Qed.

(** A rule that yields a key for one request yields it for every request that has this key. *)
Lemma scope_key_determines r r' u k u' k' b :
  scope_key r u k = Some b -> scope_key r' u' k' = Some b -> scope_key r u' k' = Some b.
Proof.
  unfold scope_key. intros H H'. destruct u, k, u', k'; cbn in *;
    repeat (case_bool_decide; simplify_eq; try done);
    repeat (case_match; simplify_eq; try done);
    repeat (case_bool_decide; simplify_eq; try done);
    repeat match goal with
    | H : ("user:" +:+ _) = ("user:" +:+ _) |- _ => apply string_app_inj_l in H
    | H : ("key:" +:+ _) = ("key:" +:+ _) |- _ => apply string_app_inj_l in H
    | H : pretty _ = pretty _ |- _ => apply (inj pretty) in H
    end; congruence.
Qed.

Lemma match_rule_determines r r' u k m u' k' m' K l l' :
  match_rule r u k m = Some (K, l) -> match_rule r' u' k' m' = Some (K, l') ->
  match_rule r u' k' m' = Some (K, l).
Proof.
  unfold match_rule. intros H H'.
  destruct (scope_key r u k) as [b|] eqn:Hb; [|done].
  destruct (scope_key r' u' k') as [b'|] eqn:Hb'; [|done].
  pose proof (scope_key_no_pipe _ _ _ _ Hb) as Hp. pose proof (scope_key_no_pipe _ _ _ _ Hb') as Hp'.
  unfold no_pipe in *. cbn in H, H'.
  destruct (rule_model r) as [x|].
  - case_bool_decide; [subst x|done]. simplify_eq. destruct (rule_model r') as [y|].
    + case_bool_decide; [subst y|done]. injection H' as H' _.
      change ("|model:" +:+ m) with (String "|" ("model:" +:+ m)) in *.
      change ("|model:" +:+ m') with (String "|" ("model:" +:+ m')) in *.
      apply sep_inj in H' as [-> Hm]; [|done..]. apply string_app_inj_l in Hm as ->.
      rewrite (scope_key_determines _ _ _ _ _ _ _ Hb Hb'). cbn. by rewrite bool_decide_true.
    + simplify_eq. by eapply no_sep_app in Hp'.
  - simplify_eq. destruct (rule_model r') as [y|].
    + case_bool_decide; [|done]. simplify_eq. by eapply no_sep_app in Hp.
    + simplify_eq. by rewrite (scope_key_determines _ _ _ _ _ _ _ Hb Hb').
Qed.

Lemma matched_rules_elem rules u k m K l :
  (K, l) ∈ matched_rules rules u k m <->
  exists r, r ∈ rules /\ match_rule r u k m = Some (K, l).
Proof. unfold matched_rules. by rewrite list_elem_of_omap. Qed.

Lemma effective_rules_get rules u k m K l :
  Map.get K (effective_rules rules u k m) = Some l <->
  least_limit (List.filter (fun kl => 0 <? kl.2) (matched_rules rules u k m)) K l.
Proof. apply dedup_get. Qed.

Lemma effective_covers rules u k m r K l :
  r ∈ rules -> match_rule r u k m = Some (K, l) -> 0 < l ->
  exists l', (K, l') ∈ effective_rules rules u k m /\ 0 < l' <= l.
Proof.
  intros Hr Hm Hl.
  assert ((K, l) ∈ List.filter (fun kl => 0 <? kl.2) (matched_rules rules u k m)) as Hin.
  { apply list_elem_of_In, filter_In. split; [|by apply Z.ltb_lt].
    apply list_elem_of_In, matched_rules_elem. eauto. }
  destruct (Map.get K (effective_rules rules u k m)) as [l'|] eqn:E.
  - exists l'. split; [by apply Map.get_Some_in|]. apply effective_rules_get in E as [E1 E2].
    apply list_elem_of_In, filter_In in E1 as [_ E1]. apply Z.ltb_lt in E1. split; [done|]. by apply E2.
  - unfold effective_rules in E. rewrite dedup_get_None in E. by destruct (E l).
Qed.

Lemma effective_keys_matched rules u k m K :
  K ∈ acquired_keys (effective_rules rules u k m) ->
  exists r l, r ∈ rules /\ match_rule r u k m = Some (K, l).
Proof.
  intros (l & Hin & _)%acquired_keys_elem.
  apply Map.in_get_Some in Hin; [|apply dedup_sorted].
  apply effective_rules_get in Hin as [Hin _]. apply list_elem_of_In, filter_In in Hin as [Hin _].
  apply list_elem_of_In, matched_rules_elem in Hin as (r & Hr & Hm). eauto.
Qed.

Definition capped (rules : list RateRule) (counts : gmap string Z) : Prop :=
  forall r u k m K, r ∈ rules -> 0 < r.(concurrency) ->
    match_rule r u k m = Some (K, r.(concurrency)) -> active_in counts K <= r.(concurrency).

Lemma match_rule_limit r u k m K l : match_rule r u k m = Some (K, l) -> l = r.(concurrency).
Proof. unfold match_rule. intros H. repeat case_match; simplify_option_eq; done. Qed.

Lemma acquire_capped rules u k m counts counts' g :
  try_acquire (effective_rules rules u k m) counts = Ok (counts', g) ->
  capped rules counts -> capped rules counts'.
Proof.
  intros (Hfind & -> & ->)%try_acquire_ok Hcap r u0 k0 m0 K Hr Hpos Hm.
  rewrite active_in_foldl_incr. specialize (Hcap r u0 k0 m0 K Hr Hpos Hm).
  set (er := effective_rules rules u k m) in *.
  pose proof (occ_NoDup K _ (acquired_NoDup er (sorted_NoDup _ (dedup_sorted _)))) as Hocc.
  destruct (Z.le_gt_cases (occ K (acquired_keys er)) 0) as [|Hgt]; [lia|].
  assert (K ∈ acquired_keys er) as Hin.
  { destruct (decide (K ∈ acquired_keys er)) as [|Hnot]; [done|]. exfalso. clear -Hgt Hnot.
    induction (acquired_keys er) as [|x l IH]; [done|]. apply not_elem_of_cons in Hnot as [? ?].
    rewrite occ_cons, bool_decide_false in Hgt by done. auto. }
  apply effective_keys_matched in Hin as (r' & l' & Hr' & Hm').
  pose proof (match_rule_determines _ _ _ _ _ _ _ _ _ _ _ Hm Hm') as Hm2.
  destruct (effective_covers rules u k m r K _ Hr Hm2 Hpos) as (l2 & Hin2 & Hl2).
  assert (full counts (K, l2) = false) as Hfull.
  { apply list_elem_of_In in Hin2. by apply (find_none _ _ Hfind). }
  unfold full in Hfull. cbn in Hfull. apply andb_false_iff in Hfull as [H|H]; [lia|].
  apply Z.leb_gt in H. lia.
Qed.

(** C17: under a fixed set of rules, every rule is a cap at every moment: the number of requests in
    flight in its bucket (global, per user or per key, per model when the rule names one) never
    exceeds its [concurrency], also when several rules share a bucket or are duplicated. *)
Theorem concurrency_capped rules counts live r u k m K :
  reachable (eq rules) (counts, live) ->
  r ∈ rules -> 0 < r.(concurrency) -> match_rule r u k m = Some (K, r.(concurrency)) ->
  occ K (concat live) <= r.(concurrency).
Proof.
  intros Hreach Hr Hpos Hm. pose proof (accounted_reachable _ _ Hreach) as [_ Hacc].
  cbn in Hacc. rewrite <-Hacc.
  assert (capped rules counts) as Hcap; [|by eapply Hcap].
  change counts with (counts, live).1. revert Hreach. generalize (counts, live). clear.
  apply (rtc_ind_r (fun st => capped rules st.1)).
  - intros r u k m K _ Hpos _. change (0 <= r.(concurrency)). lia.
  - intros y z Hy Hyz Hcap. pose proof (accounted_reachable _ _ Hy) as [_ Hacc].
    destruct Hyz as [rs tpl j u k m counts counts' g live <- H|counts g l1 l2]; cbn in *.
    + by apply apply_ok, acquire_capped in H.
    + intros r u k m K Hr Hpos Hm. specialize (Hcap r u k m K Hr Hpos Hm).
      rewrite drop_guard_active; [pose proof (occ_nonneg K g); lia|].
      intros k'. rewrite Hacc, concat_app. cbn. rewrite !occ_app.
      pose proof (occ_nonneg k' (concat l1)). pose proof (occ_nonneg k' (concat l2)). lia.
Qed.

Definition one_rule : RateRule :=
  {| scope := "user"; scope_id := None; rule_model := Some "gpt-4o"; concurrency := 1 |}.
Definition no_templates : MessageTemplates := {| tpl_concurrency := ""; tpl_model_denied := "" |}.

Lemma one_request_reachable :
  reachable (eq [one_rule]) ({[ "user:7|model:gpt-4o" := 1 ]}, [["user:7|model:gpt-4o"]]).
Proof.
  apply rtc_once. apply (step_admit _ [one_rule] no_templates F64.zero (Some 7) (Some 3) "gpt-4o");
    reflexivity.
Qed.

Lemma counters_match_live_guards_witness :
  active_in {[ "user:7|model:gpt-4o" := 1 ]} "user:7|model:gpt-4o" = 1.
Proof.
  rewrite (proj1 (counters_match_live_guards _ _ _ one_request_reachable)). reflexivity.
Defined.

Lemma concurrency_capped_witness : occ "user:7|model:gpt-4o" (concat [["user:7|model:gpt-4o"]]) <= 1.
Proof.
  apply (concurrency_capped [one_rule] _ _ one_rule (Some 7) (Some 3) "gpt-4o" _
           one_request_reachable); [left | reflexivity | reflexivity].
Defined.

(** *** Admission and refusal *)

Lemma find_full_none rs counts :
  List.find (full counts) rs = None <->
  forall K l, (K, l) ∈ rs -> 0 < l -> active_in counts K < l.
Proof.
  split.
  - intros H K l Hin Hl. apply list_elem_of_In in Hin. pose proof (find_none _ _ H _ Hin) as Hf.
    unfold full in Hf. cbn in Hf. apply andb_false_iff in Hf as [Hf|Hf]; [lia|]. by apply Z.leb_gt in Hf.
  - intros H. destruct (List.find (full counts) rs) as [[K l]|] eqn:E; [|done].
    apply find_some in E as [Hin Hf]. unfold full in Hf. cbn in Hf.
    apply andb_true_iff in Hf as [Hl Hle]. apply list_elem_of_In in Hin.
    rewrite Z.ltb_lt in Hl. rewrite Z.leb_le in Hle. specialize (H K l Hin Hl). lia.
Qed.

(** A request is admitted exactly when every rule that applies to it and sets a cap has room;
    when it is refused the counters are untouched (no state is returned) and the error is the 429 of
    the concurrency template. *)
Theorem admission_iff rules tpl jitter u k m counts :
  (is_ok (apply_concurrency_limits rules tpl jitter u k m counts) = true <->
   forall r K l, r ∈ rules -> match_rule r u k m = Some (K, l) -> 0 < l -> active_in counts K < l) /\
  (forall e, apply_concurrency_limits rules tpl jitter u k m counts = Err e ->
     error_status e = 429).
Proof.
  assert (is_ok (apply_concurrency_limits rules tpl jitter u k m counts) = true <->
          List.find (full counts) (effective_rules rules u k m) = None) as ->.
  { unfold apply_concurrency_limits, try_acquire. by destruct (List.find _ _). }
  split; [|unfold apply_concurrency_limits; intros e; case_match; naive_solver].
  rewrite find_full_none. split.
  - intros H r K l Hr Hm Hl. destruct (effective_covers _ _ _ _ _ _ _ Hr Hm Hl) as (l' & Hin & Hl').
    specialize (H K l' Hin). lia.
  - intros H K l Hin Hl. apply Map.in_get_Some in Hin; [|apply dedup_sorted].
    apply effective_rules_get in Hin as [Hin _]. apply list_elem_of_In, filter_In in Hin as [Hin _].
    apply list_elem_of_In, matched_rules_elem in Hin as (r & Hr & Hm). by eapply H.
Qed.

(** The retry hint [5.5 + jitter] is rounded up to 6 for a jitter below one half and to 7 above
    it: the [Retry-After] of a concurrency refusal is not the constant 6 the comment claims. *)
Theorem retry_hint_not_constant :
  retry_after_secs (F64.add five_and_half (F64.div (F64.of_Z 1) (F64.of_Z 4))) = 6 /\
  retry_after_secs (F64.add five_and_half (F64.div (F64.of_Z 3) (F64.of_Z 4))) = 7.
Proof. split; by vm_compute. Qed.

End Concurrency.
