(* ===== verification/Breaker.v ===== *)
(** * Circuit breaker

[src/service/breaker.rs]: one breaker per upstream provider, kept in memory. The clock reads of an
operation are one instant [now] (nanoseconds), an argument of the operation. *)

From Stdlib Require Import SpecFloat.
From S2P Require Import Prelude Float.

Local Open Scope Z_scope.

Record BreakerConfig : Type := {
  failure_threshold : Z;
  open_secs : Z;
  failure_rate : F64.t;
  min_requests : Z;
  window_secs : Z;
  success_threshold : Z;
}.

Definition default_config : BreakerConfig :=
  {| failure_threshold := 4; open_secs := 30;
     failure_rate := F64.div (F64.of_Z 6) (F64.of_Z 10);
     min_requests := 10; window_secs := 120; success_threshold := 2 |}.

Record ProviderBreaker : Type := {
  consec_failures : Z;
  open_until : option Z;
  half_open_probe_in_flight : bool;
  half_open_successes : Z;
  window_requests : Z;
  window_failures : Z;
  window_start : option Z;
}.

Definition default_breaker : ProviderBreaker :=
  {| consec_failures := 0; open_until := None; half_open_probe_in_flight := false;
     half_open_successes := 0; window_requests := 0; window_failures := 0; window_start := None |}.

Abbreviation states := (gmap Z ProviderBreaker).

Definition secs (n : Z) : Z := n * F64.nanos_per_sec.

(** [entry(id).or_default()] *)
Definition entry (id : Z) (s : states) : ProviderBreaker := default default_breaker (s !! id).

(** [allow] on the provider's record. *)
Definition allow_pb (now : Z) (pb : ProviderBreaker) : ProviderBreaker * bool :=
  match pb.(open_until) with
  | None => (pb, true)
  | Some until =>
      if until <=? now then
        if pb.(half_open_probe_in_flight) then (pb, false)
        else ({| consec_failures := pb.(consec_failures); open_until := pb.(open_until);
                 half_open_probe_in_flight := true;
                 half_open_successes := pb.(half_open_successes);
                 window_requests := pb.(window_requests);
                 window_failures := pb.(window_failures);
                 window_start := pb.(window_start) |}, true)
      else (pb, false)
  end.

Definition allow (now id : Z) (s : states) : states * bool :=
  let '(pb, b) := allow_pb now (entry id s) in (<[id := pb]> s, b).

(** The candidates are asked in order, and each question may take a probe slot. *)
Fixpoint filter_allowed {T} (now : Z) (id_of : T -> Z) (candidates : list T) (s : states)
    : states * list T :=
  match candidates with
  | [] => (s, [])
  | c :: cs =>
      let '(s1, b) := allow now (id_of c) s in
      let '(s2, l) := filter_allowed now id_of cs s1 in
      (s2, if b then c :: l else l)
  end.

Definition filter_candidates {T} (now : Z) (id_of : T -> Z) (candidates : list T) (s : states)
    : states * option (list T) :=
  let '(s', allowed) := filter_allowed now id_of candidates s in
  (s', match allowed with [] => None | _ => Some allowed end).

(** [Instant::duration_since] saturates at zero. *)
Definition decay_window (cfg : BreakerConfig) (now : Z) (pb : ProviderBreaker) : ProviderBreaker :=
  let with_window r f w :=
    {| consec_failures := pb.(consec_failures); open_until := pb.(open_until);
       half_open_probe_in_flight := pb.(half_open_probe_in_flight);
       half_open_successes := pb.(half_open_successes);
       window_requests := r; window_failures := f; window_start := w |} in
  match pb.(window_start) with
  | Some start =>
      if secs cfg.(window_secs) <=? Z.max 0 (now - start) then with_window 0 0 (Some now) else pb
  | None => with_window pb.(window_requests) pb.(window_failures) (Some now)
  end.

Definition success_update (cfg : BreakerConfig) (now : Z) (pb : ProviderBreaker) : ProviderBreaker :=
  let mk ou probe hs :=
    {| consec_failures := 0; open_until := ou; half_open_probe_in_flight := probe;
       half_open_successes := hs; window_requests := pb.(window_requests);
       window_failures := pb.(window_failures); window_start := pb.(window_start) |} in
  let pb1 :=
    if pb.(half_open_probe_in_flight) then
      let hs := pb.(half_open_successes) + 1 in
      if cfg.(success_threshold) <=? hs then mk None false 0
      else mk (Some (now + secs cfg.(open_secs))) false hs
    else mk None false pb.(half_open_successes) in
  let pb2 := decay_window cfg now pb1 in
  {| consec_failures := pb2.(consec_failures); open_until := pb2.(open_until);
     half_open_probe_in_flight := pb2.(half_open_probe_in_flight);
     half_open_successes := pb2.(half_open_successes);
     window_requests := pb2.(window_requests) + 1;
     window_failures := pb2.(window_failures); window_start := pb2.(window_start) |}.

Definition record_success (cfg : BreakerConfig) (now id : Z) (s : states) : states :=
  match s !! id with
  | None => s
  | Some pb => <[id := success_update cfg now pb]> s
  end.

Definition rate_open (cfg : BreakerConfig) (requests failures : Z) : bool :=
  (cfg.(min_requests) <=? requests) &&
  F64.leb cfg.(failure_rate) (F64.div (F64.of_Z failures) (F64.of_Z requests)).

Definition failure_update (cfg : BreakerConfig) (now : Z) (pb : ProviderBreaker) : ProviderBreaker :=
  if pb.(half_open_probe_in_flight) then
    {| consec_failures := cfg.(failure_threshold);
       open_until := Some (now + secs cfg.(open_secs));
       half_open_probe_in_flight := false; half_open_successes := 0;
       window_requests := pb.(window_requests); window_failures := pb.(window_failures);
       window_start := pb.(window_start) |}
  else
    let pb := decay_window cfg now pb in
    let consec := pb.(consec_failures) + 1 in
    let reqs := pb.(window_requests) + 1 in
    let fails := pb.(window_failures) + 1 in
    if (cfg.(failure_threshold) <=? consec) || rate_open cfg reqs fails then
      {| consec_failures := 0; open_until := Some (now + secs cfg.(open_secs));
         half_open_probe_in_flight := false; half_open_successes := pb.(half_open_successes);
         window_requests := 0; window_failures := 0; window_start := None |}
    else
      {| consec_failures := consec; open_until := pb.(open_until);
         half_open_probe_in_flight := false; half_open_successes := pb.(half_open_successes);
         window_requests := reqs; window_failures := fails; window_start := pb.(window_start) |}.

Definition record_failure (cfg : BreakerConfig) (now id : Z) (s : states) : states :=
  <[id := failure_update cfg now (entry id s)]> s.

(** ** The abstract breaker

What a breaker promises to the failover loop: it is closed, open until an instant, or half open
with its single probe out. *)

Inductive Phase : Type :=
| Closed
| Open (until : Z)
| Probing (until : Z).

Definition phase (pb : ProviderBreaker) : Phase :=
  match pb.(open_until) with
  | None => Closed
  | Some u => if pb.(half_open_probe_in_flight) then Probing u else Open u
  end.

Definition spec_allow (now : Z) (p : Phase) : Phase * bool :=
  match p with
  | Closed => (Closed, true)
  | Open u => if u <=? now then (Probing u, true) else (Open u, false)
  | Probing u => (Probing u, false)
  end.



(** The requests and failures that count at an instant: those of the window, unless it is over. *)
Definition counted (cfg : BreakerConfig) (now : Z) (pb : ProviderBreaker) : Z * Z :=
  match pb.(window_start) with
  | Some start =>
      if decide (Z.max 0 (now - start) < secs cfg.(window_secs)) then (pb.(window_requests), pb.(window_failures))
      else (0, 0)
  | None => (pb.(window_requests), pb.(window_failures))
  end.
(** One failure more opens the breaker: it is the last of so many in a row, or one too many of the
    window's requests. *)
Definition trips (cfg : BreakerConfig) (now : Z) (pb : ProviderBreaker) : Prop :=
  cfg.(failure_threshold) <= pb.(consec_failures) + 1 \/
  let '(requests, failures) := counted cfg now pb in
  cfg.(min_requests) <= requests + 1 /\
  F64.leb cfg.(failure_rate) (F64.div (F64.of_Z (failures + 1)) (F64.of_Z (requests + 1))) = true.
#[export] Instance trips_dec cfg now pb : Decision (trips cfg now pb).
Proof. unfold trips. destruct (counted cfg now pb). apply _. Defined.

(** The invariant of a provider's record. *)
Record wf_breaker (cfg : BreakerConfig) (pb : ProviderBreaker) : Prop := {
  wf_probe : pb.(half_open_probe_in_flight) = true -> is_Some pb.(open_until);
  wf_successes : 0 <= pb.(half_open_successes) < Z.max 1 cfg.(success_threshold);
  wf_window : 0 <= pb.(window_failures) <= pb.(window_requests);
}.





Lemma decay_fields cfg now pb :
  open_until (decay_window cfg now pb) = open_until pb /\
  half_open_probe_in_flight (decay_window cfg now pb) = half_open_probe_in_flight pb /\
  consec_failures (decay_window cfg now pb) = consec_failures pb /\
  half_open_successes (decay_window cfg now pb) = half_open_successes pb.
Proof. unfold decay_window. repeat case_match; done. Qed.



Lemma allow_pb_refines cfg now pb :
  (phase (allow_pb now pb).1, (allow_pb now pb).2) = spec_allow now (phase pb) /\
  (wf_breaker cfg pb -> wf_breaker cfg (allow_pb now pb).1).
Proof.
  unfold allow_pb, phase. destruct (open_until pb) as [u|] eqn:Hu; cbn; rewrite ?Hu; [|done].
  destruct (u <=? now) eqn:Hle, (half_open_probe_in_flight pb) eqn:Hp; cbn;
    rewrite ?Hu, ?Hp, ?Hle; cbn; try done.
  split; [done|]. intros [H1 H2 H3]. split; cbn; [by rewrite ?Hu|done..].
Qed.









(** ** Sequences of operations *)

Fixpoint allow_seq (times : list Z) (id : Z) (s : states) : list bool :=
  match times with
  | [] => []
  | t :: ts => let '(s', b) := allow t id s in b :: allow_seq ts id s'
  end.

Lemma allow_phase now id s :
  phase (entry id (allow now id s).1) = (spec_allow now (phase (entry id s))).1 /\
  (allow now id s).2 = (spec_allow now (phase (entry id s))).2.
Proof.
  unfold allow. destruct (allow_pb_refines default_config now (entry id s)) as [H _].
  destruct (allow_pb now (entry id s)) as [pb b]. cbn in *.
  unfold entry at 1. rewrite lookup_insert_eq. cbn. by rewrite <-H.
Qed.

Lemma allow_seq_probing ts id s u :
  phase (entry id s) = Probing u -> allow_seq ts id s = replicate (length ts) false.
Proof.
  revert s. induction ts as [|t ts IH]; intros s Hp; [done|]. cbn [allow_seq].
  destruct (allow_phase t id s) as [H1 H2]. rewrite Hp in H1, H2. cbn in H1, H2.
  destruct (allow t id s) as [s' b]. cbn in H1, H2. subst b. cbn. by rewrite (IH s').
Qed.

(** Half open means one probe: once the open window has passed, of all the requests that ask
    before the probe's outcome is recorded exactly the first is let through, at whatever times the
    others ask. *)
Theorem single_probe id s u t ts :
  phase (entry id s) = Open u -> u <= t ->
  allow_seq (t :: ts) id s = true :: replicate (length ts) false.
Proof.
  intros Hp Ht. cbn [allow_seq]. destruct (allow_phase t id s) as [H1 H2].
  rewrite Hp in H1, H2. cbn in H1, H2. rewrite (proj2 (Z.leb_le u t) Ht) in H1, H2.
  destruct (allow t id s) as [s' b]. cbn in H1, H2. subst b. by rewrite (allow_seq_probing _ _ _ u).
Qed.

Fixpoint failures (cfg : BreakerConfig) (times : list Z) (id : Z) (s : states) : states :=
  match times with
  | [] => s
  | t :: ts => failures cfg ts id (record_failure cfg t id s)
  end.

Lemma single_probe_witness :
  allow_seq [secs 30; secs 30; secs 90] 1 (failures default_config [0; 0; 0; 0] 1 ∅) =
    [true; false; false].
Proof. apply (single_probe 1 _ (secs 30)); [reflexivity | apply Z.le_refl]. Defined.

Lemma failure_update_cases cfg now pb :
  half_open_probe_in_flight pb = false ->
  let pb' := failure_update cfg now pb in
  half_open_probe_in_flight pb' = false /\
  (open_until pb' = Some (now + secs cfg.(open_secs)) \/
   open_until pb' = open_until pb /\ consec_failures pb' = consec_failures pb + 1 /\
   consec_failures pb + 1 < cfg.(failure_threshold)).
Proof.
  intros Hp. unfold failure_update. rewrite Hp.
  destruct (decay_fields cfg now pb) as (Hu & _ & Hc & _). rewrite Hc, Hu.
  destruct (_ || _) eqn:E; cbn; [auto|]. apply orb_false_iff in E as [E _].
  apply Z.leb_gt in E. auto.
Qed.

Lemma failures_open cfg ts id s (opened : list Z) :
  half_open_probe_in_flight (entry id s) = false ->
  (exists t0, t0 ∈ opened /\ open_until (entry id s) = Some (t0 + secs cfg.(open_secs))) \/
  (ts <> [] /\ cfg.(failure_threshold) <= consec_failures (entry id s) + Z.of_nat (length ts)) ->
  exists t, t ∈ opened ++ ts /\
    phase (entry id (failures cfg ts id s)) = Open (t + secs cfg.(open_secs)).
Proof.
  revert s opened. induction ts as [|t ts IH]; intros s opened Hp H; cbn [failures].
  - destruct H as [(t0 & Hin & Hu)|[? _]]; [|done]. exists t0. rewrite app_nil_r.
    unfold phase. rewrite Hu, Hp. done.
  - assert (entry id (record_failure cfg t id s) = failure_update cfg t (entry id s)) as He.
    { unfold record_failure. unfold entry at 1. by rewrite lookup_insert_eq. }
    destruct (failure_update_cases cfg t (entry id s) Hp) as [Hp' Hcases].
    destruct (IH (record_failure cfg t id s) (opened ++ [t])) as (t' & Hin & Hph).
    + by rewrite He.
    + rewrite He. destruct Hcases as [Ho|(Ho & Hc & Hlt)].
      * left. exists t. split; [set_solver|done].
      * destruct H as [(t0 & Hin & Hu)|[_ Hlen]].
        -- left. exists t0. split; [set_solver|]. by rewrite Ho.
        -- right. cbn in Hlen. destruct ts; [cbn in Hlen; lia|]. split; [done|].
           rewrite Hc. cbn in *. lia.
    + exists t'. by rewrite <-app_assoc in Hin.
Qed.

(** [failure_threshold] failures of a closed breaker with no success in between trip it: it is
    open until [open_secs] after one of them, and until then it lets no request through. *)
Theorem failures_trip cfg ts id s t now :
  phase (entry id s) = Closed -> half_open_probe_in_flight (entry id s) = false ->
  consec_failures (entry id s) = 0 -> ts <> [] ->
  cfg.(failure_threshold) <= Z.of_nat (length ts) ->
  Forall (fun t' => t <= t') ts -> now < t + secs cfg.(open_secs) ->
  (exists t', t' ∈ ts /\
     phase (entry id (failures cfg ts id s)) = Open (t' + secs cfg.(open_secs))) /\
  (allow now id (failures cfg ts id s)).2 = false.
Proof.
  intros Hph Hp Hc Hne Hlen Hall Hnow.
  destruct (failures_open cfg ts id s [] Hp) as (t' & Hin & Ho); [right; split; [done|lia]|].
  split; [by exists t'|]. destruct (allow_phase now id (failures cfg ts id s)) as [_ ->].
  rewrite Ho. cbn. rewrite Forall_forall in Hall. apply Hall in Hin.
  rewrite (proj2 (Z.leb_gt _ _)); [done|lia].
Qed.

Lemma failures_trip_witness :
  (allow (secs 20) 1 (failures default_config [1; 2; 3; 4] 1 ∅)).2 = false.
Proof.
  apply (failures_trip default_config [1; 2; 3; 4] 1 ∅ 1 (secs 20)); try reflexivity.
  - discriminate.
  - repeat constructor; lia.
Defined.

(** The probe successes of one open episode are counted towards the next: a success that is not a
    probe closes the breaker but keeps [half_open_successes]. *)
Inductive op : Type :=
| OFail (t : Z)
| OSuccess (t : Z)
| OAllow (t : Z).

Definition run_op (cfg : BreakerConfig) (id : Z) (s : states) (o : op) : states :=
  match o with
  | OFail t => record_failure cfg t id s
  | OSuccess t => record_success cfg t id s
  | OAllow t => (allow t id s).1
  end.

Definition run_ops (cfg : BreakerConfig) (id : Z) (l : list op) (s : states) : states :=
  foldl (run_op cfg id) s l.

(** With the default threshold of two probe successes, a history exists in which the breaker
    opens, is probed once with success, is closed by the late success of an older request, opens
    again, and is then closed by a single successful probe: the successes that close it need not
    belong to the episode they close. *)
Theorem stale_probe_success :
  let before := run_ops default_config 1
    [OFail 0; OFail 0; OFail 0; OFail 0; OAllow (secs 31); OSuccess (secs 32);
     OSuccess (secs 33);
     OFail (secs 34); OFail (secs 34); OFail (secs 34); OFail (secs 34)] ∅ in
  phase (entry 1 before) = Open (secs 64) /\
  default_config.(success_threshold) = 2 /\
  phase (entry 1 (run_ops default_config 1 [OAllow (secs 65); OSuccess (secs 66)] before)) = Closed.
Proof. repeat split. Qed.
