(* ===== verification/Routing.v ===== *)
(** * Routing, access and pricing

[src/service/routing.rs] with the rows it reads ([src/store/upstream.rs], [src/store/access.rs],
[src/store/rules.rs]): route resolution, the user access white list, the disabled-model table, the
dialect pairing and candidate list of [src/service/proxy.rs], and the price of a request. *)

From Stdlib Require Import SpecFloat.
From S2P Require Import Prelude Float Json.

Local Open Scope Z_scope.

(** ** Rows *)

Record Provider : Type := {
  id : Z;
  name : string;
  api_type : string;
  base_url : string;
  api_key_encrypted : string;
  timeout_ms : Z;
  provider_extra_body : Value;
  auth_scheme : string;
  extra_headers : Value;
  supports_images : bool;
}.

Record ModelRoute : Type := {
  model_pattern : string;
  provider_id : Z;
  fallback_ids : list Z;
  upstream_model : option string;
  route_extra_body : Value;
  strict_system_head : bool;
  system_head_merge : bool;
  reasoning_effort_mode : option string;
  thinking_form : option string;
  responses_passthrough_fields : option string;
}.

Record UserAccessRule : Type := {
  access_user_id : Z;
  access_provider_id : option Z;
  access_model_pattern : option string;
}.

Record ModelPrice : Type := {
  input_price_per_m : option F64.t;
  output_price_per_m : option F64.t;
  cache_read_price_per_m : option F64.t;
  cache_write_price_per_m : option F64.t;
}.

(** ** Routes *)

(** A trailing [*] is a prefix match; anything else must be equal. *)
Definition matches_pattern (pattern model : string) : bool :=
  match strip_suffix_char "*" pattern with
  | Some prefix => starts_with prefix model
  | None => bool_decide (pattern = model)
  end.

Definition resolve_route (routes : list ModelRoute) (model : string) : option ModelRoute :=
  match List.find (fun r => bool_decide (r.(model_pattern) = model)) routes with
  | Some r => Some r
  | None => List.find (fun r => matches_pattern r.(model_pattern) model) routes
  end.

Definition model_disabled (disabled : gmap Z (gset string)) (pid : Z) (upstream : string) : bool :=
  match disabled !! pid with
  | Some models => bool_decide (upstream ∈ models)
  | None => false
  end.

Definition rule_grants (pid : Z) (model : string) (r : UserAccessRule) : bool :=
  match r.(access_provider_id) with None => true | Some p => p =? pid end &&
  match r.(access_model_pattern) with None => true | Some p => matches_pattern p model end.

Definition user_can_use (access : gmap Z (list UserAccessRule)) (user pid : Z) (model : string)
    : bool :=
  match access !! user with
  | None => true
  | Some [] => true
  | Some rules => existsb (rule_grants pid model) rules
  end.

(** Primary provider, then the fallback chain; unknown ids are skipped and repeats dropped. *)
Definition add_candidate (providers : list Provider) (acc : list Provider) (pid : Z)
    : list Provider :=
  match List.find (fun p => p.(id) =? pid) providers with
  | Some p => if existsb (fun l => l.(id) =? pid) acc then acc else acc ++ [p]
  | None => acc
  end.

Definition resolve_candidates (providers : list Provider) (route : ModelRoute) : list Provider :=
  foldl (add_candidate providers) [] (route.(provider_id) :: route.(fallback_ids)).

(** Comma-separated white list of dialect fields. *)
Fixpoint split_comma (acc s : string) : list string :=
  match s with
  | EmptyString => [string_rev acc]
  | String a s' =>
      if bool_decide (a = ","%char) then string_rev acc :: split_comma "" s'
      else split_comma (String a acc) s'
  end.

Definition passthrough_field_list (route : ModelRoute) : list string :=
  match route.(responses_passthrough_fields) with
  | None => []
  | Some s => List.filter (fun f => negb (str_is_empty f)) (trim <$> split_comma "" s)
  end.

(** ** Dialects *)

Record Endpoint : Type := {
  api : string;
  upstream : string;
  responses : bool;
  anthropic : bool;
}.

Definition pairing_unsupported (e : Endpoint) (p : Provider) : option string :=
  let native_responses := eq_ignore_ascii_case p.(api_type) "openai-responses" in
  let native_anthropic := eq_ignore_ascii_case p.(api_type) "anthropic" in
  if e.(anthropic) then
    if native_responses then
      Some "anthropic client (/v1/messages) → openai-responses upstream is not supported"
    else None
  else if e.(responses) then
    if native_anthropic then
      Some "responses client (/v1/responses) → anthropic upstream is not supported"
    else None
  else if native_responses || native_anthropic then
    Some "chat completions client → non-chat upstream is not supported"
  else None.

(** [anthropic::should_convert] and [responses::should_convert] *)
Definition anthropic_should_convert (endpoint_anthropic : bool) (p : Provider) : bool :=
  endpoint_anthropic && negb (eq_ignore_ascii_case p.(api_type) "anthropic").
Definition responses_should_convert (endpoint_responses : bool) (p : Provider) : bool :=
  endpoint_responses && negb (eq_ignore_ascii_case p.(api_type) "openai-responses").

(** ** Price of a request

Prices are floats per million tokens; the sum is kept in integer micro-dollars ([i128]) and
becomes a float at the end. *)

Definition micros (p : F64.t) : Z := F64.as_i128 (F64.round (F64.mul p (F64.of_Z 1000000))).

(** [(tokens as i128).saturating_mul(p_micros) / 1_000_000], the division towards zero. *)
Definition bucket (tokens p_micros : Z) : Z :=
  Z.quot (clamp i128_min i128_max (tokens * p_micros)) 1000000.

(** The input tokens split into (fresh, cache read, cache write). *)
Definition input_buckets (t : Z) (cache_read_tokens cache_write_tokens : option Z) : Z * Z * Z :=
  let cache_read := Z.min (default 0 cache_read_tokens) t in
  let cache_write := Z.min (default 0 cache_write_tokens) (sat_sub t cache_read) in
  (wrap_i64 (wrap_i64 (t - cache_read) - cache_write), cache_read, cache_write).

Definition or_price (a b : option F64.t) : option F64.t :=
  match a with Some _ => a | None => b end.

Definition priced (tokens : Z) (p : option F64.t) : Z :=
  match p with Some p => bucket tokens (micros p) | None => 0 end.

Definition cost_micros (price : ModelPrice)
    (input_tokens output_tokens cache_read_tokens cache_write_tokens : option Z) : Z :=
  match input_tokens with
  | Some t =>
      let '(fresh, cache_read, cache_write) :=
        input_buckets t cache_read_tokens cache_write_tokens in
      priced fresh price.(input_price_per_m) +
      (if 0 <? cache_read
       then priced cache_read (or_price price.(cache_read_price_per_m) price.(input_price_per_m))
       else 0) +
      (if 0 <? cache_write
       then priced cache_write (or_price price.(cache_write_price_per_m) price.(input_price_per_m))
       else 0)
  | None => 0
  end +
  match output_tokens with
  | Some t => priced t price.(output_price_per_m)
  | None => 0
  end.

Definition compute_cost (prices : gmap string ModelPrice) (model : string)
    (input_tokens output_tokens cache_read_tokens cache_write_tokens : option Z) : F64.t :=
  match prices !! model with
  | None => F64.zero
  | Some price =>
      F64.div (F64.of_Z (cost_micros price input_tokens output_tokens
                           cache_read_tokens cache_write_tokens)) (F64.of_Z 1000000)
  end.

(** ** Properties *)

Lemma matches_pattern_spec pattern model :
  matches_pattern pattern model = true <->
  pattern = model \/ exists prefix rest, pattern = prefix +:+ "*" /\ model = prefix +:+ rest.
Proof.
  unfold matches_pattern. destruct (strip_suffix_char "*" pattern) as [p|] eqn:E.
  - apply strip_suffix_char_spec in E as ->. rewrite starts_with_spec. split.
    + intros [t ->]. right. by exists p, t.
    + intros [<-|(q & t & Hq & ->)]; [by exists "*"|].
      apply strip_suffix_char_spec in Hq. rewrite (proj2 (strip_suffix_char_spec _ _ p)) in Hq by done.
      simplify_eq. by exists t.
  - rewrite bool_decide_eq_true. split; [by left|].
    intros [H|(q & t & -> & _)]; [done|]. by apply strip_suffix_char_None with (p := q) in E.
Qed.

Lemma find_first {A} (p : A -> bool) (l : list A) (x : A) :
  List.find p l = Some x <->
  exists l1 l2, l = l1 ++ x :: l2 /\ p x = true /\ Forall (fun y => p y = false) l1.
Proof.
  induction l as [|a l IH]; cbn.
  - split; [done|]. intros ([|? ?] & l2 & [=] & _).
  - destruct (p a) eqn:Ha.
    + split; [intros [= <-]; exists [], l; auto|].
      intros ([|b l1] & l2 & [= -> ->] & Hp & Hall); [done|].
      apply Forall_cons in Hall as [Hb _]. congruence.
    + rewrite IH. split.
      * intros (l1 & l2 & -> & Hp & Hall). exists (a :: l1), l2. auto.
      * intros ([|b l1] & l2 & [= -> ->] & Hp & Hall); [congruence|].
        apply Forall_cons in Hall as [_ Hall]. by exists l1, l2.
Qed.

(** Route resolution is total and deterministic in the documented order. Nothing is resolved
    exactly when no route matches; a resolved route matches the model; it is the first route
    spelled exactly like the model when there is one, and otherwise the first matching wildcard. *)
Theorem resolve_route_spec routes model :
  match resolve_route routes model with
  | None => forall r, r ∈ routes -> matches_pattern r.(model_pattern) model = false
  | Some r =>
      matches_pattern r.(model_pattern) model = true /\
      exists l1 l2, routes = l1 ++ r :: l2 /\
        if bool_decide (r.(model_pattern) = model)
        then forall r', r' ∈ l1 -> r'.(model_pattern) <> model
        else forall r', (r' ∈ routes -> r'.(model_pattern) <> model) /\
               (r' ∈ l1 -> matches_pattern r'.(model_pattern) model = false)
  end.
Proof.
  unfold resolve_route.
  destruct (List.find (fun r => bool_decide _) routes) as [r|] eqn:E1.
  - apply find_first in E1 as (l1 & l2 & -> & Hp & Hall). apply bool_decide_eq_true in Hp.
    split; [apply matches_pattern_spec; by left|]. exists l1, l2. split; [done|].
    rewrite bool_decide_true by done. rewrite Forall_forall in Hall. intros r' Hr'.
    by apply Hall, bool_decide_eq_false in Hr'.
  - assert (forall r', r' ∈ routes -> r'.(model_pattern) <> model) as Hne.
    { intros r' Hr'%list_elem_of_In. eapply find_none in E1; [|done]. by apply bool_decide_eq_false in E1. }
    destruct (List.find (fun r => matches_pattern _ _) routes) as [r|] eqn:E2.
    + apply find_first in E2 as (l1 & l2 & -> & Hp & Hall). split; [done|].
      exists l1, l2. split; [done|]. rewrite bool_decide_false by (apply Hne; set_solver).
      rewrite Forall_forall in Hall. intros r'. split; [apply Hne | apply Hall].
    + intros r Hr%list_elem_of_In. by eapply find_none in E2.
Qed.

(** The access white list grants by default and is otherwise exactly the union of its rules: a
    user without rules may use everything; a user with rules may use a model of a provider iff some
    rule covers that provider (or any) and that model (or all). *)
Theorem user_can_use_spec access user pid model :
  user_can_use access user pid model = true <->
  (forall r, r ∉ default [] (access !! user)) \/
  exists r, r ∈ default [] (access !! user) /\
    (forall p, r.(access_provider_id) = Some p -> p = pid) /\
    (forall p, r.(access_model_pattern) = Some p -> matches_pattern p model = true).
Proof.
  assert (forall r, rule_grants pid model r = true <->
    (forall p, r.(access_provider_id) = Some p -> p = pid) /\
    (forall p, r.(access_model_pattern) = Some p -> matches_pattern p model = true)) as Hg.
  { intros r. unfold rule_grants. rewrite andb_true_iff.
    destruct (access_provider_id r), (access_model_pattern r); rewrite ?Z.eqb_eq; naive_solver. }
  unfold user_can_use. destruct (access !! user) as [[|r0 rules]|]; cbn [from_option id].
  - split; [left; set_solver | done].
  - rewrite existsb_exists. setoid_rewrite <-list_elem_of_In. setoid_rewrite Hg.
    split; [by right|]. intros [H|H]; [|done]. destruct (H r0). left.
  - split; [left; set_solver | done].
Qed.

Lemma find_id providers pid p :
  List.find (fun p => p.(id) =? pid) providers = Some p -> p ∈ providers /\ p.(id) = pid.
Proof. intros [H1 H2%Z.eqb_eq]%List.find_some. by rewrite list_elem_of_In. Qed.

Lemma add_candidate_inv providers acc pid :
  NoDup (id <$> acc) -> (forall p, p ∈ acc -> p ∈ providers) ->
  NoDup (id <$> add_candidate providers acc pid) /\
  (forall p, p ∈ add_candidate providers acc pid -> p ∈ providers).
Proof.
  intros Hnd Hin. unfold add_candidate. destruct (List.find _ providers) as [p|] eqn:E; [|done].
  apply find_id in E as [Hp Hid]. destruct (existsb _ acc) eqn:Ex; [done|]. split.
  - rewrite fmap_app. apply NoDup_app. repeat split; [done| |apply NoDup_singleton].
    intros x Hx ->%list_elem_of_singleton. apply list_elem_of_fmap in Hx as (q & Hq & Hqin).
    assert (existsb (fun l => l.(id) =? pid) acc = true); [|congruence].
    apply existsb_exists. exists q. rewrite <-list_elem_of_In. split; [done|]. apply Z.eqb_eq. congruence.
  - intros q [Hq| ->%list_elem_of_singleton]%elem_of_app; auto.
Qed.

Lemma add_candidate_ids providers acc pid x :
  x ∈ id <$> add_candidate providers acc pid <->
  x ∈ id <$> acc \/ (x = pid /\ x ∈ id <$> providers).
Proof.
  unfold add_candidate. destruct (List.find _ providers) as [p|] eqn:E.
  - apply find_id in E as [Hp <-]. destruct (existsb _ acc) eqn:Ex.
    + split; [by left|]. intros [?|[-> _]]; [done|].
      apply existsb_exists in Ex as (q & Hq & Heq%Z.eqb_eq). apply list_elem_of_fmap.
      exists q. by rewrite list_elem_of_In.
    + rewrite fmap_app, elem_of_app. cbn. rewrite list_elem_of_singleton. split.
      * intros [?| ->]; [by left|right]. split; [done|]. by apply list_elem_of_fmap_2.
      * intros [?|[-> _]]; auto.
  - split; [by left|]. intros [?|[-> Hin]]; [done|].
    apply list_elem_of_fmap in Hin as (q & -> & Hq%list_elem_of_In). eapply find_none in E; [|done].
    by apply Z.eqb_neq in E.
Qed.

Lemma fold_candidates providers ids acc :
  NoDup (id <$> acc) -> (forall p, p ∈ acc -> p ∈ providers) ->
  let r := foldl (add_candidate providers) acc ids in
  NoDup (id <$> r) /\ (forall p, p ∈ r -> p ∈ providers) /\
  forall x, x ∈ id <$> r <-> x ∈ id <$> acc \/ (x ∈ ids /\ x ∈ id <$> providers).
Proof.
  revert acc. induction ids as [|i ids IH]; intros acc Hnd Hin; cbn.
  - split; [done|]. split; [done|]. set_solver.
  - destruct (add_candidate_inv providers acc i Hnd Hin) as [Hnd' Hin'].
    destruct (IH _ Hnd' Hin') as (H1 & H2 & H3). split; [done|]. split; [done|].
    intros x. rewrite H3, add_candidate_ids. set_solver.
Qed.

Lemma resolve_candidates_head_lemma providers route p :
  List.find (fun p => p.(id) =? route.(provider_id)) providers = Some p ->
  exists rest, resolve_candidates providers route = p :: rest.
Proof.
  intros H. unfold resolve_candidates. cbn. unfold add_candidate at 2. rewrite H. cbn.
  assert (forall ids acc, exists rest, foldl (add_candidate providers) (p :: acc) ids = p :: rest) as Hc.
  { induction ids as [|i ids IH]; intros acc; cbn; [by eexists|].
    unfold add_candidate at 2. destruct (List.find (fun q => q.(id) =? i) providers); [|apply IH].
    destruct (existsb _ _); apply IH. }
  apply Hc.
Qed.

(** The candidate list of a route holds each provider at most once, holds only enabled
    providers, and holds exactly the primary and the fallbacks that are enabled; the primary comes
    first whenever it is enabled. *)
Theorem resolve_candidates_spec providers route :
  NoDup (id <$> resolve_candidates providers route) /\
  (forall p, p ∈ resolve_candidates providers route -> p ∈ providers) /\
  (forall x, x ∈ id <$> resolve_candidates providers route <->
     (x = route.(provider_id) \/ x ∈ route.(fallback_ids)) /\ x ∈ id <$> providers) /\
  (route.(provider_id) ∈ id <$> providers ->
     id <$> head (resolve_candidates providers route) = Some route.(provider_id)).
Proof.
  destruct (fold_candidates providers (route.(provider_id) :: route.(fallback_ids)) [])
    as (H1 & H2 & H3); [constructor|set_solver|].
  split; [done|]. split; [done|]. split; [intros x; unfold resolve_candidates; rewrite H3; set_solver|].
  intros Hin. destruct (List.find (fun p => p.(id) =? route.(provider_id)) providers) as [p|] eqn:E.
  - destruct (resolve_candidates_head_lemma _ _ _ E) as [rest ->]. cbn.
    by apply find_id in E as [_ ->].
  - apply list_elem_of_fmap in Hin as (q & Hq & Hqin%list_elem_of_In).
    eapply find_none in E; [|done]. apply Z.eqb_neq in E. congruence.
Qed.

(** *** Cost *)

Lemma input_buckets_partition t cr cw :
  0 <= t <= i64_max -> 0 <= default 0 cr -> 0 <= default 0 cw ->
  exists f r w, input_buckets t cr cw = (f, r, w) /\
    0 <= f /\ 0 <= r /\ 0 <= w /\ f + r + w = t /\ r = Z.min (default 0 cr) t.
Proof.
  intros Ht Hr Hw. unfold input_buckets. set (r := Z.min _ t).
  assert (0 <= r <= t) by lia. replace (sat_sub t r) with (t - r) by ints. set (w := Z.min _ (t - r)).
  assert (0 <= w <= t - r) by lia. rewrite (wrap_i64_id (t - r)), wrap_i64_id by ints. eexists _, _, _. split; [done|]. lia.
Qed.

Lemma bucket_exact t p : 0 <= t <= i64_max -> 0 <= p <= i64_max -> bucket t p = t * p / 1000000.
Proof.
  intros Ht Hp. unfold bucket. assert (t * p <= i64_max * i64_max) by nia.
  replace (clamp _ _ _) with (t * p) by (unfold_ints; nia). apply Z.quot_div_nonneg; nia.
Qed.

Lemma bucket_bounds t p :
  0 <= t <= i64_max -> 0 <= p <= i64_max ->
  1000000 * bucket t p <= t * p < 1000000 * bucket t p + 1000000 /\ 0 <= bucket t p.
Proof.
  intros Ht Hp. rewrite bucket_exact by done.
  pose proof (Z.div_mod (t * p) 1000000). pose proof (Z.mod_pos_bound (t * p) 1000000).
  split; [lia|]. apply Z.div_pos; nia.
Qed.

(** C38: cached input tokens are charged once and only once. For reported counts that are not negative,
    however large the counts for the cache are against the input, the fresh, read and write buckets are
    non-negative and add up to the input tokens, and with a single input price, not negative and within
    the range of 64 bits in micro-dollars, the split bill is within two micro-dollars of the bill of the
    undivided input, never above it. (A negative count is not checked by the code:
    [negative_cache_read].) *)
Theorem cost_charges_each_token_once price p t cr cw out :
  0 <= t <= i64_max -> 0 <= default 0 cr -> 0 <= default 0 cw ->
  price.(input_price_per_m) = Some p -> 0 <= micros p <= i64_max ->
  price.(cache_read_price_per_m) = None -> price.(cache_write_price_per_m) = None ->
  (exists f r w, input_buckets t cr cw = (f, r, w) /\ 0 <= f /\ 0 <= r /\ 0 <= w /\ f + r + w = t) /\
  cost_micros price (Some t) out None None - 2 <= cost_micros price (Some t) out cr cw
    <= cost_micros price (Some t) out None None.
Proof.
  intros Ht Hcr Hcw Hp Hm Hnr Hnw.
  destruct (input_buckets_partition t cr cw) as (f & r & w & E & Hf & Hr & Hw & Hsum & _); [done..|].
  split; [exists f, r, w; auto|].
  destruct (input_buckets_partition t None None) as (f0 & r0 & w0 & E0 & ? & ? & ? & ? & Hr0);
    [done..|]. cbn in Hr0.
  assert (w0 = 0) as ->.
  { unfold input_buckets in E0. injection E0 as _ _ <-. cbn in *. unfold_ints. lia. }
  assert (r0 = 0) as -> by lia. replace f0 with t in * by lia.
  unfold cost_micros. rewrite E, E0, Hp, Hnr, Hnw. cbn [or_price priced Z.ltb Z.compare].
  pose proof (bucket_bounds t (micros p) Ht Hm). pose proof (bucket_bounds f (micros p) ltac:(lia) Hm).
  pose proof (bucket_bounds r (micros p) ltac:(lia) Hm).
  pose proof (bucket_bounds w (micros p) ltac:(lia) Hm).
  assert (forall x, 0 <= x <= i64_max -> (if 0 <? x then bucket x (micros p) else 0) = bucket x (micros p))
    as Hif.
  { intros x Hx. destruct (Z.ltb_spec 0 x); [done|]. replace x with 0 by lia. done. }
  rewrite !Hif by lia. nia.
Qed.

Definition sample_price : ModelPrice :=
  {| input_price_per_m := Some (F64.of_Z 3); output_price_per_m := Some (F64.of_Z 15);
     cache_read_price_per_m := None; cache_write_price_per_m := None |}.

(** A negative count for the cache is taken as it is: more tokens than were used are charged as fresh input, and the bucket
    of the cache is negative. *)
Theorem negative_cache_read : input_buckets 10 (Some (-5)) None = (15, -5, 0).
Proof. reflexivity. Qed.

Lemma cost_charges_each_token_once_witness :
  cost_micros sample_price (Some 1000) (Some 10) None None - 2
    <= cost_micros sample_price (Some 1000) (Some 10) (Some 333) (Some 333)
    <= cost_micros sample_price (Some 1000) (Some 10) None None.
Proof.
  apply (cost_charges_each_token_once sample_price (F64.of_Z 3) 1000 (Some 333) (Some 333) (Some 10));
    try reflexivity; vm_compute; try split; discriminate.
Defined.
