(* ===== verification/Calendar.v ===== *)
(** * The calendar the coding plans read

The plans of [src/store/plans.rs] cut time into UTC days and months with the [chrono] crate. An
instant is a number of nanoseconds since the Unix epoch, a date its day number. What the code takes
from the crate is the class [Calendar]; the documented behaviour it relies on is [CalendarLaws]; and
[gregorian] is a concrete calendar that has these laws. *)

From S2P Require Import Prelude.

Local Open Scope Z_scope.

Definition NANOS : Z := 10 ^ 9.
Definition DAY : Z := 86400.

(** [DateTime::timestamp], [date_naive] and [and_hms_opt(0, 0, 0)] followed by [and_utc]. *)
Definition timestamp (t : Z) : Z := t / NANOS.
Definition date_naive (t : Z) : Z := timestamp t / DAY.
Definition midnight (day : Z) : Z := day * DAY * NANOS.
Definition from_timestamp (secs : Z) : Z := secs * NANOS.

Class Calendar : Type := {
  year : Z -> Z;
  month : Z -> Z;
  (** [NaiveDate::from_ymd_opt(y, m, 1)] *)
  from_ymd_first : Z -> Z -> option Z;
  (** [Display] of a [NaiveDate] *)
  date_display : Z -> string;
  (** the first day that is out of the crate's range *)
  end_of_time : Z;
}.

Definition supported `{Calendar} (day : Z) : bool := (0 <=? day) && (day <? end_of_time).

Definition next_month (y m : Z) : Z * Z := if m =? 12 then (y + 1, 1) else (y, m + 1).

Class CalendarLaws (C : Calendar) : Prop := {
  month_range d : 1 <= month d <= 12;
  year_nonneg d : supported d = true -> 0 <= year d;
  from_ymd_first_spec y m f : from_ymd_first y m = Some f -> year f = y /\ month f = m;
  month_covers d : supported d = true ->
    exists f n, from_ymd_first (year d) (month d) = Some f /\
      (let '(y', m') := next_month (year d) (month d) in from_ymd_first y' m' = Some n) /\
      f <= d < n;
  from_ymd_first_mono y m f y' m' f' :
    from_ymd_first y m = Some f -> from_ymd_first y' m' = Some f' ->
    y < y' \/ (y = y' /\ m < m') -> f < f';
  date_display_inj d d' : supported d = true -> supported d' = true ->
    date_display d = date_display d' -> d = d';
}.

Lemma date_naive_window t : midnight (date_naive t) <= t < midnight (date_naive t + 1).
Proof.
  unfold date_naive, timestamp, midnight, DAY, NANOS.
  pose proof (Z.div_mod t (10 ^ 9)). pose proof (Z.mod_pos_bound t (10 ^ 9)).
  pose proof (Z.div_mod (t / 10 ^ 9) 86400). pose proof (Z.mod_pos_bound (t / 10 ^ 9) 86400). lia.
Qed.

Lemma midnight_inj d d' : midnight d = midnight d' -> d = d'.
Proof. unfold midnight, DAY, NANOS. lia. Qed.

Lemma midnight_mono d d' : d <= d' -> midnight d <= midnight d'.
Proof. unfold midnight, DAY, NANOS. lia. Qed.

Lemma date_naive_nonneg t : 0 <= t -> 0 <= date_naive t.
Proof. intros. unfold date_naive, timestamp, NANOS, DAY. repeat apply Z.div_pos; lia. Qed.

(** ** The Gregorian calendar *)

Module Gregorian.

Definition is_leap (y : Z) : bool :=
  (y mod 4 =? 0) && (negb (y mod 100 =? 0) || (y mod 400 =? 0)).

Definition before_year (y : Z) : Z :=
  365 * y + (y - 1) / 4 - (y - 1) / 100 + (y - 1) / 400 - 719527.

(** Days of a year before its [m]-th month, counted from 0. *)
Definition before_month (leap : bool) (m : Z) : Z :=
  nth (Z.to_nat m) [0; 31; 59; 90; 120; 151; 181; 212; 243; 273; 304; 334] 0 +
  (if leap && (2 <=? m) then 1 else 0).

(** Months are numbered through: [12 * year + month - 1]. *)
Definition first_day (k : Z) : Z := before_year (k / 12) + before_month (is_leap (k / 12)) (k mod 12).

Fixpoint search (fuel : nat) (d k : Z) : Z :=
  match fuel with
  | O => k
  | S fuel => if d <? first_day (k + 1) then k else search fuel d (k + 1)
  end.
Definition month_index (d : Z) : Z := search 5 d ((d + 719527) * 4800 / 146097 - 2).

Definition display (d : Z) : string :=
  let k := month_index d in
  pretty (Z.to_N (k / 12)) +:+ "-" +:+ pretty (Z.to_N (k mod 12 + 1)) +:+ "-" +:+
  pretty (Z.to_N (d - first_day k + 1)).

Definition calendar : Calendar := {|
  year d := month_index d / 12;
  month d := month_index d mod 12 + 1;
  from_ymd_first y m :=
    if (1 <=? m) && (m <=? 12) then Some (first_day (12 * y + m - 1)) else None;
  date_display := display;
  end_of_time := 95026601; (* the first day of the year 262143 *)
|}.

Lemma div_mod12 k : exists y m, k / 12 = y /\ k mod 12 = m /\ k = 12 * y + m /\ 0 <= m < 12.
Proof. exists (k / 12), (k mod 12). pose proof (Z.div_mod k 12). pose proof (Z.mod_pos_bound k 12). lia. Qed.

Ltac months m :=
  assert (m = 0 \/ m = 1 \/ m = 2 \/ m = 3 \/ m = 4 \/ m = 5 \/ m = 6 \/ m = 7 \/ m = 8 \/ m = 9 \/
          m = 10 \/ m = 11) as Hm12 by lia;
  destruct Hm12 as [->|[->|[->|[->|[->|[->|[->|[->|[->|[->|[->| ->]]]]]]]]]]].

Lemma before_month_bounds leap m :
  0 <= m < 12 ->
  146097 * m - 4800 * 2 <= 4800 * before_month leap m <= 146097 * m + 4800 * 2.
Proof. intros Hm. months m; destruct leap; vm_compute; split; discriminate. Qed.

Lemma before_year_bounds y :
  146097 * (12 * y) - 4800 * 368 - 4800 <= 4800 * (before_year y + 719527 - 366) <=
  146097 * (12 * y) - 4800 * 364 + 4800.
Proof.
  unfold before_year.
  pose proof (Z.div_mod (y - 1) 4). pose proof (Z.mod_pos_bound (y - 1) 4).
  pose proof (Z.div_mod (y - 1) 100). pose proof (Z.mod_pos_bound (y - 1) 100).
  pose proof (Z.div_mod (y - 1) 400). pose proof (Z.mod_pos_bound (y - 1) 400). lia.
Qed.

Lemma first_day_bounds k :
  146097 * k - 4800 * 5 <= 4800 * (first_day k + 719527) <= 146097 * k + 4800 * 5.
Proof.
  unfold first_day. destruct (div_mod12 k) as (y & m & -> & -> & -> & Hm).
  pose proof (before_month_bounds (is_leap y) m Hm). pose proof (before_year_bounds y). lia.
Qed.

Lemma search_spec fuel d k :
  first_day k <= d < first_day (k + Z.of_nat fuel) ->
  first_day (search fuel d k) <= d < first_day (search fuel d k + 1).
Proof.
  revert k. induction fuel as [|fuel IH]; intros k Hk; cbn [search].
  - rewrite Z.add_0_r in Hk. lia.
  - destruct (Z.ltb_spec d (first_day (k + 1))) as [?|?]; [lia|]. apply IH.
    replace (k + 1 + Z.of_nat fuel) with (k + Z.of_nat (S fuel)) by lia. lia.
Qed.

Lemma month_index_spec d : first_day (month_index d) <= d < first_day (month_index d + 1).
Proof.
  unfold month_index. apply search_spec.
  set (k := (d + 719527) * 4800 / 146097 - 2).
  pose proof (first_day_bounds k). pose proof (first_day_bounds (k + Z.of_nat 5)).
  assert (146097 * (k + 2) <= (d + 719527) * 4800 < 146097 * (k + 2) + 146097).
  { unfold k. pose proof (Z.div_mod ((d + 719527) * 4800) 146097).
    pose proof (Z.mod_pos_bound ((d + 719527) * 4800) 146097). lia. }
  lia.
Qed.

Lemma before_year_succ y : before_year (y + 1) = before_year y + 365 + (if is_leap y then 1 else 0).
Proof.
  unfold before_year, is_leap. replace (y + 1 - 1) with y by lia.
  assert (forall b, 0 < b -> y / b = (y - 1) / b + (if y mod b =? 0 then 1 else 0)) as H.
  { intros b Hb. pose proof (Z.div_mod y b). pose proof (Z.mod_pos_bound y b).
    destruct (Z.eqb_spec (y mod b) 0).
    - assert (y / b - 1 = (y - 1) / b) by (apply Z.div_unique with (b - 1); lia). lia.
    - assert (y / b = (y - 1) / b) by (apply Z.div_unique with (y mod b - 1); lia). lia. }
  rewrite (H 4), (H 100), (H 400) by lia.
  pose proof (Z.div_mod y 4). pose proof (Z.div_mod y 100). pose proof (Z.div_mod y 400).
  pose proof (Z.mod_pos_bound y 4). pose proof (Z.mod_pos_bound y 100).
  pose proof (Z.mod_pos_bound y 400).
  destruct (Z.eqb_spec (y mod 4) 0), (Z.eqb_spec (y mod 100) 0), (Z.eqb_spec (y mod 400) 0); cbn; lia.
Qed.

Lemma first_day_succ k : first_day k < first_day (k + 1).
Proof.
  unfold first_day. destruct (div_mod12 k) as (y & m & -> & -> & -> & Hm).
  destruct (decide (m = 11)) as [->|].
  - replace (12 * y + 11 + 1) with (0 + (y + 1) * 12) by lia.
    rewrite Z.div_add, Z.mod_add by lia. change (0 / 12 + (y + 1)) with (y + 1).
    change (0 mod 12) with 0. rewrite before_year_succ.
    assert (forall l, before_month l 11 <= 335) as H1 by (intros []; vm_compute; discriminate).
    assert (forall l, before_month l 0 = 0) as H2 by (by intros []).
    specialize (H1 (is_leap y)). rewrite H2. destruct (is_leap y); lia.
  - replace (12 * y + m + 1) with (m + 1 + y * 12) by lia.
    rewrite Z.div_add, Z.mod_add by lia. rewrite (Z.div_small (m + 1) 12), (Z.mod_small (m + 1) 12) by lia.
    rewrite Z.add_0_l. apply Z.add_lt_mono_l. destruct (is_leap y); months m; (done || vm_compute; done).
Qed.

Lemma first_day_mono k k' : k < k' -> first_day k < first_day k'.
Proof.
  intros H. replace k' with (k + Z.of_nat (S (Z.to_nat (k' - k - 1)))) by lia.
  generalize (Z.to_nat (k' - k - 1)) as n. intros n. induction n as [|n IH].
  - apply first_day_succ.
  - etrans; [exact IH|]. replace (k + Z.of_nat (S (S n))) with (k + Z.of_nat (S n) + 1) by lia.
    apply first_day_succ.
Qed.

Lemma month_index_unique d k : first_day k <= d < first_day (k + 1) -> month_index d = k.
Proof.
  intros H. pose proof (month_index_spec d). destruct (Z.lt_total (month_index d) k) as [?|[?|?]]; [|done|].
  - destruct (decide (month_index d + 1 = k)) as [<-|]; [lia|].
    pose proof (first_day_mono (month_index d + 1) k ltac:(lia)). lia.
  - destruct (decide (k + 1 = month_index d)) as [E|]; [rewrite E in *; lia|].
    pose proof (first_day_mono (k + 1) (month_index d) ltac:(lia)). lia.
Qed.

Lemma month_index_first k : month_index (first_day k) = k.
Proof. apply month_index_unique. pose proof (first_day_succ k). lia. Qed.

Lemma digits_no_dash (n : N) :
  str_all (fun d => negb (bool_decide (d = "-"%char))) (pretty n) = true.
Proof.
  eapply str_all_impl; [|apply pretty_N_digits]. intros a Ha. apply negb_true_iff, bool_decide_eq_false.
  by intros ->.
Qed.

Lemma display_inj d d' : 0 <= d -> 0 <= d' -> display d = display d' -> d = d'.
Proof.
  intros Hd Hd' H. unfold display in H.
  apply sep_inj in H as [Hy H]; [|apply digits_no_dash..].
  apply sep_inj in H as [Hm H]; [|apply digits_no_dash..].
  apply (inj pretty) in Hy, Hm, H.
  pose proof (month_index_spec d). pose proof (month_index_spec d').
  assert (forall d, 0 <= d -> 0 <= month_index d) as Hpos.
  { intros x Hx. pose proof (month_index_spec x).
    destruct (Z.le_gt_cases 0 (month_index x)) as [|Hneg]; [done|].
    destruct (decide (month_index x = -1)) as [E|].
    - rewrite E in *. change (first_day (-1 + 1)) with (-719528) in *. lia.
    - pose proof (first_day_mono (month_index x + 1) 0 ltac:(lia)).
      change (first_day 0) with (-719528) in *. lia. }
  pose proof (Hpos d Hd). pose proof (Hpos d' Hd').
  pose proof (Z.div_mod (month_index d) 12). pose proof (Z.mod_pos_bound (month_index d) 12).
  pose proof (Z.div_mod (month_index d') 12). pose proof (Z.mod_pos_bound (month_index d') 12).
  pose proof (Z.div_pos (month_index d) 12). pose proof (Z.div_pos (month_index d') 12).
  assert (month_index d = month_index d') as E by lia. rewrite E in *. lia.
Qed.

#[global] Instance laws : CalendarLaws calendar.
Proof.
  split; cbn [calendar year month from_ymd_first date_display].
  - intros d. pose proof (Z.mod_pos_bound (month_index d) 12). lia.
  - intros d [Hd _]%andb_true_iff. apply Z.leb_le in Hd. apply Z.div_pos; [|lia].
    pose proof (month_index_spec d). destruct (Z.le_gt_cases 0 (month_index d)); [done|].
    pose proof (first_day_mono (month_index d + 1) 1 ltac:(lia)). change (first_day 1) with (-719497) in *. lia.
  - intros y m f H. case_match eqn:E; [|done]. injection H as <-.
    apply andb_true_iff in E as [?%Z.leb_le ?%Z.leb_le]. rewrite month_index_first.
    replace (12 * y + m - 1) with (m - 1 + y * 12) by lia.
    rewrite Z.div_add, Z.mod_add, Z.div_small, Z.mod_small by lia. lia.
  - intros d _. pose proof (month_index_spec d) as Hd.
    destruct (div_mod12 (month_index d)) as (y & m & Ey & Em & Ek & Hm). rewrite Ey, Em.
    exists (first_day (month_index d)), (first_day (month_index d + 1)).
    rewrite (proj2 (andb_true_iff _ _)) by (split; apply Z.leb_le; lia).
    split; [do 2 f_equal; lia|]. split; [|done]. unfold next_month.
    destruct (Z.eqb_spec (m + 1) 12).
    + change ((1 <=? 1) && (1 <=? 12)) with true. cbv iota. do 2 f_equal. lia.
    + rewrite (proj2 (andb_true_iff _ _)) by (split; apply Z.leb_le; lia). do 2 f_equal. lia.
  - intros y m f y' m' f' H1 H2 Hlt.
    destruct ((1 <=? m) && (m <=? 12)) eqn:E, ((1 <=? m') && (m' <=? 12)) eqn:E0; simplify_eq.
    apply andb_true_iff in E as [?%Z.leb_le ?%Z.leb_le], E0 as [?%Z.leb_le ?%Z.leb_le].
    apply first_day_mono. lia.
  - intros d d' [Hd _]%andb_true_iff [Hd' _]%andb_true_iff. apply Z.leb_le in Hd, Hd'.
    by apply display_inj.
Qed.

Example first_of_march_2024 : calendar.(from_ymd_first) 2024 3 = Some 19783.
Proof. reflexivity. Qed.

End Gregorian.
