(* ===== verification/Plans.v ===== *)
(** * Coding plans

The pure core of [src/store/plans.rs]: validation of a plan's configuration, the model scope, the
statistics window ([period_start], [period_end], [period_key]), the active hours and the choice of
the plan that applies to a request. [PlanRuntime] values are built from database rows by
[rows_into_runtimes]. *)

From S2P Require Import Prelude Json Calendar Routing.

Local Open Scope Z_scope.

(** ** Configuration *)

Definition PERIOD_HOURLY : string := "hourly".
Definition PERIOD_DAILY : string := "daily".
Definition PERIOD_MONTHLY : string := "monthly".
Definition PERIOD_TOTAL : string := "total".
Definition ANCHOR_FIXED : string := "fixed".
Definition ANCHOR_JOIN : string := "join".
Definition OVERAGE_DOWNGRADE : string := "downgrade".
Definition OVERAGE_LOG : string := "log".
Definition VALID_PERIODS : list string := [PERIOD_HOURLY; PERIOD_DAILY; PERIOD_MONTHLY; PERIOD_TOTAL].
Definition VALID_ANCHOR_MODES : list string := [ANCHOR_FIXED; ANCHOR_JOIN].
Definition MAX_PERIOD_HOURS : Z := 168.

Definition validate_period_config (period_type : string) (period_hours : Z) (anchor_mode : string)
    : result unit string :=
  if negb (bool_decide (period_type ∈ VALID_PERIODS)) then
    Err ("invalid period_type: " +:+ period_type)
  else if negb (bool_decide (anchor_mode ∈ VALID_ANCHOR_MODES)) then
    Err ("invalid period_anchor_mode: " +:+ anchor_mode)
  else if bool_decide (period_type = PERIOD_HOURLY) &&
          negb ((1 <=? period_hours) && (period_hours <=? MAX_PERIOD_HOURS)) then
    Err ("period_hours must be within 1..=" +:+ pretty MAX_PERIOD_HOURS +:+ " for hourly plans")
  else Ok ().

Definition normalize_period_hours (period_type : string) (period_hours : Z) : Z :=
  if bool_decide (period_type = PERIOD_HOURLY) then period_hours else 1.

(** A [NaiveTime] is the number of nanoseconds since midnight. *)
Definition validate_active_window (start end_ : option Z) : result unit string :=
  match start, end_ with
  | Some s, Some e =>
      if s =? e then Err "active window start == end (leave empty for full-day)" else Ok ()
  | None, None => Ok ()
  | _, _ => Err "active window requires both start and end"
  end.

(** ** Model scope *)

Definition MAX_MODEL_PATTERN_LEN : nat := 128.
Definition MAX_MODEL_PATTERNS : nat := 32.

Record ModelScope : Type := {
  allow : list string;
  deny : list string;
}.

(** Exact or trailing-[*] prefix, ignoring ASCII case; the prefix is compared as bytes. *)
Definition model_matches_pattern (pattern model : string) : bool :=
  match strip_suffix_char "*" pattern with
  | Some prefix =>
      (String.length prefix <=? String.length model)%nat &&
      eq_ignore_ascii_case (String.substring 0 (String.length prefix) model) prefix
  | None => eq_ignore_ascii_case pattern model
  end.

Definition scope_matches (s : ModelScope) (model : string) : bool :=
  if existsb (fun p => model_matches_pattern p model) s.(deny) then false
  else bool_decide (s.(allow) = []) || existsb (fun p => model_matches_pattern p model) s.(allow).

Definition specificity (s : ModelScope) : Z :=
  if forallb (fun p => negb (ends_with_char "*" p)) (s.(allow) ++ s.(deny)) then 2 else 1.

Definition scope_specificity (s : option ModelScope) : Z :=
  match s with None => 0 | Some s => specificity s end.

Definition is_ascii_alphanumeric (a : Ascii.ascii) : bool :=
  let n := Ascii.nat_of_ascii a in
  ((48 <=? n) && (n <=? 57) || (65 <=? n) && (n <=? 90) || (97 <=? n) && (n <=? 122))%nat.

Definition pattern_char (a : Ascii.ascii) : bool :=
  is_ascii_alphanumeric a ||
  bool_decide (a ∈ ["*"; "."; "_"; "+"; ":"; "-"; "/"]%char).

Fixpoint count_char (c : Ascii.ascii) (s : string) : nat :=
  match s with
  | EmptyString => 0
  | String a s' => (if bool_decide (a = c) then 1 else 0) + count_char c s'
  end.

Definition validate_model_pattern (pattern : string) : result unit string :=
  if str_is_empty pattern then Err "empty model pattern"
  else if (MAX_MODEL_PATTERN_LEN <? String.length pattern)%nat then
    Err ("model pattern too long (>" +:+ pretty MAX_MODEL_PATTERN_LEN +:+ " chars)")
  else if negb (str_all pattern_char pattern) then
    Err ("invalid character in model pattern '" +:+ pattern +:+
         "' (allowed: letters digits . _ + : - / and trailing *)")
  else match count_char "*" pattern with
  | 0%nat => Ok ()
  | 1%nat =>
      if ends_with_char "*" pattern && negb (bool_decide (pattern = "*")) then Ok ()
      else if bool_decide (pattern = "*") then
        Err "bare '*' matches every model; omit model_scope instead"
      else Err ("model pattern '" +:+ pattern +:+
                "' only supports trailing '*' (prefix match, same as routing rules)")
  | n => Err ("model pattern '" +:+ pattern +:+ "' must contain at most one '*' (got " +:+
              pretty n +:+ ")")
  end.

Section parse_model_scope.
(** [Display] of a JSON value, used in error messages only. *)
Variable show : Value -> string.

Fixpoint parse_items (key : string) (items : list Value) : result (list string) string :=
  match items with
  | [] => Ok []
  | it :: items' =>
      let? s := match as_str it with
                | Some s => Ok s
                | None => Err ("model_scope." +:+ key +:+ " entries must be strings, got: " +:+ show it)
                end in
      let? _ := map_err (fun e => "model_scope." +:+ key +:+ ": " +:+ e) (validate_model_pattern s) in
      let? out := parse_items key items' in
      Ok (to_ascii_lowercase s :: out)
  end.

Definition parse_list (obj : list (string * Value)) (key : string) : result (list string) string :=
  match Map.get key obj with
  | None => Ok []
  | Some VNull => Ok []
  | Some (VArray items) => parse_items key items
  | Some other => Err ("model_scope." +:+ key +:+ " must be an array of strings, got: " +:+ show other)
  end.

Definition parse_model_scope (v : option Value) : result (option ModelScope) string :=
  match v with
  | None | Some VNull => Ok None
  | Some v =>
      match as_object v with
      | None => Err ("model_scope must be an object with optional 'allow'/'deny' arrays, got: " +:+ show v)
      | Some obj =>
          match List.find (fun key => negb (bool_decide (key = "allow")) &&
                                      negb (bool_decide (key = "deny"))) (Map.keys obj) with
          | Some key =>
              Err ("unknown model_scope field '" +:+ key +:+ "' (expected 'allow'/'deny'; typo?)")
          | None =>
              let? al := parse_list obj "allow" in
              let? de := parse_list obj "deny" in
              if (MAX_MODEL_PATTERNS <? length al + length de)%nat then
                Err ("model_scope allows at most " +:+ pretty MAX_MODEL_PATTERNS +:+ " patterns in total")
              else if existsb (fun a => bool_decide (a ∈ de)) al then
                Err "model_scope: identical pattern in both 'allow' and 'deny' (deny wins, so the allow entry can never match)"
              else if bool_decide (al = []) && bool_decide (de = []) then Ok None
              else Ok (Some {| allow := al; deny := de |})
          end
      end
  end.

End parse_model_scope.

(** ** Runtime plans *)

Record PlanRuntime : Type := {
  plan_id : Z;
  plan_name : string;
  group_name : string;
  token_limit : Z;
  period_type : string;
  period_hours : Z;
  period_anchor_mode : string;
  member_since : Z;
  overage_action : string;
  downgrade_model : option string;
  alert_channels : list string;
  webhook_url : string;
  priority : Z;
  active_start : option Z;
  active_end : option Z;
  model_scope : option ModelScope;
}.

Definition is_within_active_window (start end_ : option Z) (local_now : Z) : bool :=
  match start, end_ with
  | Some s, Some e =>
      if s <? e then (s <=? local_now) && (local_now <? e)
      else if e <? s then (s <=? local_now) || (local_now <? e)
      else true
  | _, _ => true
  end.

Definition active_at (p : PlanRuntime) (local_now : Z) : bool :=
  is_within_active_window p.(active_start) p.(active_end) local_now.

Section periods.
Context `{Calendar}.

(** The bucket of an hourly plan, in seconds. *)
Definition anchor_ts (p : PlanRuntime) : Z :=
  if bool_decide (p.(period_anchor_mode) = ANCHOR_JOIN) then timestamp p.(member_since) else 0.
Definition step_secs (p : PlanRuntime) : Z := sat_i64 (Z.max p.(period_hours) 1 * 3600).
Definition bucket_start (p : PlanRuntime) (now : Z) : Z :=
  let elapsed := Z.max (timestamp now - anchor_ts p) 0 in
  anchor_ts p + Z.quot elapsed (step_secs p) * step_secs p.

(** The [expect]s never fire within the range of the calendar. *)
Definition period_start (p : PlanRuntime) (now : Z) : Z :=
  if bool_decide (p.(period_type) = PERIOD_DAILY) then midnight (date_naive now)
  else if bool_decide (p.(period_type) = PERIOD_MONTHLY) then
    match from_ymd_first (year (date_naive now)) (month (date_naive now)) with
    | Some first => midnight first
    | None => 0
    end
  else if bool_decide (p.(period_type) = PERIOD_HOURLY) then from_timestamp (bucket_start p now)
  else 0.

Definition period_end (p : PlanRuntime) (now : Z) : option Z :=
  if bool_decide (p.(period_type) = PERIOD_DAILY) then Some (period_start p now + DAY * NANOS)
  else if bool_decide (p.(period_type) = PERIOD_MONTHLY) then
    let '(ny, nm) := next_month (year (date_naive now)) (month (date_naive now)) in
    midnight <$> from_ymd_first ny nm
  else if bool_decide (p.(period_type) = PERIOD_HOURLY) then
    Some (period_start p now + Z.max p.(period_hours) 1 * 3600 * NANOS)
  else None.

(** [{:02}] *)
Definition pad2 (z : Z) : string := if (0 <=? z) && (z <? 10) then "0" +:+ pretty z else pretty z.

Definition period_key (p : PlanRuntime) (now : Z) : string :=
  if bool_decide (p.(period_type) = PERIOD_HOURLY) then
    "h:" +:+ pretty (timestamp (period_start p now))
  else if bool_decide (p.(period_type) = PERIOD_DAILY) then "d:" +:+ date_display (date_naive now)
  else if bool_decide (p.(period_type) = PERIOD_MONTHLY) then
    "m:" +:+ pretty (year (date_naive now)) +:+ "-" +:+ pad2 (month (date_naive now))
  else "t".

End periods.

(** ** Choosing the plan of a request *)

Definition scope_admits (model : option string) (p : PlanRuntime) : bool :=
  match p.(model_scope), model with
  | Some scope, Some m => scope_matches scope m
  | _, _ => true
  end.

Definition plan_rank (model : option string) (p : PlanRuntime) : Z * Z * Z :=
  match model with
  | None => (0, p.(priority), p.(plan_id))
  | Some _ => (scope_specificity p.(model_scope), p.(priority), p.(plan_id))
  end.

(** Lexicographic order of the sort keys. *)
Definition rank_le (a b : Z * Z * Z) : bool :=
  let '(a1, a2, a3) := a in
  let '(b1, b2, b3) := b in
  (a1 <? b1) || (a1 =? b1) && ((a2 <? b2) || (a2 =? b2) && (a3 <=? b3)).

(** [Iterator::max_by_key]: the last of the greatest elements. *)
Definition max_by_key (key : PlanRuntime -> Z * Z * Z) (l : list PlanRuntime) : option PlanRuntime :=
  match l with
  | [] => None
  | x :: l' => Some (foldl (fun best y => if rank_le (key best) (key y) then y else best) x l')
  end.

Definition plan_candidates (plans : gmap Z (list PlanRuntime)) (user_id local_now : Z)
    (model : option string) : list PlanRuntime :=
  List.filter (scope_admits model)
    (List.filter (fun p => active_at p local_now) (default [] (plans !! user_id))).

Definition resolve_plan (plans : gmap Z (list PlanRuntime)) (user_id local_now : Z)
    (model : option string) : option PlanRuntime :=
  max_by_key (plan_rank model) (plan_candidates plans user_id local_now model).

(** ** Loading *)

Record RuntimeRow : Type := {
  row_user_id : Z;
  row_plan : PlanRuntime; (* the columns that are copied as they are *)
  row_alert_channels : Value;
  row_model_scope : option Value;
}.

(** [serde_json::from_value::<Vec<String>>] *)
Definition string_vec (v : Value) : option (list string) := as_array v ≫= mapM as_str.

Definition runtime_of_row (r : RuntimeRow) (scope : option ModelScope) : PlanRuntime :=
  let p := r.(row_plan) in
  {| plan_id := p.(plan_id); plan_name := p.(plan_name); group_name := p.(group_name);
     token_limit := p.(token_limit); period_type := p.(period_type);
     period_hours := p.(period_hours); period_anchor_mode := p.(period_anchor_mode);
     member_since := p.(member_since); overage_action := p.(overage_action);
     downgrade_model := p.(downgrade_model);
     alert_channels := default ["in_site"] (string_vec r.(row_alert_channels));
     webhook_url := p.(webhook_url); priority := p.(priority);
     active_start := p.(active_start); active_end := p.(active_end); model_scope := scope |}.

Definition add_row (show : Value -> string) (m : gmap Z (list PlanRuntime)) (r : RuntimeRow)
    : gmap Z (list PlanRuntime) :=
  match parse_model_scope show r.(row_model_scope) with
  | Err _ => m
  | Ok scope =>
      <[r.(row_user_id) := default [] (m !! r.(row_user_id)) ++ [runtime_of_row r scope]]> m
  end.

Definition rows_into_runtimes (show : Value -> string) (rows : list RuntimeRow)
    : gmap Z (list PlanRuntime) := foldl (add_row show) ∅ rows.

(** ** Properties of the windows *)

Section windows.
Context `{C : Calendar} `{!CalendarLaws C}.

(** The period types that are cut into windows, with the clock past the anchor of hourly plans. *)
Definition clock_ok (p : PlanRuntime) (now : Z) : Prop :=
  supported (date_naive now) = true /\
  (p.(period_type) = PERIOD_HOURLY -> anchor_ts p <= timestamp now /\ p.(period_hours) <= i32_max).

Lemma step_secs_exact p : p.(period_hours) <= i32_max -> step_secs p = Z.max p.(period_hours) 1 * 3600.
Proof. intros Hp. unfold step_secs. apply sat_i64_id. ints. Qed.

Lemma bucket_window p now :
  anchor_ts p <= timestamp now -> p.(period_hours) <= i32_max ->
  exists q, bucket_start p now = anchor_ts p + q * step_secs p /\
    bucket_start p now <= timestamp now < bucket_start p now + step_secs p /\ 0 < step_secs p.
Proof.
  intros Ha Hp. pose proof (step_secs_exact p Hp). unfold bucket_start.
  rewrite Z.max_l by lia. rewrite Z.quot_div_nonneg by lia.
  set (e := timestamp now - anchor_ts p). exists (e / step_secs p).
  pose proof (Z.div_mod e (step_secs p)). pose proof (Z.mod_pos_bound e (step_secs p)).
  split; [done|]. lia.
Qed.

Lemma timestamp_window t s : from_timestamp s <= t <-> s <= timestamp t.
Proof.
  unfold from_timestamp, timestamp, NANOS. pose proof (Z.div_mod t (10 ^ 9)).
  pose proof (Z.mod_pos_bound t (10 ^ 9)). lia.
Qed.

Lemma timestamp_from s : timestamp (from_timestamp s) = s.
Proof. unfold from_timestamp, timestamp. by apply Z.div_mul. Qed.

Lemma month_window day :
  supported day = true ->
  exists f n, from_ymd_first (year day) (month day) = Some f /\
    (let '(y', m') := next_month (year day) (month day) in from_ymd_first y' m') = Some n /\
    f <= day < n.
Proof.
  intros Hs. destruct (month_covers day Hs) as (f & n & H1 & H2 & H3). exists f, n.
  split; [done|]. split; [by destruct (next_month _ _)|done].
Qed.

(** Two supported days in one month window are in the same month. *)
Lemma month_window_same d d' f n :
  supported d = true -> supported d' = true ->
  from_ymd_first (year d) (month d) = Some f ->
  (let '(y', m') := next_month (year d) (month d) in from_ymd_first y' m') = Some n ->
  f <= d' < n -> year d' = year d /\ month d' = month d.
Proof.
  intros Hd Hd' Hf Hn Hin. destruct (month_window d' Hd') as (f' & n' & Hf' & Hn' & Hin').
  pose proof (month_range d). pose proof (month_range d').
  assert (forall a b fb na, supported a = true ->
    (let '(y', m') := next_month (year a) (month a) in from_ymd_first y' m') = Some na ->
    from_ymd_first (year b) (month b) = Some fb ->
    1 <= month a <= 12 -> 1 <= month b <= 12 ->
    year a < year b \/ (year a = year b /\ month a < month b) -> na <= fb) as Hord.
  { intros a b fb na _ Ha Hb Hma Hmb Hlt. unfold next_month in Ha.
    destruct (Z.eqb_spec (month a) 12) as [E|E].
    - destruct (decide (year a + 1 = year b /\ month b = 1)) as [[E1 E2]|Hne].
      + rewrite E1, E2 in *. simplify_eq. lia.
      + apply Z.lt_le_incl. eapply from_ymd_first_mono; [exact Ha|exact Hb|lia].
    - destruct (decide (year a = year b /\ month a + 1 = month b)) as [[E1 E2]|Hne].
      + rewrite E1, E2 in *. simplify_eq. lia.
      + apply Z.lt_le_incl. eapply from_ymd_first_mono; [exact Ha|exact Hb|lia]. }
  destruct (Z.lt_total (year d) (year d')) as [?|[?|?]].
  - pose proof (Hord d d' f' n Hd Hn Hf'). lia.
  - destruct (Z.lt_total (month d) (month d')) as [?|[?|?]]; [|done|].
    + pose proof (Hord d d' f' n Hd Hn Hf'). lia.
    + pose proof (Hord d' d f n' Hd' Hn' Hf). lia.
  - pose proof (Hord d' d f n' Hd' Hn' Hf). lia.
Qed.

(** The four period types, as the code tells them apart. *)
Inductive period_view (p : PlanRuntime) : Prop :=
| VDaily : p.(period_type) = PERIOD_DAILY -> period_view p
| VMonthly : p.(period_type) = PERIOD_MONTHLY -> period_view p
| VHourly : p.(period_type) = PERIOD_HOURLY -> period_view p
| VTotal : p.(period_type) <> PERIOD_DAILY -> p.(period_type) <> PERIOD_MONTHLY ->
           p.(period_type) <> PERIOD_HOURLY -> period_view p.

Lemma period_cases p : period_view p.
Proof.
  destruct (decide (p.(period_type) = PERIOD_DAILY)); [by apply VDaily|].
  destruct (decide (p.(period_type) = PERIOD_MONTHLY)); [by apply VMonthly|].
  destruct (decide (p.(period_type) = PERIOD_HOURLY)); [by apply VHourly|by apply VTotal].
Qed.

End windows.

(** [period p] splits on the period type and reduces the window functions. *)
Ltac period p :=
  destruct (period_cases p) as [Hper|Hper|Hper|Hnd Hnm Hnh];
  unfold period_end, period_key, period_start;
  repeat first [rewrite Hper | rewrite bool_decide_false by assumption
               | rewrite bool_decide_true by reflexivity
               | rewrite bool_decide_false by discriminate].

Section window_theorems.
Context `{C : Calendar} `{!CalendarLaws C}.

Lemma period_start_end p now :
  clock_ok p now ->
  period_start p now <= now /\
  match period_end p now with
  | Some e => now < e
  | None => p.(period_type) <> PERIOD_DAILY /\ p.(period_type) <> PERIOD_MONTHLY /\
            p.(period_type) <> PERIOD_HOURLY
  end.
Proof.
  intros [Hs Hh0]. assert (0 <= now) as Hnow.
  { apply andb_true_iff in Hs as [Hs%Z.leb_le _]. pose proof (date_naive_window now).
    pose proof (midnight_mono 0 _ Hs). unfold midnight in *. lia. }
  period p.
  - pose proof (date_naive_window now). unfold midnight, DAY, NANOS in *. lia.
  - destruct (month_window _ Hs) as (f & n & Hf & Hn & Hin). rewrite Hf. clear Hf.
    destruct (next_month _ _). rewrite Hn. cbn. pose proof (date_naive_window now).
    pose proof (midnight_mono f (date_naive now)). pose proof (midnight_mono (date_naive now + 1) n). lia.
  - specialize (Hh0 Hper) as [Ha Hp]. destruct (bucket_window p now Ha Hp) as (q & _ & Hb & _).
    rewrite timestamp_window. pose proof (timestamp_window now (bucket_start p now + step_secs p)).
    rewrite (step_secs_exact p Hp) in *. unfold from_timestamp, NANOS in *. lia.
  - done.
Qed.

(** Every instant of a window has the window's start. *)
Lemma period_start_stable p now now' :
  clock_ok p now -> clock_ok p now' ->
  period_start p now <= now' -> (forall e, period_end p now = Some e -> now' < e) ->
  period_start p now' = period_start p now /\ period_key p now' = period_key p now.
Proof.
  intros [Hs Hh] [Hs' Hh'].
  assert (forall d t, midnight d <= t < midnight (d + 1) -> d = date_naive t) as Hday.
  { intros d t Ht. pose proof (date_naive_window t). unfold midnight, DAY, NANOS in *. lia. }
  period p; intros Hlo Hhi.
  - specialize (Hhi _ eq_refl). rewrite <-(Hday (date_naive now) now'); [done|].
    unfold midnight, DAY, NANOS in *. lia.
  - destruct (month_window _ Hs) as (f & n & Hf & Hn & Hin). rewrite Hf in Hlo.
    assert (year (date_naive now') = year (date_naive now) /\
            month (date_naive now') = month (date_naive now)) as [-> ->]; [|done].
    eapply month_window_same; [done..|]. destruct (next_month _ _). rewrite Hn in Hhi.
    specialize (Hhi _ eq_refl). pose proof (date_naive_window now').
    unfold midnight, DAY, NANOS in *. lia.
  - specialize (Hh Hper) as [Ha Hp]. specialize (Hh' Hper) as [Ha' _]. specialize (Hhi _ eq_refl).
    destruct (bucket_window p now Ha Hp) as (q & Hq & Hb & Hpos).
    destruct (bucket_window p now' Ha' Hp) as (q' & Hq' & Hb' & _).
    rewrite timestamp_window in Hlo. pose proof (timestamp_window now' (bucket_start p now + step_secs p)).
    rewrite (step_secs_exact p Hp) in *. unfold from_timestamp, NANOS in *.
    assert (q = q') as <- by nia. rewrite Hq, Hq'. done.
  - done.
Qed.

(** C14: a plan's statistics window contains the clock: for every supported instant (past the
    anchor of an hourly plan) [period_start <= now < period_end], only plans without a period have no
    end, and every other instant of the same window gets the same start and the same key. So the
    windows of a plan are disjoint and leave no gap. *)
Theorem windows_tile_time p now now' :
  clock_ok p now -> clock_ok p now' ->
  period_start p now <= now /\
  (forall e, period_end p now = Some e -> now < e) /\
  (period_end p now = None -> p.(period_type) <> PERIOD_DAILY /\ p.(period_type) <> PERIOD_MONTHLY /\
            p.(period_type) <> PERIOD_HOURLY) /\
  (period_start p now <= now' -> (forall e, period_end p now = Some e -> now' < e) ->
   period_start p now' = period_start p now /\ period_key p now' = period_key p now).
Proof.
  intros H H'. destruct (period_start_end p now H) as [Hlo Hhi].
  split; [done|]. split; [intros e He; by rewrite He in Hhi|].
  split; [intros He; by rewrite He in Hhi|]. by apply period_start_stable.
Qed.

Lemma pretty_N_head (n : N) :
  (n <> 0)%N -> exists a s, pretty n = String a s /\ a <> "0"%char.
Proof.
  intros Hn. unfold pretty, pretty_N. rewrite decide_False by done. generalize "" as s. revert Hn.
  induction (N.lt_wf_0 n) as [n _ IH]; intros Hn s.
  rewrite pretty_N_go_step by lia. destruct (decide (n `div` 10 = 0)%N) as [E|E].
  - rewrite E, pretty_N_go_0. eexists _, _. split; [done|]. apply N.div_small_iff in E; [|lia].
    rewrite N.mod_small by lia. unfold pretty_N_char. repeat case_match; congruence || lia.
  - apply IH; [apply N.div_lt; lia|done].
Qed.

Lemma pad2_inj a b : 0 <= a -> 0 <= b -> pad2 a = pad2 b -> a = b.
Proof.
  assert (forall z, 10 <= z -> exists a s, pretty z = String a s /\ a <> "0"%char) as Hbig.
  { intros z Hz. destruct (pretty_N_head (Z.to_N z)) as (a' & s' & E & Hne); [lia|].
    exists a', s'. split; [|done]. rewrite <-E. by destruct z. }
  assert (forall x y, 0 <= x < 10 -> 10 <= y -> "0" +:+ pretty x <> pretty y) as Hne.
  { intros x y Hx Hy E. destruct (Hbig y Hy) as (a' & s' & Ey & Hne).
    rewrite Ey in E. by injection E as <- _. }
  intros Ha Hb. unfold pad2. destruct (Z.leb_spec 0 a), (Z.leb_spec 0 b); try lia.
  destruct (Z.ltb_spec a 10), (Z.ltb_spec b 10); cbn [andb]; intros E.
  - apply string_app_inj_l in E. by apply (inj pretty) in E.
  - by apply Hne in E.
  - symmetry in E. by apply Hne in E.
  - by apply (inj pretty) in E.
Qed.

Lemma nonneg_no_dash z :
  0 <= z -> str_all (fun d => negb (bool_decide (d = "-"%char))) (pretty z) = true.
Proof.
  intros Hz. eapply (str_all_impl is_digit).
  - intros a Ha. apply negb_true_iff, bool_decide_eq_false. by intros ->.
  - unfold pretty, pretty_Z. destruct z; [done|apply pretty_N_digits|lia].
Qed.

(** The cache key and the start of the window identify each other: for one plan, two supported
    instants have the same [period_key] exactly when they have the same [period_start], the column
    the usage counters are stored under. *)
Theorem period_key_identifies_window p now now' :
  supported (date_naive now) = true -> supported (date_naive now') = true ->
  period_key p now = period_key p now' <-> period_start p now = period_start p now'.
Proof.
  intros Hs Hs'. period p.
  - split; intros E.
    + apply string_app_inj_l in E. by apply date_display_inj in E as ->.
    + apply midnight_inj in E. by rewrite E.
  - destruct (month_window _ Hs) as (f & n & Hf & _). destruct (month_window _ Hs') as (f' & n' & Hf' & _).
    rewrite Hf, Hf'. split; intros E.
    + apply string_app_inj_l, sep_inj in E as [Ey Em]; [|apply nonneg_no_dash, year_nonneg; done..].
      apply (inj pretty) in Ey. pose proof (month_range (date_naive now)).
      pose proof (month_range (date_naive now')). apply pad2_inj in Em; [|lia..].
      rewrite Ey, Em in Hf. congruence.
    + apply midnight_inj in E as ->. apply from_ymd_first_spec in Hf as [<- <-], Hf' as [<- <-]. done.
  - rewrite !timestamp_from. split; intros E.
    + apply string_app_inj_l in E. apply (inj pretty) in E. by rewrite E.
    + unfold from_timestamp, NANOS in E. do 2 f_equal. lia.
  - done.
Qed.

End window_theorems.

Definition sample_plan (ptype : string) (hours : Z) : PlanRuntime :=
  {| plan_id := 1; plan_name := "team"; group_name := "g"; token_limit := 1000;
     period_type := ptype; period_hours := hours; period_anchor_mode := ANCHOR_JOIN;
     member_since := 1700000123456789000; overage_action := "block"; downgrade_model := None;
     alert_channels := ["in_site"]; webhook_url := ""; priority := 0; active_start := None;
     active_end := None; model_scope := None |}.

Lemma windows_tile_time_witness :
  let p := sample_plan PERIOD_HOURLY 5 in
  @period_start Gregorian.calendar p 1700020000000000000 <= 1700020000000000000 /\
  @period_key Gregorian.calendar p 1700030000000000000 =
    @period_key Gregorian.calendar p 1700020000000000000.
Proof.
  destruct (windows_tile_time (C := Gregorian.calendar)
              (sample_plan PERIOD_HOURLY 5) 1700020000000000000 1700030000000000000)
    as (H1 & _ & _ & H4).
  - split; [reflexivity | intros _; vm_compute; split; discriminate].
  - split; [reflexivity | intros _; vm_compute; split; discriminate].
  - split; [exact H1|]. apply H4; [vm_compute; discriminate|].
    intros e He. vm_compute in He. injection He as <-. reflexivity.
Defined.

Lemma period_key_identifies_window_witness :
  let p := sample_plan PERIOD_MONTHLY 1 in
  @period_key Gregorian.calendar p 1700020000000000000 =
    @period_key Gregorian.calendar p 1700000000000000000 <->
  @period_start Gregorian.calendar p 1700020000000000000 =
    @period_start Gregorian.calendar p 1700000000000000000.
Proof.
  cbv zeta. apply (period_key_identifies_window (C := Gregorian.calendar)
           (sample_plan PERIOD_MONTHLY 1) 1700020000000000000 1700000000000000000); reflexivity.
Defined.

(** ** Properties of the scope *)

Lemma ascii_lower_idem a : ascii_lower (ascii_lower a) = ascii_lower a.
Proof. destruct a as [[] [] [] [] [] [] [] []]; reflexivity. Qed.

Lemma ascii_lower_star a : ascii_lower a = "*"%char <-> a = "*"%char.
Proof.
  split; [|by intros ->].
  destruct a as [[] [] [] [] [] [] [] []]; intros H; (reflexivity || discriminate H).
Qed.

Lemma lower_idem s : to_ascii_lowercase (to_ascii_lowercase s) = to_ascii_lowercase s.
Proof. induction s as [|a s IH]; cbn; [done|]. by rewrite ascii_lower_idem, IH. Qed.

Lemma lower_app a b : to_ascii_lowercase (a +:+ b) = to_ascii_lowercase a +:+ to_ascii_lowercase b.
Proof. induction a as [|c a IH]; [done|]. change (String c a +:+ b) with (String c (a +:+ b)). cbn. by rewrite IH. Qed.

Lemma lower_length s : String.length (to_ascii_lowercase s) = String.length s.
Proof. induction s as [|a s IH]; cbn; [done|]. by rewrite IH. Qed.

Lemma strip_star_lower s :
  strip_suffix_char "*" (to_ascii_lowercase s) =
  option_map to_ascii_lowercase (strip_suffix_char "*" s).
Proof.
  induction s as [|a s IH]; [done|].
  destruct s as [|b s].
  - cbn. rewrite (bool_decide_ext _ _ (ascii_lower_star a)). by case_bool_decide.
  - assert (forall x y t, strip_suffix_char "*" (String x (String y t)) =
      option_map (String x) (strip_suffix_char "*" (String y t))) as Hstep by reflexivity.
    change (to_ascii_lowercase (String a (String b s)))
      with (String (ascii_lower a) (String (ascii_lower b) (to_ascii_lowercase s))).
    rewrite !Hstep. change (String (ascii_lower b) (to_ascii_lowercase s))
      with (to_ascii_lowercase (String b s)). rewrite IH.
    by destruct (strip_suffix_char "*" (String b s)).
Qed.

Lemma prefix_lower p m :
  (String.length p <=? String.length m)%nat &&
    eq_ignore_ascii_case (String.substring 0 (String.length p) m) p =
  starts_with (to_ascii_lowercase p) (to_ascii_lowercase m).
Proof.
  unfold eq_ignore_ascii_case, starts_with. revert m. induction p as [|a p IH]; intros m.
  - destruct m; cbn; by rewrite bool_decide_true.
  - destruct m as [|b m]; [done|]. cbn [String.length String.substring]. cbn.
    destruct (Ascii.ascii_dec (ascii_lower a) (ascii_lower b)) as [E|E].
    + rewrite <-IH, E. f_equal. apply bool_decide_ext. split; [by intros [=] | by intros ->].
    + rewrite bool_decide_false; [apply andb_false_r|]. intros [=]. congruence.
Qed.

Lemma model_matches_lower pattern model :
  model_matches_pattern pattern model =
  matches_pattern (to_ascii_lowercase pattern) (to_ascii_lowercase model).
Proof.
  unfold model_matches_pattern, matches_pattern. rewrite strip_star_lower.
  destruct (strip_suffix_char "*" pattern) as [p|]; cbn [option_map]; [apply prefix_lower|done].
Qed.

(** A plan's model pattern is the routing pattern with ASCII case ignored on both sides: it
    matches exactly when the lower-cased pattern matches the lower-cased model by the routing rule.
    In particular ["GPT-*"] covers ["gpt-4"] for a plan and not for a route. *)
Theorem scope_match_is_caseless_route_match :
  (forall pattern model, model_matches_pattern pattern model =
     matches_pattern (to_ascii_lowercase pattern) (to_ascii_lowercase model)) /\
  model_matches_pattern "GPT-*" "gpt-4" = true /\ matches_pattern "GPT-*" "gpt-4" = false.
Proof. split; [exact model_matches_lower | by split]. Qed.

(** What a stored scope satisfies. *)
Definition scope_wf (s : ModelScope) : Prop :=
  (s.(allow) ++ s.(deny) <> []) /\
  (length s.(allow) + length s.(deny) <= MAX_MODEL_PATTERNS)%nat /\
  (forall a, a ∈ s.(allow) -> a ∉ s.(deny)) /\
  (forall a, a ∈ s.(allow) ++ s.(deny) ->
     exists src, validate_model_pattern src = Ok () /\ a = to_ascii_lowercase src).

Section scope.
Variable show : Value -> string.

Lemma parse_items_ok key items out :
  parse_items show key items = Ok out ->
  forall a, a ∈ out -> exists src, validate_model_pattern src = Ok () /\ a = to_ascii_lowercase src.
Proof.
  revert out. induction items as [|it items IH]; intros out; cbn.
  - intros [= <-] a Ha. by apply elem_of_nil in Ha.
  - destruct (as_str it) as [s|]; [|done].
    destruct (validate_model_pattern s) as [[]|] eqn:E; cbn; [|done].
    destruct (parse_items show key items) as [out'|]; [|done].
    intros [= <-] a [->|Ha]%elem_of_cons; [by exists s | by eapply IH].
Qed.

Lemma parse_list_ok obj key out :
  parse_list show obj key = Ok out ->
  forall a, a ∈ out -> exists src, validate_model_pattern src = Ok () /\ a = to_ascii_lowercase src.
Proof.
  unfold parse_list. destruct (Map.get key obj) as [[]|]; try done;
    [intros [= <-] a Ha; by apply elem_of_nil in Ha | apply parse_items_ok |
     intros [= <-] a Ha; by apply elem_of_nil in Ha].
Qed.

Lemma parse_model_scope_wf v s : parse_model_scope show v = Ok (Some s) -> scope_wf s.
Proof.
  unfold parse_model_scope. destruct v as [v|]; [|done].
  assert (match as_object v with
    | Some obj => exists al de, parse_list show obj "allow" = Ok al /\ parse_list show obj "deny" = Ok de /\
       (MAX_MODEL_PATTERNS <? length al + length de)%nat = false /\
       existsb (fun a => bool_decide (a ∈ de)) al = false /\
       bool_decide (al = []) && bool_decide (de = []) = false /\ s = {| allow := al; deny := de |}
    | None => False end -> scope_wf s) as Hgoal.
  { destruct (as_object v) as [obj|]; [|done].
    intros (al & de & Ha & Hd & Hlen & Hdis & Hne & ->). split; cbn; [|split; [|split]].
    - intros [-> ->]%app_eq_nil. done.
    - apply Nat.ltb_ge in Hlen. done.
    - intros a Hal Hde. assert (existsb (fun a => bool_decide (a ∈ de)) al = true); [|congruence].
      apply existsb_exists. exists a. rewrite <-list_elem_of_In, bool_decide_eq_true. done.
    - intros a [H|H]%elem_of_app; [by eapply (parse_list_ok _ _ _ Ha)|by eapply (parse_list_ok _ _ _ Hd)]. }
  intros H. apply Hgoal. revert H. destruct v; cbn [as_object]; try done.
  destruct (List.find _ _); [done|].
  destruct (parse_list show m "allow") as [al|]; [|done].
  destruct (parse_list show m "deny") as [de|]; [|done].
  destruct (_ <? _)%nat eqn:E1; [done|]. destruct (existsb _ _) eqn:E2; [done|].
  destruct (_ && _) eqn:E3; [done|]. intros [= <-]. exists al, de. auto 10.
Qed.

End scope.

Lemma matches_caseless p m : model_matches_pattern p (to_ascii_lowercase m) = model_matches_pattern p m.
Proof. by rewrite !model_matches_lower, lower_idem. Qed.

(** C40: a scope that parses is well formed (non-empty, at most 32 patterns, every pattern valid and
    lower-cased, no pattern both allowed and denied), and it admits a model, whatever its case,
    exactly when no deny pattern matches and the allow list is empty or matches. *)
Theorem parsed_scope_sound show v s model :
  parse_model_scope show v = Ok (Some s) ->
  scope_wf s /\
  scope_matches s (to_ascii_lowercase model) = scope_matches s model /\
  (scope_matches s model = true <->
   (forall d, d ∈ s.(deny) -> model_matches_pattern d model = false) /\
   (s.(allow) = [] \/ exists a, a ∈ s.(allow) /\ model_matches_pattern a model = true)).
Proof.
  intros H. split; [by eapply parse_model_scope_wf|]. clear H.
  assert (forall l m, existsb (fun p => model_matches_pattern p m) l = true <->
    exists a, a ∈ l /\ model_matches_pattern a m = true) as Hex.
  { intros l m. rewrite existsb_exists. by setoid_rewrite list_elem_of_In. }
  split.
  - unfold scope_matches. assert (forall l, existsb (fun p => model_matches_pattern p (to_ascii_lowercase model)) l
      = existsb (fun p => model_matches_pattern p model) l) as Heq.
    { induction l as [|x l IH]; cbn; [done|]. by rewrite matches_caseless, IH. }
    by rewrite !Heq.
  - unfold scope_matches. destruct (existsb _ (deny s)) eqn:E.
    + apply Hex in E as (d & Hd & Hm). split; [done|]. intros [Hall _]. rewrite Hall in Hm; done.
    + rewrite orb_true_iff, bool_decide_eq_true, Hex. split; [|naive_solver].
      intros Hor. split; [|naive_solver]. intros d Hd. destruct (model_matches_pattern d model) eqn:Em; [|done].
      rewrite <-E. symmetry. apply Hex. by exists d.
Qed.

Definition sample_scope : Value :=
  json_object [("allow", VArray [VString "Claude-*"]); ("deny", VArray [VString "claude-3-opus"])].

Lemma parsed_scope_sound_witness :
  scope_wf {| allow := ["claude-*"]; deny := ["claude-3-opus"] |}.
Proof.
  apply (parsed_scope_sound (fun _ => "") (Some sample_scope)
           {| allow := ["claude-*"]; deny := ["claude-3-opus"] |} "Claude-3-Opus").
  reflexivity.
Defined.

(** Active hours are a partition of the day: for two different times of day, the window from
    the first to the second and the window back from the second to the first are complementary at
    every moment, overnight windows included. *)
Theorem active_windows_complement s e now :
  s <> e ->
  is_within_active_window (Some s) (Some e) now = negb (is_within_active_window (Some e) (Some s) now).
Proof.
  intros H. unfold is_within_active_window.
  destruct (Z.ltb_spec s e), (Z.ltb_spec e s); try lia;
    destruct (Z.leb_spec s now), (Z.leb_spec e now), (Z.ltb_spec now s), (Z.ltb_spec now e); try done; lia.
Qed.

Lemma active_windows_complement_witness :
  is_within_active_window (Some 79200) (Some 21600) 3600 =
  negb (is_within_active_window (Some 21600) (Some 79200) 3600).
Proof. apply (active_windows_complement 79200 21600 3600). lia. Defined.

(** ** Properties of the choice *)

Lemma rank_le_refl a : rank_le a a = true.
Proof. destruct a as [[a1 a2] a3]. cbn. rewrite !Z.eqb_refl, Z.leb_refl. by rewrite !orb_true_r. Qed.

Lemma rank_le_spec a b :
  rank_le a b = true <->
  a.1.1 < b.1.1 \/ (a.1.1 = b.1.1 /\ (a.1.2 < b.1.2 \/ (a.1.2 = b.1.2 /\ a.2 <= b.2))).
Proof.
  destruct a as [[a1 a2] a3], b as [[b1 b2] b3]. cbn.
  rewrite !orb_true_iff, !andb_true_iff, !orb_true_iff, !andb_true_iff, !Z.ltb_lt, !Z.eqb_eq, Z.leb_le. done.
Qed.

Lemma max_by_key_spec key l p :
  max_by_key key l = Some p <->
  exists l1 l2, l = l1 ++ p :: l2 /\ Forall (fun q => rank_le (key q) (key p) = true) l1 /\
    Forall (fun q => rank_le (key p) (key q) = false) l2.
Proof.
  destruct l as [|x l]; cbn; [split; [done|]; by intros ([] & ? & [=] & _)|].
  assert (forall l x, exists l1 l2 p,
    foldl (fun best y => if rank_le (key best) (key y) then y else best) x l = p /\
    x :: l = l1 ++ p :: l2 /\ Forall (fun q => rank_le (key q) (key p) = true) l1 /\
    Forall (fun q => rank_le (key p) (key q) = false) l2) as Hex.
  { clear. induction l as [|y l IH] using rev_ind; intros x; [by exists [], [], x|].
    rewrite foldl_app. cbn. destruct (IH x) as (l1 & l2 & p & -> & Hl & H1 & H2).
    destruct (rank_le (key p) (key y)) eqn:E.
    - exists (x :: l), [], y. split; [done|]. split; [done|]. split; [|done]. rewrite Hl.
      apply Forall_app. split; [|apply Forall_cons; split; [done|]];
        (eapply Forall_impl; [eassumption|]); cbn; intros q Hq; rewrite rank_le_spec in *; [lia|].
      apply not_true_iff_false in Hq. rewrite rank_le_spec in Hq. lia.
    - exists l1, (l2 ++ [y]), p. split; [done|]. rewrite app_comm_cons, Hl. split; [by rewrite <-app_assoc|].
      split; [done|]. apply Forall_app. auto. }
  destruct (Hex l x) as (l1 & l2 & p' & -> & Hl & H1 & H2). split; [intros [= <-]; eauto 6|].
  intros (m1 & m2 & Hm & G1 & G2). f_equal. rewrite Hl in Hm.
  assert (forall (a1 a2 b1 b2 : list PlanRuntime) a b, a1 ++ a :: a2 = b1 ++ b :: b2 ->
    a = b \/ b ∈ a2 /\ a ∈ b1 \/ b ∈ a1 /\ a ∈ b2) as Hsplit.
  { clear. induction a1 as [|c a1 IH]; intros a2 [|d b1] b2 a b; cbn.
    - intros [= -> _]. auto.
    - intros [= -> ->]. right; left. split; set_solver.
    - intros [= -> <-]. right; right. split; set_solver.
    - intros [= -> H]. destruct (IH _ _ _ _ _ H) as [?|[[]|[]]]; [auto|right; left|right; right]; set_solver. }
  apply Hsplit in Hm as [?|[[Ha Hb]|[Ha Hb]]]; [done| |];
    rewrite Forall_forall in *.
  - apply H2 in Ha. apply G1 in Hb. congruence.
  - apply H1 in Ha. apply G2 in Hb. congruence.
Qed.

Lemma plan_candidates_spec plans user now model p :
  p ∈ plan_candidates plans user now model <->
  p ∈ default [] (plans !! user) /\ active_at p now = true /\ scope_admits model p = true.
Proof.
  unfold plan_candidates. rewrite !list_elem_of_In, !List.filter_In. tauto.
Qed.

(** The plan of a request is chosen as documented. None is chosen exactly when none of the
    user's plans is active and admits the model; a chosen plan is one of them, and no other one is
    more specific, nor as specific with a higher priority, nor equal in both with a higher id. *)
Theorem resolve_plan_spec plans user now model :
  match resolve_plan plans user now model with
  | None => forall p, p ∈ default [] (plans !! user) ->
      active_at p now = true -> scope_admits model p = false
  | Some best =>
      best ∈ default [] (plans !! user) /\ active_at best now = true /\ scope_admits model best = true /\
      forall p, p ∈ default [] (plans !! user) -> active_at p now = true ->
        scope_admits model p = true -> rank_le (plan_rank model p) (plan_rank model best) = true
  end.
Proof.
  unfold resolve_plan. destruct (max_by_key _ _) as [best|] eqn:E.
  - apply max_by_key_spec in E as (l1 & l2 & El & H1 & H2).
    assert (best ∈ plan_candidates plans user now model) as Hb by (rewrite El; set_solver).
    apply plan_candidates_spec in Hb as (Hb1 & Hb2 & Hb3). do 3 (split; [done|]).
    intros p Hp1 Hp2 Hp3. assert (p ∈ plan_candidates plans user now model) as Hp
      by (by apply plan_candidates_spec).
    rewrite El in Hp. rewrite Forall_forall in *.
    apply elem_of_app in Hp as [Hp|[->|Hp]%elem_of_cons]; [by apply H1|apply rank_le_refl|].
    apply H2 in Hp. rewrite rank_le_spec. apply not_true_iff_false in Hp. rewrite rank_le_spec in Hp. lia.
  - intros p Hp1 Hp2. destruct (scope_admits model p) eqn:Hp3; [|done]. exfalso.
    assert (p ∈ plan_candidates plans user now model) as Hp by (by apply plan_candidates_spec).
    destruct (plan_candidates plans user now model); [by apply elem_of_nil in Hp|done].
Qed.

(** ** Loading *)

Definition row_runtime (show : Value -> string) (u : Z) (r : RuntimeRow) : option PlanRuntime :=
  match parse_model_scope show r.(row_model_scope) with
  | Ok scope => if r.(row_user_id) =? u then Some (runtime_of_row r scope) else None
  | Err _ => None
  end.

(** Loading keeps, for every user and in row order, exactly the rows whose scope parses; a row
    with a corrupt scope is left out and affects no other row. *)
Theorem rows_into_runtimes_spec show rows u :
  default [] (rows_into_runtimes show rows !! u) = omap (row_runtime show u) rows.
Proof.
  unfold rows_into_runtimes.
  assert (forall m, default [] (foldl (add_row show) m rows !! u) =
    default [] (m !! u) ++ omap (row_runtime show u) rows) as H; [|by rewrite H, lookup_empty].
  induction rows as [|r rows IH]; intros m; cbn; [by rewrite app_nil_r|].
  rewrite IH. unfold add_row, row_runtime. destruct (parse_model_scope show _) as [sc|]; [|done].
  destruct (Z.eqb_spec (row_user_id r) u) as [->|Hne].
  - rewrite lookup_insert_eq. cbn. by rewrite <-app_assoc.
  - by rewrite lookup_insert_ne.
Qed.
