(* ===== verification/Metering.v ===== *)
(** * Metering

Token usage from the upstream's report to the plan quota: [Usage] and the accounting transaction of
[src/store/usage.rs], the in-memory counters [UsageCache] and [record] of [src/service/usage.rs],
the threshold alerts of [src/service/notify.rs] and the quota check of [src/service/plans.rs]. The
database is a record of tables; whether its transaction goes through is an input. *)

From Stdlib Require Import SpecFloat.
From S2P Require Import Prelude Float Json Errors Calendar Routing Plans.

Local Open Scope Z_scope.

(** ** Usage *)

Record Usage : Type := {
  prompt_tokens : option Z;
  completion_tokens : option Z;
  input_tokens : option Z;
  output_tokens : option Z;
  cache_read_tokens : option Z;
  cache_write_tokens : option Z;
}.

(** The wire form, after the field aliases are resolved. *)
Record UsageWire : Type := {
  w_prompt_tokens : option Z;
  w_completion_tokens : option Z;
  w_input_tokens : option Z;
  w_output_tokens : option Z;
  w_cache_read_tokens : option Z;
  w_cache_write_tokens : option Z;
  w_deepseek_cache_hit : option Z;
  w_prompt_cached : option Z; (* prompt_tokens_details.cached_tokens *)
  w_input_cached : option Z;  (* input_tokens_details.cached_tokens *)
}.

Definition or_else {A} (a b : option A) : option A := match a with Some _ => a | None => b end.

Definition usage_from_wire (w : UsageWire) : Usage :=
  {| prompt_tokens := w.(w_prompt_tokens);
     completion_tokens := w.(w_completion_tokens);
     input_tokens := w.(w_input_tokens);
     output_tokens := w.(w_output_tokens);
     cache_read_tokens :=
       match w.(w_cache_read_tokens) with
       | Some n => Some n
       | None => or_else (or_else w.(w_prompt_cached) w.(w_input_cached)) w.(w_deepseek_cache_hit)
       end;
     cache_write_tokens := w.(w_cache_write_tokens) |}.

Definition input (u : Usage) : Z := default 0 (or_else u.(prompt_tokens) u.(input_tokens)).
Definition output (u : Usage) : Z := default 0 (or_else u.(completion_tokens) u.(output_tokens)).
Definition total (u : Usage) : Z := sat_add (input u) (output u).

Definition fold_anthropic_input (u : Usage) : Usage :=
  let buckets := sat_add (default 0 u.(cache_read_tokens)) (default 0 u.(cache_write_tokens)) in
  if 0 <? buckets then
    {| prompt_tokens := None;
       completion_tokens := u.(completion_tokens);
       input_tokens := Some (sat_add (default 0 (or_else u.(prompt_tokens) u.(input_tokens))) buckets);
       output_tokens := u.(output_tokens);
       cache_read_tokens := u.(cache_read_tokens);
       cache_write_tokens := u.(cache_write_tokens) |}
  else u.

Record PlanBill : Type := {
  bill_plan_id : Z;
  bill_period_start : Z;
  bill_period_key : string;
}.

Record UsageMeta : Type := {
  request_id : string;
  user_id : option Z;
  api_key_id : option Z;
  model : string;
  meta_provider_id : Z;
  endpoint : string;
  streamed : bool;
  client_ip : option string;
  session_id : option string;
  first_token_ms : option Z;
  test_call : bool;
  pricing_models : list string;
  plan : option PlanBill;
}.

(** ** In-memory counters *)

Module UsageCache.

(** (user, plan) to (period key, tokens) *)
Abbreviation t := (gmap (Z * Z) (string * Z)).

Definition get_plan (c : t) (user_id plan_id : Z) (period_key : string) : Z :=
  match c !! (user_id, plan_id) with
  | Some (k, v) => if bool_decide (k = period_key) then v else 0
  | None => 0
  end.

Definition incr_plan (user_id plan_id : Z) (period_key : string) (tokens : Z) (c : t) : t :=
  let '(k, v) := default (period_key, 0) (c !! (user_id, plan_id)) in
  if bool_decide (k = period_key) then <[(user_id, plan_id) := (k, sat_add v tokens)]> c
  else <[(user_id, plan_id) := (period_key, Z.max tokens 0)]> c.

Record PlanUsageSnapshot : Type := {
  s_user_id : Z;
  s_plan_id : Z;
  s_period_key : string;
  s_used : Z;
}.

Definition apply_snapshot (c : t) (s : PlanUsageSnapshot) : t :=
  match c !! (s.(s_user_id), s.(s_plan_id)) with
  | Some (k, v) =>
      if bool_decide (k = s.(s_period_key)) && (s.(s_used) <=? v) then c
      else <[(s.(s_user_id), s.(s_plan_id)) := (s.(s_period_key), s.(s_used))]> c
  | None => <[(s.(s_user_id), s.(s_plan_id)) := (s.(s_period_key), s.(s_used))]> c
  end.

Definition reload_from_db (snapshots : list PlanUsageSnapshot) (c : t) : t :=
  foldl apply_snapshot c snapshots.

End UsageCache.

(** ** Threshold alerts *)

Module Notify.

(** [used * 100] and [95 * limit] are [i64] products. *)
Definition crossed_level (used limit : Z) : option Z :=
  if limit <=? 0 then None
  else if limit <=? used then Some 100
  else if wrap_i64 (95 * limit) <=? wrap_i64 (used * 100) then Some 95
  else if wrap_i64 (80 * limit) <=? wrap_i64 (used * 100) then Some 80
  else None.

Definition Alert : Type := Z * Z * string * Z.

Definition prune_stale_periods (seen : gset Alert) (user_id plan_id : Z) (period_key : string)
    : gset Alert :=
  filter (fun a : Alert => a.1.1.1 <> user_id \/ a.1.1.2 <> plan_id \/ a.1.2 = period_key) seen.

(** The new set and the alert whose dispatch is spawned, if any. *)
Definition check_and_dispatch (seen : gset Alert) (user_id : Z) (p : PlanRuntime) (used : Z)
    (period_key : string) : gset Alert * option Alert :=
  match crossed_level used p.(token_limit) with
  | None => (seen, None)
  | Some level =>
      let seen := prune_stale_periods seen user_id p.(plan_id) period_key in
      let a := (user_id, p.(plan_id), period_key, level) in
      if bool_decide (a ∈ seen) then (seen, None) else ({[a]} ∪ seen, Some a)
  end.

(** A spawned dispatch that fails withdraws its mark. *)
Definition dispatch_failed (seen : gset Alert) (a : Alert) : gset Alert := seen ∖ {[a]}.

Definition period_label (period_type : string) : string :=
  if bool_decide (period_type = PERIOD_HOURLY) then "本时段"
  else if bool_decide (period_type = PERIOD_DAILY) then "本日"
  else if bool_decide (period_type = PERIOD_MONTHLY) then "本月"
  else "总量".

Definition build_message (p : PlanRuntime) (used : Z) (username : string) : string :=
  let pct := if 0 <? p.(token_limit) then Z.quot (wrap_i64 (used * 100)) p.(token_limit) else 0 in
  "用户 " +:+ username +:+ " 的 Coding Plan「" +:+ p.(plan_name) +:+ "」" +:+
  period_label p.(period_type) +:+ "用量已用 " +:+ pretty used +:+ "/" +:+ pretty p.(token_limit) +:+
  " tokens（" +:+ pretty pct +:+ "%）".

End Notify.

(** ** The quota check of a request *)

Record PlanDecision : Type := {
  decided_plan : option PlanRuntime;
  downgrade_to : option string;
}.

Section check.
Context `{C : Calendar}.

(** [(end - now).num_seconds().max(1) as u64).min(86400)] *)
Definition retry_after (p : PlanRuntime) (now : Z) : option Z :=
  (fun e => Z.min (Z.max (Z.quot (e - now) NANOS) 1) 86400) <$> period_end p now.

Definition blocked (p : PlanRuntime) (used now : Z) : AppError :=
  PlanQuotaExceeded
    ("Coding Plan「" +:+ p.(plan_name) +:+ "」" +:+ Notify.period_label p.(period_type) +:+
     "配额已用尽（" +:+ pretty used +:+ "/" +:+ pretty p.(token_limit) +:+ " tokens）")
    (retry_after p now).

(** The shared state it reads and writes: the plans, the counters and the alerts already sent. *)
Record PlanState : Type := {
  plans : gmap Z (list PlanRuntime);
  usage : UsageCache.t;
  plan_alerts_seen : gset Notify.Alert;
}.

Definition set_seen (seen : gset Notify.Alert) (st : PlanState) : PlanState :=
  {| plans := st.(plans); usage := st.(usage); plan_alerts_seen := seen |}.
Definition set_usage (u : UsageCache.t) (st : PlanState) : PlanState :=
  {| plans := st.(plans); usage := u; plan_alerts_seen := st.(plan_alerts_seen) |}.

Definition overage (p : PlanRuntime) (used now : Z) (mdl : string) : result PlanDecision AppError :=
  if used <? p.(token_limit) then Ok {| decided_plan := Some p; downgrade_to := None |}
  else if bool_decide (p.(overage_action) = OVERAGE_DOWNGRADE) then
    match p.(downgrade_model) with
    | Some target =>
        if bool_decide (target = mdl) then Err (blocked p used now)
        else Ok {| decided_plan := Some p; downgrade_to := Some target |}
    | None => Err (blocked p used now)
    end
  else if bool_decide (p.(overage_action) = OVERAGE_LOG) then
    Ok {| decided_plan := Some p; downgrade_to := None |}
  else Err (blocked p used now).

Definition check_plan (st : PlanState) (user local_now now : Z) (mdl : string)
    : PlanState * option Notify.Alert * result PlanDecision AppError :=
  match resolve_plan st.(plans) user local_now (Some mdl) with
  | None => (st, None, Ok {| decided_plan := None; downgrade_to := None |})
  | Some p =>
      let used := UsageCache.get_plan st.(usage) user p.(plan_id) (period_key p now) in
      let '(seen, alert) :=
        Notify.check_and_dispatch st.(plan_alerts_seen) user p used (period_key p now) in
      (set_seen seen st, alert, overage p used now mdl)
  end.

Definition after_usage_record_with_key (st : PlanState) (user pid : Z) (key : string)
    : PlanState * option Notify.Alert :=
  match List.find (fun p => p.(plan_id) =? pid) (default [] (st.(plans) !! user)) with
  | None => (st, None)
  | Some p =>
      let used := UsageCache.get_plan st.(usage) user p.(plan_id) key in
      match Notify.crossed_level used p.(token_limit) with
      | Some _ =>
          let '(seen, alert) := Notify.check_and_dispatch st.(plan_alerts_seen) user p used key in
          (set_seen seen st, alert)
      | None => (st, None)
      end
  end.

End check.

(** ** The accounting transaction *)

Definition wrap (bits z : Z) : Z := (z + 2 ^ (bits - 1)) mod 2 ^ bits - 2 ^ (bits - 1).

(** A row of [usage_logs]; [log_cost] is a [NUMERIC(12,6)], a number of micro-dollars. *)
Record LogRow : Type := {
  log_id : Z;
  log_request_id : string;
  log_user_id : option Z;
  log_api_key_id : option Z;
  log_model : string;
  log_provider_id : Z;
  log_endpoint : string;
  log_streamed : bool;
  log_input : option Z;
  log_output : option Z;
  log_cache_read : option Z;
  log_cache_write : option Z;
  log_latency_ms : Z;
  log_status : Z;
  log_cost : Z;
  log_client_ip : option string;
  log_session_id : option string;
  log_first_token_ms : option Z;
  log_created_at : Z;
}.

Record Db : Type := {
  usage_logs : list LogRow;
  user_monthly_usage : gmap (Z * string) (Z * Z);
  plan_usage_counters : gmap (Z * Z * Z) Z;
}.

(** What the database decides: the id the sequence hands out, the time, and whether a statement or
    the commit fails for reasons of its own. *)
Record DbEnv : Type := {
  env_id : Z;
  env_now : Z;
  env_month : string;
  env_fails : bool;
}.

(** [bigint] addition raises an error when it overflows. *)
Definition bigint_add (a b : Z) : option Z :=
  if (i64_min <=? a + b) && (a + b <=? i64_max) then Some (a + b) else None.

Section record_usage.
(** The rounding of a double to [NUMERIC(12,6)], done by the database. *)
Variable to_numeric : F64.t -> Z.

Definition log_row (env : DbEnv) (meta : UsageMeta) (u : option Usage) (status latency_ms : Z)
    (cost : F64.t) : LogRow :=
  {| log_id := env.(env_id); log_request_id := meta.(request_id); log_user_id := meta.(user_id);
     log_api_key_id := meta.(api_key_id); log_model := meta.(model);
     log_provider_id := meta.(meta_provider_id); log_endpoint := meta.(endpoint);
     log_streamed := meta.(streamed); log_input := input <$> u; log_output := output <$> u;
     log_cache_read := u ≫= cache_read_tokens; log_cache_write := u ≫= cache_write_tokens;
     log_latency_ms := wrap 32 latency_ms; log_status := wrap 16 status; log_cost := to_numeric cost;
     log_client_ip := meta.(client_ip); log_session_id := meta.(session_id);
     log_first_token_ms := meta.(first_token_ms); log_created_at := env.(env_now) |}.

Definition upsert_monthly (m : gmap (Z * string) (Z * Z)) (k : Z * string) (tokens cost : Z)
    : option (gmap (Z * string) (Z * Z)) :=
  match m !! k with
  | None => Some (<[k := (tokens, cost)]> m)
  | Some (t, c) => (fun t' => <[k := (t', c + cost)]> m) <$> bigint_add t tokens
  end.

Definition upsert_counter (m : gmap (Z * Z * Z) Z) (k : Z * Z * Z) (tokens : Z)
    : option (gmap (Z * Z * Z) Z) :=
  match m !! k with
  | None => Some (<[k := tokens]> m)
  | Some t => (fun t' => <[k := t']> m) <$> bigint_add t tokens
  end.

(** One transaction: [None] is an error, after which the database is as before. [request_id] is
    unique in [usage_logs]. *)
Definition record_usage_tx (db : Db) (env : DbEnv) (meta : UsageMeta) (u : option Usage)
    (status latency_ms : Z) (cost : F64.t) : option Db :=
  let tokens := sat_add (default 0 (input <$> u)) (default 0 (output <$> u)) in
  let row := log_row env meta u status latency_ms cost in
  if env.(env_fails) then None
  else if existsb (fun r => bool_decide (r.(log_request_id) = meta.(request_id))) db.(usage_logs)
  then None
  else
    monthly ← match meta.(user_id) with
              | Some uid => upsert_monthly db.(user_monthly_usage) (uid, env.(env_month)) tokens row.(log_cost)
              | None => Some db.(user_monthly_usage)
              end;
    counters ← match meta.(user_id), meta.(plan) with
               | Some uid, Some bill =>
                   upsert_counter db.(plan_usage_counters)
                     (uid, bill.(bill_plan_id), bill.(bill_period_start)) tokens
               | _, _ => Some db.(plan_usage_counters)
               end;
    Some {| usage_logs := db.(usage_logs) ++ [row]; user_monthly_usage := monthly;
            plan_usage_counters := counters |}.

(** The cost: the client's model name, then the names it was mapped to. *)
Definition cost_of (prices : gmap string ModelPrice) (mdl : string) (u : option Usage) : F64.t :=
  compute_cost prices mdl (input <$> u) (output <$> u) (u ≫= cache_read_tokens)
    (u ≫= cache_write_tokens).

Fixpoint fallback_cost (prices : gmap string ModelPrice) (mdl : string) (u : option Usage)
    (fallbacks : list string) (cost : F64.t) : F64.t :=
  match fallbacks with
  | [] => cost
  | f :: fs =>
      if bool_decide (f = mdl) then fallback_cost prices mdl u fs cost
      else let cost := cost_of prices f u in
           if F64.ltb F64.zero cost then cost else fallback_cost prices mdl u fs cost
  end.

Definition priced_cost (prices : gmap string ModelPrice) (meta : UsageMeta) (u : option Usage) : F64.t :=
  let cost := cost_of prices meta.(model) u in
  if F64.eqb cost F64.zero && bool_decide (is_Some u)
  then fallback_cost prices meta.(model) u meta.(pricing_models) cost
  else cost.

(** [record]: nothing for an administrator's test call; otherwise the transaction and, once it is
    committed, the counter and the alert check. *)
Definition record (db : Db) (env : DbEnv) (prices : gmap string ModelPrice) (st : PlanState)
    (meta : UsageMeta) (u : option Usage) (status latency_ms : Z)
    : Db * PlanState * option Notify.Alert :=
  if meta.(test_call) then (db, st, None)
  else
    match record_usage_tx db env meta u status latency_ms (priced_cost prices meta u) with
    | None => (db, st, None)
    | Some db' =>
        match meta.(user_id), meta.(plan) with
        | Some uid, Some bill =>
            let tokens := default 0 (total <$> u) in
            let st := set_usage (UsageCache.incr_plan uid bill.(bill_plan_id) bill.(bill_period_key)
                                   tokens st.(usage)) st in
            let '(st, alert) :=
              after_usage_record_with_key st uid bill.(bill_plan_id) bill.(bill_period_key) in
            (db', st, alert)
        | _, _ => (db', st, None)
        end
    end.

End record_usage.

(** ** Daily aggregation

Rows become visible to the aggregator when their transaction commits; the sequence hands out ids
when the insert runs. The aggregator runs one statement, hence on one snapshot, and the row lock on
the watermark makes concurrent aggregators take turns. *)

Module Aggregation.

Record Daily : Type := {
  call_count : Z;
  sum_input : Z;
  sum_output : Z;
  sum_cost : Z;
}.

Definition Key : Type := Z * string * Z. (* user, model, day *)

Record State : Type := {
  committed : list LogRow;
  in_flight : list LogRow;
  next_id : Z;
  usage_daily : gmap Key Daily;
  watermark : Z;
}.

Definition key_of (r : LogRow) : option Key :=
  (fun u => (u, r.(log_model), date_naive r.(log_created_at))) <$> r.(log_user_id).

Definition daily_add (d : option Daily) (r : LogRow) : Daily :=
  let d := default {| call_count := 0; sum_input := 0; sum_output := 0; sum_cost := 0 |} d in
  {| call_count := d.(call_count) + 1;
     sum_input := d.(sum_input) + default 0 r.(log_input);
     sum_output := d.(sum_output) + default 0 r.(log_output);
     sum_cost := d.(sum_cost) + r.(log_cost) |}.

Definition add_row (m : gmap Key Daily) (r : LogRow) : gmap Key Daily :=
  match key_of r with
  | Some k => <[k := daily_add (m !! k) r]> m
  | None => m
  end.

(** [COALESCE(MAX(id), $1)] *)
Definition max_id (w : Z) (rows : list LogRow) : Z :=
  match rows with
  | [] => w
  | r :: rs => foldl (fun m x => Z.max m x.(log_id)) r.(log_id) rs
  end.

Definition selected (w : Z) (rows : list LogRow) : list LogRow :=
  List.filter (fun r => (w <? r.(log_id)) && (r.(log_id) <=? max_id w rows)) rows.

Definition aggregate_daily (s : State) : State :=
  {| committed := s.(committed); in_flight := s.(in_flight); next_id := s.(next_id);
     usage_daily := foldl add_row s.(usage_daily) (selected s.(watermark) s.(committed));
     watermark := max_id s.(watermark) s.(committed) |}.

Definition with_id (i : Z) (r : LogRow) : LogRow :=
  {| log_id := i; log_request_id := r.(log_request_id); log_user_id := r.(log_user_id);
     log_api_key_id := r.(log_api_key_id); log_model := r.(log_model);
     log_provider_id := r.(log_provider_id); log_endpoint := r.(log_endpoint);
     log_streamed := r.(log_streamed); log_input := r.(log_input); log_output := r.(log_output);
     log_cache_read := r.(log_cache_read); log_cache_write := r.(log_cache_write);
     log_latency_ms := r.(log_latency_ms); log_status := r.(log_status); log_cost := r.(log_cost);
     log_client_ip := r.(log_client_ip); log_session_id := r.(log_session_id);
     log_first_token_ms := r.(log_first_token_ms); log_created_at := r.(log_created_at) |}.

Definition insert_row (r : LogRow) (s : State) : State :=
  {| committed := s.(committed); in_flight := s.(in_flight) ++ [with_id s.(next_id) r];
     next_id := s.(next_id) + 1; usage_daily := s.(usage_daily); watermark := s.(watermark) |}.

Definition finish (commit : bool) (i : Z) (s : State) : State :=
  {| committed := s.(committed) ++
       (if commit then List.filter (fun r => r.(log_id) =? i) s.(in_flight) else []);
     in_flight := List.filter (fun r => negb (r.(log_id) =? i)) s.(in_flight);
     next_id := s.(next_id); usage_daily := s.(usage_daily); watermark := s.(watermark) |}.

Definition init : State :=
  {| committed := []; in_flight := []; next_id := 1; usage_daily := ∅; watermark := 0 |}.

Inductive step : State -> State -> Prop :=
| step_insert r s : step s (insert_row r s)
| step_finish c i s : step s (finish c i s)
| step_aggregate s : step s (aggregate_daily s).

Definition reachable (s : State) : Prop := rtc step init s.

End Aggregation.

(** ** Properties of the aggregation *)

Module AggregationProofs.
Import Aggregation.

Lemma max_id_spec w rows :
  (forall r, r ∈ rows -> log_id r <= max_id w rows) /\
  (rows = [] /\ max_id w rows = w \/ exists r, r ∈ rows /\ log_id r = max_id w rows).
Proof.
  destruct rows as [|r rs]; cbn; [set_solver|].
  assert (forall rs m, let x := foldl (fun m x => Z.max m (log_id x)) m rs in
    m <= x /\ (forall r, r ∈ rs -> log_id r <= x) /\ (x = m \/ exists r, r ∈ rs /\ log_id r = x)) as H.
  { clear. induction rs as [|a rs IH]; intros m; cbn; [set_solver|].
    destruct (IH (Z.max m (log_id a))) as (H1 & H2 & H3). split; [lia|]. split.
    - intros r [->|Hr]%elem_of_cons; [lia|auto].
    - destruct H3 as [H3|(r & Hr & H3)]; [|right; exists r; set_solver].
      rewrite H3. destruct (Z.max_spec m (log_id a)) as [[_ ->]|[_ ->]]; [right; exists a; set_solver|by left]. }
  destruct (H rs (log_id r)) as (H1 & H2 & H3). split.
  - intros x [->|Hx]%elem_of_cons; auto.
  - right. destruct H3 as [H3|(x & Hx & H3)]; [exists r|exists x]; set_solver.
Qed.

(** [counted] are the rows that have been aggregated. *)
Record Inv (s : State) (counted : list LogRow) : Prop := {
  inv_nodup : NoDup (log_id <$> (s.(committed) ++ s.(in_flight)));
  inv_ids : forall r, r ∈ s.(committed) ++ s.(in_flight) -> 0 < log_id r < s.(next_id);
  inv_next : 0 < s.(next_id);
  inv_wm : s.(watermark) = 0 \/ exists r, r ∈ s.(committed) /\ log_id r = s.(watermark);
  inv_daily : s.(usage_daily) = foldl add_row ∅ counted;
  inv_counted : NoDup (log_id <$> counted);
  inv_sub : forall r, r ∈ counted -> r ∈ s.(committed) /\ log_id r <= s.(watermark);
}.

Lemma filter_fmap_nodup (p : LogRow -> bool) l :
  NoDup (log_id <$> l) -> NoDup (log_id <$> List.filter p l).
Proof.
  induction l as [|a l IH]; cbn; [done|]. intros [Ha Hl]%NoDup_cons.
  destruct (p a); cbn; [|auto]. apply NoDup_cons. split; [|auto].
  intros Hin. apply Ha. apply list_elem_of_fmap in Hin as (x & -> & Hx).
  apply list_elem_of_In, List.filter_In in Hx as [Hx _]. apply list_elem_of_fmap_2, list_elem_of_In, Hx.
Qed.

Lemma selected_elem w rows r :
  r ∈ selected w rows <-> r ∈ rows /\ w < log_id r.
Proof.
  unfold selected. rewrite list_elem_of_In, List.filter_In, <-list_elem_of_In, andb_true_iff, Z.ltb_lt, Z.leb_le.
  split; [naive_solver|]. intros [Hr Hw]. split; [done|]. split; [done|]. by apply max_id_spec.
Qed.

Lemma inv_insert r s counted : Inv s counted -> Inv (insert_row r s) counted.
Proof.
  intros [Hnd Hids Hn Hwm Hd Hc Hs]. split; cbn; try done; [| |lia].
  - rewrite app_assoc, fmap_app. apply NoDup_app. split; [done|]. split; [|apply NoDup_singleton].
    intros x Hx Hx'. apply list_elem_of_fmap in Hx as (y & -> & Hy). cbn in Hx'.
    apply list_elem_of_singleton in Hx'. apply Hids in Hy. lia.
  - intros x Hx. rewrite app_assoc in Hx.
    apply elem_of_app in Hx as [Hx| ->%list_elem_of_singleton]; [apply Hids in Hx|]; cbn; lia.
Qed.

Lemma finish_perm c i s r :
  r ∈ (finish c i s).(committed) ++ (finish c i s).(in_flight) -> r ∈ s.(committed) ++ s.(in_flight).
Proof.
  cbn. rewrite !elem_of_app. destruct c; rewrite ?list_elem_of_In, ?List.filter_In; cbn; tauto.
Qed.

Lemma inv_finish c i s counted : Inv s counted -> Inv (finish c i s) counted.
Proof.
  intros [Hnd Hids Hn Hwm Hd Hc Hs]. split; try done.
  - cbn. rewrite fmap_app in Hnd. apply NoDup_app in Hnd as (H1 & H2 & H3).
    assert (forall b (p : LogRow -> bool), NoDup (log_id <$> s.(committed)) ->
      NoDup (log_id <$> (if b : bool then List.filter p s.(in_flight) else []))) as Hb.
    { intros [] p _; [by apply filter_fmap_nodup|constructor]. }
    rewrite !fmap_app. apply NoDup_app. split; [apply NoDup_app; split; [done|]; split|split].
    + intros x Hx Hx'. destruct c; [|by apply elem_of_nil in Hx'].
      apply (H2 x Hx). apply list_elem_of_fmap in Hx' as (y & -> & Hy).
      apply list_elem_of_In, List.filter_In in Hy as [Hy _]. by apply list_elem_of_fmap_2, list_elem_of_In.
    + by apply Hb.
    + intros x Hx Hx'. apply list_elem_of_fmap in Hx' as (y & -> & Hy).
      apply list_elem_of_In, List.filter_In in Hy as [Hy Hyi%negb_true_iff%Z.eqb_neq].
      apply elem_of_app in Hx as [Hx|Hx].
      * apply (H2 _ Hx). by apply list_elem_of_fmap_2, list_elem_of_In.
      * destruct c; [|by apply elem_of_nil in Hx]. apply list_elem_of_fmap in Hx as (z & Hz & Hzin).
        apply list_elem_of_In, List.filter_In in Hzin as [_ Hzi%Z.eqb_eq]. lia.
    + by apply filter_fmap_nodup.
  - intros r Hr%finish_perm. by apply Hids.
  - cbn. destruct Hwm as [|(r & Hr & Hw)]; [by left|right]. exists r. set_solver.
  - intros r Hr. cbn. destruct (Hs r Hr). set_solver.
Qed.

Lemma inv_aggregate s counted :
  Inv s counted -> Inv (aggregate_daily s) (counted ++ selected s.(watermark) s.(committed)).
Proof.
  intros [Hnd Hids Hn Hwm Hd Hc Hs]. destruct (max_id_spec s.(watermark) s.(committed)) as [Hmax Hex].
  assert (s.(watermark) <= max_id s.(watermark) s.(committed)) as Hle.
  { destruct Hwm as [Hw|(r' & Hr' & Hw)]; [|rewrite <-Hw at 1; auto].
    destruct Hex as [[_ ->]|(r & Hr & <-)]; [done|]. specialize (Hids r). set_solver by lia. }
  split; cbn; try done.
  - destruct Hex as [[He ->]|(r & Hr & Hm)]; [|right; by exists r].
    destruct Hwm as [|(r & Hr & _)]; [by left|]. rewrite He in Hr. by apply elem_of_nil in Hr.
  - by rewrite foldl_app, <-Hd.
  - rewrite fmap_app. apply NoDup_app. split; [done|]. split.
    + intros x Hx Hx'. apply list_elem_of_fmap in Hx as (a & -> & Ha), Hx' as (b & Hab & Hb).
      apply selected_elem in Hb as [_ Hb]. apply Hs in Ha as [_ Ha]. lia.
    + apply filter_fmap_nodup. rewrite fmap_app in Hnd. by apply NoDup_app in Hnd as [? _].
  - intros r [Hr|Hr]%elem_of_app.
    + apply Hs in Hr as [??]. split; [done|lia].
    + apply selected_elem in Hr as [Hr _]. split; [done|]. by apply Hmax.
Qed.

Lemma reachable_inv s : reachable s -> exists counted, Inv s counted.
Proof.
  unfold reachable. revert s.
  apply (rtc_ind_r (fun s => exists counted, Inv s counted)).
  - exists []. split; cbn; try set_solver; try constructor; lia.
  - intros x y _ Hstep [counted IH]. destruct Hstep.
    + eexists. by apply inv_insert.
    + eexists. by apply inv_finish.
    + eexists. by apply inv_aggregate.
Qed.

(** The daily aggregation never counts a row twice and never invents one. In every state the
    inserts, commits, rollbacks and aggregations can reach, the daily table is the aggregate of a
    set of committed rows with pairwise different ids. *)
Theorem aggregation_counts_at_most_once s :
  reachable s ->
  exists counted, s.(usage_daily) = foldl add_row ∅ counted /\
    NoDup (log_id <$> counted) /\ (forall r, r ∈ counted -> r ∈ s.(committed)).
Proof.
  intros [counted []]%reachable_inv. exists counted. naive_solver.
Qed.






Definition sample_row : LogRow :=
  {| log_id := 0; log_request_id := "r"; log_user_id := Some 7; log_api_key_id := None;
     log_model := "m"; log_provider_id := 1; log_endpoint := "chat"; log_streamed := false;
     log_input := Some 10; log_output := Some 5; log_cache_read := None; log_cache_write := None;
     log_latency_ms := 20; log_status := 200; log_cost := 3; log_client_ip := None;
     log_session_id := None; log_first_token_ms := None; log_created_at := 0 |}.

Definition sample_run : State := aggregate_daily (finish true 1 (insert_row sample_row init)).

Lemma aggregation_counts_at_most_once_witness :
  exists counted, sample_run.(usage_daily) = foldl add_row ∅ counted /\
    NoDup (log_id <$> counted) /\ (forall r, r ∈ counted -> r ∈ sample_run.(committed)).
Proof.
  apply (aggregation_counts_at_most_once sample_run).
  eapply rtc_l; [apply (step_insert sample_row)|]. eapply rtc_l; [apply (step_finish true 1)|].
  eapply rtc_l; [apply step_aggregate|]. apply rtc_refl.
Defined.


(** Two overlapping requests: the second commits, the aggregator runs, the first commits. *)
Definition late_commit : State :=
  finish true 1 (aggregate_daily (finish true 2 (insert_row sample_row (insert_row sample_row init)))).

(** A row that commits after a row with a greater id has been aggregated is never counted:
    there is a reachable state with two committed rows of the same user, model and day in which the
    daily table shows one call, however often the aggregator runs from there. *)
Theorem aggregation_misses_late_commit :
  reachable late_commit /\ length late_commit.(committed) = 2%nat /\
  forall n, call_count <$> (Nat.iter n aggregate_daily late_commit).(usage_daily) !! (7, "m", 0) = Some 1.
Proof.
  split; [|split; [reflexivity|]].
  - do 2 (eapply rtc_l; [apply (step_insert sample_row)|]).
    eapply rtc_l; [apply (step_finish true 2)|]. eapply rtc_l; [apply step_aggregate|].
    eapply rtc_l; [apply (step_finish true 1)|]. apply rtc_refl.
  - intros n. assert (Nat.iter n aggregate_daily late_commit = late_commit) as ->; [|reflexivity].
    induction n as [|n IH]; cbn [Nat.iter nat_rect]; [done|].
    change (aggregate_daily (Nat.iter n aggregate_daily late_commit) = late_commit).
    rewrite IH. reflexivity.
Qed.

End AggregationProofs.

(** ** Properties of the counters *)

Module CacheProofs.
Import UsageCache.

Lemma get_incr_same c u p k n :
  0 <= n -> 0 <= get_plan c u p k <= i64_max -> n <= i64_max ->
  get_plan (incr_plan u p k n c) u p k = sat_add (get_plan c u p k) n.
Proof.
  intros Hn Hg Hn'. unfold get_plan, incr_plan in *. destruct (c !! (u, p)) as [[k' v]|] eqn:E; cbn.
  - case_bool_decide as Hk.
    + rewrite lookup_insert_eq. rewrite bool_decide_true by done. done.
    + rewrite lookup_insert_eq, bool_decide_true by done. ints.
  - rewrite bool_decide_true by done. rewrite lookup_insert_eq, bool_decide_true by done. done.
Qed.

Lemma get_incr_other_key c u p k k' n :
  k <> k' -> get_plan (incr_plan u p k' n c) u p k = 0.
Proof.
  intros Hk. unfold get_plan, incr_plan. destruct (c !! (u, p)) as [[k0 v]|] eqn:E; cbn.
  - case_bool_decide; rewrite lookup_insert_eq, bool_decide_false; congruence.
  - rewrite bool_decide_true by done. rewrite lookup_insert_eq, bool_decide_false; congruence.
Qed.

Lemma get_incr_other c u p k u' p' k' n :
  (u', p') <> (u, p) -> get_plan (incr_plan u' p' k' n c) u p k = get_plan c u p k.
Proof.
  intros Hne. unfold get_plan, incr_plan. destruct (default _ _) as [k0 v].
  case_bool_decide; by rewrite lookup_insert_ne.
Qed.

(** A booked request: user, plan, period key, tokens. *)
Definition Booking : Type := Z * Z * string * Z.
Definition book (c : t) (b : Booking) : t :=
  let '(u, p, k, n) := b in incr_plan u p k n c.

Definition for_plan (u p : Z) (b : Booking) : bool := (b.1.1.1 =? u) && (b.1.1.2 =? p).

Definition booked (u p : Z) (bs : list Booking) : Z :=
  foldr (fun (b : Booking) n => (if for_plan u p b then b.2 else 0) + n) 0 bs.

Lemma booked_cons u p b bs : booked u p (b :: bs) = (if for_plan u p b then b.2 else 0) + booked u p bs.
Proof. done. Qed.

Lemma for_plan_spec u p u' p' k n :
  for_plan u p (u', p', k, n) = true <-> (u', p') = (u, p).
Proof. unfold for_plan. cbn. rewrite andb_true_iff, !Z.eqb_eq. naive_solver. Qed.

Lemma booked_nonneg u p bs : Forall (fun b : Booking => 0 <= b.2 <= i64_max) bs -> 0 <= booked u p bs.
Proof. unfold booked. induction 1 as [|b bs Hb _ IH]; cbn in *; [lia|]. case_match; lia. Qed.

Lemma book_current c u p k bs :
  Forall (fun b : Booking => 0 <= b.2 <= i64_max) bs ->
  Forall (fun b : Booking => for_plan u p b = true -> b.1.2 = k) bs ->
  0 <= get_plan c u p k <= i64_max ->
  get_plan (foldl book c bs) u p k = sat_i64 (get_plan c u p k + booked u p bs).
Proof.
  intros Hpos. revert c. induction Hpos as [|[[[u' p'] k'] n] bs Hn Hpos IH]; intros c Hk Hg.
  - cbn. rewrite Z.add_0_r, sat_i64_id; [done|ints].
  - apply Forall_cons in Hk as [Hk0 Hk]. pose proof (booked_nonneg u p bs Hpos) as Hb. cbn in Hn.
    rewrite booked_cons. cbn [foldl book snd]. set (c' := incr_plan u' p' k' n c).
    destruct (for_plan u p (u', p', k', n)) eqn:Ef.
    + specialize (Hk0 eq_refl). cbn in Hk0. subst k'. apply for_plan_spec in Ef as [= -> ->].
      assert (get_plan c' u p k = sat_add (get_plan c u p k) n) as Hc' by (apply get_incr_same; lia).
      rewrite (IH c' Hk); rewrite Hc'; ints.
    + assert (get_plan c' u p k = get_plan c u p k) as Hc'.
      { apply get_incr_other. intros E. apply for_plan_spec with (k := k') (n := n) in E. congruence. }
      rewrite (IH c' Hk); rewrite Hc'; [f_equal; lia|done].
Qed.

Lemma book_past c u p k bs :
  Forall (fun b : Booking => for_plan u p b = true -> b.1.2 <> k) bs ->
  get_plan c u p k = 0 -> get_plan (foldl book c bs) u p k = 0.
Proof.
  revert c. induction bs as [|[[[u' p'] k'] n] bs IH]; intros c Hk Hg; cbn; [done|].
  apply Forall_cons in Hk as [Hk0 Hk]. apply IH; [done|].
  destruct (for_plan u p (u', p', k', n)) eqn:Ef.
  - specialize (Hk0 eq_refl). apply for_plan_spec in Ef as [= -> ->]. by apply get_incr_other_key.
  - rewrite get_incr_other; [done|].
    intros E. apply for_plan_spec with (k := k') (n := n) in E. congruence.
Qed.

(** C15: the in-memory counter is the quota: when a user's requests under a plan are booked period by
    period, each with a number of tokens that is not negative (the code takes a negative one as none only
    where it starts a period), the count read for the current period is the sum of the tokens booked in it, saturated at
    [i64::MAX]; earlier periods, other users and other plans contribute nothing. *)
Theorem counter_is_current_sum u p k before current :
  Forall (fun b : Booking => for_plan u p b = true -> b.1.2 <> k) before ->
  Forall (fun b : Booking => for_plan u p b = true -> b.1.2 = k) current ->
  Forall (fun b : Booking => 0 <= b.2 <= i64_max) (before ++ current) ->
  get_plan (foldl book ∅ (before ++ current)) u p k = Z.min i64_max (booked u p current).
Proof.
  intros Hb Hc [_ Hpos]%Forall_app. rewrite foldl_app.
  pose proof (book_past ∅ u p k before Hb eq_refl) as H0.
  rewrite (book_current _ u p k current Hpos Hc) by (rewrite H0; ints).
  rewrite H0. pose proof (booked_nonneg u p current Hpos). ints.
Qed.

Lemma counter_is_current_sum_witness :
  get_plan (foldl book ∅ ([(1, 2, "d:1", 5)] ++ [(1, 2, "d:2", 6); (3, 2, "d:1", 9); (1, 2, "d:2", 7)]))
    1 2 "d:2" = Z.min i64_max (booked 1 2 [(1, 2, "d:2", 6); (3, 2, "d:1", 9); (1, 2, "d:2", 7)]).
Proof.
  apply (counter_is_current_sum 1 2 "d:2" [(1, 2, "d:1", 5)]).
  - repeat constructor; done.
  - repeat constructor; done.
  - repeat constructor; cbn; try discriminate; ints.
Defined.

(** A request that is booked under the key of an earlier period, because it crossed the boundary
    while it ran, erases the counter of the current period: whatever had been counted, the current
    period reads zero afterwards and its quota is open again until the next reload. *)
Theorem late_booking_erases_counter c u p k_old k n :
  k_old <> k -> get_plan (incr_plan u p k_old n c) u p k = 0.
Proof. intros H. by apply get_incr_other_key. Qed.

Lemma late_booking_erases_counter_witness :
  get_plan (incr_plan 1 2 "h:0" 3 {[(1, 2) := ("h:3600", 1000000)]}) 1 2 "h:3600" = 0.
Proof. apply (late_booking_erases_counter {[(1, 2) := ("h:3600", 1000000)]} 1 2 "h:0" "h:3600" 3). discriminate. Defined.

Lemma apply_snapshot_other c s u p k :
  (s.(s_user_id), s.(s_plan_id)) <> (u, p) -> get_plan (apply_snapshot c s) u p k = get_plan c u p k.
Proof.
  intros Hne. unfold get_plan, apply_snapshot. destruct (c !! (s_user_id s, s_plan_id s)) as [[k' v]|];
    [destruct (bool_decide _ && _); [done|]|]; by rewrite lookup_insert_ne.
Qed.

Lemma apply_snapshot_same c s :
  0 <= s.(s_used) -> 0 <= get_plan c s.(s_user_id) s.(s_plan_id) s.(s_period_key) ->
  get_plan (apply_snapshot c s) s.(s_user_id) s.(s_plan_id) s.(s_period_key) =
  Z.max (get_plan c s.(s_user_id) s.(s_plan_id) s.(s_period_key)) s.(s_used).
Proof.
  intros H0. unfold get_plan, apply_snapshot. intros Hg.
  destruct (c !! (s_user_id s, s_plan_id s)) as [[k v]|] eqn:E.
  - case_bool_decide as Hk; subst.
    + destruct (Z.leb_spec s.(s_used) v); cbn.
      * rewrite E, bool_decide_true by done. lia.
      * rewrite lookup_insert_eq, bool_decide_true by done. lia.
    + cbn. rewrite lookup_insert_eq, bool_decide_true by done. lia.
  - rewrite lookup_insert_eq, bool_decide_true by done. lia.
Qed.

(** A reload never loses tokens of the period it reloads. For snapshots with one row per user
    and plan, the count of a snapshot's period becomes the larger of the count in memory and the
    snapshot, so bookings made after the snapshot was taken survive, and users or plans without a
    snapshot keep their count. *)
Theorem reload_keeps_maximum snaps c u p :
  NoDup ((fun s => (s.(s_user_id), s.(s_plan_id))) <$> snaps) ->
  (forall s, s ∈ snaps -> 0 <= s.(s_used)) ->
  (forall s, s ∈ snaps -> s.(s_user_id) = u -> s.(s_plan_id) = p ->
     0 <= get_plan c u p s.(s_period_key) ->
     get_plan (reload_from_db snaps c) u p s.(s_period_key) =
       Z.max (get_plan c u p s.(s_period_key)) s.(s_used)) /\
  ((u, p) ∉ (fun s => (s.(s_user_id), s.(s_plan_id))) <$> snaps ->
     forall k, get_plan (reload_from_db snaps c) u p k = get_plan c u p k).
Proof.
  unfold reload_from_db. revert c. induction snaps as [|x snaps IH]; intros c Hnd Hpos; cbn.
  - split; [intros s Hs; by apply elem_of_nil in Hs|done].
  - cbn in Hnd. apply NoDup_cons in Hnd as [Hx Hnd].
    assert (forall s, s ∈ snaps -> 0 <= s.(s_used)) as Hpos' by set_solver.
    destruct (IH (apply_snapshot c x) Hnd Hpos') as [IH1 IH2]. split.
    + intros s [->|Hs]%elem_of_cons <- <- Hg.
      * rewrite IH2 by done. apply apply_snapshot_same; [set_solver|done].
      * assert ((x.(s_user_id), x.(s_plan_id)) <> (s.(s_user_id), s.(s_plan_id))) as Hne.
        { intros E. apply Hx. rewrite E. by apply (list_elem_of_fmap_2 (fun s => (s_user_id s, s_plan_id s))). }
        rewrite IH1; [|done..|]; rewrite apply_snapshot_other by done; done.
    + intros [Hne Hni]%not_elem_of_cons k. rewrite IH2 by done. apply apply_snapshot_other. congruence.
Qed.

Lemma reload_keeps_maximum_witness :
  get_plan (reload_from_db [{| s_user_id := 1; s_plan_id := 2; s_period_key := "d:2"; s_used := 40 |}]
              {[(1, 2) := ("d:2", 55)]}) 1 2 "d:2" = 55.
Proof.
  destruct (reload_keeps_maximum
              [{| s_user_id := 1; s_plan_id := 2; s_period_key := "d:2"; s_used := 40 |}]
              {[(1, 2) := ("d:2", 55)]} 1 2) as [H _].
  - apply NoDup_singleton.
  - intros s ->%list_elem_of_singleton. cbn. lia.
  - refine (H {| s_user_id := 1; s_plan_id := 2; s_period_key := "d:2"; s_used := 40 |} _ eq_refl eq_refl _).
    + by apply list_elem_of_singleton.
    + vm_compute. discriminate.
Defined.

End CacheProofs.

(** ** Properties of the alerts *)

Module NotifyProofs.
Import Notify.

(** The greatest threshold, in percent, that the use has reached. *)
Definition reached (used limit level : Z) : Prop := level * limit <= 100 * used.

(** Below the width of the products (a limit of about 9.2e16 tokens) the alert level is exact:
    it is the greatest of 80, 95 and 100 percent that the use has reached, and absent exactly when
    not even 80 percent is. *)
Theorem crossed_level_exact used limit :
  0 <= used -> 0 < limit -> 100 * limit <= i64_max ->
  match crossed_level used limit with
  | Some l => l ∈ [80; 95; 100] /\ reached used limit l /\
              forall l', l' ∈ [80; 95; 100] -> reached used limit l' -> l' <= l
  | None => ~ reached used limit 80
  end.
Proof.
  intros Hu Hl Hw. unfold crossed_level, reached. destruct (Z.leb_spec limit 0); [lia|].
  destruct (Z.leb_spec limit used).
  - split; [set_solver|]. split; [lia|]. set_solver by lia.
  - rewrite !wrap_i64_id by ints. destruct (Z.leb_spec (95 * limit) (used * 100)).
    + split; [set_solver|]. split; [lia|]. intros l' Hl'.
      apply elem_of_cons in Hl' as [->|[->|[->|[]%elem_of_nil]%elem_of_cons]%elem_of_cons]; lia.
    + destruct (Z.leb_spec (80 * limit) (used * 100)); [|lia].
      split; [set_solver|]. split; [lia|]. intros l' Hl'.
      apply elem_of_cons in Hl' as [->|[->|[->|[]%elem_of_nil]%elem_of_cons]%elem_of_cons]; lia.
Qed.

Lemma crossed_level_exact_witness :
  match crossed_level 96 100 with
  | Some l => l ∈ [80; 95; 100] /\ reached 96 100 l /\
              forall l', l' ∈ [80; 95; 100] -> reached 96 100 l' -> l' <= l
  | None => ~ reached 96 100 80
  end.
Proof. apply (crossed_level_exact 96 100); unfold_ints; lia. Defined.

(** Above that width the product wraps: for a limit of 2e17 tokens the 80 percent alert is
    reported before a single token is used, and the 95 percent alert at three percent. *)
Theorem crossed_level_wraps :
  crossed_level 0 200000000000000000 = Some 80 /\ ~ reached 0 200000000000000000 80 /\
  crossed_level 6000000000000000 200000000000000000 = Some 95 /\
  ~ reached 6000000000000000 200000000000000000 80.
Proof. unfold reached. repeat split; try reflexivity; lia. Qed.

Lemma prune_elem seen u p k a :
  a ∈ prune_stale_periods seen u p k <->
  a ∈ seen /\ (a.1.1.1 <> u \/ a.1.1.2 <> p \/ a.1.2 = k).
Proof. unfold prune_stale_periods. rewrite elem_of_filter. tauto. Qed.

Definition alert_eq : forall a b : Alert, {a = b} + {a <> b} := fun a b => decide (a = b).

(** One check of a (user, plan, period) with its use, or a failed dispatch. *)
Inductive Event : Type :=
| Check (user : Z) (p : PlanRuntime) (used : Z) (key : string)
| Failed (a : Alert).

Definition run_event (acc : gset Alert * list Alert) (e : Event) : gset Alert * list Alert :=
  let '(seen, sent) := acc in
  match e with
  | Check u p used k =>
      let '(seen, a) := check_and_dispatch seen u p used k in
      (seen, sent ++ match a with Some a => [a] | None => [] end)
  | Failed a => (dispatch_failed seen a, sent)
  end.

(** Checks of the (user, plan) pair [up] that all concern the period [k]. *)
Definition same_period (up : Z * Z) (k : string) (e : Event) : Prop :=
  match e with
  | Check u p _ k' => (u, p.(plan_id)) = up -> k' = k
  | Failed a => False
  end.

Lemma check_and_dispatch_cases seen u p used k :
  match crossed_level used p.(token_limit) with
  | None => check_and_dispatch seen u p used k = (seen, None)
  | Some l =>
      let a := (u, p.(plan_id), k, l) in
      (a ∈ seen /\ check_and_dispatch seen u p used k =
         (prune_stale_periods seen u p.(plan_id) k, None)) \/
      (a ∉ seen /\ check_and_dispatch seen u p used k =
         ({[a]} ∪ prune_stale_periods seen u p.(plan_id) k, Some a))
  end.
Proof.
  unfold check_and_dispatch. destruct (crossed_level _ _) as [l|]; [|done]. cbn.
  case_bool_decide as Hin; [left|right]; (split; [|done]); rewrite prune_elem in Hin; cbn in Hin; tauto.
Qed.

(** Whether a check reaches this alert. *)
Definition reaches (a : Alert) (e : Event) : bool :=
  match e with
  | Check u p used k =>
      bool_decide ((u, p.(plan_id), k) = a.1) && bool_decide (crossed_level used p.(token_limit) = Some a.2)
  | Failed _ => false
  end.

(** One check, seen from one alert of the period [k]. *)
Lemma check_effect u p k l e seen sent :
  same_period (u, p) k e ->
  let a := (u, p, k, l) in
  let '(seen', sent') := run_event (seen, sent) e in
  (a ∈ seen' <-> a ∈ seen \/ reaches a e = true) /\
  count_occ alert_eq sent' a =
    (count_occ alert_eq sent a + if reaches a e && negb (bool_decide (a ∈ seen)) then 1 else 0)%nat.
Proof.
  destruct e as [u' p' used' k'|?]; [|done]. cbn [same_period run_event reaches fst snd]. intros Hp.
  pose proof (check_and_dispatch_cases seen u' p' used' k') as Hc.
  assert ((u, p, k, l) ∈ prune_stale_periods seen u' p'.(plan_id) k' <-> (u, p, k, l) ∈ seen) as Hk.
  { rewrite prune_elem. cbn. split; [tauto|]. intros H. split; [done|].
    destruct (decide (u = u')) as [->|]; [|by left]. destruct (decide (p = p'.(plan_id))) as [->|]; [|auto].
    right; right. symmetry. by apply Hp. }
  destruct (crossed_level used' (token_limit p')) as [l'|]; cbn.
  - destruct (decide ((u', plan_id p', k', l') = (u, p, k, l))) as [[= -> <- -> ->]|Hne].
    + rewrite (bool_decide_true ((_, _, _) = _)), (bool_decide_true (Some l = Some l)) by done. cbn.
      destruct Hc as [[Hs ->]|[Hs ->]]; rewrite count_occ_app; cbn.
      * rewrite bool_decide_true by done. cbn. split; [tauto|lia].
      * rewrite bool_decide_false by done. cbn. destruct (alert_eq _ _); [|done]. split; [set_solver|lia].
    + assert (bool_decide ((u', plan_id p', k') = (u, p, k)) && bool_decide (Some l' = Some l) = false) as ->.
      { apply andb_false_iff. rewrite !bool_decide_eq_false. destruct (decide (l' = l)) as [->|]; [left|right]; congruence. }
      cbn. destruct Hc as [[Hs ->]|[Hs ->]]; rewrite count_occ_app; cbn; [split; [naive_solver|lia]|].
      destruct (alert_eq _ _) as [E|]; [by rewrite E in Hne|]. split; [set_solver|lia].
  - rewrite Hc, count_occ_app, andb_false_r. cbn. split; [naive_solver|lia].
Qed.

Lemma run_sent u p k l events seen sent :
  Forall (same_period (u, p) k) events ->
  let a := (u, p, k, l) in
  count_occ alert_eq (foldl run_event (seen, sent) events).2 a =
    (count_occ alert_eq sent a + if negb (bool_decide (a ∈ seen)) && existsb (reaches a) events then 1 else 0)%nat.
Proof.
  cbv zeta. revert seen sent. induction events as [|e events IH]; intros seen sent He; cbn [foldl existsb].
  { rewrite andb_false_r. cbn. lia. }
  apply Forall_cons in He as [He0 He]. pose proof (check_effect u p k l e seen sent He0) as H.
  cbv zeta in H. destruct (run_event (seen, sent) e) as [seen1 sent1]. destruct H as [Hs Hcnt].
  rewrite (IH seen1 sent1 He), Hcnt. destruct (reaches (u, p, k, l) e); cbn [orb andb].
  - rewrite (bool_decide_true ((u, p, k, l) ∈ seen1)) by tauto. cbn. rewrite andb_true_r. lia.
  - rewrite (bool_decide_ext ((u, p, k, l) ∈ seen1) ((u, p, k, l) ∈ seen)) by (rewrite Hs; naive_solver). lia.
Qed.

(** Within one period an alert level of a user's plan is dispatched exactly once if some check
    reaches it and never otherwise, whatever checks of other users, plans and periods are interleaved,
    as long as no dispatch fails; after a failed dispatch the next check that reaches the level sends
    it again. *)
Theorem alerts_dispatched_once u p k events :
  Forall (same_period (u, p) k) events ->
  (forall l, count_occ alert_eq (foldl run_event (∅, []) events).2 (u, p, k, l) =
     if existsb (reaches (u, p, k, l)) events then 1 else 0)%nat /\
  (forall seen plan used l, crossed_level used plan.(token_limit) = Some l ->
     let a := (u, plan.(plan_id), k, l) in
     (check_and_dispatch (dispatch_failed seen a) u plan used k).2 = Some a).
Proof.
  intros He. split.
  - intros l. by rewrite (run_sent u p k l events ∅ [] He).
  - intros seen plan used l Hl. cbv zeta.
    pose proof (check_and_dispatch_cases (dispatch_failed seen (u, plan_id plan, k, l)) u plan used k) as H.
    rewrite Hl in H. destruct H as [[H _]|[_ ->]]; [|done]. unfold dispatch_failed in H. set_solver.
Qed.

Lemma alerts_dispatched_once_witness :
  count_occ alert_eq (foldl run_event (∅, [])
     [Check 1 (sample_plan PERIOD_DAILY 1) 900 "d:1"; Check 1 (sample_plan PERIOD_DAILY 1) 910 "d:1"]).2
     (1, 1, "d:1", 80) = 1%nat.
Proof.
  destruct (alerts_dispatched_once 1 1 "d:1"
    [Check 1 (sample_plan PERIOD_DAILY 1) 900 "d:1"; Check 1 (sample_plan PERIOD_DAILY 1) 910 "d:1"])
    as [H _]; [repeat constructor|]. exact (H 80).
Defined.

End NotifyProofs.

(** ** Properties of the quota check *)

Section quota.
Context `{C : Calendar} `{!CalendarLaws C}.

Lemma retry_after_bounds p now r : retry_after p now = Some r -> 1 <= r <= 86400.
Proof. unfold retry_after. destruct (period_end p now); cbn; [intros [= <-]; lia | done]. Qed.

(** The quota check on every branch. Without an applicable plan the request passes and nothing
    changes. Otherwise only the set of sent alerts may change, and with the tokens of the current
    period counted against the plan's limit: below the limit the request passes under that plan; at
    or above it the request is downgraded to another model when the plan says so, passes when the
    plan only logs, and is refused in every other case with status 429 and, when the plan has a
    period, a [Retry-After] between one second and a day. *)
Theorem check_plan_contract st user local_now now mdl :
  let '(st', alert, r) := check_plan st user local_now now mdl in
  st'.(plans) = st.(plans) /\ st'.(usage) = st.(usage) /\
  match resolve_plan st.(plans) user local_now (Some mdl) with
  | None => st' = st /\ alert = None /\ r = Ok {| decided_plan := None; downgrade_to := None |}
  | Some p =>
      let used := UsageCache.get_plan st.(usage) user p.(plan_id) (period_key p now) in
      match r with
      | Ok d =>
          d.(decided_plan) = Some p /\
          (used < p.(token_limit) /\ d.(downgrade_to) = None \/
           p.(token_limit) <= used /\
             (p.(overage_action) = OVERAGE_LOG /\ d.(downgrade_to) = None \/
              exists target, p.(overage_action) = OVERAGE_DOWNGRADE /\
                p.(downgrade_model) = Some target /\ target <> mdl /\ d.(downgrade_to) = Some target))
      | Err e =>
          p.(token_limit) <= used /\ p.(overage_action) <> OVERAGE_LOG /\
          (p.(overage_action) = OVERAGE_DOWNGRADE ->
             p.(downgrade_model) = None \/ p.(downgrade_model) = Some mdl) /\
          error_status e = 429 /\
          exists m retry, e = PlanQuotaExceeded m retry /\
            (forall s, retry = Some s -> 1 <= s <= 86400) /\
            (retry = None <-> period_end p now = None)
      end
  end.
Proof.
  unfold check_plan. destruct (resolve_plan _ _ _ _) as [p|]; [|done].
  set (used := UsageCache.get_plan _ _ _ _).
  destruct (Notify.check_and_dispatch _ _ _ _ _) as [seen alert]. split; [done|]. split; [done|].
  assert (forall retry, retry = retry_after p now ->
    (forall s, retry = Some s -> 1 <= s <= 86400) /\ (retry = None <-> period_end p now = None)) as Hretry.
  { intros retry ->. split; [intros s; apply retry_after_bounds|].
    unfold retry_after. by destruct (period_end p now). }
  unfold overage. destruct (Z.ltb_spec used p.(token_limit)); cbn; [split; [done|]; by left|].
  destruct (decide (p.(overage_action) = OVERAGE_DOWNGRADE)) as [E|E].
  - rewrite bool_decide_true by done. destruct (downgrade_model p) as [target|] eqn:Ed.
    + case_bool_decide as Ht; cbn; [|split; [done|]; right; split; [done|]; right; by exists target].
      subst. split; [done|]. split; [by rewrite E|]. split; [auto|]. split; [done|]. eexists _, _. split; [done|]. by apply Hretry.
    + split; [done|]. split; [by rewrite E|]. split; [auto|]. split; [done|]. eexists _, _. split; [done|]. by apply Hretry.
  - rewrite bool_decide_false by done.
    case_bool_decide; cbn; [split; [done|]; right; split; [done|]; by left|].
    split; [done|]. split; [done|]. split; [done|]. split; [done|]. eexists _, _. split; [done|]. by apply Hretry.
Qed.

End quota.

(** The advertised wait can end inside the exhausted period: the number of seconds is truncated,
    so that a client that waits exactly that long comes back before the window has turned and is
    refused again. *)
Theorem retry_after_can_be_early :
  let p := sample_plan PERIOD_HOURLY 5 in
  let now := 1700020000500000000 in
  exists r e, @retry_after Gregorian.calendar p now = Some r /\
    @period_end Gregorian.calendar p now = Some e /\ now + r * NANOS < e /\
    @period_key Gregorian.calendar p (now + r * NANOS) = @period_key Gregorian.calendar p now.
Proof. eexists _, _. repeat split; vm_compute; reflexivity. Qed.

(** ** Properties of the accounting *)

(** Folding the Anthropic counts makes them billable. For non-negative reports without
    saturation the folded input is the fresh input plus both cache buckets, so the price split
    recovers the fresh input exactly and the total counts every token once. *)
Theorem anthropic_fold_recovers_fresh u :
  0 <= input u -> 0 <= default 0 u.(cache_read_tokens) -> 0 <= default 0 u.(cache_write_tokens) ->
  input u + default 0 u.(cache_read_tokens) + default 0 u.(cache_write_tokens) <= i64_max ->
  let u' := fold_anthropic_input u in
  input u' = input u + default 0 u.(cache_read_tokens) + default 0 u.(cache_write_tokens) /\
  output u' = output u /\
  input_buckets (input u') u'.(cache_read_tokens) u'.(cache_write_tokens) =
    (input u, default 0 u.(cache_read_tokens), default 0 u.(cache_write_tokens)).
Proof.
  intros Hi Hr Hw Hs. unfold fold_anthropic_input.
  set (r := default 0 (cache_read_tokens u)) in *. set (w := default 0 (cache_write_tokens u)) in *.
  assert (sat_add r w = r + w) as -> by ints.
  assert (forall t, t = input u + r + w ->
    input_buckets t (cache_read_tokens u) (cache_write_tokens u) = (input u, r, w)) as Hb.
  { intros t ->. destruct (input_buckets_partition (input u + r + w) (cache_read_tokens u)
      (cache_write_tokens u)) as (f & r' & w' & E & _ & _ & _ & Hsum & Hr'); [ints|done..|].
    rewrite E. unfold input_buckets in E. injection E as _ _ Ew. fold r in Hr', Ew. fold w in Ew.
    rewrite Z.min_l in Hr' by lia. rewrite (Z.min_l r) in Ew by lia. unfold_ints.
    assert (w' = w) by lia. f_equal; [f_equal|]; lia. }
  destruct (Z.ltb_spec 0 (r + w)).
  - assert (input {| prompt_tokens := None; completion_tokens := completion_tokens u;
        input_tokens := Some (sat_add (default 0 (or_else (prompt_tokens u) (input_tokens u))) (r + w));
        output_tokens := output_tokens u; cache_read_tokens := cache_read_tokens u;
        cache_write_tokens := cache_write_tokens u |} = input u + r + w) as Hin.
    { change (sat_add (input u) (r + w) = input u + r + w). ints. }
    cbv zeta. rewrite Hin. split; [done|]. split; [done|]. by apply Hb.
  - cbv zeta. split; [lia|]. split; [done|]. apply Hb. lia.
Qed.

Definition sample_usage : Usage :=
  {| prompt_tokens := None; completion_tokens := None; input_tokens := Some 2000;
     output_tokens := Some 500; cache_read_tokens := Some 100000; cache_write_tokens := Some 3000 |}.

Lemma anthropic_fold_recovers_fresh_witness :
  input (fold_anthropic_input sample_usage) = 105000.
Proof.
  refine (proj1 (anthropic_fold_recovers_fresh sample_usage _ _ _ _)); vm_compute; discriminate.
Defined.

Section accounting.
Variable to_numeric : F64.t -> Z.
Implicit Types (db : Db) (meta : UsageMeta) (u : option Usage).

Definition counter db (k : Z * Z * Z) : Z := default 0 (db.(plan_usage_counters) !! k).

Lemma upsert_counter_spec m k n m' :
  upsert_counter m k n = Some m' ->
  default 0 (m' !! k) = default 0 (m !! k) + n /\ forall k', k' <> k -> m' !! k' = m !! k'.
Proof.
  unfold upsert_counter, bigint_add. destruct (m !! k) as [t|] eqn:E; [case_match|]; intros [= <-].
  all: rewrite lookup_insert_eq; cbn; (split; [lia|]); intros; by rewrite lookup_insert_ne.
Qed.

Lemma record_tx_spec db env meta u status latency cost db' :
  record_usage_tx to_numeric db env meta u status latency cost = Some db' ->
  db'.(usage_logs) = db.(usage_logs) ++ [log_row to_numeric env meta u status latency cost] /\
  (forall r, r ∈ db.(usage_logs) -> r.(log_request_id) <> meta.(request_id)) /\
  match meta.(user_id), meta.(plan) with
  | Some uid, Some bill =>
      let k := (uid, bill.(bill_plan_id), bill.(bill_period_start)) in
      counter db' k = counter db k + default 0 (total <$> u) /\
      forall k', k' <> k -> counter db' k' = counter db k'
  | _, _ => db'.(plan_usage_counters) = db.(plan_usage_counters)
  end.
Proof.
  unfold record_usage_tx. destruct (env_fails env); [done|].
  destruct (existsb _ _) eqn:Ex; [done|]. intros H.
  apply bind_Some in H as (monthly & _ & H). apply bind_Some in H as (counters & Hc & [= <-]).
  split; [done|]. split.
  - intros r Hr Heq. apply not_true_iff_false in Ex. apply Ex, existsb_exists.
    exists r. rewrite <-list_elem_of_In, bool_decide_eq_true. done.
  - unfold counter. cbn. destruct (user_id meta) as [uid|], (plan meta) as [bill|]; try by simplify_eq.
    apply upsert_counter_spec in Hc as [H1 H2]. split; [|by intros k' Hk'; rewrite H2].
    rewrite H1. f_equal. destruct u; [done|]. reflexivity.
Qed.

(** A request is accounted for completely or not at all, and at most once. A test call and a
    failed transaction leave database, counters and alerts untouched; otherwise exactly one log row
    is written, under a request id not logged before, and the stored counter of the request's
    window, every other counter apart, and the in-memory counter move by the same total. *)
Theorem record_all_or_nothing db env prices st meta u status latency :
  let '(db', st', alert) := record to_numeric db env prices st meta u status latency in
  (db' = db /\ st' = st /\ alert = None) \/
  (meta.(test_call) = false /\
   (exists row, db'.(usage_logs) = db.(usage_logs) ++ [row] /\ row.(log_request_id) = meta.(request_id)) /\
   (forall r, r ∈ db.(usage_logs) -> r.(log_request_id) <> meta.(request_id)) /\
   match meta.(user_id), meta.(plan) with
   | Some uid, Some bill =>
       let k := (uid, bill.(bill_plan_id), bill.(bill_period_start)) in
       counter db' k = counter db k + default 0 (total <$> u) /\
       (forall k', k' <> k -> counter db' k' = counter db k') /\
       st'.(usage) = UsageCache.incr_plan uid bill.(bill_plan_id) bill.(bill_period_key)
                       (default 0 (total <$> u)) st.(usage)
   | _, _ => db'.(plan_usage_counters) = db.(plan_usage_counters) /\ st' = st
   end).
Proof.
  unfold record. destruct (test_call meta) eqn:Ht; [by left|].
  destruct (record_usage_tx _ _ _ _ _ _ _) as [db'|] eqn:E; [|by left].
  apply record_tx_spec in E as (Hlog & Hfresh & Hc).
  assert (forall (st' : PlanState) uid bill,
    (after_usage_record_with_key st' uid bill.(bill_plan_id) bill.(bill_period_key)).1.(usage) = st'.(usage)) as Hafter.
  { intros st' uid bill. unfold after_usage_record_with_key.
    repeat case_match; simplify_eq; cbn in *; repeat case_match; by simplify_eq. }
  destruct (user_id meta) as [uid|], (plan meta) as [bill|].
  2-4: right; repeat split; eauto.
  specialize (Hafter (set_usage (UsageCache.incr_plan uid (bill_plan_id bill) (bill_period_key bill)
    (default 0 (total <$> u)) (usage st)) st) uid bill).
  destruct (after_usage_record_with_key _ _ _ _) as [st' alert]. cbn in Hafter. right.
  destruct Hc as [Hc1 Hc2]. split; [done|]. split; [by eexists|]. auto.
Qed.

(** A model without a price of its own is billed at the first of its mapped names that costs
    something: the cost is the client model's unless that is zero, and then either some mapped
    name's positive cost with every earlier one not positive, or not positive at all. *)
Theorem pricing_falls_back prices meta u :
  let own := cost_of prices meta.(model) u in
  let names := List.filter (fun f => negb (bool_decide (f = meta.(model)))) meta.(pricing_models) in
  F64.eqb own F64.zero = false /\ priced_cost prices meta u = own \/
  (exists l1 f l2, names = l1 ++ f :: l2 /\
     Forall (fun g => F64.ltb F64.zero (cost_of prices g u) = false) l1 /\
     F64.ltb F64.zero (cost_of prices f u) = true /\ priced_cost prices meta u = cost_of prices f u) \/
  (u = None \/ Forall (fun g => F64.ltb F64.zero (cost_of prices g u) = false) names) /\
    F64.ltb F64.zero (priced_cost prices meta u) = false.
Proof.
  cbv zeta. unfold priced_cost. set (own := cost_of prices _ u).
  assert (F64.eqb own F64.zero = true -> F64.ltb F64.zero own = false) as Hown.
  { unfold F64.eqb, F64.ltb, SFeqb, SFltb. rewrite (F64.compare_swap F64.zero own).
    destruct (SFcompare F64.zero own) as [[]|]; done. }
  destruct (F64.eqb own F64.zero) eqn:E; [|by left].
  destruct u as [u|]; [|right; right; split; [by left|by apply Hown]].
  rewrite bool_decide_true by eauto. cbn [andb]. right. specialize (Hown eq_refl). clear E.
  clearbody own. revert own Hown.
  induction (pricing_models meta) as [|f fs IH]; intros own Hown; cbn; [right; split; [right|]; auto|].
  case_bool_decide as Hf; cbn; [by apply IH|].
  destruct (F64.ltb F64.zero (cost_of prices f (Some u))) eqn:Ef.
  - left. by exists [], f, (List.filter (fun f => negb (bool_decide (f = model meta))) fs).
  - destruct (IH _ Ef) as [(l1 & g & l2 & -> & H1 & H2 & H3)|[[?|H1] H2]]; [| done |].
    + left. exists (f :: l1), g, l2. split; [done|]. split; [by constructor|done].
    + right. split; [right; by constructor|done].
Qed.

End accounting.
