(* ===== verification/Body.v ===== *)
(** * Rewriting the request body

The pure rewrites that [src/service/proxy.rs] applies to a request before it is sent upstream (tool
and role normalisation, deep merge of [extra_body], stripping of private fields, dialect gate,
usage reporting), the collection of system messages of [src/service/system_head.rs], the reasoning
configuration of [src/service/model_family.rs] and the canonical form of
[src/service/canonical.rs]. A function that changes a [&mut Value] returns the new value; where the
source also returns whether it changed anything, so does the model. *)

From S2P Require Import Prelude Float Json Routing.

Local Open Scope Z_scope.

(** ** Tools and roles *)

Definition tool_kept (t : Value) : bool :=
  match get_str "type" t with
  | None => true
  | Some s => bool_decide (s = "function") || bool_decide (s = "custom")
  end.

(** [json.get_mut(k).and_then(as_array_mut)] followed by an update of the array. *)
Definition on_array (k : string) (f : list Value -> list Value * bool) (json : Value) : Value * bool :=
  match json with
  | VObject m =>
      match Map.get k m with
      | Some (VArray l) => let '(l', changed) := f l in (VObject (Map.insert k (VArray l') m), changed)
      | _ => (json, false)
      end
  | _ => (json, false)
  end.

Definition normalize_tools (json : Value) : Value * bool :=
  on_array "tools" (fun tools =>
    let kept := List.filter tool_kept tools in
    (kept, negb (Nat.eqb (length tools) (length kept)))) json.

(** A message or input item whose role is rewritten; [m["role"] = ...] cannot panic here, since the
    role was read from an object. *)
Definition set_role (role : string) (m : Value) : Value :=
  match m with VObject o => VObject (Map.insert "role" (VString role) o) | _ => m end.

Definition normalize_role (m : Value) : Value * bool :=
  match get_str "role" m with
  | Some r =>
      if bool_decide (r = "developer") then (set_role "system" m, true)
      else if bool_decide (r = "latest_reminder") then (set_role "user" m, true)
      else (m, false)
  | None => (m, false)
  end.

Definition normalize_item (item : Value) : Value * bool :=
  if bool_decide (get_str "type" item = Some "message") then normalize_role item else (item, false).

Definition map_changed (f : Value -> Value * bool) (l : list Value) : list Value * bool :=
  ((fun x => (f x).1) <$> l, existsb (fun x => (f x).2) l).

Definition normalize_chat_roles (json : Value) : Value * bool :=
  let '(json, c1) := on_array "messages" (map_changed normalize_role) json in
  let '(json, c2) := on_array "input" (map_changed normalize_item) json in
  (json, c1 || c2).

(** ** Extra body *)

Definition EXTRA_MANAGED_KEYS : list string := ["model"; "stream"; "stream_options"].

Fixpoint merge_deep (dst src : Value) {struct src} : Value :=
  match dst, src with
  | VObject d, VObject s =>
      VObject
        ((fix go (d : list (string * Value)) (s : list (string * Value)) :=
            match s with
            | [] => d
            | (k, sv) :: s' =>
                go (match Map.get k d with
                    | Some (VObject dv) =>
                        if is_object sv then Map.insert k (merge_deep (VObject dv) sv) d
                        else Map.insert k sv d
                    | _ => Map.insert k sv d
                    end) s'
            end) d s)
  | _, _ => dst
  end.

Definition is_managed (k : string) : bool := bool_decide (k ∈ EXTRA_MANAGED_KEYS).

Definition effective_extra (route_extra provider_extra : Value) : option Value :=
  match merge_deep provider_extra route_extra with
  | VObject m =>
      let m := foldl (fun m k => Map.remove k m) m EXTRA_MANAGED_KEYS in
      if bool_decide (m = []) then None else Some (VObject m)
  | _ => None
  end.

Definition apply_extra_binding (dst : list (string * Value)) (kv : string * Value)
    : list (string * Value) :=
  let '(k, sv) := kv in
  if is_managed k then dst
  else match Map.get k dst with
       | Some (VObject dv) =>
           if is_object sv then Map.insert k (merge_deep (VObject dv) sv) dst else Map.insert k sv dst
       | _ => Map.insert k sv dst
       end.

Definition apply_extra (body : Value) (extra : option Value) : Value :=
  match extra, body with
  | Some (VObject src), VObject dst => VObject (foldl apply_extra_binding dst src)
  | _, _ => body
  end.

(** ** Private fields *)

Definition schema_map_key (k : string) : bool :=
  bool_decide (k ∈ ["properties"; "patternProperties"; "definitions"; "$defs"]).

Definition private_key (k : string) : bool := starts_with "_" k.

(** [fuel] is the rest of the depth limit: the source stops below depth 32. *)
Fixpoint strip_underscore (fuel : nat) (in_schema_map : bool) (v : Value) {struct fuel} : Value :=
  match fuel with
  | O => v
  | S fuel =>
      match v with
      | VObject m =>
          let m := if in_schema_map then m else Map.retain (fun k _ => negb (private_key k)) m in
          VObject (Map.map_values (fun k x => strip_underscore fuel (schema_map_key k) x) m)
      | VArray items => VArray (strip_underscore fuel in_schema_map <$> items)
      | _ => v
      end
  end.

Definition MAX_STRIP_DEPTH : nat := 32.
Definition strip_underscore_fields (v : Value) : Value := strip_underscore (S MAX_STRIP_DEPTH) false v.

Fixpoint has_underscore (fuel : nat) (in_schema_map : bool) (v : Value) {struct fuel} : bool :=
  match fuel with
  | O => false
  | S fuel =>
      match v with
      | VObject m =>
          (negb in_schema_map && existsb private_key (Map.keys m)) ||
          existsb (fun kv => has_underscore fuel (schema_map_key kv.1) kv.2) m
      | VArray items => existsb (has_underscore fuel in_schema_map) items
      | _ => false
      end
  end.

Definition has_underscore_fields (v : Value) : bool := has_underscore (S MAX_STRIP_DEPTH) false v.

(** ** Dialect gate and usage reporting *)

Definition RESPONSES_DIALECT_ONLY_FIELDS : list string :=
  ["store"; "safety_identifier"; "prompt_cache_retention"; "prompt_cache_key"].

Definition apply_dialect_field_gate (body : Value) (route : ModelRoute) : Value :=
  match body with
  | VObject m =>
      VObject (foldl (fun m f =>
        if existsb (fun a => bool_decide (a = f)) (passthrough_field_list route) then m
        else Map.remove f m) m RESPONSES_DIALECT_ONLY_FIELDS)
  | _ => body
  end.

(** [None] is the panic of [body["stream_options"] = ...] on a body that is neither an object nor
    [null]. *)
Definition ensure_include_usage (body : Value) (streamed : bool) : option Value :=
  if streamed then
    match get "stream_options" body with
    | Some (VObject opts) =>
        match body with
        | VObject m =>
            Some (VObject (Map.insert "stream_options"
                             (VObject (Map.insert "include_usage" (VBool true) opts)) m))
        | _ => Some body
        end
    | _ => set_index "stream_options" (json_object [("include_usage", VBool true)]) body
    end
  else Some body.

(** ** System messages *)

Definition is_system (m : Value) : bool := bool_decide (get_str "role" m = Some "system").

Fixpoint join (sep : string) (l : list string) : string :=
  match l with
  | [] => ""
  | [s] => s
  | s :: l' => s +:+ sep +:+ join sep l'
  end.

Definition newline : string := String (Ascii.ascii_of_nat 10) "".

Definition system_text (m : Value) : option string :=
  match get "content" m with
  | Some (VString text) => if str_is_empty text then None else Some text
  | Some (VArray parts) =>
      let text := join newline (omap (get_str "text") parts) in
      if str_is_empty text then None else Some text
  | _ => None
  end.

Fixpoint position (p : Value -> bool) (l : list Value) : option nat :=
  match l with
  | [] => None
  | x :: l' => if p x then Some 0%nat else S <$> position p l'
  end.

Definition collect_system_to_head (messages : list Value) (merge : bool) : list Value * bool :=
  match length (List.filter is_system messages) with
  | 0%nat => (messages, false)
  | 1%nat =>
      match position is_system messages with
      | None => (messages, false)
      | Some 0%nat => (messages, false)
      | Some i =>
          match messages !! i with
          | Some m => (m :: take i messages ++ drop (S i) messages, true)
          | None => (messages, false)
          end
      end
  | _ =>
      let rest := List.filter (fun m => negb (is_system m)) messages in
      if merge then
        let parts := omap system_text (List.filter is_system messages) in
        ((if bool_decide (parts = []) then rest
          else json_object [("role", VString "system"); ("content", VString (join newline parts))]
               :: rest), true)
      else (List.filter is_system messages ++ rest, true)
  end.

Definition apply_system_head (body : Value) (enabled merge : bool) : Value * bool :=
  if enabled then on_array "messages" (fun l => collect_system_to_head l merge) body
  else (body, false).

(** ** Reasoning configuration *)

Definition effort_is_off (effort : string) : bool :=
  bool_decide (to_ascii_lowercase (trim effort) ∈ ["none"; "off"; "disabled"]).

Definition zen_effort_rank (effort : string) : option Z :=
  let e := to_ascii_lowercase (trim effort) in
  if bool_decide (e = "minimal") then Some 0
  else if bool_decide (e = "low") then Some 1
  else if bool_decide (e = "medium") then Some 2
  else if bool_decide (e = "high") then Some 3
  else if bool_decide (e = "xhigh") then Some 4
  else if bool_decide (e = "max") then Some 5
  else if bool_decide (e = "ultra") then Some 6
  else None.

(** [min_by_key] returns the first minimum, [max_by_key] the last maximum. *)
Definition min_rank (l : list (Z * string)) : option (Z * string) :=
  match l with
  | [] => None
  | x :: l' => Some (foldl (fun b y => if y.1 <? b.1 then y else b) x l')
  end.
Definition max_rank (l : list (Z * string)) : option (Z * string) :=
  match l with
  | [] => None
  | x :: l' => Some (foldl (fun b y => if b.1 <=? y.1 then y else b) x l')
  end.

Definition ranked (levels : list string) : list (Z * string) :=
  omap (fun l => (fun r => (r, l)) <$> zen_effort_rank l) levels.

Definition zen_clamp (requested : Z) (levels : list string) : option string :=
  match min_rank (List.filter (fun x => requested <=? x.1) (ranked levels)) with
  | Some (_, l) => Some l
  | None => snd <$> max_rank (ranked levels)
  end.

Definition clamp_reasoning_effort_for (effort mode : string) (levels : option (list string))
    : option string :=
  let effort := to_ascii_lowercase (trim effort) in
  if effort_is_off effort then None
  else if bool_decide (mode = "deepseek") then
    if bool_decide (effort ∈ ["max"; "xhigh"; "ultra"]) then Some "max"
    else if bool_decide (effort ∈ ["minimal"; "low"; "medium"; "high"]) then Some "high" else None
  else if bool_decide (mode = "low_high") then
    if bool_decide (effort ∈ ["minimal"; "low"]) then Some "low"
    else if bool_decide (effort ∈ ["medium"; "high"; "xhigh"; "max"; "ultra"]) then Some "high"
    else None
  else if bool_decide (mode = "openrouter") then
    if bool_decide (effort ∈ ["max"; "xhigh"; "ultra"]) then Some "xhigh"
    else if bool_decide (effort ∈ ["high"; "medium"; "low"; "minimal"]) then Some effort else None
  else if bool_decide (mode = "zen") then
    levels ← levels; requested ← zen_effort_rank effort; zen_clamp requested levels
  else if bool_decide (effort ∈ ["minimal"; "low"; "medium"; "high"; "xhigh"; "max"; "ultra"])
  then Some effort else None.

(** The zen table, parsed from the environment; the longest prefix wins, the last one on a tie. *)
Definition zen_effort_levels_for (table : list (string * list string)) (model : string)
    : option (list string) :=
  match List.filter (fun e => starts_with e.1 (to_ascii_lowercase model)) table with
  | [] => None
  | x :: l =>
      Some (foldl (fun b y => if (String.length b.1 <=? String.length y.1)%nat then y else b) x l).2
  end.

Definition apply_reasoning_effort_mode_for_model (table : list (string * list string)) (body : Value)
    (mode gating_model : string) : Value :=
  let mode := trim mode in
  match body with
  | VObject obj =>
      match Map.get "reasoning_effort" obj with
      | Some (VString effort) =>
          if effort_is_off effort then
            let obj := Map.remove "reasoning_effort" obj in
            VObject (if bool_decide (mode = "openrouter")
                     then Map.insert "reasoning" (json_object [("effort", VString "none")]) obj
                     else obj)
          else if str_is_empty mode || bool_decide (mode = "passthrough") then body
          else
            let levels :=
              if bool_decide (mode = "zen") then zen_effort_levels_for table gating_model else None in
            match clamp_reasoning_effort_for effort mode levels with
            | None => VObject (Map.remove "reasoning_effort" obj)
            | Some clamped =>
                if bool_decide (mode = "openrouter") then
                  VObject (Map.insert "reasoning" (json_object [("effort", VString clamped)])
                             (Map.remove "reasoning_effort" obj))
                else VObject (Map.insert "reasoning_effort" (VString clamped) obj)
            end
      | _ => body
      end
  | _ => body
  end.

Definition THINKING_FIELDS : list string :=
  ["thinking"; "enable_thinking"; "thinking_budget"; "reasoning_split"].

Definition apply_thinking_form (body : Value) (form : option string) : Value :=
  match body with
  | VObject obj =>
      let client_thinking_enabled :=
        match Map.get "enable_thinking" obj with Some (VBool b) => b | _ => false end in
      let client_budget := Map.get "thinking_budget" obj in
      let effort_intent :=
        match Map.get "reasoning_effort" obj with
        | Some (VString e) => negb (effort_is_off e)
        | _ => false
        end in
      let obj := foldl (fun m k => Map.remove k m) obj THINKING_FIELDS in
      match trim <$> form with
      | None => VObject obj
      | Some form =>
          if str_is_empty form then VObject obj
          else if negb (effort_intent || client_thinking_enabled) then VObject obj
          else if bool_decide (form = "thinking_param") then
            VObject (Map.insert "thinking" (json_object [("type", VString "enabled")]) obj)
          else if bool_decide (form = "reasoning_split") then
            VObject (Map.insert "reasoning_split" (VBool true) obj)
          else if bool_decide (form = "enable_thinking") then
            let obj := Map.insert "enable_thinking" (VBool true) obj in
            VObject (match client_budget with
                     | Some b => Map.insert "thinking_budget" b obj
                     | None => obj
                     end)
          else VObject obj
      end
  | _ => body
  end.

Definition apply_reasoning_config (table : list (string * list string)) (body : Value)
    (route : ModelRoute) (gating_model : string) : Value :=
  apply_thinking_form
    (apply_reasoning_effort_mode_for_model table body
       (default "" route.(reasoning_effort_mode)) gating_model)
    route.(thinking_form).

(** ** Canonical form *)

Fixpoint canonical_value (v : Value) : Value :=
  match v with
  | VObject m =>
      VObject (Map.of_list
        ((fix go (m : list (string * Value)) :=
            match m with [] => [] | (k, x) :: m' => (k, canonical_value x) :: go m' end) m))
  | VArray l => VArray (canonical_value <$> l)
  | other => other
  end.

(** ** Properties of the merge *)

(** One binding of the source, merged into the destination. *)
Definition merge_value (od : option Value) (sv : Value) : Value :=
  match od with
  | Some (VObject dv) => if is_object sv then merge_deep (VObject dv) sv else sv
  | _ => sv
  end.
Definition merge_binding (d : list (string * Value)) (kv : string * Value) : list (string * Value) :=
  Map.insert kv.1 (merge_value (Map.get kv.1 d) kv.2) d.

Lemma merge_deep_object d s :
  merge_deep (VObject d) (VObject s) = VObject (foldl merge_binding d s).
Proof.
  cbn. f_equal. revert d. induction s as [|[k sv] s IH]; intros d; cbn; [done|]. rewrite IH.
  f_equal. unfold merge_binding, merge_value. cbn. destruct (Map.get k d) as [[]|]; try done.
  by destruct (is_object sv).
Qed.

Lemma apply_extra_binding_spec d kv :
  apply_extra_binding d kv = if is_managed kv.1 then d else merge_binding d kv.
Proof.
  destruct kv as [k sv]. unfold apply_extra_binding, merge_binding, merge_value. cbn.
  destruct (is_managed k); [done|]. destruct (Map.get k d) as [[]|]; try done. by destruct (is_object sv).
Qed.

(** A binding of the source over a binding of the destination. *)
Definition overlay (od os : option Value) : option Value :=
  match os with None => od | Some sv => Some (merge_value od sv) end.

Lemma get_fold_binding (p : string -> bool) s d k :
  NoDup (Map.keys s) ->
  Map.get k (foldl (fun d kv => if p kv.1 then d else merge_binding d kv) d s) =
  if p k then Map.get k d else overlay (Map.get k d) (Map.get k s).
Proof.
  revert d. induction s as [|[k0 sv] s IH]; intros d Hnd; cbn; [by destruct (p k)|].
  cbn in Hnd. apply NoDup_cons in Hnd as [Hk0 Hnd]. rewrite IH by done.
  apply Map.get_None_keys in Hk0. destruct (p k) eqn:Hp.
  - destruct (p k0) eqn:Hp0; [done|]. unfold merge_binding. rewrite Map.get_insert_ne; [done|]. cbn. congruence.
  - case_bool_decide as Hk.
    + subst. rewrite Hk0, Hp. unfold merge_binding. cbn. by rewrite Map.get_insert_eq.
    + destruct (p k0); [done|]. unfold merge_binding. by rewrite Map.get_insert_ne.
Qed.

Lemma sorted_nodup {A} (m : list (string * A)) : Map.sorted m -> NoDup (Map.keys m).
Proof.
  unfold Map.sorted. generalize (Map.keys m). intros l. induction 1 as [|k l Hs IH Hall]; constructor; [|done].
  intros Hin. rewrite Forall_forall in Hall. by apply (Map.lt_key_irrefl k), Hall.
Qed.

Lemma fold_false d s :
  foldl merge_binding d s = foldl (fun d kv => if false then d else merge_binding d kv) d s.
Proof. done. Qed.

Lemma get_merge d s k :
  Map.sorted s -> Map.get k (foldl merge_binding d s) = overlay (Map.get k d) (Map.get k s).
Proof. intros Hs. rewrite fold_false. by apply (get_fold_binding (fun _ => false)), sorted_nodup. Qed.

Lemma merge_deep_wf d s : wf d -> wf s -> wf (merge_deep d s).
Proof.
  revert d. induction s as [| | | | |s IH] using value_nested_ind; intros d Hd Hs;
    try (by destruct d).
  destruct d as [| | | | |d]; try done. rewrite merge_deep_object.
  apply wf_object in Hs as [_ Hs]. revert d Hd.
  induction s as [|[k sv] s IHs]; intros d Hd; cbn; [done|].
  apply Forall_cons in IH as [IH0 IH]. apply Forall_cons in Hs as [Hs0 Hs]. cbn in *.
  apply IHs; [done..|]. apply wf_insert; [|done]. unfold merge_value. cbn.
  destruct (Map.get k d) as [[| | | | |dv]|] eqn:E; try done. destruct (is_object sv); [|done].
  apply IH0; [|done]. by eapply wf_get.
Qed.

Lemma merge_wf_sorted d s :
  wf (VObject d) -> wf (VObject s) -> Map.sorted (foldl merge_binding d s).
Proof.
  intros Hd Hs. pose proof (merge_deep_wf _ _ Hd Hs) as H. rewrite merge_deep_object in H.
  by apply wf_object in H as [H _].
Qed.

Lemma merge_self v : wf v -> merge_deep v v = v.
Proof.
  induction v as [| | | | |s IH] using value_nested_ind; try done. intros Hw.
  rewrite merge_deep_object. f_equal. pose proof (proj1 (wf_object _) Hw) as [Hs Hv].
  apply Map.sorted_ext; [by apply merge_wf_sorted|done|]. intros k. rewrite get_merge by done.
  destruct (Map.get k s) as [sv|] eqn:E; [|done]. cbn. f_equal.
  unfold merge_value. destruct sv as [| | | | |x]; try done. cbn [is_object].
  rewrite Forall_forall in IH, Hv. pose proof (Map.get_Some_in _ _ _ E) as Hin.
  apply (IH _ Hin), (Hv _ Hin).
Qed.

Lemma merge_value_cases od sv :
  (exists dv, od = Some (VObject dv) /\ is_object sv = true /\
     merge_value od sv = merge_deep (VObject dv) sv) \/ merge_value od sv = sv.
Proof.
  unfold merge_value. destruct od as [[| | | | |dv]|]; auto. destruct (is_object sv) eqn:E; [left; eauto|auto].
Qed.

(** The source of every merge is a part of a configured [extra_body]. *)
Lemma merge_deep_idem s d : wf d -> wf s -> merge_deep (merge_deep d s) s = merge_deep d s.
Proof.
  revert d. induction s as [| | | | |s IH] using value_nested_ind; intros d Hd Hs; try (by destruct d).
  destruct d as [| | | | |d]; try done. pose proof (merge_deep_wf _ _ Hd Hs) as Hw.
  rewrite merge_deep_object in *. rewrite merge_deep_object. f_equal.
  pose proof (proj1 (wf_object _) Hs) as [Hss Hsv]. pose proof (proj1 (wf_object _) Hw) as [Hws _].
  apply Map.sorted_ext; [by apply merge_wf_sorted|done|].
  intros k. rewrite !get_merge by done. destruct (Map.get k s) as [sv|] eqn:E; [|done]. cbn. f_equal.
  rewrite Forall_forall in IH, Hsv. pose proof (Map.get_Some_in _ _ _ E) as Hin.
  specialize (Hsv _ Hin). cbn in Hsv.
  destruct (merge_value_cases (Map.get k d) sv) as [(dv & Ed & Eo & ->)| ->].
  - destruct sv as [| | | | |sv]; try done. rewrite merge_deep_object. cbn [merge_value is_object].
    rewrite <-merge_deep_object. apply (IH _ Hin); [by apply (wf_get k d)|done].
  - unfold merge_value. destruct sv; try done. by apply merge_self.
Qed.

Lemma get_remove_fold k ks (m : list (string * Value)) :
  Map.get k (foldl (fun m k => Map.remove k m) m ks) = if bool_decide (k ∈ ks) then None else Map.get k m.
Proof.
  revert m. induction ks as [|k0 ks IH]; intros m; cbn; [done|]. rewrite IH, Map.get_remove.
  destruct (decide (k ∈ ks)), (decide (k = k0)).
  all: rewrite ?(bool_decide_true (k ∈ ks)), ?(bool_decide_false (k ∈ ks)) by done.
  all: rewrite ?(bool_decide_true (k = k0)), ?(bool_decide_false (k = k0)) by done.
  all: try (rewrite bool_decide_true by set_solver; done).
  rewrite bool_decide_false by set_solver. done.
Qed.

Lemma sorted_remove_fold ks (m : list (string * Value)) :
  Map.sorted m -> Map.sorted (foldl (fun m k => Map.remove k m) m ks).
Proof. revert m. induction ks as [|k ks IH]; intros m Hm; cbn; [done|]. by apply IH, Map.sorted_remove. Qed.

(** What the configured [extra_body] layers do to a request. For well-formed objects, a field the
    gateway manages ([model], [stream], [stream_options]) is never touched; any other field is the
    client's overlaid by the provider's overlaid by the route's, objects merged recursively and
    everything else replaced; and merging a layer a second time changes nothing. *)
Theorem extra_body_layers body provider route k :
  wf (VObject body) -> wf (VObject provider) -> wf (VObject route) ->
  get k (apply_extra (VObject body) (effective_extra (VObject route) (VObject provider))) =
    (if is_managed k then Map.get k body
     else overlay (Map.get k body) (overlay (Map.get k provider) (Map.get k route))) /\
  merge_deep (merge_deep (VObject provider) (VObject route)) (VObject route) =
    merge_deep (VObject provider) (VObject route).
Proof.
  intros Hb Hp Hr. split; [|by apply merge_deep_idem].
  unfold effective_extra. rewrite merge_deep_object.
  set (m := foldl (fun m k => Map.remove k m) _ _).
  assert (Map.sorted m) as Hm by (apply sorted_remove_fold, merge_wf_sorted; done).
  assert (forall x, Map.get x m = if is_managed x then None
    else overlay (Map.get x provider) (Map.get x route)) as Hget.
  { intros x. unfold m. rewrite get_remove_fold. unfold is_managed. case_bool_decide; [done|].
    apply wf_object in Hr as [Hr _]. by apply get_merge. }
  specialize (Hget k). case_bool_decide as Em; cbn.
  - rewrite Em in Hget. cbn in Hget. destruct (is_managed k); [done|]. by rewrite <-Hget.
  - assert (forall l d, foldl apply_extra_binding d l =
      foldl (fun d kv => if is_managed kv.1 then d else merge_binding d kv) d l) as ->.
    { induction l as [|x l IH]; intros d; cbn; [done|]. by rewrite apply_extra_binding_spec, IH. }
    rewrite get_fold_binding by (by apply sorted_nodup). destruct (is_managed k); [done|]. by f_equal.
Qed.

Lemma extra_body_layers_witness :
  get "temperature" (apply_extra (json_object [("model", VString "m"); ("temperature", of_int 1)])
    (effective_extra (json_object [("model", VString "x"); ("temperature", of_int 0)])
                     (json_object [("temperature", of_int 2)]))) = Some (of_int 0).
Proof.
  destruct (extra_body_layers [("model", VString "m"); ("temperature", of_int 1)]
              [("temperature", of_int 2)] [("model", VString "x"); ("temperature", of_int 0)] "temperature")
    as [H _]; [..|exact H]; apply wf_object; (split; [repeat constructor|]);
    repeat (apply Forall_cons; split; [done|]); apply Forall_nil; done.
Defined.

(** ** Properties of the private-field filter *)

Lemma existsb_false {A} (p : A -> bool) l : existsb p l = false <-> Forall (fun x => p x = false) l.
Proof.
  induction l as [|x l IH]; cbn; [by split; [constructor|]|]. rewrite orb_false_iff, IH, Forall_cons. done.
Qed.

Lemma filter_id {A} (p : A -> bool) l : List.filter p l = l <-> Forall (fun x => p x = true) l.
Proof.
  induction l as [|x l IH]; cbn; [by split; [constructor|]|]. rewrite Forall_cons. destruct (p x) eqn:E.
  - rewrite <-IH. split; [by intros [= H]|]. by intros [_ ->].
  - split; [|by intros []]. intros H. exfalso.
    assert (length (List.filter p l) = S (length l)) by (by rewrite H).
    pose proof (List.filter_length_le p l). lia.
Qed.

Lemma map_id_iff {A} (f : A -> A) (l : list A) : f <$> l = l <-> Forall (fun x => f x = x) l.
Proof.
  induction l as [|x l IH]; cbn; [by split; [constructor|]|]. rewrite Forall_cons, <-IH.
  split; [intros [= H1 H2]|intros [H1 H2]; cbn in *]; [auto|by rewrite H1, H2].
Qed.

Lemma strip_id_iff fuel b v : strip_underscore fuel b v = v <-> has_underscore fuel b v = false.
Proof.
  revert b v. induction fuel as [|fuel IH]; intros b v; cbn; [done|]. destruct v as [| | | |l|m]; try done.
  - rewrite existsb_false. split.
    + intros [= H]. apply map_id_iff in H. eapply Forall_impl; [exact H|]. intros. by apply IH.
    + intros H. f_equal. apply map_id_iff. eapply Forall_impl; [exact H|]. intros. by apply IH.
  - rewrite orb_false_iff, andb_false_iff, !existsb_false. unfold Map.map_values, Map.retain, Map.keys. 
    assert (forall m0 : list (string * Value),
      (fun kv => (kv.1, strip_underscore fuel (schema_map_key kv.1) kv.2)) <$> m0 = m0 <->
      Forall (fun kv => has_underscore fuel (schema_map_key kv.1) kv.2 = false) m0) as Hmap.
    { intros m0. rewrite map_id_iff. apply Forall_proper; [|done]. intros [k x]. cbn. rewrite <-IH. split; [by intros [=]|by intros ->]. }
    destruct b; cbn [negb].
    + rewrite <-Hmap. split; [intros [= H]; auto|]. by intros [_ ->].
    + rewrite Forall_fmap. set (q := fun kv : string * Value => negb (private_key kv.1)).
      assert (List.filter q m = m <-> Forall ((fun x => private_key x = false) ∘ fst) m) as Hf.
      { rewrite filter_id. apply Forall_proper; [|done]. intros [k x]. unfold q. cbn. by rewrite negb_true_iff. }
      rewrite <-Hf, <-Hmap. split.
      * intros [= H]. assert (length (List.filter q m) = length m) as Hl.
        { apply (f_equal length) in H. by rewrite length_fmap in H. }
        assert (List.filter q m = m) as Hq.
        { clear -Hl. induction m as [|x m IH]; cbn in *; [done|]. destruct (q x); cbn in *; [f_equal; auto|].
          pose proof (List.filter_length_le q m). lia. }
        change (List.filter _ m) with (List.filter q m) in H. rewrite Hq in H. auto.
      * intros [[Hf0|Hq] Hm]; [done|]. change (List.filter _ m) with (List.filter q m). by rewrite Hq, Hm.
Qed.

Lemma strip_clean fuel b v : has_underscore fuel b (strip_underscore fuel b v) = false.
Proof.
  revert b v. induction fuel as [|fuel IH]; intros b v; cbn; [done|]. destruct v as [| | | |l|m]; try done.
  - rewrite existsb_false, Forall_fmap. apply Forall_forall. intros x _. apply IH.
  - rewrite orb_false_iff. split.
    + destruct b; cbn; [done|]. rewrite existsb_false, Map.keys_map_values. unfold Map.keys, Map.retain.
      rewrite Forall_fmap. apply Forall_forall. intros [k x] Hin. cbn.
      apply list_elem_of_In, List.filter_In in Hin as [_ Hin%negb_true_iff]. done.
    + rewrite existsb_false. unfold Map.map_values. rewrite Forall_fmap. apply Forall_forall.
      intros [k x] _. apply IH.
Qed.

(** The test that decides whether a body must be rebuilt agrees with the filter: no private
    field is found exactly when stripping would leave the body as it is, and after stripping none is
    found, within the same depth limit and with the same exemption for JSON-schema name maps. *)
Theorem private_field_test_exact v :
  (has_underscore_fields v = false <-> strip_underscore_fields v = v) /\
  has_underscore_fields (strip_underscore_fields v) = false /\
  strip_underscore_fields (strip_underscore_fields v) = strip_underscore_fields v.
Proof.
  unfold has_underscore_fields, strip_underscore_fields.
  split; [by rewrite strip_id_iff|]. split; [apply strip_clean|]. apply strip_id_iff, strip_clean.
Qed.

(** ** Properties of the system head *)

Definition others (l : list Value) : list Value := List.filter (fun m => negb (is_system m)) l.
Definition systems (l : list Value) : list Value := List.filter is_system l.

Lemma position_split p l i :
  position p l = Some i <->
  exists l1 x l2, l = l1 ++ x :: l2 /\ length l1 = i /\ p x = true /\ Forall (fun y => p y = false) l1.
Proof.
  revert i. induction l as [|a l IH]; intros i; cbn.
  - split; [done|]. by intros ([] & x & l2 & [=] & _).
  - destruct (p a) eqn:Ha.
    + split; [intros [= <-]; by exists [], a, l|].
      intros ([|b l1] & x & l2 & [= -> ->] & Hi & Hp & Hall); [by subst|].
      apply Forall_cons in Hall as [Hb _]. congruence.
    + split.
      * intros H. apply fmap_Some in H as (j & Hj & ->). apply IH in Hj as (l1 & x & l2 & -> & <- & Hp & Hall).
        exists (a :: l1), x, l2. auto.
      * intros ([|b l1] & x & l2 & [= -> ->] & <- & Hp & Hall); [congruence|].
        apply Forall_cons in Hall as [_ Hall]. cbn. rewrite (proj2 (IH (length l1))); [done|]. eauto 10.
Qed.

Lemma filter_none {A} (p : A -> bool) l : Forall (fun x => p x = false) l -> List.filter p l = [].
Proof. induction 1 as [|x l Hx _ IH]; cbn; [done|]. by rewrite Hx. Qed.

Lemma filter_none_inv {A} (p : A -> bool) l : length (List.filter p l) = 0%nat -> Forall (fun x => p x = false) l.
Proof. induction l as [|x l IH]; cbn; [constructor|]. destruct (p x) eqn:E; cbn; [done|]. auto. Qed.

Lemma filter_all_negb (p : Value -> bool) l :
  Forall (fun x => p x = false) l -> List.filter (fun m => negb (p m)) l = l.
Proof. intros H. apply filter_id. eapply Forall_impl; [exact H|]. by intros x ->. Qed.

(** Without [merge], collecting is the stable partition of the messages. *)
Lemma collect_partition messages :
  (collect_system_to_head messages false).1 = systems messages ++ others messages.
Proof.
  unfold collect_system_to_head, systems, others.
  destruct (length (List.filter is_system messages)) as [|[|n]] eqn:E; [| |done].
  - apply filter_none_inv in E. rewrite (filter_none _ _ E). cbn. symmetry. by apply filter_all_negb.
  - destruct (position is_system messages) as [i|] eqn:Ep.
    + apply position_split in Ep as (l1 & x & l2 & -> & <- & Hx & Hall).
      rewrite !List.filter_app in *. cbn in *. rewrite Hx in *. cbn in *.
      rewrite (filter_none _ _ Hall) in *. cbn in *.
      assert (Forall (fun x => is_system x = false) l2) as H2 by (apply filter_none_inv; lia).
      rewrite (filter_none _ _ H2), (filter_all_negb _ _ Hall), (filter_all_negb _ _ H2). cbn.
      destruct l1 as [|y l1]; [done|]. cbn [length app].
      assert ((y :: l1 ++ x :: l2) !! S (length l1) = Some x) as ->
        by (by apply (list_lookup_middle (y :: l1))).
      cbn. rewrite take_app_length, drop_app_ge by lia.
      replace (S (length l1) - length l1)%nat with 1%nat by lia. done.
    + exfalso. assert (forall l, position is_system l = None -> List.filter is_system l = []) as H.
      { induction l as [|a l IH]; cbn; [done|]. destruct (is_system a); [done|].
        intros H. apply IH. by destruct (position is_system l). }
      rewrite H in E; done.
Qed.

Lemma filter_twice (p : Value -> bool) l : List.filter p (List.filter p l) = List.filter p l.
Proof. induction l as [|a l IH]; cbn; [done|]. destruct (p a) eqn:E; cbn; [rewrite E; by f_equal|done]. Qed.

Lemma others_systems l : others (systems l) = [].
Proof.
  unfold others, systems. induction l as [|a l IH]; cbn; [done|].
  destruct (is_system a) eqn:E; cbn; [by rewrite E|done].
Qed.

Lemma systems_others l : systems (others l) = [].
Proof.
  unfold others, systems. induction l as [|a l IH]; cbn; [done|].
  destruct (is_system a) eqn:E; cbn; [done|by rewrite E].
Qed.

Lemma partition_parts l :
  others (systems l ++ others l) = others l /\ systems (systems l ++ others l) = systems l.
Proof.
  unfold others at 1, systems at 2. rewrite !List.filter_app.
  fold (others (systems l)) (others (others l)) (systems (systems l)) (systems (others l)).
  rewrite others_systems, systems_others, app_nil_r. split; apply filter_twice.
Qed.

Lemma systems_all l : Forall (fun m => is_system m = true) (systems l).
Proof. apply Forall_forall. intros x Hx. by apply list_elem_of_In, List.filter_In in Hx as [_ ?]. Qed.

(** Collecting system messages puts them first and keeps the conversation. The other messages
    stay, in order; without merging the result is the stable partition of the input, with merging at
    most one system message is left, at the head, holding the joined texts; and when the function
    reports no change the messages are unchanged and no system message follows another message. *)
Theorem system_head_contract messages merge :
  let '(out, changed) := collect_system_to_head messages merge in
  others out = others messages /\
  (exists head, out = head ++ others messages /\ Forall (fun m => is_system m = true) head) /\
  (merge = false -> out = systems messages ++ others messages) /\
  (merge = true -> (length (systems out) <= 1)%nat) /\
  (changed = false -> out = messages).
Proof.
  pose proof partition_parts as Hpart. pose proof systems_all as Hsys.
  pose proof (collect_partition messages) as Hcp. destruct (Hpart messages) as [Ho Hs].
  assert (forall out, out = systems messages ++ others messages -> length (systems messages) <= 1 ->
    others out = others messages /\
    (exists head, out = head ++ others messages /\ Forall (fun m => is_system m = true) head) /\
    (merge = false -> out = systems messages ++ others messages) /\
    (merge = true -> (length (systems out) <= 1)%nat))%nat as Hsmall.
  { intros out -> Hle. split; [done|]. split; [by exists (systems messages)|]. split; [done|].
    intros _. by rewrite Hs. }
  unfold collect_system_to_head in *. fold (systems messages) in *. fold (others messages) in *.
  destruct (length (systems messages)) as [|[|n]] eqn:El.
  - cbn in Hcp. destruct (Hsmall messages Hcp ltac:(lia)) as (H1 & H2 & H3 & H4). auto.
  - destruct (position is_system messages) as [[|i]|]; [| |].
    + destruct (Hsmall messages Hcp ltac:(lia)) as (H1 & H2 & H3 & H4). auto.
    + destruct (messages !! S i); cbn in Hcp.
      * destruct (Hsmall _ Hcp ltac:(lia)) as (H1 & H2 & H3 & H4). do 4 (split; [done|]). done.
      * destruct (Hsmall _ Hcp ltac:(lia)) as (H1 & H2 & H3 & H4). auto.
    + destruct (Hsmall messages Hcp ltac:(lia)) as (H1 & H2 & H3 & H4). auto.
  - destruct merge.
    + pose proof (filter_twice (fun m => negb (is_system m)) messages : others (others messages) = others messages) as Hoo.
      pose proof (systems_others messages) as Hso.
      case_bool_decide as Hp.
      * split; [done|]. split; [by exists []|]. split; [done|]. split; [|done]. intros _.
        rewrite Hso. cbn. lia.
      * set (hd := json_object _). assert (is_system hd = true) as Hhd by reflexivity.
        assert (others (hd :: others messages) = others (others messages)) as H1
          by (unfold others at 1; cbn [List.filter]; by rewrite Hhd).
        assert (systems (hd :: others messages) = hd :: systems (others messages)) as H2
          by (unfold systems at 1; cbn [List.filter]; by rewrite Hhd).
        split; [by rewrite H1|]. split; [exists [hd]; split; [done|by repeat constructor]|].
        split; [done|]. split; [|done]. intros _. rewrite H2, Hso. cbn. lia.
    + split; [done|]. split; [by exists (systems messages)|]. done.
Qed.

(** ** Properties of the normalisation *)

Lemma map_changed_false f l :
  (forall x, (f x).2 = false -> (f x).1 = x) -> (map_changed f l).2 = false -> (map_changed f l).1 = l.
Proof.
  unfold map_changed. cbn. intros Hf. rewrite existsb_false. intros H. apply map_id_iff.
  eapply Forall_impl; [exact H|]. auto.
Qed.

Lemma insert_get_id k (v : Value) m : Map.sorted m -> Map.get k m = Some v -> Map.insert k v m = m.
Proof.
  intros Hs Hg. apply Map.sorted_ext; [by apply Map.sorted_insert|done|]. intros k'.
  rewrite Map.get_insert. case_bool_decide; [by subst|done].
Qed.

Lemma on_array_false k f json :
  wf json -> (forall l, (f l).2 = false -> (f l).1 = l) ->
  (on_array k f json).2 = false -> (on_array k f json).1 = json.
Proof.
  intros Hw Hf. unfold on_array. destruct json as [| | | | |m]; try done.
  destruct (Map.get k m) as [[| | | |l|]|] eqn:E; try done.
  specialize (Hf l). destruct (f l) as [l' c]. cbn in *. intros ->. f_equal. rewrite Hf by done.
  apply insert_get_id; [|done]. by apply wf_object in Hw as [? _].
Qed.

Lemma on_array_get k f json l :
  get k json = Some (VArray l) -> get k (on_array k f json).1 = Some (VArray (f l).1).
Proof.
  unfold on_array. destruct json as [| | | | |m]; cbn; try done. intros ->.
  destruct (f l) as [l' c]. cbn. apply Map.get_insert_eq.
Qed.

Lemma on_array_elems k f json l :
  get k (on_array k f json).1 = Some (VArray l) ->
  exists l0, get k json = Some (VArray l0) /\ l = (f l0).1.
Proof.
  intros H. destruct (get k json) as [v|] eqn:Eg.
  - destruct (is_array v) eqn:Ea.
    + destruct v as [| | | |l0|]; try done. rewrite (on_array_get _ _ _ _ Eg) in H. by simplify_eq; eauto.
    + exfalso. unfold on_array in H. destruct json as [| | | | |o]; try done. cbn in Eg. rewrite Eg in H.
      by destruct v; cbn in H; simplify_eq.
  - exfalso. unfold on_array in H. destruct json as [| | | | |o]; try done. cbn in Eg.
    rewrite Eg in H. cbn in H. congruence.
Qed.

Lemma on_array_get_other k k' f json : k' <> k -> get k' (on_array k f json).1 = get k' json.
Proof.
  intros Hne. unfold on_array. destruct json as [| | | | |m]; cbn; try done.
  destruct (Map.get k m) as [[| | | |l|]|]; try done. destruct (f l). cbn. by apply Map.get_insert_ne.
Qed.

Lemma normalize_role_false m : (normalize_role m).2 = false -> (normalize_role m).1 = m.
Proof. unfold normalize_role. destruct (get_str "role" m); [|done]. by repeat case_bool_decide. Qed.

Lemma normalize_role_clean m :
  get_str "role" (normalize_role m).1 <> Some "developer" /\
  get_str "role" (normalize_role m).1 <> Some "latest_reminder".
Proof.
  unfold normalize_role. destruct (get_str "role" m) as [r|] eqn:E; [|cbn [fst]; by rewrite E].
  destruct m as [| | | | |o]; try done.
  assert (forall r, get_str "role" (set_role r (VObject o)) = Some r) as Hset.
  { intros r'. unfold get_str. cbn. by rewrite Map.get_insert_eq. }
  case_bool_decide; cbn [fst]; [by rewrite Hset|]. case_bool_decide; cbn [fst]; [by rewrite Hset|].
  rewrite E. split; congruence.
Qed.

Lemma normalize_item_false m : (normalize_item m).2 = false -> (normalize_item m).1 = m.
Proof. unfold normalize_item. case_bool_decide; [apply normalize_role_false|done]. Qed.

Lemma on_array_wf k f json :
  wf json -> (forall l, Forall wf l -> Forall wf (f l).1) -> wf (on_array k f json).1.
Proof.
  intros Hw Hf. unfold on_array. destruct json as [| | | | |m]; try done.
  destruct (Map.get k m) as [[| | | |l|]|] eqn:E; try done.
  specialize (Hf l). destruct (f l) as [l' c]. cbn [fst] in *. apply wf_insert; [|done].
  apply wf_array, Hf, wf_array. by eapply wf_get.
Qed.

Lemma normalize_role_wf m : wf m -> wf (normalize_role m).1.
Proof.
  intros Hw. unfold normalize_role. destruct (get_str "role" m); [|done].
  destruct m; repeat case_bool_decide; cbn [fst set_role]; try done; by apply wf_insert.
Qed.

(** After normalisation no chat message carries a role that OpenAI-compatible upstreams do not
    know ([developer], [latest_reminder]), nor any tool of a hosted type; and when the normalisation
    reports no change the body is exactly the client's, so that passing the raw bytes on is sound. *)
Theorem normalisation_contract json :
  wf json ->
  (forall l m, get "messages" (normalize_chat_roles json).1 = Some (VArray l) -> m ∈ l ->
     get_str "role" m <> Some "developer" /\ get_str "role" m <> Some "latest_reminder") /\
  (forall l t, get "tools" (normalize_tools json).1 = Some (VArray l) -> t ∈ l -> tool_kept t = true) /\
  ((normalize_chat_roles json).2 = false -> (normalize_chat_roles json).1 = json) /\
  ((normalize_tools json).2 = false -> (normalize_tools json).1 = json).
Proof.
  intros Hw. split; [|split; [|split]].
  - intros l m Hl Hm. unfold normalize_chat_roles in Hl.
    destruct (on_array "messages" _ json) as [json1 c1] eqn:E1.
    destruct (on_array "input" _ json1) as [json2 c2] eqn:E2. cbn [fst] in Hl.
    assert (json2 = (on_array "input" (map_changed normalize_item) json1).1) as -> by (by rewrite E2).
    rewrite on_array_get_other in Hl by done.
    assert (json1 = (on_array "messages" (map_changed normalize_role) json).1) as -> by (by rewrite E1).
    apply on_array_elems in Hl as (l0 & _ & ->).
    apply list_elem_of_fmap in Hm as (x & -> & _). apply normalize_role_clean.
  - intros l t Hl Ht. apply on_array_elems in Hl as (l0 & _ & ->).
    by apply list_elem_of_In, List.filter_In in Ht as [_ ?].
  - unfold normalize_chat_roles. destruct (on_array "messages" _ json) as [json1 c1] eqn:E1.
    destruct (on_array "input" _ json1) as [json2 c2] eqn:E2. cbn [fst snd].
    intros [-> ->]%orb_false_iff.
    pose proof (on_array_false "messages" (map_changed normalize_role) json Hw) as H1. rewrite E1 in H1.
    cbn in H1. rewrite H1 in * by (done || intros; by apply map_changed_false, H; apply normalize_role_false).
    pose proof (on_array_false "input" (map_changed normalize_item) json Hw) as H2. rewrite E2 in H2.
    apply H2; [|done]. intros l. apply map_changed_false, normalize_item_false.
  - apply on_array_false; [done|]. cbn. intros l Hn%negb_false_iff%Nat.eqb_eq. apply filter_id.
    clear -Hn. induction l as [|a l IH]; cbn in *; [constructor|].
    destruct (tool_kept a) eqn:E; cbn in *; [constructor; auto|].
    pose proof (List.filter_length_le tool_kept l). lia.
Qed.

Definition sample_chat : Value :=
  json_object [("messages", VArray [json_object [("content", VString "hi"); ("role", VString "developer")]]);
               ("model", VString "m")].

Lemma sample_chat_wf : wf sample_chat.
Proof. repeat (split || constructor). Qed.

Lemma normalisation_contract_witness :
  exists m, get "messages" (normalize_chat_roles sample_chat).1 = Some (VArray [m]) /\
    get_str "role" m <> Some "developer".
Proof.
  destruct (normalisation_contract sample_chat sample_chat_wf) as [H _].
  eexists. split; [vm_compute; reflexivity|]. eapply H; [vm_compute; reflexivity|left].
Defined.

(** ** Properties of the reasoning configuration *)

Lemma min_rank_spec l r s :
  min_rank l = Some (r, s) -> (r, s) ∈ l /\ forall x, x ∈ l -> r <= x.1.
Proof.
  destruct l as [|a l]; cbn; [done|]. intros [= H].
  assert (forall l a, foldl (fun b y => if y.1 <? b.1 then y else b) a l ∈ a :: l /\
    forall x, x ∈ a :: l -> (foldl (fun b y => if y.1 <? b.1 then y else b) a l : Z * string).1 <= x.1) as Hf.
  { clear. induction l as [|y l IH]; intros a; cbn; [split; [set_solver|]; intros x ->%list_elem_of_singleton; lia|].
    destruct (IH (if y.1 <? a.1 then y else a)) as [H1 H2]. split.
    - apply elem_of_cons in H1 as [->|H1]; [destruct (y.1 <? a.1)|]; set_solver.
    - assert (forall z, z = a \/ z = y -> (if y.1 <? a.1 then y else a).1 <= z.1) as Hz.
      { destruct (Z.ltb_spec y.1 a.1); intros z [->| ->]; lia. }
      pose proof (H2 (if y.1 <? a.1 then y else a) ltac:(set_solver)).
      intros x Hx. apply elem_of_cons in Hx as [->|[->|Hx]%elem_of_cons];
        [etrans; [done|apply Hz; auto]..|]. apply H2. set_solver. }
  specialize (Hf l a). rewrite H in Hf. done.
Qed.

Lemma max_rank_spec l r s :
  max_rank l = Some (r, s) -> (r, s) ∈ l /\ forall x, x ∈ l -> x.1 <= r.
Proof.
  destruct l as [|a l]; cbn; [done|]. intros [= H].
  assert (forall l a, foldl (fun b y => if b.1 <=? y.1 then y else b) a l ∈ a :: l /\
    forall x, x ∈ a :: l -> x.1 <= (foldl (fun b y => if b.1 <=? y.1 then y else b) a l : Z * string).1) as Hf.
  { clear. induction l as [|y l IH]; intros a; cbn; [split; [set_solver|]; intros x ->%list_elem_of_singleton; lia|].
    destruct (IH (if a.1 <=? y.1 then y else a)) as [H1 H2]. split.
    - apply elem_of_cons in H1 as [->|H1]; [destruct (a.1 <=? y.1)|]; set_solver.
    - assert (forall z, z = a \/ z = y -> z.1 <= (if a.1 <=? y.1 then y else a).1) as Hz.
      { destruct (Z.leb_spec a.1 y.1); intros z [->| ->]; lia. }
      pose proof (H2 (if a.1 <=? y.1 then y else a) ltac:(set_solver)).
      intros x Hx. apply elem_of_cons in Hx as [->|[->|Hx]%elem_of_cons];
        [etrans; [apply Hz; auto|done]..|]. apply H2. set_solver. }
  specialize (Hf l a). rewrite H in Hf. done.
Qed.

Lemma ranked_elem levels r s : (r, s) ∈ ranked levels <-> s ∈ levels /\ zen_effort_rank s = Some r.
Proof.
  unfold ranked. rewrite list_elem_of_omap. split.
  - intros (x & Hx & H). apply fmap_Some in H as (r' & Hr & [= -> ->]). done.
  - intros [Hs Hr]. exists s. by rewrite Hr.
Qed.

(** The zen clamp picks a level the model has: the lowest one that is not below the requested
    rank, or the highest one when the request exceeds them all; it gives up only when no configured
    level is a known one. *)
Theorem zen_clamp_nearest requested levels :
  match zen_clamp requested levels with
  | None => forall s, s ∈ levels -> zen_effort_rank s = None
  | Some s =>
      s ∈ levels /\ exists r, zen_effort_rank s = Some r /\
        (requested <= r /\
           (forall s' r', s' ∈ levels -> zen_effort_rank s' = Some r' -> requested <= r' -> r <= r') \/
         (forall s' r', s' ∈ levels -> zen_effort_rank s' = Some r' -> r' < requested /\ r' <= r))
  end.
Proof.
  unfold zen_clamp. destruct (min_rank _) as [[r s]|] eqn:E.
  - apply min_rank_spec in E as [Hin Hmin].
    apply list_elem_of_In, List.filter_In in Hin as [Hin Hge%Z.leb_le]. apply list_elem_of_In, ranked_elem in Hin as [Hs Hr].
    split; [done|]. exists r. split; [done|]. left. split; [done|]. intros s' r' Hs' Hr' Hge'.
    apply (Hmin (r', s')). apply list_elem_of_In, List.filter_In. rewrite <-list_elem_of_In, ranked_elem, Z.leb_le. done.
  - assert (forall s' r', s' ∈ levels -> zen_effort_rank s' = Some r' -> r' < requested) as Hlt.
    { intros s' r' Hs' Hr'. apply Z.nle_gt. intros Hge.
      assert ((r', s') ∈ List.filter (fun x => requested <=? x.1) (ranked levels)) as Hin.
      { apply list_elem_of_In, List.filter_In. rewrite <-list_elem_of_In, ranked_elem, Z.leb_le. done. }
      destruct (List.filter _ _); [by apply elem_of_nil in Hin|done]. }
    destruct (max_rank (ranked levels)) as [[r s]|] eqn:Em; cbn.
    + apply max_rank_spec in Em as [[Hs Hr]%ranked_elem Hmax]. split; [done|]. exists r. split; [done|]. right.
      intros s' r' Hs' Hr'. split; [by eapply Hlt|]. apply (Hmax (r', s')). by apply ranked_elem.
    + intros s Hs. destruct (zen_effort_rank s) as [r|] eqn:Er; [|done].
      assert ((r, s) ∈ ranked levels) as Hin by (by apply ranked_elem).
      destruct (ranked levels); [by apply elem_of_nil in Hin|done].
Qed.

Lemma get_thinking_form body form k :
  k ∉ THINKING_FIELDS -> get k (apply_thinking_form body form) = get k body.
Proof.
  intros Hk. unfold apply_thinking_form. destruct body as [| | | | |obj]; try done.
  assert (forall x, x ∈ THINKING_FIELDS -> k <> x) as Hne by (intros x Hx ->; done).
  set (m := foldl _ obj THINKING_FIELDS).
  assert (Map.get k m = Map.get k obj) as Hm by (unfold m; rewrite get_remove_fold; by rewrite bool_decide_false).
  destruct (trim <$> form) as [f|]; [|done]. destruct (str_is_empty f); [done|].
  destruct (negb _); [done|]. repeat case_bool_decide; cbn [get]; try done.
  - rewrite Map.get_insert_ne; [done|]. apply Hne. set_solver.
  - rewrite Map.get_insert_ne; [done|]. apply Hne. set_solver.
  - destruct (Map.get "thinking_budget" obj); rewrite ?Map.get_insert_ne; try done; apply Hne; set_solver.
Qed.

(** After the reasoning configuration an explicit "off" never reaches the upstream as a
    [reasoning_effort]: whatever the mode, a body that asks to switch reasoning off loses the field,
    and a route without a thinking form loses every thinking field, whatever the client sent. *)
Theorem reasoning_off_is_removed table obj route gating effort :
  Map.get "reasoning_effort" obj = Some (VString effort) -> effort_is_off effort = true ->
  let out := apply_reasoning_config table (VObject obj) route gating in
  get "reasoning_effort" out = None /\
  (route.(thinking_form) = None -> forall k, k ∈ THINKING_FIELDS -> get k out = None).
Proof.
  intros He Hoff. cbv zeta. unfold apply_reasoning_config. split.
  - rewrite get_thinking_form by (vm_compute; set_solver).
    unfold apply_reasoning_effort_mode_for_model. rewrite He, Hoff. cbn [get].
    case_bool_decide; rewrite ?Map.get_insert_ne, ?Map.get_remove by done; by rewrite bool_decide_true.
  - intros -> k Hk. unfold apply_thinking_form. destruct (apply_reasoning_effort_mode_for_model _ _ _ _) eqn:E;
      try done. cbn [fmap option_fmap option_map get]. rewrite get_remove_fold. by rewrite bool_decide_true.
Qed.

Definition sample_route : ModelRoute :=
  {| model_pattern := "m"; provider_id := 1; fallback_ids := []; upstream_model := None;
     route_extra_body := VNull; strict_system_head := false; system_head_merge := false;
     reasoning_effort_mode := None; thinking_form := None; responses_passthrough_fields := None |}.

Lemma reasoning_off_is_removed_witness :
  get "reasoning_effort"
    (apply_reasoning_config [] (VObject [("reasoning_effort", VString " OFF ")]) sample_route "m") = None.
Proof.
  exact (proj1 (reasoning_off_is_removed [] [("reasoning_effort", VString " OFF ")] sample_route "m" " OFF "
                  eq_refl eq_refl)).
Defined.

(** ** Canonical form *)

Lemma canonical_object m :
  canonical_value (VObject m) =
  VObject (Map.of_list ((fun kv => (kv.1, canonical_value kv.2)) <$> m)).
Proof. cbn. do 2 f_equal. induction m as [|[k x] m IH]; cbn; [done|]. by rewrite IH. Qed.

Lemma insert_last (k : string) (v : Value) m :
  Forall (fun k' => Map.lt_key k' k) (Map.keys m) -> Map.insert k v m = m ++ [(k, v)].
Proof.
  induction m as [|[k0 v0] m IH]; cbn; [done|]. intros [H0 H]%Forall_cons.
  unfold Map.lt_key in H0. rewrite String.compare_antisym, H0. cbn. by rewrite IH.
Qed.

Lemma of_list_sorted (m : list (string * Value)) : Map.sorted m -> Map.of_list m = m.
Proof.
  unfold Map.of_list, Map.sorted. intros H.
  assert (forall acc, StronglySorted Map.lt_key (Map.keys (acc ++ m)) ->
    foldl (fun m kv => Map.insert kv.1 kv.2 m) acc m = acc ++ m) as Hacc; [|by apply (Hacc [])].
  clear H. induction m as [|[k v] m IH]; intros acc H; cbn; [by rewrite app_nil_r|].
  rewrite insert_last.
  - rewrite IH; rewrite <-app_assoc; done.
  - unfold Map.keys in *. rewrite fmap_app in H. cbn in H. clear IH.
    induction acc as [|[k0 v0] acc IH]; cbn in *; [constructor|].
    apply StronglySorted_inv in H as [H Hall]. constructor; [|by apply IH].
    apply Forall_app in Hall as [_ Hall]. by apply Forall_cons in Hall as [? _].
Qed.

(** The canonical form is a sorted value and a fixed point: every object in it has its keys in
    order whatever the order they came in, and on values the gateway has parsed, which are sorted
    already, canonicalising changes nothing, so the same arguments always serialise the same way. *)
Theorem canonical_form v :
  wf (canonical_value v) /\ (wf v -> canonical_value v = v) /\
  canonical_value (canonical_value v) = canonical_value v.
Proof.
  assert (forall v, wf (canonical_value v)) as Hwf.
  { clear. intros v. induction v as [| | | |l IH|m IH] using value_nested_ind; try done.
    - cbn [canonical_value]. apply wf_array. by rewrite Forall_fmap.
    - rewrite canonical_object. apply wf_object. split; [apply Map.sorted_of_list|].
      unfold Map.of_list. assert (Forall (fun kv : string * Value => wf kv.2) []) as H0 by constructor.
      revert H0. generalize (@nil (string * Value)). induction IH as [|[k x] m Hx _ IH]; intros acc Hacc; cbn; [done|].
      apply IH. by apply forall_insert. }
  assert (forall v, wf v -> canonical_value v = v) as Hid.
  { clear. intros v. induction v as [| | | |l IH|m IH] using value_nested_ind; try done.
    - intros Hw%wf_array. cbn [canonical_value]. f_equal. apply map_id_iff.
      rewrite Forall_forall in *. auto.
    - intros [Hs Hw]%wf_object. rewrite canonical_object. f_equal.
      assert ((fun kv => (kv.1, canonical_value kv.2)) <$> m = m) as ->; [|by apply of_list_sorted].
      apply map_id_iff. rewrite Forall_forall in *. intros [k x] Hin. cbn. f_equal.
      by apply (IH (k, x)), (Hw (k, x)). }
  split; [apply Hwf|]. split; [apply Hid|]. apply Hid, Hwf.
Qed.
