(* ===== verification/Streams.v ===== *)
(** * Streaming

The stream adapters of [src/service/proxy.rs]: incremental parsing of server-sent events ([Sse]), the
priming analyser that decides when a stream may be committed to the client ([Prime]), the first-byte
and idle time-outs ([Timeouts]), the keep-alive pings ([Ping]) and the exactly-once accounting of a
streamed response ([Billing]). A byte sequence is a [string]; a poll is a step with the clock as
argument. The JSON parser, the derived decoder of the usage record and the lossy UTF-8 decoding are
parameters. *)

From S2P Require Import Prelude Float Json Metering.

Local Open Scope Z_scope.

Definition LF : Ascii.ascii := Ascii.ascii_of_nat 10.
Definition CR : Ascii.ascii := Ascii.ascii_of_nat 13.
Definition lf2 : string := String LF (String LF "").
Definition crlf2 : string := String CR (String LF (String CR (String LF ""))).

(** [windows(n).position(|w| w == pat)] for a non-empty pattern. *)
Fixpoint find_sub (pat s : string) : option nat :=
  match s with
  | EmptyString => None
  | String _ s' => if starts_with pat s then Some 0%nat else S <$> find_sub pat s'
  end.

Definition str_contains (pat s : string) : bool := bool_decide (is_Some (find_sub pat s)).

Fixpoint str_take (n : nat) (s : string) : string :=
  match n, s with S n, String a s' => String a (str_take n s') | _, _ => "" end.
Fixpoint str_drop (n : nat) (s : string) : string :=
  match n, s with S n, String _ s' => str_drop n s' | _, _ => s end.

Definition find_event_end (buf : string) : option nat :=
  match find_sub lf2 buf with
  | Some i => Some (i + 2)%nat
  | None => (fun i => i + 4)%nat <$> find_sub crlf2 buf
  end.

(** [str::lines]: split at line feeds, a trailing carriage return removed, no empty last line. *)
Definition strip_cr (s : string) : string := default s (strip_suffix_char CR s).
Fixpoint lines_go (acc s : string) : list string :=
  match s with
  | EmptyString => if str_is_empty acc then [] else [string_rev acc]
  | String a s' =>
      if bool_decide (a = LF) then strip_cr (string_rev acc) :: lines_go "" s'
      else lines_go (String a acc) s'
  end.
Definition lines (s : string) : list string := lines_go "" s.

Example lines_ex : lines ("a" +:+ String CR (String LF "") +:+ lf2 +:+ "b") = ["a"; ""; ""; "b"].
Proof. reflexivity. Qed.

Example find_event_end_ex :
  find_event_end ("data: a" +:+ crlf2 +:+ "data: b" +:+ lf2) = Some 20%nat.
Proof. reflexivity. Qed.

(** The complete events of a buffer and the rest; [fuel] bounds the number of events. *)
Fixpoint split_events (fuel : nat) (buf : string) : list string * string :=
  match fuel with
  | O => ([], buf)
  | S fuel =>
      match find_event_end buf with
      | None => ([], buf)
      | Some i =>
          let '(events, rest) := split_events fuel (str_drop i buf) in
          (str_take i buf :: events, rest)
      end
  end.
Definition events_of (buf : string) : list string * string := split_events (String.length buf) buf.

Definition strip_data (line : string) : option string := trim <$> strip_prefix "data:" line.

(** ** Usage capture *)

Module Sse.
Section sse.
Variable from_utf8_lossy : string -> string.
Variable parse_json : string -> option Value.
Variable usage_from_value : Value -> option Usage.

Definition TERMINAL_TYPES : list string :=
  ["response.completed"; "response.incomplete"; "response.failed"; "response.done"; "message_stop"].

Definition parse_usage (body : string) : option Usage :=
  v ← parse_json body; u ← get "usage" v; usage_from_value u.

Definition extract_usage_frame (v : Value) : option (Usage * bool) :=
  let anthropic := match get_str "type" v with Some t => starts_with "message_" t | None => false end in
  u ← (if anthropic then or_else (get "message" v ≫= get "usage") (get "usage" v)
       else or_else (get "usage" v) (get "response" v ≫= get "usage"));
  (fun u => (u, anthropic)) <$> usage_from_value u.

(** Later frames overwrite the fields they carry. *)
Definition merge_fields (d src : Usage) : Usage :=
  {| prompt_tokens := or_else src.(prompt_tokens) d.(prompt_tokens);
     completion_tokens := or_else src.(completion_tokens) d.(completion_tokens);
     input_tokens := or_else src.(input_tokens) d.(input_tokens);
     output_tokens := or_else src.(output_tokens) d.(output_tokens);
     cache_read_tokens := or_else src.(cache_read_tokens) d.(cache_read_tokens);
     cache_write_tokens := or_else src.(cache_write_tokens) d.(cache_write_tokens) |}.

Definition merge_usage (dst : option Usage) (src : Usage) : option Usage :=
  match dst with None => Some src | Some d => Some (merge_fields d src) end.

Definition frame_may_carry_usage_or_terminal (text : string) : bool :=
  str_contains "[DONE]" text || str_contains "usage" text ||
  existsb (fun t => str_contains t text) TERMINAL_TYPES.

(** One [data:] line. *)
Definition feed_line (acc : option Usage * bool) (line : string) : option Usage * bool :=
  let '(usage, done) := acc in
  match strip_data line with
  | None => acc
  | Some data =>
      if bool_decide (data = "[DONE]") then (usage, true)
      else match parse_json data with
           | None => acc
           | Some v =>
               let usage :=
                 match extract_usage_frame v with
                 | Some (frame, anthropic) =>
                     merge_usage usage (if anthropic then fold_anthropic_input frame else frame)
                 | None => usage
                 end in
               (usage, done || match get_str "type" v with
                               | Some ty => bool_decide (ty ∈ TERMINAL_TYPES)
                               | None => false
                               end)
           end
  end.

Definition feed_event (acc : option Usage * bool) (event : string) : option Usage * bool :=
  let text := from_utf8_lossy event in
  if frame_may_carry_usage_or_terminal text then foldl feed_line acc (lines text) else acc.

(** The loop stops after the event that ends the stream; the rest stays in the buffer. *)
Fixpoint feed_loop (fuel : nat) (buf : string) (acc : option Usage * bool)
    : string * (option Usage * bool) :=
  match fuel with
  | O => (buf, acc)
  | S fuel =>
      match find_event_end buf with
      | None => (buf, acc)
      | Some i =>
          let acc := feed_event acc (str_take i buf) in
          if acc.2 then (str_drop i buf, acc) else feed_loop fuel (str_drop i buf) acc
      end
  end.

Definition MAX_SSE_BUFFER : nat := Z.to_nat 1000000.

Definition feed_sse (buf chunk : string) : string * (option Usage * bool) :=
  let buf := buf +:+ chunk in
  let '(buf, acc) := feed_loop (String.length buf) buf (None, false) in
  ((if (MAX_SSE_BUFFER <? String.length buf)%nat then "" else buf), acc).

End sse.
End Sse.

(** ** Priming *)

Module Prime.

Inductive PrimeSignal : Type :=
| Neutral
| Productive
| Terminal
| PError (msg : string).

Definition rank (s : PrimeSignal) : Z :=
  match s with Neutral => 0 | Terminal => 1 | Productive => 2 | PError _ => 3 end.

(** [Ord::max] returns its second argument when the two are equal. *)
Definition smax (a b : PrimeSignal) : PrimeSignal := if rank b <? rank a then a else b.

Definition STREAM_PRIME_MAX_BYTES : nat := Z.to_nat (256 * 1024).

Definition error_payload (prefix : string) (v : Value) : option string :=
  let msg_of e := default "upstream error" (get_str "message" e) in
  match get "error" v with
  | Some (VObject e) =>
      if bool_decide (is_Some (Map.get "message" e)) || bool_decide (is_Some (Map.get "type" e))
      then Some (prefix +:+ msg_of (VObject e))
      else if bool_decide (get_str "type" v = Some "error") then Some (prefix +:+ msg_of (VObject e))
      else None
  | other =>
      if bool_decide (get_str "type" v = Some "error") then
        Some (prefix +:+ default "upstream error" (other ≫= get_str "message"))
      else None
  end.

Definition frame_error_message (v : Value) (event_name : option string) : option string :=
  match error_payload "upstream returned error payload in stream: " v with
  | Some m => Some m
  | None =>
      if bool_decide (event_name = Some "error")
      then Some "upstream stream emitted a named error event" else None
  end.

Definition delta_productive (delta : Value) : bool :=
  match get "content" delta with
  | Some (VString s) => negb (str_is_empty s)
  | Some (VArray a) => negb (bool_decide (a = []))
  | _ => false
  end ||
  match get_str "reasoning_content" delta with Some s => negb (str_is_empty s) | None => false end ||
  match get "tool_calls" delta with Some (VArray a) => negb (bool_decide (a = [])) | _ => false end.

Fixpoint choices_signal (choices : list Value) : option PrimeSignal :=
  match choices with
  | [] => None
  | c :: cs =>
      if match get "finish_reason" c with Some f => negb (is_null f) | None => false end
      then Some Terminal
      else if match get "delta" c with Some d => delta_productive d | None => false end
      then Some Productive
      else choices_signal cs
  end.

Definition typed_signal (ty : string) : option PrimeSignal :=
  if bool_decide (ty = "content_block_delta") then Some Productive
  else if bool_decide (ty = "message_stop") then Some Terminal
  else if starts_with "response." ty then
    if starts_with "response.output" ty || starts_with "response.function_call_arguments" ty ||
       starts_with "response.reasoning" ty || starts_with "response.custom_tool_call_input" ty
    then Some Productive
    else if bool_decide (ty ∈ ["response.completed"; "response.incomplete"; "response.failed";
                               "response.done"]) then Some Terminal
    else Some Neutral
  else None.

Definition prime_signal_of (v : Value) : PrimeSignal :=
  match get_str "type" v ≫= typed_signal with
  | Some s => s
  | None =>
      match match get "choices" v with Some (VArray cs) => choices_signal cs | _ => None end with
      | Some s => s
      | None => if bool_decide (is_Some (get "usage" v)) then Terminal else Neutral
      end
  end.

Section prime.
Variable from_utf8_lossy : string -> string.
Variable parse_json : string -> option Value.

Definition event_name_of (ls : list string) : option string :=
  head (omap (fun l => trim <$> strip_prefix "event:" l) ls).

(** The lines of one event; an error frame ends the event. *)
Fixpoint prime_lines (name : option string) (ls : list string) (signal : PrimeSignal) : PrimeSignal :=
  match ls with
  | [] => signal
  | l :: ls =>
      match strip_data l with
      | None => prime_lines name ls signal
      | Some data =>
          if bool_decide (data = "[DONE]") then prime_lines name ls (smax signal Terminal)
          else match parse_json data with
               | None => prime_lines name ls signal
               | Some v =>
                   match frame_error_message v name with
                   | Some m => PError m
                   | None => prime_lines name ls (smax signal (prime_signal_of v))
                   end
               end
      end
  end.

Definition prime_event (signal : PrimeSignal) (event : string) : PrimeSignal :=
  let ls := lines (from_utf8_lossy event) in
  prime_lines (event_name_of ls) ls signal.

(** [PrimeState::feed]: the new buffer and the signal of the chunk. *)
Definition feed (buf chunk : string) : string * PrimeSignal :=
  let '(events, rest) := events_of (buf +:+ chunk) in
  let signal := foldl prime_event Neutral events in
  (rest, if (STREAM_PRIME_MAX_BYTES <? String.length rest)%nat then smax signal Productive else signal).

(** [first_chunk_error] *)
Fixpoint skip_bytes (p : Ascii.ascii -> bool) (s : string) : string :=
  match s with String a s' => if p a then skip_bytes p s' else s | EmptyString => "" end.
Definition blank (a : Ascii.ascii) : bool :=
  let n := Ascii.nat_of_ascii a in (n =? 32)%nat || (n =? 9)%nat || (n =? 13)%nat || (n =? 10)%nat.
Definition blank_in_line (a : Ascii.ascii) : bool := blank a && negb (bool_decide (a = LF)).
Definition BOM : string :=
  String (Ascii.ascii_of_nat 239) (String (Ascii.ascii_of_nat 187) (String (Ascii.ascii_of_nat 191) "")).
Definition skip_bom_blank (s : string) : string := skip_bytes blank (default s (strip_prefix BOM s)).

Definition first_line (s : string) : string :=
  match find_sub (String LF "") s with Some i => str_take i s | None => s end.

Definition first_chunk_error (bytes : string) : option string :=
  let trimmed := skip_bom_blank bytes in
  if str_is_empty trimmed || starts_with ":" trimmed then None
  else
    let payload := match strip_prefix "data:" trimmed with Some r => first_line r | None => trimmed end in
    let payload := skip_bytes blank_in_line payload in
    if str_is_empty payload then None
    else parse_json payload ≫= error_payload "upstream returned error payload in first chunk: ".

Definition looks_like_sse (bytes : string) : bool :=
  let t := skip_bom_blank bytes in
  starts_with "data:" t || starts_with "event:" t || starts_with "id:" t || starts_with "retry:" t ||
  starts_with ":" t.

(** ** The priming loop

What the upstream stream yields: chunks and transport errors; the list ends where it ends. *)

Inductive Item : Type :=
| Chunk (bytes : string)
| Failure (msg : string).

Inductive Primed : Type :=
| Committed (buffered : list string) (rest : list Item)
| Failed (msg : string)
| Ended (buffered : list string).

Fixpoint prime_loop (items : list Item) (buffered : list string) (size : nat) (buf : string) : Primed :=
  if (STREAM_PRIME_MAX_BYTES <=? size)%nat then Committed buffered items
  else
    match items with
    | [] => Ended buffered
    | Failure e :: _ => Failed ("upstream stream failed before productive output: " +:+ e)
    | Chunk c :: items' =>
        match first_chunk_error c with
        | Some msg => Failed msg
        | None =>
            let '(buf, signal) := feed buf c in
            let buffered := buffered ++ [c] in
            match signal with
            | PError msg => Failed msg
            | Productive | Terminal => Committed buffered items'
            | Neutral => prime_loop items' buffered (size + String.length c) buf
            end
        end
    end.

Definition prime (items : list Item) : Primed := prime_loop items [] 0 "".

End prime.
End Prime.

(** ** Time-outs *)

Module Timeouts.

Record State : Type := {
  first_byte : option Z;
  idle : option Z;
  first : bool;
  wait : option Z; (* the deadline of the armed timer *)
  timed_out : bool;
}.

(** What the inner stream answers when it is polled. *)
Inductive Inner : Type :=
| IData (bytes : string)
| IError (msg : string)
| IEnd
| IPending.

Inductive Poll : Type :=
| PData (bytes : string)
| PErr (msg : string)
| PEnd
| PPending.

Definition with_stream_timeouts (first_byte idle : option Z) : State :=
  {| first_byte := first_byte; idle := idle; first := true; wait := None; timed_out := false |}.

Definition arm_idle (now : Z) (s : State) : State :=
  {| first_byte := s.(first_byte); idle := s.(idle); first := s.(first);
     wait := (fun d => now + d) <$> s.(idle); timed_out := s.(timed_out) |}.

Definition set_wait (w : option Z) (s : State) : State :=
  {| first_byte := s.(first_byte); idle := s.(idle); first := s.(first); wait := w;
     timed_out := s.(timed_out) |}.
Definition set_first (b : bool) (s : State) : State :=
  {| first_byte := s.(first_byte); idle := s.(idle); first := b; wait := s.(wait);
     timed_out := s.(timed_out) |}.
Definition set_timed_out (s : State) : State :=
  {| first_byte := s.(first_byte); idle := s.(idle); first := s.(first); wait := s.(wait);
     timed_out := true |}.

Definition poll_next (now : Z) (inner : Inner) (s : State) : State * Poll :=
  if s.(timed_out) then (s, PEnd)
  else
    let window := if s.(first) then s.(first_byte) else s.(idle) in
    let s := match s.(wait) with None => set_wait ((fun d => now + d) <$> window) s | Some _ => s end in
    if match s.(wait) with Some deadline => deadline <=? now | None => false end then
      (set_timed_out s,
       PErr ("upstream stream " +:+ (if s.(first) then "first byte" else "idle") +:+ " timeout"))
    else
      match inner with
      | IData b => (arm_idle now (set_first false s), PData b)
      | IError e => (arm_idle now (set_first false s), PErr e)
      | IEnd => (s, PEnd)
      | IPending => (s, PPending)
      end.

Fixpoint run (polls : list (Z * Inner)) (s : State) : list Poll :=
  match polls with
  | [] => []
  | (now, i) :: polls' => let '(s', p) := poll_next now i s in p :: run polls' s'
  end.

(** [stream_timeouts]: zero disables a phase. *)
Definition stream_timeouts (first_byte_secs idle_secs : Z) : option Z * option Z :=
  ((if 0 <? first_byte_secs then Some (first_byte_secs * 10 ^ 9) else None),
   (if 0 <? idle_secs then Some (idle_secs * 10 ^ 9) else None)).

End Timeouts.

(** ** Keep-alive *)

Module Ping.
Import Timeouts.

Record State : Type := {
  interval : Z;
  wait : Z;
  done : bool;
  at_line_start : bool;
}.

Definition with_ping_keepalive (now interval : Z) : State :=
  {| interval := interval; wait := now + interval; done := false; at_line_start := true |}.

Definition PING : string := ": ping" +:+ lf2.

Definition ends_in_lf (s : string) : bool := ends_with_char LF s.

Definition poll_next (now : Z) (inner : Inner) (s : State) : State * Poll :=
  if s.(done) then (s, PEnd)
  else
    let reset al :=
      {| interval := s.(interval); wait := now + s.(interval); done := s.(done); at_line_start := al |} in
    match inner with
    | IData b => (reset (ends_in_lf b), PData b)
    | IError e => (reset s.(at_line_start), PErr e)
    | IEnd =>
        ({| interval := s.(interval); wait := s.(wait); done := true;
            at_line_start := s.(at_line_start) |}, PEnd)
    | IPending =>
        if s.(wait) <=? now then
          (reset s.(at_line_start), if s.(at_line_start) then PData PING else PPending)
        else (s, PPending)
    end.

(** A run: the inner answers, what the client receives, and which of it are pings. *)
Fixpoint run (polls : list (Z * Inner)) (s : State) : list (bool * Poll) :=
  match polls with
  | [] => []
  | (now, i) :: polls' =>
      let '(s', p) := poll_next now i s in
      (match i with IPending => true | _ => false end, p) :: run polls' s'
  end.

(** The bytes the client has received. *)
Definition bytes_of (l : list (bool * Poll)) : string :=
  foldr (fun x acc => match x.2 with PData b => b +:+ acc | _ => acc end) "" l.

(** The bytes without the pings, and the bytes of the upstream. *)
Definition payload (l : list (bool * Poll)) : string :=
  foldr (fun x acc => match x with (false, PData b) => b +:+ acc | _ => acc end) "" l.
Fixpoint upstream_bytes (polls : list (Z * Inner)) : string :=
  match polls with
  | [] => ""
  | (_, IData b) :: ps => b +:+ upstream_bytes ps
  | (_, IEnd) :: _ => ""
  | _ :: ps => upstream_bytes ps
  end.

End Ping.

(** ** Accounting of a streamed response *)

Module Billing.

(** The shared [recorded] flag and captured usage, whether a call of [record] is running inside the
    stream, the calls that have completed, and whether the stream is gone. *)
Record State : Type := {
  recorded : bool;
  captured : option Usage;
  running : option (option Usage);
  records : list (option Usage);
  finished : bool; (* the tail has run *)
  dropped : bool;
}.

Definition init : State :=
  {| recorded := false; captured := None; running := None; records := []; finished := false;
     dropped := false |}.

Definition merge_captured (u : option Usage) (s : State) : State :=
  {| recorded := s.(recorded);
     captured := match u with Some u => Sse.merge_usage s.(captured) u | None => s.(captured) end;
     running := s.(running); records := s.(records); finished := s.(finished); dropped := s.(dropped) |}.

(** [if !recorded.swap(true) { let u = captured.take(); record(u).await }]: the call starts. *)
Definition start_record (s : State) : State :=
  if s.(recorded) then s
  else {| recorded := true; captured := None; running := Some s.(captured); records := s.(records);
          finished := s.(finished); dropped := s.(dropped) |}.

(** A chunk with its parsed usage and end marker. *)
Definition on_chunk (u : option Usage) (done : bool) (s : State) : State :=
  let s := merge_captured u s in if done then start_record s else s.

Definition on_tail (u : option Usage) (s : State) : State :=
  let s := start_record (merge_captured u s) in
  {| recorded := s.(recorded); captured := s.(captured); running := s.(running);
     records := s.(records); finished := true; dropped := s.(dropped) |}.

Definition complete (s : State) : State :=
  match s.(running) with
  | Some u => {| recorded := s.(recorded); captured := s.(captured); running := None;
                 records := s.(records) ++ [u]; finished := s.(finished); dropped := s.(dropped) |}
  | None => s
  end.

(** [Drop]: a running call inside the stream is cancelled with it; the fallback call is spawned as a
    task of its own and completes. *)
Definition on_drop (s : State) : State :=
  {| recorded := true;
     captured := if s.(recorded) then s.(captured) else None;
     running := None;
     records := if s.(recorded) then s.(records) else s.(records) ++ [s.(captured)];
     finished := s.(finished); dropped := true |}.

(** The stream is polled only while it is alive, its previous step has completed and it has not
    ended; it can be dropped at any time, once. *)
Inductive step : State -> State -> Prop :=
| step_chunk u done s :
    s.(dropped) = false -> s.(running) = None -> s.(finished) = false -> step s (on_chunk u done s)
| step_tail u s :
    s.(dropped) = false -> s.(running) = None -> s.(finished) = false -> step s (on_tail u s)
| step_complete s : s.(dropped) = false -> is_Some s.(running) -> step s (complete s)
| step_drop s : s.(dropped) = false -> step s (on_drop s).

(** Steps in which the stream is never dropped in the middle of a call. *)
Inductive calm_step : State -> State -> Prop :=
| calm s s' : step s s' -> (s'.(dropped) = true -> s.(running) = None) -> calm_step s s'.

End Billing.

(** ** Properties of the event parser *)

Lemma str_take_drop n s : str_take n s +:+ str_drop n s = s.
Proof.
  revert s. induction n as [|n IH]; intros [|a s]; try done. cbn.
  change (String a (str_take n s) +:+ str_drop n s) with (String a (str_take n s +:+ str_drop n s)).
  by rewrite IH.
Qed.

Lemma length_app_str a b : String.length (a +:+ b) = (String.length a + String.length b)%nat.
Proof. induction a as [|c a IH]; [done|]. change (String c a +:+ b) with (String c (a +:+ b)). cbn. by rewrite IH. Qed.

Lemma starts_with_app p a b : starts_with p a = true -> starts_with p (a +:+ b) = true.
Proof. rewrite !starts_with_spec. intros [t ->]. exists (t +:+ b). apply string_app_assoc. Qed.

Lemma find_sub_len p s j : find_sub p s = Some j -> (j + String.length p <= String.length s)%nat.
Proof.
  revert j. induction s as [|c s IH]; intros j; cbn [find_sub]; [done|].
  destruct (starts_with p (String c s)) eqn:E.
  - intros [= <-]. apply starts_with_spec in E as [t ->]. rewrite length_app_str. lia.
  - intros H. apply fmap_Some in H as (k & Hk & ->). apply IH in Hk. cbn. lia.
Qed.

Lemma app_prefix (x y p t : string) :
  p +:+ t = x +:+ y -> (String.length p <= String.length x)%nat -> exists t', x = p +:+ t'.
Proof.
  revert p. induction x as [|c x IH]; intros [|d p] H Hl; cbn in Hl; [by exists ""|lia|by exists (String c x)|].
  change (String d p +:+ t) with (String d (p +:+ t)) in H.
  change (String c x +:+ y) with (String c (x +:+ y)) in H. injection H as -> H.
  destruct (IH p H ltac:(lia)) as [t' ->]. by exists t'.
Qed.

Lemma starts_with_app_inv p a b :
  (String.length p <= String.length a)%nat -> starts_with p (a +:+ b) = starts_with p a.
Proof.
  intros Hl. destruct (starts_with p a) eqn:E; [by apply starts_with_app|].
  apply not_true_iff_false. intros H. apply not_true_iff_false in E. apply E.
  apply starts_with_spec in H as [t Ht]. apply starts_with_spec. by eapply app_prefix.
Qed.

Lemma find_sub_app pat a b i : find_sub pat a = Some i -> find_sub pat (a +:+ b) = Some i.
Proof.
  revert i. induction a as [|c a IH]; intros i H; [done|]. pose proof (find_sub_len _ _ _ H) as Hl.
  pose proof (starts_with_app_inv pat (String c a) b ltac:(lia)) as Hs.
  change (String c a +:+ b) with (String c (a +:+ b)) in *. cbn [find_sub] in *. rewrite Hs.
  destruct (starts_with pat (String c a)); [done|]. apply fmap_Some in H as (j & Hj & ->). by rewrite (IH _ Hj).
Qed.

Lemma find_event_end_bounds buf i :
  find_event_end buf = Some i -> (2 <= i <= String.length buf)%nat.
Proof.
  unfold find_event_end. destruct (find_sub lf2 buf) as [j|] eqn:E.
  - intros [= <-]. apply find_sub_len in E. cbn in E. lia.
  - intros H. apply fmap_Some in H as (j & Hj & ->). apply find_sub_len in Hj. cbn in Hj. lia.
Qed.

Lemma length_drop n s : String.length (str_drop n s) = (String.length s - n)%nat.
Proof. revert s. induction n as [|n IH]; intros [|a s]; cbn; try done; apply IH. Qed.

Lemma length_take n s : (n <= String.length s)%nat -> String.length (str_take n s) = n.
Proof. revert s. induction n as [|n IH]; intros [|a s]; cbn; intros; try lia. rewrite IH; lia. Qed.

Lemma str_drop_app n a b : (n <= String.length a)%nat -> str_drop n (a +:+ b) = str_drop n a +:+ b.
Proof.
  revert a. induction n as [|n IH]; intros [|c a]; cbn; intros H; try done; try lia.
  apply (IH a). lia.
Qed.

Lemma str_take_app n a b : (n <= String.length a)%nat -> str_take n (a +:+ b) = str_take n a.
Proof.
  revert a. induction n as [|n IH]; intros [|c a]; cbn; intros H; try done; try lia.
  change (String c a +:+ b) with (String c (a +:+ b)). cbn. rewrite IH; [done|lia].
Qed.

Definition concat_str (l : list string) : string := foldr String.append "" l.
Lemma concat_str_app l1 l2 : concat_str (l1 ++ l2) = concat_str l1 +:+ concat_str l2.
Proof.
  induction l1 as [|x l1 IH]; [done|]. change (concat_str ((x :: l1) ++ l2)) with (x +:+ concat_str (l1 ++ l2)).
  by rewrite IH, <-string_app_assoc.
Qed.

Lemma split_events_spec fuel buf :
  (String.length buf <= fuel)%nat ->
  let '(events, rest) := split_events fuel buf in
  concat_str events +:+ rest = buf /\ find_event_end rest = None.
Proof.
  revert buf. induction fuel as [|fuel IH]; intros buf Hl; cbn.
  - destruct buf; [done|cbn in Hl; lia].
  - destruct (find_event_end buf) as [i|] eqn:E; [|done].
    pose proof (find_event_end_bounds _ _ E).
    specialize (IH (str_drop i buf)). rewrite length_drop in IH. specialize (IH ltac:(lia)).
    destruct (split_events fuel (str_drop i buf)) as [events rest]. destruct IH as [H1 H2].
    split; [|done]. change (concat_str (?x :: events)) with (x +:+ concat_str events).
    rewrite string_app_assoc, H1. apply str_take_drop.
Qed.

(** More fuel than the length of the buffer changes nothing. *)
Lemma split_events_fuel f1 f2 buf :
  (String.length buf <= f1)%nat -> (String.length buf <= f2)%nat ->
  split_events f1 buf = split_events f2 buf.
Proof.
  revert f2 buf. induction f1 as [|f1 IH]; intros [|f2] buf H1 H2; cbn; try done.
  - destruct buf; [done|cbn in H1; lia].
  - destruct buf; [done|cbn in H2; lia].
  - destruct (find_event_end buf) as [i|] eqn:E; [|done]. pose proof (find_event_end_bounds _ _ E).
    rewrite (IH f2); [done|rewrite length_drop; lia..].
Qed.

Definition no_cr (s : string) : bool := str_all (fun a => negb (bool_decide (a = CR))) s.

Lemma no_cr_find s : no_cr s = true -> find_sub crlf2 s = None.
Proof.
  unfold no_cr. induction s as [|a s IH]; [done|]. cbn [str_all]. intros [Ha Hs]%andb_true_iff.
  cbn [find_sub]. rewrite IH by done. destruct (starts_with crlf2 (String a s)) eqn:E; [|done].
  apply starts_with_spec in E as [t Ht]. injection Ht as -> _. by rewrite bool_decide_true in Ha.
Qed.

Lemma no_cr_drop n s : no_cr s = true -> no_cr (str_drop n s) = true.
Proof.
  unfold no_cr. revert s. induction n as [|n IH]; intros [|a s]; cbn; try done. intros [_ H]%andb_true_iff. auto.
Qed.

Lemma events_app fuel a b :
  no_cr a = true -> no_cr b = true -> (String.length a <= fuel)%nat ->
  let '(e1, r1) := split_events fuel a in
  events_of (a +:+ b) = (let '(e2, r2) := events_of (r1 +:+ b) in (e1 ++ e2, r2)).
Proof.
  revert a. induction fuel as [|fuel IH]; intros a Ha Hb Hl; cbn [split_events].
  - destruct a; [|cbn in Hl; lia]. by destruct (events_of _).
  - destruct (find_event_end a) as [i|] eqn:E; [|by destruct (events_of _)].
    pose proof (find_event_end_bounds _ _ E).
    specialize (IH (str_drop i a) (no_cr_drop _ _ Ha) Hb). rewrite length_drop in IH. specialize (IH ltac:(lia)).
    destruct (split_events fuel (str_drop i a)) as [e1 r1].
    assert (find_event_end (a +:+ b) = Some i) as Eab.
    { unfold find_event_end in *. destruct (find_sub lf2 a) as [j|] eqn:Ej.
      - by rewrite (find_sub_app _ _ b _ Ej).
      - by rewrite (no_cr_find _ Ha) in E. }
    unfold events_of at 1. rewrite length_app_str.
    destruct (String.length a + String.length b)%nat as [|n] eqn:En; [lia|]. cbn [split_events].
    rewrite Eab, str_drop_app, str_take_app by lia.
    rewrite (split_events_fuel n (String.length (str_drop i a +:+ b)))
      by (rewrite length_app_str, length_drop; lia).
    fold (events_of (str_drop i a +:+ b)). rewrite IH. by destruct (events_of (r1 +:+ b)).
Qed.

(** C18: parsing events loses nothing and does not depend on how the network cuts the stream. The
    loop always ends with a buffer that holds no complete event; the events and the rest make up
    the buffer; and for streams with line-feed line ends, parsing a stream in two pieces, with the
    rest kept in the buffer in between, yields the events of the whole. *)
Theorem event_parsing_chunk_invariant a b :
  (let '(events, rest) := events_of a in
   concat_str events +:+ rest = a /\ find_event_end rest = None) /\
  (no_cr a = true -> no_cr b = true ->
   let '(e1, r1) := events_of a in
   let '(e2, r2) := events_of (r1 +:+ b) in
   events_of (a +:+ b) = (e1 ++ e2, r2)).
Proof.
  split; [by apply split_events_spec|]. intros Ha Hb.
  pose proof (events_app (String.length a) a b Ha Hb ltac:(lia)) as H. unfold events_of at 1.
  destruct (split_events _ a) as [e1 r1]. by destruct (events_of (r1 +:+ b)).
Qed.

(** With mixed line ends the cut does matter: the parser prefers a pair of line feeds anywhere in
    the buffer over an earlier pair of CRLF, so an event that ends in CRLF is read as part of the
    next one when both arrive together, and as an event of its own when it arrives alone. *)
Theorem mixed_line_ends_depend_on_chunks :
  let a := "data: 1" +:+ crlf2 in
  let b := "data: 2" +:+ lf2 in
  (events_of (a +:+ b)).1 = [a +:+ b] /\
  (events_of a).1 ++ (events_of ((events_of a).2 +:+ b)).1 = [a; b].
Proof. split; reflexivity. Qed.

(** ** Properties of the priming *)

Module PrimeProofs.
Import Prime.
Section proofs.
Variable from_utf8_lossy : string -> string.
Variable parse_json : string -> option Value.

Lemma rank_smax a b : rank (smax a b) = Z.max (rank a) (rank b).
Proof. unfold smax. destruct (Z.ltb_spec (rank b) (rank a)); lia. Qed.

Lemma rank_bounds s : 0 <= rank s <= 3.
Proof. destruct s; cbn; lia. Qed.

Lemma rank_prime_lines name ls s :
  rank (prime_lines parse_json name ls s) =
  Z.max (rank s) (rank (prime_lines parse_json name ls Neutral)).
Proof.
  revert s. induction ls as [|l ls IH]; intros s; cbn [prime_lines]; [pose proof (rank_bounds s); cbn; lia|].
  destruct (strip_data l) as [data|]; [|apply IH].
  case_bool_decide.
  - rewrite IH, (IH (smax Neutral _)), !rank_smax. cbn. lia.
  - destruct (parse_json data) as [v|]; [|apply IH].
    destruct (frame_error_message v name) as [m|]; [pose proof (rank_bounds s); cbn; lia|].
    rewrite IH, (IH (smax Neutral _)), !rank_smax. cbn. pose proof (rank_bounds s). lia.
Qed.

Lemma rank_fold events s :
  rank (foldl (prime_event from_utf8_lossy parse_json) s events) =
  Z.max (rank s) (rank (foldl (prime_event from_utf8_lossy parse_json) Neutral events)).
Proof.
  revert s. induction events as [|e events IH]; intros s; cbn [foldl]; [pose proof (rank_bounds s); cbn; lia|].
  rewrite IH, (IH (prime_event _ _ Neutral e)). unfold prime_event at 1 2.
  rewrite rank_prime_lines. fold (prime_event from_utf8_lossy parse_json Neutral e). unfold prime_event. lia.
Qed.

(** The verdict of the priming analyser does not depend on the cuts of the stream: with line-feed
    line ends and rests below the window limit, the strongest signal over two pieces is the signal of
    the whole, so that an error frame is seen even when it arrives in pieces. *)
Theorem prime_feed_chunk_invariant buf a b :
  no_cr (buf +:+ a) = true -> no_cr b = true ->
  let '(r1, s1) := feed from_utf8_lossy parse_json buf a in
  let '(r2, s2) := feed from_utf8_lossy parse_json r1 b in
  (String.length r1 <= STREAM_PRIME_MAX_BYTES)%nat -> (String.length r2 <= STREAM_PRIME_MAX_BYTES)%nat ->
  let '(r, s) := feed from_utf8_lossy parse_json buf (a +:+ b) in
  r = r2 /\ rank s = Z.max (rank s1) (rank s2).
Proof.
  intros Ha Hb. unfold feed.
  pose proof (events_app (String.length (buf +:+ a)) (buf +:+ a) b Ha Hb ltac:(lia)) as H.
  fold (events_of (buf +:+ a)) in H. destruct (events_of (buf +:+ a)) as [e1 r1].
  destruct (events_of (r1 +:+ b)) as [e2 r2]. intros H1 H2.
  rewrite string_app_assoc in H. rewrite H.
  apply Nat.ltb_ge in H1, H2. rewrite H1, H2. split; [done|]. by rewrite foldl_app, rank_fold.
Qed.

(** Feeding chunks that carry neither output nor an error leaves this buffer. *)
Fixpoint quiet (buf : string) (cs : list string) : option string :=
  match cs with
  | [] => Some buf
  | c :: cs =>
      match first_chunk_error parse_json c, feed from_utf8_lossy parse_json buf c with
      | None, (buf', Neutral) => quiet buf' cs
      | _, _ => None
      end
  end.

Definition size_of (cs : list string) : nat := list_sum (String.length <$> cs).

(** What ends priming after a quiet prefix that left [buf] in the buffer. *)
Definition productive (buf c : string) : Prop :=
  first_chunk_error parse_json c = None /\
  ((feed from_utf8_lossy parse_json buf c).2 = Productive \/ (feed from_utf8_lossy parse_json buf c).2 = Terminal).
Definition failing (buf : string) (i : Item) (msg : string) : Prop :=
  match i with
  | Failure e => msg = "upstream stream failed before productive output: " +:+ e
  | Chunk c =>
      first_chunk_error parse_json c = Some msg \/
      (first_chunk_error parse_json c = None /\ (feed from_utf8_lossy parse_json buf c).2 = PError msg)
  end.

Definition primed_ok (items : list Item) (size : nat) (buf : string) (before : list string) (o : Primed) : Prop :=
  match o with
  | Committed out rest =>
      exists cs, out = before ++ cs /\ items = (Chunk <$> cs) ++ rest /\
        ((is_Some (quiet buf cs) /\ (STREAM_PRIME_MAX_BYTES <= size + size_of cs)%nat) \/
         (exists pre c buf', cs = pre ++ [c] /\ quiet buf pre = Some buf' /\ productive buf' c))
  | Ended out => exists cs, out = before ++ cs /\ items = Chunk <$> cs /\ is_Some (quiet buf cs)
  | Failed msg =>
      exists pre i rest buf', items = (Chunk <$> pre) ++ i :: rest /\ quiet buf pre = Some buf' /\
        failing buf' i msg
  end.

Lemma prime_loop_spec items buffered size buf :
  primed_ok items size buf buffered (prime_loop from_utf8_lossy parse_json items buffered size buf).
Proof.
  revert buffered size buf. induction items as [|i items IH]; intros buffered size buf; cbn [prime_loop];
    destruct (Nat.leb_spec STREAM_PRIME_MAX_BYTES size) as [Hs|Hs].
  1,3: exists []; rewrite app_nil_r; split_and!; [done..|]; left; cbn; split; [done|lia].
  { exists []. by rewrite app_nil_r. }
  destruct i as [c|e]; [|by exists [], (Failure e), items, buf].
  destruct (first_chunk_error parse_json c) as [msg|] eqn:Ee.
  { exists [], (Chunk c), items, buf. split_and!; try done. by left. }
  destruct (feed from_utf8_lossy parse_json buf c) as [buf' sig] eqn:Ef. destruct sig.
  - specialize (IH (buffered ++ [c]) (size + String.length c)%nat buf').
    destruct (prime_loop _ _ _ _ _ _) as [out rest|msg|out]; cbn [primed_ok] in *.
    + destruct IH as (cs & -> & -> & Hc). exists (c :: cs). rewrite <-app_assoc. split_and!; [done..|].
      cbn [quiet]. rewrite Ee, Ef. destruct Hc as [[Hq Hl]|(pre & c' & b2 & -> & Hq & Hp)].
      * left. split; [done|]. change (size_of (c :: cs)) with (String.length c + size_of cs)%nat. lia.
      * right. exists (c :: pre), c', b2. cbn [quiet]. by rewrite Ee, Ef.
    + destruct IH as (pre & i & rest & b2 & -> & Hq & Hf). exists (c :: pre), i, rest, b2. cbn [quiet].
      by rewrite Ee, Ef.
    + destruct IH as (cs & -> & -> & Hq). exists (c :: cs). rewrite <-app_assoc. cbn [quiet]. by rewrite Ee, Ef.
  - exists [c]. split_and!; [done..|]. right. exists [], c, buf. split_and!; [done..|]. split; [done|]. rewrite Ef; cbn; auto.
  - exists [c]. split_and!; [done..|]. right. exists [], c, buf. split_and!; [done..|]. split; [done|]. rewrite Ef; cbn; auto.
  - exists [], (Chunk c), items, buf. split_and!; [done..|]. right. by rewrite Ef.
Qed.

(** C16: what priming decides, exactly. A stream is committed as the buffered chunks followed by the
    unread rest, nothing lost or reordered, and this happens at the first chunk that carries output
    or a regular end, or when the quiet chunks read so far fill the window; it fails, with that
    message, at the first chunk that carries an error and at a transport error; and it counts as
    ended without output when all its chunks were quiet. *)
Theorem priming_preserves_stream items :
  match prime from_utf8_lossy parse_json items with
  | Committed out rest =>
      (Chunk <$> out) ++ rest = items /\
      ((is_Some (quiet "" out) /\ (STREAM_PRIME_MAX_BYTES <= size_of out)%nat) \/
       (exists pre c buf, out = pre ++ [c] /\ quiet "" pre = Some buf /\ productive buf c))
  | Ended out => Chunk <$> out = items /\ is_Some (quiet "" out)
  | Failed msg =>
      exists pre i rest buf, items = (Chunk <$> pre) ++ i :: rest /\ quiet "" pre = Some buf /\
        failing buf i msg
  end.
Proof.
  pose proof (prime_loop_spec items [] 0 "") as H. unfold prime.
  destruct (prime_loop _ _ _ _ _ _) as [out rest|msg|out]; cbn in H.
  - by destruct H as (cs & -> & -> & H).
  - exact H.
  - by destruct H as (cs & -> & -> & H).
Qed.

End proofs.

Definition delta_parser (_ : string) : option Value :=
  Some (json_object [("type", VString "content_block_delta")]).

Lemma prime_feed_chunk_invariant_witness :
  let '(r, s) := feed id delta_parser "" ("data: {" +:+ ("}" +:+ lf2)) in
  r = "" /\ rank s = Z.max (rank Neutral) (rank Productive).
Proof.
  pose proof (prime_feed_chunk_invariant id delta_parser "" "data: {" ("}" +:+ lf2) eq_refl eq_refl) as H.
  replace (feed id delta_parser "" "data: {") with ("data: {", Neutral) in H by (vm_compute; reflexivity).
  replace (feed id delta_parser "data: {" ("}" +:+ lf2)) with ("", Productive) in H
    by (vm_compute; reflexivity).
  apply H; apply Nat.leb_le; vm_compute; reflexivity.
Defined.

End PrimeProofs.

(** ** Properties of the time-outs *)

Module TimeoutProofs.
Import Timeouts.

Definition timeout_msg (p : Poll) : Prop :=
  p = PErr "upstream stream first byte timeout" \/ p = PErr "upstream stream idle timeout".

(** A time-out ends the stream. Once the deadline of the armed window has passed, the next poll
    reports the time-out of that window and every later poll reports the end; and with both windows
    disabled the wrapper passes every answer of the upstream through unchanged. *)
Theorem timeout_is_final now d i s polls fb idl inners :
  s.(timed_out) = false -> s.(wait) = Some d -> d <= now ->
  (exists p, run ((now, i) :: polls) s = p :: ((fun _ => PEnd) <$> polls) /\ timeout_msg p) /\
  (fb = None -> idl = None ->
   run inners (with_stream_timeouts fb idl) =
   (fun x => match x.2 with IData b => PData b | IError e => PErr e | IEnd => PEnd | IPending => PPending end)
     <$> inners).
Proof.
  intros Ht Hw Hd. split.
  - cbn [run]. unfold poll_next. rewrite Ht, Hw. cbn [wait set_wait]. rewrite Hw.
    rewrite (proj2 (Z.leb_le d now) Hd). eexists. split; [f_equal|by destruct (first s); [left|right]].
    assert (forall ps st, st.(timed_out) = true -> run ps st = (fun _ => PEnd) <$> ps) as Hend.
    { induction ps as [|[t j] ps IH]; intros st Hst; [done|]. cbn [run]. unfold poll_next. rewrite Hst. cbn.
      f_equal. by apply IH. }
    by apply Hend.
  - intros -> ->.
    assert (forall st, st.(timed_out) = false -> st.(wait) = None -> st.(first_byte) = None -> st.(idle) = None ->
      run inners st = (fun x => match x.2 with IData b => PData b | IError e => PErr e | IEnd => PEnd
                                | IPending => PPending end) <$> inners) as H; [|by apply H].
    induction inners as [|[t j] ps IH]; intros st H1 H2 H3 H4; [done|]. cbn [run]. unfold poll_next.
    rewrite H1, H2, H3, H4. replace (if first st then None else None : option Z) with (@None Z) by (by destruct (first st)).
    cbn. destruct j; cbn; (f_equal; apply IH; cbn; try done; by rewrite ?H4).
Qed.

Lemma timeout_is_final_witness :
  exists p, run [(10, IPending); (11, IData "x")]
    {| first_byte := Some 5; idle := None; first := true; wait := Some 5; timed_out := false |} =
    p :: ((fun _ => PEnd) <$> [(11, IData "x")]) /\ timeout_msg p.
Proof.
  apply (timeout_is_final 10 5 IPending
    {| first_byte := Some 5; idle := None; first := true; wait := Some 5; timed_out := false |}
    [(11, IData "x")] None None []); try reflexivity; lia.
Defined.

(** The idle window measures the reader too: when the client has not asked for data for longer
    than the window, the next poll reports an idle time-out although the upstream has data ready. *)
Theorem idle_timeout_hits_slow_reader now d b s :
  s.(timed_out) = false -> s.(first) = false -> s.(wait) = Some d -> d <= now ->
  (poll_next now (IData b) s).2 = PErr "upstream stream idle timeout".
Proof.
  intros Ht Hf Hw Hd. unfold poll_next. rewrite Ht, Hw. cbn [wait]. rewrite Hw, (proj2 (Z.leb_le d now) Hd).
  cbn. by rewrite Hf.
Qed.

Lemma idle_timeout_hits_slow_reader_witness :
  (poll_next 130 (IData "x")
     {| first_byte := None; idle := Some 120; first := false; wait := Some 120; timed_out := false |}).2 =
  PErr "upstream stream idle timeout".
Proof.
  apply (idle_timeout_hits_slow_reader 130 120); try reflexivity. lia.
Defined.

End TimeoutProofs.

(** ** Properties of the keep-alive *)

Module PingProofs.
Import Timeouts Ping.

Lemma ends_in_lf_spec s : ends_in_lf s = true <-> exists p, s = p +:+ String LF "".
Proof.
  unfold ends_in_lf, ends_with_char. rewrite bool_decide_eq_true. unfold is_Some.
  by setoid_rewrite strip_suffix_char_spec.
Qed.

Definition at_line (s : string) : Prop := s = "" \/ ends_in_lf s = true.

Lemma at_line_app a b : ends_in_lf b = true -> at_line (a +:+ b).
Proof.
  intros H. right. apply ends_in_lf_spec in H as [p ->]. apply ends_in_lf_spec. exists (a +:+ p).
  by rewrite string_app_assoc.
Qed.

(** The flag is only set when what the client has received ends a line. *)
Definition inv (received : string) (s : State) : Prop := s.(at_line_start) = true -> at_line received.

Lemma bytes_of_cons x l :
  bytes_of (x :: l) = match x.2 with PData b => b +:+ bytes_of l | _ => bytes_of l end.
Proof. done. Qed.

(** Keep-alive pings never change what the upstream said. Whatever the polls, removing the pings
    from what the client received gives exactly the upstream's bytes up to its end, and every ping is
    sent at the start of a line, so that no line is torn apart. *)
Theorem pings_between_lines polls now interval :
  let out := run polls (with_ping_keepalive now interval) in
  payload out = upstream_bytes polls /\
  forall l1 l2, out = l1 ++ (true, PData PING) :: l2 -> at_line (bytes_of l1).
Proof.
  cbv zeta.
  assert (forall polls s received, s.(done) = false -> inv received s ->
    payload (run polls s) = upstream_bytes polls /\
    forall l1 l2, run polls s = l1 ++ (true, PData PING) :: l2 -> at_line (received +:+ bytes_of l1)) as H.
  2: { apply (H polls (with_ping_keepalive now interval) ""); [done|]. intros _. by left. }
  clear. induction polls as [|[t i] polls IH]; intros s received Hd Hinv.
  - split; [done|]. by intros [] l2 [=].
  - cbn [run]. unfold poll_next. rewrite Hd.
    assert (forall ps st, st.(done) = true -> payload (run ps st) = "" /\
      forall l1 l2, run ps st = l1 ++ (true, PData PING) :: l2 -> False) as Hdone.
    { clear. induction ps as [|[t i] ps IH]; intros st Hst; [split; [done|]; by intros [] ? [=]|].
      cbn [run]. unfold poll_next. rewrite Hst. destruct (IH st Hst) as [H1 H2]. split.
      - unfold payload in *. cbn [foldr]. by destruct i.
      - intros [|x l1] l2 H; [by destruct i|]. injection H as _ H. by eapply H2. }
    destruct i as [b|e| |].
    + destruct (IH {| interval := interval s; wait := t + interval s; done := false;
                      at_line_start := ends_in_lf b |} (received +:+ b) eq_refl) as [H1 H2].
      { intros Hl. by apply at_line_app. }
      split; [unfold payload in *; cbn [foldr upstream_bytes]; by f_equal|].
      intros [|x l1] l2 H; [done|]. injection H as <- H.
      rewrite bytes_of_cons. cbn [snd]. rewrite <-string_app_assoc. by eapply H2.
    + destruct (IH {| interval := interval s; wait := t + interval s; done := false;
                      at_line_start := at_line_start s |} received eq_refl Hinv) as [H1 H2].
      split; [done|]. intros [|x l1] l2 H; [done|]. injection H as <- H. rewrite bytes_of_cons. by eapply H2.
    + destruct (Hdone polls {| interval := interval s; wait := wait s; done := true;
                               at_line_start := at_line_start s |} eq_refl) as [H1 H2].
      split; [done|]. intros [|x l1] l2 H; [done|]. injection H as <- H. by apply H2 in H.
    + destruct (wait s <=? t).
      * destruct (at_line_start s) eqn:El.
        -- destruct (IH {| interval := interval s; wait := t + interval s; done := false;
                           at_line_start := true |} (received +:+ PING) eq_refl) as [H1 H2].
           { intros _. by apply at_line_app. }
           split; [done|]. intros [|x l1] l2 H.
           ++ cbn. rewrite string_app_empty_r. by apply Hinv.
           ++ injection H as <- H. rewrite bytes_of_cons. cbn [snd]. rewrite <-string_app_assoc. by eapply H2.
        -- destruct (IH {| interval := interval s; wait := t + interval s; done := false;
                           at_line_start := false |} received eq_refl) as [H1 H2]; [done|].
           split; [done|]. intros [|x l1] l2 H; [done|]. injection H as <- H. rewrite bytes_of_cons. by eapply H2.
      * destruct (IH s received Hd Hinv) as [H1 H2].
        split; [done|]. intros [|x l1] l2 H; [done|]. injection H as <- H. rewrite bytes_of_cons. by eapply H2.
Qed.

(** A ping can cut an event in two. The ping ends in an empty line, so when the upstream pauses
    between two lines of one event, the client sees that event end at the ping: a two-line event that
    parses as one arrives as two. *)
Theorem ping_can_split_event :
  let polls := [(0, IData ("event: delta" +:+ String LF "")); (20, IPending);
                (21, IData ("data: {}" +:+ lf2)); (22, IEnd)] in
  let out := run polls (with_ping_keepalive 0 15) in
  length (events_of (upstream_bytes polls)).1 = 1%nat /\
  (events_of (bytes_of out)).1 = ["event: delta" +:+ String LF PING; "data: {}" +:+ lf2].
Proof. split; reflexivity. Qed.

End PingProofs.

(** ** Properties of the accounting *)

Module BillingProofs.
Import Billing.

Record Inv (s : State) : Prop := {
  inv_once : (length s.(records) + (if s.(running) then 1 else 0) <= 1)%nat;
  inv_flag : s.(recorded) = false -> s.(records) = [] /\ s.(running) = None;
  inv_drop : s.(dropped) = true -> s.(recorded) = true /\ s.(running) = None;
  inv_fin : s.(finished) = true -> s.(recorded) = true;
}.

Lemma start_record_inv s : Inv s -> Inv (start_record s).
Proof.
  intros HI. unfold start_record. destruct (recorded s) eqn:E; [done|]. destruct HI as [H1 H2 H3 H4].
  destruct (H2 E) as [Hr Hn]. split; cbn; try done; [rewrite Hr; cbn; lia|].
  intros Hd. destruct (H3 Hd). congruence.
Qed.

Lemma merge_captured_inv u s : Inv s -> Inv (merge_captured u s).
Proof. intros []. by split. Qed.

Lemma step_inv s s' : Inv s -> step s s' -> Inv s'.
Proof.
  intros HI Hstep. destruct Hstep as [u d s Hx Hy Hz|u s Hx Hy Hz|s Hd Hr|s Hd].
  - unfold on_chunk. destruct d; [apply start_record_inv|]; by apply merge_captured_inv.
  - unfold on_tail. pose proof (start_record_inv _ (merge_captured_inv u _ HI)) as [H1 H2 H3 H4].
    split; cbn in *; try done. intros _. unfold start_record. by destruct (recorded (merge_captured u s)) eqn:E.
  - destruct HI as [H1 H2 H3 H4]. unfold complete. destruct (running s) as [u|] eqn:E; [|by destruct Hr].
    split; cbn; [rewrite length_app; cbn; lia| | |done].
    + intros Hf. by destruct (H2 Hf).
    + intros Hx. by rewrite Hd in Hx.
  - destruct HI as [H1 H2 H3 H4]. split; cbn; try done.
    destruct (recorded s) eqn:E; [destruct (running s); lia|]. destruct (H2 eq_refl) as [-> _]. cbn. lia.
Qed.

Lemma billing_reachable_inv s : rtc step init s -> Inv s.
Proof.
  revert s. apply (rtc_ind_r Inv); [|intros; by eapply step_inv]. split; cbn; try done. lia.
Qed.

(** Without a cancelled call, a recorded stream whose call is not running has completed it. *)
Definition settled (s : State) : Prop :=
  s.(recorded) = true -> s.(running) = None -> length s.(records) = 1%nat.

Lemma start_record_settled s : Inv s -> settled s -> settled (start_record s).
Proof. intros _ Hs. unfold start_record. by destruct (recorded s) eqn:E. Qed.

Lemma calm_step_settled s s' : Inv s -> settled s -> calm_step s s' -> settled s'.
Proof.
  intros HI Hs Hc. destruct Hc as [s s' Hstep Hcalm]. destruct Hstep as [u d s Hx Hy Hz|u s Hx Hy Hz|s Hd Hr|s Hd].
  - unfold on_chunk. assert (settled (merge_captured u s)) as Hm by done. destruct d; [|done].
    apply start_record_settled; [by apply merge_captured_inv|done].
  - assert (settled (merge_captured u s)) as Hm by done.
    exact (start_record_settled _ (merge_captured_inv u _ HI) Hm).
  - unfold complete. destruct (running s) as [u|] eqn:E; [|by destruct Hr]. intros _ _. cbn.
    destruct HI as [H1 _ _ _]. rewrite E in H1. rewrite length_app. cbn. lia.
  - intros _ _. cbn. specialize (Hcalm eq_refl). destruct (recorded s) eqn:E; [by apply Hs|].
    destruct HI as [_ H2 _ _]. by destruct (H2 E) as [-> _].
Qed.

Lemma calm_steps s : rtc calm_step init s -> rtc step init s.
Proof. apply rtc_subrel. by intros x y []. Qed.

Lemma calm_settled s : rtc calm_step init s -> settled s.
Proof.
  intros Hr. revert s Hr. apply (rtc_ind_r settled); [done|].
  intros x y Hx Hxy IH. eapply calm_step_settled; [|done|exact Hxy]. by apply billing_reachable_inv, calm_steps.
Qed.

(** C7: a streamed response is never accounted for twice, however chunks, end markers, the end of the
    stream and the disconnect of the client interleave; and once the stream is gone it has been
    accounted for exactly once, unless it was dropped while a call of [record] was under way. *)
Theorem stream_billed_once s :
  rtc step init s ->
  (length s.(records) <= 1)%nat /\
  (rtc calm_step init s -> s.(dropped) = true -> length s.(records) = 1%nat).
Proof.
  intros Hr. pose proof (billing_reachable_inv s Hr) as [H1 _ H3 _]. split; [lia|].
  intros Hc Hd. destruct (H3 Hd). by apply (calm_settled s Hc).
Qed.

Lemma stream_billed_once_witness :
  (length (on_drop (complete (on_chunk None true init))).(records) <= 1)%nat.
Proof.
  apply (stream_billed_once (on_drop (complete (on_chunk None true init)))).
  eapply rtc_l; [apply (step_chunk None true); reflexivity|].
  eapply rtc_l; [apply step_complete; [reflexivity|by eexists]|].
  eapply rtc_l; [apply step_drop; reflexivity|]. apply rtc_refl.
Defined.

(** A client that disconnects while the call started by the end marker is still running cancels
    it, and the fallback on drop sees the flag already set: the response is never accounted for. *)
Theorem disconnect_can_lose_billing :
  exists s u, rtc step init s /\ s.(dropped) = true /\ s.(records) = [] /\
    s = on_drop (on_chunk (Some u) true init).
Proof.
  eexists _, sample_usage. split; [|split; [|split; [|reflexivity]]]; try reflexivity.
  eapply rtc_l; [apply (step_chunk (Some sample_usage) true); reflexivity|].
  eapply rtc_l; [apply step_drop; reflexivity|]. apply rtc_refl.
Qed.

End BillingProofs.
