(* ===== verification/Machine.v ===== *)
(** * State machines that write events

The shape shared by the two stream converters: an operation changes the state of the converter and
returns the events it appends to the output ([&mut self] and a returned vector in the source). With
it, relations between a state and the events written so far, and what preserves them. *)

From Stdlib Require Import Sorted.
From S2P Require Import Prelude.

Local Open Scope Z_scope.

Section machine.
Context {S E : Type}.

Definition op : Type := S -> S * list E.
Definition emit (l : list E) : op := fun s => (s, l).
Definition modify (f : S -> S) : op := fun s => (f s, []).
Definition seq (f g : op) : op :=
  fun s => let '(s1, e1) := f s in let '(s2, e2) := g s1 in (s2, e1 ++ e2).
Fixpoint each {A} (f : A -> op) (l : list A) : op :=
  match l with [] => emit [] | x :: l => seq (f x) (each f l) end.
Definition when_some {A} (o : option A) (f : A -> op) : op :=
  match o with Some x => f x | None => emit [] end.

Lemma seq_pair f g s : seq f g s = ((g (f s).1).1, (f s).2 ++ (g (f s).1).2).
Proof. unfold seq. destruct (f s) as [s1 e1]. cbn [fst snd]. by destruct (g s1). Qed.
Lemma seq_assoc f g k s : seq f (seq g k) s = seq (seq f g) k s.
Proof.
  unfold seq. destruct (f s) as [s1 e1]. destruct (g s1) as [s2 e2]. destruct (k s2) as [s3 e3].
  by rewrite app_assoc.
Qed.
Lemma each_app {A} (f : A -> op) l1 l2 s : each f (l1 ++ l2) s = seq (each f l1) (each f l2) s.
Proof.
  revert s. induction l1 as [|x l1 IH]; intros s.
  - cbn [each app]. unfold seq, emit. by destruct (each f l2 s).
  - cbn [each app]. rewrite <-seq_assoc, !seq_pair, !IH. by rewrite !seq_pair.
Qed.

(** ** Relations between the state and the events so far *)

Definition preserves (R : S -> list E -> Prop) (o : op) : Prop :=
  forall s h, R s h -> R (o s).1 (h ++ (o s).2).

Section preservation.
Variable R : S -> list E -> Prop.

Lemma preserves_seq f g : preserves R f -> preserves R g -> preserves R (seq f g).
Proof.
  intros Hf Hg s h H. unfold seq. apply Hf in H. destruct (f s) as [s1 e1]. apply Hg in H. cbn [fst snd] in H.
  destruct (g s1) as [s2 e2]. cbn [fst snd] in *. by rewrite app_assoc.
Qed.
Lemma preserves_nil : preserves R (emit []).
Proof. intros s h H. cbn. by rewrite app_nil_r. Qed.
Lemma preserves_each {A} (f : A -> op) l : (forall x, preserves R (f x)) -> preserves R (each f l).
Proof. intros Hf. induction l; cbn [each]; [apply preserves_nil|by apply preserves_seq]. Qed.
Lemma preserves_when {A} (x : option A) (f : A -> op) : (forall x, preserves R (f x)) -> preserves R (when_some x f).
Proof. intros Hf. destruct x; [apply Hf|apply preserves_nil]. Qed.
End preservation.

(** ** Parts of the state that an operation leaves alone *)

Definition fixes {A} (f : S -> A) (o : op) : Prop := forall s, f (o s).1 = f s.

Section fixed.
Context {A : Type} (f : S -> A).

Lemma fixes_seq o1 o2 : fixes f o1 -> fixes f o2 -> fixes f (seq o1 o2).
Proof. intros H1 H2 s. rewrite seq_pair. cbn [fst]. by rewrite H2, H1. Qed.
Lemma fixes_nil : fixes f (emit []).
Proof. done. Qed.
Lemma fixes_each {B} (g : B -> op) l : (forall x, fixes f (g x)) -> fixes f (each g l).
Proof. intros Hg. induction l; cbn [each]; [apply fixes_nil|by apply fixes_seq]. Qed.
Lemma fixes_when {B} (x : option B) (g : B -> op) : (forall x, fixes f (g x)) -> fixes f (when_some x g).
Proof. intros Hg. destruct x; [apply Hg|apply fixes_nil]. Qed.
End fixed.

(** ** Acceptors of the events

A protocol is a partial step function on a state of its own; [moves] says that what an operation
writes is accepted, and relates the two states before and after. *)

Section acceptor.
Context {P : Type} (step : P -> E -> option P).

Definition run (p : P) (l : list E) : option P := foldl (fun o e => o ≫= fun p => step p e) (Some p) l.

Lemma run_app p l1 l2 : run p (l1 ++ l2) = (run p l1) ≫= (fun p => run p l2).
Proof.
  unfold run. rewrite foldl_app. destruct (foldl _ (Some p) l1); [done|].
  induction l2 as [|e l2 IH]; [done|exact IH].
Qed.
Lemma run_cons p e l : run p (e :: l) = (step p e) ≫= (fun p => run p l).
Proof. exact (run_app p [e] l). Qed.

Definition moves (R R' : S -> P -> Prop) (o : op) : Prop :=
  forall s p, R s p -> exists p', run p (o s).2 = Some p' /\ R' (o s).1 p'.

Lemma moves_seq R1 R2 R3 f g : moves R1 R2 f -> moves R2 R3 g -> moves R1 R3 (seq f g).
Proof.
  intros Hf Hg s p H. rewrite seq_pair. destruct (Hf s p H) as (p1 & H1 & H2).
  destruct (Hg _ _ H2) as (p2 & H3 & H4). exists p2. split; [|done]. cbn [snd]. by rewrite run_app, H1.
Qed.
Lemma moves_nil R : moves R R (emit []).
Proof. intros s p H. by exists p. Qed.
Lemma moves_modify (R R' : S -> P -> Prop) f : (forall s p, R s p -> R' (f s) p) -> moves R R' (modify f).
Proof. intros Hf s p H. exists p. split; [done|]. by apply Hf. Qed.
Lemma moves_each {A} R (f : A -> op) l : (forall x, x ∈ l -> moves R R (f x)) -> moves R R (each f l).
Proof.
  induction l as [|x l IH]; intros Hf; cbn [each]; [apply moves_nil|].
  eapply moves_seq; [apply Hf; by left|]. apply IH. intros y Hy. apply Hf. by right.
Qed.
Lemma moves_when {A} R (x : option A) (f : A -> op) :
  (forall y, x = Some y -> moves R R (f y)) -> moves R R (when_some x f).
Proof. intros Hf. destruct x as [y|]; [by apply Hf|apply moves_nil]. Qed.
End acceptor.

End machine.

Arguments op : clear implicits.
Notation "f ;;; g" := (seq f g) (at level 65, right associativity) : gateway_scope.

(** ** Tool calls by their Chat index

A map from integers, as the list of its bindings in the order of the keys. *)

Section keyed.
Context {A : Type}.

Fixpoint tool_get (k : Z) (m : list (Z * A)) : option A :=
  match m with
  | [] => None
  | (k', b) :: m => if k =? k' then Some b else tool_get k m
  end.
Fixpoint tool_set (k : Z) (b : A) (m : list (Z * A)) : list (Z * A) :=
  match m with
  | [] => [(k, b)]
  | (k', b') :: m' =>
      if k =? k' then (k, b) :: m'
      else if k <? k' then (k, b) :: m
      else (k', b') :: tool_set k b m'
  end.

Definition tools_sorted (m : list (Z * A)) : Prop := StronglySorted Z.lt m.*1.

Lemma tool_set_keys k b m j : j ∈ (tool_set k b m).*1 -> j = k \/ j ∈ m.*1.
Proof.
  induction m as [|[k' b'] m IH]; cbn [tool_set].
  - cbn. rewrite list_elem_of_singleton. tauto.
  - destruct (k =? k') eqn:E1; [|destruct (k <? k')]; cbn; rewrite !elem_of_cons; [tauto|tauto|].
    intros [->|H]; [tauto|]. apply IH in H. tauto.
Qed.

Lemma tool_set_sorted k b m : tools_sorted m -> tools_sorted (tool_set k b m).
Proof.
  unfold tools_sorted. induction m as [|[k' b'] m IH]; cbn [tool_set]; intros H.
  - repeat constructor.
  - cbn in H. apply StronglySorted_inv in H as [Hs Hf].
    destruct (Z.eqb_spec k k') as [->|]; [by constructor|].
    destruct (Z.ltb_spec k k').
    + constructor; [by constructor|]. cbn. constructor; [done|]. eapply Forall_impl; [exact Hf|]. cbn. lia.
    + cbn. constructor; [by apply IH|]. rewrite Forall_forall in Hf |- *. intros j Hj.
      apply tool_set_keys in Hj as [->|Hj]; [lia|auto].
Qed.

(** A known key is replaced; a new one is added. *)
Lemma tool_set_known k b b0 m :
  tools_sorted m -> tool_get k m = Some b0 ->
  exists r, m ≡ₚ (k, b0) :: r /\ tool_set k b m ≡ₚ (k, b) :: r.
Proof.
  unfold tools_sorted. induction m as [|[k' b'] m IH]; cbn [tool_get tool_set]; [done|]. intros Hs.
  cbn in Hs. apply StronglySorted_inv in Hs as [Hs Hf].
  destruct (Z.eqb_spec k k') as [->|]; intros H; [injection H as ->; eauto|].
  destruct (IH Hs H) as (r & H1 & H2). destruct (Z.ltb_spec k k').
  - exfalso. assert (Hk : k ∈ m.*1).
    { rewrite H1. cbn. apply elem_of_cons. by left. }
    rewrite Forall_forall in Hf. specialize (Hf k Hk). lia.
  - exists ((k', b') :: r). split; [rewrite H1|rewrite H2]; apply Permutation_swap.
Qed.
Lemma tool_set_new k b m : tool_get k m = None -> tool_set k b m ≡ₚ (k, b) :: m.
Proof.
  induction m as [|[k' b'] m IH]; cbn [tool_get tool_set]; [done|].
  destruct (k =? k'); [done|]. intros H. destruct (k <? k'); [done|]. rewrite IH by done. apply Permutation_swap.
Qed.
Lemma tool_get_set k j b m : tool_get j (tool_set k b m) = if j =? k then Some b else tool_get j m.
Proof.
  induction m as [|[k' b'] m IH]; cbn [tool_get tool_set]; [by destruct (j =? k)|].
  destruct (Z.eqb_spec k k') as [->|]; [|destruct (k <? k')]; cbn [tool_get].
  - by destruct (j =? k').
  - done.
  - rewrite IH. destruct (Z.eqb_spec j k'), (Z.eqb_spec j k); try done. congruence.
Qed.
Lemma tool_get_elem k m b : tool_get k m = Some b -> (k, b) ∈ m.
Proof.
  induction m as [|[k' b'] m IH]; cbn; [done|]. destruct (Z.eqb_spec k k') as [->|].
  - intros [= ->]. by apply elem_of_cons; left.
  - intros H. apply elem_of_cons. right. by apply IH.
Qed.
Lemma elem_tool_get (m : list (Z * A)) k b : tools_sorted m -> (k, b) ∈ m -> tool_get k m = Some b.
Proof.
  unfold tools_sorted. induction m as [|[k' b'] m IH]; intros Hs H; [by apply elem_of_nil in H|]. cbn in Hs |- *.
  apply StronglySorted_inv in Hs as [Hs Hf]. apply elem_of_cons in H as [[= -> ->]|H]; [by rewrite Z.eqb_refl|].
  destruct (Z.eqb_spec k k') as [->|]; [|by apply IH]. exfalso. rewrite Forall_forall in Hf.
  specialize (Hf k'). assert (Hin : k' ∈ m.*1) by (apply list_elem_of_fmap; by exists (k', b)).
  specialize (Hf Hin). lia.
Qed.

End keyed.
