(* ===== verification/InlineThink.v ===== *)
(** * Inline thinking

[src/service/inline_think.rs]: some upstreams put their reasoning into the answer, as a
[<think>...</think>] block at its head. [InlineThinkState] separates the block from a stream of text
increments, holding back only bytes that may belong to a tag; [split_leading_think] separates it
from a complete text. An increment is a Rust [str], the UTF-8 encoding of some characters. *)

From Stdlib Require Import ZifyBool.
From S2P Require Import Prelude Float Json Metering Streams.

Local Open Scope nat_scope.

Definition THINK_OPEN : string := "<think>".
Definition THINK_CLOSE : string := "</think>".

Inductive Mode : Type :=
| Detecting
| Reasoning
| Text.

Record InlineThinkState : Type := {
  mode : Mode;
  buffer : string;
}.

Inductive PrefixDecision : Type :=
| NeedMore
| IsReasoning
| IsText.

Definition leading_think_prefix_decision (buffer : string) : PrefixDecision :=
  let trimmed := trim_start buffer in
  if str_is_empty trimmed then NeedMore
  else if starts_with trimmed THINK_OPEN then NeedMore
  else if starts_with THINK_OPEN trimmed then IsReasoning
  else IsText.

Definition split_leading_think_block (buffer : string) : option (string * string) :=
  match find_sub THINK_OPEN buffer with
  | None => None
  | Some start =>
      let after_open := str_drop (start + String.length THINK_OPEN) buffer in
      match find_sub THINK_CLOSE after_open with
      | None => None
      | Some e => Some (str_take e after_open, str_drop (e + String.length THINK_CLOSE) after_open)
      end
  end.

Definition split_leading_think (text : string) : option (string * string) := split_leading_think_block text.

(** The longest suffix of the buffer that is a prefix of the closing tag: the lengths are tried
    from the longest down. *)
Fixpoint longest_suffix (k : nat) (buffer : string) : nat :=
  match k with
  | 0 => 0
  | S k' =>
      if bool_decide (str_drop (String.length buffer - k) buffer = str_take k THINK_CLOSE) then k
      else longest_suffix k' buffer
  end.
Definition partial_close_suffix_len (buffer : string) : nat :=
  longest_suffix (Nat.min (String.length THINK_CLOSE) (String.length buffer)) buffer.

Definition new : InlineThinkState := {| mode := Detecting; buffer := "" |}.

Definition non_empty (s : string) : list string := if str_is_empty s then [] else [s].

Definition strip_open_tag (buf : string) : string :=
  match find_sub THINK_OPEN buf with
  | Some pos => str_drop (pos + String.length THINK_OPEN) buf
  | None => buf
  end.

(** In mode [Reasoning]; the increments are (reasoning, text). *)
Definition emit_reasoning (buf : string) : InlineThinkState * (list string * list string) :=
  match find_sub THINK_CLOSE buf with
  | Some e =>
      ({| mode := Text; buffer := "" |},
       (non_empty (str_take e buf), non_empty (str_drop (e + String.length THINK_CLOSE) buf)))
  | None =>
      let hold := partial_close_suffix_len buf in
      if (String.length buf =? hold) then ({| mode := Reasoning; buffer := buf |}, ([], []))
      else
        let emit := String.length buf - hold in
        ({| mode := Reasoning; buffer := str_drop emit buf |}, ([str_take emit buf], []))
  end.

Definition feed (delta : string) (st : InlineThinkState) : InlineThinkState * (list string * list string) :=
  match st.(mode) with
  | Text => (st, ([], [delta]))
  | Detecting =>
      let buf := st.(buffer) +:+ delta in
      match leading_think_prefix_decision buf with
      | NeedMore => ({| mode := Detecting; buffer := buf |}, ([], []))
      | IsReasoning => emit_reasoning (strip_open_tag buf)
      | IsText => ({| mode := Text; buffer := "" |}, ([], [buf]))
      end
  | Reasoning => emit_reasoning (st.(buffer) +:+ delta)
  end.

Definition flush (st : InlineThinkState) : InlineThinkState * (list string * list string) :=
  match st.(mode) with
  | Text => (st, ([], []))
  | Detecting => ({| mode := Text; buffer := "" |}, ([], non_empty st.(buffer)))
  | Reasoning => ({| mode := Text; buffer := "" |}, (non_empty st.(buffer), []))
  end.

(** ** Properties *)

(** The sequence lengths of UTF-8: every character is complete. *)
Fixpoint utf8 (s : string) : bool :=
  let cont c := let n := Ascii.nat_of_ascii c in (128 <=? n) && (n <? 192) in
  match s with
  | EmptyString => true
  | String a s1 =>
      let n := Ascii.nat_of_ascii a in
      if n <? 128 then utf8 s1
      else match s1 with
           | String b s2 =>
               cont b &&
               if (192 <=? n) && (n <? 224) then utf8 s2
               else match s2 with
                    | String c s3 =>
                        cont c &&
                        if (224 <=? n) && (n <? 240) then utf8 s3
                        else match s3 with
                             | String d s4 => cont d && (240 <=? n) && utf8 s4
                             | EmptyString => false
                             end
                    | EmptyString => false
                    end
           | EmptyString => false
           end
  end.

Lemma skip_ws_suffix rev s : exists w, s = w +:+ skip_ws rev s.
Proof.
  revert s. fix IH 1. intros [|a s1]; [by exists ""|]. cbn [skip_ws].
  destruct (ws1 _); [destruct (IH s1) as [w Hw]; exists (String a w); by rewrite Hw at 1|].
  destruct s1 as [|b s2]; [by exists ""|].
  destruct (if rev then _ else _); [destruct (IH s2) as [w Hw]; exists (String a (String b w)); by rewrite Hw at 1|].
  destruct s2 as [|c s3]; [by exists ""|].
  destruct (if rev then _ else _); [|by exists ""].
  destruct (IH s3) as [w Hw]; exists (String a (String b (String c w))); by rewrite Hw at 1.
Qed.

Lemma string_len_ind (P : string -> Prop) :
  (forall s, (forall t, String.length t < String.length s -> P t) -> P s) -> forall s, P s.
Proof.
  intros H s. assert (forall n t, String.length t < n -> P t) as Hn; [|by apply (Hn (S (String.length s))); lia].
  induction n as [|n IH]; [lia|]. intros t Ht. apply H. intros u Hu. apply IH. lia.
Qed.

Lemma trim_start_app a b :
  utf8 a = true -> trim_start a <> "" -> trim_start (a +:+ b) = trim_start a +:+ b.
Proof.
  unfold trim_start. revert a. induction a as [[|x a1] IH] using string_len_ind; [done|]. intros Hu Hne.
  change (String x a1 +:+ b) with (String x (a1 +:+ b)). cbn [skip_ws] in *.
  destruct (ws1 (Ascii.nat_of_ascii x)) eqn:E1.
  { apply IH; [cbn; lia| |done]. cbn [utf8] in Hu. unfold ws1 in E1.
    destruct (Nat.ltb_spec (Ascii.nat_of_ascii x) 128); [done|]. lia. }
  destruct a1 as [|y a2].
  { cbn [utf8] in Hu. destruct (Nat.ltb_spec (Ascii.nat_of_ascii x) 128) as [Hx|]; [|done].
    destruct b as [|y b]; [done|].
    change ("" +:+ String y b) with (String y b). cbn beta iota.
    assert (ws2 (Ascii.nat_of_ascii x) (Ascii.nat_of_ascii y) = false) as -> by (unfold ws2; lia).
    destruct b as [|z b]; [done|].
    assert (ws3 (Ascii.nat_of_ascii x) (Ascii.nat_of_ascii y) (Ascii.nat_of_ascii z) = false) as ->
      by (unfold ws3; lia). done. }
  change (String y a2 +:+ b) with (String y (a2 +:+ b)). cbn beta iota.
  destruct (ws2 (Ascii.nat_of_ascii x) (Ascii.nat_of_ascii y)) eqn:E2.
  { apply IH; [cbn; lia| |done]. cbn [utf8] in Hu. unfold ws2 in E2.
    destruct (Nat.ltb_spec (Ascii.nat_of_ascii x) 128); [lia|].
    apply andb_true_iff in Hu as [_ Hu].
    destruct (Nat.leb_spec 192 (Ascii.nat_of_ascii x)), (Nat.ltb_spec (Ascii.nat_of_ascii x) 224);
      cbn [andb] in Hu; try done; lia. }
  destruct a2 as [|z a3].
  { destruct b as [|z b]; [done|].
    change ("" +:+ String z b) with (String z b). cbn beta iota.
    assert (ws3 (Ascii.nat_of_ascii x) (Ascii.nat_of_ascii y) (Ascii.nat_of_ascii z) = false) as ->; [|done].
    cbn [utf8] in Hu. destruct (Nat.ltb_spec (Ascii.nat_of_ascii x) 128); [unfold ws3; lia|].
    apply andb_true_iff in Hu as [_ Hu].
    destruct (Nat.leb_spec 192 (Ascii.nat_of_ascii x)), (Nat.ltb_spec (Ascii.nat_of_ascii x) 224);
      cbn [andb] in Hu; try done; unfold ws3; lia. }
  change (String z a3 +:+ b) with (String z (a3 +:+ b)). cbn beta iota.
  destruct (ws3 (Ascii.nat_of_ascii x) (Ascii.nat_of_ascii y) (Ascii.nat_of_ascii z)) eqn:E3; [|done].
  apply IH; [cbn; lia| |done]. cbn [utf8] in Hu. unfold ws3 in E3.
  destruct (Nat.ltb_spec (Ascii.nat_of_ascii x) 128); [lia|].
  apply andb_true_iff in Hu as [_ Hu].
  destruct (Nat.leb_spec 192 (Ascii.nat_of_ascii x)), (Nat.ltb_spec (Ascii.nat_of_ascii x) 224);
    cbn [andb] in Hu; try lia; apply andb_true_iff in Hu as [_ Hu];
  destruct (Nat.leb_spec 224 (Ascii.nat_of_ascii x)), (Nat.ltb_spec (Ascii.nat_of_ascii x) 240);
    cbn [andb] in Hu; try done; lia.
Qed.

Lemma utf8_app a b : utf8 a = true -> utf8 b = true -> utf8 (a +:+ b) = true.
Proof.
  intros Ha Hb. revert a Ha. fix IH 1. intros [|x a1]; [done|].
  change (String x a1 +:+ b) with (String x (a1 +:+ b)). cbn [utf8]. destruct (_ <? 128); [apply IH|].
  destruct a1 as [|y a2]; [done|]. change (String y a2 +:+ b) with (String y (a2 +:+ b)). cbn beta iota.
  intros [-> H]%andb_true_iff. revert H. destruct (_ && (_ <? 224)); [apply IH|].
  destruct a2 as [|z a3]; [done|]. change (String z a3 +:+ b) with (String z (a3 +:+ b)). cbn beta iota.
  intros [-> H]%andb_true_iff. revert H. destruct (_ && (_ <? 240)); [apply IH|].
  destruct a3 as [|u a4]; [done|]. change (String u a4 +:+ b) with (String u (a4 +:+ b)). cbn beta iota.
  intros [-> H]%andb_true_iff. cbn [andb]. by apply IH.
Qed.

Lemma utf8_concat ds : Forall (fun d => utf8 d = true) ds -> utf8 (concat_str ds) = true.
Proof. induction 1; [done|]. by apply utf8_app. Qed.

Lemma string_app_nil (a b : string) : a +:+ b = "" -> a = "".
Proof. by destruct a. Qed.

Lemma prefix_of_app a b t : starts_with (a +:+ b) t = true -> starts_with a t = true.
Proof. rewrite !starts_with_spec. intros [u ->]. exists (b +:+ u). apply string_app_assoc. Qed.

Lemma starts_with_app_cases p a b :
  starts_with p (a +:+ b) = true -> starts_with p a = true \/ starts_with a p = true.
Proof.
  intros H. destruct (Nat.le_ge_cases (String.length p) (String.length a)) as [Hl|Hl].
  - left. by rewrite starts_with_app_inv in H.
  - right. apply starts_with_spec in H as [t Ht]. apply starts_with_spec. symmetry in Ht.
    destruct (app_prefix p t a b) as [t' ->]; eauto.
Qed.

(** A decision that is made does not change when more text arrives. *)
Lemma decision_stable s b :
  utf8 s = true -> leading_think_prefix_decision s <> NeedMore ->
  leading_think_prefix_decision (s +:+ b) = leading_think_prefix_decision s.
Proof.
  intros Hu. unfold leading_think_prefix_decision, str_is_empty.
  case_bool_decide as He; [done|]. rewrite (trim_start_app s b Hu He).
  rewrite bool_decide_false by (intros H; by apply string_app_nil in H).
  destruct (starts_with (trim_start s) THINK_OPEN) eqn:E1; [done|]. intros _.
  destruct (starts_with (trim_start s +:+ b) THINK_OPEN) eqn:E2.
  { apply prefix_of_app in E2. congruence. }
  destruct (starts_with THINK_OPEN (trim_start s)) eqn:E3; [by rewrite (starts_with_app _ _ b E3)|].
  destruct (starts_with THINK_OPEN (trim_start s +:+ b)) eqn:E4; [|done].
  apply starts_with_app_cases in E4 as []; congruence.
Qed.

Lemma find_sub_suffix pat w t : pat <> "" -> starts_with pat t = true -> is_Some (find_sub pat (w +:+ t)).
Proof.
  intros Hp Ht. induction w as [|a w IH].
  - change ("" +:+ t) with t. destruct t as [|c t]; [by destruct pat|]. cbn [find_sub]. by rewrite Ht.
  - change (String a w +:+ t) with (String a (w +:+ t)). cbn [find_sub].
    destruct (starts_with pat (String a (w +:+ t))); [done|]. destruct IH as [i ->]. by eexists.
Qed.

Lemma find_sub_split pat s i :
  find_sub pat s = Some i ->
  s = str_take i s +:+ pat +:+ str_drop (i + String.length pat) s /\ starts_with pat (str_drop i s) = true.
Proof.
  revert i. induction s as [|c s IH]; intros i; cbn [find_sub]; [done|].
  destruct (starts_with pat (String c s)) eqn:E.
  - intros [= <-]. split; [|done]. apply starts_with_spec in E as [t ->]. cbn [str_take].
    change ("" +:+ ?x) with x. rewrite str_drop_app by lia. f_equal.
    clear. induction pat as [|a p IH]; [done|]. exact IH.
  - intros H. apply fmap_Some in H as (j & Hj & ->). destruct (IH j Hj) as [H1 H2]. split; [|done].
    cbn [str_take str_drop Nat.add]. change (String c ?a +:+ ?b) with (String c (a +:+ b)). by f_equal.
Qed.

Lemma decision_open s : leading_think_prefix_decision s = IsReasoning -> is_Some (find_sub THINK_OPEN s).
Proof.
  unfold leading_think_prefix_decision. destruct (str_is_empty _); [done|].
  destruct (starts_with (trim_start s) _); [done|].
  destruct (starts_with THINK_OPEN (trim_start s)) eqn:E; [|done]. intros _.
  destruct (skip_ws_suffix false s) as [w Hw]. rewrite Hw. by apply find_sub_suffix.
Qed.

Lemma strip_open_tag_app s b :
  is_Some (find_sub THINK_OPEN s) -> strip_open_tag (s +:+ b) = strip_open_tag s +:+ b.
Proof.
  intros [i Hi]. unfold strip_open_tag. rewrite (find_sub_app _ _ b _ Hi), Hi.
  apply str_drop_app. apply find_sub_len in Hi. exact Hi.
Qed.

(** ** Looking for the closing tag *)

Lemma str_drop_app_ge n a b : String.length a <= n -> str_drop n (a +:+ b) = str_drop (n - String.length a) b.
Proof.
  revert n. induction a as [|c a IH]; intros n H; cbn in *; [by rewrite Nat.sub_0_r|].
  destruct n as [|n]; [lia|]. change (String c a +:+ b) with (String c (a +:+ b)). cbn. apply IH. lia.
Qed.

Lemma find_sub_shift pat e x :
  (forall i, i < String.length e -> starts_with pat (str_drop i (e +:+ x)) = false) ->
  find_sub pat (e +:+ x) = Nat.add (String.length e) <$> find_sub pat x.
Proof.
  induction e as [|c e IH]; intros H.
  - change ("" +:+ x) with x. by destruct (find_sub pat x).
  - change (String c e +:+ x) with (String c (e +:+ x)) in *. cbn [find_sub String.length].
    pose proof (H 0 ltac:(cbn; lia)) as H0. cbn [str_drop] in H0. rewrite H0, IH.
    + by destruct (find_sub pat x).
    + intros i Hi. exact (H (S i) ltac:(cbn; lia)).
Qed.

Lemma find_sub_none pat s i : find_sub pat s = None -> starts_with pat (str_drop i s) = true -> str_drop i s = "".
Proof.
  revert i. induction s as [|c s IH]; intros i Hn Hs; [by destruct i|]. cbn [find_sub] in Hn.
  destruct (starts_with pat (String c s)) eqn:E; [done|]. apply fmap_None in Hn.
  destruct i as [|i]; cbn [str_drop] in *; [congruence|]. by apply IH.
Qed.

Lemma longest_suffix_spec k buf :
  k <= String.length buf ->
  let h := longest_suffix k buf in
  h <= k /\ forall j, h < j <= k -> str_drop (String.length buf - j) buf <> str_take j THINK_CLOSE.
Proof.
  induction k as [|k IH]; intros Hk; cbn [longest_suffix]; [split; [lia|]; intros; lia|].
  case_bool_decide as E; [split; [lia|]; intros; lia|].
  destruct (IH ltac:(lia)) as [H1 H2]. split; [lia|]. intros j Hj.
  destruct (decide (j = S k)) as [->|]; [done|]. apply H2. lia.
Qed.

Lemma starts_with_take p s : starts_with s p = true -> s = str_take (String.length s) p.
Proof.
  revert p. induction s as [|c s IH]; intros p H; [by destruct p|].
  apply starts_with_spec in H as [t ->]. change (String c s +:+ t) with (String c (s +:+ t)). cbn.
  f_equal. apply IH. apply starts_with_spec. by exists t.
Qed.

(** What is emitted can never become part of the closing tag, whatever follows. *)
Lemma hold_back buf x :
  find_sub THINK_CLOSE buf = None ->
  let hold := partial_close_suffix_len buf in
  let e := str_take (String.length buf - hold) buf in
  let h := str_drop (String.length buf - hold) buf in
  hold <= String.length buf /\
  find_sub THINK_CLOSE (buf +:+ x) = Nat.add (String.length e) <$> find_sub THINK_CLOSE (h +:+ x).
Proof.
  intros Hn. cbv zeta. unfold partial_close_suffix_len.
  destruct (longest_suffix_spec (Nat.min (String.length THINK_CLOSE) (String.length buf)) buf ltac:(lia)) as [H1 H2].
  set (hold := longest_suffix _ buf) in *. split; [lia|].
  rewrite <-(str_take_drop (String.length buf - hold) buf) at 1. rewrite string_app_assoc.
  apply find_sub_shift. rewrite length_take by lia. intros i Hi. rewrite <-string_app_assoc, str_take_drop.
  rewrite str_drop_app by lia. destruct (starts_with THINK_CLOSE (str_drop i buf +:+ x)) eqn:E; [|done].
  exfalso. assert (String.length (str_drop i buf) = String.length buf - i) as Hd by apply length_drop.
  apply starts_with_app_cases in E as [E|E].
  - apply (find_sub_none _ _ _ Hn) in E. rewrite E in Hd. cbn in Hd. lia.
  - destruct (Nat.le_gt_cases (String.length THINK_CLOSE) (String.length buf - i)) as [Hl|Hl].
    + apply starts_with_spec in E as [t Ht]. assert (t = "") as ->.
      { apply (f_equal String.length) in Ht. rewrite length_app_str, Hd in Ht. destruct t; [done|cbn in *; lia]. }
      rewrite string_app_empty_r in Ht.
      assert (starts_with THINK_CLOSE (str_drop i buf) = true) as E2.
      { apply starts_with_spec. exists "". by rewrite string_app_empty_r. }
      apply (find_sub_none _ _ _ Hn) in E2. rewrite E2 in Hd. cbn in Hd. lia.
    + apply (H2 (String.length buf - i)); [lia|]. replace (String.length buf - (String.length buf - i)) with i by lia.
      rewrite <-Hd. by apply starts_with_take.
Qed.

(** ** Independence of the cuts *)

(** The separation of a complete text. *)
Definition split_think (s : string) : string * string :=
  match leading_think_prefix_decision s with
  | IsReasoning =>
      let body := strip_open_tag s in
      match find_sub THINK_CLOSE body with
      | Some e => (str_take e body, str_drop (e + String.length THINK_CLOSE) body)
      | None => (body, "")
      end
  | NeedMore | IsText => ("", s)
  end.

(** Feeding increments one after the other, then flushing: all the reasoning and all the text. *)
Fixpoint run (ds : list string) (st : InlineThinkState) : string * string :=
  match ds with
  | [] => let '(_, (r, t)) := flush st in (concat_str r, concat_str t)
  | d :: ds =>
      let '(st, (r, t)) := feed d st in
      let '(r', t') := run ds st in (concat_str r +:+ r', concat_str t +:+ t')
  end.

Definition Inv (s : string) (st : InlineThinkState) (r t : string) : Prop :=
  match st.(mode) with
  | Detecting => st.(buffer) = s /\ r = "" /\ t = "" /\ leading_think_prefix_decision s = NeedMore
  | Text => forall b, split_think (s +:+ b) = (r, t +:+ b)
  | Reasoning =>
      leading_think_prefix_decision s = IsReasoning /\ t = "" /\
      strip_open_tag s = r +:+ st.(buffer) /\ find_sub THINK_CLOSE st.(buffer) = None /\
      forall x, find_sub THINK_CLOSE (r +:+ st.(buffer) +:+ x) =
                Nat.add (String.length r) <$> find_sub THINK_CLOSE (st.(buffer) +:+ x)
  end.

Lemma str_take_app_ge n a b : str_take (String.length a + n) (a +:+ b) = a +:+ str_take n b.
Proof.
  induction a as [|c a IH]; [done|]. change (String c a +:+ b) with (String c (a +:+ b)). cbn. by rewrite IH.
Qed.

Lemma concat_non_empty s : concat_str (non_empty s) = s.
Proof. unfold non_empty, str_is_empty. case_bool_decide; cbn; [done|]. apply string_app_empty_r. Qed.

Lemma split_think_closed s r buf e b :
  utf8 s = true -> leading_think_prefix_decision s = IsReasoning -> strip_open_tag s = r +:+ buf ->
  find_sub THINK_CLOSE (r +:+ buf +:+ b) = Some (String.length r + e) ->
  e + String.length THINK_CLOSE <= String.length buf ->
  split_think (s +:+ b) = (r +:+ str_take e buf, str_drop (e + String.length THINK_CLOSE) buf +:+ b).
Proof.
  intros Hu Hd Hs Hf Hl. unfold split_think. rewrite decision_stable, Hd by (done || congruence).
  rewrite (strip_open_tag_app s b (decision_open s Hd)), Hs, string_app_assoc, Hf.
  rewrite str_take_app_ge, str_take_app by lia. f_equal.
  rewrite str_drop_app_ge by lia.
  replace (String.length r + e + String.length THINK_CLOSE - String.length r)
    with (e + String.length THINK_CLOSE) by lia.
  by rewrite str_drop_app.
Qed.

Lemma emit_inv s r buf :
  utf8 s = true -> leading_think_prefix_decision s = IsReasoning -> strip_open_tag s = r +:+ buf ->
  (forall x, find_sub THINK_CLOSE (r +:+ buf +:+ x) = Nat.add (String.length r) <$> find_sub THINK_CLOSE (buf +:+ x)) ->
  let '(st, (r', t')) := emit_reasoning buf in Inv s st (r +:+ concat_str r') (concat_str t').
Proof.
  intros Hu Hd Hs Hf. unfold emit_reasoning. destruct (find_sub THINK_CLOSE buf) as [e|] eqn:E.
  - cbn [Inv mode]. intros b. rewrite !concat_non_empty. apply split_think_closed; try done.
    + rewrite Hf, (find_sub_app _ _ b _ E). done.
    + by apply find_sub_len in E.
  - destruct (hold_back buf "" E) as [Hh _]. destruct (Nat.eqb_spec (String.length buf) (partial_close_suffix_len buf)) as [Hq|Hq].
    + cbn [Inv mode buffer]. change (concat_str []) with "". rewrite string_app_empty_r. done.
    + cbn [Inv mode buffer]. set (n := String.length buf - partial_close_suffix_len buf) in *.
      change (concat_str [?a]) with (a +:+ ""). rewrite string_app_empty_r.
      pose proof (hold_back buf "" E) as [_ H0]. fold n in H0. rewrite !string_app_empty_r, E in H0.
      split_and!; try done.
      * by rewrite string_app_assoc, str_take_drop.
      * by destruct (find_sub THINK_CLOSE (str_drop n buf)).
      * intros x. rewrite string_app_assoc, <-(string_app_assoc (str_take n buf)), str_take_drop, Hf.
        pose proof (hold_back buf x E) as [_ ->]. fold n. rewrite length_app_str.
        destruct (find_sub THINK_CLOSE (str_drop n buf +:+ x)) as [i|]; cbn; [|done]. f_equal. lia.
Qed.

Lemma feed_inv s st r t d :
  utf8 s = true -> utf8 d = true -> Inv s st r t ->
  let '(st', (r', t')) := feed d st in Inv (s +:+ d) st' (r +:+ concat_str r') (t +:+ concat_str t').
Proof.
  intros Hu Hd. unfold Inv at 1, feed. destruct (mode st) eqn:Em.
  - intros (-> & -> & -> & Hn). assert (utf8 (s +:+ d) = true) as Hu' by by apply utf8_app.
    destruct (leading_think_prefix_decision (s +:+ d)) eqn:E.
    + done.
    + pose proof (emit_inv (s +:+ d) "" (strip_open_tag (s +:+ d)) Hu' E eq_refl) as H.
      destruct (emit_reasoning _) as [st' [r' t']]. apply H. intros x.
      change ("" +:+ ?y) with y. by destruct (find_sub _ _).
    + cbn [Inv mode]. intros b. unfold split_think. rewrite decision_stable; [|done|by rewrite E]. rewrite E.
      change (concat_str [?a]) with (a +:+ ""). by rewrite !string_app_empty_r.
  - intros (Hr & -> & Hs & Hb & Hf). pose proof (emit_inv (s +:+ d) r (buffer st +:+ d)) as H.
    destruct (emit_reasoning _) as [st' [r' t']]. apply H.
    + by apply utf8_app.
    + rewrite decision_stable; [done..|by rewrite Hr].
    + rewrite strip_open_tag_app, Hs by (by apply decision_open). apply string_app_assoc.
    + intros x. rewrite string_app_assoc. apply Hf.
  - intros Hb. unfold Inv. rewrite Em. intros b. change (concat_str [d]) with (d +:+ "").
    change (concat_str []) with "". rewrite !string_app_empty_r, !string_app_assoc. apply Hb.
Qed.

Lemma flush_inv s st r t :
  Inv s st r t -> let '(_, (r', t')) := flush st in split_think s = (r +:+ concat_str r', t +:+ concat_str t').
Proof.
  unfold Inv, flush. destruct (mode st); cbn.
  - intros (-> & -> & -> & Hn). unfold split_think. by rewrite Hn, concat_non_empty.
  - intros (Hd & -> & Hs & Hb & Hf). unfold split_think. rewrite Hd, Hs, concat_non_empty.
    specialize (Hf ""). rewrite !string_app_empty_r, Hb in Hf. rewrite Hf. done.
  - intros H. specialize (H ""). rewrite !string_app_empty_r in H. by rewrite !string_app_empty_r.
Qed.

Lemma run_inv ds s st r t :
  utf8 s = true -> Forall (fun d => utf8 d = true) ds -> Inv s st r t ->
  split_think (s +:+ concat_str ds) = (r +:+ (run ds st).1, t +:+ (run ds st).2).
Proof.
  revert s st r t. induction ds as [|d ds IH]; intros s st r t Hu Hd Hi; cbn [run].
  - change (concat_str []) with "". rewrite string_app_empty_r. apply flush_inv in Hi.
    by destruct (flush st) as [? [? ?]].
  - apply Forall_cons in Hd as [Hd Hds]. pose proof (feed_inv s st r t d Hu Hd Hi) as H.
    destruct (feed d st) as [st' [r' t']]. apply IH in H; [|by apply utf8_app|done].
    change (concat_str (d :: ds)) with (d +:+ concat_str ds). rewrite <-string_app_assoc, H.
    destruct (run ds st') as [r2 t2]. cbn. by rewrite !string_app_assoc.
Qed.

(** Separating inline thinking does not depend on how the upstream cuts the text, and loses
    nothing. However an answer is cut into increments, what is emitted as reasoning and as text over
    the whole stream, flush included, is the separation of the whole answer; and that separation is
    the answer itself, up to white space and the tags of a leading block. *)
Theorem inline_think_chunk_invariant ds :
  Forall (fun d => utf8 d = true) ds ->
  run ds new = split_think (concat_str ds) /\
  let s := concat_str ds in
  let '(r, t) := split_think s in
  (r = "" /\ t = s) \/
  (exists w, s = w +:+ THINK_OPEN +:+ r +:+ THINK_CLOSE +:+ t) \/
  (exists w, s = w +:+ THINK_OPEN +:+ r /\ t = "").
Proof.
  intros Hd. split.
  - pose proof (run_inv ds "" new "" "" eq_refl Hd) as H. change ("" +:+ ?x) with x in H.
    rewrite H; [by destruct (run ds new)|done].
  - cbv zeta. set (s := concat_str ds). unfold split_think.
    destruct (leading_think_prefix_decision s) eqn:E; cbn beta iota; [by left| |by left].
    destruct (decision_open s E) as [i Hi]. unfold strip_open_tag. rewrite Hi.
    destruct (find_sub_split THINK_OPEN s i Hi) as [H1 _].
    destruct (find_sub THINK_CLOSE _) as [e|] eqn:Ee; cbn beta iota; right; [left|right].
    + apply find_sub_split in Ee as [H2 _]. exists (str_take i s). rewrite <-H2. exact H1.
    + exists (str_take i s). split; [exact H1|done].
Qed.

Lemma inline_think_chunk_invariant_witness :
  run [" <thi"; "nk>plan</t"; "hink"; ">ans"; "wer"] new = ("plan", "answer").
Proof.
  destruct (inline_think_chunk_invariant [" <thi"; "nk>plan</t"; "hink"; ">ans"; "wer"]) as [H _].
  - repeat constructor.
  - rewrite H. vm_compute. reflexivity.
Defined.

(** On a text that opens with a complete block, after white space, the separation of a complete text
    agrees with that of a stream. *)
Lemma split_leading_agrees s r t :
  leading_think_prefix_decision s = IsReasoning -> split_leading_think s = Some (r, t) -> split_think s = (r, t).
Proof.
  intros Hd. unfold split_leading_think, split_leading_think_block, split_think, strip_open_tag. rewrite Hd.
  destruct (find_sub THINK_OPEN s); [|done]. destruct (find_sub THINK_CLOSE _); [|done]. by intros [= <- <-].
Qed.

(** The separation of a complete text looks for the opening tag anywhere, not only at the head, and
    drops what precedes it: the words before a quoted tag are lost, which a stream keeps. *)
Theorem split_leading_drops_prefix :
  split_leading_think "Use <think>a</think> tags" = Some ("a", " tags") /\
  run ["Use <think>a</think> tags"] new = ("", "Use <think>a</think> tags").
Proof. split; reflexivity. Qed.
