(* ===== verification/Chat.v ===== *)
(** * Chat Completions as the gateway reads them

The lenient reading of upstream chunks and usage of [src/service/responses/dto.rs] and the SSE frame
parser of [src/service/responses/stream.rs], shared by the Anthropic and the Responses converters. The
JSON parser, the JSON printer ([show], Rust's [to_string] of a value) and the lossy UTF-8 decoding are
parameters. *)

From S2P Require Import Prelude Float Json Metering Body Streams.

Local Open Scope Z_scope.

(** ** Data *)

(** The [Usage] of an upstream report. *)
Record ChatUsage : Type := {
  prompt_tokens : option Z;
  completion_tokens : option Z;
  total_tokens : option Z;
  input_tokens : option Z;
  output_tokens : option Z;
  prompt_tokens_details : option Value;
  completion_tokens_details : option Value;
  input_tokens_details : option Value;
  cache_read_input_tokens : option Z;
  cache_creation_input_tokens : option Z;
  prompt_cache_hit_tokens : option Z;
}.

Record FunctionDelta : Type := { fn_name : option string; fn_arguments : option string }.

Record ToolCallDelta : Type := {
  tc_index : option Z;
  tc_id : option string;
  tc_type : option string;
  tc_function : option FunctionDelta;
}.

Record ChatStreamDelta : Type := {
  delta_role : option string;
  delta_content : option Value;
  delta_reasoning_content : option string;
  delta_reasoning : option string;
  delta_tool_calls : list ToolCallDelta;
  delta_refusal : option string;
}.

Record ChatStreamChoice : Type := {
  choice_index : Z;
  choice_delta : ChatStreamDelta;
  choice_finish_reason : option string;
}.

Record ChatStreamChunk : Type := {
  chunk_id : string;
  chunk_model : string;
  chunk_created : option Z;
  chunk_choices : list ChatStreamChoice;
  chunk_usage : option ChatUsage;
  chunk_error : option Value;
}.

Definition empty_delta : ChatStreamDelta :=
  {| delta_role := None; delta_content := None; delta_reasoning_content := None; delta_reasoning := None;
     delta_tool_calls := []; delta_refusal := None |}.

(** ** Lenient readers *)

(** [str::parse::<i64>]: an optional sign and at least one digit, in range. *)
Fixpoint digits_value (acc : Z) (s : string) : option Z :=
  match s with
  | EmptyString => Some acc
  | String a s' =>
      if is_digit a then digits_value (10 * acc + (Z.of_nat (Ascii.nat_of_ascii a) - 48)) s' else None
  end.
Definition parse_digits (s : string) : option Z := if str_is_empty s then None else digits_value 0 s.
Definition parse_i64 (s : string) : option Z :=
  let v := match s with
           | String "-" s' => Z.opp <$> parse_digits s'
           | String "+" s' => parse_digits s'
           | _ => parse_digits s
           end in
  match v with
  | Some z => if (i64_min <=? z) && (z <=? i64_max) then Some z else None
  | None => None
  end.

Definition as_f64 (n : Number) : F64.t :=
  match n with PosInt z | NegInt z => F64.of_Z z | Float f => f end.

Definition lenient_i64 (v : Value) : option Z :=
  match v with
  | VNumber n => or_else (as_i64 v) (Some (F64.as_i64 (as_f64 n)))
  | VString s => parse_i64 (trim s)
  | _ => None
  end.

Section lenient.
Variable show : Value -> string.

Definition lenient_text (v : Value) : option string :=
  match v with
  | VString s => Some s
  | VNumber _ => Some (show v)
  | VBool b => Some (if b then "true" else "false")
  | VObject o => or_else (Map.get "text" o) (Map.get "content" o) ≫= as_str
  | _ => None
  end.

Definition from_value_lenient (v : Value) : ChatUsage :=
  let geti k := get k v ≫= lenient_i64 in
  let geto k := match get k v with Some d => if is_object d then Some d else None | None => None end in
  {| prompt_tokens := geti "prompt_tokens"; completion_tokens := geti "completion_tokens";
     total_tokens := geti "total_tokens"; input_tokens := geti "input_tokens";
     output_tokens := geti "output_tokens"; prompt_tokens_details := geto "prompt_tokens_details";
     completion_tokens_details := geto "completion_tokens_details";
     input_tokens_details := geto "input_tokens_details";
     cache_read_input_tokens := geti "cache_read_input_tokens";
     cache_creation_input_tokens := geti "cache_creation_input_tokens";
     prompt_cache_hit_tokens := geti "prompt_cache_hit_tokens" |}.

Definition not_blank (s : string) : bool := negb (str_is_empty (trim s)).

(** The first of the candidates that is not blank. *)
Definition delta_reasoning_text (d : Value) : option string :=
  let content := match get "reasoning_content" d ≫= lenient_text with
                 | Some s => if not_blank s then Some s else None
                 | None => None
                 end in
  let reasoning :=
    match get "reasoning" d with
    | None => None
    | Some v =>
        match lenient_text v with
        | Some s => if not_blank s then Some s else None
        | None =>
            match v with
            | VObject o =>
                head (List.filter not_blank
                        (omap (fun k => Map.get k o ≫= as_str) ["content"; "text"; "summary"]))
            | _ => None
            end
        end
    end in
  let details :=
    match get "reasoning_details" d with
    | Some (VString s) => if not_blank s then Some s else None
    | Some (VArray parts) =>
        match List.filter not_blank (omap (get_str "text") parts) with
        | [] => None
        | texts => Some (Body.join Body.newline texts)
        end
    | _ => None
    end in
  or_else content (or_else reasoning details).

Definition lenient_tool_call (tc : Value) : ToolCallDelta :=
  let function := or_else (get "function" tc) (get "function_call" tc) in
  let name := or_else ((function ≫= get "name") ≫= lenient_text) (get "name" tc ≫= lenient_text) in
  let arguments :=
    (fun a => match a with VString s => s | VNull => "" | other => show other end) <$>
      or_else (function ≫= get "arguments") (get "arguments" tc) in
  {| tc_index := get "index" tc ≫= lenient_i64;
     tc_id := get "id" tc ≫= lenient_text;
     tc_type := get_str "type" tc;
     tc_function :=
       match name, arguments with
       | None, None => None
       | _, _ => Some {| fn_name := name; fn_arguments := arguments |}
       end |}.

Definition chat_delta (d : Value) : ChatStreamDelta :=
  {| delta_role := get "role" d ≫= lenient_text;
     delta_content := get "content" d;
     delta_reasoning_content := delta_reasoning_text d;
     delta_reasoning := None;
     delta_tool_calls := lenient_tool_call <$> default [] (get "tool_calls" d ≫= as_array);
     delta_refusal := get "refusal" d ≫= lenient_text |}.

Definition chat_choice (c : Value) : ChatStreamChoice :=
  {| choice_index := default 0 (get "index" c ≫= lenient_i64);
     choice_delta := default empty_delta (chat_delta <$> or_else (get "delta" c) (get "message" c));
     choice_finish_reason := get "finish_reason" c ≫= lenient_text |}.

(** [ChatStreamChunk::from_json_str] on the parsed value. *)
Definition chunk_of_value (v : Value) : ChatStreamChunk :=
  {| chunk_id := default "" (get "id" v ≫= lenient_text);
     chunk_model := default "" (get "model" v ≫= lenient_text);
     chunk_created := get "created" v ≫= lenient_i64;
     chunk_choices := chat_choice <$> default [] (get "choices" v ≫= as_array);
     chunk_usage := match get "usage" v with
                    | Some u => if is_object u then Some (from_value_lenient u) else None
                    | None => None
                    end;
     chunk_error := match get "error" v with
                    | Some VNull => None
                    | e => e
                    end |}.

Definition from_json_str (parse_json : string -> option Value) (data : string) : option ChatStreamChunk :=
  chunk_of_value <$> parse_json data.

Definition text_part (p : Value) : string :=
  let ty := default "text" (get_str "type" p) in
  if bool_decide (ty ∈ ["text"; "output_text"; "input_text"; "thinking"]) then default "" (get_str "text" p)
  else "".

Definition delta_content_text (v : Value) : option string :=
  match v with
  | VNull => None
  | VString s => Some s
  | VArray parts => Some (concat_str (text_part <$> parts))
  | other => lenient_text other
  end.

End lenient.

(** ** Usage *)

Definition usage_input (u : ChatUsage) : Z := default 0 (or_else u.(prompt_tokens) u.(input_tokens)).
Definition usage_output (u : ChatUsage) : Z := default 0 (or_else u.(completion_tokens) u.(output_tokens)).
Definition usage_total (u : ChatUsage) : Z :=
  default (sat_add (usage_input u) (usage_output u)) u.(total_tokens).

Definition details_i64 (details : option Value) (key : string) : option Z := (details ≫= get key) ≫= as_i64.

Definition cached_tokens (u : ChatUsage) : Z :=
  default 0
    (or_else u.(cache_read_input_tokens)
       (or_else (details_i64 u.(input_tokens_details) "cached_tokens")
          (or_else (details_i64 u.(prompt_tokens_details) "cached_tokens") u.(prompt_cache_hit_tokens)))).

Definition cache_write_tokens (u : ChatUsage) : Z :=
  default 0
    (or_else u.(cache_creation_input_tokens)
       (or_else (details_i64 u.(input_tokens_details) "cache_write_tokens")
          (details_i64 u.(prompt_tokens_details) "cache_write_tokens"))).

(** ** Tool calls without an index *)

Definition trimmed_non_empty (s : option string) : option string :=
  match s with
  | Some s => let t := trim s in if str_is_empty t then None else Some t
  | None => None
  end.

Definition checked_succ (k : Z) : Z := if k <? i64_max then k + 1 else k.

Definition resolve_no_index_tool_key (id : option string) (key_for_id last_key max_key : option Z) : Z :=
  match trimmed_non_empty id with
  | Some _ =>
      match key_for_id with
      | Some k => k
      | None => match or_else max_key last_key with Some k => checked_succ k | None => 0 end
      end
  | None => default 0 last_key
  end.

(** ** The frame parser *)

Record SseEvent : Type := { sse_event : option string; sse_data : string }.

Section parser.
Variable from_utf8_lossy : string -> string.

(** The frame of one event: [None] when it has no data line. *)
Definition event_frame (event : string) : option (option string * string) :=
  let ls := lines (from_utf8_lossy event) in
  let data := omap (fun l => trim <$> strip_prefix "data:" l) ls in
  let names := omap (fun l => match strip_prefix "data:" l with
                              | Some _ => None
                              | None => trimmed_non_empty (strip_prefix "event:" l)
                              end) ls in
  match data with
  | [] => None
  | _ => Some (last names, Body.join Body.newline data)
  end.

Fixpoint push_loop (fuel : nat) (buf : string) (out : list SseEvent) : string * list SseEvent * bool :=
  match fuel with
  | O => (buf, out, false)
  | S fuel =>
      match find_event_end buf with
      | None => (buf, out, false)
      | Some i =>
          let buf' := str_drop i buf in
          match event_frame (str_take i buf) with
          | None => push_loop fuel buf' out
          | Some (name, data) =>
              if bool_decide (data = "[DONE]") then (buf', out, true)
              else push_loop fuel buf' (out ++ [{| sse_event := name; sse_data := data |}])
          end
      end
  end.

(** [ChatSseParser::push]: the new buffer, the frames, and whether [DONE] was met. *)
Definition push (buf chunk : string) : string * list SseEvent * bool :=
  let buf := buf +:+ chunk in
  let '(rest, out, done) := push_loop (String.length buf) buf [] in
  ((if 1000000 <? Z.of_nat (String.length rest) then "" else rest), out, done).

End parser.
