(* ===== verification/ToolMedia.v ===== *)
(** * Media in tool results

[src/service/tool_media.rs]: the recognition of media blocks of every dialect, and the split of the
output of a tool into text and media parts that a Chat tool message can carry. Parsing and printing
JSON are parameters. *)

From S2P Require Import Prelude Float Json Metering Body Streams InlineThink Chat.

(** ** Texts *)

Definition WHOLE_DATA_URL_MIN_BYTES : nat := 8 * 1024.
Definition BASE64ISH_MIN_BYTES : nat := 16 * 1024.
Definition MEDIA_MOVED_MARKER : string := "[gateway: tool result media moved to the following user message]".
Definition media_label (call_id : string) : string := "[gateway: media output of tool call " +:+ call_id +:+ "]".

Definition blank (s : string) : bool := str_is_empty (trim s).
Definition ends_with (p s : string) : bool := starts_with (string_rev p) (string_rev s).
Definition str_contains (p s : string) : bool := bool_decide (is_Some (find_sub p s)).
Definition long (n : nat) (s : string) : bool := bool_decide (n <= String.length s)%nat.

Definition image_url (fields : list (string * Value)) : Value :=
  json_object [("type", VString "image_url"); ("image_url", VObject fields)].

Definition whole_string_image_data_url_to_part (text : string) : option Value :=
  let trimmed := trim text in
  if negb (long WHOLE_DATA_URL_MIN_BYTES trimmed) then None
  else
    comma ← find_sub "," trimmed;
    let header := to_ascii_lowercase (str_take comma trimmed) in
    if starts_with "data:image/" header && ends_with ";base64" header then
      Some (image_url (Map.of_list [("url", VString trimmed)]))
    else None.

Definition base64_char (a : Ascii.ascii) : bool :=
  let n := Ascii.nat_of_ascii a in
  ((97 <=? n)%nat && (n <=? 122)%nat) || ((65 <=? n)%nat && (n <=? 90)%nat) ||
  ((48 <=? n)%nat && (n <=? 57)%nat) || (n =? 43)%nat || (n =? 47)%nat || (n =? 61)%nat.
Definition looks_like_base64_payload (v : string) : bool := long BASE64ISH_MIN_BYTES v && str_all base64_char v.

Definition clamp_base64ish (text : string) : string :=
  let trimmed := trim text in
  if looks_like_base64_payload trimmed ||
     (starts_with "data:" trimmed && long BASE64ISH_MIN_BYTES trimmed && str_contains ";base64," trimmed)
  then "[gateway: " +:+ pretty (N.of_nat (String.length trimmed)) +:+ " bytes of base64 media payload omitted]"
  else text.

Definition with_moved_marker (text : string) : string :=
  if blank text then MEDIA_MOVED_MARKER else text +:+ newline +:+ MEDIA_MOVED_MARKER.

(** ** Recognition *)

Abbreviation object := (list (string * Value)).
Definition get_s (k : string) (obj : object) : option string := Map.get k obj ≫= as_str.

(** The entries of [ks] that the object has. *)
Definition copy_fields (ks : list string) (from : object) (init : object) : object :=
  foldl (fun m k => match Map.get k from with Some v => Map.insert k v m | None => m end) init ks.

Definition image_like_part (obj : object) (ks : list string) : option Value :=
  let m :=
    match Map.get "image_url" obj with
    | Some (VString s) => if blank s then [] else [("url", VString s)]
    | Some (VObject m) => copy_fields ["url"; "detail"] m []
    | _ => []
    end in
  let m :=
    match Map.get "url" m with
    | Some _ => m
    | None =>
        match head (omap (fun k => match get_s k obj with
                                   | Some s => if blank s then None else Some s
                                   | None => None
                                   end) ks) with
        | Some s => Map.insert "url" (VString s) m
        | None => m
        end
    end in
  match get_s "url" m with
  | Some url => if blank url then None else Some (image_url m)
  | None => None
  end.

Definition data_url (mime data : string) : string :=
  if starts_with "data:" data then data else "data:" +:+ mime +:+ ";base64," +:+ data.

Definition anthropic_image_part (obj : object) : option Value :=
  let detail := copy_fields ["detail"] obj [] in
  match Map.get "source" obj ≫= as_object with
  | Some source =>
      let mime := default "image/png" (or_else (Map.get "media_type" source) (Map.get "mime_type" source) ≫= as_str) in
      if bool_decide (get_s "type" source = Some "base64") then
        let data := default "" (get_s "data" source) in
        if str_is_empty data then None
        else Some (image_url (Map.insert "url" (VString (data_url mime data)) detail))
      else if bool_decide (get_s "type" source = Some "url") then
        let url := default "" (get_s "url" source) in
        if blank url then None else Some (image_url (Map.insert "url" (VString url) detail))
      else None
  | None =>
      let mime := default "image/png" (or_else (Map.get "mimeType" obj) (Map.get "mime_type" obj) ≫= as_str) in
      let data := default "" (get_s "data" obj) in
      if str_is_empty data then None
      else Some (image_url (Map.insert "url" (VString (data_url mime data)) detail))
  end.

Definition file_json (fields : object) : Value := json_object [("type", VString "file"); ("file", VObject fields)].

Definition not_blank_str (o : option string) : bool := match o with Some s => negb (blank s) | None => false end.

Definition file_part (obj : object) : option Value :=
  match Map.get "file" obj ≫= as_object with
  | Some file =>
      if Map.contains "file_id" file || Map.contains "file_data" file then Some (file_json file) else None
  | None =>
      if negb (not_blank_str (get_s "file_id" obj)) && negb (not_blank_str (get_s "file_data" obj)) then None
      else Some (file_json (copy_fields ["file_id"; "file_data"; "filename"] obj []))
  end.

Definition base64_source (obj : object) : option (object * string) :=
  source ← (Map.get "source" obj ≫= as_object);
  if negb (bool_decide (get_s "type" source = Some "base64")) then None
  else
    let data := default "" (get_s "data" source) in
    if str_is_empty data then None else Some (source, data).

Definition document_part (obj : object) : option Value :=
  '(source, data) ← base64_source obj;
  let media_type := default "application/pdf" (get_s "media_type" source) in
  Some (file_json (Map.of_list
    [("filename", VString (default "document" (get_s "filename" obj)));
     ("file_data", VString ("data:" +:+ media_type +:+ ";base64," +:+ data))])).

(** The text before the first occurrence of a separator. *)
Definition before (sep s : string) : string := match find_sub sep s with Some i => str_take i s | None => s end.

Definition audio_format (raw : string) : string :=
  let base := trim (before ";" (to_ascii_lowercase raw)) in
  default base (strip_prefix "audio/" base).

Definition anthropic_audio_part (obj : object) : option Value :=
  '(source, data) ← base64_source obj;
  let mime := or_else (or_else (Map.get "media_type" source) (Map.get "mime_type" source) ≫= as_str)
                (get_s "mimeType" obj) in
  Some (json_object [("type", VString "input_audio");
    ("input_audio", json_object [("data", VString data);
                                 ("format", VString (default "wav" (audio_format <$> mime)))])]).

Definition loose_data_url_part (obj : object) : option Value :=
  url ← get_s "url" obj;
  let trimmed := trim url in
  if long WHOLE_DATA_URL_MIN_BYTES trimmed && starts_with "data:" trimmed then
    Some (image_url (Map.of_list [("url", VString trimmed)]))
  else None.

Definition part_payload (obj : object) (key : string) : Value :=
  default (VObject (Map.remove "type" obj)) (Map.get key obj).

Definition chat_media_part (block : Value) : option Value :=
  obj ← as_object block;
  let ty := trim (default "" (get_s "type" obj)) in
  if bool_decide (ty ∈ ["input_image"; "image_url"]) then image_like_part obj ["image_url"; "url"; "file_id"]
  else if bool_decide (ty = "image") then anthropic_image_part obj
  else if bool_decide (ty ∈ ["input_file"; "file"]) then file_part obj
  else if bool_decide (ty = "document") then document_part obj
  else if bool_decide (ty = "input_audio") then
    Some (json_object [("type", VString "input_audio"); ("input_audio", part_payload obj "input_audio")])
  else if bool_decide (ty = "audio") then anthropic_audio_part obj
  else loose_data_url_part obj.

(** ** Extraction *)

Record ToolMediaSplit : Type := { text : string; media : list Value }.

Definition is_text_block (item : Value) : bool :=
  match item with
  | VObject o => bool_decide (get_s "type" o ∈ [Some "text"; Some "output_text"; Some "input_text"])
  | _ => false
  end.

Section split.
Context (show : Value -> string) (parse_json : string -> option Value).

Definition canonical_json_string (v : Value) : string := show (canonical_value v).

(** What is collected on the way: the media parts and the texts. *)
Abbreviation acc := (list Value * list string)%type.

Definition push_media (p : Value) (a : acc) : acc := (a.1 ++ [p], a.2).
Definition push_text (t : string) (a : acc) : acc := (a.1, a.2 ++ [t]).
Definition more_media (a a' : acc) : bool := bool_decide (length a.1 < length a'.1)%nat.

Section array.
Variable strip : Value -> acc -> acc * string.

Fixpoint strip_items (items : list Value) (a : acc) : acc * list string :=
  match items with
  | [] => (a, [])
  | item :: items =>
      match chat_media_part item with
      | Some p => strip_items items (push_media p a)
      | None =>
          if is_text_block item then
            let t := default "" (get_str "text" item) in
            if blank t then strip_items items a
            else let '(a, ps) := strip_items items (push_text t a) in (a, t :: ps)
          else
            let '(a, r) := strip item a in
            let '(a, ps) := strip_items items a in (a, r :: ps)
      end
  end.
End array.

(** [strip_at_depth]; the fuel is [MAX_DEPTH + 1 - depth]. *)
Fixpoint strip_at_depth (fuel : nat) (v : Value) (a : acc) {struct fuel} : acc * string :=
  match fuel with
  | O => (a, "")
  | S fuel =>
      match v with
      | VString s =>
          match whole_string_image_data_url_to_part s with
          | Some p => (push_media p a, "")
          | None =>
              let plain := (push_text s a, s) in
              match parse_json (trim s) with
              | Some parsed =>
                  if is_object parsed || is_array parsed then
                    let '(a', inner) := strip_at_depth fuel parsed a in
                    (a', if more_media a a' then inner else s)
                  else plain
              | None => plain
              end
          end
      | VArray items =>
          let '(a', parts) := strip_items (strip_at_depth fuel) items a in
          let non_empty := List.filter (fun p => negb (blank p)) parts in
          (a', if bool_decide (non_empty = []) && bool_decide (a'.1 = []) then "" else join newline non_empty)
      | VObject _ =>
          match chat_media_part v with
          | Some p => (push_media p a, "")
          | None =>
              match get "content" v with
              | Some inner =>
                  if is_array inner || (match inner with VString _ => true | _ => false end) then
                    let '(a', repr) := strip_at_depth fuel inner a in
                    (a', if more_media a a' then repr else canonical_json_string v)
                  else (a, canonical_json_string v)
              | None => (a, canonical_json_string v)
              end
          end
      | VNull => (a, "")
      | other => (a, show other)
      end
  end.

Definition MAX_DEPTH : nat := 32.

Definition split_tool_output (output : Value) : ToolMediaSplit :=
  let '((m, texts), t) := strip_at_depth (S MAX_DEPTH) output ([], []) in
  if bool_decide (m = []) then {| text := t; media := m |}
  else {| text := with_moved_marker (join newline (clamp_base64ish <$> texts)); media := m |}.

End split.

(** ** What the split keeps *)

(** A Chat media part: its kind, and the address of an image. *)
Definition media_shape (p : Value) : Prop :=
  match get_str "type" p with
  | Some t =>
      (t = "image_url" /\ exists m u, get "image_url" p = Some (VObject m) /\ get_s "url" m = Some u /\ u <> "") \/
      t = "file" \/ t = "input_audio"
  | None => False
  end.

Lemma shape_image m u : get_s "url" m = Some u -> u <> "" -> media_shape (image_url m).
Proof. intros H1 H2. left. eauto 7. Qed.
Lemma shape_image_insert m u : u <> "" -> media_shape (image_url (Map.insert "url" (VString u) m)).
Proof. intros H. eapply shape_image; [|exact H]. unfold get_s. by rewrite Map.get_insert_eq. Qed.
Lemma shape_file m : media_shape (file_json m).
Proof. right. by left. Qed.

Lemma blank_empty s : blank s = false -> s <> "".
Proof. by intros H ->. Qed.
Lemma empty_false s : str_is_empty s = false -> s <> "".
Proof. unfold str_is_empty. by case_bool_decide. Qed.
Lemma data_url_not_empty mime d : d <> "" -> data_url mime d <> "".
Proof. intros H. unfold data_url. by destruct (starts_with _ _). Qed.
Lemma long_not_empty s : long WHOLE_DATA_URL_MIN_BYTES s = true -> s <> "".
Proof. by intros H ->. Qed.

Lemma image_like_shape obj ks p : image_like_part obj ks = Some p -> media_shape p.
Proof.
  unfold image_like_part. cbv zeta. match goal with |- context [get_s "url" ?m] => set (m' := m) end.
  destruct (get_s "url" m') as [u|] eqn:E; [|done]. destruct (blank u) eqn:Eb; [done|]. intros [= <-].
  eapply shape_image; [exact E|]. by apply blank_empty.
Qed.
Lemma anthropic_image_shape obj p : anthropic_image_part obj = Some p -> media_shape p.
Proof.
  unfold anthropic_image_part. cbv zeta. destruct (Map.get "source" obj ≫= as_object) as [src|].
  - case_bool_decide; [|case_bool_decide; [|done]].
    + destruct (str_is_empty _) eqn:E; [done|]. intros [= <-]. apply shape_image_insert.
      by apply data_url_not_empty, empty_false.
    + destruct (blank _) eqn:E; [done|]. intros [= <-]. apply shape_image_insert. by apply blank_empty.
  - destruct (str_is_empty _) eqn:E; [done|]. intros [= <-]. apply shape_image_insert.
    by apply data_url_not_empty, empty_false.
Qed.
Lemma file_shape obj p : file_part obj = Some p -> media_shape p.
Proof.
  unfold file_part. destruct (_ ≫= _); destruct (_ : bool); try done; intros [= <-]; apply shape_file.
Qed.

Lemma media_part_shape b p : chat_media_part b = Some p -> media_shape p.
Proof.
  unfold chat_media_part. destruct (as_object b) as [obj|]; cbn [mbind option_bind]; [|done]. cbv zeta.
  repeat case_bool_decide.
  - apply image_like_shape.
  - apply anthropic_image_shape.
  - apply file_shape.
  - unfold document_part. destruct (base64_source obj) as [[src d]|]; [|done]. cbn [mbind option_bind].
    intros [= <-]. apply shape_file.
  - intros [= <-]. right. by right.
  - unfold anthropic_audio_part. destruct (base64_source obj) as [[src d]|]; [|done]. cbn [mbind option_bind].
    intros [= <-]. right. by right.
  - unfold loose_data_url_part. destruct (get_s "url" obj) as [u|]; [|done]. cbn [mbind option_bind].
    destruct (_ && _) eqn:E; [|done]. intros [= <-]. apply andb_prop in E as [E _].
    eapply shape_image; [reflexivity|]. by apply long_not_empty.
Qed.

(** The texts of a content list: those of its text blocks that are not blank. *)
Definition block_text (item : Value) : option string :=
  match chat_media_part item with
  | Some _ => None
  | None => let t := default "" (get_str "text" item) in if is_text_block item && negb (blank t) then Some t else None
  end.
Definition simple_block (item : Value) : Prop := is_Some (chat_media_part item) \/ is_text_block item = true.

Lemma strip_items_simple strip items a :
  Forall simple_block items ->
  strip_items strip items a =
  ((a.1 ++ omap chat_media_part items, a.2 ++ omap block_text items), omap block_text items).
Proof.
  intros H. revert a. induction H as [|item items Hi H IH]; intros [m t]; cbn [strip_items].
  - cbn. by rewrite !app_nil_r.
  - assert (Ho : forall (f : Value -> option string), omap f (item :: items) =
      match f item with Some x => x :: omap f items | None => omap f items end) by done.
    assert (Hv : omap chat_media_part (item :: items) =
      match chat_media_part item with Some x => x :: omap chat_media_part items | None => omap chat_media_part items end)
      by done.
    assert (Hb : block_text item = match chat_media_part item with
      | Some _ => None
      | None => let t := default "" (get_str "text" item) in if is_text_block item && negb (blank t) then Some t else None
      end) by done.
    rewrite Ho, Hv, Hb. clear Ho Hv Hb. destruct (chat_media_part item) as [p|] eqn:E.
    + rewrite IH. unfold push_media. cbn [fst snd]. by rewrite <-app_assoc.
    + destruct Hi as [[? Hi]|Hi]; [congruence|]. rewrite Hi. cbn [andb].
      destruct (blank _) eqn:Eb; cbn [negb]; rewrite IH; unfold push_text; cbn [fst snd]; [done|].
      by rewrite <-app_assoc.
Qed.

Lemma block_texts_not_blank items : List.filter (fun p => negb (blank p)) (omap block_text items) = omap block_text items.
Proof.
  apply filter_id, Forall_forall. intros t Hin. apply list_elem_of_omap in Hin as (i & _ & Hi).
  unfold block_text in Hi. destruct (chat_media_part i); [done|]. destruct (_ && _) eqn:E; [|done].
  injection Hi as <-. by apply andb_prop in E as [_ E].
Qed.

Section steps.
Context (show : Value -> string) (parse_json : string -> option Value) (fuel : nat).

Lemma strip_array items a :
  strip_at_depth show parse_json (S fuel) (VArray items) a =
  let '(a', parts) := strip_items (strip_at_depth show parse_json fuel) items a in
  let non_empty := List.filter (fun p => negb (blank p)) parts in
  (a', if bool_decide (non_empty = []) && bool_decide (a'.1 = []) then "" else join newline non_empty).
Proof. done. Qed.

Lemma strip_string s a :
  strip_at_depth show parse_json (S fuel) (VString s) a =
  match whole_string_image_data_url_to_part s with
  | Some p => (push_media p a, "")
  | None =>
      match parse_json (trim s) with
      | Some parsed =>
          if is_object parsed || is_array parsed then
            let '(a', inner) := strip_at_depth show parse_json fuel parsed a in
            (a', if more_media a a' then inner else s)
          else (push_text s a, s)
      | None => (push_text s a, s)
      end
  end.
Proof. done. Qed.
End steps.

(** The output of a tool is split without loss. Of a list of text and media blocks, in any order
    and of any dialect, the media become Chat media parts in their order and the texts that are not
    blank the text, one per line in their order; with media only a payload of encoded bytes is
    shortened, and the text ends with the marker that says media was moved. A string that holds no
    media is passed on as it is. *)
Theorem tool_output_split show parse_json :
  (forall items, Forall simple_block items ->
     let ts := omap block_text items in
     split_tool_output show parse_json (VArray items) =
       if bool_decide (omap chat_media_part items = []) then {| text := join newline ts; media := [] |}
       else {| text := with_moved_marker (join newline (clamp_base64ish <$> ts));
               media := omap chat_media_part items |}) /\
  (forall s, (split_tool_output show parse_json (VString s)).(media) = [] ->
     (split_tool_output show parse_json (VString s)).(text) = s) /\
  (forall b p, chat_media_part b = Some p -> media_shape p).
Proof.
  split_and!; [|intros s|apply media_part_shape].
  - intros items H ts. unfold split_tool_output. rewrite strip_array, (strip_items_simple _ _ _ H).
    cbn [fst snd app]. rewrite block_texts_not_blank. fold ts.
    case_bool_decide as E; [|done]. rewrite E. destruct ts; [done|]. by rewrite bool_decide_false.
  - unfold split_tool_output. rewrite strip_string. generalize MAX_DEPTH. intros d.
    destruct (whole_string_image_data_url_to_part s); [done|].
    destruct (parse_json (trim s)) as [v|]; [|done]. destruct (_ || _); [|done].
    destruct (strip_at_depth show parse_json d v ([], [])) as [[m ts] r].
    case_bool_decide as E; [subst m|done]. intros _. done.
Qed.

Definition unknown_block : Value := json_object [("type", VString "search_result"); ("title", VString "t")].
Definition image_block : Value :=
  json_object [("type", VString "image"); ("data", VString "aGk=")].

(** A block of an unknown kind is kept as JSON text, but not when the same output holds media: then it
    is lost. *)
Theorem unknown_block_lost_with_media :
  let split items := split_tool_output (fun _ => "{json}") (fun _ => None) (VArray items) in
  (split [unknown_block]).(text) = "{json}" /\
  (split [unknown_block; image_block]).(text) = MEDIA_MOVED_MARKER.
Proof. split; vm_compute; reflexivity. Qed.
