(* ===== verification/AnthropicResponse.v ===== *)
(** * Chat responses as Anthropic messages

[src/service/anthropic/convert_resp.rs]: a complete Chat Completions response is converted to an
Anthropic message: reasoning, text, refusal and tool calls become content blocks, the finish reason a
stop reason, the usage its three Anthropic buckets. The JSON parser is a parameter. *)

From S2P Require Import Prelude Float Json Metering Body Streams InlineThink Chat.

Local Open Scope Z_scope.

(** One step of [Value::pointer], for the tokens the code uses: the only number among them is 0. *)
Definition pointer_step (tok : string) (v : Value) : option Value :=
  match v with
  | VObject m => Map.get tok m
  | VArray l => if bool_decide (tok = "0") then head l else None
  | _ => None
  end.
Fixpoint pointer (path : list string) (v : Value) : option Value :=
  match path with
  | [] => Some v
  | tok :: path => pointer_step tok v ≫= pointer path
  end.
Definition pointer_str (path : list string) (v : Value) : option string := pointer path v ≫= as_str.

Definition stop_reason_from_finish (finish_reason : string) (has_tool_use : bool) : string :=
  let by_tool := if has_tool_use then "tool_use" else "end_turn" in
  let fr := trim finish_reason in
  if bool_decide (fr = "stop") then by_tool
  else if bool_decide (fr ∈ ["length"; "max_tokens"; "token_limit"]) then "max_tokens"
  else if bool_decide (fr ∈ ["tool_calls"; "function_call"]) then by_tool
  else if bool_decide (fr = "content_filter") then "end_turn"
  else if negb (str_is_empty fr) then "end_turn"
  else by_tool.

(** The three buckets as numbers: fresh input, output, cache writes, cache reads. *)
Record Buckets : Type := {
  b_input : Z;
  b_output : Z;
  b_creation : Z;
  b_read : Z;
}.

Definition buckets (u : ChatUsage) : Buckets :=
  {| b_input := sat_sub (sat_sub (usage_input u) (cached_tokens u)) (cache_write_tokens u);
     b_output := usage_output u; b_creation := cache_write_tokens u; b_read := cached_tokens u |}.

Definition zero_buckets : Buckets := {| b_input := 0; b_output := 0; b_creation := 0; b_read := 0 |}.

Definition buckets_json (b : Buckets) : Value :=
  json_object [("input_tokens", of_int b.(b_input)); ("output_tokens", of_int b.(b_output));
               ("cache_creation_input_tokens", of_int b.(b_creation));
               ("cache_read_input_tokens", of_int b.(b_read))].

Definition anthropic_usage (u : ChatUsage) : Value := buckets_json (buckets u).
Definition zero_usage : Value := buckets_json zero_buckets.

Definition extract_reasoning (message : Value) : string :=
  match or_else (get_str "reasoning_content" message) (get_str "reasoning" message) with
  | Some r => r
  | None =>
      match get "reasoning_details" message ≫= as_array with
      | Some parts => join newline (omap (get_str "text") parts)
      | None => ""
      end
  end.

Definition is_text_part (p : Value) : bool :=
  bool_decide (get_str "type" p = Some "text") || bool_decide (get_str "type" p = Some "output_text").

Definition part_refusal (p : Value) : option string :=
  if bool_decide (get_str "type" p = Some "refusal") then
    or_else (get "refusal" p) (get "text" p) ≫= as_str
  else None.

Definition extract_text_and_refusal (message : Value) : string * option string :=
  let '(text, part_refusals) :=
    match get "content" message with
    | Some (VString s) => (s, [])
    | Some (VArray parts) =>
        (concat_str ((fun p => default "" (get_str "text" p)) <$> List.filter is_text_part parts),
         omap part_refusal parts)
    | _ => ("", [])
    end in
  let msg_refusal := get_str "refusal" message in
  (text,
   match part_refusals, msg_refusal with
   | [], m => m
   | l, Some m => Some (join newline l +:+ newline +:+ m)
   | l, None => Some (join newline l)
   end).

Section response.
Variable parse_json : string -> option Value.

Definition parse_input (args : string) : Value :=
  match parse_json args with
  | Some v => if is_object v then v else json_object []
  | None => json_object []
  end.

Definition tool_use (id name : string) (input : Value) : Value :=
  json_object [("type", VString "tool_use"); ("id", VString id); ("name", VString name); ("input", input)].

Definition or_if_empty (s d : string) : string := if str_is_empty s then d else s.

Definition chat_tool_call_to_tool_use (tc : Value) (index : nat) : option Value :=
  let id_raw := trim (default "" (get_str "id" tc)) in
  let name_raw := trim (default "" (pointer_str ["function"; "name"] tc)) in
  let args_raw := trim (default "" (pointer_str ["function"; "arguments"] tc)) in
  if str_is_empty id_raw && str_is_empty name_raw && str_is_empty args_raw then None
  else Some (tool_use (or_if_empty id_raw ("tool_call_" +:+ pretty (Z.of_nat index)))
               (or_if_empty name_raw "unknown_tool") (parse_input args_raw)).

Definition legacy_function_call_to_tool_use (fc : Value) (message_id : string) : option Value :=
  let arguments := get "arguments" fc in
  let name := get_str "name" fc in
  if negb (bool_decide (is_Some arguments)) && str_is_empty (trim (default "" name)) then None
  else
    let input :=
      match arguments with
      | Some (VString s) => parse_input s
      | Some (VObject o) => VObject o
      | Some (VArray l) => VArray l
      | _ => json_object []
      end in
    Some (tool_use (default (message_id +:+ "_function_call") (trimmed_non_empty (get_str "id" fc)))
            (default "unknown_tool" (trimmed_non_empty name)) input).

Definition text_block (t : string) : Value := json_object [("type", VString "text"); ("text", VString t)].
Definition thinking_block (t : string) : Value :=
  json_object [("type", VString "thinking"); ("thinking", VString t)].

Definition text_blocks (message : Value) : list Value :=
  let '(text, refusal) := extract_text_and_refusal message in
  let '(reasoning, text) :=
    match split_leading_think text with
    | Some (think, rest) =>
        let r := extract_reasoning message in
        ((if str_is_empty r then think else r +:+ newline +:+ think), trim rest)
    | None => (extract_reasoning message, text)
    end in
  (if str_is_empty reasoning then [] else [thinking_block reasoning]) ++
  (if str_is_empty text then [] else [text_block text]) ++
  match refusal with
  | Some r => if str_is_empty (trim r) then [] else [text_block r]
  | None => []
  end.

(** The tool blocks, and how many calls were dropped. *)
Definition tool_blocks (message : Value) : list Value * nat :=
  let calls := default [] (get "tool_calls" message ≫= as_array) in
  let blocks := imap (fun i tc => chat_tool_call_to_tool_use tc i) calls in
  (omap (fun b => b) blocks, (length calls - length (omap (fun b => b) blocks))%nat).

Definition chat_response_to_anthropic (resp : Value) (id : string) : result Value string :=
  let model := default "" (get_str "model" resp) in
  match pointer ["choices"; "0"; "message"] resp with
  | None => Err "no message in first choice"
  | Some message =>
      let '(tools, dropped) := tool_blocks message in
      let legacy := match tools with
                    | [] => match get "function_call" message ≫= (fun fc => legacy_function_call_to_tool_use fc id) with
                            | Some b => [b]
                            | None => []
                            end
                    | _ => []
                    end in
      let content := text_blocks message ++ tools ++ legacy in
      if (0 <? dropped)%nat && bool_decide (content = []) then
        Err "upstream returned tool_calls without function name and no other output"
      else
        let has_tool_use := negb (bool_decide (tools ++ legacy = [])) in
        let finish := default "" (pointer_str ["choices"; "0"; "finish_reason"] resp) in
        let usage := match get "usage" resp with
                     | Some u => if is_object u then anthropic_usage (from_value_lenient u) else zero_usage
                     | None => zero_usage
                     end in
        Ok (json_object
              [("id", VString id); ("type", VString "message"); ("role", VString "assistant");
               ("model", VString model); ("content", VArray content);
               ("stop_reason", VString (stop_reason_from_finish finish has_tool_use));
               ("stop_sequence", VNull); ("usage", usage)])
  end.

End response.

(** ** Properties *)

Definition block_type (b : Value) : option string := get_str "type" b.

(** The content blocks Anthropic clients accept; a tool block has a name, an id and an input. *)
Definition good_block (b : Value) : Prop :=
  (exists t, b = thinking_block t /\ t <> "") \/ (exists t, b = text_block t /\ t <> "") \/
  (exists id name input, b = tool_use id name input /\ id <> "" /\ name <> "").

Definition is_tool_use (b : Value) : bool := bool_decide (block_type b = Some "tool_use").

Lemma trimmed_non_empty_spec s t : trimmed_non_empty s = Some t -> t <> "".
Proof.
  unfold trimmed_non_empty, str_is_empty. destruct s as [s|]; [|done]. case_bool_decide; [done|]. by intros [= <-].
Qed.

Lemma or_if_empty_ne s d : d <> "" -> or_if_empty s d <> "".
Proof. unfold or_if_empty, str_is_empty. by case_bool_decide. Qed.

Lemma tool_call_block parse tc i b :
  chat_tool_call_to_tool_use parse tc i = Some b -> good_block b /\ is_tool_use b = true.
Proof.
  unfold chat_tool_call_to_tool_use. destruct (_ && _ && _); [done|]. intros [= <-]. split; [|reflexivity].
  right; right. do 3 eexists. split; [reflexivity|]. split; by apply or_if_empty_ne.
Qed.

Lemma legacy_block parse fc id b :
  legacy_function_call_to_tool_use parse fc id = Some b -> good_block b /\ is_tool_use b = true.
Proof.
  unfold legacy_function_call_to_tool_use. destruct (negb _ && _); [done|]. intros [= <-].
  split; [|reflexivity]. right; right. do 3 eexists. split; [reflexivity|].
  split; destruct (trimmed_non_empty _) as [t|] eqn:E; cbn; try done.
  - by apply trimmed_non_empty_spec in E.
  - destruct id; done.
  - by apply trimmed_non_empty_spec in E.
Qed.

Lemma opt_block_good (t : string) (mk : string -> Value) b :
  (forall t, t <> "" -> good_block (mk t) /\ is_tool_use (mk t) = false) ->
  b ∈ (if str_is_empty t then [] else [mk t]) -> good_block b /\ is_tool_use b = false.
Proof.
  intros H. unfold str_is_empty. case_bool_decide as E; [by intros ?%elem_of_nil|].
  intros ->%list_elem_of_singleton. by apply H.
Qed.

Lemma text_blocks_good message b : b ∈ text_blocks message -> good_block b /\ is_tool_use b = false.
Proof.
  assert (forall t, t <> "" -> good_block (text_block t) /\ is_tool_use (text_block t) = false) as Ht.
  { intros t H. split; [right; left; by exists t|reflexivity]. }
  assert (forall t, t <> "" -> good_block (thinking_block t) /\ is_tool_use (thinking_block t) = false) as Hk.
  { intros t H. split; [left; by exists t|reflexivity]. }
  unfold text_blocks. destruct (extract_text_and_refusal message) as [text refusal].
  destruct (match split_leading_think text with Some _ => _ | None => _ end) as [r t].
  rewrite !elem_of_app. intros [H|[H|H]]; [by apply (opt_block_good r thinking_block)
                                          |by apply (opt_block_good t text_block)|].
  destruct refusal as [x|]; [|by apply elem_of_nil in H]. unfold str_is_empty in H.
  case_bool_decide as E; [by apply elem_of_nil in H|]. apply list_elem_of_singleton in H as ->.
  apply Ht. intros ->. by apply E.
Qed.

Lemma tool_blocks_good parse message b :
  b ∈ (tool_blocks parse message).1 -> good_block b /\ is_tool_use b = true.
Proof.
  unfold tool_blocks. cbn. rewrite list_elem_of_omap. intros (o & Ho & ->).
  apply elem_of_lookup_imap in Ho as (i & tc & Ho & _). symmetry in Ho. by eapply tool_call_block.
Qed.

(** The finish reasons whose mapping looks at the tool calls. *)
Definition regular_finish (fr : string) : bool :=
  bool_decide (trim fr ∈ ["stop"; "tool_calls"; "function_call"; ""]).

Lemma stop_reason_tool fr h : stop_reason_from_finish fr h = "tool_use" -> h = true.
Proof. unfold stop_reason_from_finish. destruct h; [done|]. by repeat case_match. Qed.

Lemma stop_reason_regular fr h :
  regular_finish fr = true -> stop_reason_from_finish fr h = if h then "tool_use" else "end_turn".
Proof.
  unfold regular_finish, stop_reason_from_finish, str_is_empty. intros H%bool_decide_eq_true.
  repeat (apply elem_of_cons in H as [->|H]); [by destruct h..|]. by apply elem_of_nil in H.
Qed.

(** A converted response is a message an Anthropic client can act on. A response without a message
    and one whose only output is unusable tool calls are refused; every other one yields content blocks
    that are complete (no empty text, every tool call with an id and a name), a stop reason that says
    [tool_use] only when there is a tool block, and, for the regular finish reasons, exactly then; and
    an empty content only when no tool call was dropped. *)
Theorem response_contract parse resp id :
  match chat_response_to_anthropic parse resp id with
  | Err _ =>
      pointer ["choices"; "0"; "message"] resp = None \/
      exists m, pointer ["choices"; "0"; "message"] resp = Some m /\ text_blocks m = [] /\
        (tool_blocks parse m).1 = [] /\ (0 < (tool_blocks parse m).2)%nat
  | Ok out =>
      exists content reason m,
        get "content" out = Some (VArray content) /\ get_str "stop_reason" out = Some reason /\
        pointer ["choices"; "0"; "message"] resp = Some m /\
        Forall good_block content /\
        (reason = "tool_use" -> existsb is_tool_use content = true) /\
        (regular_finish (default "" (pointer_str ["choices"; "0"; "finish_reason"] resp)) = true ->
           existsb is_tool_use content = true -> reason = "tool_use") /\
        (content = [] -> (tool_blocks parse m).2 = 0%nat)
  end.
Proof.
  unfold chat_response_to_anthropic. destruct (pointer _ resp) as [m|]; [|by left].
  pose proof (tool_blocks_good parse m) as Ht. pose proof (text_blocks_good m) as Hx.
  destruct (tool_blocks parse m) as [tools dropped] eqn:Et. cbn [fst snd] in *.
  set (legacy := match tools with [] => _ | _ => _ end).
  assert (forall b, b ∈ legacy -> good_block b /\ is_tool_use b = true) as Hl.
  { intros b. unfold legacy. destruct tools; [|by intros ?%elem_of_nil].
    destruct (get "function_call" m) as [fc|]; cbn; [|by intros ?%elem_of_nil].
    destruct (legacy_function_call_to_tool_use parse fc id) as [b'|] eqn:E; [|by intros ?%elem_of_nil].
    intros ->%list_elem_of_singleton. by eapply legacy_block. }
  assert (existsb is_tool_use (text_blocks m ++ tools ++ legacy) = negb (bool_decide (tools ++ legacy = []))) as He.
  { rewrite !existsb_app. assert (existsb is_tool_use (text_blocks m) = false) as ->.
    { apply not_true_iff_false. intros (b & Hb & Hu)%existsb_exists.
      apply list_elem_of_In, Hx in Hb as [_ Hb]. congruence. }
    destruct tools as [|b tools]; cbn.
    - destruct legacy as [|b l]; [done|]. cbn. by rewrite (proj2 (Hl b ltac:(left))).
    - by rewrite (proj2 (Ht b ltac:(left))). }
  destruct ((0 <? dropped)%nat && bool_decide (_ = [])) eqn:Ed.
  - right. apply andb_true_iff in Ed as [Hd Hc%bool_decide_eq_true]. apply Nat.ltb_lt in Hd.
    apply app_nil in Hc as [Hc1 [Hc2 _]%app_nil]. exists m. rewrite Et. done.
  - eexists _, _, m. split; [reflexivity|]. split; [reflexivity|]. split; [done|]. rewrite He. split_and!.
    + apply Forall_forall. intros b. rewrite !elem_of_app. intros [H|[H|H]]; [by apply Hx|by apply Ht|by apply Hl].
    + apply stop_reason_tool.
    + intros Hr Hb. rewrite stop_reason_regular by done. by rewrite Hb.
    + intros Hc. rewrite Et. cbn. rewrite Hc in Ed. rewrite bool_decide_true, andb_true_r in Ed by done.
      apply Nat.ltb_ge in Ed. lia.
Qed.

(** The non-streaming conversion reports [end_turn] for an unknown finish reason although the message
    carries a tool call. *)
Theorem unknown_finish_hides_tool_use :
  let call := json_object [("id", VString "c1"); ("function", json_object [("name", VString "f")])] in
  let resp := json_object
    [("choices", VArray [json_object [("finish_reason", VString "eos");
                                      ("message", json_object [("tool_calls", VArray [call])])]])] in
  match chat_response_to_anthropic (fun _ => None) resp "msg_1" with
  | Ok out =>
      get "content" out = Some (VArray [tool_use "c1" "f" (json_object [])]) /\
      get_str "stop_reason" out = Some "end_turn"
  | Err _ => False
  end.
Proof. vm_compute. done. Qed.

(** The bucket usage as a native Anthropic upstream would have reported it. *)
Definition native_report (b : Buckets) : Usage :=
  {| Metering.prompt_tokens := None; Metering.completion_tokens := None;
     Metering.input_tokens := Some b.(b_input); Metering.output_tokens := Some b.(b_output);
     Metering.cache_read_tokens := Some b.(b_read); Metering.cache_write_tokens := Some b.(b_creation) |}.

(** The three usage buckets lose no token. For cache counts that are not negative, the fresh input
    plus both cache buckets is the input of the upstream's report, and reading the buckets back the
    way a native Anthropic report is accounted for gives that input and output again. The fresh
    bucket is not negative exactly when the cache counts do not exceed the input. *)
Theorem usage_buckets_roundtrip u :
  in_i64 (usage_input u) -> 0 <= cached_tokens u -> 0 <= cache_write_tokens u ->
  cached_tokens u + cache_write_tokens u <= i64_max ->
  i64_min <= usage_input u - cached_tokens u - cache_write_tokens u ->
  let b := buckets u in
  b.(b_input) + b.(b_read) + b.(b_creation) = usage_input u /\
  (0 <= b.(b_input) <-> cached_tokens u + cache_write_tokens u <= usage_input u) /\
  Metering.input (fold_anthropic_input (native_report b)) = usage_input u /\
  Metering.output (fold_anthropic_input (native_report b)) = usage_output u.
Proof.
  intros Hi Hr Hw Hs Hm. cbv zeta. unfold buckets. set (r := cached_tokens u) in *. set (w := cache_write_tokens u) in *.
  set (i := usage_input u) in *.
  assert (sat_sub (sat_sub i r) w = i - r - w) as E by (unfold sat_sub; ints). cbn. rewrite E.
  unfold fold_anthropic_input, native_report. cbn.
  assert (sat_add r w = r + w) as E2 by (unfold sat_add; ints). rewrite ?E, ?E2.
  split_and!; [lia|lia|..]; destruct (Z.ltb_spec 0 (r + w)); cbn; [|lia|done..].
  unfold sat_add; ints.
Qed.

Definition sample_report : ChatUsage :=
  {| prompt_tokens := Some 100; completion_tokens := Some 7; total_tokens := None; input_tokens := None;
     output_tokens := None; prompt_tokens_details := Some (json_object [("cached_tokens", of_int 60)]);
     completion_tokens_details := None; input_tokens_details := None; cache_read_input_tokens := None;
     cache_creation_input_tokens := Some 10; prompt_cache_hit_tokens := None |}.

Lemma usage_buckets_roundtrip_witness :
  (buckets sample_report).(b_input) = 30 /\
  Metering.input (fold_anthropic_input (native_report (buckets sample_report))) = 100.
Proof.
  split; [reflexivity|]. apply (usage_buckets_roundtrip sample_report); vm_compute; intuition discriminate.
Defined.

(** The subtraction saturates at the least [i64], not at zero: a report whose cache count exceeds its
    input yields a negative [input_tokens]. *)
Theorem fresh_input_can_be_negative :
  (buckets {| prompt_tokens := Some 10; completion_tokens := None; total_tokens := None; input_tokens := None;
     output_tokens := None; prompt_tokens_details := None; completion_tokens_details := None;
     input_tokens_details := None; cache_read_input_tokens := Some 25; cache_creation_input_tokens := None;
     prompt_cache_hit_tokens := None |}).(b_input) = -15.
Proof. reflexivity. Qed.
