(* ===== verification/ErrorShape.v ===== *)
(** * Errors in the dialect of the client

The error half of [src/service/anthropic/mod.rs] and [src/service/responses/mod.rs] with what they take
from [src/service/proxy.rs]: the gateway's own errors as Anthropic responses, and the error bodies of an
upstream reshaped for Anthropic and Responses clients. Parsing JSON and decoding bytes are parameters;
a request id is the text of a UUID. *)

From S2P Require Import Prelude Float Json Errors Metering Body Streams InlineThink Chat ToolMedia AnthropicResponse.

Local Open Scope Z_scope.

(** ** Characters *)

(** The width of the character that starts with a byte. *)
Definition width (c : Ascii.ascii) : nat :=
  let n := Ascii.nat_of_ascii c in
  if (n <? 128)%nat then 1 else if (n <? 224)%nat then 2 else if (n <? 240)%nat then 3 else 4.

(** [str::chars]; the number of bytes is enough fuel. *)
Fixpoint chars_go (fuel : nat) (s : string) : list string :=
  match fuel, s with
  | S fuel, String c _ => str_take (width c) s :: chars_go fuel (str_drop (width c) s)
  | _, _ => []
  end.
Definition chars (s : string) : list string := chars_go (String.length s) s.

Definition is_whitespace (c : string) : bool := str_is_empty (trim_start c).

(** [split_whitespace], over the characters; [acc] is the word being read. *)
Fixpoint words (acc : string) (cs : list string) : list string :=
  match cs with
  | [] => if str_is_empty acc then [] else [acc]
  | c :: cs =>
      if is_whitespace c then (if str_is_empty acc then [] else [acc]) ++ words "" cs else words (acc +:+ c) cs
  end.

Definition take_chars (n : nat) (s : string) : string := concat_str (take n (chars s)).

Definition compact_error_message (message : string) (max_chars : nat) : string :=
  let normalized := join " " (words "" (chars message)) in
  if (length (chars normalized) <=? max_chars)%nat then normalized else trim_end (take_chars max_chars normalized).

(** ** The gateway's errors, for an Anthropic client *)

Definition error_type_for_status (status : Z) : string :=
  if status =? 400 then "invalid_request_error"
  else if status =? 401 then "authentication_error"
  else if status =? 403 then "permission_error"
  else if status =? 404 then "not_found_error"
  else if status =? 413 then "request_too_large"
  else if status =? 429 then "rate_limit_error"
  else "api_error".

Definition anthropic_error_body (err_type message : string) : Value :=
  json_object [("type", VString "error");
               ("error", json_object [("type", VString err_type); ("message", VString message)])].

(** Status, type and message of an unwrapped error. *)
Definition anthropic_parts (e : AppError) : option (Z * string * string) :=
  match e with
  | WithRequestId _ _ => None
  | Auth m | Unauthorized m => Some (401, "authentication_error", m)
  | Forbidden m => Some (403, "permission_error", m)
  | RateLimited secs =>
      Some (429, "rate_limit_error",
            "Rate limit exceeded, retry after " +:+ pretty (F64.as_u64 (F64.max (F64.ceil secs) (F64.of_Z 1))) +:+ "s")
  | ConcurrentLimited m _ | PlanQuotaExceeded m _ => Some (429, "rate_limit_error", m)
  | BadRequest m => Some (400, "invalid_request_error", m)
  | Conflict m => Some (409, "invalid_request_error", m)
  | Internal m => Some (500, "api_error", m)
  | ServiceUnavailable m => Some (503, "overloaded_error", m)
  | UpstreamTimeout m => Some (504, "api_error", m)
  | BadGateway m => Some (502, "api_error", m)
  | UpstreamExhausted m => Some (503, "overloaded_error", m)
  end.
Definition anthropic_retry_after (e : AppError) : option Z :=
  match e with
  | RateLimited secs | ConcurrentLimited _ secs => Some (retry_after_secs secs)
  | PlanQuotaExceeded _ retry => retry
  | _ => None
  end.
Definition anthropic_response (request_id : option string) (e : AppError) (parts : Z * string * string) : Response :=
  let '(st, err_type, message) := parts in
  {| status := st;
     headers :=
       [("content-type", "application/json")] ++
       match anthropic_retry_after e with Some r => [("Retry-After", pretty r)] | None => [] end ++
       match request_id with Some id => [("X-Request-Id", id)] | None => [] end;
     body := anthropic_error_body err_type message |}.

Fixpoint error_response (e : AppError) : Response :=
  match e with
  | WithRequestId inner id =>
      match anthropic_parts inner with
      | Some parts => anthropic_response (Some id) inner parts
      | None => match inner with WithRequestId inner' _ => error_response inner' | _ => error_response inner end
      end
  | other => match anthropic_parts other with
             | Some parts => anthropic_response None other parts
             | None => anthropic_response None other (0, "", "")
             end
  end.

(** ** The errors of an upstream *)

Record UpstreamErrorContext : Type := { ctx_provider : string; ctx_model : string; ctx_request_id : string }.
Definition message_suffix (c : UpstreamErrorContext) : string :=
  " [provider=" +:+ c.(ctx_provider) +:+ ", model=" +:+ c.(ctx_model) +:+ ", request_id=" +:+ c.(ctx_request_id) +:+ "]".

Definition MAX_MESSAGE_CHARS : nat := 1800.

Definition ascii_text (a : Ascii.ascii) : bool :=
  let n := Ascii.nat_of_ascii a in
  ((33 <=? n)%nat && (n <=? 126)%nat) ||
  (n =? 32)%nat || (n =? 9)%nat || (n =? 10)%nat || (n =? 12)%nat || (n =? 13)%nat.

Section reshape.
Context (from_utf8_lossy : string -> string) (parse_json : string -> option Value).

Definition classify_upstream_body (body : string) : string :=
  if str_is_empty body then "empty"
  else if bool_decide (is_Some (parse_json body)) then "json"
  else if Prime.looks_like_sse body then "sse"
  else
    let head := str_take 512 body in
    if negb (str_all ascii_text head) then "binary"
    else
      let s := to_ascii_lowercase (from_utf8_lossy head) in
      if str_contains "<html" s || str_contains "<!doctype" s then "html" else "text".

(** The fields for diagnosis, the same in both dialects. *)
Definition diagnosis (status : Z) (body : string) (c : UpstreamErrorContext) : list (string * Value) :=
  [("upstream_status", of_int status); ("body_type", VString (classify_upstream_body body));
   ("provider", VString c.(ctx_provider)); ("model", VString c.(ctx_model));
   ("request_id", VString c.(ctx_request_id))].

(** The message with its suffix, shortened. *)
Definition shown_message (message : string) (c : UpstreamErrorContext) : Value :=
  VString (compact_error_message (message +:+ message_suffix c) MAX_MESSAGE_CHARS).

(** [error.message], [message], [error] or [detail] of a JSON error. *)
Definition json_error_message (v : Value) : option string :=
  or_else (or_else (or_else (pointer_str ["error"; "message"] v) (get_str "message" v)) (get_str "error" v)) (get_str "detail" v).

Definition extract_upstream_error_message (body : string) : option string :=
  let msg := v ← parse_json body;
             or_else (json_error_message v) (pointer_str ["base_resp"; "status_msg"] v) in
  match msg with
  | Some m => Some m
  | None =>
      let text := trim (from_utf8_lossy body) in
      if str_is_empty text then None else Some (take_chars 1000 text)
  end.

Definition reshape_upstream_error (status : Z) (body : string) (c : UpstreamErrorContext) : Value :=
  let message := default ("upstream error (status " +:+ pretty status +:+ ")") (extract_upstream_error_message body) in
  json_object
    [("type", VString "error");
     ("error", json_object ([("type", VString (error_type_for_status status)); ("message", shown_message message c)] ++
                            diagnosis status body c))].

(** The text of an error of a body that is not JSON. *)
Definition text_error_message (status : Z) (body : string) : string :=
  let text := trim (from_utf8_lossy (str_take 1024 body)) in
  if str_is_empty text then "upstream returned HTTP " +:+ pretty status +:+ " with non-JSON body" else text.

Definition default_code (status : Z) : Value := VString ("upstream_http_" +:+ pretty status).
Definition is_code (v : Value) : bool :=
  match v with VString _ => true | VNumber (PosInt _ | NegInt _) => true | _ => false end.

Definition responses_message (status : Z) (v : Value) : string :=
  match get "base_resp" v ≫= fun b => or_else (get "message" b) (pointer ["error"; "message"] b) ≫= as_str with
  | Some m => m
  | None => default ("upstream returned HTTP " +:+ pretty status +:+ " with unconvertible body") (json_error_message v)
  end.
Definition responses_code (status : Z) (v : Value) : Value :=
  match or_else (get "base_resp" v ≫= get "code") (pointer ["error"; "code"] v) with
  | Some c => if is_code c then c else default_code status
  | None => default_code status
  end.

Definition reshape_upstream_error_for_responses (status : Z) (body : string) (c : UpstreamErrorContext) : Value :=
  let error message code param :=
    json_object [("error", json_object ([("message", shown_message message c); ("type", VString "upstream_error"); ("code", code)] ++
                                        diagnosis status body c ++ param))] in
  match parse_json body with
  | None => error (text_error_message status body) (default_code status) []
  | Some v =>
      error (responses_message status v) (responses_code status v)
        (match or_else (get "base_resp" v ≫= get "param") (pointer ["error"; "param"] v) with
         | Some p => [("param", p)]
         | None => []
         end)
  end.
End reshape.

(** ** Lengths *)

Lemma str_drop_length n s : String.length (str_drop n s) = (String.length s - n)%nat.
Proof. revert s. induction n as [|n IH]; intros [|c s]; cbn; try done. Qed.
Lemma str_drop_all n s : (String.length s <= n)%nat -> str_drop n s = "".
Proof. revert s. induction n as [|n IH]; intros [|c s] Hl; cbn in *; try done; [lia|]. apply IH. lia. Qed.
Lemma str_take_all n s : (String.length s <= n)%nat -> str_take n s = s.
Proof. revert s. induction n as [|n IH]; intros [|c s] Hl; cbn in *; try done; [lia|]. rewrite IH; [done|lia]. Qed.
Lemma width_pos c : (0 < width c)%nat.
Proof. unfold width. cbv zeta. repeat destruct (_ <? _)%nat; lia. Qed.

Lemma chars_fuel n s : (String.length s <= n)%nat -> chars_go n s = chars s.
Proof.
  unfold chars. revert n. induction s as [s IH] using string_len_ind; intros n Hn. destruct s as [|c s]; [by destruct n|].
  destruct n as [|n]; [cbn in Hn; lia|]. cbn [chars_go String.length]. f_equal. pose proof (width_pos c) as Hw.
  pose proof (str_drop_length (width c) (String c s)) as Hd. cbn [String.length] in *.
  set (t := str_drop (width c) (String c s)) in *. assert (Ht : (String.length t < String.length (String c s))%nat) by (cbn [String.length]; lia).
  rewrite (IH t Ht n), (IH t Ht (String.length s)); [done|lia..].
Qed.
Lemma chars_cons c s :
  chars (String c s) = str_take (width c) (String c s) :: chars (str_drop (width c) (String c s)).
Proof.
  unfold chars at 1. cbn [String.length chars_go]. f_equal. apply chars_fuel.
  pose proof (str_drop_length (width c) (String c s)). pose proof (width_pos c). cbn [String.length] in *. lia.
Qed.

(** A prefix has no more characters. *)
Lemma chars_prefix p q : (length (chars p) <= length (chars (p +:+ q)))%nat.
Proof.
  revert q. induction p as [p IH] using string_len_ind; intros q. destruct p as [|c p]; [cbn; lia|].
  change (String c p +:+ q) with (String c (p +:+ q)). rewrite !chars_cons. cbn [length].
  destruct (Nat.le_gt_cases (width c) (String.length (String c p))) as [Hl|Hl].
  - change (String c (p +:+ q)) with (String c p +:+ q).
    rewrite (str_drop_app _ (String c p) q Hl). pose proof (width_pos c). specialize (IH (str_drop (width c) (String c p))).
    rewrite str_drop_length in IH. cbn [String.length] in *. specialize (IH ltac:(lia) q). lia.
  - rewrite str_drop_all by lia. cbn. lia.
Qed.


(** The first [n] characters are at most [n] characters. *)
Lemma take_chars_bounded n s : (length (chars (take_chars n s)) <= n)%nat.
Proof.
  unfold take_chars. revert s. induction n as [|n IH]; intros s; [done|].
  destruct s as [|c s]; [cbn; lia|]. rewrite chars_cons. cbn [take concat_str foldr].
  pose proof (width_pos c) as Hw. destruct (width c) as [|w] eqn:Ew; [lia|]. cbn [str_take str_drop].
  change (String c (str_take w s) +:+ ?r) with (String c (str_take w s +:+ r)). rewrite chars_cons, Ew. cbn [length str_drop].
  destruct (Nat.le_gt_cases w (String.length s)) as [Hl|Hl].
  - assert (El : String.length (str_take w s) = w) by (by apply length_take).
    rewrite str_drop_app_ge by lia. rewrite El, Nat.sub_diag. cbn [str_drop]. specialize (IH (str_drop w s)). unfold concat_str in IH. lia.
  - rewrite (str_drop_all w s), str_take_all by lia. change (chars "") with (@nil string). rewrite take_nil. cbn [foldr].
    rewrite string_app_empty_r, str_drop_all by lia. cbn. lia.
Qed.

(** *** The end of a text *)
Lemma trim_end_prefix s : exists w, s = trim_end s +:+ w.
Proof.
  destruct (skip_ws_suffix true (string_rev s)) as [w Hw]. exists (string_rev w).
  unfold trim_end. rewrite <-string_rev_append, <-Hw. by rewrite string_rev_invol.
Qed.

(** A shortened message never has more characters than its limit. *)
Lemma compact_bounded message max_chars :
  (length (chars (compact_error_message message max_chars)) <= max_chars)%nat.
Proof.
  unfold compact_error_message. cbv zeta. destruct (Nat.leb_spec (length (chars (join " " (words "" (chars message))))) max_chars) as [H|H]; [done|].
  set (t := take_chars max_chars _). destruct (trim_end_prefix t) as [w Hw].
  etrans; [apply (chars_prefix _ w)|]. rewrite <-Hw. apply take_chars_bounded.
Qed.

(** ** The two dialects of an error *)

Fixpoint wrappers (e : AppError) : nat := match e with WithRequestId i _ => S (wrappers i) | _ => O end.

(** An error has the same status and the same headers, [Retry-After] and [X-Request-Id] included, in
    the Anthropic dialect and in the OpenAI dialect. *)
Theorem dialects_agree e :
  status (error_response e) = status (into_response e) /\ headers (error_response e) = headers (into_response e).
Proof.
  assert (forall n e, (wrappers e <= n)%nat ->
    status (error_response e) = status (into_response e) /\ headers (error_response e) = headers (into_response e)) as H.
  { clear e. intros n. induction n as [|n IH]; intros [] Hd; try done; cbn in Hd; [lia|].
    destruct inner; try done. cbn [error_response into_response anthropic_parts error_parts]. apply IH. cbn in Hd. lia. }
  by eapply H.
Qed.

(** Whatever an upstream answers with an error, the reshaped error of either dialect has a message of at
    most 1800 characters and says the upstream's status, the provider, the model and the request. *)
Theorem reshaped_error_bounded from_utf8_lossy parse_json st bytes c err :
  err = reshape_upstream_error from_utf8_lossy parse_json st bytes c \/
  err = reshape_upstream_error_for_responses from_utf8_lossy parse_json st bytes c ->
  (exists m, pointer_str ["error"; "message"] err = Some m /\ (length (chars m) <= 1800)%nat) /\
  pointer ["error"; "upstream_status"] err = Some (of_int st) /\
  pointer_str ["error"; "provider"] err = Some c.(ctx_provider) /\
  pointer_str ["error"; "model"] err = Some c.(ctx_model) /\
  pointer_str ["error"; "request_id"] err = Some c.(ctx_request_id).
Proof.
  intros [-> | ->].
  - split; [|done]. eexists. split; [reflexivity|apply compact_bounded].
  - unfold reshape_upstream_error_for_responses. cbv zeta. destruct (parse_json bytes) as [v|].
    + destruct (or_else (get "base_resp" v ≫= get "param") (pointer ["error"; "param"] v));
        (split; [eexists; split; [reflexivity|apply compact_bounded]|done]).
    + split; [eexists; split; [reflexivity|apply compact_bounded]|done].
Qed.
Lemma reshaped_error_bounded_witness :
  pointer_str ["error"; "provider"]
    (reshape_upstream_error id (fun _ => None) 502 "bad gateway" {| ctx_provider := "p"; ctx_model := "m"; ctx_request_id := "r" |}) = Some "p".
Proof. by apply (reshaped_error_bounded id (fun _ => None) 502 "bad gateway" {| ctx_provider := "p"; ctx_model := "m"; ctx_request_id := "r" |} _ (or_introl eq_refl)). Defined.

(** The wait an Anthropic client reads in the message of a rate-limited request is not the clamped wait of
    the [Retry-After] header: an unbounded wait reaches the client as [u64::MAX] seconds. *)
Theorem unclamped_wait_shown :
  header "Retry-After" (error_response (RateLimited F64.infinity)) = Some "86400" /\
  pointer_str ["error"; "message"] (body (error_response (RateLimited F64.infinity))) =
    Some "Rate limit exceeded, retry after 18446744073709551615s" /\
  pointer_str ["error"; "message"] (body (into_response (RateLimited F64.infinity))) =
    Some "Rate limit exceeded, retry after 86400s".
Proof. by vm_compute. Qed.
