(* ===== verification/Rectify.v ===== *)
(** * Rectification of refused requests

[src/service/rectify.rs] and [send_with_rectify] of [src/service/proxy.rs]: when an upstream refuses a
request because of images or thinking blocks, the offending parts are taken out of the outbound body
and the request is sent once more. Parsing and printing JSON, decoding bytes and Unicode lower-casing
are parameters. *)

From S2P Require Import Prelude Float Json Metering Body Streams InlineThink Chat ToolMedia AnthropicResponse.

Local Open Scope Z_scope.

Definition UNSUPPORTED_IMAGE_MARKER : string := "[Unsupported Image]".
Definition RECTIFIABLE_STATUSES : list Z := [400; 413; 415; 422].
Definition is_rectifiable_status (status : Z) : bool := bool_decide (status ∈ RECTIFIABLE_STATUSES).

(** ** Changing a value in place *)

(** The value of a key is changed; the key stays where it is. *)
Fixpoint alter (k : string) (f : Value -> Value) (m : list (string * Value)) : list (string * Value) :=
  match m with
  | [] => []
  | (k', v) :: m => if bool_decide (k = k') then (k', f v) :: m else (k', v) :: alter k f m
  end.
Definition at_key (k : string) (f : Value -> Value) (v : Value) : Value :=
  match v with VObject o => VObject (alter k f o) | other => other end.
Definition on_array (f : list Value -> list Value) (v : Value) : Value :=
  match v with VArray l => VArray (f l) | other => other end.
Definition array_at (k : string) (v : Value) : list Value := default [] (get k v ≫= as_array).
Definition remove_key (k : string) (v : Value) : Value :=
  match v with VObject o => VObject (Map.remove k o) | other => other end.
Definition set_key (k : string) (x : Value) (v : Value) : Value :=
  match v with VObject o => VObject (Map.insert k x o) | other => other end.

Definition type_in (l : list string) (v : Value) : bool :=
  match get_str "type" v with Some t => bool_decide (t ∈ l) | None => false end.

(** ** Images *)

Definition is_image : Value -> bool := type_in ["image_url"; "image"].
Definition is_input_image : Value -> bool := type_in ["input_image"].
Definition marker (ty : string) : Value :=
  json_object [("type", VString ty); ("text", VString UNSUPPORTED_IMAGE_MARKER)].

Definition replace_part (p : Value) : Value := if is_image p then marker "text" else p.
Definition replace_item (p : Value) : Value := if is_input_image p then marker "input_text" else p.
Definition replace_message (m : Value) : Value := at_key "content" (on_array (fmap replace_part)) m.

(** [replace_image_parts]: the body and how many images were replaced. *)
Definition without_images (body : Value) : Value :=
  at_key "input" (on_array (fmap replace_item)) (at_key "messages" (on_array (fmap replace_message)) body).
Definition count (p : Value -> bool) (l : list Value) : nat := length (List.filter p l).
Definition image_count (body : Value) : nat :=
  sum_list_with (fun m => count is_image (array_at "content" m)) (array_at "messages" body) +
  count is_input_image (array_at "input" body).
Definition replace_image_parts (body : Value) : Value * nat := (without_images body, image_count body).

(** ** Thinking *)

Definition is_thinking : Value -> bool := type_in ["thinking"; "redacted_thinking"].
Definition is_signed (b : Value) : bool := bool_decide (is_Some (get "signature" b)).
Definition strip_block (b : Value) : option Value :=
  if is_thinking b then None else Some (if is_signed b then remove_key "signature" b else b).
Definition strip_message (m : Value) : Value := at_key "content" (on_array (omap strip_block)) m.

(** [strip_thinking_blocks]: the body and how many blocks were dropped or changed. *)
Definition without_thinking (body : Value) : Value := at_key "messages" (on_array (fmap strip_message)) body.
Definition thinking_count (body : Value) : nat :=
  sum_list_with (fun m => count (fun b => is_thinking b || is_signed b) (array_at "content" m)) (array_at "messages" body).
Definition strip_thinking_blocks (body : Value) : Value * nat := (without_thinking body, thinking_count body).

Definition thinking_enabled (body : Value) : bool := bool_decide ((get "thinking" body ≫= get_str "type") = Some "enabled").
Definition by_assistant (m : Value) : bool := bool_decide (get_str "role" m = Some "assistant").
Definition starts_thinking (m : Value) : bool :=
  match array_at "content" m with b :: _ => is_thinking b | [] => false end.

Definition remove_top_level_thinking_if_broken (body : Value) : bool :=
  thinking_enabled body &&
  match last (List.filter by_assistant (array_at "messages" body)) with
  | Some m => negb (starts_thinking m)
  | None => false
  end.

(** A number is missing or less than a bound. *)
Definition below (n : Z) (v : option Value) : bool := match v ≫= as_u64 with Some b => b <? n | None => true end.

Definition raise_thinking_budget (body : Value) : Value * bool :=
  if thinking_enabled body then
    let low := below 32000 (get "thinking" body ≫= get "budget_tokens") in
    let body := if low then at_key "thinking" (set_key "budget_tokens" (of_int 32000)) body else body in
    let small := below 64000 (get "max_tokens" body) in
    (if small then set_key "max_tokens" (of_int 64000) body else body, low || small)
  else (body, false).

(** ** What an error says *)

Definition mentions (l : list string) (m : string) : bool := existsb (fun h => str_contains h m) l.

Definition is_thinking_budget_error (message : string) : bool :=
  let m := to_ascii_lowercase message in
  mentions ["budget_tokens"; "thinking budget"; "budget tokens"] m &&
  mentions ["must be"; "greater than"; "less than"; "minimum"; "invalid"; "exceeds"] m.

Definition TEXT_ONLY_SELF_EVIDENT : list string := ["only support text"; "only supports text"].
Definition UNSUPPORTED_HINTS : list string :=
  ["unsupported"; "not supported"; "does not support"; "doesn't support"; "do not support"; "don't support";
   "text only"; "text-only"; "invalid content type"; "invalid message content"; "unknown variant";
   "unknown content type"; "unrecognized content type"; "cannot process"; "cannot handle"; "can't process";
   "can't handle"; "unable to process"].

Definition is_unsupported_image_error (message : string) : bool :=
  let m := to_ascii_lowercase message in
  mentions TEXT_ONLY_SELF_EVIDENT m ||
  mentions ["image"; "vision"; "multimodal"; "multi-modal"; "modality"; "modalities"; "media"; "attachment"] m &&
  mentions UNSUPPORTED_HINTS m.

Section rectify.
Context (show : Value -> string) (parse_json : string -> option Value) (from_utf8_lossy to_lowercase : string -> string).

Definition is_thinking_error (message : string) : bool :=
  let m := to_lowercase message in
  let has s := str_contains s m in
  (has "invalid" && has "signature" && has "thinking" && has "block") ||
  (has "thought signature" && (has "not valid" || has "invalid")) ||
  has "must start with a thinking block" ||
  (has "expected" && (has "thinking" || has "redacted_thinking") && has "found" && has "tool_use") ||
  (has "signature" && has "field required") ||
  (has "signature" && has "extra inputs are not permitted") ||
  ((has "thinking" || has "redacted_thinking") && has "cannot be modified") ||
  has "非法请求" || has "illegal request" || has "invalid request".

Definition extract_error_text (body : string) : string :=
  let raw := from_utf8_lossy body in
  match parse_json raw with
  | Some v => default raw (or_else (or_else (pointer_str ["error"; "message"] v) (get_str "message" v)) (get_str "detail" v))
  | None => raw
  end.

(** The rewriting of a parsed body, and whether it changed anything. *)
Definition rectify_images (message : string) (body : Value) : Value * bool :=
  if is_unsupported_image_error message then
    let '(body, n) := replace_image_parts body in (body, (0 <? n)%nat)
  else (body, false).
Definition rectify_thinking (anthropic_native : bool) (message : string) (body : Value) : Value * bool :=
  if is_thinking_error message && anthropic_native then
    let '(body, n) := strip_thinking_blocks body in
    if remove_top_level_thinking_if_broken body then (remove_key "thinking" body, true) else (body, (0 <? n)%nat)
  else (body, false).
Definition rectify_budget (anthropic_native : bool) (message : string) (body : Value) : Value * bool :=
  if anthropic_native && is_thinking_budget_error message then raise_thinking_budget body else (body, false).
Definition rectify_value (anthropic_native : bool) (message : string) (body : Value) : option Value :=
  let '(body, c1) := rectify_images message body in
  let '(body, c2) := rectify_thinking anthropic_native message body in
  let '(body, c3) := rectify_budget anthropic_native message body in
  if c1 || c2 || c3 then Some body else None.

Definition rectify_outbound (anthropic_native : bool) (outbound error_body : string) (status : Z) : option string :=
  if negb (is_rectifiable_status status) then None
  else
    body ← parse_json outbound;
    body ← rectify_value anthropic_native (extract_error_text error_body) body;
    Some (show body).

Definition strip_media_outbound (outbound : string) : option string :=
  body ← parse_json outbound;
  let '(body, n) := replace_image_parts body in
  if (n =? 0)%nat then None else Some (show body).

(** ** Sending *)

Definition headers : Type := list (string * string).

(** A response of the upstream; [r_bytes] is [None] when its body cannot be read. *)
Record Response : Type := {
  r_code : Z;
  r_content_type : string;
  r_headers : headers;
  r_bytes : option string;
}.

Inductive SentOutcome : Type :=
| Sent (resp : Response)
| PreRead (status : Z) (content_type bytes : string) (hdrs : headers).

Definition rate_limit_headers (r : Response) : headers :=
  List.filter (fun kv => bool_decide (kv.1 ∈ ["retry-after"; "openai-organization"; "openai-processing-ms"]) ||
                         starts_with "x-ratelimit-" kv.1 || starts_with "anthropic-ratelimit-" kv.1) r.(r_headers).

(** [send_with_rectify] with the answers of the upstream to the bodies and headers it is sent; the second
    component lists what was sent. *)
Definition send_with_rectify (rectify_enabled anthropic_native : bool)
    (send_upstream : string -> headers -> result Response string) (outbound : string) (client_headers : headers) :
    result SentOutcome string * list (string * headers) :=
  let log := [(outbound, client_headers)] in
  match send_upstream outbound client_headers with
  | Err e => (Err e, log)
  | Ok resp =>
      if negb rectify_enabled || negb (is_rectifiable_status resp.(r_code)) then (Ok (Sent resp), log)
      else
        let bytes := default "" resp.(r_bytes) in
        match rectify_outbound anthropic_native outbound bytes resp.(r_code) with
        | Some fixed =>
            let retry_headers := List.filter (fun kv => negb (bool_decide (kv.1 = "idempotency-key"))) client_headers in
            (let? retried := send_upstream fixed retry_headers in Ok (Sent retried), log ++ [(fixed, retry_headers)])
        | None => (Ok (PreRead resp.(r_code) resp.(r_content_type) bytes (rate_limit_headers resp)), log)
        end
  end.
End rectify.

(** ** In place *)

Lemma get_alter k k' f m : Map.get k' (alter k f m) = if bool_decide (k' = k) then f <$> Map.get k' m else Map.get k' m.
Proof.
  induction m as [|[k0 v] m IH]; cbn; [by case_bool_decide|].
  destruct (decide (k = k0)) as [->|H0]; [rewrite (bool_decide_true (k0 = k0)) by done|rewrite (bool_decide_false (k = k0)) by done]; cbn.
  - case_bool_decide; done.
  - destruct (decide (k' = k0)) as [->|H1]; [|by rewrite (bool_decide_false (k' = k0))].
    by rewrite (bool_decide_true (k0 = k0)), bool_decide_false.
Qed.
Lemma get_at_key k k' f v : get k' (at_key k f v) = if bool_decide (k' = k) then f <$> get k' v else get k' v.
Proof. destruct v; cbn; try by case_bool_decide. apply get_alter. Qed.
Lemma get_at_key_eq k f v : get k (at_key k f v) = f <$> get k v.
Proof. by rewrite get_at_key, bool_decide_true. Qed.
Lemma get_at_key_ne k k' f v : k' <> k -> get k' (at_key k f v) = get k' v.
Proof. intros. by rewrite get_at_key, bool_decide_false. Qed.
Lemma at_key_id k f v : (forall x, get k v = Some x -> f x = x) -> at_key k f v = v.
Proof.
  destruct v; try done. cbn. intros H. f_equal. induction m as [|[k0 v] m IH]; [done|]. cbn in *.
  case_bool_decide as E; [by rewrite H|]. by rewrite IH.
Qed.
Lemma array_at_eq k f v : array_at k (at_key k (on_array f) v) = match get k v with Some (VArray l) => f l | _ => [] end.
Proof. unfold array_at. rewrite get_at_key_eq. by destruct (get k v) as [[]|]. Qed.
Lemma array_at_fmap k f v : array_at k (at_key k (on_array (fmap f)) v) = f <$> array_at k v.
Proof. rewrite array_at_eq. unfold array_at. by destruct (get k v) as [[]|]. Qed.
Lemma array_at_omap k f v : array_at k (at_key k (on_array (omap f)) v) = omap f (array_at k v).
Proof. rewrite array_at_eq. unfold array_at. by destruct (get k v) as [[]|]. Qed.
Lemma array_at_ne k k' f v : k' <> k -> array_at k' (at_key k f v) = array_at k' v.
Proof. intros. unfold array_at. by rewrite get_at_key_ne. Qed.
Lemma get_set_key_ne k k' x v : k' <> k -> get k' (set_key k x v) = get k' v.
Proof. intros. destruct v; try done. cbn. by apply Map.get_insert_ne. Qed.
Lemma get_remove_key k k' v : get k' (remove_key k v) = if bool_decide (k' = k) then None else get k' v.
Proof. destruct v; cbn; try by case_bool_decide. rewrite Map.get_remove. done. Qed.

(** ** Nothing is left to rectify *)

Lemma count_zero p l : count p l = 0%nat <-> Forall (fun x => p x = false) l.
Proof.
  unfold count. induction l as [|x l IH]; [done|]. cbn. destruct (p x) eqn:E; cbn.
  - split; [done|]. intros H. apply Forall_cons in H as [H _]. congruence.
  - rewrite IH, Forall_cons. naive_solver.
Qed.
Lemma sum_zero (f : Value -> nat) l : sum_list_with f l = 0%nat <-> Forall (fun x => f x = 0%nat) l.
Proof. induction l as [|x l IH]; cbn; [done|]. rewrite Forall_cons, <-IH. lia. Qed.

Lemma fmap_id_on (f : Value -> Value) l : Forall (fun x => f x = x) l -> f <$> l = l.
Proof. induction 1 as [|x l Hx _ IH]; [done|]. cbn. by rewrite Hx, IH. Qed.
Lemma omap_id_on (f : Value -> option Value) l : Forall (fun x => f x = Some x) l -> omap f l = l.
Proof. induction 1 as [|x l Hx _ IH]; [done|]. cbn. by rewrite Hx, IH. Qed.

(** A rewriting of the elements of an array that leaves each of them alone leaves the value alone. *)
Lemma at_array_id k f v : f (array_at k v) = array_at k v -> at_key k (on_array f) v = v.
Proof. intros H. apply at_key_id. intros x Hx. unfold array_at in H. rewrite Hx in H. destruct x; try done. cbn in *. by rewrite H. Qed.

Lemma replace_part_clean p : is_image (replace_part p) = false.
Proof. unfold replace_part. by destruct (is_image p) eqn:E. Qed.
Lemma replace_item_clean p : is_input_image (replace_item p) = false.
Proof. unfold replace_item. by destruct (is_input_image p) eqn:E. Qed.

Lemma images_gone body : image_count (without_images body) = 0%nat.
Proof.
  unfold image_count, without_images. rewrite array_at_ne, !array_at_fmap by done. apply Nat.eq_add_0. split.
  - apply sum_zero, Forall_fmap, Forall_true. intros m. cbn. unfold replace_message. rewrite array_at_fmap.
    apply count_zero, Forall_fmap, Forall_true. intros p. apply replace_part_clean.
  - apply count_zero, Forall_fmap, Forall_true. intros p. apply replace_item_clean.
Qed.
Lemma no_images_id body : image_count body = 0%nat -> without_images body = body.
Proof.
  intros [Hm Hi]%Nat.eq_add_0. unfold without_images.
  assert (at_key "messages" (on_array (fmap replace_message)) body = body) as ->.
  { apply at_array_id, fmap_id_on. apply sum_zero in Hm. eapply Forall_impl; [exact Hm|]. cbn. intros m H. apply at_array_id, fmap_id_on.
    apply count_zero in H. eapply Forall_impl; [exact H|]. cbn. intros p E. unfold replace_part. by rewrite E. }
  apply at_array_id, fmap_id_on. apply count_zero in Hi. eapply Forall_impl; [exact Hi|]. cbn. intros p E.
  unfold replace_item. by rewrite E.
Qed.

Lemma type_in_unsigned l b : type_in l (remove_key "signature" b) = type_in l b.
Proof. unfold type_in, get_str. by rewrite get_remove_key. Qed.
Lemma strip_block_clean b b' : strip_block b = Some b' -> is_thinking b' || is_signed b' = false.
Proof.
  unfold strip_block. destruct (is_thinking b) eqn:E; [done|]. intros [= <-]. destruct (is_signed b) eqn:E'; [|by rewrite E, E'].
  unfold is_thinking. rewrite type_in_unsigned. fold is_thinking. rewrite E. cbn. unfold is_signed. by rewrite get_remove_key.
Qed.
Lemma strip_block_type l b b' : strip_block b = Some b' -> type_in l b' = type_in l b.
Proof.
  unfold strip_block. destruct (is_thinking b); [done|]. intros [= <-]. destruct (is_signed b); [|done]. apply type_in_unsigned.
Qed.

Lemma Forall_omap_of {A B} (P : B -> Prop) (f : A -> option B) l : (forall x y, x ∈ l -> f x = Some y -> P y) -> Forall P (omap f l).
Proof. intros H. apply Forall_forall. intros y Hy. apply list_elem_of_omap in Hy as (x & Hx & E). by eapply H. Qed.

Lemma thinking_gone body : thinking_count (without_thinking body) = 0%nat.
Proof.
  unfold thinking_count, without_thinking. rewrite array_at_fmap. apply sum_zero, Forall_fmap, Forall_true. intros m. cbn.
  unfold strip_message. rewrite array_at_omap. apply count_zero, Forall_omap_of. intros b b' _. apply strip_block_clean.
Qed.
Lemma no_thinking_id body : thinking_count body = 0%nat -> without_thinking body = body.
Proof.
  intros H. apply at_array_id, fmap_id_on. apply sum_zero in H. eapply Forall_impl; [exact H|]. cbn. intros m Hm.
  apply at_array_id, omap_id_on. apply count_zero in Hm. eapply Forall_impl; [exact Hm|]. cbn. intros b [E1 E2]%orb_false_iff.
  unfold strip_block. by rewrite E1, E2.
Qed.
Lemma stripped_images body : image_count body = 0%nat -> image_count (without_thinking body) = 0%nat.
Proof.
  intros [Hm Hi]%Nat.eq_add_0. unfold image_count, without_thinking. rewrite (array_at_ne "messages" "input"), Hi, array_at_fmap by done.
  rewrite Nat.add_0_r. apply sum_zero, Forall_fmap. apply sum_zero in Hm. eapply Forall_impl; [exact Hm|]. cbn. intros m H.
  unfold strip_message. rewrite array_at_omap. apply count_zero in H. apply count_zero, Forall_omap_of. intros b b' Hb E.
  unfold is_image. rewrite (strip_block_type _ _ _ E). rewrite Forall_forall in H. by apply H.
Qed.

(** Bodies that differ in neither messages nor input. *)
Definition same_messages (b b' : Value) : Prop := get "messages" b' = get "messages" b /\ get "input" b' = get "input" b.
Lemma same_counts b b' :
  same_messages b b' -> image_count b' = image_count b /\ thinking_count b' = thinking_count b /\
  array_at "messages" b' = array_at "messages" b.
Proof. intros [H1 H2]. unfold image_count, thinking_count, array_at. by rewrite H1, H2. Qed.

Lemma raise_same b : same_messages b (raise_thinking_budget b).1.
Proof.
  unfold raise_thinking_budget. destruct (thinking_enabled b); [|done]. cbv zeta. cbn [fst].
  split; destruct (below 64000 _); rewrite ?get_set_key_ne by done; destruct (below 32000 _); rewrite ?get_at_key_ne by done; done.
Qed.
Lemma get_set_key k x o : get k (set_key k x (VObject o)) = Some x.
Proof. apply Map.get_insert_eq. Qed.

(** The fields that the budget is about, after it was raised. *)
Definition budgeted (b : Value) : Prop :=
  thinking_enabled b = true /\ below 32000 (get "thinking" b ≫= get "budget_tokens") = false /\
  below 64000 (get "max_tokens" b) = false.

Lemma raised b : thinking_enabled b = true -> budgeted (raise_thinking_budget b).1.
Proof.
  intros He. unfold raise_thinking_budget. rewrite He. cbv zeta. cbn [fst]. unfold thinking_enabled in He.
  apply bool_decide_eq_true in He. destruct b as [| | | | |o]; try done.
  destruct (get "thinking" (VObject o)) as [[| | | | |t]|] eqn:Et; try done. cbn [option_bind mbind get] in He.
  set (b1 := if below 32000 _ then _ else _).
  assert (H1 : exists o1 t1, b1 = VObject o1 /\ get "thinking" b1 = Some (VObject t1) /\ get_str "type" (VObject t1) = Some "enabled" /\
    below 32000 (get "budget_tokens" (VObject t1)) = false).
  { unfold b1. destruct (below 32000 _) eqn:El; [|by exists o, t]. eexists _, _. split; [done|].
    change (VObject (alter ?k ?f o)) with (at_key k f (VObject o)). rewrite get_at_key_eq, Et. cbn [fmap option_fmap option_map set_key].
    split; [done|]. split; [unfold get_str in *; cbn [get] in *; by rewrite Map.get_insert_ne|]. cbn [get]. by rewrite Map.get_insert_eq. }
  clearbody b1. destruct H1 as (o1 & t1 & -> & E1 & E2 & E3). unfold budgeted, thinking_enabled.
  destruct (below 64000 (get "max_tokens" (VObject o1))) eqn:Em.
  - rewrite (get_set_key_ne "max_tokens" "thinking"), E1, get_set_key by done. cbn [mbind option_bind]. by rewrite E2.
  - rewrite E1. cbn [mbind option_bind]. by rewrite E2.
Qed.
Lemma budgeted_kept b : budgeted b -> (raise_thinking_budget b).2 = false.
Proof. intros (H1 & H2 & H3). unfold raise_thinking_budget. rewrite H1. cbv zeta. cbn [snd]. rewrite H2, H3. done. Qed.
Lemma raise_twice b : (raise_thinking_budget (raise_thinking_budget b).1).2 = false.
Proof.
  destruct (thinking_enabled b) eqn:E; [by apply budgeted_kept, raised|].
  unfold raise_thinking_budget at 2. rewrite E. cbn [fst]. unfold raise_thinking_budget. by rewrite E.
Qed.
Lemma raise_enabled b : thinking_enabled (raise_thinking_budget b).1 = thinking_enabled b.
Proof.
  destruct (thinking_enabled b) eqn:E; [by apply raised|]. unfold raise_thinking_budget. by rewrite E.
Qed.

Section settled.
Context (to_lowercase : string -> string).
Notation rectify_thinking := (rectify_thinking to_lowercase).
Notation rectify_value := (rectify_value to_lowercase).

(** A body that one of the three rewritings leaves alone. *)
Definition images_settled (m : string) (b : Value) : Prop := is_unsupported_image_error m = true -> image_count b = 0%nat.
Definition thinking_settled (a : bool) (m : string) (b : Value) : Prop :=
  is_thinking_error to_lowercase m && a = true -> thinking_count b = 0%nat /\ remove_top_level_thinking_if_broken b = false.
Definition budget_settled (a : bool) (m : string) (b : Value) : Prop :=
  a && is_thinking_budget_error m = true -> (raise_thinking_budget b).2 = false.

Lemma rectify_settled a m b :
  images_settled m b -> thinking_settled a m b -> budget_settled a m b -> rectify_value a m b = None.
Proof.
  intros H1 H2 H3. unfold Rectify.rectify_value.
  assert (E1 : rectify_images m b = (b, false)).
  { unfold rectify_images, replace_image_parts, images_settled in *. destruct (is_unsupported_image_error m); [|done].
    by rewrite no_images_id, H1 by auto. }
  rewrite E1. assert (E2 : rectify_thinking a m b = (b, false)).
  { unfold Rectify.rectify_thinking, strip_thinking_blocks, thinking_settled in *. destruct (is_thinking_error _ m && a); [|done].
    destruct H2 as [H2 H2']; [done|]. by rewrite no_thinking_id, H2', H2 by done. }
  rewrite E2. unfold rectify_budget, budget_settled in *. destruct (a && is_thinking_budget_error m); [|done].
  specialize (H3 eq_refl). destruct (raise_thinking_budget b) as [b' c]. cbn in H3. by subst c.
Qed.

Lemma remove_same b : same_messages b (remove_key "thinking" b).
Proof. split; by rewrite get_remove_key. Qed.
Lemma thinking_images a m b : image_count b = 0%nat -> image_count (rectify_thinking a m b).1 = 0%nat.
Proof.
  intros H. unfold Rectify.rectify_thinking, strip_thinking_blocks. destruct (_ && _); [|done]. apply stripped_images in H.
  destruct (remove_top_level_thinking_if_broken _); [|done]. cbn [fst]. by rewrite (proj1 (same_counts _ _ (remove_same _))).
Qed.
Lemma thinking_settles a m b : thinking_settled a m (rectify_thinking a m b).1.
Proof.
  unfold thinking_settled, Rectify.rectify_thinking, strip_thinking_blocks. intros ->. pose proof (thinking_gone b) as Hg.
  destruct (remove_top_level_thinking_if_broken (without_thinking b)) eqn:E; [|done]. cbn [fst].
  rewrite (proj1 (proj2 (same_counts _ _ (remove_same _)))). split; [done|].
  unfold remove_top_level_thinking_if_broken, thinking_enabled. by rewrite get_remove_key.
Qed.

Lemma budget_keeps a m b :
  image_count (rectify_budget a m b).1 = image_count b /\ thinking_count (rectify_budget a m b).1 = thinking_count b /\
  remove_top_level_thinking_if_broken (rectify_budget a m b).1 = remove_top_level_thinking_if_broken b.
Proof.
  unfold rectify_budget. destruct (_ && _); [|done]. destruct (same_counts _ _ (raise_same b)) as (E1 & E2 & E3).
  split; [done|]. split; [done|]. unfold remove_top_level_thinking_if_broken. by rewrite raise_enabled, E3.
Qed.

(** C24: a request is rectified at most once. Whatever the error says, the rewritten body holds nothing
    that the same error would have rewritten again: no image that can be replaced, no thinking block or
    signature, no thinking switched on before an answer that does not start with it, and a budget
    within the bounds. *)
Theorem rectified_once a m b b' : rectify_value a m b = Some b' -> rectify_value a m b' = None.
Proof.
  unfold Rectify.rectify_value at 1. destruct (rectify_images m b) as [b1 c1] eqn:E1.
  destruct (rectify_thinking a m b1) as [b2 c2] eqn:E2. destruct (rectify_budget a m b2) as [b3 c3] eqn:E3.
  destruct (c1 || c2 || c3); [|done]. intros [= <-].
  pose proof (budget_keeps a m b2) as (K1 & K2 & K3). rewrite E3 in K1, K2, K3. cbn [fst] in *.
  apply rectify_settled.
  - intros Hm. rewrite K1. unfold rectify_images, replace_image_parts in E1. rewrite Hm in E1. injection E1 as <- _.
    pose proof (thinking_images a m _ (images_gone b)) as H. by rewrite E2 in H.
  - pose proof (thinking_settles a m b1) as H. rewrite E2 in H. cbn [fst] in H. intros Hm. rewrite K2, K3. by apply H.
  - intros Hm. unfold rectify_budget in E3. rewrite Hm in E3. pose proof (raise_twice b2) as H. by rewrite E3 in H.
Qed.
End settled.

(** ** What is kept *)

Lemma at_key_compose k f g v : at_key k f (at_key k g v) = at_key k (fun x => f (g x)) v.
Proof.
  destruct v; try done. cbn. f_equal. induction m as [|[k0 v] m IH]; [done|]. cbn. case_bool_decide as E; cbn.
  - by rewrite bool_decide_true.
  - by rewrite bool_decide_false, IH.
Qed.
Lemma at_key_ext k f g v : (forall x, f x = g x) -> at_key k f v = at_key k g v.
Proof.
  intros H. destruct v; try done. cbn. f_equal. induction m as [|[k0 v] m IH]; [done|]. cbn. by rewrite H, IH.
Qed.

(** A part that no rewriting is about. *)
Definition plain_part (p : Value) : Prop := is_image p = false /\ is_thinking p = false /\ is_signed p = false.
(** The parts of every message go through [g], one by one. *)
Definition rewrite_parts (g : Value -> option Value) (m : Value) : Value := at_key "content" (on_array (omap g)) m.

Definition keep_images (b : bool) (p : Value) : Value := if b then replace_part p else p.
Definition keep_thinking (b : bool) (p : Value) : option Value := if b then strip_block p else Some p.

Lemma omap_some (l : list Value) : omap Some l = l.
Proof. by apply omap_id_on, Forall_true. Qed.
Lemma rewrite_both (bi bt : bool) m :
  (if bt then strip_message else id) ((if bi then replace_message else id) m) =
  rewrite_parts (fun p => keep_thinking bt (keep_images bi p)) m.
Proof.
  assert (E : forall l : list Value, omap (fun p => strip_block (replace_part p)) l = omap strip_block (replace_part <$> l)).
  { intros l. induction l as [|x l IH]; [done|]. cbn. by rewrite IH. }
  unfold rewrite_parts. destruct bi, bt; cbn [keep_thinking keep_images]; unfold strip_message, replace_message.
  - rewrite at_key_compose. apply at_key_ext. intros []; try done. cbn. by rewrite E.
  - apply at_key_ext. by intros [].
  - done.
  - symmetry. apply at_key_id. intros [] _; try done. cbn. by rewrite omap_some.
Qed.

Section kept.
Context (to_lowercase : string -> string).

Definition other_fields (b b' : Value) : Prop :=
  forall k, k ∉ ["messages"; "input"; "thinking"; "max_tokens"] -> get k b' = get k b.

Lemma images_kept m b (bi := is_unsupported_image_error m) :
  let b1 := (rectify_images m b).1 in
  other_fields b b1 /\ array_at "messages" b1 = (if bi then replace_message else id) <$> array_at "messages" b /\
  array_at "input" b1 = (if bi then replace_item else id) <$> array_at "input" b.
Proof.
  cbv zeta. unfold rectify_images, replace_image_parts. fold bi. destruct bi; cbn [fst]; [|by rewrite !list_fmap_id].
  unfold without_images. split_and!.
  - intros k Hk. by rewrite !get_at_key_ne by set_solver.
  - by rewrite array_at_ne, array_at_fmap.
  - by rewrite array_at_fmap, array_at_ne.
Qed.

Lemma thinking_kept a m b (bt := is_thinking_error to_lowercase m && a) :
  let b2 := (rectify_thinking to_lowercase a m b).1 in
  other_fields b b2 /\ array_at "messages" b2 = (if bt then strip_message else id) <$> array_at "messages" b /\
  array_at "input" b2 = array_at "input" b.
Proof.
  cbv zeta. unfold rectify_thinking, strip_thinking_blocks. fold bt. destruct bt; cbn [fst]; [|by rewrite list_fmap_id].
  assert (Hw : (forall k, k <> "messages" -> get k (without_thinking b) = get k b) /\
               array_at "messages" (without_thinking b) = strip_message <$> array_at "messages" b).
  { unfold without_thinking. split; [intros k Hk; by rewrite get_at_key_ne|apply array_at_fmap]. }
  destruct Hw as [Hw1 Hw2]. destruct (remove_top_level_thinking_if_broken _); cbn [fst].
  - destruct (same_counts _ _ (remove_same (without_thinking b))) as (_ & _ & Hs). split_and!.
    + intros k Hk. rewrite get_remove_key, bool_decide_false by set_solver. apply Hw1. set_solver.
    + by rewrite Hs.
    + unfold array_at. rewrite get_remove_key, bool_decide_false by done. by rewrite Hw1.
  - split_and!; [intros k Hk; apply Hw1; set_solver|done|]. unfold array_at. by rewrite Hw1.
Qed.

Lemma budget_kept a m b : let b3 := (rectify_budget a m b).1 in other_fields b b3 /\ same_messages b b3.
Proof.
  cbv zeta. unfold rectify_budget. destruct (a && is_thinking_budget_error m); [|done]. split; [|apply raise_same].
  intros k Hk. unfold raise_thinking_budget. destruct (thinking_enabled b); [|done]. cbv zeta. cbn [fst].
  destruct (below 64000 _), (below 32000 _); rewrite ?get_set_key_ne, ?get_at_key_ne by set_solver; done.
Qed.

(** Rectification changes nothing but what was refused. Whatever the error says, the rewritten body
    has the same fields as before except for its messages, its input, its thinking and its output limit;
    there are as many messages, in the same order, and each differs at most in its content, where every
    part that is no image, no thinking block and carries no signature is still there, in its place; and
    every item of the input that is no image is unchanged. *)
Theorem rectify_preserves a m b b' :
  rectify_value to_lowercase a m b = Some b' ->
  (forall k, k ∉ ["messages"; "input"; "thinking"; "max_tokens"] -> get k b' = get k b) /\
  (exists g, (forall p, plain_part p -> g p = Some p) /\ array_at "messages" b' = rewrite_parts g <$> array_at "messages" b) /\
  (exists h, (forall p, is_input_image p = false -> h p = p) /\ array_at "input" b' = h <$> array_at "input" b).
Proof.
  unfold rectify_value. pose proof (images_kept m b) as (F1 & M1 & I1). destruct (rectify_images m b) as [b1 c1].
  pose proof (thinking_kept a m b1) as (F2 & M2 & I2). destruct (rectify_thinking to_lowercase a m b1) as [b2 c2].
  pose proof (budget_kept a m b2) as (F3 & S3). destruct (rectify_budget a m b2) as [b3 c3]. cbn [fst] in *.
  destruct (c1 || c2 || c3); [|done]. intros [= <-]. split_and!.
  - intros k Hk. by rewrite F3, F2, F1.
  - exists (fun p => keep_thinking (is_thinking_error to_lowercase m && a) (keep_images (is_unsupported_image_error m) p)). split.
    { intros p (P1 & P2 & P3). unfold keep_images, replace_part, keep_thinking, strip_block. rewrite P1.
      destruct (is_unsupported_image_error m), (_ && a); by rewrite ?P2, ?P3. }
    rewrite (proj2 (proj2 (same_counts _ _ S3))), M2, M1, <-list_fmap_compose. apply list_fmap_ext. intros _ x _. apply rewrite_both.
  - exists (if is_unsupported_image_error m then replace_item else id). split.
    { intros p Hp. destruct (is_unsupported_image_error m); [|done]. unfold replace_item. by rewrite Hp. }
    unfold array_at at 1. rewrite (proj2 S3). fold (array_at "input" b2). by rewrite I2, I1.
Qed.
End kept.

(** ** Sending *)

(** At most two requests are sent: the outbound body with the client's headers, and, only when
    rectification is on and the answer to it is a refusal that can be rectified, the rectified body with
    the client's headers except for its idempotency key. *)
Lemma rectify_sends show parse lossy lower enabled native send outbound hdrs :
  exists retry, (send_with_rectify show parse lossy lower enabled native send outbound hdrs).2 = (outbound, hdrs) :: retry /\
    (retry = [] \/ exists resp fixed hdrs', retry = [(fixed, hdrs')] /\ enabled = true /\ send outbound hdrs = Ok resp /\
       rectify_outbound show parse lossy lower native outbound (default "" resp.(r_bytes)) resp.(r_code) = Some fixed /\
       forall kv, kv ∈ hdrs' <-> kv ∈ hdrs /\ kv.1 <> "idempotency-key").
Proof.
  unfold send_with_rectify. cbv zeta. destruct (send outbound hdrs) as [resp|e]; [|exists []; auto].
  destruct enabled; [|exists []; auto]. cbn [negb orb]. destruct (is_rectifiable_status _); [|exists []; auto]. cbn [negb].
  destruct (rectify_outbound _ _ _ _ _ _ _ _) as [fixed|] eqn:E; [|exists []; auto]. eexists. split; [done|]. right.
  eexists resp, fixed, _. split_and!; [done..|]. intros kv. rewrite !list_elem_of_In, List.filter_In, negb_true_iff, bool_decide_eq_false. done.
Qed.

(** ** Examples, and a flaw *)

Module RectifySample.
Definition image : Value := json_object [("type", VString "image_url"); ("image_url", json_object [("url", VString "u")])].
Definition text : Value := json_object [("type", VString "text"); ("text", VString "hi")].
Definition body : Value :=
  json_object [("model", VString "m");
               ("messages", VArray [json_object [("role", VString "user"); ("content", VArray [text; image])]])].
Definition fixed : Value :=
  json_object [("model", VString "m");
               ("messages", VArray [json_object [("role", VString "user"); ("content", VArray [text; marker "text"])]])].
Definition error : string := "Image input is not supported for this model".
Definition nested : Value :=
  json_object [("input", VArray [json_object [("type", VString "message");
    ("content", VArray [json_object [("type", VString "input_image"); ("image_url", VString "u")]])]])].
End RectifySample.

Lemma rectified_once_witness :
  rectify_value id false RectifySample.error RectifySample.body = Some RectifySample.fixed /\
  rectify_value id false RectifySample.error RectifySample.fixed = None.
Proof.
  assert (H : rectify_value id false RectifySample.error RectifySample.body = Some RectifySample.fixed) by reflexivity.
  split; [exact H|exact (rectified_once id _ _ _ _ H)].
Defined.

Lemma rectify_preserves_witness : get "model" RectifySample.fixed = get "model" RectifySample.body.
Proof.
  refine (proj1 (rectify_preserves id false RectifySample.error RectifySample.body RectifySample.fixed _) "model" _).
  - reflexivity.
  - apply (bool_decide_unpack _). vm_compute. exact I.
Defined.

(** An image inside a message of a Responses input is not found: the request is sent to a provider
    without images as it is, and a refusal is not rectified. *)
Theorem nested_image_kept :
  replace_image_parts RectifySample.nested = (RectifySample.nested, 0%nat) /\
  rectify_value id false RectifySample.error RectifySample.nested = None.
Proof. done. Qed.
