(* ===== verification/Upstream.v ===== *)
(** * Requests to the upstream

[send_upstream] of [src/service/proxy.rs] with [redact_secrets] and [content_type_of]: the address, the
headers and the time limits of the request an attempt sends, and what the attempt sees of the answer. The
checks of the [http] crate on header names and values, and the transport, are parameters. Header names are
in lower case and a header list is in the order of iteration. *)

From S2P Require Import Prelude Json Metering Body Streams InlineThink Chat ToolMedia Routing Rectify.

Local Open Scope Z_scope.

(** ** The address *)

Definition is_slash (a : Ascii.ascii) : bool := bool_decide (a = "/"%char).
Definition is_query_mark (a : Ascii.ascii) : bool := bool_decide (a = "?"%char) || bool_decide (a = "#"%char).

Fixpoint drop_while (p : Ascii.ascii -> bool) (s : string) : string :=
  match s with String a s' => if p a then drop_while p s' else s | EmptyString => s end.
Fixpoint take_until (p : Ascii.ascii -> bool) (s : string) : string :=
  match s with String a s' => if p a then "" else String a (take_until p s') | EmptyString => "" end.
Definition trim_end_matches (p : Ascii.ascii -> bool) (s : string) : string := string_rev (drop_while p (string_rev s)).

(** The base address without surrounding blanks, final slashes, query and fragment. *)
Definition clean_base (base_url : string) : string :=
  take_until is_query_mark (trim_end_matches is_slash (trim base_url)).

(** The path of the endpoint is appended unless the base has it, and its [/v1] is not doubled. *)
Definition join_path (base path : string) : string :=
  let base_lower := to_ascii_lowercase base in
  let upstream_lower := to_ascii_lowercase path in
  if ends_with upstream_lower base_lower then base
  else if ends_with "/v1" base_lower && starts_with "/v1/" upstream_lower then base +:+ str_drop 3 path
  else base +:+ path.
Definition upstream_url (base_url path : string) : string := join_path (clean_base base_url) path.

(** ** The headers *)

Definition CLIENT_HEADER_PASSTHROUGH : list string :=
  ["anthropic-version"; "anthropic-beta"; "user-agent"; "x-app"; "http-referer"; "x-title";
   "openai-organization"; "openai-project"; "originator"; "session_id"; "idempotency-key";
   "anthropic-dangerous-direct-browser-access"; "x-claude-code-session-id"].

(** [HeaderMap::get] and [HeaderMap::get_all] *)
Definition header_of (k : string) (h : headers) : option string := Map.get k h.
Definition headers_of (k : string) (h : headers) : list string := (List.filter (fun kv => bool_decide (kv.1 = k)) h).*2.

Record Request : Type := {
  url : string;
  req_headers : option headers;  (** [None] when a name or value was refused *)
  req_body : string;
  total_timeout_secs : option Z;
  header_timeout_ms : Z;
}.

Definition claude_code_beta : string := "claude-code-20250219".
Definition context_1m_beta : string := "context-1m-2025-08-07".
Definition add_beta (wanted : bool) (beta : string) (betas : list string) : list string :=
  if wanted && negb (bool_decide (beta ∈ betas)) then betas ++ [beta] else betas.

Section send.
(** [HeaderName::from_str], [HeaderValue::from_str] and [HeaderValue::to_str] *)
Context (header_name header_value to_str : string -> option string).
Context (p : Provider) (provider_key : string) (e : Endpoint) (request_id : string).
(** From the settings: the operator's headers, the beta mark, the time limit of a plain request. *)
Context (custom : list (string * Value)) (inject_claude_code_beta : bool) (non_stream_timeout_secs : Z).

(** [RequestBuilder::header] appends; a refused name or value makes the whole request fail. *)
Definition put (n v : string) (b : option headers) : option headers := h ← b; Some (h ++ [(n, v)]).
Definition put_str (n s : string) (b : option headers) : option headers := h ← b; v ← header_value s; Some (h ++ [(n, v)]).

Definition x_api_key : bool := eq_ignore_ascii_case (trim p.(auth_scheme)) "x-api-key".
Definition auth_header (b : option headers) : option headers :=
  if x_api_key then put_str "x-api-key" provider_key b else put_str "authorization" ("Bearer " +:+ provider_key) b.

Definition anthropic_native : bool := eq_ignore_ascii_case p.(api_type) "anthropic".

Definition anthropic_version (client : headers) : string :=
  match header_of "anthropic-version" client ≫= to_str with
  | Some v => if str_is_empty (trim v) then "2023-06-01" else v
  | None => "2023-06-01"
  end.
Definition version_header (client : headers) (b : option headers) : option headers :=
  if anthropic_native then put_str "anthropic-version" (anthropic_version client) b else b.

Definition passed_header (client : headers) (b : option headers) (n : string) : option headers :=
  if anthropic_native && bool_decide (n = "anthropic-beta") then b
  else match header_of n client with Some v => put n v b | None => b end.
Definition passed_headers (client : headers) (b : option headers) : option headers :=
  foldl (passed_header client) b CLIENT_HEADER_PASSTHROUGH.

Definition client_betas (client : headers) : list string :=
  List.filter (fun s => negb (str_is_empty s))
    (trim <$> (omap to_str (headers_of "anthropic-beta" client) ≫= split_comma "")).
Definition beta_header (wants_1m : bool) (client : headers) (b : option headers) : option headers :=
  if anthropic_native then
    let betas := add_beta wants_1m context_1m_beta (add_beta inject_claude_code_beta claude_code_beta (client_betas client)) in
    if bool_decide (betas = []) then b else put_str "anthropic-beta" (join "," betas) b
  else b.

Definition is_stainless (n : string) : bool := starts_with "x-stainless-" n.
Definition stainless_headers (client : headers) (b : option headers) : option headers :=
  h ← b; Some (h ++ List.filter (fun kv => is_stainless kv.1) client).

(** Settings whose name or value is not a header are skipped. *)
Definition custom_header (kv : string * Value) : option (string * string) :=
  s ← as_str kv.2; n ← header_name kv.1; v ← header_value s; Some (n, v).
Definition custom_headers (b : option headers) : option headers := h ← b; Some (h ++ omap custom_header custom).

(** The headers of the channel; one that is not a header makes the request fail. *)
Definition extra_header (b : option headers) (kv : string * Value) : option headers :=
  match as_str kv.2 with
  | Some s => h ← b; n ← header_name kv.1; v ← header_value s; Some (h ++ [(n, v)])
  | None => b
  end.
Definition channel_headers (b : option headers) : option headers :=
  match as_object p.(extra_headers) with Some m => foldl extra_header b m | None => b end.

Definition accept_header (streamed : bool) (client : headers) (b : option headers) : option headers :=
  if streamed then put "accept" "text/event-stream" b
  else put "accept" (default "application/json" (header_of "accept" client)) b.

Definition upstream_request (streamed wants_1m : bool) (body : string) (client : headers) : Request :=
  let b := auth_header (Some []) in
  let b := put "x-request-id" request_id (put "content-type" "application/json" b) in
  let b := version_header client b in
  let b := passed_headers client b in
  let b := beta_header wants_1m client b in
  let b := stainless_headers client b in
  let b := custom_headers b in
  let b := channel_headers b in
  {| url := upstream_url p.(base_url) e.(upstream);
     req_headers := accept_header streamed client b;
     req_body := body;
     total_timeout_secs := if negb streamed && (0 <? non_stream_timeout_secs) then Some non_stream_timeout_secs else None;
     header_timeout_ms := Z.max p.(timeout_ms) 1000 |}.

(** ** The answer *)

Definition redact_secrets (message : string) : string :=
  if str_is_empty (trim provider_key) then message else str_replace provider_key "***" message.

(** The transport answers a request, fails with the text of an error, or does not answer in time. *)
Context (builder_error : string) (transport : Request -> option (result Response string)).

Definition send_upstream (streamed wants_1m : bool) (body : string) (client : headers) : result Response string :=
  let req := upstream_request streamed wants_1m body client in
  match req.(req_headers) with
  | None => Err (redact_secrets ("upstream request failed: " +:+ builder_error))
  | Some _ =>
      match transport req with
      | None => Err "upstream header timeout"
      | Some (Err m) => Err (redact_secrets ("upstream request failed: " +:+ m))
      | Some (Ok r) => Ok r
      end
  end.

Definition content_type_of (h : headers) : string := default "application/json" (header_of "content-type" h ≫= to_str).
End send.

(** ** Properties *)

Lemma lowercase_app a b : to_ascii_lowercase (a +:+ b) = to_ascii_lowercase a +:+ to_ascii_lowercase b.
Proof. induction a as [|c a IH]; [done|]. change (String c a +:+ b) with (String c (a +:+ b)). cbn [to_ascii_lowercase]. by rewrite IH. Qed.
Lemma lowercase_drop n s : to_ascii_lowercase (str_drop n s) = str_drop n (to_ascii_lowercase s).
Proof. revert s. induction n as [|n IH]; intros [|c s]; cbn; done. Qed.

Lemma ends_with_spec p s : ends_with p s = true <-> exists t, s = t +:+ p.
Proof.
  unfold ends_with. rewrite starts_with_spec. split; intros [t H].
  - exists (string_rev t). by rewrite <-(string_rev_invol s), H, string_rev_append, string_rev_invol.
  - exists (string_rev t). by rewrite H, string_rev_append.
Qed.

Lemma join_path_ends base path : ends_with (to_ascii_lowercase path) (to_ascii_lowercase (join_path base path)) = true.
Proof.
  unfold join_path. cbv zeta. destruct (ends_with (to_ascii_lowercase path) (to_ascii_lowercase base)) eqn:E; [done|].
  destruct (_ && _) eqn:E'; apply ends_with_spec; rewrite lowercase_app; [|by eexists].
  apply andb_true_iff in E' as [(x & ->)%ends_with_spec (y & Hy)%starts_with_spec].
  exists x. rewrite lowercase_drop, Hy, string_app_assoc. done.
Qed.

(** An address that already ends in the path of the endpoint is used as it is, so that configuring the
    complete address of an endpoint gives the same address as configuring its base. *)
Theorem endpoint_not_doubled base path : join_path (join_path base path) path = join_path base path.
Proof. unfold join_path at 1. cbv zeta. by rewrite join_path_ends. Qed.

(** The headers of a client that may reach an upstream. *)
Definition allowed (n : string) : bool :=
  bool_decide (n ∈ CLIENT_HEADER_PASSTHROUGH) || is_stainless n || bool_decide (n = "accept").

Lemma passthrough_allowed : Forall (fun k => allowed k = true) CLIENT_HEADER_PASSTHROUGH.
Proof. apply Forall_forall. intros k Hk. unfold allowed. by rewrite bool_decide_true. Qed.

Section confined.
Context (h1 h2 : headers) (n v : string).
Hypothesis Hn : allowed n = false.

Lemma header_of_confined k : allowed k = true -> header_of k (h1 ++ (n, v) :: h2) = header_of k (h1 ++ h2).
Proof.
  intros Hk. unfold header_of. induction h1 as [|[k' v'] h IH]; cbn.
  - rewrite bool_decide_false; [done|]. congruence.
  - by rewrite IH.
Qed.
Lemma headers_of_confined k : allowed k = true -> headers_of k (h1 ++ (n, v) :: h2) = headers_of k (h1 ++ h2).
Proof.
  intros Hk. unfold headers_of. rewrite !List.filter_app. cbn. rewrite bool_decide_false; [done|]. congruence.
Qed.
Lemma stainless_confined :
  List.filter (fun kv => is_stainless kv.1) (h1 ++ (n, v) :: h2) = List.filter (fun kv => is_stainless kv.1) (h1 ++ h2).
Proof.
  rewrite !List.filter_app. cbn [List.filter fst]. unfold allowed in Hn. apply orb_false_iff in Hn as [[_ ->]%orb_false_iff _]. done.
Qed.
End confined.

Lemma passed_confined p h1 h2 n v l b :
  allowed n = false -> Forall (fun k => allowed k = true) l ->
  foldl (passed_header p (h1 ++ (n, v) :: h2)) b l = foldl (passed_header p (h1 ++ h2)) b l.
Proof.
  intros Hn. revert b. induction l as [|k l IH]; intros b Hl; [done|]. inversion_clear Hl as [|?? Hk Hl']. cbn.
  rewrite IH by done. f_equal. unfold passed_header. by rewrite header_of_confined.
Qed.

(** A header of the client that is not on the list of forwarded headers, such as the key with which the
    client authenticates, has no influence on the request to the upstream. *)
Theorem client_headers_confined header_name header_value to_str p key e rid custom inject limit streamed wants_1m body h1 n v h2 :
  allowed n = false ->
  upstream_request header_name header_value to_str p key e rid custom inject limit streamed wants_1m body (h1 ++ (n, v) :: h2) =
  upstream_request header_name header_value to_str p key e rid custom inject limit streamed wants_1m body (h1 ++ h2).
Proof.
  intros Hn. unfold upstream_request. cbv zeta.
  unfold accept_header, stainless_headers, beta_header, client_betas, passed_headers, version_header, anthropic_version.
  rewrite !header_of_confined, headers_of_confined, stainless_confined by done.
  rewrite passed_confined; [done..|]. apply passthrough_allowed.
Qed.

Definition a_provider : Provider :=
  {| id := 1; name := "a"; api_type := "anthropic"; base_url := "https://api.example/v1/"; api_key_encrypted := "";
     timeout_ms := 0; provider_extra_body := VNull; auth_scheme := "x-api-key";
     extra_headers := json_object [("user-agent", VString "gateway")]; supports_images := true |}.
Definition messages_endpoint : Endpoint :=
  {| api := "/v1/messages"; upstream := "/messages"; responses := false; anthropic := true |}.
Definition a_request (client : headers) : Request :=
  upstream_request Some Some Some a_provider "k" messages_endpoint "r" [] false 600 false false "{}" client.

Lemma client_headers_confined_witness :
  a_request [("x-app", "cli"); ("authorization", "Bearer secret")] = a_request [("x-app", "cli")].
Proof.
  unfold a_request.
  apply (client_headers_confined Some Some Some a_provider "k" messages_endpoint "r" [] false 600 false false "{}"
           [("x-app", "cli")] "authorization" "Bearer secret" []).
  vm_compute. reflexivity.
Defined.

(** The headers of a channel do not replace those that are passed on: both reach the upstream. *)
Theorem channel_header_not_overriding :
  headers_of "user-agent" <$> (a_request [("user-agent", "client")]).(req_headers) = Some ["client"; "gateway"].
Proof. by vm_compute. Qed.

(** A client that states the version of the Anthropic protocol makes the gateway state it twice. *)
Theorem anthropic_version_sent_twice :
  headers_of "anthropic-version" <$> (a_request [("anthropic-version", "2023-06-01")]).(req_headers) =
  Some ["2023-06-01"; "2023-06-01"].
Proof. by vm_compute. Qed.

(** The final slash is removed before the query, so that a slash in front of a query stays. *)
Theorem slash_before_query_kept : upstream_url "https://api.example/v1/?tenant=a" "/messages" = "https://api.example/v1//messages".
Proof. by vm_compute. Qed.
