(* ===== verification/Health.v ===== *)
(** * Health of the upstreams

[src/service/health.rs]: the probe of a provider in two hops, the judgement of its answers, and the cache of
results. The network is a parameter: for an address and the number of the attempt, the response or the
error with its time. The JSON parser and printer, the lossy decoding of bytes and the text of a status code
are parameters too. Times are nanoseconds since the epoch. *)

From S2P Require Import Prelude Json Calendar Metering Body Streams InlineThink Chat ToolMedia Routing ErrorShape Upstream.

Local Open Scope Z_scope.

Definition HEALTH_PATH : string := "/1/status".
Definition PROBE_BODY_LIMIT : nat := 64 * 1024.
Definition PROBE_TTL : Z := 30 * NANOS.

Inductive Verdict : Type := Healthy | Degraded | Down | Inconclusive.

#[global] Instance Verdict_eq_dec : EqDecision Verdict.
Proof. solve_decision. Defined.

Definition verdict_str (v : Verdict) : string :=
  match v with Healthy => "healthy" | Degraded => "degraded" | Down => "down" | Inconclusive => "inconclusive" end.

Record ProbeResult : Type := {
  verdict : Verdict;
  detail : option string;
  latency_ms : option Z;
  http_status : option Z;
  endpoint : string;
  checked_at : Z;
}.

(** The results by provider. *)
Abbreviation Cache := (gmap Z ProbeResult).

(** ** Addresses *)

(** The same cleaning as that of the address of a request. *)
Definition clean_base (base_url : string) : string :=
  take_until is_query_mark (trim_end_matches is_slash (trim base_url)).
Definition health_url (base_url : string) : string := clean_base base_url +:+ HEALTH_PATH.
Definition models_url (base_url : string) : string := clean_base base_url +:+ "/models".

(** ** The network *)

(** A response with the pieces of its body ([None] for a failed read). *)
Record HttpResponse : Type := { code : Z; pieces : list (option string) }.
(** An error with its text and the texts of its sources. *)
Record NetError : Type := { is_timeout : bool; is_connect : bool; err_text : string; sources : list string }.
(** What an attempt meets: the outcome, the milliseconds since the probe started, the time. *)
Record Attempt : Type := { outcome : result HttpResponse NetError; elapsed_ms : Z; at_time : Z }.

Definition snippet (body : string) (max_chars : nat) : string := take_chars max_chars body.

Fixpoint read_body_limited (max : nat) (l : list (option string)) : string :=
  match max, l with
  | S _, Some chunk :: l =>
      if (String.length chunk <=? max)%nat then chunk +:+ read_body_limited (max - String.length chunk) l
      else str_take max chunk
  | _, _ => ""
  end.

Definition error_chain (e : NetError) : string :=
  e.(err_text) +:+ concat_str ((fun s => " -> " +:+ s) <$> take 4 e.(sources)).

Definition dquote : string := String (Ascii.ascii_of_nat 34) "".

(** ** Judging a body *)

Definition UP_WORDS : list string := ["ok"; "healthy"; "up"; "normal"; "serving"; "green"; "true"; "运行正常"; "正常"].
Definition DEGRADED_WORDS : list string := ["degraded"; "warning"; "warn"; "yellow"; "性能下降"; "降级"].
Definition DOWN_WORDS : list string :=
  ["down"; "error"; "fail"; "failed"; "critical"; "outage"; "red"; "false"; "故障"; "不可用"; "维护"].
Definition IDENT_KEYS : list string := ["service"; "server"; "name"; "app"; "version"; "build"].

Section probe.
Context (parse_json : string -> option Value) (show : Value -> string) (from_utf8_lossy : string -> string).
Context (status_text : Z -> string).

Definition status_word (v : Value) : option string :=
  match v with
  | VString s => Some (to_ascii_lowercase (trim s))
  | VBool b => Some (if b then "true" else "false")
  | _ => None
  end.
Definition judge_status (s : string) : Verdict * string :=
  if bool_decide (s ∈ UP_WORDS) then (Healthy, "健康检查 HTTP 200（status=" +:+ s +:+ "）")
  else if bool_decide (s ∈ DEGRADED_WORDS) then (Degraded, "健康检查 HTTP 200，服务自报降级（status=" +:+ s +:+ "）")
  else if bool_decide (s ∈ DOWN_WORDS) then (Down, "健康检查 HTTP 200，服务自报故障（status=" +:+ s +:+ "）")
  else (Degraded, "HTTP 200 但 status 字段值无法识别（" +:+ dquote +:+ s +:+ dquote +:+ "），按降级展示").

(** A field that identifies a service. *)
Definition ident_of (v : Value) (k : string) : option (string * string) :=
  match get k v with
  | Some (VString s) => Some (k, s)
  | Some (VNumber n) => Some (k, show (VNumber n))
  | _ => None
  end.

Definition classify_success_body (body : string) : Verdict * string :=
  let trimmed := trim body in
  match parse_json trimmed with
  | None => (Degraded, "HTTP 200 但响应体非 JSON（" +:+ snippet trimmed 80 +:+ "），无法确认服务状态")
  | Some v =>
      match get "status" v with
      | Some sv =>
          match status_word sv with
          | None => (Degraded, "HTTP 200 但 status 字段类型异常（非字符串/布尔），按降级展示")
          | Some s => judge_status s
          end
      | None =>
          match List.hd_error (omap (ident_of v) IDENT_KEYS) with
          | Some (k, val) =>
              (Healthy, "健康检查 HTTP 200，服务标识 " +:+ k +:+ "=" +:+ dquote +:+ val +:+ dquote +:+
                        "（无 status 字段，按连通性判定）")
          | None =>
              match get "success" v with
              | Some (VBool true) => (Healthy, "健康检查 HTTP 200（success=true）")
              | Some (VBool false) => (Down, "健康检查 HTTP 200，success=false")
              | _ =>
                  if match get "data" v with Some d => is_object d | None => false end
                  then (Healthy, "健康检查 HTTP 200，含 data 状态对象（按连通性判定）")
                  else (Degraded, "HTTP 200 但响应格式不符合预期（未找到 status 字段或服务标识），按降级展示")
              end
          end
      end
  end.

Definition is_model_list (v : Value) : bool :=
  bool_decide (get_str "object" v = Some "list") || match get "data" v with Some d => is_array d | None => false end.

Definition classify_models_body (body : string) : Verdict * string :=
  match parse_json (trim body) with
  | Some v =>
      if is_model_list v then
        let count := match get "data" v ≫= as_array with Some a => pretty (length a) | None => "?" end in
        (Healthy, "models 端点 HTTP 200，返回模型列表（" +:+ count +:+ " 个模型）")
      else classify_success_body body
  | None => classify_success_body body
  end.

(** ** Judging a response *)

Definition is_success (c : Z) : bool := (200 <=? c) && (c <? 300).
Definition is_server_error (c : Z) : bool := (500 <=? c) && (c <? 600).

Definition judge_response (r : HttpResponse) (address : string) (success : string -> Verdict * string) : Verdict * string :=
  let body := from_utf8_lossy (read_body_limited PROBE_BODY_LIMIT r.(pieces)) in
  if is_success r.(code) then success body
  else if r.(code) =? 404 then (Inconclusive, "健康检查端点不存在（HTTP 404）：" +:+ address +:+ " 未部署，回退调用统计判定")
  else if (r.(code) =? 401) || (r.(code) =? 403) then
    (Inconclusive, "健康检查被拒绝（HTTP " +:+ pretty r.(code) +:+ "，鉴权不通过）；服务可达，回退调用统计判定")
  else if r.(code) =? 429 then (Inconclusive, "健康检查被限流（HTTP 429），回退调用统计判定")
  else if is_server_error r.(code) then (Down, "健康检查 HTTP " +:+ status_text r.(code) +:+ "：" +:+ snippet body 200)
  else (Inconclusive, "健康检查返回异常状态 HTTP " +:+ status_text r.(code) +:+ "，回退调用统计判定").

Definition classify_response (r : HttpResponse) (address : string) (a : Attempt) (success : string -> Verdict * string) : ProbeResult :=
  let '(v, d) := judge_response r address success in
  {| verdict := v; detail := Some d; latency_ms := Some a.(elapsed_ms); http_status := Some r.(code);
     endpoint := address; checked_at := a.(at_time) |}.

(** ** The probe *)

Definition error_kind (e : NetError) : string :=
  if e.(is_timeout) then "超时" else if e.(is_connect) then "连接失败" else "请求失败".

(** The outcome of the attempt [n] on an address with a header. *)
Context (net : string -> list (string * string) -> nat -> Attempt).
(** The key of a provider, when it can be decrypted. *)
Context (api_key_of : Provider -> option string).

(** The key goes to the provider in the form of its requests. *)
Definition probe_auth (p : Provider) : list (string * string) :=
  match api_key_of p with
  | Some k => if x_api_key p then [("x-api-key", k)] else [("authorization", "Bearer " +:+ k)]
  | None => []
  end.

(** Two attempts; a response ends them. The second component lists the requests. *)
Definition request_probe (p : Provider) (address : string) (success : string -> Verdict * string) (network_verdict : Verdict)
    : ProbeResult * list string :=
  match (net address (probe_auth p) 0).(outcome) with
  | Ok r => (classify_response r address (net address (probe_auth p) 0) success, [address])
  | Err _ =>
      match (net address (probe_auth p) 1).(outcome) with
      | Ok r => (classify_response r address (net address (probe_auth p) 1) success, [address; address])
      | Err e =>
          ({| verdict := network_verdict;
              detail := Some ("健康检查" +:+ error_kind e +:+ "（" +:+ address +:+ "，重试后仍失败）：" +:+ error_chain e);
              latency_ms := Some (net address (probe_auth p) 1).(elapsed_ms); http_status := None;
              endpoint := address; checked_at := (net address (probe_auth p) 1).(at_time) |}, [address; address])
      end
  end.

(** A refused key on the second hop is a finding of its own. *)
Definition refused_key (r : ProbeResult) : bool :=
  bool_decide (r.(verdict) = Inconclusive) && match r.(http_status) with Some c => (c =? 401) || (c =? 403) | None => false end.
Definition with_verdict (v : Verdict) (d : option string) (r : ProbeResult) : ProbeResult :=
  {| verdict := v; detail := d; latency_ms := r.(latency_ms); http_status := r.(http_status);
     endpoint := r.(endpoint); checked_at := r.(checked_at) |}.

Definition probe_provider (p : Provider) : ProbeResult * list string :=
  let '(first, log) := request_probe p (health_url p.(base_url)) classify_success_body Down in
  if negb (bool_decide (first.(verdict) = Inconclusive)) then (first, log)
  else
    let '(second, log') := request_probe p (models_url p.(base_url)) classify_models_body Inconclusive in
    let second :=
      if refused_key second then
        with_verdict Degraded
          (Some ("models 端点存活但鉴权被拒（HTTP " +:+ pretty (default 0 second.(http_status)) +:+
                 "）：渠道 Key 可能失效或无 models 权限，调用预期失败")) second
      else second in
    let told := match second.(detail) with
                | Some d => default "" first.(detail) +:+ "；回退 models 探测：" +:+ d
                | None => default "" first.(detail)
                end in
    (with_verdict second.(verdict) (Some told) second, log ++ log').

(** ** The cache *)

Definition is_stale (now : Z) (cache : Cache) (p : Provider) : bool :=
  match cache !! p.(Routing.id) with Some r => PROBE_TTL <? now - r.(checked_at) | None => true end.
Definition kept (providers : list Provider) (cache : Cache) : Cache :=
  filter (fun kv => kv.1 ∈ Routing.id <$> providers) cache.

(** [snapshot] with the result of a probe of each provider. *)
Definition snapshot_with (probe : Provider -> ProbeResult) (providers : list Provider) (now : Z) (cache : Cache) : Cache :=
  let cache := kept providers cache in
  foldl (fun c p => <[p.(Routing.id) := probe p]> c) cache (List.filter (is_stale now cache) providers).
Definition snapshot (providers : list Provider) (now : Z) (cache : Cache) : Cache :=
  snapshot_with (fun p => (probe_provider p).1) providers now cache.

(** ** The verdict of a probe *)

(** The response that ends the attempts on an address. *)
Definition answered (p : Provider) (address : string) : option HttpResponse :=
  match (net address (probe_auth p) 0).(outcome), (net address (probe_auth p) 1).(outcome) with
  | Ok r, _ | Err _, Ok r => Some r
  | Err _, Err _ => None
  end.

Lemma request_probe_verdict p address success nv :
  (request_probe p address success nv).1.(verdict) =
  match answered p address with Some r => (judge_response r address success).1 | None => nv end.
Proof.
  unfold request_probe, answered, classify_response.
  destruct (outcome (net address (probe_auth p) 0)), (outcome (net address (probe_auth p) 1)); cbn; try done; by destruct (judge_response _ _ success).
Qed.
Lemma request_probe_status p address success nv :
  (request_probe p address success nv).1.(http_status) = code <$> answered p address.
Proof.
  unfold request_probe, answered, classify_response.
  destruct (outcome (net address (probe_auth p) 0)), (outcome (net address (probe_auth p) 1)); cbn; try done; by destruct (judge_response _ _ success).
Qed.
Lemma request_probe_log p address success nv :
  exists n, (request_probe p address success nv).2 = replicate n address /\ (n <= 2)%nat.
Proof.
  unfold request_probe. destruct (outcome (net address (probe_auth p) 0)), (outcome (net address (probe_auth p) 1)); cbn;
    first [exists 1%nat; split; [reflexivity|lia] | exists 2%nat; split; [reflexivity|lia]].
Qed.

Lemma success_conclusive body : (classify_success_body body).1 <> Inconclusive.
Proof.
  unfold classify_success_body, judge_status. cbv zeta. repeat (case_match; cbn; try done).
Qed.
Lemma models_conclusive body : (classify_models_body body).1 <> Inconclusive.
Proof. unfold classify_models_body. repeat (case_match; cbn; try done; try apply success_conclusive). Qed.

(** What a response says, by its status code. *)
Lemma judge_cases r address success :
  (forall b, (success b).1 <> Inconclusive) ->
  match (judge_response r address success).1 with
  | Healthy | Degraded => is_success r.(code) = true
  | Down => is_success r.(code) = true \/ is_server_error r.(code) = true
  | Inconclusive => is_success r.(code) = false /\ is_server_error r.(code) = false
  end.
Proof.
  intros Hs. unfold judge_response. cbv zeta. generalize (from_utf8_lossy (read_body_limited PROBE_BODY_LIMIT r.(pieces))). intros b. specialize (Hs b).
  destruct (is_success (code r)) eqn:E; [destruct (success b) as [[] ?]; cbn in *; auto; done|].
  destruct (Z.eqb_spec (code r) 404) as [->|_]; [done|].
  destruct ((code r =? 401) || (code r =? 403)) eqn:Ea; [split; [done|unfold is_server_error; lia]|].
  destruct (Z.eqb_spec (code r) 429) as [->|_]; [done|]. destruct (is_server_error (code r)); cbn; auto.
Qed.

(** The verdict of a probe in terms of the responses of its two hops. *)
Definition second_verdict (r : option HttpResponse) (address : string) : Verdict :=
  match r with
  | None => Inconclusive
  | Some r =>
      let v := (judge_response r address classify_models_body).1 in
      if bool_decide (v = Inconclusive) && ((r.(code) =? 401) || (r.(code) =? 403)) then Degraded else v
  end.

Lemma probe_verdict p :
  (probe_provider p).1.(verdict) =
  match answered p (health_url p.(base_url)) with
  | None => Down
  | Some r =>
      let v := (judge_response r (health_url p.(base_url)) classify_success_body).1 in
      if bool_decide (v = Inconclusive)
      then second_verdict (answered p (models_url p.(base_url))) (models_url p.(base_url)) else v
  end.
Proof.
  unfold probe_provider. pose proof (request_probe_verdict p (health_url p.(base_url)) classify_success_body Down) as H1.
  pose proof (request_probe_verdict p (models_url p.(base_url)) classify_models_body Inconclusive) as H2.
  pose proof (request_probe_status p (models_url p.(base_url)) classify_models_body Inconclusive) as H3.
  destruct (request_probe p (health_url _) _ _) as [first log], (request_probe p (models_url _) _ _) as [second log'].
  cbn [fst] in *. destruct (answered p (health_url _)) as [r|]; cbv zeta; rewrite <-?H1; [|by rewrite H1].
  case_bool_decide; [|done]. cbn [negb with_verdict verdict fst]. unfold refused_key, second_verdict. rewrite H3, H2.
  destruct (answered p (models_url _)) as [r2|]; cbn; [|by rewrite andb_false_r].
  by destruct (bool_decide _ && _).
Qed.

(** A provider is reported healthy only after one of its two addresses answered with success, and down
    only when its health address could not be reached in two attempts or one of the addresses answered with
    a server error or a report of its own; and a probe makes at most four requests, the last ones to the
    model list and only when the health address answered with neither success nor a server error. *)
Theorem probe_sound p :
  let hop a r := answered p a = Some r /\ a ∈ [health_url p.(base_url); models_url p.(base_url)] in
  ((probe_provider p).1.(verdict) = Healthy -> exists a r, hop a r /\ is_success r.(code) = true) /\
  ((probe_provider p).1.(verdict) = Down ->
     answered p (health_url p.(base_url)) = None \/
     exists a r, hop a r /\ (is_success r.(code) = true \/ is_server_error r.(code) = true)) /\
  exists n m, (probe_provider p).2 = replicate n (health_url p.(base_url)) ++ replicate m (models_url p.(base_url)) /\
    (n <= 2)%nat /\ (m <= 2)%nat /\
    (m <> 0%nat -> exists r, answered p (health_url p.(base_url)) = Some r /\
                         is_success r.(code) = false /\ is_server_error r.(code) = false).
Proof.
  cbv zeta. rewrite probe_verdict. pose proof (fun r => judge_cases r (health_url p.(base_url)) classify_success_body success_conclusive) as J1.
  pose proof (fun r => judge_cases r (models_url p.(base_url)) classify_models_body models_conclusive) as J2.
  assert (Hh : health_url p.(base_url) ∈ [health_url p.(base_url); models_url p.(base_url)]) by set_solver.
  assert (Hm : models_url p.(base_url) ∈ [health_url p.(base_url); models_url p.(base_url)]) by set_solver.
  split_and!.
  - destruct (answered p (health_url _)) as [r|] eqn:E1; [|done]. cbv zeta. specialize (J1 r). case_bool_decide as Ei.
    + unfold second_verdict. destruct (answered p (models_url _)) as [r2|] eqn:E2; [|done]. specialize (J2 r2).
      destruct (_ && _); [done|]. intros Hv. rewrite Hv in J2. eauto.
    + intros Hv. rewrite Hv in J1. eauto.
  - destruct (answered p (health_url _)) as [r|] eqn:E1; [|by left]. cbv zeta. specialize (J1 r). case_bool_decide as Ei.
    + unfold second_verdict. destruct (answered p (models_url _)) as [r2|] eqn:E2; [|done]. specialize (J2 r2).
      destruct (_ && _); [done|]. intros Hv. rewrite Hv in J2. right. eauto.
    + intros Hv. rewrite Hv in J1. right. eauto.
  - unfold probe_provider. pose proof (request_probe_verdict p (health_url p.(base_url)) classify_success_body Down) as H1.
    destruct (request_probe_log p (health_url p.(base_url)) classify_success_body Down) as (n & L1 & Hn).
    destruct (request_probe_log p (models_url p.(base_url)) classify_models_body Inconclusive) as (m & L2 & Hm2).
    destruct (request_probe p (health_url _) _ _) as [first log], (request_probe p (models_url _) _ _) as [second log'].
    cbn [fst snd] in *. case_bool_decide as Ei; cbn [negb fst snd]; subst log log'.
    + exists n, m. split_and!; [done..|]. intros _. rewrite Ei in H1. destruct (answered p (health_url _)) as [r|]; [|done].
      exists r. split; [done|]. specialize (J1 r). by rewrite <-H1 in J1.
    + exists n, 0%nat. split_and!; [by rewrite app_nil_r|done|lia|done].
Qed.
End probe.

(** ** The cache *)

Section cache.
Context (probe : Provider -> ProbeResult).

Lemma filter_sublist_bool {A} (f : A -> bool) (l : list A) : List.filter f l `sublist_of` l.
Proof. induction l as [|x l IH]; cbn; [constructor|]. destruct (f x); by constructor. Qed.
Lemma nodup_id (l : list Provider) p q : NoDup (Routing.id <$> l) -> p ∈ l -> q ∈ l -> Routing.id p = Routing.id q -> p = q.
Proof.
  induction l as [|x l IH]; [by intros _ ?%elem_of_nil|]. cbn. intros [Hx Hl]%NoDup_cons.
  intros [->|Hp]%elem_of_cons [->|Hq]%elem_of_cons E; [done| | |by apply IH]; exfalso; apply Hx;
    [rewrite E|rewrite <-E]; by apply list_elem_of_fmap_2.
Qed.

Lemma insert_all l (c : Cache) k :
  NoDup (Routing.id <$> l) ->
  (forall p, p ∈ l -> Routing.id p = k -> foldl (fun c p => <[p.(Routing.id) := probe p]> c) c l !! k = Some (probe p)) /\
  (k ∉ Routing.id <$> l -> foldl (fun c p => <[p.(Routing.id) := probe p]> c) c l !! k = c !! k).
Proof.
  revert c. induction l as [|q l IH]; intros c; [split; [by intros p ?%elem_of_nil|done]|].
  cbn. intros [Hq Hl]%NoDup_cons. destruct (IH (<[Routing.id q := probe q]> c) Hl) as [IH1 IH2]. split.
  - intros p [->|Hp]%elem_of_cons Hk; [|by apply IH1]. rewrite IH2 by (by subst k). subst k. apply lookup_insert_eq.
  - intros [Hk Hk']%not_elem_of_cons. rewrite IH2 by done. by apply lookup_insert_ne.
Qed.

(** After a snapshot the cache holds exactly the enabled providers; each has the result it had when that
    is at most thirty seconds old, and the result of a new probe otherwise. *)
Theorem snapshot_fresh providers now cache :
  NoDup (Routing.id <$> providers) ->
  (forall k, k ∉ Routing.id <$> providers -> snapshot_with probe providers now cache !! k = None) /\
  forall p, p ∈ providers ->
    snapshot_with probe providers now cache !! p.(Routing.id) =
    Some match cache !! p.(Routing.id) with
         | Some r => if now - r.(checked_at) <=? PROBE_TTL then r else probe p
         | None => probe p
         end.
Proof.
  intros Hnd. unfold snapshot_with. cbv zeta.
  assert (Hf : NoDup (Routing.id <$> List.filter (is_stale now (kept providers cache)) providers)).
  { eapply sublist_NoDup; [exact Hnd|]. apply fmap_sublist, filter_sublist_bool. }
  assert (Hkept : forall p, p ∈ providers -> kept providers cache !! p.(Routing.id) = cache !! p.(Routing.id)).
  { intros p Hp. unfold kept. apply option_eq. intros r. rewrite map_lookup_filter_Some. cbn.
    split; [tauto|]. intros. split; [done|]. by apply list_elem_of_fmap_2. }
  split.
  - intros k Hk. rewrite (proj2 (insert_all _ _ k Hf)).
    + unfold kept. rewrite map_lookup_filter_None. right. by intros.
    + intros Hin. apply Hk. revert Hin. rewrite !list_elem_of_fmap. setoid_rewrite list_elem_of_In.
      intros (p & -> & [Hp _]%List.filter_In). eauto.
  - intros p Hp. destruct (is_stale now (kept providers cache) p) eqn:Es.
    + rewrite (proj1 (insert_all _ _ (Routing.id p) Hf) p).
      * f_equal. unfold is_stale in Es. rewrite Hkept in Es by done. destruct (cache !! Routing.id p) as [r|]; [|done].
        destruct (Z.leb_spec (now - checked_at r) PROBE_TTL); [lia|done].
      * apply list_elem_of_In, List.filter_In. split; [by apply list_elem_of_In|done].
      * done.
    + rewrite (proj2 (insert_all _ _ (Routing.id p) Hf)).
      * rewrite Hkept by done. unfold is_stale in Es. rewrite Hkept in Es by done. destruct (cache !! Routing.id p) as [r|]; [|done].
        f_equal. destruct (Z.leb_spec (now - checked_at r) PROBE_TTL); [done|lia].
      * intros Hin. apply list_elem_of_fmap in Hin as (q & Eq & Hq). apply list_elem_of_In, List.filter_In in Hq as [Hq Hs].
        apply list_elem_of_In in Hq. by rewrite (nodup_id _ _ _ Hnd Hp Hq Eq), Hs in Es.
Qed.
End cache.

Definition a_result (now : Z) : ProbeResult :=
  {| verdict := Healthy; detail := None; latency_ms := Some 3; http_status := Some 200; endpoint := ""; checked_at := now |}.
Lemma snapshot_fresh_witness :
  snapshot_with (fun _ => a_result (40 * NANOS)) [a_provider] (40 * NANOS) {[1 := a_result (5 * NANOS)]} !! 1 = Some (a_result (40 * NANOS)).
Proof.
  apply (snapshot_fresh (fun _ => a_result (40 * NANOS)) [a_provider] (40 * NANOS) {[1 := a_result (5 * NANOS)]}
           ltac:(by apply NoDup_singleton)) with (p := a_provider). by left.
Defined.

(** A base address that is the complete address of an endpoint is understood for requests and not for probes. *)
Theorem full_address_not_probed :
  let base := "https://api.example/v1/chat/completions" in
  upstream_url base "/chat/completions" = base /\ models_url base = "https://api.example/v1/chat/completions/models".
Proof. by vm_compute. Qed.
