(* ===== verification/Status.v ===== *)
(** * The public status page

[src/api/status.rs]: the queries on the usage log, the state of a provider from its traffic and its probe,
the daily availability and the incidents. The three statements are functions of the rows of the log; the
formatting of a percentage is a parameter. Times are nanoseconds, dates days since the epoch. *)

From Stdlib Require Import SpecFloat.
From S2P Require Import Prelude Float Json Calendar Metering Routing Upstream Health.

Local Open Scope Z_scope.

Definition MIN_CALLS : Z := 5.
Definition DOWN_RATE : F64.t := F64.div (F64.of_Z 1) (F64.of_Z 2).
Definition DEGRADED_RATE : F64.t := F64.div (F64.of_Z 1) (F64.of_Z 10).
Definition INCIDENT_MIN_CALLS : Z := 5.
Definition INCIDENT_RATE : F64.t := F64.div (F64.of_Z 1) (F64.of_Z 2).
Definition MAJOR_RATE : F64.t := F64.div (F64.of_Z 8) (F64.of_Z 10).
Definition UPTIME_DAYS : nat := 30.
Definition MAX_INCIDENTS : nat := 20.

Definition MINUTE : Z := 60 * NANOS.
Definition HOUR : Z := 60 * MINUTE.
Definition DAY_NS : Z := 24 * HOUR.

(** ** The rows *)

Record WindowRow : Type := {
  w_provider_id : Z;
  calls_10m : Z; errors_10m : Z;
  calls_60m : Z; errors_60m : Z;
  calls_24h : Z; errors_24h : Z;
}.
Record DailyRow : Type := { d_provider_id : Z; d : Z; d_calls : Z; d_errors : Z }.
Record HourRow : Type := { h_provider_id : Z; hour : Z; h_calls : Z; h_errors : Z }.

Definition count {A} (p : A -> bool) (l : list A) : Z := Z.of_nat (length (List.filter p l)).
Definition since (t : Z) (r : LogRow) : bool := t <=? r.(log_created_at).
Definition failed (r : LogRow) : bool := 400 <=? r.(log_status).
Definition of_provider (p : Z) (r : LogRow) : bool := r.(log_provider_id) =? p.

Definition window_row (now : Z) (logs : list LogRow) (p : Z) : WindowRow :=
  let mine := List.filter (of_provider p) logs in
  let calls ago := count (since (now - ago)) mine in
  let errors ago := count (fun r => since (now - ago) r && failed r) mine in
  {| w_provider_id := p;
     calls_10m := calls (10 * MINUTE); errors_10m := errors (10 * MINUTE);
     calls_60m := calls (60 * MINUTE); errors_60m := errors (60 * MINUTE);
     calls_24h := calls (24 * HOUR); errors_24h := errors (24 * HOUR) |}.
Definition window_rows (now : Z) (logs : list LogRow) : list WindowRow :=
  let logs := List.filter (since (now - 24 * HOUR)) logs in
  window_row now logs <$> remove_dups (log_provider_id <$> logs).

(** [GROUP BY provider, bucket ORDER BY bucket] with the number of calls and of errors. *)
Definition bucket_rows {A} (bucket : Z -> Z) (row : Z -> Z -> Z -> Z -> A) (key : A -> Z) (now : Z) (logs : list LogRow) : list A :=
  let logs := List.filter (since (now - 30 * DAY_NS)) logs in
  let keys := remove_dups ((fun r => (r.(log_provider_id), bucket r.(log_created_at))) <$> logs) in
  sort_by_key key
    ((fun k => let mine := List.filter (fun r => of_provider k.1 r && (bucket r.(log_created_at) =? k.2)) logs in
               row k.1 k.2 (count (fun _ => true) mine) (count failed mine)) <$> keys).
Definition daily_rows : Z -> list LogRow -> list DailyRow :=
  bucket_rows date_naive (fun p b c e => {| d_provider_id := p; d := b; d_calls := c; d_errors := e |}) d.
Definition trunc_hour (t : Z) : Z := t / HOUR * HOUR.
Definition hourly_rows : Z -> list LogRow -> list HourRow :=
  bucket_rows trunc_hour (fun p b c e => {| h_provider_id := p; hour := b; h_calls := c; h_errors := e |}) hour.

(** ** The state of a provider *)

Definition sev (s : string) : Z :=
  if bool_decide (s = "down") then 3 else if bool_decide (s = "degraded") then 2 else if bool_decide (s = "unknown") then 1 else 0.

Definition join_details (a b : option string) : option string :=
  match a, b with
  | Some x, Some y => Some (x +:+ "；" +:+ y)
  | x, y => or_else x y
  end.

Record ProbeMeta : Type := {
  m_endpoint : string;
  m_http_status : option Z;
  m_latency_ms : option Z;
  m_checked_at : Z;
  m_verdict : string;
}.

Definition rate (errors calls : Z) : F64.t := F64.div (F64.of_Z errors) (F64.of_Z calls).
Definition rate_status (r : F64.t) : string :=
  if F64.leb DOWN_RATE r then "down" else if F64.leb DEGRADED_RATE r then "degraded" else "operational".

Section page.
(** [{:.1}] of a float. *)
Context (percent : F64.t -> string).

Fixpoint first_window (l : list (string * Z * Z)) : string * option string :=
  match l with
  | [] => ("unknown", Some "近期调用样本不足（< 5 次）")
  | (label, calls, errors) :: l =>
      if calls <? MIN_CALLS then first_window l
      else
        let r := rate errors calls in
        let told :=
          if errors =? 0 then "近 " +:+ label +:+ " " +:+ pretty calls +:+ " 次请求全部成功"
          else "近 " +:+ label +:+ " 错误率 " +:+ percent (F64.mul r (F64.of_Z 100)) +:+ "%（" +:+ pretty errors +:+ "/" +:+
               pretty calls +:+ " 请求失败）" in
        (rate_status r, Some told)
  end.
Definition window_status (w : option WindowRow) : string * option string :=
  match w with
  | None => ("unknown", Some "近 24 小时无调用流量")
  | Some w => first_window [("10 分钟", w.(calls_10m), w.(errors_10m)); ("60 分钟", w.(calls_60m), w.(errors_60m));
                            ("24 小时", w.(calls_24h), w.(errors_24h))]
  end.

Definition fuse_provider (probe : option ProbeResult) (traffic : string * option string)
    : string * option string * option Z * option ProbeMeta :=
  let '(traffic_status, traffic_detail) := traffic in
  match probe with
  | None => (traffic_status, traffic_detail, None, None)
  | Some pr =>
      let meta := {| m_endpoint := pr.(endpoint); m_http_status := pr.(http_status); m_latency_ms := pr.(latency_ms);
                     m_checked_at := pr.(checked_at); m_verdict := verdict_str pr.(verdict) |} in
      match pr.(verdict) with
      | Inconclusive => (traffic_status, join_details pr.(detail) traffic_detail, None, Some meta)
      | Down => ("down", pr.(detail), None, Some meta)
      | Healthy | Degraded =>
          let probe_status := if bool_decide (pr.(verdict) = Healthy) then "operational" else "degraded" in
          let traffic_eff :=
            if bool_decide (traffic_status = "unknown") then "operational"
            else if sev "degraded" <? sev traffic_status then "degraded" else traffic_status in
          let st := if sev traffic_eff <=? sev probe_status then probe_status else traffic_eff in
          let told := if sev probe_status <? sev st then join_details pr.(detail) traffic_detail
                      else or_else pr.(detail) traffic_detail in
          (st, told, pr.(latency_ms), Some meta)
      end
  end.

(** ** Availability by day *)

Record DayPoint : Type := { date : Z; success_rate : option F64.t; calls : Z; errors : Z }.

Definition no_calls (date : Z) : DayPoint := {| date := date; success_rate := None; calls := 0; errors := 0 |}.
Definition day_of_row (date : Z) (r : DailyRow) : DayPoint :=
  {| date := date; success_rate := Some (rate (r.(d_calls) - r.(d_errors)) r.(d_calls)); calls := r.(d_calls); errors := r.(d_errors) |}.

(** The inner loop: the rows before the date are skipped, the row of the date is taken. *)
Fixpoint advance (date : Z) (rows : list DailyRow) : option DailyRow * list DailyRow :=
  match rows with
  | r :: rows' => if r.(d) =? date then (Some r, rows') else if r.(d) <? date then advance date rows' else (None, rows)
  | [] => (None, [])
  end.
Fixpoint fill_days (dates : list Z) (rows : list DailyRow) : list DayPoint :=
  match dates with
  | [] => []
  | date :: dates =>
      let '(r, rows) := advance date rows in
      match r with Some r => day_of_row date r | None => no_calls date end :: fill_days dates rows
  end.
Definition last_days (today : Z) : list Z := (fun k => today - Z.of_nat k) <$> rev (seq 0 UPTIME_DAYS).

Definition total_of (f : DayPoint -> Z) (days : list DayPoint) : Z := foldr (fun x n => f x + n) 0 days.
Definition uptime_of (days : list DayPoint) : option F64.t :=
  let c := total_of calls days in
  if 0 <? c then Some (rate (c - total_of errors days) c) else None.

Record UptimeSeries : Type := { u_key : string; u_name : string; u_days : list DayPoint }.

(** ** Incidents *)

Record IncidentOut : Type := {
  i_provider_id : Z;
  i_provider_name : string;
  i_start : Z;
  i_end : Z;
  ongoing : bool;
  severity : string;
  error_rate : F64.t;
  i_calls : Z;
  i_errors : Z;
  title : string;
}.

(** The hours that are being merged: first, last, calls, errors, highest rate. *)
Record Run : Type := { r_start : Z; r_end : Z; r_calls : Z; r_errors : Z; r_peak : F64.t }.

Definition bucket_rate (b : HourRow) : F64.t := rate b.(h_errors) b.(h_calls).
Definition bad (b : HourRow) : bool := (INCIDENT_MIN_CALLS <=? b.(h_calls)) && F64.leb INCIDENT_RATE (bucket_rate b).

Definition incident (pid : Z) (name : string) (now : Z) (r : Run) : IncidentOut :=
  {| i_provider_id := pid; i_provider_name := name; i_start := r.(r_start); i_end := r.(r_end) + HOUR;
     ongoing := now - HOUR <=? r.(r_end);
     severity := if F64.leb MAJOR_RATE r.(r_peak) then "major" else "minor";
     error_rate := if 0 <? r.(r_calls) then rate r.(r_errors) r.(r_calls) else F64.zero;
     i_calls := r.(r_calls); i_errors := r.(r_errors); title := name +:+ " 上游服务异常" |}.
Definition flush (run : option Run) : list Run := match run with Some r => [r] | None => [] end.
Definition open_run (b : HourRow) : Run :=
  {| r_start := b.(hour); r_end := b.(hour); r_calls := b.(h_calls); r_errors := b.(h_errors); r_peak := bucket_rate b |}.
Definition extend_run (b : HourRow) (r : Run) : Run :=
  {| r_start := r.(r_start); r_end := b.(hour); r_calls := r.(r_calls) + b.(h_calls);
     r_errors := r.(r_errors) + b.(h_errors); r_peak := F64.max r.(r_peak) (bucket_rate b) |}.
Definition adjoins (r : Run) (b : HourRow) : bool := (r.(r_end) =? b.(hour)) || (r.(r_end) =? b.(hour) - HOUR).

Fixpoint merge_hours (run : option Run) (buckets : list HourRow) : list Run :=
  match buckets with
  | [] => flush run
  | b :: buckets =>
      if bad b then
        match run with
        | Some r => if adjoins r b then merge_hours (Some (extend_run b r)) buckets
                    else r :: merge_hours (Some (open_run b)) buckets
        | None => merge_hours (Some (open_run b)) buckets
        end
      else flush run ++ merge_hours None buckets
  end.

Definition provider_incidents (names : gmap Z string) (now : Z) (group : Z * list HourRow) : list IncidentOut :=
  let name := default ("#" +:+ pretty group.1) (names !! group.1) in
  incident group.1 name now <$> merge_hours None (sort_by_key hour group.2).

Definition group_by {A} (key : A -> Z) (rows : list A) : gmap Z (list A) :=
  foldl (fun m r => <[key r := default [] (m !! key r) ++ [r]]> m) ∅ rows.

(** The order in which a hash map is iterated. *)
Context (iterate : gmap Z (list HourRow) -> list (Z * list HourRow)).

Definition build_incidents (rows : list HourRow) (names : gmap Z string) (now : Z) : list IncidentOut :=
  let out := iterate (group_by h_provider_id rows) ≫= provider_incidents names now in
  take MAX_INCIDENTS (sort_by_key (fun i => - i.(i_start)) out).

(** ** The page *)

Record ComponentOut : Type := {
  c_key : string;
  c_name : string;
  c_kind : string;
  c_status : string;
  c_latency_ms : option Z;
  c_detail : option string;
  uptime_30d : option F64.t;
  calls_30d : Z;
  c_probe : option ProbeMeta;
}.
Record StatusResp : Type := {
  generated_at : Z;
  overall : string;
  components : list ComponentOut;
  uptime : list UptimeSeries;
  incidents : list IncidentOut;
  active_requests : Z;
}.

Definition system_component (key name st : string) (latency : Z) (told : option string) : ComponentOut :=
  {| c_key := key; c_name := name; c_kind := "system"; c_status := st; c_latency_ms := Some latency; c_detail := told;
     uptime_30d := None; calls_30d := 0; c_probe := None |}.
Definition provider_key (p : Provider) : string := "provider:" +:+ pretty p.(Routing.id).
Definition provider_component (probes : Cache) (windows : gmap Z WindowRow) (p : Provider) : ComponentOut :=
  let '(st, told, latency, meta) := fuse_provider (probes !! p.(Routing.id)) (window_status (windows !! p.(Routing.id))) in
  {| c_key := provider_key p; c_name := p.(Routing.name); c_kind := "provider"; c_status := st; c_latency_ms := latency;
     c_detail := told; uptime_30d := None; calls_30d := 0; c_probe := meta |}.

Definition provider_days (daily : list DailyRow) (today : Z) (p : Provider) : list DayPoint :=
  fill_days (last_days today) (default [] (group_by d_provider_id daily !! p.(Routing.id))).

(** [components.iter_mut().find(..)]: the first component with the key. *)
Fixpoint set_uptime (key : string) (u : option F64.t) (n : Z) (l : list ComponentOut) : list ComponentOut :=
  match l with
  | [] => []
  | c :: l =>
      if bool_decide (c.(c_key) = key) then
        {| c_key := c.(c_key); c_name := c.(c_name); c_kind := c.(c_kind); c_status := c.(c_status);
           c_latency_ms := c.(c_latency_ms); c_detail := c.(c_detail); uptime_30d := u; calls_30d := n; c_probe := c.(c_probe) |} :: l
      else c :: set_uptime key u n l
  end.

Definition overall_of (l : list ComponentOut) : string :=
  if existsb (fun c => bool_decide (c.(c_status) = "down")) l then "down"
  else if existsb (fun c => bool_decide (c.(c_status) = "degraded")) l then "degraded" else "operational".

(** [db] holds the rows of the log when the database answers all statements, read at [db_now]; [db_ok] says
    whether it answered the first one. *)
Definition status (db_ok : bool) (db : option (list LogRow)) (db_now db_latency : Z) (providers : list Provider)
    (probes : Cache) (now active : Z) : StatusResp :=
  let logs := if db_ok then default [] db else [] in
  let windows := list_to_map ((fun w => (w.(w_provider_id), w)) <$> window_rows db_now logs) in
  let daily := daily_rows db_now logs in
  let components :=
    [system_component "gateway" "网关 API" "operational" db_latency None;
     system_component "postgres" "PostgreSQL" (if db_ok then "operational" else "down") db_latency
       (if db_ok then None else Some "数据库连接失败，用量统计暂不可用")] ++
    (provider_component probes windows <$> providers) in
  let days := provider_days daily (date_naive now) in
  let components :=
    foldl (fun l p => set_uptime (provider_key p) (uptime_of (days p)) (total_of calls (days p)) l) components providers in
  {| generated_at := now; overall := overall_of components; components := components;
     uptime := (fun p => {| u_key := provider_key p; u_name := p.(Routing.name); u_days := days p |}) <$> providers;
     incidents := build_incidents (hourly_rows db_now logs) (list_to_map ((fun p => (p.(Routing.id), p.(Routing.name))) <$> providers)) now;
     active_requests := active |}.
End page.

(** ** The state of a provider *)

(** The state shown for a provider is that of its traffic when its probe is missing or inconclusive, down
    when the probe is down, and otherwise the worse of the probe and the traffic, in which a failing traffic
    counts as degraded and a missing traffic not at all: a provider that answers its probe is never shown as
    down. *)
Theorem fused_state probe traffic :
  traffic.1 ∈ ["down"; "degraded"; "unknown"; "operational"] ->
  let shown := (fuse_provider probe traffic).1.1.1 in
  match verdict <$> probe with
  | None | Some Inconclusive => shown = traffic.1
  | Some Down => shown = "down"
  | Some v =>
      sev shown = Z.max (if bool_decide (v = Healthy) then 0 else 2)
                        (if bool_decide (traffic.1 = "unknown") then 0 else Z.min 2 (sev traffic.1)) /\ shown <> "down"
  end.
Proof.
  destruct traffic as [t told]. cbn [fst]. intros Ht. destruct probe as [pr|]; [|done]. cbn [fmap option_fmap option_map].
  unfold fuse_provider. destruct (verdict pr) eqn:Ev; try done.
  all: repeat (apply elem_of_cons in Ht as [->|Ht]; [cbn; split; done|]); by apply elem_of_nil in Ht.
Qed.
Lemma fused_state_witness :
  sev (fuse_provider (Some (a_result 0)) ("down", None)).1.1.1 = 2.
Proof. by apply (fused_state (Some (a_result 0)) ("down", None)); left. Defined.

(** For every number of calls from 5 to 104 the states have their thresholds at a half and at a tenth of the calls. *)
Definition thresholds_ok (n : nat) : bool :=
  forallb (fun c => forallb (fun e =>
     let s := rate_status (rate (Z.of_nat e) (Z.of_nat c)) in
     bool_decide (s = if Z.of_nat c <=? 2 * Z.of_nat e then "down" else if Z.of_nat c <=? 10 * Z.of_nat e then "degraded" else "operational"))
     (seq 0 (S c))) (seq 5 n).
Lemma thresholds_small : thresholds_ok 100 = true.
Proof. vm_compute. reflexivity. Qed.

(** ** Rows by bucket *)

Lemma group_by_lookup {A} (key : A -> Z) rows k :
  default [] (group_by key rows !! k) = List.filter (fun r => key r =? k) rows.
Proof.
  unfold group_by. induction rows as [|r rows IH] using rev_ind; [done|]. rewrite foldl_snoc, List.filter_app. cbn.
  destruct (Z.eqb_spec (key r) k) as [<-|Hne].
  - by rewrite lookup_insert_eq, IH.
  - by rewrite lookup_insert_ne, IH, app_nil_r.
Qed.

Section buckets.
Context {A : Type} (bucket : Z -> Z) (row : Z -> Z -> Z -> Z -> A) (prov key : A -> Z) (now : Z) (logs : list LogRow).
Hypothesis Hprov : forall p b c e, prov (row p b c e) = p.
Hypothesis Hkey : forall p b c e, key (row p b c e) = b.

(** The calls of a provider in a bucket. *)
Definition bucket_logs (p b : Z) : list LogRow :=
  List.filter (fun r => of_provider p r && (bucket r.(log_created_at) =? b)) (List.filter (since (now - 30 * DAY_NS)) logs).
Definition bucket_row (p b : Z) : A := row p b (count (fun _ => true) (bucket_logs p b)) (count failed (bucket_logs p b)).
Definition rows_of (p : Z) : list A := List.filter (fun r => prov r =? p) (bucket_rows bucket row key now logs).

Lemma bucket_keys :
  (fun r => (prov r, key r)) <$> bucket_rows bucket row key now logs ≡ₚ
  remove_dups ((fun r => (r.(log_provider_id), bucket r.(log_created_at))) <$> List.filter (since (now - 30 * DAY_NS)) logs).
Proof.
  unfold bucket_rows. cbv zeta. rewrite sort_by_key_perm, <-list_fmap_compose. match goal with |- ?a ≡ₚ ?b => enough (a = b) as -> by done end.
  rewrite <-(list_fmap_id (remove_dups _)) at 2. apply list_fmap_ext. intros _ [p b] _. cbn. by rewrite Hprov, Hkey.
Qed.

Lemma rows_of_strict p : strictly key (rows_of p).
Proof.
  apply strictly_of_nodup; [apply filter_sorted, sort_by_key_sorted|].
  assert (Hd : NoDup ((fun r => (prov r, key r)) <$> rows_of p)).
  { eapply sublist_NoDup; [|apply fmap_sublist, filter_sublist_bool]. rewrite bucket_keys. apply NoDup_remove_dups. }
  apply (NoDup_fmap_1 (pair p)). rewrite <-list_fmap_compose.
  erewrite list_fmap_ext; [exact Hd|]. intros i x Hx. cbn. f_equal. apply list_elem_of_lookup_2, list_elem_of_In, List.filter_In in Hx as [_ Hx].
  by apply Z.eqb_eq in Hx.
Qed.

Lemma rows_of_elem p r : r ∈ rows_of p <-> exists b, r = bucket_row p b /\ bucket_logs p b <> [].
Proof.
  unfold rows_of. rewrite list_elem_of_In, List.filter_In, <-list_elem_of_In, Z.eqb_eq. unfold bucket_rows. cbv zeta.
  rewrite sort_by_key_perm, list_elem_of_fmap. setoid_rewrite elem_of_remove_dups. setoid_rewrite list_elem_of_fmap.
  split.
  - intros [((p' & b) & -> & (x & [= -> ->] & Hx)) Hp]. rewrite Hprov in Hp. subst p. eexists. split; [done|].
    cbn [fst snd]. intros E. assert (Hin : x ∈ bucket_logs (log_provider_id x) (bucket (log_created_at x))); [|rewrite E in Hin; by apply elem_of_nil in Hin].
    apply list_elem_of_In, List.filter_In. split; [by apply list_elem_of_In|]. unfold of_provider. by rewrite !Z.eqb_refl.
  - intros (b & -> & Hne). split; [|apply Hprov]. exists (p, b). split; [done|].
    destruct (bucket_logs p b) as [|x l] eqn:E; [done|]. exists x.
    assert (Hx : x ∈ bucket_logs p b) by (rewrite E; by left). unfold bucket_logs in Hx.
    apply list_elem_of_In, List.filter_In in Hx as [Hx Hb]. unfold of_provider in Hb.
    apply andb_true_iff in Hb as [->%Z.eqb_eq ->%Z.eqb_eq]. split; [done|by apply list_elem_of_In].
Qed.

Lemma rows_of_find p b :
  List.find (fun r => key r =? b) (rows_of p) = if bool_decide (bucket_logs p b = []) then None else Some (bucket_row p b).
Proof.
  destruct (List.find _ _) as [r|] eqn:E.
  - apply List.find_some in E as [Hr Hb]. apply list_elem_of_In, rows_of_elem in Hr as (b' & -> & Hne).
    unfold bucket_row in Hb. rewrite Hkey in Hb. apply Z.eqb_eq in Hb as ->. by rewrite bool_decide_false.
  - case_bool_decide as Hb; [done|]. assert (Hin : bucket_row p b ∈ rows_of p) by (apply rows_of_elem; eauto).
    apply list_elem_of_In in Hin. apply (List.find_none _ _ E) in Hin. unfold bucket_row in Hin. rewrite Hkey, Z.eqb_refl in Hin. done.
Qed.
End buckets.

(** ** Availability by day *)

Lemma advance_spec date rows :
  strictly d rows ->
  advance date rows = (List.find (fun r => r.(d) =? date) rows, List.filter (fun r => date <? r.(d)) rows).
Proof.
  induction 1 as [|r rows Hs IH Hr]; [done|]. cbn. rewrite Forall_forall in Hr.
  destruct (Z.eqb_spec (d r) date) as [<-|Hne].
  - rewrite Z.ltb_irrefl. f_equal. clear IH. induction rows as [|q rows IHr]; [done|]. cbn.
    destruct (Z.ltb_spec (d r) (d q)) as [_|Hq]; [|specialize (Hr q ltac:(by left)); cbn in Hr; lia]. f_equal.
    apply IHr; [by inversion Hs|]. intros x Hx. apply Hr. by right.
  - destruct (Z.ltb_spec (d r) date) as [Hlt|Hge]; [rewrite IH; destruct (Z.ltb_spec date (d r)); [lia|done]|].
    destruct (Z.ltb_spec date (d r)) as [Hgt|]; [|lia].
    assert (Hall : forall x, x ∈ rows -> date < d x) by (intros x Hx; specialize (Hr x Hx); cbn in Hr; lia).
    clear -Hall. f_equal; [|f_equal].
    + induction rows as [|q rows IH]; [done|]. cbn. pose proof (Hall q ltac:(by left)).
      destruct (Z.eqb_spec (d q) date); [lia|]. apply IH. intros x Hx. apply Hall. by right.
    + induction rows as [|q rows IH]; [done|]. cbn. pose proof (Hall q ltac:(by left)).
      destruct (Z.ltb_spec date (d q)); [|lia]. f_equal. apply IH. intros x Hx. apply Hall. by right.
Qed.

Lemma find_filter_later date date' rows :
  date < date' ->
  List.find (fun r => r.(d) =? date') (List.filter (fun r => date <? r.(d)) rows) = List.find (fun r => r.(d) =? date') rows.
Proof.
  intros Hlt. induction rows as [|r rows IH]; [done|]. cbn. destruct (Z.ltb_spec date (d r)) as [H|H]; cbn.
  - by rewrite IH.
  - destruct (Z.eqb_spec (d r) date'); [lia|done].
Qed.

(** The point of a date by a search of the rows. *)
Definition day_point (rows : list DailyRow) (date : Z) : DayPoint :=
  match List.find (fun r => r.(d) =? date) rows with Some r => day_of_row date r | None => no_calls date end.

Lemma fill_days_search dates rows :
  StronglySorted Z.lt dates -> strictly d rows -> fill_days dates rows = day_point rows <$> dates.
Proof.
  intros Hd. revert rows. induction Hd as [|date dates Hd IH Hlt]; intros rows Hs; [done|]. cbn.
  rewrite advance_spec by done. unfold day_point at 1. f_equal.
  rewrite IH by (by apply filter_sorted). apply list_fmap_ext. intros i x Hx. rewrite Forall_forall in Hlt.
  unfold day_point. rewrite find_filter_later; [done|]. by apply Hlt, list_elem_of_lookup_2 with i.
Qed.

Lemma last_days_sorted today : StronglySorted Z.lt (last_days today).
Proof.
  unfold last_days, UPTIME_DAYS. cbn. repeat (constructor; [|repeat (apply Forall_cons_2; [lia|]); apply Forall_nil_2]). constructor.
Qed.
Lemma last_days_range today x : x ∈ last_days today -> today - 29 <= x <= today.
Proof.
  unfold last_days. rewrite list_elem_of_fmap. intros (k & -> & Hk). 
  apply list_elem_of_In, in_rev, in_seq in Hk. unfold UPTIME_DAYS in Hk. lia.
Qed.

(** The calls of a provider on a date, in the whole log. *)
Definition day_logs (logs : list LogRow) (p date : Z) : list LogRow :=
  List.filter (fun r => of_provider p r && (date_naive r.(log_created_at) =? date)) logs.
Definition counted_day (logs : list LogRow) (p date : Z) : DayPoint :=
  let l := day_logs logs p date in
  let c := count (fun _ => true) l in
  {| date := date; success_rate := if c =? 0 then None else Some (rate (c - count failed l) c); calls := c; errors := count failed l |}.

Lemma recent_days_kept logs db_now now p date :
  db_now <= now -> date ∈ last_days (date_naive now) ->
  bucket_logs date_naive db_now logs p date = day_logs logs p date.
Proof.
  intros Hn Hd%last_days_range. unfold bucket_logs, day_logs. induction logs as [|r logs IH]; [done|]. cbn.
  unfold since at 1. destruct (of_provider p r && (date_naive (log_created_at r) =? date)) eqn:E.
  - apply andb_true_iff in E as [E1 E2%Z.eqb_eq]. assert (H : db_now - 30 * DAY_NS <= log_created_at r).
    { pose proof (date_naive_window now). pose proof (date_naive_window (log_created_at r)).
      unfold midnight, DAY, DAY_NS, HOUR, MINUTE, NANOS in *. lia. }
    apply Z.leb_le in H. rewrite H. cbn. rewrite E1, E2, Z.eqb_refl. cbn. by rewrite IH.
  - destruct (_ <=? _); cbn; [rewrite E|]; apply IH.
Qed.

Lemma count_all (l : list LogRow) : (count (fun _ => true) l =? 0) = bool_decide (l = []).
Proof. destruct l; [done|]. rewrite bool_decide_false by done. unfold count. cbn. lia. Qed.

(** The availability of a provider shows, for each of the last thirty days, exactly the calls of that day
    in the log, the failed ones and the share of the others, and nothing for a day without calls. *)
Theorem uptime_counts_log logs db_now now p :
  db_now <= now ->
  provider_days (daily_rows db_now logs) (date_naive now) p = counted_day logs p.(Routing.id) <$> last_days (date_naive now).
Proof.
  intros Hn. unfold provider_days, daily_rows. rewrite group_by_lookup.
  set (row := fun p b c e => {| d_provider_id := p; d := b; d_calls := c; d_errors := e |}).
  change (List.filter _ _) with (rows_of date_naive row d_provider_id d db_now logs p.(Routing.id)).
  rewrite fill_days_search by (try apply last_days_sorted; by apply rows_of_strict). apply list_fmap_ext. intros i x Hx%list_elem_of_lookup_2.
  unfold day_point. rewrite rows_of_find by done. unfold counted_day. rewrite count_all.
  rewrite (recent_days_kept _ _ now) by done. case_bool_decide as E; [by rewrite E|].
  unfold bucket_row. by rewrite (recent_days_kept _ _ now).
Qed.

(** ** Incidents *)

(** The run of a list of hours. *)
Definition run_of (g : list HourRow) : Run :=
  match g with b :: l => foldl (fun r b => extend_run b r) (open_run b) l
             | [] => {| r_start := 0; r_end := 0; r_calls := 0; r_errors := 0; r_peak := F64.zero |} end.

(** Hours that follow each other without a gap. *)
Fixpoint linked (g : list HourRow) : Prop :=
  match g with [] => False | [_] => True | a :: (b :: _) as t => b.(hour) = a.(hour) + HOUR /\ linked t end.
(** Between two runs at least one hour is missing. *)
Fixpoint apart (gs : list (list HourRow)) : Prop :=
  match gs with
  | g :: gs => (forall a b, last g = Some a -> b ∈ concat gs -> a.(hour) + HOUR < b.(hour)) /\ apart gs
  | [] => True
  end.
Definition aligned (b : HourRow) : Prop := exists k, b.(hour) = k * HOUR.

Lemma run_of_snoc g b : g <> [] -> run_of (g ++ [b]) = extend_run b (run_of g).
Proof. destruct g as [|a g]; [done|]. intros _. cbn. by rewrite foldl_snoc. Qed.
Lemma run_of_end g a : last g = Some a -> (run_of g).(r_end) = a.(hour).
Proof.
  destruct g as [|x g] using rev_ind; [done|]. rewrite last_snoc. intros [= ->].
  destruct g; [done|]. by rewrite run_of_snoc.
Qed.
Lemma linked_snoc g a b : linked g -> last g = Some a -> b.(hour) = a.(hour) + HOUR -> linked (g ++ [b]).
Proof.
  induction g as [|x g IH]; [done|]. destruct g as [|y g]; [by intros _ [= ->] H|].
  intros [H1 H2] Ha Hb. split; [done|]. by apply IH.
Qed.

(** The hours that are merged: those of the open run, then the bad ones of the rest. *)
Lemma merge_hours_spec buckets g :
  (g = [] \/ linked g) -> strictly hour buckets -> Forall aligned (g ++ buckets) ->
  (forall a b, last g = Some a -> b ∈ buckets -> a.(hour) < b.(hour)) ->
  exists gs, merge_hours (if g then None else Some (run_of g)) buckets = run_of <$> gs /\
    concat gs = g ++ List.filter bad buckets /\ Forall linked gs /\ apart gs.
Proof.
  intros Hg Hs. revert g Hg. induction Hs as [|b buckets Hs IH Hb]; intros g Hg Hal Hlt.
  { destruct g as [|a g]; [by exists []|]. exists [a :: g]. cbn [merge_hours flush List.filter]. rewrite app_nil_r. cbn [concat]. rewrite app_nil_r.
    destruct Hg as [|Hg]; [done|]. split_and!; [done..|by constructor|split; [by intros ?? _ ?%elem_of_nil|done]]. }
  apply Forall_app in Hal as [Hal1 [Hab Hal2]%Forall_cons]. rewrite Forall_forall in Hb. cbn [merge_hours List.filter].
  assert (Hopen : exists gs, merge_hours (Some (open_run b)) buckets = run_of <$> gs /\
            concat gs = b :: List.filter bad buckets /\ Forall linked gs /\ apart gs).
  { apply (IH [b]); [by right|by constructor|]. intros a' b' [= ->] Hin. by apply Hb. }
  destruct (bad b) eqn:Ebad.
  - destruct g as [|a0 g0]; [done|]. set (g := a0 :: g0) in *. destruct Hg as [|Hg]; [done|].
    destruct (last g) as [a|] eqn:El; [|by apply last_None in El].
    pose proof (Hlt a b eq_refl ltac:(by left)) as Hab'.
    assert (Haa : aligned a) by (rewrite Forall_forall in Hal1; by apply Hal1, last_Some_elem_of).
    unfold adjoins. rewrite (run_of_end g a El). destruct ((hour a =? hour b) || (hour a =? hour b - HOUR)) eqn:Ea.
    + rewrite <-(run_of_snoc g b) by done. destruct (IH (g ++ [b])) as (gs & E1 & E2 & H3).
      * right. apply (linked_snoc g a b Hg El). lia.
      * rewrite <-app_assoc. cbn [app]. apply Forall_app. split; [done|by constructor].
      * intros a' b'. rewrite last_snoc. intros [= ->] Hin. by apply Hb.
      * exists gs. rewrite <-app_assoc in E2. split; [|by split]. by rewrite <-E1.
    + destruct Hopen as (gs & -> & E2 & H3 & H4). exists (g :: gs). cbn [concat fmap list_fmap]. rewrite E2.
      split_and!; [done..|by constructor|]. cbn [apart]. split; [|done]. rewrite El, E2. intros a' x [= <-] Hx.
      assert (hour b <= hour x); [|destruct Haa as [ka Ha], Hab as [kb Hkb]; unfold HOUR, MINUTE, NANOS in *; lia].
      apply elem_of_cons in Hx as [->|Hx]; [lia|]. apply list_elem_of_In, List.filter_In in Hx as [Hx _].
      apply list_elem_of_In, Hb in Hx. cbn in Hx. lia.
  - destruct (IH []) as (gs & E1 & E2 & H3 & H4); [by left|done|done|]. destruct g as [|a0 g0]; [by exists gs|].
    set (g := a0 :: g0) in *. destruct Hg as [|Hg]; [done|]. exists (g :: gs). cbn [flush app concat fmap list_fmap].
    rewrite E2. cbn [app]. split_and!; [by rewrite E1|done|by constructor|]. cbn [apart]. split; [|done]. rewrite E2. cbn [app].
    intros a x El Hx. apply list_elem_of_In, List.filter_In in Hx as [Hx _]. apply list_elem_of_In in Hx. pose proof (Hb x Hx) as Hbx. cbn in Hbx.
    pose proof (Hlt a b El ltac:(by left)). rewrite Forall_forall in Hal1, Hal2.
    assert (Haa : aligned a) by (by apply Hal1, last_Some_elem_of). specialize (Hal2 x Hx).
    destruct Haa as [ka Ha], Hab as [kb Hkb], Hal2 as [kx Hkx]. unfold HOUR, MINUTE, NANOS in *. lia.
Qed.

Definition sum_of (f : HourRow -> Z) (g : list HourRow) : Z := foldr (fun b n => f b + n) 0 g.
Lemma sum_of_snoc f g b : sum_of f (g ++ [b]) = sum_of f g + f b.
Proof. unfold sum_of. induction g as [|a g IH]; cbn; [lia|]. rewrite IH. lia. Qed.

Lemma run_of_fields g a z :
  head g = Some a -> last g = Some z ->
  (run_of g).(r_start) = a.(hour) /\ (run_of g).(r_end) = z.(hour) /\
  (run_of g).(r_calls) = sum_of h_calls g /\ (run_of g).(r_errors) = sum_of h_errors g.
Proof.
  intros Ha Hz. split_and!; [|by apply run_of_end|..].
  all: clear Hz z; induction g as [|b g IH] using rev_ind; [done|]; destruct g as [|c g]; [injection Ha as ->; cbn; lia|].
  all: specialize (IH Ha); rewrite run_of_snoc by done; rewrite ?sum_of_snoc; cbn [r_start r_calls r_errors extend_run]; lia.
Qed.

(** The hours of a provider in the hourly statistics, and what the log says of an hour. *)
Definition provider_hours (db_now : Z) (logs : list LogRow) (pid : Z) : list HourRow :=
  default [] (group_by h_provider_id (hourly_rows db_now logs) !! pid).
Definition hour_row (db_now : Z) (logs : list LogRow) (pid h : Z) : HourRow :=
  bucket_row trunc_hour (fun p b c e => {| h_provider_id := p; hour := b; h_calls := c; h_errors := e |}) db_now logs pid h.

Lemma provider_hours_eq db_now logs pid :
  provider_hours db_now logs pid =
  rows_of trunc_hour (fun p b c e => {| h_provider_id := p; hour := b; h_calls := c; h_errors := e |}) h_provider_id hour db_now logs pid.
Proof. unfold provider_hours, hourly_rows. by rewrite group_by_lookup. Qed.

Lemma provider_hours_sorted db_now logs pid : strictly hour (sort_by_key hour (provider_hours db_now logs pid)).
Proof.
  apply strictly_of_nodup; [apply sort_by_key_sorted|]. rewrite sort_by_key_perm, provider_hours_eq.
  assert (H : strictly hour (provider_hours db_now logs pid)) by (rewrite provider_hours_eq; by apply rows_of_strict).
  rewrite <-provider_hours_eq. induction H as [|x l Hl IH Hx]; cbn; [constructor|]. constructor; [|done].
  intros Hin. apply list_elem_of_fmap in Hin as (y & E & Hy). rewrite Forall_forall in Hx. specialize (Hx y Hy). cbn in Hx. lia.
Qed.

Lemma bucket_logs_hour db_now logs pid h : bucket_logs trunc_hour db_now logs pid h <> [] -> exists k, h = k * HOUR.
Proof.
  destruct (bucket_logs _ _ _ _ _) as [|x l] eqn:E; [done|]. intros _.
  assert (Hx : x ∈ bucket_logs trunc_hour db_now logs pid h) by (rewrite E; by left).
  apply list_elem_of_In, List.filter_In in Hx as [_ Hx]. apply andb_true_iff in Hx as [_ <-%Z.eqb_eq].
  unfold trunc_hour. eauto.
Qed.

Lemma provider_hours_elem db_now logs pid b :
  b ∈ sort_by_key hour (provider_hours db_now logs pid) <->
  exists h, b = hour_row db_now logs pid h /\ bucket_logs trunc_hour db_now logs pid h <> [].
Proof. rewrite sort_by_key_perm, provider_hours_eq. by apply rows_of_elem. Qed.

(** The incidents of a provider are its outages: each covers hours that follow each other without a gap and
    in each of which at least five calls were logged and at least half of them failed, with the calls and the
    errors of those hours; every such hour belongs to one incident, and two incidents never touch. *)
Theorem incidents_are_outages logs db_now now names pid :
  exists gs,
    Forall2 (fun i g => exists a z, head g = Some a /\ last g = Some z /\ linked g /\
               i.(i_start) = a.(hour) /\ i.(i_end) = z.(hour) + HOUR /\
               i.(i_calls) = sum_of h_calls g /\ i.(i_errors) = sum_of h_errors g)
      (provider_incidents names now (pid, provider_hours db_now logs pid)) gs /\
    apart gs /\ strictly hour (concat gs) /\
    forall b, b ∈ concat gs <->
      exists h, b = hour_row db_now logs pid h /\ bucket_logs trunc_hour db_now logs pid h <> [] /\ bad b = true.
Proof.
  destruct (merge_hours_spec (sort_by_key hour (provider_hours db_now logs pid)) []) as (gs & E1 & E2 & H3 & H4);
    [by left|apply provider_hours_sorted| |done|].
  { cbn [app]. apply Forall_forall. intros b (h & -> & Hh)%provider_hours_elem. by apply bucket_logs_hour in Hh. }
  exists gs. unfold provider_incidents. cbv zeta. cbn [fst snd]. rewrite E1. split_and!; [|done|..].
  - rewrite <-list_fmap_compose. clear -H3. induction H3 as [|g gs Hg _ IH]; cbn; constructor; [|done].
    destruct g as [|a g]; [done|]. destruct (last (a :: g)) as [z|] eqn:Ez; [|by apply last_None in Ez].
    destruct (run_of_fields (a :: g) a z) as (F1 & F2 & F3 & F4); [done..|]. exists a, z.
    cbn [incident i_start i_end i_calls i_errors]. rewrite F2. by split_and!.
  - rewrite E2. cbn [app]. apply filter_sorted, provider_hours_sorted.
  - intros b. rewrite E2. cbn [app]. rewrite list_elem_of_In, List.filter_In, <-list_elem_of_In, provider_hours_elem. naive_solver.
Qed.

(** Only the newest incidents are shown: one that is left out started no later than all twenty that are shown. *)
Lemma newest_incidents_shown iterate rows names now i :
  let all := iterate (group_by h_provider_id rows) ≫= provider_incidents names now in
  let shown := build_incidents iterate rows names now in
  i ∈ all -> i ∈ shown \/ length shown = MAX_INCIDENTS /\ forall j, j ∈ shown -> i.(i_start) <= j.(i_start).
Proof.
  cbv zeta. unfold build_incidents. cbv zeta. set (all := _ ≫= _). intros Hi.
  assert (Hin : i ∈ sort_by_key (fun i => - i.(i_start)) all) by (by rewrite sort_by_key_perm).
  pose proof (sort_by_key_sorted (fun i => - i.(i_start)) all) as Hs. revert Hs Hin. generalize (sort_by_key (fun i => - i.(i_start)) all).
  clear all Hi. intros l Hs Hin. rewrite <-(take_drop MAX_INCIDENTS l) in Hin. apply elem_of_app in Hin as [Hin|Hin]; [by left|right].
  split.
  - apply length_take_le. destruct (decide (MAX_INCIDENTS <= length l)%nat); [done|]. rewrite drop_ge in Hin by lia. by apply elem_of_nil in Hin.
  - intros j Hj. revert Hs Hin Hj. generalize MAX_INCIDENTS. induction l as [|x l IH]; intros n Hs Hin Hj.
    { rewrite drop_nil in Hin. by apply elem_of_nil in Hin. }
    destruct n as [|n]; [by apply elem_of_nil in Hj|]. cbn in Hin, Hj. inversion_clear Hs as [|?? Hs' Hx].
    apply elem_of_cons in Hj as [->|Hj]; [|by eapply IH].
    rewrite Forall_forall in Hx. assert (H : - i_start x <= - i_start i); [|lia]. apply Hx.
    rewrite <-(take_drop n l). apply elem_of_app. by right.
Qed.

Definition a_call (st at_time : Z) : LogRow :=
  {| log_id := 1; log_request_id := "r"; log_user_id := None; log_api_key_id := None; log_model := "m"; log_provider_id := 1;
     log_endpoint := "/v1/messages"; log_streamed := false; log_input := None; log_output := None; log_cache_read := None;
     log_cache_write := None; log_latency_ms := 1; log_status := st; log_cost := 0; log_client_ip := None;
     log_session_id := None; log_first_token_ms := None; log_created_at := at_time |}.
Lemma uptime_counts_log_witness :
  last (provider_days (daily_rows DAY_NS [a_call 200 DAY_NS; a_call 500 DAY_NS]) (date_naive DAY_NS) a_provider) =
  Some {| date := 1; success_rate := Some (rate 1 2); calls := 2; errors := 1 |}.
Proof.
  rewrite (uptime_counts_log [a_call 200 DAY_NS; a_call 500 DAY_NS] DAY_NS DAY_NS a_provider) by lia. vm_compute. reflexivity.
Defined.

(** A provider that answers its probe is shown as available while the database is down. *)
Theorem provider_known_without_database percent iterate :
  let page := status percent iterate false None 0 0 [a_provider] {[1 := a_result 0]} 0 0 in
  c_status <$> page.(components) = ["operational"; "down"; "operational"].
Proof. by vm_compute. Qed.
