(* ===== verification/ConfigTables.v ===== *)
(** * The tables of the configuration

Providers, routes, models, concurrency rules, prices, access rules and the row of settings, as the statements of
[src/store/config.rs] and [src/store/access.rs] store them, and what [AppState::reload] reads from them
([src/store/upstream.rs], [src/store/rules.rs], [src/store/access.rs], [src/store/config.rs]) for the requests. A table is
a finite map from identifiers to rows; where the SQL has no [ORDER BY] the order is that of the map, and no theorem
depends on it. *)

From S2P Require Import Prelude Float Json Errors RateLimit Routing.

Local Open Scope Z_scope.

(** ** Rows *)

Record AdminProvider : Type := { pr_data : Provider; pr_enabled : bool; pr_created_at : Z }.
Record AdminRoute : Type := { ro_id : Z; ro_data : ModelRoute; ro_priority : Z; ro_enabled : bool }.
Record AdminModel : Type := {
  mo_id : Z;
  mo_provider : Z;
  mo_model : string;
  mo_enabled : bool;
  mo_context_length : option Z;
  mo_capability : option string;
  mo_max_output_tokens : option Z;
  mo_created_at : Z;
}.
Record AdminRateRule : Type := { rl_id : Z; rl_data : RateRule; rl_enabled : bool; rl_updated_at : Z }.
Record AdminPrice : Type := { pc_id : Z; pc_model : string; pc_data : ModelPrice; pc_currency : string; pc_effective_from : Z }.

Record ApiEndpointSettings : Type := {
  es_responses_enabled : bool;
  es_responses_visible : bool;
  es_messages_enabled : bool;
  es_messages_visible : bool;
}.
Record HeaderSettings : Type := { hs_upstream : list (string * Value); hs_response : list (string * Value) }.

(** The row of [system_settings], without the settings of the directory and of mail. *)
Record Settings : Type := {
  st_extra_body : bool;
  st_messages : MessageTemplates;
  st_upstream_headers : Value;
  st_response_headers : Value;
  st_endpoints : ApiEndpointSettings;
}.

Record ConfigTables : Type := {
  providers : gmap Z AdminProvider;
  model_routes : gmap Z AdminRoute;
  models : gmap Z AdminModel;
  rate_rules : gmap Z AdminRateRule;
  prices : gmap Z AdminPrice;
  access_rules : gmap Z UserAccessRule;
  settings : Settings;
  provider_seq : Z;
  route_seq : Z;
  model_seq : Z;
  rule_seq : Z;
  price_seq : Z;
  access_seq : Z;
}.

Definition set_providers (m : gmap Z AdminProvider) (t : ConfigTables) : ConfigTables :=
  {| providers := m; model_routes := t.(model_routes); models := t.(models); rate_rules := t.(rate_rules); prices := t.(prices);
     access_rules := t.(access_rules); settings := t.(settings); provider_seq := t.(provider_seq); route_seq := t.(route_seq);
     model_seq := t.(model_seq); rule_seq := t.(rule_seq); price_seq := t.(price_seq); access_seq := t.(access_seq) |}.
Definition set_routes (m : gmap Z AdminRoute) (t : ConfigTables) : ConfigTables :=
  {| providers := t.(providers); model_routes := m; models := t.(models); rate_rules := t.(rate_rules); prices := t.(prices);
     access_rules := t.(access_rules); settings := t.(settings); provider_seq := t.(provider_seq); route_seq := t.(route_seq);
     model_seq := t.(model_seq); rule_seq := t.(rule_seq); price_seq := t.(price_seq); access_seq := t.(access_seq) |}.
Definition set_models (m : gmap Z AdminModel) (t : ConfigTables) : ConfigTables :=
  {| providers := t.(providers); model_routes := t.(model_routes); models := m; rate_rules := t.(rate_rules); prices := t.(prices);
     access_rules := t.(access_rules); settings := t.(settings); provider_seq := t.(provider_seq); route_seq := t.(route_seq);
     model_seq := t.(model_seq); rule_seq := t.(rule_seq); price_seq := t.(price_seq); access_seq := t.(access_seq) |}.
Definition set_rules (m : gmap Z AdminRateRule) (t : ConfigTables) : ConfigTables :=
  {| providers := t.(providers); model_routes := t.(model_routes); models := t.(models); rate_rules := m; prices := t.(prices);
     access_rules := t.(access_rules); settings := t.(settings); provider_seq := t.(provider_seq); route_seq := t.(route_seq);
     model_seq := t.(model_seq); rule_seq := t.(rule_seq); price_seq := t.(price_seq); access_seq := t.(access_seq) |}.
Definition set_prices (m : gmap Z AdminPrice) (t : ConfigTables) : ConfigTables :=
  {| providers := t.(providers); model_routes := t.(model_routes); models := t.(models); rate_rules := t.(rate_rules); prices := m;
     access_rules := t.(access_rules); settings := t.(settings); provider_seq := t.(provider_seq); route_seq := t.(route_seq);
     model_seq := t.(model_seq); rule_seq := t.(rule_seq); price_seq := t.(price_seq); access_seq := t.(access_seq) |}.
Definition set_access (m : gmap Z UserAccessRule) (t : ConfigTables) : ConfigTables :=
  {| providers := t.(providers); model_routes := t.(model_routes); models := t.(models); rate_rules := t.(rate_rules); prices := t.(prices);
     access_rules := m; settings := t.(settings); provider_seq := t.(provider_seq); route_seq := t.(route_seq);
     model_seq := t.(model_seq); rule_seq := t.(rule_seq); price_seq := t.(price_seq); access_seq := t.(access_seq) |}.
Definition set_settings (x : Settings) (t : ConfigTables) : ConfigTables :=
  {| providers := t.(providers); model_routes := t.(model_routes); models := t.(models); rate_rules := t.(rate_rules); prices := t.(prices);
     access_rules := t.(access_rules); settings := x; provider_seq := t.(provider_seq); route_seq := t.(route_seq);
     model_seq := t.(model_seq); rule_seq := t.(rule_seq); price_seq := t.(price_seq); access_seq := t.(access_seq) |}.
(** The sequences that number the rows of each table. *)
Definition advance (dp dr dm dl dc da : Z) (t : ConfigTables) : ConfigTables :=
  {| providers := t.(providers); model_routes := t.(model_routes); models := t.(models); rate_rules := t.(rate_rules); prices := t.(prices);
     access_rules := t.(access_rules); settings := t.(settings); provider_seq := t.(provider_seq) + dp; route_seq := t.(route_seq) + dr;
     model_seq := t.(model_seq) + dm; rule_seq := t.(rule_seq) + dl; price_seq := t.(price_seq) + dc; access_seq := t.(access_seq) + da |}.

(** ** What requests read *)

Definition rows {A} (m : gmap Z A) : list A := (map_to_list m).*2.

Definition load_providers (t : ConfigTables) : list Provider := pr_data <$> List.filter pr_enabled (rows t.(providers)).
(** [ORDER BY priority, id] *)
Definition by_priority (l : list AdminRoute) : list AdminRoute := sort_by_key ro_priority (sort_by_key ro_id l).
Definition load_routes (t : ConfigTables) : list ModelRoute := ro_data <$> by_priority (List.filter ro_enabled (rows t.(model_routes))).
Definition load_rules (t : ConfigTables) : list RateRule := rl_data <$> List.filter rl_enabled (rows t.(rate_rules)).
(** [DISTINCT ON (model) .. ORDER BY model, effective_from DESC], by model. *)
Definition load_prices (t : ConfigTables) : gmap string ModelPrice :=
  list_to_map ((fun p => (p.(pc_model), p.(pc_data))) <$> sort_by_key (fun p => - p.(pc_effective_from)) (rows t.(prices))).
(** The rules of a user. *)
Definition group_access (m : gmap Z (list UserAccessRule)) (r : UserAccessRule) : gmap Z (list UserAccessRule) :=
  <[r.(access_user_id) := default [] (m !! r.(access_user_id)) ++ [r]]> m.
Definition load_user_access (t : ConfigTables) : gmap Z (list UserAccessRule) := foldl group_access ∅ (rows t.(access_rules)).
Definition group_disabled (m : gmap Z (gset string)) (r : AdminModel) : gmap Z (gset string) :=
  <[r.(mo_provider) := {[r.(mo_model)]} ∪ default ∅ (m !! r.(mo_provider))]> m.
Definition load_disabled_models (t : ConfigTables) : gmap Z (gset string) :=
  foldl group_disabled ∅ (List.filter (fun r => negb r.(mo_enabled)) (rows t.(models))).
Definition load_header_settings (t : ConfigTables) : HeaderSettings :=
  {| hs_upstream := default [] (as_object t.(settings).(st_upstream_headers));
     hs_response := default [] (as_object t.(settings).(st_response_headers)) |}.

(** The caches of the configuration. *)
Record ConfigCaches : Type := {
  c_providers : list Provider;
  c_routes : list ModelRoute;
  c_rules : list RateRule;
  c_prices : gmap string ModelPrice;
  c_access : gmap Z (list UserAccessRule);
  c_disabled : gmap Z (gset string);
  c_extra_body : bool;
  c_messages : MessageTemplates;
  c_endpoints : ApiEndpointSettings;
  c_headers : HeaderSettings;
}.
Definition load_config (t : ConfigTables) : ConfigCaches :=
  {| c_providers := load_providers t; c_routes := load_routes t; c_rules := load_rules t; c_prices := load_prices t;
     c_access := load_user_access t; c_disabled := load_disabled_models t; c_extra_body := t.(settings).(st_extra_body);
     c_messages := t.(settings).(st_messages); c_endpoints := t.(settings).(st_endpoints); c_headers := load_header_settings t |}.

Definition with_providers (x : list Provider) (c : ConfigCaches) : ConfigCaches :=
  {| c_providers := x; c_routes := c.(c_routes); c_rules := c.(c_rules); c_prices := c.(c_prices); c_access := c.(c_access);
     c_disabled := c.(c_disabled); c_extra_body := c.(c_extra_body); c_messages := c.(c_messages); c_endpoints := c.(c_endpoints);
     c_headers := c.(c_headers) |}.
Definition with_routes (x : list ModelRoute) (c : ConfigCaches) : ConfigCaches :=
  {| c_providers := c.(c_providers); c_routes := x; c_rules := c.(c_rules); c_prices := c.(c_prices); c_access := c.(c_access);
     c_disabled := c.(c_disabled); c_extra_body := c.(c_extra_body); c_messages := c.(c_messages); c_endpoints := c.(c_endpoints);
     c_headers := c.(c_headers) |}.
Definition with_rules (x : list RateRule) (c : ConfigCaches) : ConfigCaches :=
  {| c_providers := c.(c_providers); c_routes := c.(c_routes); c_rules := x; c_prices := c.(c_prices); c_access := c.(c_access);
     c_disabled := c.(c_disabled); c_extra_body := c.(c_extra_body); c_messages := c.(c_messages); c_endpoints := c.(c_endpoints);
     c_headers := c.(c_headers) |}.
Definition with_prices (x : gmap string ModelPrice) (c : ConfigCaches) : ConfigCaches :=
  {| c_providers := c.(c_providers); c_routes := c.(c_routes); c_rules := c.(c_rules); c_prices := x; c_access := c.(c_access);
     c_disabled := c.(c_disabled); c_extra_body := c.(c_extra_body); c_messages := c.(c_messages); c_endpoints := c.(c_endpoints);
     c_headers := c.(c_headers) |}.
Definition with_access (x : gmap Z (list UserAccessRule)) (c : ConfigCaches) : ConfigCaches :=
  {| c_providers := c.(c_providers); c_routes := c.(c_routes); c_rules := c.(c_rules); c_prices := c.(c_prices); c_access := x;
     c_disabled := c.(c_disabled); c_extra_body := c.(c_extra_body); c_messages := c.(c_messages); c_endpoints := c.(c_endpoints);
     c_headers := c.(c_headers) |}.
Definition with_disabled (x : gmap Z (gset string)) (c : ConfigCaches) : ConfigCaches :=
  {| c_providers := c.(c_providers); c_routes := c.(c_routes); c_rules := c.(c_rules); c_prices := c.(c_prices); c_access := c.(c_access);
     c_disabled := x; c_extra_body := c.(c_extra_body); c_messages := c.(c_messages); c_endpoints := c.(c_endpoints);
     c_headers := c.(c_headers) |}.
Definition with_extra_body (x : bool) (c : ConfigCaches) : ConfigCaches :=
  {| c_providers := c.(c_providers); c_routes := c.(c_routes); c_rules := c.(c_rules); c_prices := c.(c_prices); c_access := c.(c_access);
     c_disabled := c.(c_disabled); c_extra_body := x; c_messages := c.(c_messages); c_endpoints := c.(c_endpoints);
     c_headers := c.(c_headers) |}.
Definition with_messages (x : MessageTemplates) (c : ConfigCaches) : ConfigCaches :=
  {| c_providers := c.(c_providers); c_routes := c.(c_routes); c_rules := c.(c_rules); c_prices := c.(c_prices); c_access := c.(c_access);
     c_disabled := c.(c_disabled); c_extra_body := c.(c_extra_body); c_messages := x; c_endpoints := c.(c_endpoints);
     c_headers := c.(c_headers) |}.
Definition with_endpoints (x : ApiEndpointSettings) (c : ConfigCaches) : ConfigCaches :=
  {| c_providers := c.(c_providers); c_routes := c.(c_routes); c_rules := c.(c_rules); c_prices := c.(c_prices); c_access := c.(c_access);
     c_disabled := c.(c_disabled); c_extra_body := c.(c_extra_body); c_messages := c.(c_messages); c_endpoints := x;
     c_headers := c.(c_headers) |}.
Definition with_headers (x : HeaderSettings) (c : ConfigCaches) : ConfigCaches :=
  {| c_providers := c.(c_providers); c_routes := c.(c_routes); c_rules := c.(c_rules); c_prices := c.(c_prices); c_access := c.(c_access);
     c_disabled := c.(c_disabled); c_extra_body := c.(c_extra_body); c_messages := c.(c_messages); c_endpoints := c.(c_endpoints);
     c_headers := x |}.

(** ** What is loaded *)

Lemma rows_elem {A} (m : gmap Z A) x : x ∈ rows m <-> exists i, m !! i = Some x.
Proof.
  unfold rows. rewrite list_elem_of_fmap. split; [intros ([i y] & -> & H%elem_of_map_to_list); by exists i|].
  intros [i H%elem_of_map_to_list]. by exists (i, x).
Qed.
Lemma filter_elem {A} (p : A -> bool) l x : x ∈ List.filter p l <-> x ∈ l /\ p x = true.
Proof. by rewrite !list_elem_of_In, List.filter_In. Qed.
Lemma load_providers_elem t p : p ∈ load_providers t <-> exists i r, t.(providers) !! i = Some r /\ r.(pr_enabled) = true /\ p = r.(pr_data).
Proof.
  unfold load_providers. rewrite list_elem_of_fmap. split.
  - intros (r & -> & [[i Hr]%rows_elem He]%filter_elem). by exists i, r.
  - intros (i & r & Hr & He & ->). exists r. split; [done|]. apply filter_elem. split; [apply rows_elem; by exists i|done].
Qed.
Lemma load_routes_elem t r : r ∈ load_routes t <-> exists i x, t.(model_routes) !! i = Some x /\ x.(ro_enabled) = true /\ r = x.(ro_data).
Proof.
  unfold load_routes, by_priority. rewrite list_elem_of_fmap. setoid_rewrite (sort_by_key_perm ro_priority). setoid_rewrite (sort_by_key_perm ro_id). split.
  - intros (x & -> & [[i Hr]%rows_elem He]%filter_elem). by exists i, x.
  - intros (i & x & Hr & He & ->). exists x. split; [done|]. apply filter_elem. split; [apply rows_elem; by exists i|done].
Qed.
Lemma load_rules_elem t r : r ∈ load_rules t <-> exists i x, t.(rate_rules) !! i = Some x /\ x.(rl_enabled) = true /\ r = x.(rl_data).
Proof.
  unfold load_rules. rewrite list_elem_of_fmap. split.
  - intros (x & -> & [[i Hr]%rows_elem He]%filter_elem). by exists i, x.
  - intros (i & x & Hr & He & ->). exists x. split; [done|]. apply filter_elem. split; [apply rows_elem; by exists i|done].
Qed.
