(* ===== verification/Database.v ===== *)
(** * The database

The tables of users, sessions, keys, plans and groups, the statements on them as a monad in which every statement
may fail and a transaction is undone by an error, and [AppState::reload] of [src/state.rs], which copies tables into
the caches that requests read. A statement sees the table as a finite map; where the SQL has no [ORDER BY] the order of
rows is that of the map, and no theorem depends on it. *)

From S2P Require Import Prelude Json Errors Calendar Plans Metering Body Streams Upstream RateLimit Routing ConfigTables.

Local Open Scope Z_scope.

(** ** Rows *)

Record UserRow : Type := {
  u_id : Z;
  username : string;
  email : option string;
  display_name : option string;
  ldap_dn : option string;
  source : string;
  password_hash : option string;
  is_admin : bool;
  u_status : Z;
  token_version : Z;
  last_login_at : option Z;
  u_created_at : Z;
}.
Record TokenRow : Type := { t_user : Z; t_hash : string; t_expires : Z; t_revoked : option Z }.
Record KeyRow : Type := {
  k_user : Z;
  k_name : string;
  k_prefix : string;
  k_hash : string;
  k_encrypted : option string;
  k_expires : option Z;
  k_status : Z;
}.
Record AuditRow : Type := {
  a_actor : option Z;
  a_action : string;
  a_target_type : option string;
  a_target_id : option Z;
  a_detail : option Value;
}.

(** ** Plans and groups *)

Record CodingPlan : Type := {
  cp_id : Z;
  cp_name : string;
  cp_description : string;
  cp_priority : Z;
  cp_token_limit : Z;
  cp_period_type : string;
  cp_period_hours : Z;
  cp_period_anchor_mode : string;
  cp_overage_action : string;
  cp_downgrade_model : option string;
  cp_alert_channels : Value;
  cp_webhook_url : string;
  cp_enabled : bool;
  cp_active_start : option Z;
  cp_active_end : option Z;
  cp_model_scope : option Value;
  cp_created_at : Z;
  cp_updated_at : Z;
}.
(** The columns of [user_groups]; the counts and the plans of a [GroupRow] are joined when it is read. *)
Record UserGroup : Type := {
  g_id : Z;
  g_name : string;
  g_description : string;
  g_ldap_sync : bool;
  g_last_sync_at : option Z;
  g_last_sync_result : string;
  g_created_at : Z;
  g_updated_at : Z;
}.
Record Member : Type := { m_source : string; m_added_at : Z }.

(** [members] is keyed by group and user, [plan_users] and [plan_groups] by plan and member, with the time of joining; [notices] are
    the system rows of [plan_alerts]. *)
Record PlanTables : Type := {
  coding_plans : gmap Z CodingPlan;
  user_groups : gmap Z UserGroup;
  members : gmap (Z * Z) Member;
  plan_users : gmap (Z * Z) Z;
  plan_groups : gmap (Z * Z) Z;
  plan_seq : Z;
  group_seq : Z;
  notices : list string;
}.
Definition set_plans (m : gmap Z CodingPlan) (t : PlanTables) : PlanTables :=
  {| coding_plans := m; user_groups := t.(user_groups); members := t.(members); plan_users := t.(plan_users);
     plan_groups := t.(plan_groups); plan_seq := t.(plan_seq); group_seq := t.(group_seq); notices := t.(notices) |}.
Definition set_groups (m : gmap Z UserGroup) (t : PlanTables) : PlanTables :=
  {| coding_plans := t.(coding_plans); user_groups := m; members := t.(members); plan_users := t.(plan_users);
     plan_groups := t.(plan_groups); plan_seq := t.(plan_seq); group_seq := t.(group_seq); notices := t.(notices) |}.
Definition set_members (m : gmap (Z * Z) Member) (t : PlanTables) : PlanTables :=
  {| coding_plans := t.(coding_plans); user_groups := t.(user_groups); members := m; plan_users := t.(plan_users);
     plan_groups := t.(plan_groups); plan_seq := t.(plan_seq); group_seq := t.(group_seq); notices := t.(notices) |}.
Definition set_plan_users (m : gmap (Z * Z) Z) (t : PlanTables) : PlanTables :=
  {| coding_plans := t.(coding_plans); user_groups := t.(user_groups); members := t.(members); plan_users := m;
     plan_groups := t.(plan_groups); plan_seq := t.(plan_seq); group_seq := t.(group_seq); notices := t.(notices) |}.
Definition set_plan_groups (m : gmap (Z * Z) Z) (t : PlanTables) : PlanTables :=
  {| coding_plans := t.(coding_plans); user_groups := t.(user_groups); members := t.(members); plan_users := t.(plan_users);
     plan_groups := m; plan_seq := t.(plan_seq); group_seq := t.(group_seq); notices := t.(notices) |}.

(** *** [RUNTIME_SOURCE_SQL] *)

(** A plan as the candidate of a user. *)
Definition runtime_row (user : Z) (group : string) (since : Z) (p : CodingPlan) : RuntimeRow :=
  {| row_user_id := user;
     row_plan := {| plan_id := p.(cp_id); plan_name := p.(cp_name); group_name := group; token_limit := p.(cp_token_limit);
                    period_type := p.(cp_period_type); period_hours := p.(cp_period_hours);
                    period_anchor_mode := p.(cp_period_anchor_mode); member_since := since;
                    overage_action := p.(cp_overage_action); downgrade_model := p.(cp_downgrade_model);
                    alert_channels := []; webhook_url := p.(cp_webhook_url); priority := p.(cp_priority);
                    active_start := p.(cp_active_start); active_end := p.(cp_active_end); model_scope := None |};
     row_alert_channels := p.(cp_alert_channels); row_model_scope := p.(cp_model_scope) |}.
Definition enabled_plan (t : PlanTables) (id : Z) : option CodingPlan :=
  p ← t.(coding_plans) !! id; if p.(cp_enabled) then Some p else None.
(** Members of a group, joined with the plans of the group. *)
Definition group_rows (t : PlanTables) : list RuntimeRow :=
  map_to_list t.(members) ≫= fun m =>
  omap (fun pg => if pg.1.2 =? m.1.1 then
                    g ← t.(user_groups) !! m.1.1; p ← enabled_plan t pg.1.1;
                    Some (runtime_row m.1.2 g.(g_name) m.2.(m_added_at) p)
                  else None) (map_to_list t.(plan_groups)).
(** Users that have joined a plan themselves. *)
Definition direct_rows (t : PlanTables) : list RuntimeRow :=
  omap (fun pu => p ← enabled_plan t pu.1.1; Some (runtime_row pu.1.2 "" pu.2 p)) (map_to_list t.(plan_users)).
Definition runtime_source (t : PlanTables) : list RuntimeRow := group_rows t ++ direct_rows t.

(** ** The whole database *)

Record Db : Type := {
  users : gmap Z UserRow;
  refresh_tokens : gmap Z TokenRow;
  api_keys : gmap Z KeyRow;
  audit_logs : list AuditRow;
  planning : PlanTables;
  config : ConfigTables;
  user_seq : Z;
  token_seq : Z;
  key_seq : Z;
}.
Definition set_users (m : gmap Z UserRow) (s : Db) : Db :=
  {| users := m; refresh_tokens := s.(refresh_tokens); api_keys := s.(api_keys); audit_logs := s.(audit_logs); planning := s.(planning); config := s.(config);
     user_seq := s.(user_seq); token_seq := s.(token_seq); key_seq := s.(key_seq) |}.
Definition set_tokens (m : gmap Z TokenRow) (s : Db) : Db :=
  {| users := s.(users); refresh_tokens := m; api_keys := s.(api_keys); audit_logs := s.(audit_logs); planning := s.(planning); config := s.(config);
     user_seq := s.(user_seq); token_seq := s.(token_seq); key_seq := s.(key_seq) |}.
Definition set_keys (m : gmap Z KeyRow) (s : Db) : Db :=
  {| users := s.(users); refresh_tokens := s.(refresh_tokens); api_keys := m; audit_logs := s.(audit_logs); planning := s.(planning); config := s.(config);
     user_seq := s.(user_seq); token_seq := s.(token_seq); key_seq := s.(key_seq) |}.

Definition set_planning (t : PlanTables) (s : Db) : Db :=
  {| users := s.(users); refresh_tokens := s.(refresh_tokens); api_keys := s.(api_keys); audit_logs := s.(audit_logs);
     planning := t; config := s.(config); user_seq := s.(user_seq); token_seq := s.(token_seq); key_seq := s.(key_seq) |}.

Definition set_config (t : ConfigTables) (s : Db) : Db :=
  {| users := s.(users); refresh_tokens := s.(refresh_tokens); api_keys := s.(api_keys); audit_logs := s.(audit_logs);
     planning := s.(planning); config := t; user_seq := s.(user_seq); token_seq := s.(token_seq); key_seq := s.(key_seq) |}.

(** ** Effects *)

(** What a handler works on: the database, the statements that will fail, the random numbers to be drawn,
    and the caches of the tables. *)
Record Caches : Type := { admin_ids : gset Z; plans : gmap Z (list PlanRuntime); conf : ConfigCaches }.
Record World : Type := { db : Db; faults : list bool; entropy : list string; caches : Caches }.
Definition with_db (s : Db) (w : World) : World :=
  {| db := s; faults := w.(faults); entropy := w.(entropy); caches := w.(caches) |}.

Definition M (A : Type) : Type := World -> result A AppError * World.
Definition ret {A} (a : A) : M A := fun w => (Ok a, w).
Definition throw {A} (e : AppError) : M A := fun w => (Err e, w).
Definition bind {A B} (m : M A) (k : A -> M B) : M B :=
  fun w => match m w with (Ok a, w) => k a w | (Err e, w) => (Err e, w) end.
Notation "'let!' x := m 'in' k" := (bind m (fun v => match v with x => k end)) (at level 10, x pattern, m at level 100, k at level 200) : gateway_scope.

Definition db_error : AppError := Internal "database error".
(** A statement: it fails when the next fault says so, and leaves the database as it is. *)
Definition stmt {A} (f : Db -> A * Db) : M A :=
  fun w =>
    let w' := {| db := w.(db); faults := tail w.(faults); entropy := w.(entropy); caches := w.(caches) |} in
    if default false (head w.(faults)) then (Err db_error, w')
    else let '(a, s) := f w.(db) in (Ok a, with_db s w').
Definition query {A} (f : Db -> A) : M A := stmt (fun s => (f s, s)).
Definition execute (f : Db -> Db) : M unit := stmt (fun s => (tt, f s)).

(** A transaction: an error rolls the database back. *)
Definition transaction {A} (m : M A) : M A :=
  let! _ := query (fun _ => tt) in
  fun w => match (let! a := m in let! _ := query (fun _ => tt) in ret a) w with
           | (Ok a, w') => (Ok a, w')
           | (Err e, w') => (Err e, with_db w.(db) w')
           end.

(** A transaction that is given up, without an error, when the first component is [false]. *)
Definition transaction_if {A} (m : M (bool * A)) : M A :=
  let! _ := query (fun _ => tt) in
  fun w => match m w with
           | (Ok (true, a), w') =>
               match query (fun _ => tt) w' with (Ok _, w') => (Ok a, w') | (Err e, w') => (Err e, with_db w.(db) w') end
           | (Ok (false, a), w') => (Ok a, with_db w.(db) w')
           | (Err e, w') => (Err e, with_db w.(db) w')
           end.

Definition random_hex : M string :=
  fun w => (Ok (default "" (head w.(entropy))),
            {| db := w.(db); faults := w.(faults); entropy := tail w.(entropy); caches := w.(caches) |}).

Definition log (actor : option Z) (action : string) (target_type : option string) (target : option Z) (told : option Value) : M unit :=
  execute (fun s =>
    {| users := s.(users); refresh_tokens := s.(refresh_tokens); api_keys := s.(api_keys);
       audit_logs := s.(audit_logs) ++ [{| a_actor := actor; a_action := action; a_target_type := target_type;
                                           a_target_id := target; a_detail := told |}];
       planning := s.(planning); config := s.(config);
       user_seq := s.(user_seq); token_seq := s.(token_seq); key_seq := s.(key_seq) |}).

(** ** Reloading the caches *)

(** [users::load_admin_ids] and [plans::load_plan_runtimes] *)
Definition load_admin_ids (s : Db) : gset Z :=
  list_to_set (u_id <$> List.filter (fun u => u.(is_admin) && (u.(u_status) =? 1)) ((map_to_list s.(users)).*2)).
Definition load_plan_runtimes (json_text : Value -> string) (s : Db) : gmap Z (list PlanRuntime) :=
  rows_into_runtimes json_text (runtime_source s.(planning)).

Definition set_caches (f : Caches -> Caches) : M unit :=
  fun w => (Ok tt, {| db := w.(db); faults := w.(faults); entropy := w.(entropy); caches := f w.(caches) |}).
Definition reload_admins : M unit :=
  let! ids := query load_admin_ids in set_caches (fun c => {| admin_ids := ids; plans := c.(plans); conf := c.(conf) |}).
Definition reload_plans (json_text : Value -> string) : M unit :=
  let! rts := query (load_plan_runtimes json_text) in set_caches (fun c => {| admin_ids := c.(admin_ids); plans := rts; conf := c.(conf) |}).
(** A section of the configuration. *)
Definition reload_config {A} (load : ConfigTables -> A) (put : A -> ConfigCaches -> ConfigCaches) : M unit :=
  let! v := query (fun s => load s.(config)) in
  set_caches (fun c => {| admin_ids := c.(admin_ids); plans := c.(plans); conf := put v c.(conf) |}).
(** The section of the directory, whose settings are not part of this database. *)
Definition reload_ldap : M unit := query (fun _ => tt).

(** Every section is tried; one that fails leaves its cache as it was, and the first error is reported. *)
Fixpoint sections (first : option AppError) (l : list (M unit)) : M unit :=
  match l with
  | [] => match first with Some e => throw e | None => ret tt end
  | m :: l => fun w => match m w with
                       | (Ok _, w') => sections first l w'
                       | (Err e, w') => sections (or_else first (Some e)) l w'
                       end
  end.
Definition reload (json_text : Value -> string) : M unit :=
  sections None
    [reload_config load_providers with_providers; reload_config load_routes with_routes; reload_config load_rules with_rules;
     reload_config load_prices with_prices; reload_config load_user_access with_access; reload_admins;
     reload_config load_disabled_models with_disabled; reload_plans json_text;
     reload_config (fun t => t.(settings).(st_extra_body)) with_extra_body; reload_config (fun t => t.(settings).(st_messages)) with_messages;
     reload_config (fun t => t.(settings).(st_endpoints)) with_endpoints; reload_ldap; reload_config load_header_settings with_headers].

(** ** Runs *)

(** Statements that do not fail. *)
Lemma stmt_ok {A} (f : Db -> A * Db) w :
  w.(faults) = [] -> stmt f w = (Ok (f w.(db)).1, {| db := (f w.(db)).2; faults := []; entropy := w.(entropy); caches := w.(caches) |}).
Proof. intros Hf. unfold stmt. rewrite Hf. cbn. by destruct (f (db w)). Qed.

Lemma bind_ret {A B} (a : A) (k : A -> M B) w : bind (ret a) k w = k a w.
Proof. done. Qed.
Lemma bind_ok {A B} (m : M A) (k : A -> M B) w b :
  (bind m k w).1 = Ok b -> exists a, (m w).1 = Ok a /\ (k a (m w).2).1 = Ok b /\ (bind m k w).2 = (k a (m w).2).2.
Proof. unfold bind. destruct (m w) as [[a|e] w']; cbn; [eauto|done]. Qed.
Lemma transaction_ok_from {A} (m : M A) w a :
  (transaction m w).1 = Ok a ->
  exists w0, w0.(db) = w.(db) /\ w0.(caches) = w.(caches) /\ (m w0).1 = Ok a /\ (transaction m w).2.(db) = (m w0).2.(db).
Proof.
  unfold transaction, bind, query, stmt, ret. destruct (default false (head (faults w))); [done|]. cbn [db faults with_db].
  set (w0 := with_db (db w) _). destruct (m w0) as [[b|e] w1] eqn:Em; [|done].
  destruct (default false (head (faults w1))); [done|]. cbn. intros [= <-]. exists w0. by rewrite Em.
Qed.
Lemma transaction_ok {A} (m : M A) w a :
  (transaction m w).1 = Ok a -> exists w0, w0.(db) = w.(db) /\ (m w0).1 = Ok a /\ (transaction m w).2.(db) = (m w0).2.(db).
Proof. intros (w0 & ? & _ & ? & ?)%transaction_ok_from. by exists w0. Qed.

Lemma bind_cases {A B} (m : M A) (k : A -> M B) w :
  (exists e, (m w).1 = Err e /\ bind m k w = (Err e, (m w).2)) \/ exists a, (m w).1 = Ok a /\ bind m k w = k a (m w).2.
Proof. unfold bind. destruct (m w) as [[a|e] w']; [right|left]; eauto. Qed.
Lemma transaction_err {A} (m : M A) w e : (transaction m w).1 = Err e -> (transaction m w).2.(db) = w.(db).
Proof.
  unfold transaction, bind, query, stmt, ret. destruct (default false (head (faults w))); [done|]. cbn [db faults with_db].
  set (w0 := with_db (db w) _). destruct (m w0) as [[b|e'] w1]; [|done]. by destruct (default false (head (faults w1))).
Qed.

(** A preorder on databases that a run respects, whatever fails. *)
Section keeps.
Context (R : relation Db) `{!PreOrder R}.

Definition keeps {A} (m : M A) : Prop := forall w, R w.(db) (m w).2.(db).

Lemma keeps_ret A (a : A) : keeps (ret a).
Proof. intros w. done. Qed.
Lemma keeps_throw A e : keeps (@throw A e).
Proof. intros w. done. Qed.
Lemma keeps_bind A B (m : M A) (k : A -> M B) : keeps m -> (forall a, keeps (k a)) -> keeps (bind m k).
Proof.
  intros Hm Hk w. unfold bind. specialize (Hm w). destruct (m w) as [[a|e] w']; [|done]. cbn [snd] in *.
  etransitivity; [exact Hm|apply Hk].
Qed.
Lemma keeps_stmt A (f : Db -> A * Db) : (forall s, R s (f s).2) -> keeps (stmt f).
Proof. intros Hf w. unfold stmt. destruct (default false _); [done|]. specialize (Hf w.(db)). by destruct (f (db w)). Qed.
Lemma keeps_query A (f : Db -> A) : keeps (query f).
Proof. by apply keeps_stmt. Qed.
Lemma keeps_transaction A (m : M A) : keeps m -> keeps (transaction m).
Proof.
  intros Hm. apply keeps_bind; [apply keeps_query|]. intros _ w.
  assert (H : keeps (let! a := m in let! _ := query (fun _ => tt) in ret a)).
  { apply keeps_bind; [done|]. intros a. apply keeps_bind; [apply keeps_query|]. intros _. apply keeps_ret. }
  specialize (H w). by destruct ((let! a := m in let! _ := query (fun _ => tt) in ret a) w) as [[a|e] w'].
Qed.
Lemma keeps_transaction_if A (m : M (bool * A)) : keeps m -> keeps (transaction_if m).
Proof.
  intros Hm. apply keeps_bind; [apply keeps_query|]. intros _ w. specialize (Hm w).
  destruct (m w) as [[[[] a]|e] w']; [|done..]. pose proof (keeps_query _ (fun _ => tt) w') as Hq.
  destruct (query (fun _ => tt) w') as [[u|e] w2]; [|done]. cbn in *. by etransitivity.
Qed.
Lemma keeps_caches f : keeps (set_caches f).
Proof. intros w. done. Qed.
Lemma keeps_sections first l : Forall keeps l -> keeps (sections first l).
Proof.
  intros Hl. revert first. induction Hl as [|m l Hm _ IH]; intros first w; cbn [sections]; [by destruct first|].
  specialize (Hm w). destruct (m w) as [[a|e] w']; (etransitivity; [exact Hm|apply IH]).
Qed.
Lemma keeps_reload json_text : keeps (reload json_text).
Proof.
  assert (H : forall A (f : Db -> A) g, keeps (let! v := query f in set_caches (g v))).
  { intros A f g. apply keeps_bind; [apply keeps_query|]. intros a. apply keeps_caches. }
  apply keeps_sections. repeat constructor; (apply H || apply keeps_query).
Qed.
End keeps.

(** What holds of the database and of the caches before a run and after it, whatever fails. *)
Section holds.
Context (P : Db -> Prop) (Q : Caches -> Prop).

Definition holds {A} (m : M A) : Prop := forall w, P w.(db) -> Q w.(caches) -> P (m w).2.(db) /\ Q (m w).2.(caches).

Lemma holds_ret A (a : A) : holds (ret a).
Proof. intros w. done. Qed.
Lemma holds_throw A e : holds (@throw A e).
Proof. intros w. done. Qed.
Lemma holds_bind A B (m : M A) (k : A -> M B) : holds m -> (forall a, holds (k a)) -> holds (bind m k).
Proof.
  intros Hm Hk w Hp Hq. unfold bind. destruct (Hm w Hp Hq) as [Hp' Hq']. destruct (m w) as [[a|e] w']; [|done]. by apply Hk.
Qed.
Lemma holds_at A B (m : M A) (k : A -> M B) w :
  P (m w).2.(db) -> Q (m w).2.(caches) -> (forall a, holds (k a)) -> P (bind m k w).2.(db) /\ Q (bind m k w).2.(caches).
Proof. intros Hp Hq Hk. unfold bind. destruct (m w) as [[a|e] w']; [|done]. by apply Hk. Qed.
Lemma holds_stmt A (f : Db -> A * Db) : (forall s, P s -> P (f s).2) -> holds (stmt f).
Proof. intros Hf w Hp Hq. unfold stmt. destruct (default false _); [done|]. specialize (Hf _ Hp). by destruct (f (db w)). Qed.
Lemma holds_query A (f : Db -> A) : holds (query f).
Proof. by apply holds_stmt. Qed.
Lemma holds_transaction A (m : M A) : holds m -> holds (transaction m).
Proof.
  intros Hm. apply holds_bind; [apply holds_query|]. intros _ w Hp Hq.
  assert (H : holds (let! a := m in let! _ := query (fun _ => tt) in ret a)).
  { apply holds_bind; [done|]. intros a. apply holds_bind; [apply holds_query|]. intros _. apply holds_ret. }
  destruct (H w Hp Hq) as [Hp' Hq']. by destruct ((let! a := m in let! _ := query (fun _ => tt) in ret a) w) as [[a|e] w'].
Qed.
Lemma holds_caches f : (forall c, Q c -> Q (f c)) -> holds (set_caches f).
Proof. intros Hf w Hp Hq. split; [done|]. by apply Hf. Qed.
Lemma holds_section A (f : Db -> A) g : (forall s c, P s -> Q c -> Q (g (f s) c)) -> holds (let! v := query f in set_caches (g v)).
Proof. intros H w Hp Hq. unfold bind, query, stmt, set_caches. destruct (default false _); cbn; [done|]. split; [done|]. by apply H. Qed.
Lemma holds_sections first l : Forall holds l -> holds (sections first l).
Proof.
  intros Hl. revert first. induction Hl as [|m l Hm _ IH]; intros first w Hp Hq; cbn [sections]; [by destruct first|].
  destruct (Hm w Hp Hq) as [Hp' Hq']. destruct (m w) as [[a|e] w']; by apply IH.
Qed.
End holds.

(** Goes into a run. *)
Ltac holds_step :=
  match goal with
  | |- holds ?P ?Q (transaction ?m) => refine (holds_transaction P Q _ m _)
  | |- holds ?P ?Q (bind ?m ?k) => refine (holds_bind P Q _ _ m k _ _)
  end.
Ltac keeps_step :=
  match goal with
  | |- keeps ?R (transaction ?m) => refine (keeps_transaction R _ m _)
  | |- keeps ?R (transaction_if ?m) => refine (keeps_transaction_if R _ m _)
  | |- keeps ?R (bind ?m ?k) => refine (keeps_bind R _ _ m k _ _)
  end.

(** ** A reload that succeeds *)

Lemma sections_failed e l w : (sections (Some e) l w).1 <> Ok tt.
Proof. revert e w. induction l as [|m l IH]; intros e w; cbn [sections]; [done|]. destruct (m w) as [[a|e'] w']; apply IH. Qed.
Lemma sections_ok m l w : (sections None (m :: l) w).1 = Ok tt -> (m w).1 = Ok tt /\ sections None (m :: l) w = sections None l (m w).2.
Proof. cbn [sections]. destruct (m w) as [[[]|e] w']; cbn [fst snd or_else]; [done|]. intros H. by destruct (sections_failed _ _ _ H). Qed.
Lemma query_ok {A} (f : Db -> A) w a : (query f w).1 = Ok a -> a = f w.(db) /\ (query f w).2.(db) = w.(db) /\ (query f w).2.(caches) = w.(caches).
Proof. unfold query, stmt. destruct (default false _); [done|]. cbn. by intros [= <-]. Qed.

(** A section that loads a cache, among sections that succeed. *)
Lemma section_load {A} (f : Db -> A) g l w :
  (sections None ((let! v := query f in set_caches (g v)) :: l) w).1 = Ok tt ->
  exists w', w'.(db) = w.(db) /\ w'.(caches) = g (f w.(db)) w.(caches) /\
             sections None ((let! v := query f in set_caches (g v)) :: l) w = sections None l w'.
Proof.
  intros H. destruct (sections_ok _ _ _ H) as [Ho E]. exists ((let! v := query f in set_caches (g v)) w).2.
  apply bind_ok in Ho as (a & Ha & _ & Eb). destruct (query_ok _ _ _ Ha) as (-> & E1 & E2).
  split_and!; [by rewrite Eb|rewrite Eb; cbn; by rewrite E2|exact E].
Qed.
Lemma section_ldap l w :
  (sections None (reload_ldap :: l) w).1 = Ok tt ->
  exists w', w'.(db) = w.(db) /\ w'.(caches) = w.(caches) /\ sections None (reload_ldap :: l) w = sections None l w'.
Proof.
  intros H. destruct (sections_ok _ _ _ H) as [Ho E]. exists (reload_ldap w).2. destruct (query_ok _ _ _ Ho) as (_ & E1 & E2).
  split_and!; [done..|]. exact E.
Qed.

(** The caches are then the contents of the tables. *)
Definition fresh_caches (json_text : Value -> string) (s : Db) : Caches :=
  {| admin_ids := load_admin_ids s; plans := load_plan_runtimes json_text s; conf := load_config s.(config) |}.
Lemma reload_ok json_text w :
  (reload json_text w).1 = Ok tt ->
  (reload json_text w).2.(caches) = fresh_caches json_text w.(db) /\ (reload json_text w).2.(db) = w.(db).
Proof.
  intros H. split; [|symmetry; by apply (keeps_reload eq)]. revert H. unfold reload. intros H.
  repeat (unfold reload_config, reload_admins, reload_plans in H |- *;
    (apply section_load in H as Hk || apply section_ldap in H as Hk); destruct Hk as (? & ? & ? & Hk); rewrite Hk in H |- *; clear Hk).
  cbn [sections ret snd].
  repeat match goal with E : caches ?x = _ |- context[caches ?x] => rewrite E; cbn [admin_ids plans conf] end.
  repeat match goal with E : db ?x = _ |- context[db ?x] => rewrite E end. done.
Qed.
