(* ===== verification/PlanConfig.v ===== *)
(** * Configuration of coding plans

The notation of token limits and the statements of [src/store/plans.rs] that create, change and delete plans, with the
handlers of [src/api/plans.rs] that validate what they are given. The constraints of the tables are those of the
migrations: a statement that would break one fails and changes nothing. *)

From Stdlib Require SpecFloat.
From S2P Require Import Prelude Float Json Errors Routing Calendar Plans Metering Body Streams Chat AnthropicResponse ErrorShape Upstream ConfigTables Database.

Local Open Scope Z_scope.

Definition OVERAGE_BLOCK : string := "block".
Definition VALID_OVERAGES : list string := [OVERAGE_BLOCK; OVERAGE_DOWNGRADE; OVERAGE_LOG].
Definition VALID_ALERT_CHANNELS : list string := ["in_site"; "email"; "webhook"].

(** ** Token limits *)

(** The float nearest to [n / 10^k]. *)
Definition of_decimal (n : Z) (k : nat) : F64.t :=
  match n, 10 ^ Z.of_nat k with
  | Zpos n, Zpos d =>
      let '(q, e, l) := SpecFloat.SFdiv_core_binary F64.prec F64.emax (Zpos n) 0 (Zpos d) 0 in
      SpecFloat.binary_round_aux F64.prec F64.emax false q e l
  | _, _ => F64.zero
  end.
(** [str::parse::<f64>] on digits and points: at most one point, at least one digit. *)
Fixpoint split_point (s : string) : string * option string :=
  match s with
  | "" => ("", None)
  | String c s => if bool_decide (c = "."%char) then ("", Some s) else let '(a, b) := split_point s in (String c a, b)
  end.
Definition parse_decimal (s : string) : option F64.t :=
  let '(whole, fraction) := split_point s in
  let fraction := default "" fraction in
  n ← parse_digits (whole +:+ fraction); Some (of_decimal n (String.length fraction)).

Section limits.
(** [{:?}] of a string, and [{:.3}] of a float. *)
Context (debug : string -> string) (fixed3 : F64.t -> string).

Definition upper (a : Ascii.ascii) : Ascii.ascii :=
  let n := Ascii.nat_of_ascii a in if (97 <=? n)%nat && (n <=? 122)%nat then Ascii.ascii_of_nat (n - 32) else a.
Fixpoint to_ascii_uppercase (s : string) : string :=
  match s with "" => "" | String c s => String (upper c) (to_ascii_uppercase s) end.

Definition unit_of (u : string) : option F64.t :=
  if bool_decide (u = "") then Some (F64.of_Z 1)
  else if bool_decide (u = "K") then Some (F64.of_Z (10 ^ 3))
  else if bool_decide (u = "M") then Some (F64.of_Z (10 ^ 6))
  else if bool_decide (u = "G") then Some (F64.of_Z (10 ^ 9))
  else if bool_decide (u = "T") then Some (F64.of_Z (10 ^ 12))
  else None.
Definition finish (num unit_text : string) : result Z string :=
  match parse_decimal (trim num) with
  | None => Err ("invalid token_limit: " +:+ debug num +:+ unit_text)
  | Some v =>
      if negb (F64.is_finite v) || F64.ltb v F64.zero then Err ("invalid token_limit: " +:+ debug num +:+ unit_text)
      else
        let u := to_ascii_uppercase (trim unit_text) in
        match unit_of u with
        | None => Err ("unknown token_limit unit " +:+ debug u +:+ " (use K/M/G/T)")
        | Some mult =>
            let tokens := F64.mul v mult in
            if F64.leb (F64.of_Z i64_max) tokens then Err "token_limit overflow" else Ok (F64.as_i64 tokens)
        end
  end.

Definition is_limit_char (a : Ascii.ascii) : bool := is_digit a || bool_decide (a = "."%char).
Fixpoint span_limit (s : string) : string * string :=
  match s with
  | "" => ("", "")
  | String c s' => if is_limit_char c then let '(a, b) := span_limit s' in (String c a, b) else ("", s)
  end.
Definition parse_token_limit (raw : string) : result Z string :=
  let '(num, rest) := span_limit (trim raw) in
  if str_is_empty rest then finish num ""
  else if str_is_empty num then Err ("invalid token_limit: " +:+ debug raw)
  else finish num rest.

Definition trim_zeros (s : string) : string := trim_end_matches (fun a => bool_decide (a = "."%char)) (trim_end_matches (fun a => bool_decide (a = "0"%char)) s).
Definition UNITS : list (Z * string) := [(10 ^ 12, "T"); (10 ^ 9, "G"); (10 ^ 6, "M"); (10 ^ 3, "K")].
Definition format_token_limit (tokens : Z) : string :=
  let t := F64.of_Z tokens in
  match List.find (fun u => F64.leb (F64.of_Z u.1) t) UNITS with
  | Some (div, u) => trim_zeros (fixed3 (F64.div t (F64.of_Z div))) +:+ u
  | None => pretty tokens
  end.

(** The limit in a request: a number or a text. *)
Definition parse_limit_value (v : Value) : result Z AppError :=
  match v with
  | VNumber n =>
      let t := match as_i64 v with Some t => t | None => F64.as_i64 (as_f64 n) end in
      if 0 <? t then Ok t else Err (BadRequest "invalid token_limit")
  | VString s => map_err BadRequest (parse_token_limit s)
  | _ => Err (BadRequest "invalid token_limit")
  end.
End limits.

(** ** Statements *)

(** Why a statement was refused: a name that is taken, or another constraint. *)
Inductive Refusal : Type := NameTaken | Violation.

(** A statement on plans and groups. *)
Definition on_plans {A} (f : PlanTables -> A * PlanTables) : M A :=
  stmt (fun s => let '(a, t) := f s.(planning) in (a, set_planning t s)).

(** [VARCHAR(n)] *)
Definition fits (n : nat) (s : string) : bool := (length (chars s) <=? n)%nat.

(** The [CHECK]s and widths of [coding_plans]. *)
Definition plan_row_ok (p : CodingPlan) : bool :=
  fits 128 p.(cp_name) && (0 <? p.(cp_token_limit)) && bool_decide (p.(cp_period_type) ∈ VALID_PERIODS) &&
  (1 <=? p.(cp_period_hours)) && (p.(cp_period_hours) <=? 168) && bool_decide (p.(cp_period_anchor_mode) ∈ VALID_ANCHOR_MODES) &&
  bool_decide (p.(cp_overage_action) ∈ VALID_OVERAGES) && match p.(cp_downgrade_model) with Some m => fits 128 m | None => true end.
Definition plan_name_taken (t : PlanTables) (id : Z) (name : string) : bool :=
  existsb (fun kp => negb (kp.1 =? id) && bool_decide (kp.2.(cp_name) = name)) (map_to_list t.(coding_plans)).
(** The row is written when no constraint is broken. *)
Definition write_plan (p : CodingPlan) (t : PlanTables) : result CodingPlan Refusal * PlanTables :=
  if negb (plan_row_ok p) then (Err Violation, t)
  else if plan_name_taken t p.(cp_id) p.(cp_name) then (Err NameTaken, t)
  else (Ok p, set_plans (<[p.(cp_id) := p]> t.(coding_plans)) t).

(** [serde_json::to_value] of a scope; empty lists are left out. *)
Definition scope_list (key : string) (l : list string) : list (string * Value) :=
  if bool_decide (l = []) then [] else [(key, VArray (VString <$> l))].
Definition scope_value (s : ModelScope) : Value := json_object (scope_list "allow" s.(allow) ++ scope_list "deny" s.(deny)).

Section plans.
Context (now : Z).

Definition find_plan (id : Z) : M (option CodingPlan) := query (fun s => s.(planning).(coding_plans) !! id).

(** The columns a plan is created with; the identifier is the next of the sequence. *)
Record NewPlan : Type := {
  n_name : string;
  n_description : string;
  n_priority : Z;
  n_token_limit : Z;
  n_period_type : string;
  n_period_hours : Z;
  n_period_anchor_mode : string;
  n_overage_action : string;
  n_downgrade_model : option string;
  n_alert_channels : Value;
  n_webhook_url : string;
  n_active_start : option Z;
  n_active_end : option Z;
  n_model_scope : option ModelScope;
  n_enabled : bool;
}.
Definition new_plan_row (n : NewPlan) (id : Z) : CodingPlan :=
  {| cp_id := id; cp_name := n.(n_name); cp_description := n.(n_description); cp_priority := n.(n_priority);
     cp_token_limit := n.(n_token_limit); cp_period_type := n.(n_period_type); cp_period_hours := n.(n_period_hours);
     cp_period_anchor_mode := n.(n_period_anchor_mode); cp_overage_action := n.(n_overage_action);
     cp_downgrade_model := n.(n_downgrade_model); cp_alert_channels := n.(n_alert_channels); cp_webhook_url := n.(n_webhook_url);
     cp_enabled := n.(n_enabled); cp_active_start := n.(n_active_start); cp_active_end := n.(n_active_end);
     cp_model_scope := scope_value <$> n.(n_model_scope); cp_created_at := now; cp_updated_at := now |}.
Definition next_plan_id (t : PlanTables) : PlanTables :=
  {| coding_plans := t.(coding_plans); user_groups := t.(user_groups); members := t.(members); plan_users := t.(plan_users);
     plan_groups := t.(plan_groups); plan_seq := t.(plan_seq) + 1; group_seq := t.(group_seq); notices := t.(notices) |}.
Definition insert_plan (n : NewPlan) : M (result CodingPlan Refusal) :=
  on_plans (fun t => write_plan (new_plan_row n t.(plan_seq)) (next_plan_id t)).

(** A partial update: an outer [None] keeps a column. *)
Record PlanPatch : Type := {
  p_name : option string;
  p_description : option string;
  p_priority : option Z;
  p_token_limit : option Z;
  p_period_type : option string;
  p_period_hours : option Z;
  p_period_anchor_mode : option string;
  p_overage_action : option string;
  p_downgrade_model : option (option string);
  p_alert_channels : option Value;
  p_webhook_url : option string;
  p_active_window : option (option (Z * Z));
  p_model_scope : option (option ModelScope);
  p_enabled : option bool;
}.
Definition patched (p : PlanPatch) (r : CodingPlan) : CodingPlan :=
  {| cp_id := r.(cp_id); cp_name := default r.(cp_name) p.(p_name); cp_description := default r.(cp_description) p.(p_description);
     cp_priority := default r.(cp_priority) p.(p_priority); cp_token_limit := default r.(cp_token_limit) p.(p_token_limit);
     cp_period_type := default r.(cp_period_type) p.(p_period_type); cp_period_hours := default r.(cp_period_hours) p.(p_period_hours);
     cp_period_anchor_mode := default r.(cp_period_anchor_mode) p.(p_period_anchor_mode);
     cp_overage_action := default r.(cp_overage_action) p.(p_overage_action);
     cp_downgrade_model := default r.(cp_downgrade_model) p.(p_downgrade_model);
     cp_alert_channels := default r.(cp_alert_channels) p.(p_alert_channels); cp_webhook_url := default r.(cp_webhook_url) p.(p_webhook_url);
     cp_enabled := default r.(cp_enabled) p.(p_enabled);
     cp_active_start := match p.(p_active_window) with None => r.(cp_active_start) | Some w => fst <$> w end;
     cp_active_end := match p.(p_active_window) with None => r.(cp_active_end) | Some w => snd <$> w end;
     cp_model_scope := match p.(p_model_scope) with None => r.(cp_model_scope) | Some s => scope_value <$> s end;
     cp_created_at := r.(cp_created_at); cp_updated_at := now |}.
(** [None] when there is no such plan. *)
Definition update_plan_row (id : Z) (p : PlanPatch) : M (option (result CodingPlan Refusal)) :=
  on_plans (fun t => match t.(coding_plans) !! id with
                     | None => (None, t)
                     | Some r => let '(res, t) := write_plan (patched p r) t in (Some res, t)
                     end).

(** The groups and users that lose the plan; their rows go with it ([ON DELETE CASCADE]). *)
Definition of_plan (id : Z) (k : Z * Z) : bool := k.1 =? id.
Definition count_of_plan {A} (id : Z) (m : gmap (Z * Z) A) : Z := Z.of_nat (length (List.filter (fun kv => of_plan id kv.1) (map_to_list m))).
Definition drop_plan (id : Z) (t : PlanTables) : PlanTables :=
  set_plan_groups (filter (fun kv => of_plan id kv.1 = false) t.(plan_groups))
    (set_plan_users (filter (fun kv => of_plan id kv.1 = false) t.(plan_users)) (set_plans (delete id t.(coding_plans)) t)).
Record PlanDeleteImpact : Type := { i_groups : Z; i_direct_users : Z }.
Definition delete_plan_row (id : Z) : M (option PlanDeleteImpact) :=
  transaction_if (
    let! found := find_plan id in
    match found with
    | None => ret (false, None)
    | Some _ =>
        let! groups := query (fun s => count_of_plan id s.(planning).(plan_groups)) in
        let! direct := query (fun s => count_of_plan id s.(planning).(plan_users)) in
        let! _ := on_plans (fun t => (tt, drop_plan id t)) in
        ret (true, Some {| i_groups := groups; i_direct_users := direct |})
    end).
End plans.

(** ** Handlers *)

(** Fails with the error of a result. *)
Definition lift {A} (r : result A AppError) : M A := match r with Ok a => ret a | Err e => throw e end.

Record PlanCreateReq : Type := {
  r_name : string;
  r_description : string;
  r_priority : Z;
  r_token_limit : Value;
  r_period_type : string;
  r_period_hours : Z;
  r_period_anchor_mode : string;
  r_overage_action : string;
  r_downgrade_model : option string;
  r_alert_channels : option (list string);
  r_webhook_url : string;
  r_active_window : option (option string * option string);
  r_model_scope : option Value;
  r_enabled : bool;
}.
Record PlanUpdateReq : Type := {
  q_name : option string;
  q_description : option string;
  q_priority : option Z;
  q_token_limit : option Value;
  q_period_type : option string;
  q_period_hours : option Z;
  q_period_anchor_mode : option string;
  q_overage_action : option string;
  q_downgrade_model : option (option string);
  q_alert_channels : option (list string);
  q_webhook_url : option string;
  q_active_window : option (option string * option string);
  q_model_scope : option (option Value);
  q_enabled : option bool;
}.
(** What is left of a text after trimming, when it is not empty. *)
Definition non_blank (s : string) : option string := let t := trim s in if str_is_empty t then None else Some t.

Section handlers.
Context (debug : string -> string) (fixed3 : F64.t -> string) (json_text : Value -> string).
(** [NaiveTime::parse_from_str] with [%H:%M] and [%H:%M:%S]; the JSON of a time of day and of a moment. *)
Context (parse_hm parse_hms : string -> option Z) (clock_value time_value : Z -> Value).
(** The routes of the cache. *)
Context (routes : list ModelRoute).
Context (now : Z).

Definition parse_active_time (raw : string) : result Z string :=
  match or_else (parse_hm (trim raw)) (parse_hms (trim raw)) with
  | Some t => Ok t
  | None => Err ("invalid time '" +:+ raw +:+ "' (expected HH:MM)")
  end.
Definition parse_bound (v : option string) : result (option Z) AppError :=
  match v with None => Ok None | Some raw => map_err BadRequest (let? t := parse_active_time raw in Ok (Some t)) end.
Definition parse_active_window (w : option (option string * option string)) : result (option (option (Z * Z))) AppError :=
  match w with
  | None => Ok None
  | Some (start, end_) =>
      let? s := parse_bound start in
      let? e := parse_bound end_ in
      let? _ := map_err BadRequest (validate_active_window s e) in
      Ok (Some (match s, e with Some s, Some e => Some (s, e) | _, _ => None end))
  end.

Definition validate_plan_fields (overage : option string) (channels : option (list string)) (downgrade : option (option string))
    : result unit AppError :=
  let? _ := match overage with
            | Some o => if bool_decide (o ∈ VALID_OVERAGES) then Ok tt else Err (BadRequest ("invalid overage_action: " +:+ o))
            | None => Ok tt
            end in
  let? _ := match channels with
            | Some ch => if existsb (fun c => negb (bool_decide (c ∈ VALID_ALERT_CHANNELS))) ch
                         then Err (BadRequest "invalid alert_channels (use in_site/email/webhook)") else Ok tt
            | None => Ok tt
            end in
  match downgrade with
  | Some (Some target) =>
      match resolve_route routes target with
      | Some _ => Ok tt
      | None => Err (BadRequest ("downgrade model '" +:+ target +:+ "' is not routed"))
      end
  | _ => Ok tt
  end.

Definition routed (p : string) : bool := existsb (fun r => model_matches_pattern r.(model_pattern) p) routes.
Definition family (p : string) : string := take_until (fun a => bool_decide (a = "-"%char)) p.
Fixpoint check_patterns (field : string) (patterns : list string) : result unit AppError :=
  match patterns with
  | [] => Ok tt
  | p :: ps =>
      if ends_with_char "*" p || routed p then check_patterns field ps
      else Err (BadRequest ("unrecognized model '" +:+ p +:+ "' in model_scope." +:+ field +:+ ": no routed model matches it " +:+
                            "(typo?); add a route first or use a wildcard pattern like '" +:+ family p +:+ "-*'"))
  end.
Definition validate_model_scope_routing (scope : option ModelScope) : result unit AppError :=
  match scope with
  | None => Ok tt
  | Some s =>
      if bool_decide (length routes = 0%nat) then Ok tt
      else let? _ := check_patterns "allow" s.(allow) in check_patterns "deny" s.(deny)
  end.

Definition or_null {A} (f : A -> Value) (o : option A) : Value := match o with Some a => f a | None => VNull end.
Definition plan_row_to_value (p : CodingPlan) : Value :=
  json_object [("id", of_int p.(cp_id)); ("name", VString p.(cp_name)); ("description", VString p.(cp_description));
    ("priority", of_int p.(cp_priority)); ("token_limit", of_int p.(cp_token_limit)); ("period_type", VString p.(cp_period_type));
    ("period_hours", of_int p.(cp_period_hours)); ("period_anchor_mode", VString p.(cp_period_anchor_mode));
    ("overage_action", VString p.(cp_overage_action)); ("downgrade_model", or_null VString p.(cp_downgrade_model));
    ("alert_channels", p.(cp_alert_channels)); ("webhook_url", VString p.(cp_webhook_url)); ("enabled", VBool p.(cp_enabled));
    ("active_start", or_null clock_value p.(cp_active_start)); ("active_end", or_null clock_value p.(cp_active_end));
    ("model_scope", or_null (fun v => v) p.(cp_model_scope)); ("created_at", time_value p.(cp_created_at));
    ("updated_at", time_value p.(cp_updated_at)); ("token_limit_display", VString (format_token_limit fixed3 p.(cp_token_limit)))].

Definition map_plan_conflict (r : Refusal) : AppError :=
  match r with NameTaken => BadRequest "同名 Coding Plan 已存在" | Violation => db_error end.
Definition plan_target : option string := Some "coding_plan".
Definition downgrade_needs_target : AppError := BadRequest "downgrade_action requires downgrade_model".
Definition plan_not_found : AppError := BadRequest "plan not found".

(** What [create_plan] stores, or why it refuses. *)
Definition checked_plan (r : PlanCreateReq) : result NewPlan AppError :=
  let name := trim r.(r_name) in
  if str_is_empty name then Err (BadRequest "name is required")
  else
    let? limit := parse_limit_value debug r.(r_token_limit) in
    let channels := default ["in_site"] r.(r_alert_channels) in
    let? _ := map_err BadRequest (validate_period_config r.(r_period_type) r.(r_period_hours) r.(r_period_anchor_mode)) in
    let? _ := validate_plan_fields (Some r.(r_overage_action)) (Some channels) (Some <$> r.(r_downgrade_model)) in
    if bool_decide (r.(r_overage_action) = OVERAGE_DOWNGRADE) && bool_decide (r.(r_downgrade_model) = None)
    then Err downgrade_needs_target
    else
      let? window := parse_active_window r.(r_active_window) in
      let? scope := map_err BadRequest (parse_model_scope json_text r.(r_model_scope)) in
      let? _ := validate_model_scope_routing scope in
      Ok {| n_name := name; n_description := trim r.(r_description); n_priority := r.(r_priority); n_token_limit := limit;
            n_period_type := r.(r_period_type); n_period_hours := normalize_period_hours r.(r_period_type) r.(r_period_hours);
            n_period_anchor_mode := r.(r_period_anchor_mode); n_overage_action := r.(r_overage_action);
            n_downgrade_model := r.(r_downgrade_model); n_alert_channels := VArray (VString <$> channels);
            n_webhook_url := trim r.(r_webhook_url); n_active_start := fst <$> default None window;
            n_active_end := snd <$> default None window; n_model_scope := scope; n_enabled := r.(r_enabled) |}.
Definition create_plan (actor : Z) (r : PlanCreateReq) : M CodingPlan :=
  let! n := lift (checked_plan r) in
  let! res := insert_plan now n in
  let! created := lift (map_err map_plan_conflict res) in
  let! _ := reload json_text in
  let! _ := log (Some actor) "plan.create" plan_target (Some created.(cp_id)) (Some (json_object [("after", plan_row_to_value created)])) in
  ret created.

(** What [update_plan] changes in the row it has read, or why it refuses. *)
Definition checked_patch (before : CodingPlan) (r : PlanUpdateReq) : result PlanPatch AppError :=
  let? limit := match r.(q_token_limit) with
                | Some v => let? t := parse_limit_value debug v in Ok (Some t)
                | None => Ok None
                end in
  let eff_type := default before.(cp_period_type) r.(q_period_type) in
  let eff_hours := default before.(cp_period_hours) r.(q_period_hours) in
  let eff_anchor := default before.(cp_period_anchor_mode) r.(q_period_anchor_mode) in
  let? _ := map_err BadRequest (validate_period_config eff_type eff_hours eff_anchor) in
  let eff_hours_bound :=
    if bool_decide (is_Some r.(q_period_hours)) || bool_decide (is_Some r.(q_period_type)) then Some (normalize_period_hours eff_type eff_hours) else None in
  let downgrade := (fun o => o ≫= non_blank) <$> r.(q_downgrade_model) in
  let? _ := validate_plan_fields r.(q_overage_action) r.(q_alert_channels) downgrade in
  let eff_action := default before.(cp_overage_action) r.(q_overage_action) in
  let eff_target := default before.(cp_downgrade_model) downgrade in
  if bool_decide (eff_action = OVERAGE_DOWNGRADE) && bool_decide (eff_target = None) then Err downgrade_needs_target
  else
    let? window := parse_active_window r.(q_active_window) in
    let? scope := match r.(q_model_scope) with
                  | None => Ok None
                  | Some None => Ok (Some None)
                  | Some (Some v) => let? s := map_err BadRequest (parse_model_scope json_text (Some v)) in Ok (Some s)
                  end in
    let? _ := validate_model_scope_routing (default None scope) in
    Ok {| p_name := r.(q_name) ≫= non_blank; p_description := trim <$> r.(q_description); p_priority := r.(q_priority);
          p_token_limit := limit; p_period_type := r.(q_period_type); p_period_hours := eff_hours_bound;
          p_period_anchor_mode := r.(q_period_anchor_mode); p_overage_action := r.(q_overage_action);
          p_downgrade_model := downgrade; p_alert_channels := (fun c => VArray (VString <$> c)) <$> r.(q_alert_channels);
          p_webhook_url := trim <$> r.(q_webhook_url); p_active_window := window; p_model_scope := scope; p_enabled := r.(q_enabled) |}.
Definition required_plan (id : Z) : M CodingPlan :=
  let! found := find_plan id in match found with Some p => ret p | None => throw plan_not_found end.
(** The part of [update_plan] after the row has been read. *)
Definition write_patch (actor id : Z) (before : CodingPlan) (r : PlanUpdateReq) : M CodingPlan :=
  let! p := lift (checked_patch before r) in
  let! res := update_plan_row now id p in
  let! res := match res with Some res => ret res | None => throw plan_not_found end in
  let! updated := lift (map_err map_plan_conflict res) in
  let! _ := reload json_text in
  let! _ := log (Some actor) "plan.update" plan_target (Some id)
              (Some (json_object [("before", plan_row_to_value before); ("after", plan_row_to_value updated)])) in
  ret updated.
Definition update_plan (actor id : Z) (r : PlanUpdateReq) : M CodingPlan :=
  let! before := required_plan id in write_patch actor id before r.

(** The notice is written if it can be. *)
Definition attempt (m : M unit) : M unit := fun w => (Ok tt, (m w).2).
Definition system_notice (message : string) : M unit :=
  attempt (on_plans (fun t => (tt, {| coding_plans := t.(coding_plans); user_groups := t.(user_groups); members := t.(members);
    plan_users := t.(plan_users); plan_groups := t.(plan_groups); plan_seq := t.(plan_seq); group_seq := t.(group_seq);
    notices := t.(notices) ++ [message] |}))).
Definition delete_plan (actor : Z) (actor_name : string) (id : Z) : M PlanDeleteImpact :=
  let! before := required_plan id in
  let! res := delete_plan_row id in
  let! impact := match res with Some i => ret i | None => throw plan_not_found end in
  let! _ := reload json_text in
  let! _ := system_notice ("Coding Plan「" +:+ before.(cp_name) +:+ "」已被管理员 " +:+ actor_name +:+ " 删除，" +:+
              pretty impact.(i_groups) +:+ " 个加入分组、" +:+ pretty impact.(i_direct_users) +:+
              " 个直连用户失去配额（成员回退其他分组 Plan 或暂不限额）") in
  let! _ := log (Some actor) "plan.delete" plan_target (Some id)
              (Some (json_object [("before", plan_row_to_value before); ("affected_groups", of_int impact.(i_groups));
                                  ("affected_direct_users", of_int impact.(i_direct_users))])) in
  ret impact.
End handlers.

(** ** Stored scopes *)

Lemma pattern_char_lower a : pattern_char a = true -> pattern_char (ascii_lower a) = true.
Proof. by destruct a as [[] [] [] [] [] [] [] []]; vm_compute. Qed.
Lemma pattern_chars_lower s : str_all pattern_char s = true -> str_all pattern_char (to_ascii_lowercase s) = true.
Proof.
  induction s as [|a s IH]; [done|]. cbn. rewrite !andb_true_iff. intros [Ha Hs]. split; [by apply pattern_char_lower|by apply IH].
Qed.
Lemma count_star_lower s : count_char "*" (to_ascii_lowercase s) = count_char "*" s.
Proof. induction s as [|a s IH]; [done|]. cbn. rewrite IH, (bool_decide_ext _ _ (ascii_lower_star a)). done. Qed.
Lemma ends_star_lower s : ends_with_char "*" (to_ascii_lowercase s) = ends_with_char "*" s.
Proof. unfold ends_with_char. rewrite strip_star_lower. by destruct (strip_suffix_char "*" s). Qed.

(** Lower-casing a valid pattern gives a valid pattern. *)
Lemma validate_lower s : validate_model_pattern s = Ok tt -> validate_model_pattern (to_ascii_lowercase s) = Ok tt.
Proof.
  unfold validate_model_pattern. rewrite lower_length, count_star_lower, ends_star_lower.
  destruct s as [|a s]; [done|]. cbn [str_is_empty]. destruct (_ <? _)%nat; [done|].
  destruct (str_all pattern_char (String a s)) eqn:E; [|done]. rewrite (pattern_chars_lower _ E). cbn [negb].
  assert (Hs : to_ascii_lowercase (String a s) = "*" <-> String a s = "*").
  { split; intros H; [|by rewrite H]. cbn in H. injection H as H1 H2. apply ascii_lower_star in H1 as ->. by destruct s. }
  rewrite (bool_decide_ext _ _ Hs). destruct (count_char "*" (String a s)) as [|[|n]]; [done| |done].
  destruct (ends_with_char "*" (String a s)); by destruct (bool_decide (String a s = "*")).
Qed.

Definition lowered (p : string) : Prop := exists src, validate_model_pattern src = Ok tt /\ p = to_ascii_lowercase src.
Lemma parse_items_strings show key l : Forall lowered l -> parse_items show key (VString <$> l) = Ok l.
Proof.
  induction 1 as [|p l (src & Hv & ->) _ IH]; [done|]. cbn. rewrite (validate_lower _ Hv). cbn. by rewrite IH, lower_idem.
Qed.

(** A scope that has been accepted is stored in a form that is read back as the same scope. *)
Lemma scope_value_parses show s : scope_wf s -> parse_model_scope show (Some (scope_value s)) = Ok (Some s).
Proof.
  intros (Hne & Hlen & Hdis & Hlow). destruct s as [al de]. cbn [allow deny] in *.
  assert (Fa : Forall lowered al) by (apply Forall_forall; intros p Hp; apply Hlow, elem_of_app; by left).
  assert (Fd : Forall lowered de) by (apply Forall_forall; intros p Hp; apply Hlow, elem_of_app; by right).
  assert (Hex : existsb (fun a => bool_decide (a ∈ de)) al = false).
  { apply not_true_iff_false. rewrite existsb_exists. intros (a & Ha%list_elem_of_In & Hd%bool_decide_eq_true). by destruct (Hdis a Ha). }
  assert (Hl : (MAX_MODEL_PATTERNS <? length al + length de)%nat = false) by (apply Nat.ltb_ge; lia).
  assert (Hend : bool_decide (al = []) && bool_decide (de = []) = false).
  { apply not_true_iff_false. rewrite andb_true_iff, !bool_decide_eq_true. intros [-> ->]. done. }
  assert (Hmap : exists m, scope_value {| allow := al; deny := de |} = VObject m /\
    List.find (fun key => negb (bool_decide (key = "allow")) && negb (bool_decide (key = "deny"))) (Map.keys m) = None /\
    parse_list show m "allow" = Ok al /\ parse_list show m "deny" = Ok de).
  { assert (E : forall a d, json_object [("allow", a); ("deny", d)] = VObject [("allow", a); ("deny", d)]) by reflexivity.
    unfold scope_value, scope_list, parse_list. cbn [allow deny].
    repeat case_bool_decide; subst; cbn [app]; rewrite ?E; eexists; (split; [reflexivity|]); cbn;
      repeat first [rewrite bool_decide_true by done | rewrite bool_decide_false by done]; cbn;
      by rewrite ?parse_items_strings by done. }
  destruct Hmap as (m & -> & Hk & Ha & Hd). cbn [parse_model_scope as_object]. by rewrite Hk, Ha, Hd, Hl, Hex, Hend.
Qed.

(** ** Sound plans *)

(** A plan as the handlers store it: the constraints hold, the scope can be read back, the window is a proper one. *)
Definition scope_stored (v : option Value) : Prop := match v with None => True | Some v => exists s, scope_wf s /\ v = scope_value s end.
Definition window_ok (start end_ : option Z) : Prop :=
  match start, end_ with Some s, Some e => s <> e | None, None => True | _, _ => False end.
Record plan_sound (p : CodingPlan) : Prop := {
  ps_row : plan_row_ok p = true;
  ps_scope : scope_stored p.(cp_model_scope);
  ps_window : window_ok p.(cp_active_start) p.(cp_active_end);
}.
(** A plan that downgrades has a model to downgrade to. *)
Definition has_target (p : CodingPlan) : Prop := p.(cp_overage_action) = OVERAGE_DOWNGRADE -> p.(cp_downgrade_model) <> None.

Lemma scope_stored_loads show v : scope_stored v -> exists s, parse_model_scope show v = Ok s.
Proof. destruct v as [v|]; [|by exists None]. intros (s & Hs & ->). exists (Some s). by apply scope_value_parses. Qed.

Section sound.
Context (debug : string -> string) (json_text : Value -> string) (parse_hm parse_hms : string -> option Z) (routes : list ModelRoute) (now : Z).

Lemma parse_active_window_ok w s e : parse_active_window parse_hm parse_hms w = Ok (Some (Some (s, e))) -> s <> e.
Proof.
  unfold parse_active_window. destruct w as [[a b]|]; [|done]. destruct (parse_bound _ _ a) as [a'|]; [|done].
  destruct (parse_bound _ _ b) as [b'|]; [|done]. destruct a' as [a'|], b' as [b'|]; cbn; try done.
  destruct (Z.eqb_spec a' b') as [->|Hne]; cbn; [done|]. by intros [= <- <-].
Qed.

(** What an accepted request asks for. *)
Lemma checked_plan_ok r n :
  checked_plan debug json_text parse_hm parse_hms routes r = Ok n ->
  (forall s, n.(n_model_scope) = Some s -> scope_wf s) /\ window_ok n.(n_active_start) n.(n_active_end) /\
  (n.(n_overage_action) = OVERAGE_DOWNGRADE -> n.(n_downgrade_model) <> None).
Proof.
  unfold checked_plan. cbv zeta. destruct (str_is_empty _); [done|]. destruct (parse_limit_value _ _) as [l|]; [|done].
  destruct (map_err BadRequest (validate_period_config _ _ _)); [|done]. destruct (validate_plan_fields _ _ _ _); [|done].
  destruct (_ && _) eqn:Ed; [done|]. destruct (parse_active_window _ _ _) as [win|] eqn:Ew; [|done].
  destruct (parse_model_scope json_text (r_model_scope r)) as [sc|] eqn:Es; [|done]. cbn [map_err].
  destruct (validate_model_scope_routing _ _); [|done]. intros [= <-]. cbn. split_and!.
  - intros s ->. by eapply parse_model_scope_wf.
  - destruct win as [[[s e]|]|]; [|done..]. cbn. by eapply parse_active_window_ok.
  - intros Ha Hn. rewrite Ha, Hn in Ed. by rewrite !bool_decide_true in Ed.
Qed.
Lemma checked_patch_ok before r p :
  checked_patch debug json_text parse_hm parse_hms routes before r = Ok p ->
  (forall s, p.(p_model_scope) = Some (Some s) -> scope_wf s) /\
  (forall s e, p.(p_active_window) = Some (Some (s, e)) -> s <> e) /\ has_target (patched now p before).
Proof.
  unfold checked_patch. cbv zeta. destruct (match q_token_limit r with Some v => _ | None => _ end) as [l|]; [|done].
  destruct (map_err BadRequest (validate_period_config _ _ _)); [|done]. destruct (validate_plan_fields _ _ _ _); [|done].
  destruct (_ && _) eqn:Ed; [done|]. destruct (parse_active_window _ _ _) as [win|] eqn:Ew; [|done].
  destruct (match q_model_scope r with None => _ | Some _ => _ end) as [sc|] eqn:Es; [|done].
  destruct (validate_model_scope_routing _ _); [|done]. intros [= <-]. cbn. split_and!.
  - intros s ->. destruct (q_model_scope r) as [[v|]|]; [|done..].
    destruct (parse_model_scope json_text (Some v)) as [s'|] eqn:Ep; [|done]. cbn in Es. injection Es as ->. by eapply parse_model_scope_wf.
  - intros s e ->. by eapply parse_active_window_ok.
  - intros Ha Hn. cbn in Ha, Hn. rewrite Ha, Hn in Ed. by rewrite !bool_decide_true in Ed.
Qed.

(** The rows that creating and patching write are sound when the constraints let them through. *)
Lemma new_plan_sound r n id :
  checked_plan debug json_text parse_hm parse_hms routes r = Ok n -> plan_row_ok (new_plan_row now n id) = true ->
  plan_sound (new_plan_row now n id) /\ has_target (new_plan_row now n id).
Proof.
  intros (H1 & H2 & H3)%checked_plan_ok Hok. split; [|done]. split; [done| |done]. cbn.
  destruct (n_model_scope n) as [s|]; cbn; [|done]. exists s. split; [by apply H1|done].
Qed.
Lemma patched_sound before r p row :
  checked_patch debug json_text parse_hm parse_hms routes before r = Ok p -> plan_sound row -> plan_row_ok (patched now p row) = true ->
  plan_sound (patched now p row).
Proof.
  intros (H1 & H2 & _)%checked_patch_ok [_ R2 R3] Hok. split; [done|..]; cbn.
  - destruct (p_model_scope p) as [[s|]|]; cbn; [|done..]. exists s. split; [by apply H1|done].
  - destruct (p_active_window p) as [[[s e]|]|]; cbn; [|done..]. by apply H2.
Qed.
End sound.
