(* ===== verification/ConfigStore.v ===== *)
(** * Statements on the configuration

The statements of [src/store/config.rs] and [src/store/access.rs] that change providers, routes, models, concurrency rules,
prices, access rules and settings, with the constraints of the tables: names of providers are unique, columns have a
width, and a route, a model and an access rule refer to a provider that exists. *)

From S2P Require Import Prelude Float Json Errors RateLimit Routing Calendar Plans Metering Body Streams Upstream ConfigTables Database PlanConfig.

Local Open Scope Z_scope.

(** A statement on the configuration; [None] is a constraint that refuses it. *)
Definition on_config {A} (f : ConfigTables -> A * ConfigTables) : M A :=
  stmt (fun s => let '(a, t) := f s.(config) in (a, set_config t s)).
Definition checked_config {A} (f : ConfigTables -> option (A * ConfigTables)) : M A :=
  let! r := on_config (fun t => match f t with Some (a, t') => (Some a, t') | None => (None, t) end) in
  match r with Some a => ret a | None => throw db_error end.
Definition read_config {A} (f : ConfigTables -> A) : M A := query (fun s => f s.(config)).

Section store.
Context (now : Z).

(** ** Providers *)

Definition find_provider (pid : Z) : M (option AdminProvider) := read_config (fun t => t.(providers) !! pid).
Definition list_providers : M (list AdminProvider) := read_config (fun t => sort_by_key (fun r => r.(pr_data).(id)) (rows t.(providers))).

Definition provider_row_ok (p : Provider) : bool := fits 64 p.(name) && fits 16 p.(api_type) && fits 16 p.(auth_scheme).
Definition provider_name_taken (t : ConfigTables) (p : Provider) : bool :=
  existsb (fun kr => negb (kr.1 =? p.(id)) && bool_decide (kr.2.(pr_data).(name) = p.(name))) (map_to_list t.(providers)).
Definition write_provider (r : AdminProvider) (t : ConfigTables) : option (AdminProvider * ConfigTables) :=
  if provider_row_ok r.(pr_data) && negb (provider_name_taken t r.(pr_data))
  then Some (r, set_providers (<[r.(pr_data).(id) := r]> t.(providers)) t) else None.

(** [p] has every column but the identifier. *)
Definition with_id (pid : Z) (p : Provider) : Provider :=
  {| id := pid; name := p.(name); api_type := p.(api_type); base_url := p.(base_url); api_key_encrypted := p.(api_key_encrypted);
     timeout_ms := p.(timeout_ms); provider_extra_body := p.(provider_extra_body); auth_scheme := p.(auth_scheme);
     extra_headers := p.(extra_headers); supports_images := p.(supports_images) |}.
Definition insert_provider (p : Provider) (enabled : bool) : M AdminProvider :=
  checked_config (fun t =>
    write_provider {| pr_data := with_id t.(provider_seq) p; pr_enabled := enabled; pr_created_at := now |} (advance 1 0 0 0 0 0 t)).

Record ProviderChange : Type := {
  pg_name : option string;
  pg_api_type : option string;
  pg_base_url : option string;
  pg_key : option string;
  pg_timeout_ms : option Z;
  pg_enabled : option bool;
  pg_extra_body : option Value;
  pg_auth_scheme : option string;
  pg_extra_headers : option Value;
  pg_supports_images : option bool;
}.
Definition changed_provider (c : ProviderChange) (r : AdminProvider) : AdminProvider :=
  let p := r.(pr_data) in
  {| pr_data :=
       {| id := p.(id); name := default p.(name) c.(pg_name); api_type := default p.(api_type) c.(pg_api_type);
          base_url := default p.(base_url) c.(pg_base_url); api_key_encrypted := default p.(api_key_encrypted) c.(pg_key);
          timeout_ms := default p.(timeout_ms) c.(pg_timeout_ms);
          provider_extra_body := default p.(provider_extra_body) c.(pg_extra_body);
          auth_scheme := default p.(auth_scheme) c.(pg_auth_scheme);
          extra_headers := default p.(extra_headers) c.(pg_extra_headers);
          supports_images := default p.(supports_images) c.(pg_supports_images) |};
     pr_enabled := default r.(pr_enabled) c.(pg_enabled); pr_created_at := r.(pr_created_at) |}.
Definition update_provider_row (pid : Z) (c : ProviderChange) : M (option AdminProvider) :=
  checked_config (fun t =>
    match t.(providers) !! pid with
    | None => Some (None, t)
    | Some r => '(r, t) ← write_provider (changed_provider c r) t; Some (Some r, t)
    end).

(** [array_remove] on the fallbacks of the routes. *)
Definition without_fallback (pid : Z) (r : AdminRoute) : AdminRoute :=
  let d := r.(ro_data) in
  {| ro_id := r.(ro_id);
     ro_data := {| model_pattern := d.(model_pattern); provider_id := d.(provider_id);
                   fallback_ids := List.filter (fun i => negb (i =? pid)) d.(fallback_ids);
                   upstream_model := d.(upstream_model); route_extra_body := d.(route_extra_body);
                   strict_system_head := d.(strict_system_head); system_head_merge := d.(system_head_merge);
                   reasoning_effort_mode := d.(reasoning_effort_mode); thinking_form := d.(thinking_form);
                   responses_passthrough_fields := d.(responses_passthrough_fields) |};
     ro_priority := r.(ro_priority); ro_enabled := r.(ro_enabled) |}.
(** Deleting a provider deletes its models and the access rules for it; a route that refers to it refuses. *)
Definition drop_provider (pid : Z) (t : ConfigTables) : option (bool * ConfigTables) :=
  if existsb (fun r => r.(ro_data).(provider_id) =? pid) (rows t.(model_routes)) then None
  else
    Some (bool_decide (is_Some (t.(providers) !! pid)),
      set_access (filter (fun kr => bool_decide (kr.2.(access_provider_id) = Some pid) = false) t.(access_rules))
        (set_models (filter (fun km => (km.2.(mo_provider) =? pid) = false) t.(models)) (set_providers (delete pid t.(providers)) t))).

Definition delete_provider_row (pid : Z) : M bool :=
  transaction (
    let! _ := on_config (fun t => (tt, set_routes (without_fallback pid <$> t.(model_routes)) t)) in
    let! _ := on_config (fun t => (tt, set_routes (filter (fun kr => (kr.2.(ro_data).(provider_id) =? pid) = false) t.(model_routes)) t)) in
    checked_config (drop_provider pid)).

(** ** Routes *)

Definition route_row_ok (t : ConfigTables) (d : ModelRoute) : bool :=
  fits 128 d.(model_pattern) && match d.(upstream_model) with Some m => fits 128 m | None => true end &&
  bool_decide (is_Some (t.(providers) !! d.(provider_id))).
Definition write_route (r : AdminRoute) (t : ConfigTables) : option (AdminRoute * ConfigTables) :=
  if route_row_ok t r.(ro_data) then Some (r, set_routes (<[r.(ro_id) := r]> t.(model_routes)) t) else None.
Definition insert_route (d : ModelRoute) (priority : Z) (enabled : bool) : M AdminRoute :=
  checked_config (fun t =>
    write_route {| ro_id := t.(route_seq); ro_data := d; ro_priority := priority; ro_enabled := enabled |} (advance 0 1 0 0 0 0 t)).

Record RouteChange : Type := {
  rg_pattern : option string;
  rg_provider : option Z;
  rg_priority : option Z;
  rg_fallbacks : option (list Z);
  rg_upstream : option (option string);
  rg_enabled : option bool;
  rg_extra_body : option Value;
  rg_strict : option bool;
  rg_merge : option bool;
  rg_effort : option (option string);
  rg_thinking : option (option string);
  rg_passthrough : option (option string);
}.
Definition changed_route (c : RouteChange) (r : AdminRoute) : AdminRoute :=
  let d := r.(ro_data) in
  {| ro_id := r.(ro_id);
     ro_data :=
       {| model_pattern := default d.(model_pattern) c.(rg_pattern); provider_id := default d.(provider_id) c.(rg_provider);
          fallback_ids := default d.(fallback_ids) c.(rg_fallbacks); upstream_model := default d.(upstream_model) c.(rg_upstream);
          route_extra_body := default d.(route_extra_body) c.(rg_extra_body);
          strict_system_head := default d.(strict_system_head) c.(rg_strict);
          system_head_merge := default d.(system_head_merge) c.(rg_merge);
          reasoning_effort_mode := default d.(reasoning_effort_mode) c.(rg_effort);
          thinking_form := default d.(thinking_form) c.(rg_thinking);
          responses_passthrough_fields := default d.(responses_passthrough_fields) c.(rg_passthrough) |};
     ro_priority := default r.(ro_priority) c.(rg_priority); ro_enabled := default r.(ro_enabled) c.(rg_enabled) |}.
Definition update_route_row (rid : Z) (c : RouteChange) : M (option AdminRoute) :=
  checked_config (fun t =>
    match t.(model_routes) !! rid with
    | None => Some (None, t)
    | Some r => '(r, t) ← write_route (changed_route c r) t; Some (Some r, t)
    end).
Definition delete_route_row (rid : Z) : M bool :=
  on_config (fun t => (bool_decide (is_Some (t.(model_routes) !! rid)), set_routes (delete rid t.(model_routes)) t)).

(** ** Concurrency rules *)

Definition list_rate_rules : M (list AdminRateRule) := read_config (fun t => sort_by_key rl_id (rows t.(rate_rules))).
Definition rule_row_ok (r : RateRule) : bool := fits 16 r.(scope) && match r.(rule_model) with Some m => fits 128 m | None => true end.
Definition insert_rule (r : RateRule) (enabled : bool) : M AdminRateRule :=
  checked_config (fun t =>
    let row := {| rl_id := t.(rule_seq); rl_data := r; rl_enabled := enabled; rl_updated_at := now |} in
    if rule_row_ok r then Some (row, set_rules (<[row.(rl_id) := row]> t.(rate_rules)) (advance 0 0 0 1 0 0 t)) else None).
Definition changed_rule (sc : option string) (sid : option (option Z)) (model : option (option string)) (limit : option Z)
    (enabled : option bool) (r : AdminRateRule) : AdminRateRule :=
  let d := r.(rl_data) in
  {| rl_id := r.(rl_id);
     rl_data := {| scope := default d.(scope) sc; scope_id := default d.(scope_id) sid; rule_model := default d.(rule_model) model;
                   concurrency := default d.(concurrency) limit |};
     rl_enabled := default r.(rl_enabled) enabled; rl_updated_at := now |}.
Definition update_rule_row (rid : Z) (sc : option string) (sid : option (option Z)) (model : option (option string)) (limit : option Z)
    (enabled : option bool) : M (option AdminRateRule) :=
  checked_config (fun t =>
    match t.(rate_rules) !! rid with
    | None => Some (None, t)
    | Some r =>
        let r := changed_rule sc sid model limit enabled r in
        if rule_row_ok r.(rl_data) then Some (Some r, set_rules (<[rid := r]> t.(rate_rules)) t) else None
    end).
Definition delete_rule_row (rid : Z) : M bool :=
  on_config (fun t => (bool_decide (is_Some (t.(rate_rules) !! rid)), set_rules (delete rid t.(rate_rules)) t)).

(** ** Prices *)

(** What a [NUMERIC(10,6)] column keeps of a float; [None] when it is out of range. *)
Context (numeric : F64.t -> option F64.t).
Definition numeric_opt (x : option F64.t) : option (option F64.t) :=
  match x with Some f => f ← numeric f; Some (Some f) | None => Some None end.
Definition insert_price (model : string) (inp out : option F64.t) (currency : string) (from : Z) : M AdminPrice :=
  let! pid := checked_config (fun t =>
    i ← numeric_opt inp; o ← numeric_opt out;
    if fits 128 model && fits 8 currency then
      let row := {| pc_id := t.(price_seq); pc_model := model;
                    pc_data := {| input_price_per_m := i; output_price_per_m := o; cache_read_price_per_m := None; cache_write_price_per_m := None |};
                    pc_currency := currency; pc_effective_from := from |} in
      Some (row.(pc_id), set_prices (<[row.(pc_id) := row]> t.(prices)) (advance 0 0 0 0 1 0 t))
    else None) in
  let! row := read_config (fun t => t.(prices) !! pid) in
  match row with Some r => ret r | None => throw db_error end.
Definition delete_price_row (pid : Z) : M bool :=
  on_config (fun t => (bool_decide (is_Some (t.(prices) !! pid)), set_prices (delete pid t.(prices)) t)).

(** ** Models *)

Definition get_model (mid : Z) : M (option AdminModel) := read_config (fun t => t.(models) !! mid).
(** An [UPDATE] of one row, which is then read. *)
Definition update_model_row (f : AdminModel -> AdminModel) (mid : Z) : M (option AdminModel) :=
  let! known := on_config (fun t => (bool_decide (is_Some (t.(models) !! mid)), set_models (alter f mid t.(models)) t)) in
  if known then get_model mid else ret None.
Definition model_row (f : bool) (c : option Z) (k : option string) (o : option Z) (r : AdminModel) : AdminModel :=
  {| mo_id := r.(mo_id); mo_provider := r.(mo_provider); mo_model := r.(mo_model); mo_enabled := f; mo_context_length := c;
     mo_capability := k; mo_max_output_tokens := o; mo_created_at := r.(mo_created_at) |}.
Definition set_model_enabled (mid : Z) (b : bool) : M (option AdminModel) :=
  update_model_row (fun r => model_row b r.(mo_context_length) r.(mo_capability) r.(mo_max_output_tokens) r) mid.
Definition set_model_context_length (mid : Z) (x : option Z) : M (option AdminModel) :=
  update_model_row (fun r => model_row r.(mo_enabled) x r.(mo_capability) r.(mo_max_output_tokens) r) mid.
Definition set_model_capability (mid : Z) (x : option string) : M (option AdminModel) :=
  update_model_row (fun r => model_row r.(mo_enabled) r.(mo_context_length) x r.(mo_max_output_tokens) r) mid.
Definition set_model_max_output_tokens (mid : Z) (x : option Z) : M (option AdminModel) :=
  update_model_row (fun r => model_row r.(mo_enabled) r.(mo_context_length) r.(mo_capability) x r) mid.
Definition delete_model_row (mid : Z) : M bool :=
  on_config (fun t => (bool_decide (is_Some (t.(models) !! mid)), set_models (delete mid t.(models)) t)).

Definition pattern_hits (pattern model : string) : bool :=
  match strip_suffix_char "*" pattern with Some prefix => starts_with prefix model | None => bool_decide (pattern = model) end.

Definition has_model (t : ConfigTables) (pid : Z) (m : string) : bool :=
  existsb (fun r => (r.(mo_provider) =? pid) && bool_decide (r.(mo_model) = m)) (rows t.(models)).
(** [INSERT INTO models .. ON CONFLICT DO NOTHING] *)
Definition insert_model (pid : Z) (m : string) (t : ConfigTables) : option (unit * ConfigTables) :=
  if has_model t pid m then Some (tt, t)
  else if bool_decide (is_Some (t.(providers) !! pid)) then
    Some (tt, set_models (<[t.(model_seq) := {| mo_id := t.(model_seq); mo_provider := pid; mo_model := m; mo_enabled := true;
                                                mo_context_length := None; mo_capability := None; mo_max_output_tokens := None;
                                                mo_created_at := now |}]> t.(models)) (advance 0 0 1 0 0 0 t))
  else None.
(** The route of a provider for exactly this model, which is turned on if it is off. *)
Definition is_off_route (pid : Z) (m : string) (r : AdminRoute) : bool :=
  bool_decide (r.(ro_data).(model_pattern) = m) && (r.(ro_data).(provider_id) =? pid) && negb r.(ro_enabled).
Definition turn_on (pid : Z) (m : string) (r : AdminRoute) : AdminRoute :=
  if is_off_route pid m r
  then {| ro_id := r.(ro_id); ro_data := r.(ro_data); ro_priority := r.(ro_priority); ro_enabled := true |} else r.
Definition plain_route (pid : Z) (m : string) : ModelRoute :=
  {| model_pattern := m; provider_id := pid; fallback_ids := []; upstream_model := None; route_extra_body := VObject [];
     strict_system_head := false; system_head_merge := true; reasoning_effort_mode := None; thinking_form := None;
     responses_passthrough_fields := None |}.
Definition sync_model (pid : Z) (patterns : list string) (m : string) : M unit :=
  let! _ := checked_config (insert_model pid m) in
  if existsb (fun p => pattern_hits p m) patterns then ret tt
  else
    let! found := on_config (fun t => (existsb (is_off_route pid m) (rows t.(model_routes)), set_routes (turn_on pid m <$> t.(model_routes)) t)) in
    if found : bool then ret tt else let! _ := insert_route (plain_route pid m) 100 true in ret tt.
Fixpoint sync_models (pid : Z) (patterns : list string) (ms : list string) : M unit :=
  match ms with
  | [] => ret tt
  | m :: ms => let! _ := sync_model pid patterns m in sync_models pid patterns ms
  end.
Definition enabled_patterns (t : ConfigTables) : list string := (fun r => r.(ro_data).(model_pattern)) <$> List.filter ro_enabled (rows t.(model_routes)).

Definition replace_provider_models (pid : Z) (ms : list string) : M Z :=
  transaction (
    let! _ := on_config (fun t => (tt, set_models (filter (fun km => ((km.2.(mo_provider) =? pid) && negb (bool_decide (km.2.(mo_model) ∈ ms))) = false)
                                                    t.(models)) t)) in
    let! patterns := read_config enabled_patterns in
    let! _ := sync_models pid patterns ms in
    ret (Z.of_nat (length ms))).

(** ** Settings *)

Definition on_settings (f : Settings -> Settings) : M unit := on_config (fun t => (tt, set_settings (f t.(settings)) t)).
Definition save_extra_body_enabled (b : bool) : M unit :=
  on_settings (fun s => {| st_extra_body := b; st_messages := s.(st_messages); st_upstream_headers := s.(st_upstream_headers);
                           st_response_headers := s.(st_response_headers); st_endpoints := s.(st_endpoints) |}).
Definition save_message_templates (m : MessageTemplates) : M unit :=
  on_settings (fun s => {| st_extra_body := s.(st_extra_body); st_messages := m; st_upstream_headers := s.(st_upstream_headers);
                           st_response_headers := s.(st_response_headers); st_endpoints := s.(st_endpoints) |}).
Definition save_header_settings (u r : Value) : M unit :=
  on_settings (fun s => {| st_extra_body := s.(st_extra_body); st_messages := s.(st_messages); st_upstream_headers := u;
                           st_response_headers := r; st_endpoints := s.(st_endpoints) |}).
Definition save_api_endpoint_settings (e : ApiEndpointSettings) : M unit :=
  on_settings (fun s => {| st_extra_body := s.(st_extra_body); st_messages := s.(st_messages); st_upstream_headers := s.(st_upstream_headers);
                           st_response_headers := s.(st_response_headers); st_endpoints := e |}).

(** ** Access rules *)

(** [UNIQUE (user_id, provider_id, model_pattern)], in which a missing value equals nothing. *)
Definition same_access (a b : UserAccessRule) : bool :=
  (a.(access_user_id) =? b.(access_user_id)) &&
  match a.(access_provider_id), b.(access_provider_id), a.(access_model_pattern), b.(access_model_pattern) with
  | Some p, Some q, Some m, Some n => (p =? q) && bool_decide (m = n)
  | _, _, _, _ => false
  end.
End store.
Definition insert_access (r : UserAccessRule) (s : Db) : option (unit * ConfigTables) :=
  let t := s.(config) in
  if existsb (same_access r) (rows t.(access_rules)) then Some (tt, t)
  else if bool_decide (is_Some (s.(users) !! r.(access_user_id))) &&
          match r.(access_provider_id) with Some p => bool_decide (is_Some (t.(providers) !! p)) | None => true end &&
          match r.(access_model_pattern) with Some m => fits 128 m | None => true end
  then Some (tt, set_access (<[t.(access_seq) := r]> t.(access_rules)) (advance 0 0 0 0 0 1 t)) else None.
Fixpoint insert_all_access (user : Z) (rules : list (option Z * option string)) : M unit :=
  match rules with
  | [] => ret tt
  | (p, m) :: rules =>
      let! r := stmt (fun s => match insert_access {| access_user_id := user; access_provider_id := p; access_model_pattern := m |} s with
                               | Some (_, t) => (true, set_config t s)
                               | None => (false, s)
                               end) in
      if r : bool then insert_all_access user rules else throw db_error
  end.
Definition replace_user_access (user : Z) (rules : list (option Z * option string)) : M unit :=
  transaction (
    let! _ := on_config (fun t => (tt, set_access (filter (fun kr => (kr.2.(access_user_id) =? user) = false) t.(access_rules)) t)) in
    insert_all_access user rules).
