(* ===== verification/Accounts.v ===== *)
(** * Accounts: the tables and the operations on them

The users, refresh tokens and API keys of [src/store/users.rs], [src/store/tokens.rs], [src/store/keys.rs]
and [src/store/mod.rs], the sessions of [src/service/session.rs] and [src/service/console.rs], the
authentication of [src/service/auth.rs] and the handlers of [src/api/console.rs] that use them; their properties are in [Sessions].

Every statement of the database may fail; the failures are an input of the run, and so are the clock, the
random numbers, the directory and the cryptographic functions. Times are nanoseconds since the epoch. *)

From S2P Require Import Prelude Json Errors Calendar Metering Body Streams Upstream ConfigTables Database.

Local Open Scope Z_scope.

(** ** Statements on users *)

Definition find_row (p : UserRow -> bool) (s : Db) : option UserRow := List.find p ((map_to_list s.(users)).*2).
Definition find_by_username (name : string) : M (option UserRow) :=
  query (find_row (fun u => bool_decide (u.(username) = name))).
Definition find_by_id (id : Z) : M (option UserRow) := query (fun s => s.(users) !! id).
(** The row lock is that of the transaction. *)
Definition find_by_id_for_update (id : Z) : M (option UserRow) := query (fun s => s.(users) !! id).

Definition insert_user (u : UserRow) (s : Db) : Db :=
  {| users := <[u.(u_id) := u]> s.(users); refresh_tokens := s.(refresh_tokens); api_keys := s.(api_keys);
     audit_logs := s.(audit_logs); planning := s.(planning); config := s.(config); user_seq := s.(user_seq) + 1; token_seq := s.(token_seq); key_seq := s.(key_seq) |}.
Definition update_user_row (f : UserRow -> UserRow) (id : Z) (s : Db) : Db := set_users (alter f id s.(users)) s.

Definition with_status (st : Z) (u : UserRow) : UserRow :=
  {| u_id := u.(u_id); username := u.(username); email := u.(email); display_name := u.(display_name); ldap_dn := u.(ldap_dn);
     source := u.(source); password_hash := u.(password_hash); is_admin := u.(is_admin); u_status := st;
     token_version := u.(token_version); last_login_at := u.(last_login_at); u_created_at := u.(u_created_at) |}.
Definition with_admin (b : bool) (u : UserRow) : UserRow :=
  {| u_id := u.(u_id); username := u.(username); email := u.(email); display_name := u.(display_name); ldap_dn := u.(ldap_dn);
     source := u.(source); password_hash := u.(password_hash); is_admin := b; u_status := u.(u_status);
     token_version := u.(token_version); last_login_at := u.(last_login_at); u_created_at := u.(u_created_at) |}.
Definition with_password (h : string) (u : UserRow) : UserRow :=
  {| u_id := u.(u_id); username := u.(username); email := u.(email); display_name := u.(display_name); ldap_dn := u.(ldap_dn);
     source := u.(source); password_hash := Some h; is_admin := u.(is_admin); u_status := u.(u_status);
     token_version := u.(token_version); last_login_at := u.(last_login_at); u_created_at := u.(u_created_at) |}.
Definition bump_version (u : UserRow) : UserRow :=
  {| u_id := u.(u_id); username := u.(username); email := u.(email); display_name := u.(display_name); ldap_dn := u.(ldap_dn);
     source := u.(source); password_hash := u.(password_hash); is_admin := u.(is_admin); u_status := u.(u_status);
     token_version := u.(token_version) + 1; last_login_at := u.(last_login_at); u_created_at := u.(u_created_at) |}.
Definition seen_at (t : Z) (u : UserRow) : UserRow :=
  {| u_id := u.(u_id); username := u.(username); email := u.(email); display_name := u.(display_name); ldap_dn := u.(ldap_dn);
     source := u.(source); password_hash := u.(password_hash); is_admin := u.(is_admin); u_status := u.(u_status);
     token_version := u.(token_version); last_login_at := Some t; u_created_at := u.(u_created_at) |}.
(** [ON CONFLICT (username) DO UPDATE]: the password stays. *)
Definition from_directory (mail shown : option string) (dn : string) (admin : bool) (u : UserRow) : UserRow :=
  {| u_id := u.(u_id); username := u.(username); email := or_else mail u.(email); display_name := or_else shown u.(display_name);
     ldap_dn := Some dn; source := "ldap"; password_hash := u.(password_hash); is_admin := admin; u_status := u.(u_status);
     token_version := u.(token_version); last_login_at := u.(last_login_at); u_created_at := u.(u_created_at) |}.

Section accounts.
Context (now : Z).

(** [None] when the name is taken. *)
Definition create_local_user (name shown hash : string) (admin : bool) : M (option UserRow) :=
  stmt (fun s =>
    match find_row (fun u => bool_decide (u.(username) = name)) s with
    | Some _ => (None, s)
    | None =>
        let u := {| u_id := s.(user_seq); username := name; email := None; display_name := Some shown; ldap_dn := None;
                    source := "local"; password_hash := Some hash; is_admin := admin; u_status := 1; token_version := 0;
                    last_login_at := None; u_created_at := now |} in
        (Some u, insert_user u s)
    end).

Definition upsert_ldap_user (name : string) (mail shown : option string) (dn : string) (admin : bool) : M UserRow :=
  stmt (fun s =>
    match find_row (fun u => bool_decide (u.(username) = name)) s with
    | Some u => let u' := from_directory mail shown dn admin u in (u', set_users (<[u.(u_id) := u']> s.(users)) s)
    | None =>
        let u := {| u_id := s.(user_seq); username := name; email := mail; display_name := shown; ldap_dn := Some dn;
                    source := "ldap"; password_hash := None; is_admin := admin; u_status := 1; token_version := 0;
                    last_login_at := None; u_created_at := now |} in
        (u, insert_user u s)
    end).

Definition touch_last_login (id : Z) : M unit := execute (update_user_row (seen_at now) id).
Definition set_status (id st : Z) : M unit := execute (update_user_row (with_status st) id).
Definition set_password_hash (id : Z) (h : string) : M unit := execute (update_user_row (with_password h) id).
Definition set_is_admin (id : Z) (b : bool) : M unit := execute (update_user_row (with_admin b) id).

(** ** Statements on refresh tokens *)

Definition insert_token_row (t : TokenRow) (s : Db) : Db :=
  {| users := s.(users); refresh_tokens := <[s.(token_seq) := t]> s.(refresh_tokens); api_keys := s.(api_keys);
     audit_logs := s.(audit_logs); planning := s.(planning); config := s.(config); user_seq := s.(user_seq); token_seq := s.(token_seq) + 1; key_seq := s.(key_seq) |}.
(** [tokens::insert] and [tokens::insert_tx] *)
Definition insert_token (user : Z) (hash : string) (expires : Z) : M Z :=
  stmt (fun s => (s.(token_seq), insert_token_row {| t_user := user; t_hash := hash; t_expires := expires; t_revoked := None |} s)).

Definition is_active (hash : string) (t : TokenRow) : bool :=
  bool_decide (t.(t_hash) = hash) && bool_decide (t.(t_revoked) = None) && (now <? t.(t_expires)).
Definition revoked (t : TokenRow) : TokenRow :=
  {| t_user := t.(t_user); t_hash := t.(t_hash); t_expires := t.(t_expires); t_revoked := Some now |}.
Definition active_rows (hash : string) (s : Db) : list (Z * TokenRow) :=
  List.filter (fun kt => is_active hash kt.2) (map_to_list s.(refresh_tokens)).

(** [UPDATE .. RETURNING]: all active rows with the hash are revoked, the first is returned. *)
Definition revoke_if_active (hash : string) : M (option (Z * Z)) :=
  stmt (fun s =>
    ((fun kt => (kt.1, kt.2.(t_user))) <$> head (active_rows hash s),
     set_tokens ((fun t => if is_active hash t then revoked t else t) <$> s.(refresh_tokens)) s)).
Definition find_active (hash : string) : M (option (Z * Z)) :=
  query (fun s => (fun kt => (kt.1, kt.2.(t_user))) <$> head (active_rows hash s)).
Definition revoke_token (id : Z) : M unit := execute (fun s => set_tokens (alter revoked id s.(refresh_tokens)) s).

Definition revoke_user_tokens (user : Z) (s : Db) : Db :=
  set_tokens ((fun t => if (t.(t_user) =? user) && bool_decide (t.(t_revoked) = None) then revoked t else t) <$> s.(refresh_tokens)) s.

Definition revoke_all_for_user (user : Z) : M unit := execute (revoke_user_tokens user).

(** [store::force_logout]; the version is a 32-bit integer, whose overflow is an error of the database. *)
Definition bump_token_version (id : Z) : M unit :=
  let! ok := stmt (fun s => match s.(users) !! id with
                            | Some u => if u.(token_version) =? i32_max then (false, s) else (true, update_user_row bump_version id s)
                            | None => (true, s)
                            end) in
  if ok then ret tt else throw db_error.
Definition force_logout (id : Z) : M unit :=
  transaction (let! _ := bump_token_version id in revoke_all_for_user id).

(** ** Statements on keys *)

Record ApiKeyRow : Type := { ak_id : Z; ak_user_id : Z; ak_key_hash : string; ak_expires_at : option Z; ak_user_status : Z }.

Definition joined_key (s : Db) (kk : Z * KeyRow) : option ApiKeyRow :=
  u ← s.(users) !! kk.2.(k_user);
  Some {| ak_id := kk.1; ak_user_id := kk.2.(k_user); ak_key_hash := kk.2.(k_hash); ak_expires_at := kk.2.(k_expires);
          ak_user_status := u.(u_status) |}.
Definition find_all_by_prefix (prefix : string) : M (list ApiKeyRow) :=
  query (fun s => omap (joined_key s)
    (List.filter (fun kk => bool_decide (kk.2.(k_prefix) = prefix) && (kk.2.(k_status) =? 1)) (map_to_list s.(api_keys)))).

Definition active_keys (user : Z) (s : Db) : Z :=
  Z.of_nat (length (List.filter (fun kk => (kk.2.(k_user) =? user) && (kk.2.(k_status) =? 1)) (map_to_list s.(api_keys)))).
Definition create_key_row (user : Z) (name prefix hash encrypted : string) (expires : option Z) : M Z :=
  stmt (fun s =>
    (s.(key_seq),
     {| users := s.(users); refresh_tokens := s.(refresh_tokens);
        api_keys := <[s.(key_seq) := {| k_user := user; k_name := name; k_prefix := prefix; k_hash := hash;
                                        k_encrypted := Some encrypted; k_expires := expires; k_status := 1 |}]> s.(api_keys);
        audit_logs := s.(audit_logs); planning := s.(planning); config := s.(config); user_seq := s.(user_seq); token_seq := s.(token_seq); key_seq := s.(key_seq) + 1 |})).
Definition owned_key (user id : Z) (s : Db) : option KeyRow :=
  k ← s.(api_keys) !! id; if k.(k_user) =? user then Some k else None.
Definition find_encrypted (user id : Z) : M (option (option string)) :=
  query (fun s => k ← owned_key user id s; if k.(k_status) =? 1 then Some k.(k_encrypted) else None).
Definition disabled_key (k : KeyRow) : KeyRow :=
  {| k_user := k.(k_user); k_name := k.(k_name); k_prefix := k.(k_prefix); k_hash := k.(k_hash); k_encrypted := k.(k_encrypted);
     k_expires := k.(k_expires); k_status := 0 |}.
(** Whether a row was changed. *)
Definition revoke_key_row (user id : Z) : M bool :=
  stmt (fun s => match owned_key user id s with
                 | Some _ => (true, set_keys (alter disabled_key id s.(api_keys)) s)
                 | None => (false, s)
                 end).

(** ** Sessions *)

Record Claims : Type := { sub : string; c_username : string; c_admin : bool; tv : Z; jti : string; iat : Z; exp : Z }.
Record Session : Type := { access_token : string; refresh_token : string; session_user : UserRow }.
Record Identity : Type := { dn : string; id_email : option string; id_display : option string; id_admin : bool }.
Inductive LdapError : Type := UserNotFound | NotConfigured | BadCredentials | Transport (e : string).

(** The configuration: the protected administrator and the lives of the tokens in seconds. *)
Record AuthConfig : Type := {
  auth_required : bool;
  seed_admin_username : option string;
  access_token_ttl : Z;
  refresh_token_ttl : Z;
  ldap_configured : bool;
}.

(** SHA-256 in hexadecimal, argon2, the signed tokens and the encryption of keys. *)
Context (sha256_hex : string -> string) (hash_password : string -> string) (verify_password : string -> string -> bool).
Context (encode_claims : Claims -> option string) (decode_claims : Z -> string -> option Claims).
Context (encrypt_key : string -> option string) (decrypt_key : string -> option string).
(** [str::parse::<i64>] *)
Context (parse_i64 : string -> option Z) (to_str : string -> option string).
Context (ldap : string -> string -> result Identity LdapError).
Context (cfg : AuthConfig).
(** [Display] of a JSON value. *)
Context (json_text : Value -> string).

Definition seconds (n : Z) : Z := n * NANOS.
Definition claims_of (u : UserRow) (unique : string) : Claims :=
  {| sub := pretty u.(u_id); c_username := u.(username); c_admin := u.(is_admin); tv := u.(token_version); jti := unique;
     iat := timestamp now; exp := timestamp now + cfg.(access_token_ttl) |}.
Definition issue_access (u : UserRow) : M string :=
  let! unique := random_hex in
  match encode_claims (claims_of u unique) with Some t => ret t | None => throw (Internal "token encoding failed") end.
Definition verify_access (token : string) : result Claims AppError :=
  match decode_claims now token with Some c => Ok c | None => Err (Unauthorized "invalid or expired access token") end.
(** The token and its hash. *)
Definition new_refresh_token : M (string * string) := let! t := random_hex in ret (t, sha256_hex t).

Definition is_protected_admin (name : string) : bool := bool_decide (cfg.(seed_admin_username) = Some name).
Definition invalid_login : AppError := Unauthorized "invalid username or password".

Definition issue_session (u : UserRow) : M Session :=
  if negb (u.(u_status) =? 1) then throw (Forbidden "account disabled")
  else
    let! _ := touch_last_login u.(u_id) in
    let! access := issue_access u in
    let! (token, hash) := new_refresh_token in
    let! _ := insert_token u.(u_id) hash (now + seconds cfg.(refresh_token_ttl)) in
    ret {| access_token := access; refresh_token := token; session_user := u |}.

(** The local account: the password is checked against the row that was read. *)
Definition login_local (name password : string) : M UserRow :=
  let! found := find_by_username name in
  match found with
  | None => throw invalid_login
  | Some u =>
      match u.(password_hash) with
      | None => throw invalid_login
      | Some h => if verify_password password h then ret u else throw invalid_login
      end
  end.
(** The part of [login] before the session is issued: the user that has been recognised. *)
Definition login_user (name password : string) : M UserRow :=
  if str_is_empty (trim name) || str_is_empty password then throw (BadRequest "username and password are required")
  else if cfg.(ldap_configured) && negb (is_protected_admin name) then
    match ldap name password with
    | Ok who => upsert_ldap_user name who.(id_email) who.(id_display) who.(dn) who.(id_admin)
    | Err BadCredentials => throw invalid_login
    | Err _ => login_local name password
    end
  else login_local name password.
Definition login (name password : string) : M Session := let! u := login_user name password in issue_session u.

(** The rest of the transaction of [refresh], with the row of the token that was revoked. *)
Definition reissue (row : option (Z * Z)) : M Session :=
  match row with
  | None => throw (Unauthorized "invalid or expired refresh token")
  | Some (_, user) =>
      let! found := find_by_id_for_update user in
      match found with
      | None => throw (Unauthorized "user not found")
      | Some u =>
          if negb (u.(u_status) =? 1) then throw (Forbidden "account disabled")
          else
            let! access := issue_access u in
            let! (token, hash) := new_refresh_token in
            let! _ := insert_token u.(u_id) hash (now + seconds cfg.(refresh_token_ttl)) in
            ret {| access_token := access; refresh_token := token; session_user := u |}
      end
  end.
Definition refresh (token : string) : M Session :=
  let! session := transaction (let! row := revoke_if_active (sha256_hex token) in reissue row) in
  let! _ := touch_last_login session.(session_user).(u_id) in
  ret session.

Definition logout (token : string) : M unit :=
  let! row := find_active (sha256_hex token) in
  match row with Some (id, _) => revoke_token id | None => ret tt end.

(** ** Who sends a request *)

Definition bearer (h : list (string * string)) : option string := (header_of "authorization" h ≫= to_str) ≫= strip_prefix "Bearer ".

(** [ConsoleUser::from_request_parts] *)
Definition console_user (h : list (string * string)) : M UserRow :=
  match bearer h with
  | None => throw (Unauthorized "missing bearer token")
  | Some token =>
      match verify_access token with
      | Err e => throw e
      | Ok claims =>
          match parse_i64 claims.(sub) with
          | None => throw (Unauthorized "invalid token subject")
          | Some id =>
              let! found := find_by_id id in
              match found with
              | None => throw (Unauthorized "user not found")
              | Some u =>
                  if negb (u.(u_status) =? 1) then throw (Forbidden "account disabled")
                  else if negb (u.(token_version) =? claims.(tv)) then throw (Unauthorized "session revoked, please login again")
                  else ret u
              end
          end
      end
  end.
Definition require_admin (h : list (string * string)) : M UserRow :=
  let! u := console_user h in
  if u.(is_admin) then ret u else throw (Forbidden "admin privileges required").

(** Equality of bytes by folding, without an early exit. *)
Fixpoint fold_xor (a b : string) (acc : Z) : Z :=
  match a, b with
  | String x a, String y b =>
      fold_xor a b (Z.lor acc (Z.lxor (Z.of_nat (Ascii.nat_of_ascii x)) (Z.of_nat (Ascii.nat_of_ascii y))))
  | _, _ => acc
  end.
Definition constant_time_eq (a b : string) : bool :=
  (String.length a =? String.length b)%nat && (fold_xor a b 0 =? 0).
Definition match_candidate (rows : list ApiKeyRow) (key : string) : option ApiKeyRow :=
  List.find (fun r => constant_time_eq (sha256_hex key) r.(ak_key_hash)) rows.

Definition client_key (h : list (string * string)) : option string :=
  match bearer h with
  | Some k => Some k
  | None => k ← header_of "x-api-key" h ≫= to_str; if str_is_empty (trim k) then None else Some (trim k)
  end.
Definition invalid_key : AppError := Auth "invalid api key".

Definition authenticate (h : list (string * string)) : M (option Z * option Z) :=
  if negb cfg.(auth_required) then ret (None, None)
  else
    match client_key h with
    | None => throw (Auth "missing Authorization: Bearer header or x-api-key header")
    | Some key =>
        if (String.length key <? 16)%nat then throw invalid_key
        else
          let! rows := find_all_by_prefix (str_take 12 key) in
          match match_candidate rows key with
          | None => throw invalid_key
          | Some r =>
              if match r.(ak_expires_at) with Some e => e <=? now | None => false end then throw (Auth "api key expired")
              else if negb (r.(ak_user_status) =? 1) then throw (Auth "account disabled")
              else ret (Some r.(ak_user_id), Some r.(ak_id))
          end
    end.

(** ** Handlers *)

Definition not_yours : AppError := BadRequest "key not found or not owned by you".
Definition key_target : option string := Some "api_key".
Definition user_target : option string := Some "user".

(** The checks of [create_key], with the name to be stored. *)
Definition create_key_check (u : UserRow) (name : string) : M string :=
  let name := trim name in
  if str_is_empty name || (64 <? String.length name)%nat then throw (BadRequest "key name must be 1-64 chars")
  else
    let! n := query (active_keys u.(u_id)) in
    if 10 <=? n then throw (BadRequest "max 10 active keys per user") else ret name.
(** The rest of it: the key in plain text and its number. *)
Definition create_key_insert (u : UserRow) (name : string) (expires : option Z) : M (string * Z) :=
  let! hex := random_hex in
  let plain := "sk-" +:+ hex in
  match encrypt_key plain with
  | None => throw (Internal "encryption failed")
  | Some encrypted =>
      let! id := create_key_row u.(u_id) name (str_take 12 plain) (sha256_hex plain) encrypted expires in
      let! _ := log (Some u.(u_id)) "api_key.create" key_target (Some id) (Some (json_object [("name", VString name)])) in
      ret (plain, id)
  end.
Definition create_key (u : UserRow) (name : string) (expires : option Z) : M (string * Z) :=
  let! name := create_key_check u name in create_key_insert u name expires.
Definition revoke_key (u : UserRow) (id : Z) : M unit :=
  let! changed := revoke_key_row u.(u_id) id in
  if changed then log (Some u.(u_id)) "api_key.revoke" key_target (Some id) None else throw not_yours.
Definition reveal_key (u : UserRow) (id : Z) : M string :=
  let! found := find_encrypted u.(u_id) id in
  match found with
  | None => throw not_yours
  | Some None => throw (BadRequest "key was created before encrypted storage; delete and recreate the key to copy it again")
  | Some (Some encrypted) =>
      match decrypt_key encrypted with
      | None => throw (Internal "decryption failed (master key changed?)")
      | Some plain => let! _ := log (Some u.(u_id)) "api_key.reveal" key_target (Some id) None in ret plain
      end
  end.

Definition ensure_not_protected (u : UserRow) : M unit :=
  if is_protected_admin u.(username)
  then throw (Forbidden "built-in admin account is protected and cannot be modified") else ret tt.
(** The user a handler of the administration is about. *)
Definition target_user (id : Z) : M UserRow :=
  let! found := find_by_id id in
  match found with
  | None => throw (BadRequest "user not found")
  | Some u => let! _ := ensure_not_protected u in ret u
  end.

Definition create_user (actor : Z) (name : string) (shown : option string) (password : string) (admin : option bool) : M UserRow :=
  let name := trim name in
  if str_is_empty name || (64 <? String.length name)%nat then throw (BadRequest "username must be 1-64 chars")
  else if (String.length password <? 8)%nat then throw (BadRequest "password must be at least 8 chars")
  else
    let shown := s ← shown; if str_is_empty (trim s) then None else Some (trim s) in
    let! created := create_local_user name (default name shown) (hash_password password) (default false admin) in
    match created with
    | None => throw (BadRequest "username already exists")
    | Some u =>
        let! _ := log (Some actor) "user.create" user_target (Some u.(u_id))
                    (Some (json_object [("username", VString name); ("is_admin", VBool u.(is_admin))])) in
        ret u
    end.

Definition update_status (actor id st : Z) : M unit :=
  if negb ((0 <=? st) && (st <=? 1)) then throw (BadRequest "status must be 0 or 1")
  else
    let! _ := set_status id st in
    let! _ := (if st =? 0 then revoke_all_for_user id else ret tt) in
    log (Some actor) "user.status" user_target (Some id) (Some (json_object [("status", of_int st)])).
Definition update_admin (actor id : Z) (target : UserRow) (grant : bool) : M unit :=
  if Bool.eqb target.(is_admin) grant then ret tt
  else
    let! _ := set_is_admin id grant in
    let! _ := reload json_text in
    log (Some actor) "user.is_admin" user_target (Some id)
      (Some (json_object [("is_admin", VBool grant); ("username", VString target.(username))])).
Definition update_user (actor id : Z) (st : option Z) (admin : option bool) : M UserRow :=
  let! target := target_user id in
  let! _ := match st with Some st => update_status actor id st | None => ret tt end in
  let! _ := match admin with Some grant => update_admin actor id target grant | None => ret tt end in
  let! found := find_by_id id in
  match found with Some u => ret u | None => throw (Internal "user vanished") end.

Definition force_logout_user (actor id : Z) : M unit :=
  let! _ := target_user id in
  let! _ := force_logout id in
  log (Some actor) "user.force_logout" user_target (Some id) None.

Definition reset_password (actor id : Z) (password : string) : M unit :=
  let! target := target_user id in
  if negb (bool_decide (target.(source) = "local"))
  then throw (BadRequest "LDAP users are managed in the directory; reset password there")
  else if (String.length password <? 8)%nat then throw (BadRequest "password must be at least 8 chars")
  else
    let! _ := set_password_hash id (hash_password password) in
    let! _ := force_logout id in
    log (Some actor) "user.reset_password" user_target (Some id) None.

(** [has_local_admin] and [seed_admin] *)
Definition has_local_admin : M bool :=
  query (fun s => existsb (fun u => bool_decide (u.(source) = "local") && u.(is_admin) && (u.(u_status) =? 1)) ((map_to_list s.(users)).*2)).
Definition seed_admin (password : option string) : M unit :=
  match cfg.(seed_admin_username), password with
  | Some name, Some password =>
      let! there := has_local_admin in
      if there then ret tt
      else
        let! created := create_local_user name name (hash_password password) true in
        match created with Some _ => ret tt | None => throw db_error end
  | _, _ => ret tt
  end.
End accounts.
