(* ===== verification/ConfigAdmin.v ===== *)
(** * Administration of the configuration

The handlers of [src/api/admin_config.rs], and of [src/api/console.rs] for access rules, that change the configuration: the
checks of a request, the statements, the reload of the caches and the entry in the audit log. Encryption, the printer
of JSON and the checks of the [http] crate on header names and values are parameters, and so is what an upstream
answers when it is asked for its models. *)

From S2P Require Import Prelude Float Json Errors RateLimit Routing Calendar Plans Metering Body Streams Chat AnthropicResponse ErrorShape.
From S2P Require Import Upstream ConfigTables Database PlanConfig ConfigStore Accounts.

Local Open Scope Z_scope.

(** ** Checks *)

(** Keeps the first six and the last four bytes. *)
Definition mask_key (s : string) : string :=
  if (String.length s <=? 12)%nat then "****" else str_take 6 s +:+ "****" +:+ str_drop (String.length s - 4) s.

Definition GATEWAY_FIELDS : list string := ["model"; "stream"; "stream_options"].
Definition CHANNEL_HEADER_BLOCKLIST : list string := ["authorization"; "x-api-key"; "content-type"; "x-request-id"; "content-length"; "host"].
Definition UPSTREAM_HEADER_BLOCKLIST : list string :=
  ["host"; "authorization"; "x-api-key"; "content-type"; "content-length"; "transfer-encoding"; "accept"; "anthropic-version"; "anthropic-beta"].
Definition RESPONSE_HEADER_BLOCKLIST : list string := ["host"; "content-type"; "content-length"; "transfer-encoding"; "connection"].
Definition HEADER_SETTINGS_MAX_ENTRIES : nat := 16.
Definition HEADER_SETTINGS_MAX_BYTES : Z := 4096.
Definition MESSAGE_TEMPLATE_MAX_CHARS : nat := 255.

Section checks.
Context (json_text : Value -> string).

Definition json_len (v : Value) : Z := Z.of_nat (String.length (json_text v)).

Definition validate_extra_body (v : Value) : result unit AppError :=
  match as_object v with
  | None => Err (BadRequest "extra_body must be a JSON object")
  | Some obj =>
      match List.find (fun kv => bool_decide (kv.1 ∈ GATEWAY_FIELDS)) obj with
      | Some (k, _) => Err (BadRequest ("extra_body top-level field '" +:+ k +:+
                         "' is managed by the gateway (model/stream/stream_options) and cannot be overridden"))
      | None => if 8 * 1024 <? json_len v then Err (BadRequest "extra_body too large (max 8KB)") else Ok tt
      end
  end.

Definition channel_header_error (kv : string * Value) : option AppError :=
  if bool_decide (to_ascii_lowercase kv.1 ∈ CHANNEL_HEADER_BLOCKLIST)
  then Some (BadRequest ("extra_headers field '" +:+ kv.1 +:+ "' is managed by the gateway and cannot be set"))
  else match kv.2 with VString _ => None | _ => Some (BadRequest ("extra_headers field '" +:+ kv.1 +:+ "' must be a string value")) end.

Definition validate_extra_headers (scheme : string) (headers : Value) : result unit AppError :=
  if negb (bool_decide (trim scheme ∈ ["bearer"; "x-api-key"])) then Err (BadRequest "auth_scheme must be 'bearer' or 'x-api-key'")
  else match as_object headers with
       | None => Err (BadRequest "extra_headers must be a JSON object")
       | Some obj =>
           match omap channel_header_error obj with
           | e :: _ => Err e
           | [] => if 4 * 1024 <? json_len headers then Err (BadRequest "extra_headers too large (max 4KB)") else Ok tt
           end
       end.

(** The common shape of the normalisations: a blank text is none. *)
Definition normalized (check : string -> option AppError) (raw : option string) : result (option string) AppError :=
  match raw ≫= non_blank with
  | None => Ok None
  | Some s => match check s with Some e => Err e | None => Ok (Some s) end
  end.
Definition longer_than (n : nat) (msg : string) (s : string) : option AppError :=
  if (n <? String.length s)%nat then Some (BadRequest msg) else None.
Definition normalize_upstream_model : option string -> result (option string) AppError :=
  normalized (longer_than 128 "upstream_model must be 1-128 chars").
Definition normalize_rule_model : option string -> result (option string) AppError :=
  normalized (longer_than 128 "model must be <= 128 chars").
Definition one_of (l : list string) (msg : string) (s : string) : option AppError :=
  if bool_decide (s ∈ l) then None else Some (BadRequest (msg +:+ ", got '" +:+ s +:+ "'")).
Definition EFFORT_MODES : list string := ["passthrough"; "deepseek"; "low_high"; "openrouter"].
Definition THINKING_FORMS : list string := ["thinking_param"; "reasoning_split"; "enable_thinking"].
Definition normalize_effort_mode : option string -> result (option string) AppError :=
  normalized (one_of EFFORT_MODES "reasoning_effort_mode must be one of passthrough/deepseek/low_high/openrouter").
Definition normalize_thinking_form : option string -> result (option string) AppError :=
  normalized (one_of THINKING_FORMS "thinking_form must be one of thinking_param/reasoning_split/enable_thinking").

Definition PASSTHROUGH_FIELDS : list string := ["store"; "safety_identifier"; "prompt_cache_retention"; "prompt_cache_key"].
(** [sort] and [dedup] of the fields. *)
Fixpoint insert_field (f : string) (l : list string) : list string :=
  match l with
  | [] => [f]
  | g :: l' => match String.compare f g with Lt => f :: l | Eq => l | Gt => g :: insert_field f l' end
  end.
Definition sorted_fields (l : list string) : list string := foldr insert_field [] l.
Definition normalize_passthrough_fields (raw : option string) : result (option string) AppError :=
  match raw with
  | None => Ok None
  | Some raw =>
      let fields := omap non_blank (split_comma "" raw) in
      match List.find (fun f => negb (bool_decide (f ∈ PASSTHROUGH_FIELDS))) fields with
      | Some f => Err (BadRequest ("responses_passthrough_fields contains unsupported field '" +:+ f +:+
                    "' (allowed: store, safety_identifier, prompt_cache_retention, prompt_cache_key)"))
      | None => match sorted_fields fields with [] => Ok None | l => Ok (Some (join "," l)) end
      end
  end.

(** [HeaderName::from_str] and [HeaderValue::from_str]; the texts of their errors. *)
Context (header_name header_value : string -> option string) (name_error value_error : string -> string).

Fixpoint checked_headers (blocklist : list string) (label : string) (l out : list (string * Value))
    : result (list (string * Value)) AppError :=
  match l with
  | [] => Ok out
  | (k, v) :: l =>
      let name := trim k in
      if str_is_empty name then checked_headers blocklist label l out
      else
        match as_str v with
        | None => Err (BadRequest (label +:+ "['" +:+ k +:+ "'] 的值必须是字符串"))
        | Some value =>
            if existsb (fun b => eq_ignore_ascii_case name b) blocklist
            then Err (BadRequest ("header '" +:+ name +:+ "' 由网关管理，不能在 " +:+ label +:+ " 中设置"))
            else if bool_decide (header_name name = None) then Err (BadRequest ("header 名 '" +:+ name +:+ "' 不合法：" +:+ name_error name))
            else if bool_decide (header_value (trim value) = None)
            then Err (BadRequest ("header '" +:+ name +:+ "' 的值不合法：" +:+ value_error (trim value)))
            else checked_headers blocklist label l (Map.insert name (VString (trim value)) out)
        end
  end.
Definition validate_header_map (blocklist : list string) (label : string) (v : Value) : result (list (string * Value)) AppError :=
  match as_object v with
  | None => Err (BadRequest (label +:+ " must be a JSON object"))
  | Some m =>
      if (HEADER_SETTINGS_MAX_ENTRIES <? length m)%nat
      then Err (BadRequest (label +:+ " 超过 " +:+ pretty (Z.of_nat HEADER_SETTINGS_MAX_ENTRIES) +:+ " 条上限"))
      else
        let? out := checked_headers blocklist label m [] in
        if HEADER_SETTINGS_MAX_BYTES <? json_len (VObject out)
        then Err (BadRequest (label +:+ " 序列化后超过 " +:+ pretty HEADER_SETTINGS_MAX_BYTES +:+ " 字节上限")) else Ok out
  end.
Definition header_group_or_clear (label : string) (v : Value) : result (list (string * Value)) AppError :=
  match v with
  | VNull => Ok []
  | VObject o => Ok o
  | _ => Err (BadRequest (label +:+ " must be an object or null"))
  end.
End checks.

(** ** Models of an upstream *)

Section fetch.
(** The text of a status, [serde_json::from_str] with the text of its error, and the upstream: the status and the
    text of its answer to an attempt, or the text of the chain of errors. *)
Context (status_text : Z -> string) (parse_json : string -> result Value string).

Definition models_of (parsed : Value) : option (list string) :=
  let ids := omap (fun m => get_str "id" m) in
  match parsed with
  | VArray arr => Some (ids arr)
  | VObject o => match Map.get "data" o ≫= as_array with Some arr => Some (ids arr) | None => None end
  | _ => None
  end.
Definition read_models (status : Z) (text : string) : result (list string) string :=
  if negb ((200 <=? status) && (status <? 300)) then Err ("upstream " +:+ status_text status +:+ ": " +:+ take_chars 300 text)
  else
    let head := take_chars 120 text in
    match parse_json text with
    | Err e => Err ("unexpected /models response shape (invalid JSON: " +:+ e +:+ "): " +:+ head)
    | Ok parsed => match models_of parsed with
                   | Some ms => Ok ms
                   | None => Err ("unexpected /models response shape: " +:+ head)
                   end
    end.
(** The first attempt of three that is answered decides. *)
Fixpoint attempts (replies : list (result (Z * string) string)) (last : string) : result (list string) string :=
  match replies with
  | [] => Err ("connection failed after 3 attempts: " +:+ last)
  | Ok (status, text) :: _ => read_models status text
  | Err e :: replies => attempts replies e
  end.
Context (upstream : string -> option string -> nat -> result (Z * string) string).
Definition fetch_upstream_models (base : string) (key : option string) : result (list string) string :=
  attempts (upstream (base +:+ "/models") key <$> [0; 1; 2]%nat) "".
End fetch.

(** ** Handlers *)

Record ProviderReq : Type := {
  vr_name : string;
  vr_api_type : string;
  vr_base_url : string;
  vr_api_key : option string;
  vr_timeout_ms : Z;
  vr_enabled : bool;
  vr_extra_body : Value;
  vr_auth_scheme : string;
  vr_extra_headers : Value;
  vr_supports_images : bool;
}.
Record ProviderPatch : Type := {
  vp_name : option string;
  vp_api_type : option string;
  vp_base_url : option string;
  vp_api_key : option string;
  vp_timeout_ms : option Z;
  vp_enabled : option bool;
  vp_extra_body : option Value;
  vp_auth_scheme : option string;
  vp_extra_headers : option Value;
  vp_supports_images : option bool;
}.
Record RouteReq : Type := {
  rr_pattern : string;
  rr_provider : Z;
  rr_priority : Z;
  rr_fallbacks : list Z;
  rr_upstream : option string;
  rr_enabled : bool;
  rr_extra_body : Value;
  rr_strict : bool;
  rr_merge : bool;
  rr_effort : option string;
  rr_thinking : option string;
  rr_passthrough : option string;
}.
Record ModelPatch : Type := {
  mp_enabled : option bool;
  mp_context_length : option Z;
  mp_clear_context_length : option bool;
  mp_capability : option string;
  mp_clear_capability : option bool;
  mp_max_output_tokens : option Z;
  mp_clear_max_output_tokens : option bool;
}.
Record RateLimitReq : Type := {
  lr_scope : string;
  lr_scope_id : option Z;
  lr_model : option string;
  lr_concurrency : Z;
  lr_enabled : bool;
}.
Record RateLimitPatch : Type := {
  lp_scope : option string;
  lp_scope_id : option (option Z);
  lp_clear_scope_id : option bool;
  lp_model : option (option string);
  lp_concurrency : option Z;
  lp_enabled : option bool;
}.

Section handlers.
Context (json_text : Value -> string) (header_name header_value : string -> option string) (name_error value_error : string -> string).
(** The cipher of the keys of providers, with the text of its error; the rounding of prices. *)
Context (encrypt : string -> result string string) (decrypt : string -> option string) (numeric : F64.t -> option F64.t).
Context (status_text : Z -> string) (parse_json : string -> result Value string).
Context (cfg : AuthConfig) (now : Z) (actor : Z).

(** The end of every handler that changes a table. *)
Definition publish (action target : string) (id : option Z) (told : option Value) : M unit :=
  let! _ := reload json_text in log (Some actor) action (Some target) id told.
Definition found {A} (msg : string) (o : option A) : M A := match o with Some a => ret a | None => throw (BadRequest msg) end.
Definition ensure (b : bool) (msg : string) : M unit := if b then ret tt else throw (BadRequest msg).

(** *** Providers *)

Definition bad_name (s : string) : bool := str_is_empty s || (64 <? String.length s)%nat.
Definition masked (r : AdminProvider) : AdminProvider :=
  let p := r.(pr_data) in
  {| pr_data := {| id := p.(id); name := p.(name); api_type := p.(api_type); base_url := p.(base_url);
                   api_key_encrypted := mask_key p.(api_key_encrypted); timeout_ms := p.(timeout_ms);
                   provider_extra_body := p.(provider_extra_body); auth_scheme := p.(auth_scheme);
                   extra_headers := p.(extra_headers); supports_images := p.(supports_images) |};
     pr_enabled := r.(pr_enabled); pr_created_at := r.(pr_created_at) |}.
Definition encrypted (plain : string) : M string := match encrypt plain with Ok e => ret e | Err e => throw (Internal e) end.
Definition encrypt_key (plain : option string) : M (option string) :=
  match plain ≫= non_blank with None => ret None | Some k => let! e := encrypted k in ret (Some e) end.

Definition create_provider (r : ProviderReq) : M AdminProvider :=
  let nm := trim r.(vr_name) in
  let! _ := ensure (negb (bad_name nm)) "provider name must be 1-64 chars" in
  let! _ := lift (validate_extra_body json_text r.(vr_extra_body)) in
  let! _ := lift (validate_extra_headers json_text r.(vr_auth_scheme) r.(vr_extra_headers)) in
  let! key := found "api_key is required" (r.(vr_api_key) ≫= non_blank) in
  let! enc := encrypted key in
  let! row := insert_provider now
    {| id := 0; name := nm; api_type := trim r.(vr_api_type); base_url := trim r.(vr_base_url); api_key_encrypted := enc;
       timeout_ms := r.(vr_timeout_ms); provider_extra_body := r.(vr_extra_body); auth_scheme := trim r.(vr_auth_scheme);
       extra_headers := r.(vr_extra_headers); supports_images := r.(vr_supports_images) |} r.(vr_enabled) in
  let! _ := publish "provider.create" "provider" (Some row.(pr_data).(id))
              (Some (json_object [("name", VString nm); ("extra_body", r.(vr_extra_body))])) in
  ret (masked row).

Definition check_patch_headers (q : ProviderPatch) : result unit AppError :=
  match q.(vp_auth_scheme), q.(vp_extra_headers) with
  | Some scheme, h => validate_extra_headers json_text scheme (default (VObject []) h)
  | None, Some h => validate_extra_headers json_text "bearer" h
  | None, None => Ok tt
  end.
Definition update_provider (pid : Z) (q : ProviderPatch) : M AdminProvider :=
  let! _ := ensure (negb (match q.(vp_name) with Some n => bad_name (trim n) | None => false end)) "provider name must be 1-64 chars" in
  let! _ := lift (match q.(vp_extra_body) with Some v => validate_extra_body json_text v | None => Ok tt end) in
  let! _ := lift (check_patch_headers q) in
  let! enc := encrypt_key q.(vp_api_key) in
  let! row := update_provider_row pid
    {| pg_name := trim <$> q.(vp_name); pg_api_type := trim <$> q.(vp_api_type); pg_base_url := trim <$> q.(vp_base_url); pg_key := enc;
       pg_timeout_ms := q.(vp_timeout_ms); pg_enabled := q.(vp_enabled); pg_extra_body := q.(vp_extra_body);
       pg_auth_scheme := trim <$> q.(vp_auth_scheme); pg_extra_headers := q.(vp_extra_headers);
       pg_supports_images := q.(vp_supports_images) |} in
  let! row := found "provider not found" row in
  let! _ := publish "provider.update" "provider" (Some pid) None in
  ret (masked row).
Definition delete_provider (pid : Z) : M unit :=
  let! known := delete_provider_row pid in
  let! _ := ensure known "provider not found" in
  publish "provider.delete" "provider" (Some pid) None.

(** *** Routes *)

Definition bad_pattern (s : string) : bool := str_is_empty s || (128 <? String.length s)%nat.
Definition ensure_provider (what : string) (pid : Z) : M unit :=
  let! p := find_provider pid in ensure (bool_decide (is_Some p)) (what +:+ pretty pid +:+ " not found").
Fixpoint ensure_fallbacks (pids : list Z) : M unit :=
  match pids with [] => ret tt | pid :: pids => let! _ := ensure_provider "fallback provider " pid in ensure_fallbacks pids end.

Definition create_route (r : RouteReq) : M AdminRoute :=
  let pattern := trim r.(rr_pattern) in
  let! _ := ensure (negb (bad_pattern pattern)) "model_pattern must be 1-128 chars" in
  let! _ := lift (validate_extra_body json_text r.(rr_extra_body)) in
  let! _ := ensure_provider "provider " r.(rr_provider) in
  let! _ := ensure_fallbacks r.(rr_fallbacks) in
  let! um := lift (normalize_upstream_model r.(rr_upstream)) in
  let! em := lift (normalize_effort_mode r.(rr_effort)) in
  let! tf := lift (normalize_thinking_form r.(rr_thinking)) in
  let! pf := lift (normalize_passthrough_fields r.(rr_passthrough)) in
  let! row := insert_route
    {| model_pattern := pattern; provider_id := r.(rr_provider); fallback_ids := r.(rr_fallbacks); upstream_model := um;
       route_extra_body := r.(rr_extra_body); strict_system_head := r.(rr_strict); system_head_merge := r.(rr_merge);
       reasoning_effort_mode := em; thinking_form := tf; responses_passthrough_fields := pf |} r.(rr_priority) r.(rr_enabled) in
  let! _ := publish "route.create" "route" (Some row.(ro_id)) (Some (json_object [("model_pattern", VString pattern)])) in
  ret row.

(** A field that was given is normalised, and stays given. *)
Definition given {A} (f : option A -> result (option A) AppError) (o : option (option A)) : result (option (option A)) AppError :=
  match o with None => Ok None | Some v => let? x := f v in Ok (Some x) end.
Definition update_route (rid : Z) (q : RouteChange) : M AdminRoute :=
  let! _ := ensure (negb (match q.(rg_pattern) with Some p => bad_pattern (trim p) | None => false end)) "model_pattern must be 1-128 chars" in
  let! _ := lift (match q.(rg_extra_body) with Some v => validate_extra_body json_text v | None => Ok tt end) in
  let! _ := match q.(rg_provider) with Some pid => ensure_provider "provider " pid | None => ret tt end in
  let! _ := match q.(rg_fallbacks) with Some pids => ensure_fallbacks pids | None => ret tt end in
  let! um := lift (given normalize_upstream_model q.(rg_upstream)) in
  let! em := lift (given normalize_effort_mode q.(rg_effort)) in
  let! tf := lift (given normalize_thinking_form q.(rg_thinking)) in
  let! pf := lift (given normalize_passthrough_fields q.(rg_passthrough)) in
  let! row := update_route_row rid
    {| rg_pattern := trim <$> q.(rg_pattern); rg_provider := q.(rg_provider); rg_priority := q.(rg_priority);
       rg_fallbacks := q.(rg_fallbacks); rg_upstream := um; rg_enabled := q.(rg_enabled); rg_extra_body := q.(rg_extra_body);
       rg_strict := q.(rg_strict); rg_merge := q.(rg_merge); rg_effort := em; rg_thinking := tf; rg_passthrough := pf |} in
  let! row := found "route not found" row in
  let! _ := publish "route.update" "route" (Some rid) None in
  ret row.
Definition delete_route (rid : Z) : M unit :=
  let! known := delete_route_row rid in
  let! _ := ensure known "route not found" in
  publish "route.delete" "route" (Some rid) None.

(** *** Concurrency rules *)

Definition SCOPES : list string := ["global"; "user"; "api_key"].
Definition ensure_not_protected_by_id (user : Z) : M unit :=
  let! u := find_by_id user in match u with Some u => ensure_not_protected cfg u | None => ret tt end.
Definition find_owner_user_id (key : Z) : M (option Z) := query (fun s => k_user <$> s.(api_keys) !! key).
Definition ensure_rule_target_allowed (sc : string) (sid : option Z) : M unit :=
  if bool_decide (sc = "user") then match sid with Some u => ensure_not_protected_by_id u | None => ret tt end
  else if bool_decide (sc = "api_key") then
    match sid with
    | Some k => let! owner := find_owner_user_id k in match owner with Some u => ensure_not_protected_by_id u | None => ret tt end
    | None => ret tt
    end
  else ret tt.

Definition create_rate_limit (r : RateLimitReq) : M AdminRateRule :=
  let sc := trim r.(lr_scope) in
  let! _ := ensure (bool_decide (sc ∈ SCOPES)) "scope must be global | user | api_key" in
  let! _ := ensure_rule_target_allowed sc r.(lr_scope_id) in
  let! _ := ensure (0 <=? r.(lr_concurrency)) "concurrency must be >= 0 (0 = unlimited)" in
  let! model := lift (normalize_rule_model r.(lr_model)) in
  let! row := insert_rule now {| scope := sc; scope_id := r.(lr_scope_id); rule_model := model; concurrency := r.(lr_concurrency) |} r.(lr_enabled) in
  let! _ := publish "rate_limit.create" "rate_limit" (Some row.(rl_id))
              (Some (json_object [("scope", VString sc); ("model", or_null VString model)])) in
  ret row.
(** The scope and the target the rule would have. *)
Definition new_target (old : RateRule) (q : RateLimitPatch) : string * option (option Z) :=
  let sc := default old.(scope) (trim <$> q.(lp_scope)) in
  (sc, if bool_decide (sc = "global") then Some None
       else if bool_decide (q.(lp_clear_scope_id) = Some true) then Some None else q.(lp_scope_id)).

Definition update_rate_limit (rid : Z) (q : RateLimitPatch) : M AdminRateRule :=
  let! _ := ensure (match q.(lp_scope) with Some s => bool_decide (trim s ∈ SCOPES) | None => true end) "scope must be global | user | api_key" in
  let! _ := ensure (match q.(lp_concurrency) with Some c => 0 <=? c | None => true end) "concurrency must be >= 0 (0 = unlimited)" in
  let! rules := list_rate_rules in
  let! old := found "rate limit rule not found" (List.find (fun r => r.(rl_id) =? rid) rules) in
  let '(sc, sid) := new_target old.(rl_data) q in
  let! _ := ensure_rule_target_allowed sc (default old.(rl_data).(scope_id) sid) in
  let! model := lift (given normalize_rule_model q.(lp_model)) in
  let! row := update_rule_row now rid (trim <$> q.(lp_scope)) sid model q.(lp_concurrency) q.(lp_enabled) in
  let! row := found "rate limit rule not found" row in
  let! _ := publish "rate_limit.update" "rate_limit" (Some rid) None in
  ret row.
Definition delete_rate_limit (rid : Z) : M unit :=
  let! known := delete_rule_row rid in
  let! _ := ensure known "rate limit rule not found" in
  publish "rate_limit.delete" "rate_limit" (Some rid) None.

(** *** Prices *)

Definition create_price (model : string) (inp out : option F64.t) (currency : string) (from : Z) : M AdminPrice :=
  let model := trim model in
  let! _ := ensure (negb (bad_pattern model)) "model must be 1-128 chars" in
  let! row := insert_price numeric model inp out (trim currency) from in
  let! _ := publish "price.create" "price" (Some row.(pc_id)) (Some (json_object [("model", VString model)])) in
  ret row.
Definition delete_price (pid : Z) : M unit :=
  let! known := delete_price_row pid in
  let! _ := ensure known "price not found" in
  publish "price.delete" "price" (Some pid) None.

(** *** Models *)

Definition delete_model (mid : Z) : M unit :=
  let! known := delete_model_row mid in
  let! _ := ensure known "model not found" in
  publish "model.delete" "model" (Some mid) None.

(** A value that may be set or cleared, but not both. *)
Definition set_or_clear {A} (field : string) (clear : option bool) (v : option A) : result (option (option A)) AppError :=
  if bool_decide (is_Some clear) && match v with Some _ => true | None => false end
  then Err (BadRequest ("clear_" +:+ field +:+ " 与 " +:+ field +:+ " 互斥"))
  else if bool_decide (clear = Some true) then Ok (Some None) else Ok (Some <$> v).
Definition within (lo hi : Z) (o : option (option Z)) : bool :=
  match o with Some (Some n) => (lo <=? n) && (n <=? hi) | _ => true end.
Definition CAPABILITIES : list string := ["text"; "vision"; "multimodal"].

Definition model_patch (q : ModelPatch) : result (option (option Z) * option (option string) * option (option Z)) AppError :=
  let? ctx := set_or_clear "context_length" q.(mp_clear_context_length) q.(mp_context_length) in
  let? cap := set_or_clear "capability" q.(mp_clear_capability) q.(mp_capability) in
  let? _ := match q.(mp_capability) with
            | Some c => if bool_decide (c ∈ CAPABILITIES) then Ok tt else Err (BadRequest "capability 仅支持 text / vision / multimodal")
            | None => Ok tt
            end in
  let? out := set_or_clear "max_output_tokens" q.(mp_clear_max_output_tokens) q.(mp_max_output_tokens) in
  if bool_decide (q.(mp_enabled) = None) && bool_decide (ctx = None) && bool_decide (cap = None) && bool_decide (out = None)
  then Err (BadRequest "enabled 与 context_length、capability、max_output_tokens 至少提供一个")
  else if negb (within 1 10000000 out) then Err (BadRequest "max_output_tokens 必须在 1..=10000000（token）之间")
  else if negb (within 1 100000000 ctx) then Err (BadRequest "context_length 必须在 1..=100000000（token）之间")
  else Ok (ctx, cap, out).

Definition model_info (r : AdminModel) : list (string * Value) :=
  [("provider_id", of_int r.(mo_provider)); ("model_id", VString r.(mo_model))].
(** One field of a model: its statement, and the entry in the log. *)
Definition apply_field {A} (stored : A -> M (option AdminModel)) (reloads : bool) (action : A -> string) (told : A -> list (string * Value))
    (mid : Z) (o : option A) : M unit :=
  match o with
  | None => ret tt
  | Some a =>
      let! row := stored a in
      let! row := found "model not found" row in
      let! _ := if reloads then reload json_text else ret tt in
      log (Some actor) (action a) (Some "model") (Some mid) (Some (json_object (model_info row ++ told a)))
  end.
Definition update_model (mid : Z) (q : ModelPatch) : M AdminModel :=
  let! (ctx, cap, out) := lift (model_patch q) in
  let! _ := apply_field (set_model_enabled mid) true (fun b => if b then "model.enable" else "model.disable") (fun _ => []) mid q.(mp_enabled) in
  let! _ := apply_field (set_model_context_length mid) false (fun _ => "model.context_length.update")
              (fun c => [("context_length", or_null of_int c)]) mid ctx in
  let! _ := apply_field (set_model_capability mid) false (fun _ => "model.capability.update")
              (fun c => [("capability", or_null VString c)]) mid cap in
  let! _ := apply_field (set_model_max_output_tokens mid) false (fun _ => "model.max_output_tokens.update")
              (fun c => [("max_output_tokens", or_null of_int c)]) mid out in
  let! row := get_model mid in
  found "model not found" row.

Context (upstream : string -> option string -> nat -> result (Z * string) string).
Definition fetch : string -> option string -> result (list string) string := fetch_upstream_models status_text parse_json upstream.
(** The models an upstream has listed become those of the provider. *)
Definition store_models (pid : Z) (ms : list string) : M Z :=
  let! count := replace_provider_models now pid ms in
  let! _ := publish "provider.models.sync" "provider" (Some pid) (Some (json_object [("models", of_int count)])) in
  ret count.

Definition connection_key (api_key : option string) (pid : option Z) : M (option string) :=
  match api_key ≫= non_blank, pid with
  | Some k, _ => ret (Some k)
  | None, Some pid => let! p := find_provider pid in ret (p ≫= fun r => decrypt r.(pr_data).(api_key_encrypted))
  | None, None => ret None
  end.
Definition test_connection (address : string) (api_key : option string) (pid : option Z) : M (list string) :=
  let base := trim_end_matches is_slash (trim address) in
  let! _ := ensure (starts_with "http://" base || starts_with "https://" base) "base_url must start with http(s)://" in
  let! key := connection_key api_key pid in
  let! ms := match fetch base key with Ok ms => ret ms | Err e => throw (BadRequest e) end in
  let! _ := match pid with Some pid => let! _ := store_models pid ms in ret tt | None => ret tt end in
  ret ms.
(** What was stored for each provider, or why nothing was. *)
Fixpoint refresh_all (l : list AdminProvider) : M (list (Z * result Z string)) :=
  match l with
  | [] => ret []
  | r :: l =>
      let p := r.(pr_data) in
      let! res := match fetch (trim_end_matches is_slash p.(base_url)) (decrypt p.(api_key_encrypted)) with
                  | Ok ms => let! count := store_models p.(id) ms in ret (Ok count)
                  | Err e => ret (Err e)
                  end in
      let! rest := refresh_all l in
      ret ((p.(id), res) :: rest)
  end.
Definition refresh_models : M (list (Z * result Z string)) :=
  let! l := list_providers in refresh_all (List.filter pr_enabled l).

(** *** Settings: the cache is written together with the row, and the audit log after it *)

Definition set_conf (f : ConfigCaches -> ConfigCaches) : M unit :=
  set_caches (fun c => {| admin_ids := c.(admin_ids); plans := c.(plans); conf := f c.(conf) |}).
Definition log_settings (action : string) (told : list (string * Value)) : M unit :=
  log (Some actor) action (Some "settings") None (Some (json_object told)).

Definition put_extra_body_settings (b : bool) : M unit :=
  let! _ := save_extra_body_enabled b in
  let! _ := set_conf (with_extra_body b) in
  log_settings "settings.extra_body.update" [("enabled", VBool b)].
Definition too_long (label : string) : AppError :=
  BadRequest (label +:+ " 文案过长（最多 " +:+ pretty (Z.of_nat MESSAGE_TEMPLATE_MAX_CHARS) +:+ " 字符）").
Definition put_message_settings (m : MessageTemplates) : M unit :=
  if (MESSAGE_TEMPLATE_MAX_CHARS <? length (chars m.(tpl_concurrency)))%nat then throw (too_long "concurrency")
  else if (MESSAGE_TEMPLATE_MAX_CHARS <? length (chars m.(tpl_model_denied)))%nat then throw (too_long "model_denied")
  else
    let! _ := save_message_templates m in
    let! _ := set_conf (with_messages m) in
    log_settings "settings.messages.update" [("concurrency", VString m.(tpl_concurrency)); ("model_denied", VString m.(tpl_model_denied))].
Definition checked_header_settings (u r : Value) : result HeaderSettings AppError :=
  let? u := header_group_or_clear "upstream_headers" u in
  let? r := header_group_or_clear "response_headers" r in
  let? u := validate_header_map json_text header_name header_value name_error value_error UPSTREAM_HEADER_BLOCKLIST "upstream_headers" (VObject u) in
  let? r := validate_header_map json_text header_name header_value name_error value_error RESPONSE_HEADER_BLOCKLIST "response_headers" (VObject r) in
  Ok {| hs_upstream := u; hs_response := r |}.
Definition put_header_settings (u r : Value) : M HeaderSettings :=
  let! h := lift (checked_header_settings u r) in
  let! _ := save_header_settings (VObject h.(hs_upstream)) (VObject h.(hs_response)) in
  let! _ := set_conf (with_headers h) in
  let! _ := log_settings "settings.headers.update"
              [("upstream_count", of_int (Z.of_nat (length h.(hs_upstream)))); ("response_count", of_int (Z.of_nat (length h.(hs_response))))] in
  ret h.
Definition put_api_endpoint_settings (e : ApiEndpointSettings) : M unit :=
  let! _ := save_api_endpoint_settings e in
  let! _ := set_conf (with_endpoints e) in
  log (Some actor) "api_endpoints.update" (Some "settings") None
    (Some (json_object [("responses_enabled", VBool e.(es_responses_enabled)); ("responses_visible", VBool e.(es_responses_visible));
                        ("messages_enabled", VBool e.(es_messages_enabled)); ("messages_visible", VBool e.(es_messages_visible))])).

(** *** Access rules *)

Fixpoint access_pairs (l : list (option Z * option string)) : M (list (option Z * option string)) :=
  match l with
  | [] => ret []
  | (pid, pattern) :: l =>
      let! _ := match pid with Some pid => ensure_provider "provider " pid | None => ret tt end in
      let pat := pattern ≫= non_blank in
      let! _ := ensure (match pat with Some p => (String.length p <=? 128)%nat | None => true end) "model_pattern must be <= 128 chars" in
      let! rest := access_pairs l in
      ret ((pid, pat) :: rest)
  end.
(** The answer says whether the user is restricted now. *)
Definition put_user_access (user : Z) (l : list (option Z * option string)) : M bool :=
  let! _ := target_user cfg user in
  let! pairs := access_pairs l in
  let! _ := replace_user_access user pairs in
  let! _ := publish "user.access.update" "user" (Some user) (Some (json_object [("rule_count", of_int (Z.of_nat (length pairs)))])) in
  let! _ := read_config (fun t => List.filter (fun r => r.(access_user_id) =? user) (rows t.(access_rules))) in
  fun w => (Ok (match w.(caches).(conf).(c_access) !! user with Some (_ :: _) => true | _ => false end), w).
End handlers.
