(* ===== verification/ConfigHistory.v ===== *)
(** * Properties of the configuration

What the operations of [ConfigAdmin] keep true in any order and whatever fails, and what follows for the requests that
read the configuration: which headers reach a provider, which models are routed, and who is restricted. *)

From S2P Require Import Prelude Float Json Errors RateLimit Routing Calendar Plans Metering Body Streams Chat AnthropicResponse ErrorShape.
From S2P Require Import Upstream ConfigTables Database PlanConfig ConfigStore Accounts ConfigAdmin.

Local Open Scope Z_scope.

Section configuration.
(** The protected administrator. *)
Context (cfg : AuthConfig) (root : Z).

(** ** Sound tables *)

(** An [extra_body] that touches no field of the gateway, and headers of a channel that touch none of its headers. *)
Definition clean_body (v : Value) : Prop := exists o, as_object v = Some o /\ Forall (fun kv => kv.1 ∉ GATEWAY_FIELDS) o.
Definition clean_headers (v : Value) : Prop :=
  exists o, as_object v = Some o /\ Forall (fun kv => to_ascii_lowercase kv.1 ∉ CHANNEL_HEADER_BLOCKLIST /\ exists s, kv.2 = VString s) o.
Definition clean_settings (blocklist : list string) (v : Value) : Prop :=
  exists o, v = VObject o /\ Forall (fun kv => Forall (fun b => to_ascii_lowercase kv.1 <> to_ascii_lowercase b) blocklist /\ exists s, kv.2 = VString s) o.

Record provider_sound (p : Provider) : Prop := {
  so_name : p.(name) <> "";
  so_body : clean_body p.(provider_extra_body);
  so_headers : clean_headers p.(extra_headers);
  so_scheme : p.(auth_scheme) ∈ ["bearer"; "x-api-key"];
}.
Definition chosen_from (l : list string) (o : option string) : Prop := forall m, o = Some m -> m ∈ l.
Record route_sound (d : ModelRoute) : Prop := {
  ru_body : clean_body d.(route_extra_body);
  ru_effort : chosen_from EFFORT_MODES d.(reasoning_effort_mode);
  ru_thinking : chosen_from THINKING_FORMS d.(thinking_form);
  ru_fields : forall t, d.(responses_passthrough_fields) = Some t -> exists l, l <> [] /\ t = join "," l /\ Forall (fun f => f ∈ PASSTHROUGH_FIELDS) l;
}.
Record model_sound (m : AdminModel) : Prop := {
  mu_context : forall n, m.(mo_context_length) = Some n -> 1 <= n <= 100000000;
  mu_output : forall n, m.(mo_max_output_tokens) = Some n -> 1 <= n <= 10000000;
  mu_capability : chosen_from CAPABILITIES m.(mo_capability);
}.
(** A rule that is not aimed at the protected administrator. *)
Definition spares (sc : string) (sid : option Z) : Prop := sc = "user" -> sid <> Some root.
Definition rule_sound (r : RateRule) : Prop := r.(scope) ∈ SCOPES /\ 0 <= r.(concurrency) /\ spares r.(scope) r.(scope_id).

Definition providers_ok (m : gmap Z AdminProvider) (seq : Z) : Prop :=
  (forall i r, m !! i = Some r -> r.(pr_data).(id) = i /\ i < seq /\ provider_sound r.(pr_data)) /\
  (forall i j r q, m !! i = Some r -> m !! j = Some q -> r.(pr_data).(name) = q.(pr_data).(name) -> i = j).
Definition routes_ok (ps : gmap Z AdminProvider) (m : gmap Z AdminRoute) (seq : Z) : Prop :=
  forall i r, m !! i = Some r -> r.(ro_id) = i /\ i < seq /\ is_Some (ps !! r.(ro_data).(provider_id)) /\ route_sound r.(ro_data).
Definition models_ok (ps : gmap Z AdminProvider) (m : gmap Z AdminModel) (seq : Z) : Prop :=
  (forall i r, m !! i = Some r -> r.(mo_id) = i /\ i < seq /\ is_Some (ps !! r.(mo_provider)) /\ model_sound r) /\
  (forall i j r q, m !! i = Some r -> m !! j = Some q -> r.(mo_provider) = q.(mo_provider) -> r.(mo_model) = q.(mo_model) -> i = j).
Definition rules_ok (m : gmap Z AdminRateRule) (seq : Z) : Prop :=
  forall i r, m !! i = Some r -> r.(rl_id) = i /\ i < seq /\ rule_sound r.(rl_data).
Definition access_ok (us : gmap Z UserRow) (ps : gmap Z AdminProvider) (m : gmap Z UserAccessRule) : Prop :=
  forall i r, m !! i = Some r -> is_Some (us !! r.(access_user_id)) /\ forall p, r.(access_provider_id) = Some p -> is_Some (ps !! p).
Definition settings_ok (x : Settings) : Prop :=
  clean_settings UPSTREAM_HEADER_BLOCKLIST x.(st_upstream_headers) /\ clean_settings RESPONSE_HEADER_BLOCKLIST x.(st_response_headers).

Record config_ok (us : gmap Z UserRow) (t : ConfigTables) : Prop := {
  ck_providers : providers_ok t.(providers) t.(provider_seq);
  ck_routes : routes_ok t.(providers) t.(model_routes) t.(route_seq);
  ck_models : models_ok t.(providers) t.(models) t.(model_seq);
  ck_rules : rules_ok t.(rate_rules) t.(rule_seq);
  ck_access : access_ok us t.(providers) t.(access_rules);
  ck_settings : settings_ok t.(settings);
  ck_root : exists row, us !! root = Some row /\ is_protected_admin cfg row.(username) = true;
}.

(** *** Checks *)

Lemma validate_extra_body_ok json_text v : validate_extra_body json_text v = Ok tt -> clean_body v.
Proof.
  unfold validate_extra_body, clean_body. destruct (as_object v) as [o|]; [|done]. destruct (List.find _ o) as [[k x]|] eqn:E; [done|].
  intros _. exists o. split; [done|]. apply Forall_forall. intros kv Hkv. eapply List.find_none in E; [|by apply list_elem_of_In].
  by apply bool_decide_eq_false in E.
Qed.
Lemma validate_extra_headers_ok json_text scheme v :
  validate_extra_headers json_text scheme v = Ok tt -> trim scheme ∈ ["bearer"; "x-api-key"] /\ clean_headers v.
Proof.
  unfold validate_extra_headers, clean_headers. case_bool_decide as Hs; [|done]. cbn [negb]. destruct (as_object v) as [o|]; [|done].
  destruct (omap channel_header_error o) as [|e l] eqn:E; [|done]. intros _. split; [done|]. exists o. split; [done|].
  apply Forall_forall. intros kv Hkv.
  assert (H : channel_header_error kv = None).
  { destruct (channel_header_error kv) as [e|] eqn:Ee; [|done]. assert (Hin : e ∈ omap channel_header_error o) by (apply list_elem_of_omap; by exists kv).
    rewrite E in Hin. by apply elem_of_nil in Hin. }
  unfold channel_header_error in H. case_bool_decide as Hb; [done|]. split; [done|]. destruct kv.2; try done. by eexists.
Qed.
Lemma normalized_ok check raw o : normalized check raw = Ok o -> forall m, o = Some m -> check m = None.
Proof. unfold normalized. destruct (raw ≫= non_blank); [destruct (check _) eqn:E|]; by intros [= <-] m [= <-]. Qed.
Lemma one_of_ok l msg s : one_of l msg s = None -> s ∈ l.
Proof. unfold one_of. by case_bool_decide. Qed.

Lemma insert_field_elem f l x : x ∈ insert_field f l <-> x = f \/ x ∈ l.
Proof.
  induction l as [|g l IH]; cbn [insert_field]; [by rewrite list_elem_of_singleton, elem_of_nil; naive_solver|].
  destruct (String.compare f g) eqn:E; rewrite ?elem_of_cons, ?IH; [apply String.compare_eq_iff in E as ->; naive_solver|done|naive_solver].
Qed.
Lemma sorted_fields_elem l x : x ∈ sorted_fields l <-> x ∈ l.
Proof. induction l as [|f l IH]; cbn; [done|]. by rewrite insert_field_elem, IH, elem_of_cons. Qed.
Lemma normalize_passthrough_ok raw o :
  normalize_passthrough_fields raw = Ok o -> forall t, o = Some t -> exists l, l <> [] /\ t = join "," l /\ Forall (fun f => f ∈ PASSTHROUGH_FIELDS) l.
Proof.
  unfold normalize_passthrough_fields. destruct raw as [raw|]; [|by intros [= <-]]. destruct (List.find _ _) as [f|] eqn:E; [done|].
  set (fields := omap non_blank (split_comma "" raw)) in *. destruct (sorted_fields fields) as [|g gs] eqn:Eg; intros [= <-] t [= <-].
  exists (g :: gs). split_and!; [done..|]. apply Forall_forall. intros f Hf. rewrite <-Eg in Hf. apply (proj1 (sorted_fields_elem _ _)), list_elem_of_In in Hf.
  eapply List.find_none in E; [|exact Hf]. cbn in E. by destruct (bool_decide_reflect (f ∈ PASSTHROUGH_FIELDS)).
Qed.

Section headers.
Context (json_text : Value -> string) (header_name header_value : string -> option string) (name_error value_error : string -> string).

Definition header_clean (blocklist : list string) (kv : string * Value) : Prop :=
  Forall (fun b => to_ascii_lowercase kv.1 <> to_ascii_lowercase b) blocklist /\ exists s, kv.2 = VString s.
Lemma map_insert_Forall (P : string * Value -> Prop) k v m : P (k, v) -> Forall P m -> Forall P (Map.insert k v m).
Proof.
  intros Hk Hm. induction Hm as [|[k' v'] m Hx Hm IH]; cbn; [by constructor|]. destruct (String.compare k k'); by repeat constructor.
Qed.
Lemma checked_headers_ok blocklist label l out m :
  checked_headers header_name header_value name_error value_error blocklist label l out = Ok m ->
  Forall (header_clean blocklist) out -> Forall (header_clean blocklist) m.
Proof.
  revert out. induction l as [|[k v] l IH]; intros out; cbn [checked_headers]; cbv zeta; [by intros [= <-]|].
  destruct (str_is_empty (trim k)); [by apply IH|]. destruct (as_str v) as [x|]; [|done].
  destruct (existsb _ blocklist) eqn:Eb; [done|]. case_bool_decide; [done|]. case_bool_decide; [done|]. intros Hrun Ho. eapply IH; [exact Hrun|].
  apply map_insert_Forall; [|done]. split; [|by eexists]. apply Forall_forall. intros b Hb Heq. apply not_true_iff_false in Eb. apply Eb.
  apply existsb_exists. exists b. split; [by apply list_elem_of_In|]. unfold eq_ignore_ascii_case. by apply bool_decide_eq_true.
Qed.
Lemma checked_header_settings_ok u r h :
  checked_header_settings json_text header_name header_value name_error value_error u r = Ok h ->
  clean_settings UPSTREAM_HEADER_BLOCKLIST (VObject h.(hs_upstream)) /\ clean_settings RESPONSE_HEADER_BLOCKLIST (VObject h.(hs_response)).
Proof.
  assert (Hv : forall bl lb v m, validate_header_map json_text header_name header_value name_error value_error bl lb v = Ok m ->
                 clean_settings bl (VObject m)).
  { intros bl lb v m. unfold validate_header_map. destruct (as_object v) as [o|]; [|done]. destruct (_ <? _)%nat; [done|].
    destruct (checked_headers _ _ _ _ _ _ _ _) as [out|e] eqn:E; cbn; [|done]. destruct (_ <? _); [done|]. intros [= <-].
    exists out. split; [done|]. eapply checked_headers_ok; [exact E|constructor]. }
  unfold checked_header_settings. destruct (header_group_or_clear _ u) as [u'|]; [|done]. destruct (header_group_or_clear _ r) as [r'|]; [|done].
  match goal with |- context [validate_header_map ?a ?b ?c ?d ?e ?f ?g ?h] => destruct (validate_header_map a b c d e f g h) as [x|] eqn:E1; [|done] end.
  match goal with |- context [validate_header_map ?a ?b ?c ?d ?e ?f ?g ?h] => destruct (validate_header_map a b c d e f g h) as [y|] eqn:E2; [|done] end.
  intros [= <-]. split; by eapply Hv.
Qed.
End headers.

Lemma set_or_clear_some {A} field clear (v : option A) o : set_or_clear field clear v = Ok o -> forall a, o = Some (Some a) -> v = Some a.
Proof. unfold set_or_clear. destruct (_ && _); [done|]. case_bool_decide; intros [= <-] a; [done|]. by destruct v as [b|]; intros [= <-]. Qed.
Lemma model_patch_ok q ctx cap out :
  model_patch q = Ok (ctx, cap, out) ->
  within 1 100000000 ctx = true /\ within 1 10000000 out = true /\ (forall c, cap = Some (Some c) -> c ∈ CAPABILITIES).
Proof.
  unfold model_patch. destruct (set_or_clear "context_length" _ _) as [c1|] eqn:E1; cbn; [|done].
  destruct (set_or_clear "capability" _ _) as [c2|] eqn:E2; cbn; [|done].
  destruct (match mp_capability q with Some c => if bool_decide (c ∈ CAPABILITIES) then Ok tt else _ | None => Ok tt end) as [u|] eqn:Ec; cbn; [|done].
  destruct (set_or_clear "max_output_tokens" _ _) as [c3|] eqn:E3; cbn; [|done]. destruct (_ && _); [done|].
  destruct (within 1 10000000 c3) eqn:W3; cbn; [|done]. destruct (within 1 100000000 c1) eqn:W1; cbn; [|done]. intros [= <- <- <-].
  split_and!; [done..|]. intros c Hc. rewrite (set_or_clear_some _ _ _ _ E2 c Hc) in Ec. by destruct (bool_decide_reflect (c ∈ CAPABILITIES)).
Qed.

(** *** Statements *)

Definition good (s : Db) : Prop := config_ok s.(users) s.(config).
(** What requests read: sound providers and routes, and headers of the operator that touch none of the gateway's. *)
Record cached (c : Caches) : Prop := {
  ca_providers : Forall provider_sound c.(conf).(c_providers);
  ca_routes : Forall route_sound c.(conf).(c_routes);
  ca_upstream : clean_settings UPSTREAM_HEADER_BLOCKLIST (VObject c.(conf).(c_headers).(hs_upstream));
  ca_response : clean_settings RESPONSE_HEADER_BLOCKLIST (VObject c.(conf).(c_headers).(hs_response));
  ca_rules : Forall (fun r => spares r.(scope) r.(scope_id)) c.(conf).(c_rules);
}.
Abbreviation sound := (holds good cached).

Lemma keeps_on_config {A} (f : ConfigTables -> A * ConfigTables) :
  (forall us t, config_ok us t -> config_ok us (f t).2) -> sound (on_config f).
Proof. intros H. apply holds_stmt. intros s Hs. specialize (H _ _ Hs). by destruct (f (config s)). Qed.
Lemma keeps_checked_config {A} (f : ConfigTables -> option (A * ConfigTables)) :
  (forall us t a t', f t = Some (a, t') -> config_ok us t -> config_ok us t') -> sound (checked_config f).
Proof.
  intros H. apply holds_bind; [|intros []; [apply holds_ret|apply holds_throw]].
  apply keeps_on_config. intros us t Ht. destruct (f t) as [[a t']|] eqn:E; [by eapply H|done].
Qed.

(** The other tables only ask that no provider is lost. *)
Lemma routes_ok_providers ps ps' m seq : (forall i, is_Some (ps !! i) -> is_Some (ps' !! i)) -> routes_ok ps m seq -> routes_ok ps' m seq.
Proof. intros H Hr i r Hi. destruct (Hr i r Hi) as (? & ? & ? & ?). naive_solver. Qed.
Lemma models_ok_providers ps ps' m seq : (forall i, is_Some (ps !! i) -> is_Some (ps' !! i)) -> models_ok ps m seq -> models_ok ps' m seq.
Proof. intros H [Hm Hu]. split; [|done]. intros i r Hi. destruct (Hm i r Hi) as (? & ? & ? & ?). naive_solver. Qed.
Lemma access_ok_providers us ps ps' m : (forall i, is_Some (ps !! i) -> is_Some (ps' !! i)) -> access_ok us ps m -> access_ok us ps' m.
Proof. intros H Ha i r Hi. destruct (Ha i r Hi) as [? Hp]. split; [done|]. naive_solver. Qed.

Lemma provider_name_free t p i r :
  provider_name_taken t p = false -> t.(providers) !! i = Some r -> i <> p.(id) -> r.(pr_data).(name) <> p.(name).
Proof.
  intros H Hi Hne E. apply not_true_iff_false in H. apply H. apply existsb_exists. exists (i, r). split.
  - by apply list_elem_of_In, elem_of_map_to_list.
  - cbn. rewrite bool_decide_true by done. by destruct (Z.eqb_spec i (id p)).
Qed.
Lemma ok_write_provider us r t a t' :
  write_provider r t = Some (a, t') -> r.(pr_data).(id) < t.(provider_seq) -> provider_sound r.(pr_data) -> config_ok us t ->
  a = r /\ config_ok us t'.
Proof.
  unfold write_provider. destruct (provider_row_ok _); [|done]. destruct (provider_name_taken _ _) eqn:En; [done|]. cbn [negb andb].
  intros [= <- <-] Hid Hr [[H1 H1'] H2 H3 H4 H5 H6 H7]. split; [done|].
  assert (Hgrow : forall i, is_Some (t.(providers) !! i) -> is_Some (<[(r.(pr_data)).(id) := r]> t.(providers) !! i)).
  { intros i Hi. apply lookup_insert_is_Some'. by right. }
  split; cbn; [split|by eapply routes_ok_providers|by eapply models_ok_providers|done|by eapply access_ok_providers|done|done].
  - intros i q [[<- <-]|[_ Hq]]%lookup_insert_Some; [done|by apply H1].
  - intros i j q q' [[<- <-]|[Hi Hq]]%lookup_insert_Some [[<- <-]|[Hj Hq']]%lookup_insert_Some E; [done|..|by eapply H1'].
    + by destruct (provider_name_free _ _ _ _ En Hq').
    + by destruct (provider_name_free _ _ _ _ En Hq).
Qed.
Lemma ok_advance us t a b c d e f : 0 <= a -> 0 <= b -> 0 <= c -> 0 <= d -> config_ok us t -> config_ok us (advance a b c d e f t).
Proof.
  intros ???? [[H1 H1'] H2 [H3 H3'] H4 H5 H6 H7]. split; cbn; [split; [|done]| |split; [|done]| |done..].
  - intros i r Hi. destruct (H1 i r Hi) as (? & ? & ?). split_and!; [done|lia|done].
  - intros i r Hi. destruct (H2 i r Hi) as (? & ? & ?). split_and!; [done|lia|naive_solver..].
  - intros i r Hi. destruct (H3 i r Hi) as (? & ? & ?). split_and!; [done|lia|naive_solver..].
  - intros i r Hi. destruct (H4 i r Hi) as (? & ? & ?). split_and!; [done|lia|done].
Qed.

(** A row of another table that is written. *)
Lemma ok_put_route us t i r :
  r.(ro_id) = i -> i < t.(route_seq) -> is_Some (t.(providers) !! r.(ro_data).(provider_id)) -> route_sound r.(ro_data) ->
  config_ok us t -> config_ok us (set_routes (<[i := r]> t.(model_routes)) t).
Proof. intros ???? [H1 H2 H3 H4 H5 H6 H7]. split; cbn; [done| |done..]. intros j q [[<- <-]|[_ Hq]]%lookup_insert_Some; [done|by apply H2]. Qed.
Lemma ok_put_rule us t i r :
  r.(rl_id) = i -> i < t.(rule_seq) -> rule_sound r.(rl_data) -> config_ok us t -> config_ok us (set_rules (<[i := r]> t.(rate_rules)) t).
Proof. intros ??? [H1 H2 H3 H4 H5 H6 H7]. split; cbn; [done..| |done|done|done]. intros j q [[<- <-]|[_ Hq]]%lookup_insert_Some; [done|by apply H4]. Qed.
Lemma ok_write_route us r t a t' :
  write_route r t = Some (a, t') -> r.(ro_id) < t.(route_seq) -> route_sound r.(ro_data) -> config_ok us t -> a = r /\ config_ok us t'.
Proof.
  unfold write_route. destruct (route_row_ok _ _) eqn:E; [|done]. intros [= <- <-] Hid Hr Ht. split; [done|]. apply ok_put_route; [done..| |done|done].
  unfold route_row_ok in E. apply andb_true_iff in E as [_ E]. by apply bool_decide_eq_true in E.
Qed.
(** Rows that are removed, and rows that are changed one by one. *)
Lemma ok_fewer_routes us t m : m ⊆ t.(model_routes) -> config_ok us t -> config_ok us (set_routes m t).
Proof. intros Hm [H1 H2 H3 H4 H5 H6 H7]. split; cbn; [done| |done..]. intros i r Hi. apply H2. by eapply lookup_weaken. Qed.
Lemma ok_map_routes us t f :
  (forall r, (f r).(ro_id) = r.(ro_id) /\ (f r).(ro_data).(provider_id) = r.(ro_data).(provider_id) /\
             (route_sound r.(ro_data) -> route_sound (f r).(ro_data))) ->
  config_ok us t -> config_ok us (set_routes (f <$> t.(model_routes)) t).
Proof.
  intros Hf [H1 H2 H3 H4 H5 H6 H7]. split; cbn; [done| |done..]. intros i r Hi. rewrite lookup_fmap in Hi.
  destruct (t.(model_routes) !! i) as [q|] eqn:E; [|done]. injection Hi as <-. destruct (H2 i q E) as (? & ? & ? & ?). destruct (Hf q) as (-> & -> & ?). naive_solver.
Qed.
Lemma ok_fewer_models us t m : m ⊆ t.(models) -> config_ok us t -> config_ok us (set_models m t).
Proof.
  intros Hm [H1 H2 [H3 H3'] H4 H5 H6 H7]. split; cbn; [done..| |done|done|done|done]. split.
  - intros i r Hi. apply H3. by eapply lookup_weaken.
  - intros i j r q Hi Hj. eapply H3'; by eapply lookup_weaken.
Qed.
Lemma ok_alter_model us t f i :
  (forall r, (f r).(mo_id) = r.(mo_id) /\ (f r).(mo_provider) = r.(mo_provider) /\ (f r).(mo_model) = r.(mo_model)) ->
  (forall r, model_sound r -> model_sound (f r)) -> config_ok us t -> config_ok us (set_models (alter f i t.(models)) t).
Proof.
  intros Hf Hs [H1 H2 [H3 H3'] H4 H5 H6 H7]. split; cbn; [done..| |done|done|done|done].
  assert (Hl : forall j r, alter f i t.(models) !! j = Some r -> exists q, t.(models) !! j = Some q /\ r.(mo_id) = q.(mo_id) /\
                 r.(mo_provider) = q.(mo_provider) /\ r.(mo_model) = q.(mo_model) /\ (model_sound q -> model_sound r)).
  { intros j r [[-> (q & -> & ->)]|[_ Hj]]%lookup_alter_Some; [|by exists r]. exists q. destruct (Hf q) as (? & ? & ?). split_and!; try done. apply Hs. }
  split.
  - intros j r Hj. destruct (Hl j r Hj) as (q & Hq & -> & -> & _ & Hsr). destruct (H3 j q Hq) as (? & ? & ? & ?). naive_solver.
  - intros j k r r' Hj Hk Ep Em. destruct (Hl j r Hj) as (q & Hq & _ & E1 & E2 & _). destruct (Hl k r' Hk) as (q' & Hq' & _ & E3 & E4 & _).
    eapply H3'; [exact Hq|exact Hq'|congruence..].
Qed.

(** *** Handlers *)

Lemma sound_lifted {A B} (r : result A AppError) (k : A -> M B) : (forall a, r = Ok a -> sound (k a)) -> sound (bind (lift r) k).
Proof. intros H w. destruct r as [a|e]; [|done]. by apply (H a eq_refl w). Qed.
Lemma keeps_ensured {B} b msg (k : unit -> M B) : (b = true -> sound (k tt)) -> sound (bind (ensure b msg) k).
Proof. intros H w. destruct b; [|done]. by apply (H eq_refl w). Qed.
Lemma sound_lift {A} (r : result A AppError) : sound (lift r).
Proof. destruct r; [apply holds_ret|apply holds_throw]. Qed.
Lemma keeps_ensure b msg : sound (ensure b msg).
Proof. destruct b; [apply holds_ret|apply holds_throw]. Qed.
Lemma keeps_found {A} msg (o : option A) : sound (found msg o).
Proof. destruct o; [apply holds_ret|apply holds_throw]. Qed.
Lemma sound_log a b c d e : sound (log a b c d e).
Proof. apply holds_stmt. intros s H. exact H. Qed.

Lemma load_providers_sound us t : config_ok us t -> Forall provider_sound (load_providers t).
Proof. intros Ht. apply Forall_forall. intros p (i & r & Hr & _ & ->)%load_providers_elem. by apply (proj1 (ck_providers _ _ Ht)) in Hr as (_ & _ & ?). Qed.
Lemma load_routes_sound us t : config_ok us t -> Forall route_sound (load_routes t).
Proof. intros Ht. apply Forall_forall. intros p (i & r & Hr & _ & ->)%load_routes_elem. by apply (ck_routes _ _ Ht) in Hr as (_ & _ & _ & ?). Qed.
Lemma load_rules_spare us t : config_ok us t -> Forall (fun r => spares r.(scope) r.(scope_id)) (load_rules t).
Proof. intros Ht. apply Forall_forall. intros p (i & r & Hr & _ & ->)%load_rules_elem. by apply (ck_rules _ _ Ht) in Hr as (_ & _ & _ & _ & ?). Qed.
Lemma sound_reload json_text : sound (reload json_text).
Proof.
  apply holds_sections. repeat (apply Forall_cons_2 || exact (Forall_nil_2 _)); try apply holds_query; apply holds_section;
    intros s c Hs [C1 C2 C3 C4 C5]; split; cbn; try done.
  - by eapply load_providers_sound.
  - by eapply load_routes_sound.
  - by eapply load_rules_spare.
  - destruct (proj1 (ck_settings _ _ Hs)) as (o & Ho & Hf). rewrite Ho. by exists o.
  - destruct (proj2 (ck_settings _ _ Hs)) as (o & Ho & Hf). rewrite Ho. by exists o.
Qed.

Create HintDb config_runs.
#[local] Hint Resolve holds_ret holds_throw holds_query sound_reload sound_log sound_lift keeps_ensure keeps_found : config_runs.
(** Goes through a run; what a check has found stays at hand. *)
Ltac run :=
  repeat first
    [ progress intros
    | solve [eauto with config_runs]
    | match goal with
      | |- holds _ _ (bind (lift ?r) ?k) => refine (sound_lifted r k _)
      | |- holds _ _ (bind (ensure ?b ?msg) ?k) => refine (keeps_ensured b msg k _)
      end
    | holds_step
    | match goal with |- holds _ _ (match ?x with _ => _ end) => destruct x eqn:? end ].

Lemma keeps_publish json_text actor action target i told : sound (publish json_text actor action target i told).
Proof. unfold publish. run. Qed.
#[local] Hint Resolve keeps_publish : config_runs.

(** **** Providers *)

Lemma keeps_insert_provider now p enabled : (forall i, provider_sound (with_id i p)) -> sound (insert_provider now p enabled).
Proof.
  intros Hp. apply keeps_checked_config. intros us t a t' E Ht. eapply ok_write_provider in E as [_ E]; [exact E|cbn; lia|by apply Hp|].
  by apply ok_advance.
Qed.
Lemma keeps_update_provider_row pid c :
  (forall r, provider_sound r.(pr_data) -> provider_sound (changed_provider c r).(pr_data)) -> sound (update_provider_row pid c).
Proof.
  intros Hc. apply keeps_checked_config. intros us t a t' E Ht. destruct (providers t !! pid) as [r|] eqn:Ep; [|by injection E as _ <-].
  destruct (write_provider _ t) as [[r' t1]|] eqn:Ew; [|done]. injection E as _ <-. destruct (ck_providers _ _ Ht) as [H1 _].
  destruct (H1 _ _ Ep) as (Hi & Hlt & Hr). eapply ok_write_provider in Ew as [_ Ew]; [exact Ew|cbn; lia|by apply Hc|done].
Qed.
Lemma keeps_delete_provider_row pid : sound (delete_provider_row pid).
Proof.
  unfold delete_provider_row. run.
  - apply keeps_on_config. intros us t Ht. apply ok_map_routes; [|done]. intros r. split_and!; [done..|]. intros [R1 R2 R3 R4]. by split.
  - apply keeps_on_config. intros us t Ht. apply ok_fewer_routes; [apply map_filter_subseteq|done].
  - apply keeps_checked_config. intros us t b t' E [[H1 H1'] H2 [H3 H3'] H4 H5 H6 H7]. unfold drop_provider in E.
    destruct (existsb _ _) eqn:Er; [done|]. injection E as _ <-.
    assert (Hkeep : forall i, i <> pid -> is_Some (providers t !! i) -> is_Some (delete pid (providers t) !! i)) by (intros i Hi ?; by rewrite lookup_delete_ne).
    split; cbn; [|..|done| |done|done].
    + split; [intros i r [_ Hi]%lookup_delete_Some; by apply H1|]. intros i j r q [_ Hi]%lookup_delete_Some [_ Hj]%lookup_delete_Some. by eapply H1'.
    + intros i r Hi. destruct (H2 i r Hi) as (? & ? & ? & ?). split_and!; [done..| |done]. apply Hkeep; [|done]. intros Heq.
      apply not_true_iff_false in Er. apply Er, existsb_exists. exists r. split; [apply list_elem_of_In, rows_elem; by exists i|]. lia.
    + split; [|intros i j r q [Hi _]%map_lookup_filter_Some [Hj _]%map_lookup_filter_Some; by eapply H3'].
      intros i r [Hi Hne]%map_lookup_filter_Some. destruct (H3 i r Hi) as (? & ? & ? & ?). split_and!; [done..| |done]. apply Hkeep; [|done]. cbn in Hne. lia.
    + intros i r [Hi Hne]%map_lookup_filter_Some. destruct (H5 i r Hi) as [? Hp]. split; [done|]. intros p Epr. apply Hkeep; [|by apply Hp].
      intros ->. cbn in Hne. apply bool_decide_eq_false in Hne. done.
Qed.
#[local] Hint Resolve keeps_delete_provider_row : config_runs.

Section histories.
Context (json_text : Value -> string) (header_name header_value : string -> option string) (name_error value_error : string -> string).
Context (encrypt : string -> result string string) (decrypt : string -> option string) (numeric : F64.t -> option F64.t).
Context (status_text : Z -> string) (parse_json : string -> result Value string).

Lemma bad_name_empty s : negb (bad_name s) = true -> s <> "".
Proof. unfold bad_name. by intros H ->. Qed.
Lemma keeps_encrypted k : sound (encrypted encrypt k).
Proof. unfold encrypted. destruct (encrypt k); [apply holds_ret|apply holds_throw]. Qed.
#[local] Hint Resolve keeps_encrypted : config_runs.

Lemma keeps_create_provider now actor r : sound (create_provider json_text encrypt now actor r).
Proof.
  unfold create_provider. cbv zeta. run. apply keeps_insert_provider. intros i. cbn.
  match goal with H : validate_extra_headers _ _ _ = Ok ?u |- _ => destruct u; apply validate_extra_headers_ok in H as [Hs Hh] end.
  match goal with H : validate_extra_body _ _ = Ok ?u |- _ => destruct u; apply validate_extra_body_ok in H end.
  match goal with H : negb _ = true |- _ => apply bad_name_empty in H end. by split.
Qed.
Lemma keeps_update_provider actor pid q : sound (update_provider json_text encrypt actor pid q).
Proof.
  unfold update_provider, encrypt_key. run. apply keeps_update_provider_row. intros r [R1 R2 R3 R4].
  match goal with H : check_patch_headers _ _ = Ok ?u |- _ => destruct u; rename H into Hh end. unfold check_patch_headers in Hh.
  split; cbn.
  - destruct (vp_name q); [|done]. by apply bad_name_empty.
  - destruct (vp_extra_body q); [|done]. match goal with H : validate_extra_body _ _ = Ok ?u |- _ => destruct u; by apply validate_extra_body_ok in H end.
  - destruct (vp_auth_scheme q), (vp_extra_headers q); try done; by apply validate_extra_headers_ok in Hh as [_ Hh].
  - destruct (vp_auth_scheme q); [|done]. by apply validate_extra_headers_ok in Hh as [Hh _].
Qed.
Lemma keeps_delete_provider actor pid : sound (delete_provider json_text actor pid).
Proof. unfold delete_provider. run. Qed.

(** **** Routes *)

Lemma keeps_insert_route d priority enabled : route_sound d -> sound (insert_route d priority enabled).
Proof.
  intros Hd. apply keeps_checked_config. intros us t a t' E Ht. eapply ok_write_route in E as [_ E]; [exact E|cbn; lia|done|]. by apply ok_advance.
Qed.
Lemma keeps_update_route_row rid c :
  (forall r, route_sound r.(ro_data) -> route_sound (changed_route c r).(ro_data)) -> sound (update_route_row rid c).
Proof.
  intros Hc. apply keeps_checked_config. intros us t a t' E Ht. destruct (model_routes t !! rid) as [r|] eqn:Ep; [|by injection E as _ <-].
  destruct (write_route _ t) as [[r' t1]|] eqn:Ew; [|done]. injection E as _ <-. destruct (ck_routes _ _ Ht _ _ Ep) as (Hi & Hlt & _ & Hr).
  eapply ok_write_route in Ew as [_ Ew]; [exact Ew|cbn; lia|by apply Hc|done].
Qed.
Lemma keeps_ensure_provider what pid : sound (ensure_provider what pid).
Proof. unfold ensure_provider, find_provider, read_config. run. Qed.
Lemma keeps_ensure_fallbacks pids : sound (ensure_fallbacks pids).
Proof. induction pids as [|pid pids IH]; cbn [ensure_fallbacks]; run. apply keeps_ensure_provider. Qed.
#[local] Hint Resolve keeps_ensure_provider keeps_ensure_fallbacks : config_runs.

Lemma effort_ok raw o : normalize_effort_mode raw = Ok o -> chosen_from EFFORT_MODES o.
Proof. intros H m Hm. eapply one_of_ok. by eapply normalized_ok. Qed.
Lemma thinking_ok raw o : normalize_thinking_form raw = Ok o -> chosen_from THINKING_FORMS o.
Proof. intros H m Hm. eapply one_of_ok. by eapply normalized_ok. Qed.
Lemma given_some {A} (f : option A -> result (option A) AppError) o x : given f o = Ok (Some x) -> exists v, f v = Ok x.
Proof. unfold given. destruct o as [v|]; [|done]. destruct (f v) as [y|] eqn:E; [|done]. intros [= <-]. by exists v. Qed.

Lemma keeps_create_route actor r : sound (create_route json_text actor r).
Proof.
  unfold create_route. cbv zeta. run. apply keeps_insert_route.
  match goal with H : validate_extra_body _ _ = Ok ?u |- _ => destruct u; apply validate_extra_body_ok in H end.
  split; cbn; [done|by eapply effort_ok|by eapply thinking_ok|by eapply normalize_passthrough_ok].
Qed.
Lemma keeps_update_route actor rid q : sound (update_route json_text actor rid q).
Proof.
  unfold update_route. run.
  apply keeps_update_route_row. intros r [R1 R2 R3 R4].
  split; cbn.
  - destruct (rg_extra_body q); [|done]. match goal with H : validate_extra_body _ _ = Ok ?u |- _ => destruct u; by apply validate_extra_body_ok in H end.
  - match goal with H : given normalize_effort_mode _ = Ok ?o |- _ => destruct o as [x|]; [apply given_some in H as [v Hv]|done] end. by eapply effort_ok.
  - match goal with H : given normalize_thinking_form _ = Ok ?o |- _ => destruct o as [x|]; [apply given_some in H as [v Hv]|done] end. by eapply thinking_ok.
  - match goal with H : given normalize_passthrough_fields _ = Ok ?o |- _ => destruct o as [x|]; [apply given_some in H as [v Hv]|done] end.
    by eapply normalize_passthrough_ok.
Qed.
Lemma keeps_delete_route actor rid : sound (delete_route json_text actor rid).
Proof.
  unfold delete_route, delete_route_row. run. apply keeps_on_config. intros us t Ht. apply ok_fewer_routes; [apply delete_subseteq|done].
Qed.

(** **** Concurrency rules and prices *)

Lemma keeps_not_protected u : sound (ensure_not_protected cfg u).
Proof. unfold ensure_not_protected. run. Qed.
#[local] Hint Resolve keeps_not_protected : config_runs.
Lemma keeps_target_allowed sc sid : sound (ensure_rule_target_allowed cfg sc sid).
Proof. unfold ensure_rule_target_allowed, find_owner_user_id, ensure_not_protected_by_id, find_by_id. run. Qed.
#[local] Hint Resolve keeps_target_allowed : config_runs.
(** The check of the target only reads, and what it lets pass spares the administrator. *)
Lemma target_allowed_ok sc sid w :
  good w.(db) -> let '(res, w') := ensure_rule_target_allowed cfg sc sid w in
  w'.(db) = w.(db) /\ w'.(caches) = w.(caches) /\ (res = Ok tt -> spares sc sid).
Proof.
  intros Hg. destruct (ck_root _ _ Hg) as (row & Hrow & Hprot).
  assert (Hu : forall u, let '(res, w') := ensure_not_protected_by_id cfg u w in w'.(db) = w.(db) /\ w'.(caches) = w.(caches) /\ (res = Ok tt -> u <> root)).
  { intros u. unfold ensure_not_protected_by_id, bind, find_by_id, query, stmt. destruct (default false _); cbn; [done|].
    destruct (users (db w) !! u) as [r|] eqn:E; cbn; [unfold ensure_not_protected; destruct (is_protected_admin cfg (username r)) eqn:Er; cbn|];
      (split_and!; [done..|intros H ->; congruence]). }
  unfold ensure_rule_target_allowed, spares. case_bool_decide as E1.
  - destruct sid as [u|]; [|by cbn]. specialize (Hu u). destruct (ensure_not_protected_by_id cfg u w) as [res w']. destruct Hu as (? & ? & Hr).
    split_and!; [done..|]. intros Hok _ [= ->]. by apply Hr.
  - case_bool_decide; [|by cbn]. destruct sid as [k|]; [|by cbn]. unfold find_owner_user_id, query, stmt, bind at 1. destruct (default false _); cbn; [done|].
    destruct (api_keys (db w) !! k) as [kr|]; cbn; [|done]. clear Hu. unfold ensure_not_protected_by_id, bind, find_by_id, query, stmt, with_db. cbn.
    destruct (default false _); cbn; [done|]. destruct (users (db w) !! k_user kr) as [r|]; cbn; [|done]. unfold ensure_not_protected.
    by destruct (is_protected_admin cfg (username r)).
Qed.
(** A run that goes on after the check. *)
Lemma keeps_after_target {B} sc sid (k : unit -> M B) w :
  good w.(db) -> cached w.(caches) ->
  (forall w', w'.(db) = w.(db) -> cached w'.(caches) -> spares sc sid -> good (k tt w').2.(db) /\ cached (k tt w').2.(caches)) ->
  good (bind (ensure_rule_target_allowed cfg sc sid) k w).2.(db) /\ cached (bind (ensure_rule_target_allowed cfg sc sid) k w).2.(caches).
Proof.
  intros Hg Hc Hk. pose proof (target_allowed_ok sc sid w Hg) as Ht. unfold bind. destruct (ensure_rule_target_allowed cfg sc sid w) as [[[]|e] w'];
    destruct Ht as (Ed & Ec & Hs); [|by cbn; rewrite Ed, Ec]. apply Hk; [done|by rewrite Ec|by apply Hs].
Qed.
Lemma good_insert_rule now r enabled w :
  rule_sound r -> good w.(db) -> cached w.(caches) -> good (insert_rule now r enabled w).2.(db) /\ cached (insert_rule now r enabled w).2.(caches).
Proof.
  intros Hr Hg Hc. refine (keeps_checked_config _ _ w Hg Hc). intros us t x t' E Ht. cbv zeta in E. destruct (rule_row_ok _); [|done].
  injection E as _ <-. apply (ok_put_rule us (advance 0 0 0 1 0 0 t)); [done|cbn; lia|done|by apply ok_advance].
Qed.
Lemma keeps_create_rate_limit now actor r : sound (create_rate_limit json_text cfg now actor r).
Proof.
  unfold create_rate_limit. cbv zeta. refine (keeps_ensured _ _ _ _). intros Hsc%bool_decide_eq_true_1 w Hg Hc.
  apply keeps_after_target; [done..|]. intros w' Ed Hc' Hs. rewrite <-Ed in Hg.
  unfold ensure. destruct (Z.leb_spec 0 (lr_concurrency r)); [|done]. rewrite !bind_ret.
  destruct (normalize_rule_model (lr_model r)) as [model|e]; [|done]. cbn [lift]. rewrite !bind_ret.
  set (data := {| scope := trim (lr_scope r); scope_id := _; rule_model := _; concurrency := _ |}).
  assert (Hd : rule_sound data) by (split_and!; done). destruct (good_insert_rule now data (lr_enabled r) w' Hd Hg Hc') as [Hg2 Hc2].
  apply (holds_at good cached); [done..|]. run.
Qed.
Lemma holds_list {B} (k : list AdminRateRule -> M B) w :
  good w.(db) -> cached w.(caches) ->
  (forall rules w', good w'.(db) -> cached w'.(caches) -> rules = sort_by_key rl_id (rows w'.(db).(config).(rate_rules)) ->
     good (k rules w').2.(db) /\ cached (k rules w').2.(caches)) ->
  good (bind list_rate_rules k w).2.(db) /\ cached (bind list_rate_rules k w).2.(caches).
Proof.
  intros Hg Hc Hk. unfold list_rate_rules, read_config, query, stmt, bind. destruct (default false _); cbn [snd]; [done|]. by apply Hk.
Qed.
Lemma keeps_update_rate_limit now actor rid q : sound (update_rate_limit json_text cfg now actor rid q).
Proof.
  unfold update_rate_limit. refine (keeps_ensured _ _ _ _). intros Hsc. refine (keeps_ensured _ _ _ _). intros Hcc w Hg Hc.
  apply holds_list; [done..|]. clear w Hg Hc. intros rules w Hg Hc ->.
  destruct (List.find _ _) as [old|] eqn:Ef; [|done]. cbn [found]. rewrite !bind_ret. apply List.find_some in Ef as [Hin Hid].
  apply list_elem_of_In in Hin. rewrite sort_by_key_perm in Hin. apply rows_elem in Hin as [i Hi].
  destruct (ck_rules _ _ Hg _ _ Hi) as (Hi' & Hlt & Hs & Hpos & Hsp). assert (i = rid) as -> by lia.
  destruct (new_target (rl_data old) q) as [sc sid] eqn:Et. apply keeps_after_target; [done..|]. intros w' Ed Hc' Hspare.
  destruct (given normalize_rule_model (lp_model q)) as [model|e]; [|by cbn; rewrite Ed]. cbn [lift]. rewrite !bind_ret.
  assert (Hup : good (update_rule_row now rid (trim <$> lp_scope q) sid model (lp_concurrency q) (lp_enabled q) w').2.(db) /\
                cached (update_rule_row now rid (trim <$> lp_scope q) sid model (lp_concurrency q) (lp_enabled q) w').2.(caches)).
  { unfold update_rule_row, checked_config, on_config, bind, stmt. destruct (default false _); cbn; [by rewrite Ed|]. rewrite Ed, Hi. cbv zeta.
    destruct (rule_row_ok _); cbn; [|by destruct Hg; split]. split; [|done]. apply ok_put_rule; [done..| |exact Hg].
    injection Et as <- <-. split_and!; cbn.
    - destruct (lp_scope q) as [sc'|]; [|done]. by eapply bool_decide_eq_true_1.
    - destruct (lp_concurrency q); [cbn; lia|done].
    - exact Hspare. }
  destruct Hup. apply (holds_at good cached); [done..|]. run.
Qed.
Lemma keeps_delete_rate_limit actor rid : sound (delete_rate_limit json_text actor rid).
Proof.
  unfold delete_rate_limit, delete_rule_row. run. apply keeps_on_config. intros us t [H1 H2 H3 H4 H5 H6 H7]. split; cbn; [done..| |done|done|done].
  intros i r [_ Hi]%lookup_delete_Some. by apply H4.
Qed.
Lemma keeps_create_price actor model inp out currency from : sound (create_price json_text numeric actor model inp out currency from).
Proof.
  unfold create_price, insert_price, read_config. cbv zeta. run. apply keeps_checked_config. intros us t x t' E Ht.
  destruct (numeric_opt numeric inp); [|done]. destruct (numeric_opt numeric out); [|done]. cbn in E. destruct (_ && _); [|done]. injection E as _ <-.
  eapply (ok_advance us t 0 0 0 0 1 0) in Ht as [H1 H2 H3 H4 H5 H6 H7]; [|lia..]. by split.
Qed.
Lemma keeps_delete_price actor pid : sound (delete_price json_text actor pid).
Proof. unfold delete_price, delete_price_row. run. apply keeps_on_config. intros us t [H1 H2 H3 H4 H5 H6 H7]. by split. Qed.

(** **** Models *)

Lemma keeps_update_model_row f mid :
  (forall r, (f r).(mo_id) = r.(mo_id) /\ (f r).(mo_provider) = r.(mo_provider) /\ (f r).(mo_model) = r.(mo_model)) ->
  (forall r, model_sound r -> model_sound (f r)) -> sound (update_model_row f mid).
Proof.
  intros Hf Hs. unfold update_model_row, get_model, read_config. run. apply keeps_on_config. intros us t Ht. by apply ok_alter_model.
Qed.
Lemma keeps_apply_field {A} (stored : A -> M (option AdminModel)) b actor action told mid o :
  (forall a, o = Some a -> sound (stored a)) -> sound (apply_field json_text actor stored b action told mid o).
Proof. intros H. unfold apply_field. run. Qed.
Lemma keeps_update_model actor mid q : sound (update_model json_text actor mid q).
Proof.
  unfold update_model, get_model, read_config. refine (sound_lifted _ _ _). intros [[ctx cap] out] E.
  apply model_patch_ok in E as (Hc & Ho & Hk). run; apply keeps_apply_field; intros x Hx; apply keeps_update_model_row; try done;
    intros r [R1 R2 R3]; split; cbn; try done.
  - intros n Hn. subst. cbn in Hc. apply andb_true_iff in Hc. lia.
  - intros c Hn. subst. by apply Hk.
  - intros n Hn. subst. cbn in Ho. apply andb_true_iff in Ho. lia.
Qed.
Lemma keeps_delete_model actor mid : sound (delete_model json_text actor mid).
Proof.
  unfold delete_model, delete_model_row. run. apply keeps_on_config. intros us t Ht. apply ok_fewer_models; [apply delete_subseteq|done].
Qed.

Lemma has_model_false t pid m i r : has_model t pid m = false -> t.(models) !! i = Some r -> r.(mo_provider) = pid -> r.(mo_model) <> m.
Proof.
  intros H Hi Hp Hm. apply not_true_iff_false in H. apply H, existsb_exists. exists r. split; [apply list_elem_of_In, rows_elem; by exists i|].
  rewrite bool_decide_true by done. apply andb_true_iff. lia.
Qed.
Lemma ok_insert_model us now pid m t a t' : insert_model now pid m t = Some (a, t') -> config_ok us t -> config_ok us t'.
Proof.
  unfold insert_model. destruct (has_model t pid m) eqn:Eh; [by intros [= _ <-]|]. case_bool_decide as Hp; [|done]. intros [= _ <-] Ht.
  apply (ok_advance us t 0 0 1 0 0 0) in Ht as Ha; [|lia..]. destruct Ha as [H1 H2 [H3 H3'] H4 H5 H6 H7]. split; cbn; [done..| |done|done|done|done].
  destruct (ck_models _ _ Ht) as [Hm _]. split.
  - intros i r [[<- <-]|[_ Hi]]%lookup_insert_Some; [|by apply H3]. cbn. split_and!; [done|lia|done|]. by split.
  - intros i j r q [[<- <-]|[Hi Hr]]%lookup_insert_Some [[<- <-]|[Hj Hq]]%lookup_insert_Some E1 E2; [done|..|by eapply H3'].
    + cbn in E1, E2. by destruct (has_model_false _ _ _ _ _ Eh Hq).
    + cbn in E1, E2. by destruct (has_model_false _ _ _ _ _ Eh Hr).
Qed.
Lemma plain_route_sound pid m : route_sound (plain_route pid m).
Proof. split; cbn; [by exists []|done..]. Qed.
Lemma keeps_sync_model now pid patterns m : sound (sync_model now pid patterns m).
Proof.
  unfold sync_model. run.
  - apply keeps_checked_config. intros us t a t' E. by eapply ok_insert_model.
  - apply keeps_on_config. intros us t Ht. apply ok_map_routes; [|done]. intros r. unfold turn_on. by destruct (is_off_route pid m r).
  - apply keeps_insert_route, plain_route_sound.
Qed.
Lemma keeps_sync_models now pid patterns ms : sound (sync_models now pid patterns ms).
Proof. induction ms as [|m ms IH]; cbn [sync_models]; run. apply keeps_sync_model. Qed.
Lemma keeps_store_models now actor pid ms : sound (store_models json_text now actor pid ms).
Proof.
  unfold store_models, replace_provider_models, read_config. run.
  - apply keeps_on_config. intros us t Ht. apply ok_fewer_models; [apply map_filter_subseteq|done].
  - apply keeps_sync_models.
Qed.
#[local] Hint Resolve keeps_store_models : config_runs.
Lemma keeps_test_connection now actor up address key pid :
  sound (test_connection json_text decrypt status_text parse_json now actor up address key pid).
Proof. unfold test_connection, connection_key, find_provider, read_config. cbv zeta. run. Qed.
Lemma keeps_refresh_models now actor up : sound (refresh_models json_text decrypt status_text parse_json now actor up).
Proof.
  assert (H : forall l, sound (refresh_all json_text decrypt status_text parse_json now actor up l)).
  { induction l as [|r l IH]; cbn [refresh_all]; cbv zeta; run. }
  unfold refresh_models, list_providers, read_config. run.
Qed.

(** **** Settings and access rules *)

Lemma keeps_on_settings f : (forall x, settings_ok x -> settings_ok (f x)) -> sound (on_settings f).
Proof. intros Hf. apply keeps_on_config. intros us t [H1 H2 H3 H4 H5 H6 H7]. split; try done. by apply Hf. Qed.
Lemma keeps_set_conf f :
  (forall c, (f c).(c_providers) = c.(c_providers) /\ (f c).(c_routes) = c.(c_routes) /\ (f c).(c_headers) = c.(c_headers) /\ (f c).(c_rules) = c.(c_rules)) -> sound (set_conf f).
Proof. intros Hf. apply holds_caches. intros c [C1 C2 C3 C4 C5]. destruct (Hf c.(conf)) as (E1 & E2 & E3 & E4). by split; cbn; rewrite ?E1, ?E2, ?E3, ?E4. Qed.
Lemma keeps_put_extra_body actor b : sound (put_extra_body_settings actor b).
Proof. unfold put_extra_body_settings, log_settings. run; [by apply keeps_on_settings|by apply keeps_set_conf]. Qed.
Lemma keeps_put_messages actor m : sound (put_message_settings actor m).
Proof. unfold put_message_settings, log_settings. run; [by apply keeps_on_settings|by apply keeps_set_conf]. Qed.
Lemma keeps_put_endpoints actor e : sound (put_api_endpoint_settings actor e).
Proof. unfold put_api_endpoint_settings. run; [by apply keeps_on_settings|by apply keeps_set_conf]. Qed.
Lemma keeps_put_headers actor u r : sound (put_header_settings json_text header_name header_value name_error value_error actor u r).
Proof.
  unfold put_header_settings, log_settings. run;
    match goal with H : checked_header_settings _ _ _ _ _ _ _ = Ok _ |- _ => apply checked_header_settings_ok in H as [Hu Hr] end.
  - apply keeps_on_settings. intros x _. by split.
  - apply holds_caches. intros c [C1 C2 C3 C4 C5]. by split.
Qed.
Lemma keeps_insert_all_access user rules : sound (insert_all_access user rules).
Proof.
  induction rules as [|[p m] rules IH]; cbn [insert_all_access]; run. apply holds_stmt. intros s Hs. unfold insert_access. cbv zeta.
  destruct (existsb _ _); [by destruct Hs; split|]. destruct (_ && _) eqn:E; [|done]. apply andb_true_iff in E as [[Hu Hp]%andb_true_iff _].
  cbn [snd]. apply (ok_advance _ _ 0 0 0 0 0 1) in Hs as [H1 H2 H3 H4 H5 H6 H7]; [|lia..]. split; cbn; [done..| |done|done].
  intros i r [[<- <-]|[_ Hi]]%lookup_insert_Some; [|exact (H5 i r Hi)]. cbn in *. split; [by eapply bool_decide_eq_true_1|]. intros q ->.
  by eapply bool_decide_eq_true_1.
Qed.
Lemma keeps_put_user_access actor user l : sound (put_user_access json_text cfg actor user l).
Proof.
  assert (Hp : sound (access_pairs l)) by (induction l as [|[p m] l IH]; cbn [access_pairs]; cbv zeta; run).
  unfold put_user_access, target_user, find_by_id, ensure_not_protected, replace_user_access, read_config. run.
  - apply keeps_on_config. intros us t [H1 H2 H3 H4 H5 H6 H7]. split; cbn; [done..| |done|done]. intros i r [Hi _]%map_lookup_filter_Some. exact (H5 i r Hi).
  - apply keeps_insert_all_access.
  - intros w. done.
Qed.
End histories.

(** ** Histories *)

Section steps.
Context (json_text : Value -> string) (header_name header_value : string -> option string) (name_error value_error : string -> string).
Context (encrypt : string -> result string string) (decrypt : string -> option string) (numeric : F64.t -> option F64.t).
Context (status_text : Z -> string) (parse_json : string -> result Value string).

(** The administration in any order, at any time, with any answers of the upstreams and any failures, and the periodic
    reload; the other tables and caches may change in between, as long as no user is lost. *)
Inductive step : World -> World -> Prop :=
| step_env w s fs rs cs :
    s.(config) = w.(db).(config) -> (forall u row, w.(db).(users) !! u = Some row -> exists row', s.(users) !! u = Some row' /\ row'.(username) = row.(username)) ->
    cs.(conf) = w.(caches).(conf) ->
    step w {| db := s; faults := fs; entropy := rs; caches := cs |}
| step_reload w : step w (reload json_text w).2
| step_create_provider now actor r w : step w (create_provider json_text encrypt now actor r w).2
| step_update_provider actor pid q w : step w (update_provider json_text encrypt actor pid q w).2
| step_delete_provider actor pid w : step w (delete_provider json_text actor pid w).2
| step_create_route actor r w : step w (create_route json_text actor r w).2
| step_update_route actor rid q w : step w (update_route json_text actor rid q w).2
| step_delete_route actor rid w : step w (delete_route json_text actor rid w).2
| step_create_rate_limit now actor r w : step w (create_rate_limit json_text cfg now actor r w).2
| step_update_rate_limit now actor rid q w : step w (update_rate_limit json_text cfg now actor rid q w).2
| step_delete_rate_limit actor rid w : step w (delete_rate_limit json_text actor rid w).2
| step_create_price actor model inp out currency from w : step w (create_price json_text numeric actor model inp out currency from w).2
| step_delete_price actor pid w : step w (delete_price json_text actor pid w).2
| step_update_model actor mid q w : step w (update_model json_text actor mid q w).2
| step_delete_model actor mid w : step w (delete_model json_text actor mid w).2
| step_test_connection now actor up address key pid w :
    step w (test_connection json_text decrypt status_text parse_json now actor up address key pid w).2
| step_refresh_models now actor up w : step w (refresh_models json_text decrypt status_text parse_json now actor up w).2
| step_put_extra_body actor b w : step w (put_extra_body_settings actor b w).2
| step_put_messages actor m w : step w (put_message_settings actor m w).2
| step_put_headers actor u r w : step w (put_header_settings json_text header_name header_value name_error value_error actor u r w).2
| step_put_endpoints actor e w : step w (put_api_endpoint_settings actor e w).2
| step_put_access actor user l w : step w (put_user_access json_text cfg actor user l w).2.

Lemma step_sound w w' : step w w' -> good w.(db) -> cached w.(caches) -> good w'.(db) /\ cached w'.(caches).
Proof.
  intros Hs Hg Hc. destruct Hs as [w s fs rs cs Ec Hu Ecs| | | | | | | | | | | | | | | | | | | | |].
  - destruct Hg as [H1 H2 H3 H4 H5 H6 H7], Hc as [C1 C2 C3 C4 C5]. cbn. split; [split; cbn|split; by rewrite Ecs]; rewrite ?Ec; try done.
    + intros i r Hi. destruct (H5 i r Hi) as [[row Hrow] ?]. split; [|done]. destruct (Hu _ _ Hrow) as (row' & ? & _). by exists row'.
    + destruct H7 as (row & Hrow & Hp). destruct (Hu _ _ Hrow) as (row' & Hrow' & En). exists row'. split; [done|]. by rewrite En.
  - by apply sound_reload.
  - by apply keeps_create_provider.
  - by apply keeps_update_provider.
  - by apply keeps_delete_provider.
  - by apply keeps_create_route.
  - by apply keeps_update_route.
  - by apply keeps_delete_route.
  - by apply keeps_create_rate_limit.
  - by apply keeps_update_rate_limit.
  - by apply keeps_delete_rate_limit.
  - by apply keeps_create_price.
  - by apply keeps_delete_price.
  - by apply keeps_update_model.
  - by apply keeps_delete_model.
  - by apply keeps_test_connection.
  - by apply keeps_refresh_models.
  - by apply keeps_put_extra_body.
  - by apply keeps_put_messages.
  - by apply keeps_put_headers.
  - by apply keeps_put_endpoints.
  - by apply keeps_put_user_access.
Qed.
Lemma history_sound w w' : rtc step w w' -> good w.(db) -> cached w.(caches) -> good w'.(db) /\ cached w'.(caches).
Proof. induction 1 as [w|w1 w2 w3 Hs _ IH]; [done|]. intros Hg Hc. destruct (step_sound _ _ Hs Hg Hc). by apply IH. Qed.

(** C34: whatever the administrators and the upstreams do and whichever statement fails, the configuration stays sound: a
    provider has an admissible scheme, extra body and headers, names of providers are unique, every route, model and
    access rule refers to a provider that exists, and routes, models and rules hold admissible values; and so do the
    providers, routes and headers that requests read. (The installation is one with a protected administrator, whose
    account exists from the start and stays.) *)
Theorem configuration_stays_sound w w' : good w.(db) -> cached w.(caches) -> rtc step w w' -> good w'.(db) /\ cached w'.(caches).
Proof. intros Hg Hc Hs. by apply (history_sound w). Qed.
End steps.

End configuration.

(** ** Credentials *)

Definition is_credential (kv : string * string) : bool := bool_decide (kv.1 = "authorization") || bool_decide (kv.1 = "x-api-key").
Definition credentials (b : option Rectify.headers) : option Rectify.headers := List.filter is_credential <$> b.

Section credentials.
Context (header_name header_value to_str : string -> option string).
(** [HeaderName::from_str] gives the name in lower case. *)
Hypothesis header_name_lower : forall s n, header_name s = Some n -> n = to_ascii_lowercase s.
Context (p : Provider) (key request_id : string) (e : Endpoint) (custom : list (string * Value)) (inject : bool) (limit : Z).

Lemma credentials_app b h : Forall (fun kv => is_credential kv = false) h -> credentials (h0 ← b; Some (h0 ++ h)) = credentials b.
Proof.
  intros Hh. destruct b as [h0|]; [|done]. cbn. rewrite List.filter_app. replace (List.filter is_credential h) with (@nil (string * string)); [by rewrite app_nil_r|].
  symmetry. induction Hh as [|kv h Hk _ IH]; cbn; [done|]. by rewrite Hk.
Qed.
Lemma credentials_put n v b : is_credential (n, v) = false -> credentials (put n v b) = credentials b.
Proof. intros H. unfold put. apply credentials_app. by constructor. Qed.
(** A step that adds no credential, if it succeeds. *)
Definition adds_none (f : option Rectify.headers -> option Rectify.headers) : Prop := forall b h, f b = Some h -> credentials (f b) = credentials b.
Lemma credentials_put_str n s : is_credential (n, "") = false -> adds_none (put_str header_value n s).
Proof.
  intros Hn b h. unfold put_str. destruct b as [h0|]; [|done]. cbn. destruct (header_value s) as [v|]; [|done]. cbn. intros _.
  apply (credentials_app (Some h0) [(n, v)]). by constructor.
Qed.
Lemma passed_none client : adds_none (passed_headers p client).
Proof.
  intros b h _. unfold passed_headers. revert b.
  assert (Hl : Forall (fun n => is_credential (n, "") = false) CLIENT_HEADER_PASSTHROUGH) by (apply (bool_decide_unpack _); vm_compute; exact I).
  induction Hl as [|n l Hn Hl IH]; intros b; [done|]. cbn [foldl]. rewrite IH. unfold passed_header.
  destruct (_ && _); [done|]. destruct (header_of n client); [by apply credentials_put|done].
Qed.
Lemma starts_with_head n s : starts_with "x-stainless-" n = true -> s ∈ ["authorization"; "x-api-key"] -> n <> s.
Proof.
  intros (r & ->)%starts_with_spec Hs. repeat (apply elem_of_cons in Hs as [->|Hs]; [done|]). by apply elem_of_nil in Hs.
Qed.
Lemma stainless_none client : adds_none (stainless_headers client).
Proof.
  intros b h _. unfold stainless_headers. apply credentials_app. apply Forall_forall. intros [n v] Hn.
  apply list_elem_of_In, List.filter_In in Hn as [_ Hn]. cbn in Hn. unfold is_stainless in Hn. unfold is_credential. cbn [fst].
  rewrite !bool_decide_false; [done|..]; (apply starts_with_head; [done|set_solver]).
Qed.
Lemma custom_none : clean_settings UPSTREAM_HEADER_BLOCKLIST (VObject custom) -> adds_none (custom_headers header_name header_value custom).
Proof.
  intros (o & [= <-] & Hc) b h _. unfold custom_headers. apply credentials_app. apply Forall_forall. intros [n v] (kv & Hkv & Hin)%list_elem_of_omap.
  unfold custom_header in Hin. destruct (as_str kv.2) as [s|]; [|done]. cbn in Hin. destruct (header_name kv.1) as [n'|] eqn:En; [|done]. cbn in Hin.
  destruct (header_value s); [|done]. injection Hin as <- <-. apply header_name_lower in En as ->. unfold is_credential. cbn [fst].
  rewrite Forall_forall in Hc. destruct (Hc _ Hkv) as [Hb _]. rewrite Forall_forall in Hb.
  rewrite !bool_decide_false; [done|..]; [apply (Hb "x-api-key")|apply (Hb "authorization")]; set_solver.
Qed.
Lemma channel_none : clean_headers p.(extra_headers) -> adds_none (channel_headers header_name header_value p).
Proof.
  intros (o & Ho & Hc) b h. unfold channel_headers. rewrite Ho. clear Ho. revert b. induction Hc as [|kv o [Hk [s Hs]] Ho IH]; intros b; cbn [foldl]; [done|].
  intros Hh. rewrite IH by done. unfold extra_header in *. rewrite Hs in *. cbn [as_str] in *. destruct b as [h0|]; [|done]. cbn in *.
  destruct (header_name kv.1) as [n|] eqn:En; cbn in *; [|exfalso; clear -Hh; induction o as [|kv' o IH]; [done|]; cbn in Hh; by destruct (as_str kv'.2)].
  destruct (header_value s) as [v|]; cbn in *; [|exfalso; clear -Hh; induction o as [|kv' o IH]; [done|]; cbn in Hh; by destruct (as_str kv'.2)].
  apply header_name_lower in En as ->. apply (credentials_app (Some h0) [(to_ascii_lowercase kv.1, v)]). constructor; [|done]. unfold is_credential. cbn [fst].
  rewrite !bool_decide_false; [done|..]; (intros E; apply Hk; rewrite E; set_solver).
Qed.

Lemma fold_none {A} (f : option Rectify.headers -> A -> option Rectify.headers) l : (forall a, f None a = None) -> foldl f None l = None.
Proof. intros Hf. induction l as [|a l IH]; cbn; [done|]. by rewrite Hf. Qed.
Definition quiet (f : option Rectify.headers -> option Rectify.headers) : Prop := f None = None /\ adds_none f.
Lemma quiet_comp f g : quiet f -> quiet g -> quiet (fun b => g (f b)).
Proof.
  intros [F1 F2] [G1 G2]. split; [by rewrite F1|]. intros b h Hh. rewrite (G2 _ h Hh). destruct (f b) as [h1|] eqn:E; [|by rewrite G1 in Hh].
  rewrite <-E. by apply (F2 b h1).
Qed.
Lemma quiet_put n v : is_credential (n, v) = false -> quiet (put n v).
Proof. intros H. split; [done|]. intros b h _. by apply credentials_put. Qed.
Lemma quiet_version client : quiet (version_header header_value to_str p client).
Proof. unfold version_header. destruct (anthropic_native p); [|done]. split; [done|]. by apply credentials_put_str. Qed.
Lemma quiet_beta wants client : quiet (beta_header header_value to_str p inject wants client).
Proof.
  unfold beta_header. destruct (anthropic_native p); [|done]. case_bool_decide; [done|]. split; [done|]. by apply credentials_put_str.
Qed.
Lemma quiet_accept streamed client : quiet (accept_header streamed client).
Proof. unfold accept_header. destruct streamed; by apply quiet_put. Qed.

Lemma request_credentials streamed wants body client h :
  clean_settings UPSTREAM_HEADER_BLOCKLIST (VObject custom) -> clean_headers p.(extra_headers) ->
  (upstream_request header_name header_value to_str p key e request_id custom inject limit streamed wants body client).(req_headers) = Some h ->
  credentials (Some h) = credentials (auth_header header_value p key (Some [])).
Proof.
  intros Hc He. unfold upstream_request. cbv zeta. cbn [req_headers].
  assert (Hp : quiet (passed_headers p client)).
  { split; [|apply passed_none]. apply fold_none. intros n. unfold passed_header. destruct (_ && _); [done|]. by destruct (header_of n client). }
  assert (Hch : quiet (channel_headers header_name header_value p)).
  { split; [|by apply channel_none]. unfold channel_headers. destruct (as_object _); [|done]. apply fold_none. intros kv. unfold extra_header.
    by destruct (as_str kv.2). }
  pose proof (quiet_comp _ _ (quiet_put "content-type" "application/json" eq_refl) (quiet_put "x-request-id" request_id eq_refl)) as Hq.
  pose proof (quiet_comp _ _ (quiet_comp _ _ Hq (quiet_version client)) Hp) as Hq1. clear Hq.
  pose proof (quiet_comp _ _ (quiet_comp _ _ Hq1 (quiet_beta wants client)) (conj eq_refl (stainless_none client))) as Hq2. clear Hq1.
  pose proof (quiet_comp _ _ (quiet_comp _ _ Hq2 (conj eq_refl (custom_none Hc))) Hch) as Hq3. clear Hq2.
  pose proof (quiet_comp _ _ Hq3 (quiet_accept streamed client)) as Hq.
  intros Hh. rewrite <-Hh. exact (proj2 Hq _ h Hh).
Qed.
End credentials.
