(* ===== verification/ConfigEffects.v ===== *)
(** * What the configuration means for requests

The configuration that the operations of [ConfigAdmin] can produce, read by a request: the credentials a provider is sent,
the rules that apply to the protected administrator, and the routes of the models an upstream has listed. *)

From S2P Require Import Prelude Float Json Errors RateLimit Routing Calendar Plans Metering Body Streams Chat AnthropicResponse ErrorShape.
From S2P Require Import Upstream ConfigTables Database PlanConfig ConfigStore Accounts ConfigAdmin ConfigHistory.

Local Open Scope Z_scope.

(** ** Histories of the configuration *)

Section histories.
Context (json_text : Value -> string) (header_name header_value : string -> option string) (name_error value_error : string -> string).
Context (encrypt : string -> result string string) (decrypt : string -> option string) (numeric : F64.t -> option F64.t).
Context (status_text : Z -> string) (parse_json : string -> result Value string) (cfg : AuthConfig) (root : Z).
Local Abbreviation step := (step cfg json_text header_name header_value name_error value_error encrypt decrypt numeric status_text parse_json).

(** In every configuration that can arise, whatever headers the client sends and the operator and the channel
    configure, a request to a provider carries exactly one credential: the key of the provider, in the header of its
    scheme. [HeaderName::from_str] is taken to give names in lower case. *)
Theorem provider_key_alone to_str w w' p key e request_id inject limit streamed wants body client h :
  (forall s n, header_name s = Some n -> n = to_ascii_lowercase s) ->
  good cfg root w.(db) -> cached root w.(caches) -> rtc step w w' -> p ∈ w'.(caches).(conf).(c_providers) ->
  (upstream_request header_name header_value to_str p key e request_id w'.(caches).(conf).(c_headers).(hs_upstream) inject limit
     streamed wants body client).(req_headers) = Some h ->
  exists v, header_value (if x_api_key p then key else "Bearer " +:+ key) = Some v /\
    List.filter is_credential h = [(if x_api_key p then "x-api-key" else "authorization", v)].
Proof.
  intros Hl Hg Hc Hs Hp Hh. destruct (history_sound _ _ _ _ _ _ _ _ _ _ _ _ _ _ Hs Hg Hc) as [_ [C1 C2 C3 C4 C5]].
  rewrite Forall_forall in C1. apply (request_credentials header_name header_value to_str Hl) in Hh; [|done|by apply C1].
  unfold auth_header, put_str in Hh. destruct (x_api_key p); cbn in Hh;
    match type of Hh with context [header_value ?x] => destruct (header_value x) as [v|]; [|done] end; cbn in Hh; injection Hh as ->; by exists v.
Qed.

(** C35: no rule for single users that the administration can set up ever limits the protected administrator: of the
    rules that requests are checked against, those that apply to it are the global ones, the one for every user and those
    of keys. Requests of the administration are taken one after the other. *)
Theorem admin_not_targeted w w' r key model m limit :
  good cfg root w.(db) -> cached root w.(caches) -> rtc step w w' -> r ∈ w'.(caches).(conf).(c_rules) ->
  match_rule r (Some root) key model = Some (m, limit) ->
  r.(scope) = "global" \/ (r.(scope) = "user" /\ r.(scope_id) = None) \/ (r.(scope) = "api_key" /\ r.(scope_id) = key).
Proof.
  intros Hg Hc Hs Hr Hm. destruct (history_sound _ _ _ _ _ _ _ _ _ _ _ _ _ _ Hs Hg Hc) as [_ [C1 C2 C3 C4 C5]].
  rewrite Forall_forall in C5. specialize (C5 _ Hr). unfold match_rule, scope_key in Hm.
  case_bool_decide as E1; [by left|]. case_bool_decide as E2; [right; left|case_bool_decide as E3; [right; right|done]]; (split; [done|]).
  - destruct (scope_id r) as [u|] eqn:Eu; [|done]. cbn in Hm. case_bool_decide as E; [|done]. subst u. by destruct (C5 E2).
  - destruct key as [k|]; [|done]. cbn in Hm. by case_bool_decide.
Qed.
End histories.

(** ** The models of an upstream *)

Lemma on_config_ok {A} (f : ConfigTables -> A * ConfigTables) w a :
  (on_config f w).1 = Ok a -> a = (f w.(db).(config)).1 /\ (on_config f w).2.(db) = set_config (f w.(db).(config)).2 w.(db).
Proof. unfold on_config, stmt. destruct (default false _); [done|]. destruct (f _) as [x t]. cbn. by intros [= <-]. Qed.
Lemma checked_config_ok {A} (f : ConfigTables -> option (A * ConfigTables)) w a :
  (checked_config f w).1 = Ok a -> exists t, f w.(db).(config) = Some (a, t) /\ (checked_config f w).2.(db) = set_config t w.(db).
Proof.
  intros H. unfold checked_config in *. apply bind_ok in H as (x & Hx & H & E). apply on_config_ok in Hx as [Ex Ed]. rewrite E.
  destruct (f (config (db w))) as [[y t]|]; cbn [fst snd] in *; subst x; [|done]. injection H as <-. exists t. split; [done|]. exact Ed.
Qed.

(** What adding models does to the tables: routes that are on stay, models stay, and new models are those listed. *)
Record grown (pid : Z) (ms : list string) (t t' : ConfigTables) : Prop := {
  gr_routes : forall i r, t.(model_routes) !! i = Some r -> r.(ro_enabled) = true -> t'.(model_routes) !! i = Some r;
  gr_kept : forall i r, t.(models) !! i = Some r -> t'.(models) !! i = Some r;
  gr_new : forall i r, t'.(models) !! i = Some r -> t.(models) !! i = Some r \/ (r.(mo_provider) = pid /\ r.(mo_model) ∈ ms);
}.
Lemma grown_refl pid ms t : grown pid ms t t.
Proof. split; [done|done|]. intros i r H. by left. Qed.
Lemma grown_trans pid l1 l2 t1 t2 t3 : grown pid l1 t1 t2 -> grown pid l2 t2 t3 -> grown pid (l1 ++ l2) t1 t3.
Proof.
  intros [A1 A2 A3] [B1 B2 B3]. split; [by eauto..|]. intros i r Hr. destruct (B3 i r Hr) as [H|[? ?]]; [|right; set_solver].
  destruct (A3 i r H) as [?|[? ?]]; [by left|right; set_solver].
Qed.

(** A model that some route which is on leads to. *)
Definition routed_on (t : ConfigTables) (m : string) : Prop :=
  exists i r, t.(model_routes) !! i = Some r /\ r.(ro_enabled) = true /\ matches_pattern r.(ro_data).(model_pattern) m = true.
Definition has_row (t : ConfigTables) (pid : Z) (m : string) : Prop :=
  exists i r, t.(models) !! i = Some r /\ r.(mo_provider) = pid /\ r.(mo_model) = m.
Lemma routed_grown pid ms t t' m : grown pid ms t t' -> routed_on t m -> routed_on t' m.
Proof. intros [G1 _ _] (i & r & Hr & He & Hm). exists i, r. split_and!; [by apply G1|done|done]. Qed.
Lemma has_row_grown pid ms t t' p m : grown pid ms t t' -> has_row t p m -> has_row t' p m.
Proof. intros [_ G2 _] (i & r & Hr & ? & ?). exists i, r. split_and!; [by apply G2|done|done]. Qed.
Lemma exact_match m : matches_pattern m m = true.
Proof. apply matches_pattern_spec. by left. Qed.
Lemma resolve_some routes m : (exists r, r ∈ routes /\ matches_pattern r.(model_pattern) m = true) -> is_Some (resolve_route routes m).
Proof.
  intros (r & Hr & Hm). unfold resolve_route. destruct (List.find _ routes) as [x|]; [by eexists|].
  destruct (List.find (fun r => matches_pattern _ m) routes) as [x|] eqn:E; [by eexists|].
  eapply List.find_none in E; [|by apply list_elem_of_In]. cbn in E. congruence.
Qed.

Section models.
Context (cfg : AuthConfig) (root : Z) (now : Z) (pid : Z).

Lemma insert_model_grown us m t a t' :
  config_ok cfg root us t -> insert_model now pid m t = Some (a, t') ->
  grown pid [m] t t' /\ has_row t' pid m /\ t'.(model_routes) = t.(model_routes).
Proof.
  intros Ht. unfold insert_model. destruct (has_model t pid m) eqn:Eh.
  - intros [= _ <-]. split_and!; [apply grown_refl| |done]. apply existsb_exists in Eh as (r & [i Hr]%list_elem_of_In%rows_elem & He).
    apply andb_true_iff in He as [? ?%bool_decide_eq_true_1]. exists i, r. split_and!; [done|lia|done].
  - case_bool_decide; [|done]. intros [= _ <-].
    assert (Hfresh : t.(models) !! t.(model_seq) = None).
    { destruct (t.(models) !! t.(model_seq)) as [r|] eqn:E; [|done]. apply (proj1 (ck_models _ _ _ _ Ht)) in E as (_ & ? & _). lia. }
    split_and!; [split; cbn; [done|..]|eexists _, _; cbn; split_and!; [apply lookup_insert_eq|done|done]|done].
    + intros i r Hr. rewrite lookup_insert_ne; [done|congruence].
    + intros i r [[<- <-]|[_ Hr]]%lookup_insert_Some; [right; cbn; set_solver|by left].
Qed.
(** Every pattern is that of a route that is on. *)
Definition patterns_on (patterns : list string) (t : ConfigTables) : Prop :=
  forall q, q ∈ patterns -> exists i r, t.(model_routes) !! i = Some r /\ r.(ro_enabled) = true /\ r.(ro_data).(model_pattern) = q.
Lemma patterns_grown patterns ms t t' : grown pid ms t t' -> patterns_on patterns t -> patterns_on patterns t'.
Proof. intros [G _ _] Hp q Hq. destruct (Hp q Hq) as (i & r & Hr & He & Hm). exists i, r. split_and!; [by apply G|done|done]. Qed.

Lemma turn_on_grown m t : grown pid [m] t (set_routes (turn_on pid m <$> t.(model_routes)) t).
Proof.
  split; cbn; [|done|by left]. intros i r Hr He. rewrite lookup_fmap, Hr. cbn. unfold turn_on, is_off_route. rewrite He. cbn [negb]. by rewrite andb_false_r.
Qed.
Lemma turned_on m t :
  existsb (is_off_route pid m) (rows t.(model_routes)) = true -> routed_on (set_routes (turn_on pid m <$> t.(model_routes)) t) m.
Proof.
  intros (r & [i Hr]%list_elem_of_In%rows_elem & Ho)%existsb_exists. exists i, (turn_on pid m r). cbn. rewrite lookup_fmap, Hr.
  split; [done|]. unfold turn_on. rewrite Ho. split; [done|]. cbn. unfold is_off_route in Ho. apply andb_true_iff in Ho as [[Hm%bool_decide_eq_true_1 _]%andb_true_iff _].
  rewrite Hm. apply exact_match.
Qed.
Lemma insert_route_grown us m t a t' :
  config_ok cfg root us t ->
  write_route {| ro_id := t.(route_seq); ro_data := plain_route pid m; ro_priority := 100; ro_enabled := true |} (advance 0 1 0 0 0 0 t) = Some (a, t') ->
  grown pid [m] t t' /\ routed_on t' m.
Proof.
  intros Ht. unfold write_route. destruct (route_row_ok _ _); [|done]. intros [= _ <-]. split.
  - split; cbn; [|done|by left]. intros i r Hr _. rewrite lookup_insert_ne; [done|]. apply (ck_routes _ _ _ _ Ht) in Hr as (_ & ? & _). lia.
  - eexists _, _. cbn. split_and!; [apply lookup_insert_eq|done|]. apply exact_match.
Qed.

Lemma sync_model_ok patterns m w :
  good cfg root w.(db) -> cached root w.(caches) -> patterns_on patterns w.(db).(config) -> (sync_model now pid patterns m w).1 = Ok tt ->
  let w' := (sync_model now pid patterns m w).2 in
  (good cfg root w'.(db) /\ cached root w'.(caches)) /\
  grown pid [m] w.(db).(config) w'.(db).(config) /\ routed_on w'.(db).(config) m /\ has_row w'.(db).(config) pid m.
Proof.
  intros Hg Hc Hp H. cbv zeta. split; [by apply (keeps_sync_model cfg root now pid patterns m w)|]. unfold sync_model in *.
  apply bind_ok in H as ([] & H1 & H & ->). destruct (keeps_checked_config cfg root (insert_model now pid m) ltac:(intros; by eapply ok_insert_model) w Hg Hc) as [Hg1 _].
  apply checked_config_ok in H1 as (t1 & E1 & D1). destruct (insert_model_grown _ _ _ _ _ Hg E1) as (G1 & R1 & Er).
  set (w1 := (checked_config (insert_model now pid m) w).2) in *. replace t1 with w1.(db).(config) in G1, R1, Er by (by rewrite D1).
  destruct (existsb _ patterns) eqn:Ep.
  - cbn. split_and!; [done| |done]. apply existsb_exists in Ep as (q & Hq%list_elem_of_In & Hm). destruct (Hp q Hq) as (i & r & Hr & He & <-).
    exists i, r. rewrite Er. split_and!; done.
  - apply bind_ok in H as (found & H2 & H & ->). apply on_config_ok in H2 as [-> D2]. cbn [fst snd] in *.
    destruct (keeps_on_config cfg root (fun t => (existsb (is_off_route pid m) (rows t.(model_routes)), set_routes (turn_on pid m <$> t.(model_routes)) t))
                ltac:(intros us t Ht; apply ok_map_routes; [|done]; intros r; unfold turn_on; by destruct (is_off_route pid m r))
                w1 Hg1 ltac:(unfold w1; by apply (keeps_checked_config cfg root (insert_model now pid m) ltac:(intros; by eapply ok_insert_model) w))) as [Hg2 _].
    set (w2 := (on_config _ w1).2) in *. pose proof (turn_on_grown m w1.(db).(config)) as G2.
    replace (set_routes _ (config (db w1))) with w2.(db).(config) in G2 by (by rewrite D2).
    destruct (existsb (is_off_route pid m) _) eqn:Eo.
    + cbn. apply turned_on in Eo. replace (set_routes _ (config (db w1))) with w2.(db).(config) in Eo by (by rewrite D2).
      split_and!; [by apply (grown_trans pid [m] [m] _ _ _ G1) in G2 as [? ? ?]; split; set_solver|done|by eapply has_row_grown].
    + apply bind_ok in H as (row & H3 & _ & ->). apply checked_config_ok in H3 as (t3 & E3 & D3). destruct (insert_route_grown _ _ _ _ _ Hg2 E3) as [G3 R3].
      cbn. unfold insert_route. rewrite D3. cbn [config set_config]. pose proof (grown_trans _ _ _ _ _ _ (grown_trans _ _ _ _ _ _ G1 G2) G3) as [A1 A2 A3].
      split_and!; [split; [done|done|set_solver]|done|]. eapply has_row_grown; [exact G3|]. by eapply has_row_grown.
Qed.

Lemma sync_models_ok patterns ms w :
  good cfg root w.(db) -> cached root w.(caches) -> patterns_on patterns w.(db).(config) -> (sync_models now pid patterns ms w).1 = Ok tt ->
  let t' := (sync_models now pid patterns ms w).2.(db).(config) in
  grown pid ms w.(db).(config) t' /\ forall m, m ∈ ms -> routed_on t' m /\ has_row t' pid m.
Proof.
  revert w. induction ms as [|m ms IH]; intros w Hg Hc Hp H; cbn [sync_models] in *; cbv zeta; [split; [apply grown_refl|by intros m ?%elem_of_nil]|].
  apply bind_ok in H as ([] & H1 & H & ->). destruct (sync_model_ok patterns m w Hg Hc Hp H1) as ([Hg1 Hc1] & G1 & R1 & M1).
  destruct (IH _ Hg1 Hc1 (patterns_grown _ _ _ _ G1 Hp) H) as [G2 Hall]. split; [exact (grown_trans _ [m] ms _ _ _ G1 G2)|].
  intros x [->|Hx]%elem_of_cons; [|by apply Hall]. split; [by eapply routed_grown|by eapply has_row_grown].
Qed.

Lemma patterns_on_enabled t : patterns_on (enabled_patterns t) t.
Proof. intros q (r & -> & [[i Hr]%rows_elem He]%filter_elem)%list_elem_of_fmap. by exists i, r. Qed.

(** The tables after the transaction that stores the models. *)
Lemma replaced_models ms w c :
  good cfg root w.(db) -> cached root w.(caches) -> (replace_provider_models now pid ms w).1 = Ok c ->
  let t' := (replace_provider_models now pid ms w).2.(db).(config) in
  (forall m, m ∈ ms -> routed_on t' m) /\ (forall m, m ∈ ms <-> has_row t' pid m) /\
  (forall i r, w.(db).(config).(models) !! i = Some r -> r.(mo_provider) <> pid \/ r.(mo_model) ∈ ms -> t'.(models) !! i = Some r).
Proof.
  intros Hg Hc H. cbv zeta. unfold replace_provider_models in *. apply transaction_ok_from in H as (w0 & Ew0 & Ec0 & H & ->).
  rewrite <-Ew0, <-Ec0 in *. clear Ew0 Ec0 w. apply bind_ok in H as ([] & H0 & H & ->).
  pose proof (proj2 (on_config_ok _ _ _ H0)) as D. cbn [snd] in D.
  match type of H0 with context [on_config ?f w0] => destruct (keeps_on_config cfg root f
    ltac:(intros us t Ht; apply ok_fewer_models; [apply map_filter_subseteq|done]) w0 Hg Hc) as [Hg1 Hc1] end.
  set (w1 := (on_config _ w0).2) in *. apply bind_ok in H as (ps & H1 & H & ->). destruct (query_ok _ _ _ H1) as (-> & E1 & E2).
  rewrite <-E1 in Hg1. rewrite <-E2 in Hc1. apply bind_ok in H as ([] & H & _ & ->).
  destruct (sync_models_ok _ _ _ Hg1 Hc1 ltac:(rewrite E1; apply patterns_on_enabled) H) as [[_ G2 G3] Hall]. cbn [snd ret].
  set (t' := config (db (sync_models _ _ _ _ _).2)) in *. rewrite E1, D in G2, G3. cbn [config set_config models set_models] in G2, G3.
  split_and!; [by apply Hall| |].
  - intros m. split; [by apply Hall|]. intros (i & r & Hr & Hp & <-). destruct (G3 i r Hr) as [[_ Hf]%map_lookup_filter_Some|[_ ?]]; [|done].
    cbn [snd] in Hf. rewrite (proj2 (Z.eqb_eq _ _) Hp) in Hf. cbn [andb] in Hf. by apply negb_false_iff, bool_decide_eq_true_1 in Hf.
  - intros i r Hr Hor. apply G2. apply map_lookup_filter_Some. split; [done|]. cbn [snd].
    destruct Hor as [Hn|Hin]; [by rewrite (proj2 (Z.eqb_neq _ _) Hn)|]. rewrite (bool_decide_eq_true_2 _ Hin). apply andb_false_r.
Qed.

(** What was written is what the caches then hold. *)
Lemma publish_ok json_text actor a b i d w :
  (publish json_text actor a b i d w).1 = Ok tt ->
  (publish json_text actor a b i d w).2.(db).(config) = w.(db).(config) /\
  (publish json_text actor a b i d w).2.(caches) = fresh_caches json_text w.(db).
Proof.
  intros H. unfold publish in *. apply bind_ok in H as ([] & H2 & H3 & ->). apply reload_ok in H2 as [Ec Ed]. rewrite <-Ec, <-Ed.
  unfold log, execute, stmt in H3 |- *. by destruct (default false _).
Qed.

(** C36: once the models an upstream lists have been stored for a provider, each of them resolves to a route for the next
    request, the provider has exactly the models listed, and the rows that were there before, with their switches and
    limits, are unchanged. (The configuration was sound before, in an installation with a protected administrator.) *)
Theorem listed_models_routed json_text actor ms w n w' :
  good cfg root w.(db) -> cached root w.(caches) -> store_models json_text now actor pid ms w = (Ok n, w') ->
  (forall m, m ∈ ms -> is_Some (resolve_route w'.(caches).(conf).(c_routes) m)) /\
  (forall m, m ∈ ms <-> has_row w'.(db).(config) pid m) /\
  (forall i r, w.(db).(config).(models) !! i = Some r -> r.(mo_provider) <> pid \/ r.(mo_model) ∈ ms -> w'.(db).(config).(models) !! i = Some r).
Proof.
  intros Hg Hc E. assert (H : (store_models json_text now actor pid ms w).1 = Ok n) by (by rewrite E).
  replace w' with (store_models json_text now actor pid ms w).2 by (by rewrite E). clear E w'. unfold store_models in *.
  apply bind_ok in H as (c & H1 & H & ->). apply bind_ok in H as ([] & H2 & _ & ->). apply publish_ok in H2 as [E1 E2].
  cbn [snd ret]. rewrite E1, E2. destruct (replaced_models _ _ _ Hg Hc H1) as (A1 & A2 & A3). split_and!; [|exact A2|exact A3].
  intros m Hm. destruct (A1 m Hm) as (i & r & Hr & He & Hq). apply resolve_some. exists r.(ro_data). split; [|done].
  apply load_routes_elem. by exists i, r.
Qed.
End models.
