(* ===== verification/PlanMembers.v ===== *)
(** * Members of plans and groups

[src/store/groups.rs], the membership half of [src/store/plans.rs], the directory synchronisation of
[src/service/plans.rs], and the handlers of [src/api/plans.rs] that use them. *)

From S2P Require Import Prelude Float Json Errors Routing Calendar Plans Metering Body Streams Chat AnthropicResponse ErrorShape Upstream ConfigTables Database.
From S2P Require Import PlanConfig Accounts.

Local Open Scope Z_scope.

(** ** Groups *)

Definition group_name_taken (t : PlanTables) (id : Z) (name : string) : bool :=
  existsb (fun kg => negb (kg.1 =? id) && bool_decide (kg.2.(g_name) = name)) (map_to_list t.(user_groups)).
Definition write_group (g : UserGroup) (t : PlanTables) : result unit Refusal * PlanTables :=
  if negb (fits 128 g.(g_name)) then (Err Violation, t)
  else if group_name_taken t g.(g_id) g.(g_name) then (Err NameTaken, t)
  else (Ok tt, set_groups (<[g.(g_id) := g]> t.(user_groups)) t).
Definition next_group_id (t : PlanTables) : PlanTables :=
  {| coding_plans := t.(coding_plans); user_groups := t.(user_groups); members := t.(members); plan_users := t.(plan_users);
     plan_groups := t.(plan_groups); plan_seq := t.(plan_seq); group_seq := t.(group_seq) + 1; notices := t.(notices) |}.

(** The row as it is read, with its plans in the order of their identifiers and the number of its members. *)
Record GroupRow : Type := { gr_group : UserGroup; gr_plans : list CodingPlan; gr_members : Z }.
Definition plans_of_group (t : PlanTables) (g : Z) : list CodingPlan :=
  sort_by_key cp_id (omap (fun pg => if pg.1.2 =? g then t.(coding_plans) !! pg.1.1 else None) (map_to_list t.(plan_groups))).
Definition members_of (t : PlanTables) (g : Z) : list (Z * Z * Member) := List.filter (fun m => m.1.1 =? g) (map_to_list t.(members)).
Definition group_row (t : PlanTables) (id : Z) : option GroupRow :=
  g ← t.(user_groups) !! id;
  Some {| gr_group := g; gr_plans := plans_of_group t id; gr_members := Z.of_nat (length (members_of t id)) |}.
Definition find_group (id : Z) : M (option GroupRow) := query (fun s => group_row s.(planning) id).

Section groups.
Context (now : Z).

Definition insert_group (name description : string) (ldap_sync : bool) : M (result (option GroupRow) Refusal) :=
  let! res := on_plans (fun t =>
    let id := t.(group_seq) in
    let '(r, t) := write_group {| g_id := id; g_name := name; g_description := description; g_ldap_sync := ldap_sync;
                                  g_last_sync_at := None; g_last_sync_result := ""; g_created_at := now; g_updated_at := now |} (next_group_id t) in
    ((id, r), t)) in
  match res.2 with
  | Err e => ret (Err e)
  | Ok _ => let! row := find_group res.1 in ret (Ok row)
  end.
Definition patched_group (name description : option string) (ldap_sync : option bool) (g : UserGroup) : UserGroup :=
  {| g_id := g.(g_id); g_name := default g.(g_name) name; g_description := default g.(g_description) description;
     g_ldap_sync := default g.(g_ldap_sync) ldap_sync; g_last_sync_at := g.(g_last_sync_at);
     g_last_sync_result := g.(g_last_sync_result); g_created_at := g.(g_created_at); g_updated_at := now |}.
Definition update_group_row (id : Z) (name description : option string) (ldap_sync : option bool) : M (result (option GroupRow) Refusal) :=
  let! res := on_plans (fun t =>
    match t.(user_groups) !! id with
    | None => (Ok false, t)
    | Some g => let '(r, t) := write_group (patched_group name description ldap_sync g) t in
                (match r with Ok _ => Ok true | Err e => Err e end, t)
    end) in
  match res with
  | Err e => ret (Err e)
  | Ok false => ret (Ok None)
  | Ok true => let! row := find_group id in ret (Ok row)
  end.
End groups.

Definition drop_group (id : Z) (t : PlanTables) : PlanTables :=
  set_plan_groups (filter (fun kv => (kv.1.2 =? id) = false) t.(plan_groups))
    (set_members (filter (fun kv => (kv.1.1 =? id) = false) t.(members)) (set_groups (delete id t.(user_groups)) t)).

Definition delete_group_row (id : Z) : M bool :=
  on_plans (fun t => match t.(user_groups) !! id with Some _ => (true, drop_group id t) | None => (false, t) end).

(** ** Members *)

Section members.
Context (now : Z).

(** [INSERT .. ON CONFLICT DO NOTHING]: the keys that are new are added; counts them. *)
Definition add_new {A} (mk : Z -> Z * Z) (a : A) (acc : Z * gmap (Z * Z) A) (x : Z) : Z * gmap (Z * Z) A :=
  match acc.2 !! mk x with
  | Some _ => acc
  | None => (acc.1 + 1, <[mk x := a]> acc.2)
  end.
Definition insert_new {A} (mk : Z -> Z * Z) (a : A) (ids : list Z) (m : gmap (Z * Z) A) : Z * gmap (Z * Z) A :=
  foldl (add_new mk a) (0, m) ids.

(** A statement that breaks a foreign key fails. *)
Definition checked {A} (f : Db -> option (A * PlanTables)) : M A :=
  let! r := stmt (fun s => match f s with
                           | Some (a, t) => (Some a, set_planning t s)
                           | None => (None, s)
                           end) in
  match r with Some a => ret a | None => throw db_error end.
Definition known {A} (m : gmap Z A) (ids : list Z) : bool := forallb (fun id => bool_decide (is_Some (m !! id))) ids.

Definition fresh_ids {A} (mk : Z -> Z * Z) (m : gmap (Z * Z) A) (ids : list Z) : list Z :=
  List.filter (fun x => bool_decide (m !! mk x = None)) ids.
(** Rows for a plan or a group [owner] and the members [ids]; [owners] and [targets] are the tables they refer to. *)
Definition join_rows {A B C} (owners : gmap Z A) (targets : gmap Z B) (owner : Z) (a : C) (ids : list Z) (m : gmap (Z * Z) C)
    : option (Z * gmap (Z * Z) C) :=
  let new := fresh_ids (pair owner) m ids in
  if bool_decide (new = []) || known owners [owner] && known targets new then Some (insert_new (pair owner) a ids m) else None.

Definition add_plan_users (plan : Z) (ids : list Z) : M Z :=
  if bool_decide (ids = []) then ret 0
  else checked (fun s => let t := s.(planning) in
         '(n, m) ← join_rows t.(coding_plans) s.(users) plan now ids t.(plan_users); Some (n, set_plan_users m t)).
Definition add_plan_groups (plan : Z) (ids : list Z) : M Z :=
  if bool_decide (ids = []) then ret 0
  else checked (fun s => let t := s.(planning) in
         '(n, m) ← join_rows t.(coding_plans) t.(user_groups) plan now ids t.(plan_groups); Some (n, set_plan_groups m t)).
(** Rows of [user_group_members] with a source. *)
Definition insert_members (source : string) (group : Z) (ids : list Z) (s : Db) : option (Z * PlanTables) :=
  let t := s.(planning) in
  '(n, m) ← join_rows t.(user_groups) s.(users) group {| m_source := source; m_added_at := now |} ids t.(members); Some (n, set_members m t).
Definition add_members_rows (group : Z) (ids : list Z) : M Z :=
  if bool_decide (ids = []) then ret 0 else checked (insert_members "manual" group ids).
Definition enabled_users (s : Db) : list Z := u_id <$> List.filter (fun u => u.(u_status) =? 1) ((map_to_list s.(users)).*2).
Definition add_all_users (group : Z) : M Z := checked (fun s => insert_members "all" group (enabled_users s) s).

(** [DELETE .. = ANY]: the rows of an owner with one of the members; counts them. *)
Definition remove_rows {A} (owner : Z) (p : Z -> A -> bool) (m : gmap (Z * Z) A) : Z * gmap (Z * Z) A :=
  let gone := fun kv : Z * Z * A => (kv.1.1 =? owner) && p kv.1.2 kv.2 in
  (Z.of_nat (length (List.filter gone (map_to_list m))), filter (fun kv => gone kv = false) m).
Definition among {A} (ids : list Z) (x : Z) (_ : A) : bool := bool_decide (x ∈ ids).
Definition remove_plan_users (plan : Z) (ids : list Z) : M Z :=
  if bool_decide (ids = []) then ret 0
  else on_plans (fun t => let '(n, m) := remove_rows plan (among ids) t.(plan_users) in (n, set_plan_users m t)).
Definition remove_plan_groups (plan : Z) (ids : list Z) : M Z :=
  if bool_decide (ids = []) then ret 0
  else on_plans (fun t => let '(n, m) := remove_rows plan (among ids) t.(plan_groups) in (n, set_plan_groups m t)).
Definition remove_members_rows (group : Z) (ids : list Z) : M Z :=
  if bool_decide (ids = []) then ret 0
  else on_plans (fun t => let '(n, m) := remove_rows group (among ids) t.(members) in (n, set_members m t)).

(** The identifiers that do not exist, and those that have joined already. *)
Definition missing {A} (m : gmap Z A) (ids : list Z) : list Z := List.filter (fun id => negb (bool_decide (is_Some (m !! id)))) ids.
Definition missing_user_ids (ids : list Z) : M (list Z) := query (fun s => missing s.(users) ids).
Definition missing_group_ids (ids : list Z) : M (list Z) := query (fun s => missing s.(planning).(user_groups) ids).
Definition already_joined {A} (owner : Z) (m : gmap (Z * Z) A) (ids : list Z) : list Z :=
  (fun kv => kv.1.2) <$> List.filter (fun kv => (kv.1.1 =? owner) && bool_decide (kv.1.2 ∈ ids)) (map_to_list m).
Definition existing_plan_user_ids (plan : Z) (ids : list Z) : M (list Z) :=
  if bool_decide (ids = []) then ret [] else query (fun s => already_joined plan s.(planning).(plan_users) ids).
Definition existing_plan_group_ids (plan : Z) (ids : list Z) : M (list Z) :=
  if bool_decide (ids = []) then ret [] else query (fun s => already_joined plan s.(planning).(plan_groups) ids).
Definition user_names (ids : list Z) : M (list (Z * string)) :=
  query (fun s => omap (fun id => u ← s.(users) !! id; Some (id, u.(username))) ids).
Definition group_names (ids : list Z) : M (list (Z * string)) :=
  query (fun s => omap (fun id => g ← s.(planning).(user_groups) !! id; Some (id, g.(g_name))) ids).

(** ** The directory *)

Record LdapUserEntry : Type := { e_username : string; e_dn : string; e_email : option string; e_display_name : option string }.

(** Fills the profile of a user, or creates it; rights, state and source stay. *)
Definition profile_of (e : LdapUserEntry) (u : UserRow) : UserRow :=
  {| u_id := u.(u_id); username := u.(username); email := or_else e.(e_email) u.(email);
     display_name := or_else e.(e_display_name) u.(display_name); ldap_dn := Some e.(e_dn); source := u.(source);
     password_hash := u.(password_hash); is_admin := u.(is_admin); u_status := u.(u_status); token_version := u.(token_version);
     last_login_at := u.(last_login_at); u_created_at := u.(u_created_at) |}.
Definition upsert_sync_user (e : LdapUserEntry) : M Z :=
  stmt (fun s =>
    match find_row (fun u => bool_decide (u.(username) = e.(e_username))) s with
    | Some u => (u.(u_id), set_users (<[u.(u_id) := profile_of e u]> s.(users)) s)
    | None =>
        let u := {| u_id := s.(user_seq); username := e.(e_username); email := e.(e_email); display_name := e.(e_display_name);
                    ldap_dn := Some e.(e_dn); source := "ldap"; password_hash := None; is_admin := false; u_status := 1;
                    token_version := 0; last_login_at := None; u_created_at := now |} in
        (u.(u_id), insert_user u s)
    end).

Definition is_ldap (ids : list Z) (x : Z) (m : Member) : bool := bool_decide (m.(m_source) = "ldap") && negb (bool_decide (x ∈ ids)).

(** A failure leaves the time of the last change of the group. *)
Definition synced (changed : bool) (result_text : string) (g : UserGroup) : UserGroup :=
  {| g_id := g.(g_id); g_name := g.(g_name); g_description := g.(g_description); g_ldap_sync := g.(g_ldap_sync);
     g_last_sync_at := Some now; g_last_sync_result := result_text; g_created_at := g.(g_created_at);
     g_updated_at := if changed then now else g.(g_updated_at) |}.
Definition set_sync_result (changed : bool) (group : Z) (result_text : string) (t : PlanTables) : PlanTables :=
  set_groups (alter (synced changed result_text) group t.(user_groups)) t.
Definition sync_counts (added removed : Z) : string := "+" +:+ pretty added +:+ " / -" +:+ pretty removed.
Definition reconcile_ldap_members (group : Z) (ids : list Z) : M (Z * Z) :=
  transaction (
    let! added := checked (insert_members "ldap" group ids) in
    let! removed := on_plans (fun t => let '(n, m) := remove_rows group (is_ldap ids) t.(members) in (n, set_members m t)) in
    let! _ := on_plans (fun t => (tt, set_sync_result true group (sync_counts added removed) t)) in
    ret (added, removed)).
Definition record_sync_failure (group : Z) (result_text : string) : M unit :=
  on_plans (fun t => (tt, set_sync_result false group result_text t)).
Definition ldap_sync_groups (s : Db) : list Z := 
  sort_by_key (fun id => id) ((List.filter (fun kg => kg.2.(g_ldap_sync)) (map_to_list s.(planning).(user_groups))).*1).

(** The result of a step, whatever it is. *)
Definition outcome {A} (m : M A) : M (result A AppError) := fun w => (Ok (m w).1, (m w).2).

Context (cfg : AuthConfig).

(** The users of the directory, without the protected administrator; those whose row could not be written are
    counted and left out. *)
Fixpoint upsert_entries (entries : list LdapUserEntry) : M (list Z * Z) :=
  match entries with
  | [] => ret ([], 0)
  | e :: es =>
      if is_protected_admin cfg e.(e_username) then upsert_entries es
      else
        let! r := outcome (upsert_sync_user e) in
        let! (ids, failures) := upsert_entries es in
        ret (match r with Ok id => (id :: ids, failures) | Err _ => (ids, failures + 1) end)
  end.

(** The text of an error of the database, and the directory: its users, or the text of its error. *)
Context (db_text : string).

Definition do_sync (directory : result (list LdapUserEntry) string) (group : Z) : M (result (Z * Z) string) :=
  match directory with
  | Err e => ret (Err e)
  | Ok entries =>
      let! (ids, _) := upsert_entries entries in
      let! r := outcome (reconcile_ldap_members group ids) in
      ret (map_err (fun _ => db_text) r)
  end.
Definition sync_group_ldap (directory : result (list LdapUserEntry) string) (group : Z) : M (result (Z * Z) string) :=
  let! found := outcome (find_group group) in
  match found with
  | Err _ => ret (Err db_text)
  | Ok None => ret (Err "分组不存在")
  | Ok (Some g) => if g.(gr_group).(g_ldap_sync) then do_sync directory group else ret (Err "该分组未开启 LDAP 同步")
  end.

(** One group of the periodic synchronisation; its result is stored with the group. *)
Definition sync_listed_group (directory : result (list LdapUserEntry) string) (group : Z) : M unit :=
  let! text :=
    match directory with
    | Err e => ret ("LDAP 拉取失败: " +:+ e)
    | Ok entries =>
        let! (ids, failures) := upsert_entries entries in
        let! r := outcome (reconcile_ldap_members group ids) in
        ret (match r with
             | Ok (added, removed) =>
                 if 0 <? failures then sync_counts added removed +:+ "（" +:+ pretty failures +:+ " 个用户建档失败）"
                 else sync_counts added removed
             | Err _ => "对账失败: " +:+ db_text
             end)
    end in
  let! _ := outcome (record_sync_failure group text) in
  ret tt.
(** The directory is asked anew for every group. *)
Fixpoint sync_groups (groups : list (Z * result (list LdapUserEntry) string)) : M unit :=
  match groups with
  | [] => ret tt
  | (g, directory) :: gs => let! _ := sync_listed_group directory g in sync_groups gs
  end.
Definition sync_all_ldap_groups (directory : Z -> result (list LdapUserEntry) string) : M unit :=
  let! groups := outcome (query ldap_sync_groups) in
  match groups with
  | Err _ => ret tt
  | Ok groups => sync_groups ((fun g => (g, directory g)) <$> groups)
  end.
End members.

(** ** Handlers *)

Inductive MemberKind : Type := MUser | MGroup.
Definition kind_label (k : MemberKind) : string := match k with MUser => "用户" | MGroup => "分组" end.
Definition empty_msg (k : MemberKind) : string := match k with MUser => "user_ids 不能为空" | MGroup => "group_ids 不能为空" end.

(** Sorted, without repetitions. *)
Fixpoint dedup (l : list Z) : list Z :=
  match l with
  | x :: (y :: _) as l' => if x =? y then dedup l' else x :: dedup l'
  | l => l
  end.
Definition dedup_ids (ids : list Z) : list Z := dedup (sort_by_key (fun x => x) ids).
Definition ids_csv (ids : list Z) : string := join ", " (pretty <$> ids).
Definition names_cn (pairs : list (Z * string)) : string := join "、" ((fun p : Z * string => p.2 +:+ "(#" +:+ pretty p.1 +:+ ")") <$> pairs).

Section handlers.
Context (json_text : Value -> string) (time_value : Z -> Value) (now : Z).

Definition by_kind {A} (k : MemberKind) (a b : A) : A := match k with MUser => a | MGroup => b end.
Definition existing_ids (k : MemberKind) (plan : Z) (ids : list Z) : M (list Z) :=
  by_kind k (existing_plan_user_ids plan ids) (existing_plan_group_ids plan ids).
Definition insert_plan_members (k : MemberKind) (plan : Z) (ids : list Z) : M Z :=
  by_kind k (add_plan_users now plan ids) (add_plan_groups now plan ids).

(** Always fails; the names are read outside of the transaction. *)
Definition plan_member_conflict {A} (k : MemberKind) (dup : list Z) : M A :=
  let! names := by_kind k (user_names dup) (group_names dup) in
  throw (Conflict ("以下" +:+ kind_label k +:+ "已加入该 Plan: " +:+ names_cn names)).
Definition ensure_plan_exists (plan : Z) : M unit := let! _ := required_plan plan in ret tt.
Definition ensure_known (k : MemberKind) (ids : list Z) : M unit :=
  let! absent := by_kind k (missing_user_ids ids) (missing_group_ids ids) in
  if bool_decide (absent = []) then ret tt
  else throw (BadRequest ("以下" +:+ kind_label k +:+ "不存在: " +:+ ids_csv absent)).
Definition add_plan_members (actor plan : Z) (k : MemberKind) (raw : list Z) : M Z :=
  let ids := dedup_ids raw in
  if bool_decide (ids = []) then throw (BadRequest (empty_msg k))
  else
    let! _ := ensure_plan_exists plan in
    let! _ := ensure_known k ids in
    let! added := transaction (
      let! dup := existing_ids k plan ids in
      if negb (bool_decide (dup = [])) then plan_member_conflict k dup
      else
        let! added := insert_plan_members k plan ids in
        if negb (added =? Z.of_nat (length ids)) then
          let! dup := existing_ids k plan ids in plan_member_conflict k dup
        else ret added) in
    let! _ := reload json_text in
    let! _ := log (Some actor) (by_kind k "plan.members.add_users" "plan.members.add_groups") plan_target (Some plan)
                (Some (json_object [("ids", VArray (of_int <$> ids)); ("added", of_int added)])) in
    ret added.
Definition remove_plan_members (actor plan : Z) (k : MemberKind) (raw : list Z) : M Z :=
  let ids := dedup_ids raw in
  if bool_decide (ids = []) then throw (BadRequest (empty_msg k))
  else
    let! _ := ensure_plan_exists plan in
    let! removed := by_kind k (remove_plan_users plan ids) (remove_plan_groups plan ids) in
    let! _ := reload json_text in
    let! _ := log (Some actor) (by_kind k "plan.members.remove_users" "plan.members.remove_groups") plan_target (Some plan)
                (Some (json_object [("ids", VArray (of_int <$> ids)); ("removed", of_int removed)])) in
    ret removed.

(** *** Groups *)

Definition group_target : option string := Some "user_group".
Definition group_not_found : AppError := BadRequest "group not found".
Definition map_group_conflict (r : Refusal) : AppError := match r with NameTaken => BadRequest "同名分组已存在" | Violation => db_error end.
Definition plan_entry (p : CodingPlan) : Value :=
  json_object [("id", of_int p.(cp_id)); ("name", VString p.(cp_name)); ("enabled", VBool p.(cp_enabled))].
Definition group_value (r : GroupRow) : Value :=
  let g := r.(gr_group) in
  json_object [("id", of_int g.(g_id)); ("name", VString g.(g_name)); ("description", VString g.(g_description));
    ("plans", VArray (plan_entry <$> r.(gr_plans))); ("ldap_sync", VBool g.(g_ldap_sync)); ("member_count", of_int r.(gr_members));
    ("last_sync_at", or_null time_value g.(g_last_sync_at)); ("last_sync_result", VString g.(g_last_sync_result));
    ("created_at", time_value g.(g_created_at)); ("updated_at", time_value g.(g_updated_at))].
Definition require_group (id : Z) : M GroupRow :=
  let! found := find_group id in match found with Some g => ret g | None => throw group_not_found end.

Definition create_group (actor : Z) (name description : string) (ldap_sync : bool) : M GroupRow :=
  let name := trim name in
  if str_is_empty name then throw (BadRequest "name is required")
  else
    let! res := insert_group now name (trim description) ldap_sync in
    let! row := lift (map_err map_group_conflict res) in
    let! group := match row with Some g => ret g | None => throw db_error end in
    let! _ := reload json_text in
    let! _ := log (Some actor) "group.create" group_target (Some group.(gr_group).(g_id)) (Some (json_object [("after", group_value group)])) in
    ret group.
Definition update_group (actor id : Z) (name description : option string) (ldap_sync : option bool) : M GroupRow :=
  let! before := require_group id in
  let! res := update_group_row now id (name ≫= non_blank) (trim <$> description) ldap_sync in
  let! row := lift (map_err map_group_conflict res) in
  let! updated := match row with Some g => ret g | None => throw group_not_found end in
  let! _ := log (Some actor) "group.update" group_target (Some id)
              (Some (json_object [("before", group_value before); ("after", group_value updated)])) in
  ret updated.
Definition delete_group (actor id : Z) : M unit :=
  let! before := require_group id in
  let! _ := delete_group_row id in
  let! _ := reload json_text in
  log (Some actor) "group.delete" group_target (Some id) (Some (json_object [("before", group_value before)])).

Definition members_detail (ids : list Z) (key : string) (n : Z) : Value := json_object [("user_ids", VArray (of_int <$> ids)); (key, of_int n)].
Definition add_members (actor id : Z) (raw : list Z) : M Z :=
  let ids := dedup_ids raw in
  if bool_decide (ids = []) then throw (BadRequest "user_ids 不能为空")
  else
    let! _ := require_group id in
    let! absent := missing_user_ids ids in
    if negb (bool_decide (absent = [])) then throw (BadRequest ("以下用户不存在: " +:+ ids_csv absent))
    else
      let! added := add_members_rows now id ids in
      let! _ := reload json_text in
      let! _ := log (Some actor) "group.members.add" group_target (Some id) (Some (members_detail ids "added" added)) in
      ret added.
Definition remove_members (actor id : Z) (ids : list Z) : M Z :=
  let! removed := remove_members_rows id ids in
  let! _ := reload json_text in
  let! _ := log (Some actor) "group.members.remove" group_target (Some id) (Some (members_detail ids "removed" removed)) in
  ret removed.
Definition add_all_members (actor id : Z) : M Z :=
  let! added := add_all_users now id in
  let! _ := reload json_text in
  let! _ := log (Some actor) "group.members.add_all" group_target (Some id) (Some (json_object [("added", of_int added)])) in
  ret added.
Definition sync_group (cfg : AuthConfig) (db_text : string) (directory : result (list LdapUserEntry) string) (actor id : Z) : M (Z * Z) :=
  let! r := sync_group_ldap now cfg db_text directory id in
  match r with
  | Ok (added, removed) =>
      let! _ := log (Some actor) "group.ldap.sync" group_target (Some id)
                  (Some (json_object [("added", of_int added); ("removed", of_int removed)])) in
      let! _ := reload json_text in
      ret (added, removed)
  | Err e =>
      let! _ := outcome (record_sync_failure now id ("手动同步失败: " +:+ e)) in
      throw (BadRequest ("LDAP 同步失败: " +:+ e))
  end.

(** *** The plan of a user *)

Definition load_plan_runtimes_for_user (user : Z) (s : Db) : gmap Z (list PlanRuntime) :=
  rows_into_runtimes json_text (List.filter (fun r => r.(row_user_id) =? user) (runtime_source s.(planning))).
(** [plans] of the cache; when it has none, the database. *)
Definition my_runtime (user local_now : Z) (model : option string) : M (option PlanRuntime) :=
  fun w =>
    match resolve_plan w.(caches).(plans) user local_now model with
    | Some p => (Ok (Some p), w)
    | None =>
        (let! rts := query (load_plan_runtimes_for_user user) in ret (resolve_plan rts user local_now model)) w
    end.

(** Every plan of the user, enabled or not. *)
Definition joins (t : PlanTables) (user plan : Z) : bool :=
  bool_decide (is_Some (t.(plan_users) !! (plan, user))) ||
  existsb (fun pg => (pg.1.1 =? plan) && bool_decide (is_Some (t.(members) !! (pg.1.2, user)))) (map_to_list t.(plan_groups)).
Definition user_plan_memberships (user : Z) (s : Db) : list CodingPlan :=
  let t := s.(planning) in
  sort_by_key cp_id (List.filter (fun p => joins t user p.(cp_id)) (map_to_list t.(coding_plans)).*2).
Definition inactive_reason (local_now : Z) (model : option string) (p : CodingPlan) : option string :=
  if negb p.(cp_enabled) then Some "disabled"
  else if negb (is_within_active_window p.(cp_active_start) p.(cp_active_end) local_now) then Some "outside_active_window"
  else match model, p.(cp_model_scope) with
       | Some m, Some v => match parse_model_scope json_text (Some v) with
                           | Ok (Some s) => if scope_matches s m then None else Some "model_scope"
                           | _ => None
                           end
       | _, _ => None
       end.
(** The part of [my_plan] that finds the plan of a user: the plan that applies and, when none does, those that do not with the reason. *)
Definition membership_report (user local_now : Z) (model : option string) : M (option PlanRuntime * list (Z * string)) :=
  let queried := model ≫= non_blank in
  let! rt := my_runtime user local_now queried in
  match rt with
  | Some p => ret (Some p, [])
  | None =>
      let! ms := query (user_plan_memberships user) in
      ret (None, omap (fun p => r ← inactive_reason local_now queried p; Some (p.(cp_id), r)) ms)
  end.
End handlers.
