(* ===== verification/Sessions.v ===== *)
(** * Sessions: what the operations on accounts guarantee

Properties of the operations of [Accounts] over all histories of them: the tables stay well-formed, a
refresh token is used once, a forced logout is final for the sessions that exist, the protected
administrator is out of reach, a key admits only its live owner; and the interleavings for which the
handlers are not made. *)

From S2P Require Import Prelude Json Errors Calendar Metering Streams Upstream ConfigTables Database PlanConfig Accounts PlanMembers.

Local Open Scope Z_scope.

Section sessions.
Context (sha256_hex : string -> string) (hash_password : string -> string) (verify_password : string -> string -> bool).
Context (encode_claims : Claims -> option string).
Context (encrypt_key : string -> option string) (decrypt_key : string -> option string).
Context (ldap : string -> string -> result Identity LdapError).
Context (cfg : AuthConfig) (json_text : Value -> string).

Local Abbreviation protected := (is_protected_admin cfg).

(** ** How the tables evolve *)

Record wf (s : Db) : Prop := {
  wf_id : forall id u, s.(users) !! id = Some u -> u.(u_id) = id /\ id < s.(user_seq);
  wf_name : forall i j u v, s.(users) !! i = Some u -> s.(users) !! j = Some v -> u.(username) = v.(username) -> i = j;
  wf_token : forall k t, s.(refresh_tokens) !! k = Some t -> k < s.(token_seq);
  wf_key : forall k r, s.(api_keys) !! k = Some r -> k < s.(key_seq);
}.

(** The fields of the protected administrator that decide whether and how it may log in. *)
Definition same_access (u v : UserRow) : Prop :=
  v.(is_admin) = u.(is_admin) /\ v.(u_status) = u.(u_status) /\ v.(password_hash) = u.(password_hash) /\
  v.(source) = u.(source) /\ v.(token_version) = u.(token_version).

Record evolves (s s' : Db) : Prop := {
  ev_wf : wf s';
  ev_seq : s.(token_seq) <= s'.(token_seq);
  ev_token : forall k t, s.(refresh_tokens) !! k = Some t ->
    exists t', s'.(refresh_tokens) !! k = Some t' /\ t'.(t_user) = t.(t_user) /\ t'.(t_hash) = t.(t_hash) /\
               t'.(t_expires) = t.(t_expires) /\ (t.(t_revoked) <> None -> t'.(t_revoked) <> None);
  ev_new : forall k t, s'.(refresh_tokens) !! k = Some t -> s.(refresh_tokens) !! k = None -> s.(token_seq) <= k;
  ev_user : forall id u, s.(users) !! id = Some u ->
    exists u', s'.(users) !! id = Some u' /\ u'.(username) = u.(username) /\ u.(token_version) <= u'.(token_version) /\
               (protected u.(username) = true -> same_access u u');
}.

Lemma same_access_refl u : same_access u u.
Proof. done. Qed.
Lemma evolves_refl s : wf s -> evolves s s.
Proof. intros H. split; [done|lia|eauto 10|congruence|]. intros id u Hu. exists u. split_and!; [done..|lia|]. intros _. apply same_access_refl. Qed.
Lemma evolves_trans s1 s2 s3 : evolves s1 s2 -> evolves s2 s3 -> evolves s1 s3.
Proof.
  intros [W1 S1 T1 N1 U1] [W2 S2 T2 N2 U2]. split; [done|lia|..].
  - intros k t Ht. destruct (T1 _ _ Ht) as (t2 & L2 & A2 & B2 & C2 & D2). destruct (T2 _ _ L2) as (t3 & L3 & A3 & B3 & C3 & D3).
    exists t3. split_and!; [done|congruence..|auto].
  - intros k t Ht Hn. destruct (refresh_tokens s2 !! k) as [t2|] eqn:E; [by eapply N1|]. specialize (N2 _ _ Ht E). lia.
  - intros id u Hu. destruct (U1 _ _ Hu) as (u2 & H2 & E2 & V2 & P2). destruct (U2 _ _ H2) as (u3 & H3 & E3 & V3 & P3).
    exists u3. split_and!; [done|congruence|lia|]. intros Hp. specialize (P2 Hp). rewrite E2 in P3. specialize (P3 Hp).
    unfold same_access in *. intuition congruence.
Qed.

(** ** Operations that only make the tables evolve *)

(** A condition on the database that no operation can undo. *)
Definition stable (P : Db -> Prop) : Prop := forall s s', P s -> evolves s s' -> P s'.
Definition always : Db -> Prop := fun _ => True.
(** The row of a user exists and is not protected. *)
Definition reachable_user (id : Z) (s : Db) : Prop := exists u, s.(users) !! id = Some u /\ protected u.(username) = false.
Lemma stable_always : stable always.
Proof. done. Qed.
Lemma stable_reachable id : stable (reachable_user id).
Proof. intros s s' (u & Hu & Hp) E. destruct (ev_user _ _ E _ _ Hu) as (u' & Hu' & En & _). exists u'. by rewrite En. Qed.

Definition good (P : Db -> Prop) {A} (m : M A) : Prop := forall w, wf w.(db) -> P w.(db) -> evolves w.(db) (m w).2.(db).

Lemma good_ret P A (a : A) : good P (ret a).
Proof. intros w Hw _. by apply evolves_refl. Qed.
Lemma good_throw P A e : good P (@throw A e).
Proof. intros w Hw _. by apply evolves_refl. Qed.
Lemma good_bind P A B (m : M A) (k : A -> M B) : stable P -> good P m -> (forall a, good P (k a)) -> good P (bind m k).
Proof.
  intros HP Hm Hk w Hw Hp. unfold bind. specialize (Hm w Hw Hp). destruct (m w) as [[a|e] w']; [|done]. cbn [snd] in *.
  eapply evolves_trans; [exact Hm|]. apply Hk; [apply Hm|by eapply HP].
Qed.
Lemma good_stmt (P : Db -> Prop) A (f : Db -> A * Db) : (forall s, wf s -> P s -> evolves s (f s).2) -> good P (stmt f).
Proof.
  intros Hf w Hw Hp. unfold stmt. destruct (default false _); [by apply evolves_refl|]. specialize (Hf _ Hw Hp).
  by destruct (f (db w)).
Qed.
Lemma good_query P A (f : Db -> A) : good P (query f).
Proof. apply good_stmt. intros s Hs _. by apply evolves_refl. Qed.
Lemma good_execute (P : Db -> Prop) f : (forall s, wf s -> P s -> evolves s (f s)) -> good P (execute f).
Proof. intros H. by apply good_stmt. Qed.
Lemma good_random P : good P random_hex.
Proof. intros w Hw _. by apply evolves_refl. Qed.
Lemma good_transaction P A (m : M A) : stable P -> good P m -> good P (transaction m).
Proof.
  intros HP Hm. apply good_bind; [done|apply good_query|]. intros _ w Hw Hp.
  assert (H : good P (let! a := m in let! _ := query (fun _ => tt) in ret a)).
  { apply good_bind; [done..|]. intros a. apply good_bind; [done|apply good_query|]. intros _. apply good_ret. }
  specialize (H w Hw Hp). destruct ((let! a := m in let! _ := query (fun _ => tt) in ret a) w) as [[a|e] w']; [done|]. by apply evolves_refl.
Qed.
Lemma good_weaken (P Q : Db -> Prop) A (m : M A) : (forall s, Q s -> P s) -> good P m -> good Q m.
Proof. intros H Hm w Hw Hq. by apply Hm, H. Qed.

(** *** Statements *)

(** A change of the row of a user. *)
Lemma evolves_update s id f :
  wf s -> (forall u, s.(users) !! id = Some u ->
    (f u).(u_id) = u.(u_id) /\ (f u).(username) = u.(username) /\ u.(token_version) <= (f u).(token_version) /\
    (protected u.(username) = true -> same_access u (f u))) ->
  evolves s (update_user_row f id s).
Proof.
  intros Hw Hf.
  assert (Hl : forall i u', alter f id s.(users) !! i = Some u' ->
    exists u, s.(users) !! i = Some u /\ u'.(u_id) = u.(u_id) /\ u'.(username) = u.(username)).
  { intros i u'. destruct (decide (id = i)) as [->|Hi]; [|rewrite lookup_alter_ne by done; eauto].
    rewrite lookup_alter_eq. destruct (users s !! i) as [u|] eqn:E; [|done]. cbn. intros [= <-].
    destruct (Hf u eq_refl) as (? & ? & _). eauto. }
  split; cbn; [|lia|eauto 10|congruence|].
  - destruct Hw as [W1 W2 W3 W4]. split; cbn; [|..|done|done].
    + intros i u' (u & Hu & Ei & _)%Hl. rewrite Ei. by apply W1.
    + intros i j u' v' (u & Hu & _ & Eu)%Hl (v & Hv & _ & Ev)%Hl. rewrite Eu, Ev. by apply W2.
  - intros i u Hu. destruct (decide (id = i)) as [->|Hi].
    + rewrite lookup_alter_eq, Hu. cbn. destruct (Hf u Hu) as (? & ? & ? & ?). eauto 10.
    + rewrite lookup_alter_ne by done. exists u. split_and!; [done..|lia|]. intros _. apply same_access_refl.
Qed.

(** Writing a changed row back is changing it in place. *)
Lemma alter_insert_eq {A} (f : A -> A) (m : gmap Z A) i a : m !! i = Some a -> alter f i m = <[i := f a]> m.
Proof.
  intros Hi. apply map_eq. intros j. destruct (decide (i = j)) as [<-|Hj]; [by rewrite lookup_insert_eq, lookup_alter_eq, Hi|].
  by rewrite lookup_insert_ne, lookup_alter_ne.
Qed.
(** The row with a name. *)
Lemma find_row_name s name u :
  wf s -> find_row (fun u => bool_decide (u.(username) = name)) s = Some u -> s.(users) !! u.(u_id) = Some u /\ u.(username) = name.
Proof.
  intros Hw H. unfold find_row in H. apply List.find_some in H as [Hin Hn]. apply bool_decide_eq_true in Hn.
  apply list_elem_of_In, list_elem_of_fmap in Hin as ([id u'] & -> & Hin%elem_of_map_to_list). cbn in *.
  by rewrite (proj1 (wf_id _ Hw _ _ Hin)).
Qed.
Lemma find_row_none s name id u :
  find_row (fun u => bool_decide (u.(username) = name)) s = None -> s.(users) !! id = Some u -> u.(username) <> name.
Proof.
  intros H Hu E. unfold find_row in H. assert (Hin : u ∈ (map_to_list (users s)).*2).
  { apply list_elem_of_fmap. exists (id, u). split; [done|]. by apply elem_of_map_to_list. }
  apply list_elem_of_In in Hin. apply (List.find_none _ _ H) in Hin. by rewrite bool_decide_true in Hin.
Qed.

Lemma evolves_insert s u :
  wf s -> u.(u_id) = s.(user_seq) -> (forall i v, s.(users) !! i = Some v -> v.(username) <> u.(username)) ->
  evolves s (insert_user u s).
Proof.
  intros Hw Hi Hn. assert (Hf : s.(users) !! u.(u_id) = None).
  { destruct (users s !! u_id u) as [v|] eqn:E; [|done]. apply (wf_id _ Hw) in E. lia. }
  split; cbn; [|lia|eauto 10|congruence|].
  - destruct Hw as [W1 W2 W3 W4]. split; cbn; [|..|done|done].
    + intros i v [[<- <-]|[Hne Hv]]%lookup_insert_Some; [lia|]. specialize (W1 _ _ Hv). lia.
    + intros i j x y [[<- <-]|[Hx1 Hx]]%lookup_insert_Some [[<- <-]|[Hy1 Hy]]%lookup_insert_Some E; [done|..|by eapply W2];
        [by destruct (Hn _ _ Hy)|by destruct (Hn _ _ Hx)].
  - intros i v Hv. exists v. rewrite lookup_insert_ne by congruence. split_and!; [done..|lia|]. intros _. apply same_access_refl.
Qed.

(** A change of the refresh tokens that revokes some. *)
Lemma evolves_tokens s (m : gmap Z TokenRow) :
  wf s -> (forall k t, s.(refresh_tokens) !! k = Some t ->
    exists t', m !! k = Some t' /\ t'.(t_user) = t.(t_user) /\ t'.(t_hash) = t.(t_hash) /\
               t'.(t_expires) = t.(t_expires) /\ (t.(t_revoked) <> None -> t'.(t_revoked) <> None)) ->
  (forall k, s.(refresh_tokens) !! k = None -> m !! k = None) -> evolves s (set_tokens m s).
Proof.
  intros Hw Hm Hn. split; cbn; [|lia|done|by intros k t Hk Hk'%Hn; congruence|].
  - destruct Hw as [W1 W2 W3 W4]. split; cbn; [done..| |done]. intros k t Hk.
    destruct (refresh_tokens s !! k) as [t0|] eqn:E; [by eapply W3|]. apply Hn in E. congruence.
  - intros i v Hv. exists v. split_and!; [done..|lia|]. intros _. apply same_access_refl.
Qed.

Lemma good_insert_token P user hash expires : good P (insert_token user hash expires).
Proof.
  apply good_stmt. intros s Hw _. cbn. assert (Hf : s.(refresh_tokens) !! s.(token_seq) = None).
  { destruct (refresh_tokens s !! token_seq s) as [t|] eqn:E; [|done]. apply (wf_token _ Hw) in E. lia. }
  split; cbn; [|lia|..].
  - destruct Hw as [W1 W2 W3 W4]. split; cbn; [done..| |done]. intros k t [[<- _]|[_ Hk]]%lookup_insert_Some; [lia|]. specialize (W3 _ _ Hk). lia.
  - intros k t Ht. exists t. rewrite lookup_insert_ne by congruence. split_and!; done.
  - intros k t [[<- _]|[_ Hk]]%lookup_insert_Some Hn; [lia|congruence].
  - intros i v Hv. exists v. split_and!; [done..|lia|]. intros _. apply same_access_refl.
Qed.

Lemma evolves_revoke s (f : TokenRow -> bool) now :
  wf s -> evolves s (set_tokens ((fun t => if f t then revoked now t else t) <$> s.(refresh_tokens)) s).
Proof.
  intros Hw. apply evolves_tokens; [done|..].
  - intros k t Ht. rewrite lookup_fmap, Ht. cbn. eexists. split; [done|]. by destruct (f t).
  - intros k Hk. by rewrite lookup_fmap, Hk.
Qed.
Lemma good_revoke_if_active P now hash : good P (revoke_if_active now hash).
Proof. apply good_stmt. intros s Hw _. by apply evolves_revoke. Qed.
Lemma good_revoke_all P now user : good P (revoke_all_for_user now user).
Proof. apply good_execute. intros s Hw _. by apply evolves_revoke. Qed.
Lemma good_revoke_token P now id : good P (revoke_token now id).
Proof.
  apply good_execute. intros s Hw _. apply evolves_tokens; [done|..].
  - intros k t Ht. destruct (decide (id = k)) as [->|Hk]; [rewrite lookup_alter_eq, Ht|rewrite lookup_alter_ne, Ht by done]; eauto 10.
  - intros k Hk. destruct (decide (id = k)) as [->|Hk']; [by rewrite lookup_alter_eq, Hk|by rewrite lookup_alter_ne].
Qed.

(** Statements on the audit log, on keys and on plans leave users and tokens alone. *)
Lemma evolves_others s keys audits tables tables' seq :
  wf s -> s.(key_seq) <= seq -> (forall k r, keys !! k = Some r -> k < seq) ->
  evolves s {| users := s.(users); refresh_tokens := s.(refresh_tokens); api_keys := keys; audit_logs := audits; planning := tables; config := tables';
               user_seq := s.(user_seq); token_seq := s.(token_seq); key_seq := seq |}.
Proof.
  intros [W1 W2 W3 W4] Hs Hk. split; cbn; [by split|lia|eauto 10|congruence|].
  intros i v Hv. exists v. split_and!; [done..|lia|]. intros _. apply same_access_refl.
Qed.
Lemma good_log P a b c d e : good P (log a b c d e).
Proof. apply good_execute. intros s Hw _. apply evolves_others; [done|lia|apply Hw]. Qed.
Lemma good_create_key_row P user name prefix hash enc ex : good P (create_key_row user name prefix hash enc ex).
Proof.
  apply good_stmt. intros s Hw _. apply evolves_others; [done|lia|].
  intros k r [[<- _]|[_ Hk]]%lookup_insert_Some; [lia|]. apply (wf_key _ Hw) in Hk. lia.
Qed.
Lemma good_revoke_key_row P user id : good P (revoke_key_row user id).
Proof.
  apply good_stmt. intros s Hw _. destruct (owned_key user id s) as [k0|]; [|by apply evolves_refl]. cbn.
  apply evolves_others; [done|lia|]. intros k r Hk. destruct (decide (id = k)) as [->|Hne].
  - rewrite lookup_alter_eq in Hk. destruct (api_keys s !! k) as [r0|] eqn:E; [|done]. by apply (wf_key _ Hw) in E.
  - rewrite lookup_alter_ne in Hk by done. by apply (wf_key _ Hw) in Hk.
Qed.

Lemma good_touch P now id : good P (touch_last_login now id).
Proof. apply good_execute. intros s Hw _. apply evolves_update; [done|]. intros u _. split_and!; [done..|cbn; lia|done]. Qed.
Lemma good_reload P : good P (reload json_text).
Proof. intros w Hw _. rewrite <-(keeps_reload eq json_text w). by apply evolves_refl. Qed.

(** Changes of a user that is not protected. *)
Lemma good_change id (f : UserRow -> UserRow) :
  (forall u, (f u).(u_id) = u.(u_id) /\ (f u).(username) = u.(username) /\ u.(token_version) <= (f u).(token_version)) ->
  good (reachable_user id) (execute (update_user_row f id)).
Proof.
  intros Hf. apply good_execute. intros s Hw (u & Hu & Hp). apply evolves_update; [done|]. intros v Hv.
  destruct (Hf v) as (? & ? & ?). split_and!; [done..|]. congruence.
Qed.
Lemma good_set_status id st : good (reachable_user id) (set_status id st).
Proof. apply good_change. intros u. cbn. split_and!; [done..|lia]. Qed.
Lemma good_set_password id h : good (reachable_user id) (set_password_hash id h).
Proof. apply good_change. intros u. cbn. split_and!; [done..|lia]. Qed.
Lemma good_set_admin id b : good (reachable_user id) (set_is_admin id b).
Proof. apply good_change. intros u. cbn. split_and!; [done..|lia]. Qed.
Lemma good_bump id : good (reachable_user id) (bump_token_version id).
Proof.
  apply good_bind; [apply stable_reachable| |intros []; [apply good_ret|apply good_throw]].
  apply good_stmt. intros s Hw (u & Hu & Hp). rewrite Hu. destruct (_ =? _); [by apply evolves_refl|].
  apply evolves_update; [done|]. intros v Hv. split_and!; [done..|cbn; lia|congruence].
Qed.

Lemma good_create_user P now name shown hash admin : good P (create_local_user now name shown hash admin).
Proof.
  apply good_stmt. intros s Hw _. destruct (find_row _ s) eqn:E; [by apply evolves_refl|]. cbn.
  apply evolves_insert; [done..|]. intros i v Hv. by eapply find_row_none.
Qed.
Lemma good_upsert P now name mail shown dn admin :
  protected name = false -> good P (upsert_ldap_user now name mail shown dn admin).
Proof.
  intros Hp. apply good_stmt. intros s Hw _. destruct (find_row _ s) as [u|] eqn:E; cbn.
  - apply find_row_name in E as [Hu Hn]; [|done].
    rewrite <-(alter_insert_eq _ _ _ _ Hu). apply evolves_update; [done|]. intros v Hv. split_and!; [done..|cbn; lia|]. congruence.
  - apply evolves_insert; [done..|]. intros i v Hv. by eapply find_row_none.
Qed.

(** Statements on plans and groups, and the synchronisation with the directory. *)
Lemma good_on_plans P {A} (f : PlanTables -> A * PlanTables) : good P (on_plans f).
Proof.
  apply good_stmt. intros s Hw _. destruct (f (planning s)) as [a t]. apply evolves_others; [done|lia|apply Hw].
Qed.
Lemma good_checked P {A} (f : Db -> option (A * PlanTables)) : stable P -> good P (checked f).
Proof.
  intros HP. apply good_bind; [done| |intros []; [apply good_ret|apply good_throw]]. apply good_stmt. intros s Hw _.
  destruct (f s) as [[a t]|]; [|by apply evolves_refl]. apply evolves_others; [done|lia|apply Hw].
Qed.
Lemma good_upsert_sync P now e : protected e.(e_username) = false -> good P (upsert_sync_user now e).
Proof.
  intros Hp. apply good_stmt. intros s Hw _. destruct (find_row _ s) as [u|] eqn:E; cbn.
  - apply find_row_name in E as [Hu Hn]; [|done]. rewrite <-(alter_insert_eq _ _ _ _ Hu). apply evolves_update; [done|].
    intros v Hv. split_and!; [done..|cbn; lia|]. congruence.
  - apply evolves_insert; [done..|]. intros i v Hv. by eapply find_row_none.
Qed.

(** *** Handlers *)

Create HintDb handlers.
#[local] Hint Resolve good_ret good_throw good_query good_random good_insert_token good_revoke_if_active good_revoke_all
  good_revoke_token good_log good_create_key_row good_revoke_key_row good_touch good_reload good_set_status good_set_password
  good_set_admin good_bump good_create_user good_upsert stable_always stable_reachable : handlers.

(** Goes through a handler statement by statement. *)
Ltac handler :=
  repeat first
    [ progress intros
    | solve [eauto with handlers]
    | apply good_transaction; [solve [eauto with handlers]|]
    | apply good_bind; [solve [eauto with handlers]| |]
    | case_match ].

Lemma good_force_logout now id : good (reachable_user id) (force_logout now id).
Proof. unfold force_logout. handler. Qed.
#[local] Hint Resolve good_force_logout : handlers.

(** After the check of its target a handler works on a user that is not protected. *)
Lemma good_target A id (k : UserRow -> M A) :
  (forall u, good (reachable_user id) (k u)) -> good always (bind (target_user cfg id) k).
Proof.
  intros Hk w Hw _. unfold target_user, bind, find_by_id, query, stmt. destruct (default false _); [by apply evolves_refl|].
  destruct (users (db w) !! id) as [u|] eqn:E; [|by apply evolves_refl].
  unfold ensure_not_protected. destruct (protected (username u)) eqn:Ep; [by apply evolves_refl|].
  cbn [ret]. apply (Hk u {| db := db w; faults := tail (faults w); entropy := entropy w; caches := caches w |}); [done|].
  by exists u.
Qed.

Lemma good_issue_session P now u : stable P -> good P (issue_session now sha256_hex encode_claims cfg u).
Proof. intros HP. unfold issue_session, issue_access, new_refresh_token. handler. Qed.
Lemma good_login_local P name pw : stable P -> good P (login_local verify_password name pw).
Proof. intros HP. unfold login_local, find_by_username. handler. Qed.
Lemma good_login_user now name pw : good always (login_user now verify_password ldap cfg name pw).
Proof.
  unfold login_user. destruct (_ || _); [apply good_throw|]. destruct (ldap_configured cfg && _) eqn:E.
  - apply andb_true_iff in E as [_ E%negb_true_iff]. pose proof (good_login_local always name pw stable_always).
    destruct (ldap name pw) as [who|[]]; [by apply good_upsert|done|done|apply good_throw|done].
  - apply good_login_local, stable_always.
Qed.
Lemma good_reissue now row : good always (reissue now sha256_hex encode_claims cfg row).
Proof. unfold reissue, find_by_id_for_update, issue_access, new_refresh_token. handler. Qed.
#[local] Hint Resolve good_reissue : handlers.
Lemma good_refresh now token : good always (refresh now sha256_hex encode_claims cfg token).
Proof. unfold refresh. handler. Qed.
Lemma good_logout now token : good always (logout now sha256_hex token).
Proof. unfold logout, find_active. handler. Qed.
Lemma good_create_key u name ex : good always (create_key sha256_hex encrypt_key u name ex).
Proof. unfold create_key, create_key_check, create_key_insert. handler. Qed.
Lemma good_revoke_key u id : good always (revoke_key u id).
Proof. unfold revoke_key. handler. Qed.
Lemma good_reveal_key u id : good always (reveal_key decrypt_key u id).
Proof. unfold reveal_key, find_encrypted. handler. Qed.
Lemma good_new_user now actor name shown pw admin : good always (create_user now hash_password actor name shown pw admin).
Proof. unfold create_user. handler. Qed.
Lemma good_update_user now actor id st admin : good always (update_user now cfg json_text actor id st admin).
Proof. unfold update_user. apply good_target. unfold update_status, update_admin, find_by_id. handler. Qed.
Lemma good_force_logout_user now actor id : good always (force_logout_user now cfg actor id).
Proof. unfold force_logout_user. apply good_target. handler. Qed.
Lemma good_reset_password now actor id pw : good always (reset_password now hash_password cfg actor id pw).
Proof. unfold reset_password. apply good_target. handler. Qed.
Lemma good_seed_admin now pw : good always (seed_admin now hash_password cfg pw).
Proof. unfold seed_admin, has_local_admin. handler. Qed.

Lemma good_outcome P A (m : M A) : good P m -> good P (outcome m).
Proof. intros H w. apply H. Qed.
#[local] Hint Resolve good_on_plans good_checked good_outcome : handlers.
Lemma good_upserts now entries : good always (upsert_entries now cfg entries).
Proof.
  induction entries as [|e es IH]; cbn [upsert_entries]; [apply good_ret|]. destruct (protected (e_username e)) eqn:E; [done|].
  apply good_bind; [apply stable_always|by apply good_outcome, good_upsert_sync|]. intros r. handler.
Qed.
Lemma good_reconcile now group ids : good always (reconcile_ldap_members now group ids).
Proof. unfold reconcile_ldap_members. handler. Qed.
#[local] Hint Resolve good_upserts good_reconcile : handlers.
Lemma good_sync_group now db_text dir id : good always (sync_group_ldap now cfg db_text dir id).
Proof. unfold sync_group_ldap, do_sync, find_group. handler. Qed.
Lemma good_sync_all now db_text dir : good always (sync_all_ldap_groups now cfg db_text dir).
Proof.
  assert (H : forall gs, good always (sync_groups now cfg db_text gs)).
  { induction gs as [|[g d] gs IH]; cbn [sync_groups]; [apply good_ret|]. unfold sync_listed_group, record_sync_failure. handler. }
  unfold sync_all_ldap_groups. handler.
Qed.

(** ** Histories *)

(** The operations of the console and the synchronisation with the directory in any order, at any time and with any
    failures, while plans and groups change. A login is also two steps, with the row of the user as it was read at
    some time before; and so is the creation of a key. *)
Inductive step : World -> World -> Prop :=
| step_env w tables tables' fs rs cs : step w {| db := set_config tables' (set_planning tables w.(db)); faults := fs; entropy := rs; caches := cs |}
| step_login now name pw w : step w (login now sha256_hex verify_password encode_claims ldap cfg name pw w).2
| step_recognise now name pw w : step w (login_user now verify_password ldap cfg name pw w).2
| step_issue now u w : step w (issue_session now sha256_hex encode_claims cfg u w).2
| step_refresh now token w : step w (refresh now sha256_hex encode_claims cfg token w).2
| step_logout now token w : step w (logout now sha256_hex token w).2
| step_create_key u name ex w : step w (create_key sha256_hex encrypt_key u name ex w).2
| step_insert_key u name ex w : step w (create_key_insert sha256_hex encrypt_key u name ex w).2
| step_revoke_key u id w : step w (revoke_key u id w).2
| step_reveal_key u id w : step w (reveal_key decrypt_key u id w).2
| step_create_user now actor name shown pw admin w : step w (create_user now hash_password actor name shown pw admin w).2
| step_update_user now actor id st admin w : step w (update_user now cfg json_text actor id st admin w).2
| step_force_logout now actor id w : step w (force_logout_user now cfg actor id w).2
| step_reset_password now actor id pw w : step w (reset_password now hash_password cfg actor id pw w).2
| step_seed now pw w : step w (seed_admin now hash_password cfg pw w).2
| step_sync now text dir id w : step w (sync_group_ldap now cfg text dir id w).2
| step_sync_all now text dir w : step w (sync_all_ldap_groups now cfg text dir w).2.

Lemma step_evolves w w' : wf w.(db) -> step w w' -> evolves w.(db) w'.(db).
Proof.
  intros Hw Hs. destruct Hs.
  - apply (evolves_others (db w)); [done|apply Z.le_refl|apply Hw].
  - apply (good_bind always); [apply stable_always|apply good_login_user| |done|done]. intros u. apply good_issue_session, stable_always.
  - by apply good_login_user.
  - by apply (good_issue_session always); [apply stable_always|..].
  - by apply good_refresh.
  - by apply good_logout.
  - by apply good_create_key.
  - assert (H : good always (create_key_insert sha256_hex encrypt_key u name ex)) by (unfold create_key_insert; handler). by apply H.
  - by apply good_revoke_key.
  - by apply good_reveal_key.
  - by apply good_new_user.
  - by apply good_update_user.
  - by apply good_force_logout_user.
  - by apply good_reset_password.
  - by apply good_seed_admin.
  - by apply good_sync_group.
  - by apply good_sync_all.
Qed.
Lemma history_evolves w w' : wf w.(db) -> rtc step w w' -> evolves w.(db) w'.(db).
Proof.
  intros Hw Hs. induction Hs as [w|w1 w2 w3 Hs _ IH]; [by apply evolves_refl|].
  pose proof (step_evolves _ _ Hw Hs) as E. eapply evolves_trans; [exact E|]. apply IH, E.
Qed.

(** C25: whatever the other administrators, the users and the directory do, the protected administrator keeps
    its access: as long as the database answers, it can log in with its password. *)
Theorem break_glass w w' id u name pw now :
  wf w.(db) -> rtc step w w' ->
  w.(db).(users) !! id = Some u -> u.(username) = name -> protected name = true ->
  u.(u_status) = 1 -> (exists h, u.(password_hash) = Some h /\ verify_password pw h = true) ->
  str_is_empty (trim name) = false -> str_is_empty pw = false ->
  (forall c, encode_claims c <> None) -> w'.(faults) = [] ->
  is_ok (login now sha256_hex verify_password encode_claims ldap cfg name pw w').1 = true.
Proof.
  intros Hw Hs Hu Hn Hp Hst (h & Hh & Hv) Hne Hpw Henc Hf. pose proof (history_evolves _ _ Hw Hs) as E.
  destruct (ev_user _ _ E _ _ Hu) as (u' & Hu' & Hn' & _ & Ha). rewrite Hn in Ha. destruct (Ha Hp) as (_ & Hst' & Hh' & _).
  unfold login, bind, login_user. rewrite Hne, Hpw, Hp. cbn [orb]. rewrite andb_false_r.
  unfold login_local, find_by_username, query. unfold bind at 1. rewrite stmt_ok by done. cbn [fst snd].
  destruct (find_row _ (db w')) as [v|] eqn:Ef; [|by destruct (find_row_none _ _ _ _ Ef Hu'); congruence].
  apply find_row_name in Ef as [Hv' Hvn]; [|apply E]. assert (u_id v = id) as Eid by (eapply (wf_name _ (ev_wf _ _ E)); eauto; congruence).
  rewrite Eid, Hu' in Hv'. injection Hv' as <-. rewrite Hh', Hh, Hv. cbn [ret]. unfold issue_session.
  rewrite Hst', Hst. cbn [Z.eqb Pos.eqb negb]. unfold bind, touch_last_login, execute. rewrite stmt_ok by done. cbn [fst snd].
  unfold issue_access, bind, random_hex. cbn [fst snd]. destruct (encode_claims _) eqn:Ee; [|by destruct (Henc _ Ee)]. cbn [ret new_refresh_token bind random_hex].
  unfold insert_token. by rewrite stmt_ok.
Qed.

(** *** Forced logout *)

(** All refresh tokens of the user so far are revoked, and the version has passed [v]. *)
Definition logged_out (id v n : Z) (s : Db) : Prop :=
  n <= s.(token_seq) /\
  (forall k t, s.(refresh_tokens) !! k = Some t -> k < n -> t.(t_user) = id -> t.(t_revoked) <> None) /\
  exists u, s.(users) !! id = Some u /\ v < u.(token_version).

Lemma stable_logged_out id v n : stable (logged_out id v n).
Proof.
  intros s s' (Hn & Ht & u & Hu & Hv) E. split_and!.
  - pose proof (ev_seq _ _ E). lia.
  - intros k t' Ht' Hk Hid. destruct (refresh_tokens s !! k) as [t|] eqn:Ek.
    + destruct (ev_token _ _ E _ _ Ek) as (t2 & Ht2 & Eu & _ & _ & Er). rewrite Ht' in Ht2. injection Ht2 as <-.
      apply Er. eapply Ht; eauto. congruence.
    + pose proof (ev_new _ _ E _ _ Ht' Ek). lia.
  - destruct (ev_user _ _ E _ _ Hu) as (u' & Hu' & _ & Hv' & _). exists u'. split; [done|lia].
Qed.

(** What a successful transaction of two statements does. *)
Lemma force_logout_effect now id w u :
  wf w.(db) -> w.(db).(users) !! id = Some u -> (force_logout now id w).1 = Ok tt ->
  logged_out id u.(token_version) w.(db).(token_seq) (force_logout now id w).2.(db).
Proof.
  intros Hw Hu. unfold force_logout, transaction, query, bump_token_version, revoke_all_for_user, execute, bind, stmt, ret, throw.
  destruct (default false (head (faults w))); [done|]. cbn [db faults with_db fst snd].
  destruct (default false _); [done|]. cbn [db faults with_db fst snd]. rewrite Hu.
  destruct (_ =? _); [done|]. cbn [db faults with_db fst snd].
  destruct (default false _); [done|]. cbn [db faults with_db fst snd].
  destruct (default false _); [done|]. intros _. cbn [db faults with_db fst snd]. unfold logged_out, revoke_user_tokens. cbn. split_and!.
  - lia.
  - intros k t Hk _ Hid. rewrite lookup_fmap in Hk. destruct (refresh_tokens (db w) !! k) as [t0|]; [|done]. cbn in Hk. injection Hk as <-.
    destruct ((t_user t0 =? id) && bool_decide (t_revoked t0 = None)) eqn:Eb; [done|].
    rewrite Hid, Z.eqb_refl in Eb. cbn in Eb. by apply bool_decide_eq_false in Eb.
  - rewrite lookup_alter_eq, Hu. cbn. eexists. split; [done|]. cbn. lia.
Qed.

Lemma filter_false {A} (f : A -> bool) (l : list A) : (forall x, x ∈ l -> f x = false) -> List.filter f l = [].
Proof.
  induction l as [|x l IH]; intros H; [done|]. cbn. rewrite (H x) by (by left). apply IH. intros y Hy. apply H. by right.
Qed.
Lemma target_user_db id w : (target_user cfg id w).2.(db) = w.(db).
Proof.
  unfold target_user, bind, find_by_id, query, stmt. destruct (default false _); [done|].
  destruct (users (db w) !! id) as [u|]; [|done]. unfold ensure_not_protected. by destruct (protected _).
Qed.
Lemma log_db a b c d e w :
  (log a b c d e w).2.(db).(refresh_tokens) = w.(db).(refresh_tokens) /\ (log a b c d e w).2.(db).(users) = w.(db).(users) /\
  (log a b c d e w).2.(db).(token_seq) = w.(db).(token_seq).
Proof. unfold log, execute, stmt. by destruct (default false _). Qed.

(** C26: once an administrator has logged a user out, no session of that user that existed before can be used
    again, whatever happens later: its access tokens are refused and its refresh tokens are revoked for good. (The
    periodic removal of rows that expired 30 days ago, which takes away tokens that are refused anyway, is not among
    the steps.) *)
Theorem forced_logout_final now actor id w w' u :
  wf w.(db) -> w.(db).(users) !! id = Some u ->
  (force_logout_user now cfg actor id w).1 = Ok tt ->
  rtc step (force_logout_user now cfg actor id w).2 w' ->
  (forall k t, w.(db).(refresh_tokens) !! k = Some t -> t.(t_user) = id ->
     exists t', w'.(db).(refresh_tokens) !! k = Some t' /\ t'.(t_revoked) <> None) /\
  (forall (decode_claims : Z -> string -> option Claims) (parse_i64 : string -> option Z) (to_str : string -> option string) now' h token c,
     bearer to_str h = Some token -> decode_claims now' token = Some c -> parse_i64 c.(sub) = Some id ->
     c.(tv) <= u.(token_version) -> is_ok (console_user now' decode_claims parse_i64 to_str h w').1 = false).
Proof.
  intros Hw Hu Hok Hs. pose proof (good_force_logout_user now actor id w Hw I) as Eall.
  assert (Hlo : logged_out id u.(token_version) w.(db).(token_seq) (force_logout_user now cfg actor id w).2.(db)).
  { unfold force_logout_user in *. apply bind_ok in Hok as (a & _ & Hok & ->). apply bind_ok in Hok as ([] & Hf & _ & ->).
    apply force_logout_effect with (u := u) in Hf; rewrite ?target_user_db in *; [|done..].
    destruct (log_db (Some actor) "user.force_logout" user_target (Some id) None (force_logout now id (target_user cfg id w).2).2) as (L1 & L2 & L3).
    unfold logged_out in *. by rewrite L1, L2, L3. }
  pose proof (history_evolves _ _ (ev_wf _ _ Eall) Hs) as E. apply (stable_logged_out _ _ _ _ _ Hlo) in E as Hlo'.
  destruct Hlo' as (_ & Ht & u' & Hu' & Hv). split.
  - intros k t Hk Hid. destruct (ev_token _ _ (evolves_trans _ _ _ Eall E) _ _ Hk) as (t' & Hk' & Eu & _).
    exists t'. split; [done|]. eapply Ht; eauto; [|congruence]. by eapply wf_token.
  - intros decode_claims parse_i64 to_str now' h token c Hb Hd Hp Htv. unfold console_user. rewrite Hb. unfold verify_access. rewrite Hd, Hp.
    unfold bind, find_by_id, query, stmt. destruct (default false _); [done|]. rewrite Hu'.
    destruct (negb (u_status u' =? 1)); [done|]. destruct (Z.eqb_spec (token_version u') (tv c)); [lia|done].
Qed.

(** *** Refresh tokens *)

(** The tokens with the hash that were issued before are spent. *)
Definition spent (hash : string) (now n : Z) (s : Db) : Prop :=
  n <= s.(token_seq) /\
  forall k t, s.(refresh_tokens) !! k = Some t -> k < n -> t.(t_hash) = hash -> t.(t_revoked) <> None \/ t.(t_expires) <= now.
Lemma stable_spent hash now n : stable (spent hash now n).
Proof.
  intros s s' (Hn & Ht) E. split; [pose proof (ev_seq _ _ E); lia|].
  intros k t' Ht' Hk Hh. destruct (refresh_tokens s !! k) as [t|] eqn:Ek.
  - destruct (ev_token _ _ E _ _ Ek) as (t2 & Ht2 & _ & Eh & Ex & Er). rewrite Ht' in Ht2. injection Ht2 as <-.
    rewrite Ex. destruct (Ht k t Ek Hk ltac:(congruence)); auto.
  - pose proof (ev_new _ _ E _ _ Ht' Ek). lia.
Qed.

Lemma revoke_if_active_spent now hash w :
  wf w.(db) -> is_ok (revoke_if_active now hash w).1 = true -> spent hash now w.(db).(token_seq) (revoke_if_active now hash w).2.(db).
Proof.
  intros Hw. unfold revoke_if_active, stmt. destruct (default false _); [done|]. intros _. cbn. split; cbn; [lia|].
  intros k t Hk _ Hh. rewrite lookup_fmap in Hk. destruct (refresh_tokens (db w) !! k) as [t0|]; [|done]. cbn in Hk. injection Hk as <-.
  destruct (is_active now hash t0) eqn:Ea; [by left|]. unfold is_active in Ea. rewrite bool_decide_true in Ea by done. cbn in Ea.
  destruct (t_revoked t0); [by left|]. cbn in Ea. right. lia.
Qed.

(** C27: a refresh token buys one session: when a refresh has succeeded, every later refresh with the same token
    fails, unless its hash has been issued anew. *)
Theorem refresh_once now now' token w w' s :
  wf w.(db) -> (refresh now sha256_hex encode_claims cfg token w).1 = Ok s ->
  rtc step (refresh now sha256_hex encode_claims cfg token w).2 w' -> now <= now' ->
  (forall k t, w'.(db).(refresh_tokens) !! k = Some t -> t.(t_hash) = sha256_hex token -> k < w.(db).(token_seq)) ->
  is_ok (refresh now' sha256_hex encode_claims cfg token w').1 = false.
Proof.
  intros Hw Hok Hs Hnow Hfresh. pose proof (good_refresh now token w Hw I) as Eall.
  assert (Hsp : spent (sha256_hex token) now w.(db).(token_seq) (refresh now sha256_hex encode_claims cfg token w).2.(db)).
  { unfold refresh in Hok |- *. apply bind_ok in Hok as (a & Hok & _ & ->).
    destruct (transaction_ok _ _ _ Hok) as (w0 & E0 & Hm & E1). apply bind_ok in Hm as (row & Hr & _ & E2).
    assert (W0 : wf w0.(db)) by (by rewrite E0). pose proof (good_revoke_if_active always now (sha256_hex token) w0 W0 I) as Ev.
    pose proof (revoke_if_active_spent now (sha256_hex token) w0 W0 ltac:(by rewrite Hr)) as Hsp. rewrite E0 in Hsp.
    pose proof (good_reissue now row _ (ev_wf _ _ Ev) I) as Ev2. apply (stable_spent _ _ _ _ _ Hsp) in Ev2 as Hsp2.
    rewrite <-E2, <-E1 in Hsp2. eapply stable_spent; [exact Hsp2|].
    assert (G : good always (let! _ := touch_last_login now (u_id (session_user a)) in ret a)) by handler.
    apply G; [|done]. rewrite E1, E2. apply Ev2. }
  pose proof (history_evolves _ _ (ev_wf _ _ Eall) Hs) as E. apply (stable_spent _ _ _ _ _ Hsp) in E as [_ Hsp'].
  assert (Hnone : forall w2, w2.(db) = w'.(db) -> active_rows now' (sha256_hex token) w2.(db) = []).
  { intros w2 ->. unfold active_rows. apply filter_false. intros [k t] Hk%elem_of_map_to_list. cbn. unfold is_active.
    case_bool_decide as Eh; [|done]. destruct (Hsp' k t Hk) as [Hr|Hx]; [by eapply Hfresh|done| |].
    - by rewrite bool_decide_false.
    - destruct (Z.ltb_spec now' (t_expires t)); [lia|]. by rewrite andb_false_r. }
  unfold refresh. destruct (bind _ _ w') as [[s'|] w2] eqn:Eb; [|done].
  assert (Hok' : (refresh now' sha256_hex encode_claims cfg token w').1 = Ok s') by (unfold refresh; by rewrite Eb).
  unfold refresh in Hok'. apply bind_ok in Hok' as (a & Hok' & _). destruct (transaction_ok _ _ _ Hok') as (w0 & E0 & Hm & _).
  apply bind_ok in Hm as (row & Hr & Hm & _). unfold revoke_if_active, stmt in Hr, Hm.
  destruct (default false _); [done|]. cbn [fst snd] in *. rewrite Hnone in Hr by done. injection Hr as <-. done.
Qed.

End sessions.

(** *** Keys *)

Lemma fold_xor_zero a b acc :
  String.length a = String.length b -> (fold_xor a b acc = 0 <-> acc = 0 /\ a = b).
Proof.
  revert b acc. induction a as [|x a IH]; intros [|y b] acc Hl; try done; [naive_solver|]. cbn in Hl. injection Hl as Hl.
  cbn [fold_xor]. rewrite IH by done. rewrite Z.lor_eq_0_iff, Z.lxor_eq_0_iff, Nat2Z.inj_iff. split.
  - intros [[-> Hx] ->]. split; [done|]. f_equal. by rewrite <-(Ascii.ascii_nat_embedding x), Hx, Ascii.ascii_nat_embedding.
  - intros [-> [= -> ->]]. done.
Qed.
Lemma constant_time_eq_spec a b : constant_time_eq a b = bool_decide (a = b).
Proof.
  unfold constant_time_eq. destruct (Nat.eqb_spec (String.length a) (String.length b)) as [Hl|Hl]; cbn [andb].
  - apply eq_bool_prop_intro. rewrite !Is_true_true, bool_decide_eq_true, Z.eqb_eq, fold_xor_zero by done. naive_solver.
  - symmetry. apply bool_decide_eq_false. by intros ->.
Qed.

(** The candidates are the enabled keys with the prefix, with the state of their owners. *)
Lemma candidate_elem s prefix r :
  r ∈ omap (joined_key s) (List.filter (fun kk => bool_decide (kk.2.(k_prefix) = prefix) && (kk.2.(k_status) =? 1)) (map_to_list s.(api_keys))) <->
  exists k row u, s.(api_keys) !! k = Some row /\ row.(k_prefix) = prefix /\ row.(k_status) = 1 /\ s.(users) !! row.(k_user) = Some u /\
    r = {| ak_id := k; ak_user_id := row.(k_user); ak_key_hash := row.(k_hash); ak_expires_at := row.(k_expires); ak_user_status := u.(u_status) |}.
Proof.
  rewrite list_elem_of_omap. setoid_rewrite list_elem_of_In. setoid_rewrite List.filter_In. setoid_rewrite <-list_elem_of_In. split.
  - intros ([k row] & [Hin%elem_of_map_to_list Hf] & Hj). unfold joined_key in Hj. cbn in *. apply andb_true_iff in Hf as [H1%bool_decide_eq_true H2%Z.eqb_eq].
    destruct (users s !! k_user row) as [u|] eqn:Eu; [|done]. injection Hj as <-. exists k, row, u. done.
  - intros (k & row & u & Hk & Hp & Hs & Hu & ->). exists (k, row). split.
    + split; [by apply elem_of_map_to_list|]. cbn. by rewrite bool_decide_true, Hs.
    + unfold joined_key. cbn. by rewrite Hu.
Qed.

Section keys.
Context (sha256_hex : string -> string) (encrypt_key to_str : string -> option string) (cfg : AuthConfig).

(** C28: a request is taken for that of a user only with the text of a key whose hash is stored, that is neither
    revoked nor expired, and whose owner is that user and is enabled. *)
Theorem key_admits_owner now h w u k :
  (authenticate now sha256_hex to_str cfg h w).1 = Ok (Some u, k) ->
  exists key id row user,
    client_key to_str h = Some key /\ k = Some id /\ w.(db).(api_keys) !! id = Some row /\ row.(k_hash) = sha256_hex key /\
    row.(k_status) = 1 /\ (forall e, row.(k_expires) = Some e -> now < e) /\
    row.(k_user) = u /\ w.(db).(users) !! u = Some user /\ user.(u_status) = 1.
Proof.
  unfold authenticate. destruct (negb (auth_required cfg)); [done|]. destruct (client_key to_str h) as [key|]; [|done].
  destruct (_ <? 16)%nat; [done|]. unfold bind, find_all_by_prefix, query, stmt. destruct (default false _); [done|]. cbn [fst snd].
  destruct (match_candidate _ _ _) as [r|] eqn:Em; [|done]. unfold match_candidate in Em.
  apply List.find_some in Em as [Hin Hh]. rewrite constant_time_eq_spec in Hh. apply bool_decide_eq_true in Hh.
  apply list_elem_of_In, candidate_elem in Hin as (id & row & user & Hk & _ & Hs & Hu & ->). cbn in *.
  destruct (match k_expires row with Some e => e <=? now | None => false end) eqn:Ee; [done|].
  destruct (Z.eqb_spec (u_status user) 1) as [Hst|]; [|done]. intros [= <- <-]. exists key, id, row, user. split_and!; try done.
  intros e He. rewrite He in Ee. lia.
Qed.

(** The key that [create_key] returns is stored under its hash and its prefix. *)
Lemma create_key_effect u name ex w plain id :
  (create_key sha256_hex encrypt_key u name ex w).1 = Ok (plain, id) ->
  let s' := (create_key sha256_hex encrypt_key u name ex w).2.(db) in
  s'.(users) = w.(db).(users) /\
  exists row, s'.(api_keys) = <[id := row]> w.(db).(api_keys) /\ row.(k_user) = u.(u_id) /\ row.(k_prefix) = str_take 12 plain /\
    row.(k_hash) = sha256_hex plain /\ row.(k_expires) = ex /\ row.(k_status) = 1.
Proof.
  cbv zeta. unfold create_key. intros Hok. apply bind_ok in Hok as (name' & Hc & Hok & ->).
  assert (Hdb : (create_key_check u name w).2.(db) = w.(db)).
  { unfold create_key_check. cbv zeta. destruct (_ || _); [done|]. unfold bind, query, stmt. destruct (default false _); [done|]. cbn. by destruct (_ <=? _). }
  revert Hok. generalize (create_key_check u name w).2, Hdb. clear Hc Hdb. intros w1 E1. rewrite <-E1.
  unfold create_key_insert, random_hex, bind, create_key_row, log, execute, stmt, ret, throw. cbv zeta.
  destruct (encrypt_key _) as [enc|]; [|done]. cbn [faults db].
  destruct (default false _); [done|]. cbn [faults db with_db fst snd]. destruct (default false _); [done|].
  cbn. intros [= <- <-]. split; [done|]. eexists. split_and!; done.
Qed.

(** The key that is shown when it is created authenticates its owner from then on, as long as it has not
    expired, its owner is enabled and the database answers. *)
Theorem created_key_works now u name ex w plain id w' h user :
  (create_key sha256_hex encrypt_key u name ex w).1 = Ok (plain, id) ->
  w'.(db) = (create_key sha256_hex encrypt_key u name ex w).2.(db) -> w'.(faults) = [] ->
  (forall k row, w.(db).(api_keys) !! k = Some row -> row.(k_hash) <> sha256_hex plain) ->
  w.(db).(users) !! u.(u_id) = Some user -> user.(u_status) = 1 -> (forall e, ex = Some e -> now < e) ->
  cfg.(auth_required) = true -> client_key to_str h = Some plain -> (16 <= String.length plain)%nat ->
  (authenticate now sha256_hex to_str cfg h w').1 = Ok (Some u.(u_id), Some id).
Proof.
  intros Hok E Hf Hfresh Hu Hst Hex Ha Hc Hl. destruct (create_key_effect _ _ _ _ _ _ Hok) as (Eu & row & Ek & R1 & R2 & R3 & R4 & R5).
  unfold authenticate. rewrite Ha, Hc. cbn [negb]. destruct (Nat.ltb_spec (String.length plain) 16); [lia|].
  unfold bind, find_all_by_prefix, query. rewrite stmt_ok by done. cbn [fst snd]. rewrite E.
  set (s := db (create_key sha256_hex encrypt_key u name ex w).2) in *.
  set (rows := omap _ _). set (mine := {| ak_id := id; ak_user_id := u_id u; ak_key_hash := sha256_hex plain; ak_expires_at := ex; ak_user_status := 1 |}).
  assert (Hall : forall r, r ∈ rows -> r.(ak_key_hash) = sha256_hex plain -> r = mine).
  { intros r Hr Hh. apply candidate_elem in Hr as (k & row' & v & Hk & _ & _ & Hv & ->). cbn in Hh. rewrite Ek in Hk.
    apply lookup_insert_Some in Hk as [[<- <-]|[_ Hk]]; [|by destruct (Hfresh _ _ Hk)].
    rewrite Eu, R1, Hu in Hv. injection Hv as <-. unfold mine. by rewrite R1, R3, R4, Hst. }
  assert (Hin : mine ∈ rows).
  { apply candidate_elem. exists id, row, user. rewrite Ek, lookup_insert_eq, Eu, R1, R2, R3, R4, R5, Hst. done. }
  unfold match_candidate. destruct (List.find _ rows) as [r|] eqn:Em.
  - apply List.find_some in Em as [Hr Hh]. rewrite constant_time_eq_spec in Hh. apply bool_decide_eq_true in Hh.
    rewrite (Hall r) by (try done; by apply list_elem_of_In). cbn. destruct ex as [e|]; [|done].
    specialize (Hex e eq_refl). by destruct (Z.leb_spec e now); [lia|].
  - apply list_elem_of_In in Hin. apply (List.find_none _ _ Em) in Hin. rewrite constant_time_eq_spec in Hin. by rewrite bool_decide_true in Hin.
Qed.
End keys.

(** ** A small installation *)

Module Sample.
Definition sha256_hex (s : string) : string := "h:" +:+ s.
Definition hash_password (s : string) : string := "p:" +:+ s.
Definition verify_password (pw h : string) : bool := bool_decide (h = "p:" +:+ pw).
Definition encode_claims (c : Claims) : option string := Some ("t:" +:+ c.(sub)).
Definition decode_claims (now : Z) (token : string) : option Claims :=
  Some {| sub := "7"; c_username := "bob"; c_admin := false; tv := 0; jti := ""; iat := 0; exp := 900 |}.
Definition parse_i64 (s : string) : option Z := if bool_decide (s = "7") then Some 7 else None.
Definition no_directory (name pw : string) : result Identity LdapError := Err (Transport "timeout").
Definition directory (name pw : string) : result Identity LdapError :=
  Ok {| dn := "uid=bob"; id_email := None; id_display := None; id_admin := false |}.
Definition cfg : AuthConfig :=
  {| auth_required := true; seed_admin_username := Some "root"; access_token_ttl := 900; refresh_token_ttl := 86400; ldap_configured := true |}.

Definition user (id : Z) (name pw : string) (admin : bool) : UserRow :=
  {| u_id := id; username := name; email := None; display_name := None; ldap_dn := None; source := "local";
     password_hash := Some (hash_password pw); is_admin := admin; u_status := 1; token_version := 0;
     last_login_at := None; u_created_at := 0 |}.
Definition bob : UserRow := user 7 "bob" "oldpassword" false.
Definition root : UserRow := user 1 "root" "break-glass" true.
Definition no_plans : PlanTables :=
  {| coding_plans := ∅; user_groups := ∅; members := ∅; plan_users := ∅; plan_groups := ∅; plan_seq := 1; group_seq := 1; notices := [] |}.
Definition no_config : ConfigTables :=
  {| providers := ∅; model_routes := ∅; models := ∅; rate_rules := ∅; prices := ∅; access_rules := ∅;
     settings := {| st_extra_body := true; st_messages := {| tpl_concurrency := ""; tpl_model_denied := "" |};
                    st_upstream_headers := VObject []; st_response_headers := VObject [];
                    st_endpoints := {| es_responses_enabled := true; es_responses_visible := true;
                                       es_messages_enabled := true; es_messages_visible := true |} |};
     provider_seq := 1; route_seq := 1; model_seq := 1; rule_seq := 1; price_seq := 1; access_seq := 1 |}.
Definition start (keys : gmap Z KeyRow) : World :=
  {| db := {| users := {[7 := bob; 1 := root]};
              refresh_tokens := {[3 := {| t_user := 7; t_hash := sha256_hex "r0"; t_expires := seconds 1000; t_revoked := None |}]};
              api_keys := keys; audit_logs := []; planning := no_plans; config := no_config; user_seq := 8; token_seq := 4; key_seq := 100 |};
     faults := []; entropy := ["0123456789abcdef"; "fedcba9876543210"; "u2"; "r2"]; caches := {| admin_ids := {[1]}; plans := ∅; conf := load_config no_config |} |}.

Lemma start_wf : wf (start ∅).(db).
Proof.
  split; cbn.
  - intros id u [[<- <-]|[_ [<- <-]%lookup_singleton_Some]]%lookup_insert_Some; cbn; lia.
  - intros i j u v [[<- <-]|[_ [<- <-]%lookup_singleton_Some]]%lookup_insert_Some
      [[<- <-]|[_ [<- <-]%lookup_singleton_Some]]%lookup_insert_Some; done.
  - intros k t [<- <-]%lookup_singleton_Some. lia.
  - intros k r Hk. by rewrite lookup_empty in Hk.
Qed.

Abbreviation run_login now ldap name pw := (login now sha256_hex verify_password encode_claims ldap cfg name pw).
Abbreviation run_refresh now token := (refresh now sha256_hex encode_claims cfg token).
End Sample.

Lemma break_glass_witness :
  is_ok (Sample.run_login 5 Sample.no_directory "root" "break-glass" (Sample.start ∅)).1 = true.
Proof.
  apply (break_glass Sample.sha256_hex Sample.hash_password Sample.verify_password Sample.encode_claims Some Some Sample.no_directory
           Sample.cfg (fun _ => "") (Sample.start ∅) (Sample.start ∅) 1 Sample.root "root" "break-glass" 5).
  - apply Sample.start_wf.
  - apply rtc_refl.
  - vm_compute. reflexivity.
  - reflexivity.
  - vm_compute. reflexivity.
  - reflexivity.
  - exists (Sample.hash_password "break-glass"). vm_compute. split; reflexivity.
  - vm_compute. reflexivity.
  - vm_compute. reflexivity.
  - intros c H. discriminate H.
  - reflexivity.
Defined.

Lemma forced_logout_final_witness :
  exists t', (force_logout_user 5 Sample.cfg 1 7 (Sample.start ∅)).2.(db).(refresh_tokens) !! 3 = Some t' /\ t'.(t_revoked) <> None.
Proof.
  refine (proj1 (forced_logout_final Sample.sha256_hex Sample.hash_password Sample.verify_password Sample.encode_claims
           Some Some Sample.no_directory Sample.cfg (fun _ => "") 5 1 7 (Sample.start ∅) _ Sample.bob
           Sample.start_wf _ _ (rtc_refl _ _)) 3 _ _ _); vm_compute; reflexivity.
Defined.

Lemma refresh_once_witness :
  is_ok (Sample.run_refresh 6 "r0" (Sample.run_refresh 5 "r0" (Sample.start ∅)).2).1 = false.
Proof.
  destruct (Sample.run_refresh 5 "r0" (Sample.start ∅)).1 as [s|] eqn:E; [|vm_compute in E; discriminate E].
  refine (refresh_once Sample.sha256_hex Sample.hash_password Sample.verify_password Sample.encode_claims Some Some Sample.no_directory
            Sample.cfg (fun _ => "") 5 6 "r0" (Sample.start ∅) _ s Sample.start_wf E (rtc_refl _ _) _ _); [lia|].
  assert (H : map_Forall (fun k t => t.(t_hash) = Sample.sha256_hex "r0" -> k < 4)
                (Sample.run_refresh 5 "r0" (Sample.start ∅)).2.(db).(refresh_tokens)) by (apply (bool_decide_unpack _); vm_compute; reflexivity).
  intros k t Hk Hh. exact (H k t Hk Hh).
Defined.

Definition a_key : KeyRow :=
  {| k_user := 7; k_name := "k"; k_prefix := "sk-012345678"; k_hash := "h:sk-0123456789abcdef"; k_encrypted := None; k_expires := None; k_status := 1 |}.
Definition key_header : list (string * string) := [("x-api-key", "sk-0123456789abcdef")].
Lemma key_admits_owner_witness :
  exists key id row user,
    client_key Some key_header = Some key /\ Some 9 = Some id /\ (Sample.start {[9 := a_key]}).(db).(api_keys) !! id = Some row /\
    row.(k_hash) = Sample.sha256_hex key /\ row.(k_status) = 1 /\ (forall e, row.(k_expires) = Some e -> 5 < e) /\
    row.(k_user) = 7 /\ (Sample.start {[9 := a_key]}).(db).(users) !! 7 = Some user /\ user.(u_status) = 1.
Proof.
  apply (key_admits_owner Sample.sha256_hex Some Sample.cfg 5 key_header (Sample.start {[9 := a_key]}) 7 (Some 9)).
  vm_compute. reflexivity.
Defined.

Lemma created_key_works_witness :
  (authenticate 5 Sample.sha256_hex Some Sample.cfg key_header (create_key Sample.sha256_hex Some Sample.bob "laptop" None (Sample.start ∅)).2).1 =
  Ok (Some 7, Some 100).
Proof.
  refine (created_key_works Sample.sha256_hex Some Some Sample.cfg 5 Sample.bob "laptop" None (Sample.start ∅) "sk-0123456789abcdef" 100
           _ key_header Sample.bob _ eq_refl _ _ _ _ _ _ _ _).
  - vm_compute. reflexivity.
  - vm_compute. reflexivity.
  - intros k row Hk. exfalso. revert Hk. change (api_keys (db (Sample.start ∅))) with (∅ : gmap Z KeyRow). rewrite lookup_empty. discriminate.
  - vm_compute. reflexivity.
  - reflexivity.
  - intros e H. discriminate H.
  - reflexivity.
  - vm_compute. reflexivity.
  - vm_compute. lia.
Defined.

(** ** Behaviours at odds with the comments *)

(** A login that has checked the old password when an administrator resets it issues its session afterwards, and the
    refresh token of that session is then exchanged for a new one: the new token escapes the forced logout. *)
Theorem login_escapes_reset :
  let '(checked, w1) := login_user 5 Sample.verify_password Sample.no_directory Sample.cfg "bob" "oldpassword" (Sample.start ∅) in
  let '(reset, w2) := reset_password 5 Sample.hash_password Sample.cfg 1 7 "new-password" w1 in
  let '(session, w3) := (let! u := (fun w => (checked, w)) in issue_session 6 Sample.sha256_hex Sample.encode_claims Sample.cfg u) w2 in
  let '(again, _) := (let! s := (fun w => (session, w)) in Sample.run_refresh 7 s.(refresh_token)) w3 in
  is_ok checked = true /\ reset = Ok tt /\ is_ok session = true /\ is_ok again = true.
Proof. vm_compute. split_and!; reflexivity. Qed.

(** A local account that the directory has taken over keeps its local password: when the directory cannot be
    reached, the old password still opens a session. *)
Theorem local_password_survives_directory :
  let '(first, w1) := Sample.run_login 5 Sample.directory "bob" "directory-pw" (Sample.start ∅) in
  (exists s, first = Ok s /\ s.(session_user).(source) = "ldap") /\
  exists s, (Sample.run_login 6 Sample.no_directory "bob" "oldpassword" w1).1 = Ok s /\ s.(session_user).(source) = "ldap".
Proof. vm_compute. split; eexists; split; reflexivity. Qed.

(** Two requests that count the keys before either inserts one leave a user with eleven active keys. *)
Definition nine_keys : gmap Z KeyRow := list_to_map ((fun i => (Z.of_nat i, a_key)) <$> seq 1 9).
Theorem eleven_keys :
  let w0 := Sample.start nine_keys in
  let '(c1, w1) := create_key_check Sample.bob "a" w0 in
  let '(c2, w2) := create_key_check Sample.bob "b" w1 in
  let '(r1, w3) := create_key_insert Sample.sha256_hex Some Sample.bob "a" None w2 in
  let '(r2, w4) := create_key_insert Sample.sha256_hex Some Sample.bob "b" None w3 in
  c1 = Ok "a" /\ c2 = Ok "b" /\ is_ok r1 = true /\ is_ok r2 = true /\ active_keys 7 w4.(db) = 11.
Proof. vm_compute. split_and!; reflexivity. Qed.
