(* ===== verification/PlanHistory.v ===== *)
(** * Properties of plans and their members

What the operations of [PlanConfig] and [PlanMembers] keep true, whatever their order and whatever fails: the tables
stay consistent, a change of members is made as a whole, the synchronisation with the directory leaves the members
that were added by hand, and the plans that requests see are those of the tables. *)

From S2P Require Import Prelude Float Json Errors Routing Calendar Plans Metering Body Streams Chat AnthropicResponse ErrorShape Upstream ConfigTables Database.
From S2P Require Import PlanConfig Accounts PlanMembers Sessions.

Local Open Scope Z_scope.

(** ** Consistent tables *)

Record tables_ok (s : Db) : Prop := {
  to_plan : forall id p, s.(planning).(coding_plans) !! id = Some p -> p.(cp_id) = id /\ id < s.(planning).(plan_seq) /\ plan_sound p;
  to_plan_name : forall i j p q, s.(planning).(coding_plans) !! i = Some p -> s.(planning).(coding_plans) !! j = Some q ->
    p.(cp_name) = q.(cp_name) -> i = j;
  to_group : forall id g, s.(planning).(user_groups) !! id = Some g -> g.(g_id) = id /\ id < s.(planning).(group_seq);
  to_group_name : forall i j g h, s.(planning).(user_groups) !! i = Some g -> s.(planning).(user_groups) !! j = Some h ->
    g.(g_name) = h.(g_name) -> i = j;
  to_member : forall g u m, s.(planning).(members) !! (g, u) = Some m -> is_Some (s.(planning).(user_groups) !! g) /\ is_Some (s.(users) !! u);
  to_plan_user : forall p u t, s.(planning).(plan_users) !! (p, u) = Some t -> is_Some (s.(planning).(coding_plans) !! p) /\ is_Some (s.(users) !! u);
  to_plan_group : forall p g t, s.(planning).(plan_groups) !! (p, g) = Some t ->
    is_Some (s.(planning).(coding_plans) !! p) /\ is_Some (s.(planning).(user_groups) !! g);
}.
Definition consistent (s s' : Db) : Prop := tables_ok s -> tables_ok s'.
#[local] Instance consistent_preorder : PreOrder consistent.
Proof. split; [intros s H; exact H|]. intros s1 s2 s3 H1 H2 H. by apply H2, H1. Qed.

(** The other tables may change, as long as no user is lost. *)
Lemma consistent_users s s' : s'.(planning) = s.(planning) -> (forall u, is_Some (s.(users) !! u) -> is_Some (s'.(users) !! u)) -> consistent s s'.
Proof. intros E Hu [H1 H2 H3 H4 H5 H6 H7]. split; rewrite ?E; try done; naive_solver. Qed.

Lemma keeps_log a b c d e : keeps consistent (log a b c d e).
Proof. apply keeps_stmt; [apply _|]. intros s. by apply consistent_users. Qed.
Lemma keeps_on_plans {A} (f : PlanTables -> A * PlanTables) :
  (forall s, consistent s (set_planning (f s.(planning)).2 s)) -> keeps consistent (on_plans f).
Proof. intros H. apply keeps_stmt; [apply _|]. intros s. specialize (H s). by destruct (f (planning s)). Qed.
Lemma keeps_checked {A} (f : Db -> option (A * PlanTables)) :
  (forall s a t, f s = Some (a, t) -> consistent s (set_planning t s)) -> keeps consistent (checked f).
Proof.
  intros H. apply keeps_bind; [apply _|..|intros []; [by apply keeps_ret; apply _|by apply keeps_throw; apply _]].
  apply keeps_stmt; [apply _|]. intros s. destruct (f s) as [[a t]|] eqn:E; [by eapply H|done].
Qed.
Lemma keeps_outcome {A} (R : relation Db) (m : M A) : keeps R m -> keeps R (outcome m).
Proof. intros H w. apply H. Qed.
Lemma keeps_attempt (R : relation Db) (m : M unit) : keeps R m -> keeps R (attempt m).
Proof. intros H w. apply H. Qed.

(** *** Statements on plans *)

Lemma plan_name_free t id name i q :
  plan_name_taken t id name = false -> t.(coding_plans) !! i = Some q -> i <> id -> q.(cp_name) <> name.
Proof.
  intros H Hi Hne E. apply not_true_iff_false in H. apply H. apply existsb_exists. exists (i, q). split.
  - by apply list_elem_of_In, elem_of_map_to_list.
  - cbn. rewrite bool_decide_true by done. by destruct (Z.eqb_spec i id).
Qed.
Lemma consistent_write_plan s p t :
  t.(coding_plans) = s.(planning).(coding_plans) -> t.(user_groups) = s.(planning).(user_groups) -> t.(members) = s.(planning).(members) ->
  t.(plan_users) = s.(planning).(plan_users) -> t.(plan_groups) = s.(planning).(plan_groups) ->
  s.(planning).(plan_seq) <= t.(plan_seq) -> t.(group_seq) = s.(planning).(group_seq) -> p.(cp_id) < t.(plan_seq) ->
  (plan_row_ok p = true -> plan_sound p) -> consistent s (set_planning (write_plan p t).2 s).
Proof.
  intros E1 E2 E3 E4 E5 Hseq E6 Hid Hp [H1 H2 H3 H4 H5 H6 H7]. unfold write_plan.
  assert (Hsame : tables_ok (set_planning t s)).
  { split; cbn; rewrite ?E1, ?E2, ?E3, ?E4, ?E5, ?E6; try done. intros i q Hi. destruct (H1 _ _ Hi) as (? & ? & ?). split_and!; [done|lia|done]. }
  destruct (plan_row_ok p); [|done]. cbn [negb]. destruct (plan_name_taken _ _ _) eqn:En; [done|]. cbn [snd]. clear Hsame.
  assert (Hfree : forall i q, coding_plans (planning s) !! i = Some q -> i <> cp_id p -> cp_name q <> cp_name p).
  { intros i q. rewrite <-E1. by apply plan_name_free. }
  split; cbn; rewrite ?E1, ?E2, ?E3, ?E4, ?E5, ?E6; try done.
  - intros i q [[<- <-]|[Hne Hi]]%lookup_insert_Some; [split_and!; [done|lia|by apply Hp]|].
    destruct (H1 _ _ Hi) as (? & ? & ?). split_and!; [done|lia|done].
  - intros i j q r [[<- <-]|[Hi Hq]]%lookup_insert_Some [[<- <-]|[Hj Hr]]%lookup_insert_Some En'; [done|..|by eapply H2].
    + by destruct (Hfree j r Hr).
    + by destruct (Hfree i q Hq).
  - intros i u x Hx. destruct (H6 _ _ _ Hx) as [Hi Hu]. split; [|done]. by apply lookup_insert_is_Some'; right.
  - intros i g x Hx. destruct (H7 _ _ _ Hx) as [Hi Hu]. split; [|done]. by apply lookup_insert_is_Some'; right.
Qed.

Lemma consistent_drop_plan s id : consistent s (set_planning (drop_plan id s.(planning)) s).
Proof.
  intros [H1 H2 H3 H4 H5 H6 H7]. split; cbn; try done.
  - intros i p [Hne Hi]%lookup_delete_Some. by apply H1.
  - intros i j p q [_ Hi]%lookup_delete_Some [_ Hj]%lookup_delete_Some. by eapply H2.
  - intros p u t [Hp Hf]%map_lookup_filter_Some. destruct (H6 _ _ _ Hp) as [Hi Hu]. split; [|done]. cbn in Hf. unfold of_plan in Hf.
    rewrite lookup_delete_ne; [done|]. cbn in Hf. lia.
  - intros p g t [Hp Hf]%map_lookup_filter_Some. destruct (H7 _ _ _ Hp) as [Hi Hu]. split; [|done]. cbn in Hf. unfold of_plan in Hf.
    rewrite lookup_delete_ne; [done|]. cbn in Hf. lia.
Qed.

(** *** Statements on groups *)

Lemma group_name_free t id name i q :
  group_name_taken t id name = false -> t.(user_groups) !! i = Some q -> i <> id -> q.(g_name) <> name.
Proof.
  intros H Hi Hne E. apply not_true_iff_false in H. apply H. apply existsb_exists. exists (i, q). split.
  - by apply list_elem_of_In, elem_of_map_to_list.
  - cbn. rewrite bool_decide_true by done. by destruct (Z.eqb_spec i id).
Qed.
Lemma consistent_write_group s g t :
  t.(coding_plans) = s.(planning).(coding_plans) -> t.(user_groups) = s.(planning).(user_groups) -> t.(members) = s.(planning).(members) ->
  t.(plan_users) = s.(planning).(plan_users) -> t.(plan_groups) = s.(planning).(plan_groups) ->
  t.(plan_seq) = s.(planning).(plan_seq) -> s.(planning).(group_seq) <= t.(group_seq) -> g.(g_id) < t.(group_seq) ->
  consistent s (set_planning (write_group g t).2 s).
Proof.
  intros E1 E2 E3 E4 E5 E6 Hseq Hid [H1 H2 H3 H4 H5 H6 H7]. unfold write_group.
  assert (Hsame : tables_ok (set_planning t s)).
  { split; cbn; rewrite ?E1, ?E2, ?E3, ?E4, ?E5, ?E6; try done. intros i q Hi. destruct (H3 _ _ Hi) as (? & ?). split_and!; [done|lia]. }
  destruct (fits 128 (g_name g)); [|done]. cbn [negb]. destruct (group_name_taken _ _ _) eqn:En; [done|]. cbn [snd]. clear Hsame.
  assert (Hfree : forall i q, user_groups (planning s) !! i = Some q -> i <> g_id g -> g_name q <> g_name g).
  { intros i q. rewrite <-E2. by apply group_name_free. }
  split; cbn; rewrite ?E1, ?E2, ?E3, ?E4, ?E5, ?E6; try done.
  - intros i q [[<- <-]|[Hne Hi]]%lookup_insert_Some; [split_and!; [done|lia]|]. destruct (H3 _ _ Hi) as (? & ?). split_and!; [done|lia].
  - intros i j q r [[<- <-]|[Hi Hq]]%lookup_insert_Some [[<- <-]|[Hj Hr]]%lookup_insert_Some En'; [done|..|by eapply H4].
    + by destruct (Hfree j r Hr).
    + by destruct (Hfree i q Hq).
  - intros i u x Hx. destruct (H5 _ _ _ Hx) as [Hi Hu]. split; [|done]. by apply lookup_insert_is_Some'; right.
  - intros i u x Hx. destruct (H7 _ _ _ Hx) as [Hi Hu]. split; [done|]. by apply lookup_insert_is_Some'; right.
Qed.
Lemma consistent_drop_group s id : consistent s (set_planning (drop_group id s.(planning)) s).
Proof.
  intros [H1 H2 H3 H4 H5 H6 H7]. split; cbn; try done.
  - intros i p [Hne Hi]%lookup_delete_Some. by apply H3.
  - intros i j p q [_ Hi]%lookup_delete_Some [_ Hj]%lookup_delete_Some. by eapply H4.
  - intros g u t [Hp Hf]%map_lookup_filter_Some. destruct (H5 _ _ _ Hp) as [Hi Hu]. split; [|done]. cbn in Hf.
    rewrite lookup_delete_ne; [done|]. lia.
  - intros p g t [Hp Hf]%map_lookup_filter_Some. destruct (H7 _ _ _ Hp) as [Hi Hu]. split; [done|]. cbn in Hf.
    rewrite lookup_delete_ne; [done|]. lia.
Qed.
Lemma consistent_sync_result now b g text s : consistent s (set_planning (set_sync_result now b g text s.(planning)) s).
Proof.
  intros [H1 H2 H3 H4 H5 H6 H7].
  assert (Hl : forall i h', alter (synced now b text) g (user_groups (planning s)) !! i = Some h' ->
    exists h, user_groups (planning s) !! i = Some h /\ h'.(g_id) = h.(g_id) /\ h'.(g_name) = h.(g_name)).
  { intros i h' Hi. apply lookup_alter_Some in Hi as [(-> & h & Hi & ->)|[_ Hi]]; eauto. }
  split; cbn; try done.
  - intros i h' (h & Hi & -> & _)%Hl. by apply H3.
  - intros i j x y (x' & Hx & _ & Ex)%Hl (y' & Hy & _ & Ey)%Hl. rewrite Ex, Ey. by eapply H4.
  - intros i u x Hx. rewrite lookup_alter_is_Some. by eapply H5.
  - intros i h x Hx. rewrite lookup_alter_is_Some. by eapply H7.
Qed.

(** *** Statements on members *)

(** The rows that are there after new ones have been inserted. *)
Lemma insert_new_lookup {A} (owner : Z) (a : A) ids m k :
  (insert_new (pair owner) a ids m).2 !! k =
  match m !! k with Some b => Some b | None => if bool_decide (k.1 = owner /\ k.2 ∈ ids) then Some a else None end.
Proof.
  unfold insert_new. generalize 0. revert m. induction ids as [|x ids IH]; intros m n; cbn [foldl].
  - cbn. destruct (m !! k); [done|]. rewrite bool_decide_false; [done|]. intros [_ H]. by apply elem_of_nil in H.
  - unfold add_new at 2. cbn [snd fst]. destruct (m !! (owner, x)) as [b|] eqn:E.
    + rewrite IH. destruct (m !! k) as [c|] eqn:Ek; [done|]. apply f_equal with (f := fun b : bool => if b then Some a else None).
      apply bool_decide_ext. rewrite elem_of_cons. destruct k as [k1 k2]. cbn. split; [naive_solver|].
      intros [-> [->|H]]; [congruence|done].
    + rewrite IH. destruct (decide (k = (owner, x))) as [->|Hk].
      * rewrite lookup_insert_eq, E. cbn. rewrite bool_decide_true; [done|]. split; [done|by left].
      * rewrite lookup_insert_ne by done. destruct (m !! k) as [c|]; [done|]. apply f_equal with (f := fun b : bool => if b then Some a else None).
        apply bool_decide_ext. rewrite elem_of_cons. destruct k as [k1 k2]. cbn. split; [naive_solver|].
        intros [-> [->|H]]; [done|done].
Qed.
Lemma join_rows_Some {A B C} (owners : gmap Z A) (targets : gmap Z B) owner (a : C) ids m n m' :
  join_rows owners targets owner a ids m = Some (n, m') ->
  insert_new (pair owner) a ids m = (n, m') /\
  forall k, m' !! k = match m !! k with Some b => Some b | None => if bool_decide (k.1 = owner /\ k.2 ∈ ids) then Some a else None end /\
            (m !! k = None -> is_Some (m' !! k) -> is_Some (owners !! k.1) /\ is_Some (targets !! k.2)).
Proof.
  unfold join_rows. cbv zeta. destruct (_ || _) eqn:Ek; [|done]. intros [= E]. split; [done|]. intros k.
  assert (El := insert_new_lookup owner a ids m k). rewrite E in El. cbn [snd] in El. split; [done|]. intros Hn. rewrite El, Hn.
  case_bool_decide as Hb; [|by intros [? ?]]. intros _. destruct k as [k1 k2]. cbn in *. destruct Hb as [-> Hin].
  assert (Hf : k2 ∈ fresh_ids (pair owner) m ids).
  { apply list_elem_of_In, List.filter_In. split; [by apply list_elem_of_In|]. by apply bool_decide_eq_true. }
  apply orb_true_iff in Ek as [Ek%bool_decide_eq_true|Ek]; [rewrite Ek in Hf; by apply elem_of_nil in Hf|].
  apply andb_true_iff in Ek as [Ho Ht]. unfold known in *. rewrite forallb_forall in Ht. apply list_elem_of_In in Hf.
  specialize (Ht _ Hf). apply bool_decide_eq_true in Ht. split; [|done]. cbn in Ho. apply andb_true_iff in Ho as [Ho _]. by apply bool_decide_eq_true in Ho.
Qed.

Lemma consistent_plan_users s n plan t ids m :
  join_rows s.(planning).(coding_plans) s.(users) plan t ids s.(planning).(plan_users) = Some (n, m) ->
  consistent s (set_planning (set_plan_users m s.(planning)) s).
Proof.
  intros [_ Hm]%join_rows_Some [H1 H2 H3 H4 H5 H6 H7]. split; cbn; try done.
  intros p u x Hx. destruct (Hm (p, u)) as [El Hk]. destruct (plan_users (planning s) !! (p, u)) as [y|] eqn:E; [by eapply H6|].
  apply Hk; [done|]. by rewrite Hx.
Qed.
Lemma consistent_plan_groups s n plan t ids m :
  join_rows s.(planning).(coding_plans) s.(planning).(user_groups) plan t ids s.(planning).(plan_groups) = Some (n, m) ->
  consistent s (set_planning (set_plan_groups m s.(planning)) s).
Proof.
  intros [_ Hm]%join_rows_Some [H1 H2 H3 H4 H5 H6 H7]. split; cbn; try done.
  intros p u x Hx. destruct (Hm (p, u)) as [El Hk]. destruct (plan_groups (planning s) !! (p, u)) as [y|] eqn:E; [by eapply H7|].
  apply Hk; [done|]. by rewrite Hx.
Qed.
Lemma consistent_insert_members now source group ids s n t :
  insert_members now source group ids s = Some (n, t) -> consistent s (set_planning t s).
Proof.
  unfold insert_members. cbv zeta. destruct (join_rows _ _ _ _ _ _) as [[k m]|] eqn:E; [|done]. cbn. intros [= <- <-].
  apply join_rows_Some in E as [_ Hm]. intros [H1 H2 H3 H4 H5 H6 H7]. split; cbn; try done.
  intros p u x Hx. destruct (Hm (p, u)) as [El Hk]. destruct (members (planning s) !! (p, u)) as [y|] eqn:E; [by eapply H5|].
  apply Hk; [done|]. by rewrite Hx.
Qed.

Lemma remove_rows_lookup {A} owner (p : Z -> A -> bool) m k a :
  (remove_rows owner p m).2 !! k = Some a <-> m !! k = Some a /\ ((k.1 =? owner) && p k.2 a) = false.
Proof. unfold remove_rows. cbn. rewrite map_lookup_filter_Some. done. Qed.
Lemma consistent_remove_users s owner p : consistent s (set_planning (set_plan_users (remove_rows owner p s.(planning).(plan_users)).2 s.(planning)) s).
Proof. intros [H1 H2 H3 H4 H5 H6 H7]. split; cbn; try done. intros q u x [Hx _]%(remove_rows_lookup owner p _ (q, u)). by eapply H6. Qed.
Lemma consistent_remove_groups s owner p : consistent s (set_planning (set_plan_groups (remove_rows owner p s.(planning).(plan_groups)).2 s.(planning)) s).
Proof. intros [H1 H2 H3 H4 H5 H6 H7]. split; cbn; try done. intros q u x [Hx _]%(remove_rows_lookup owner p _ (q, u)). by eapply H7. Qed.
Lemma consistent_remove_members s owner p : consistent s (set_planning (set_members (remove_rows owner p s.(planning).(members)).2 s.(planning)) s).
Proof. intros [H1 H2 H3 H4 H5 H6 H7]. split; cbn; try done. intros q u x [Hx _]%(remove_rows_lookup owner p _ (q, u)). by eapply H5. Qed.

(** *** Runs *)

Create HintDb runs.
#[local] Hint Resolve keeps_ret keeps_throw keeps_query keeps_reload keeps_log consistent_preorder : runs.

(** Goes through a run statement by statement. *)
Ltac run :=
  repeat first
    [ progress intros
    | solve [eauto with runs]
    | match goal with
      | |- keeps ?R (outcome ?m) => refine (keeps_outcome R m _)
      | |- keeps ?R (attempt ?m) => refine (keeps_attempt R m _)
      end
    | keeps_step
    | case_match ].

Lemma keeps_find_plan id : keeps consistent (find_plan id).
Proof. unfold find_plan. run. Qed.
Lemma keeps_find_group id : keeps consistent (find_group id).
Proof. unfold find_group. run. Qed.
Lemma keeps_required_plan id : keeps consistent (required_plan id).
Proof. unfold required_plan, find_plan. run. Qed.
Lemma keeps_require_group id : keeps consistent (require_group id).
Proof. unfold require_group, find_group. run. Qed.
Lemma keeps_lift {A} (r : result A AppError) : keeps consistent (lift r).
Proof. unfold lift. run. Qed.
Lemma keeps_delete_plan_row id : keeps consistent (delete_plan_row id).
Proof. unfold delete_plan_row, find_plan. run. apply keeps_on_plans. intros s. apply consistent_drop_plan. Qed.
Lemma keeps_notice text : keeps consistent (system_notice text).
Proof. apply keeps_attempt, keeps_on_plans. intros s [H1 H2 H3 H4 H5 H6 H7]. by split. Qed.
Lemma keeps_insert_group now name description sync : keeps consistent (insert_group now name description sync).
Proof.
  unfold insert_group. apply keeps_bind; [exact consistent_preorder|..]; [|unfold find_group; run]. apply keeps_on_plans. intros s.
  pose proof (fun g H => consistent_write_group s g (next_group_id s.(planning)) eq_refl eq_refl eq_refl eq_refl eq_refl eq_refl H) as W.
  match goal with |- context[write_group ?g ?t] => specialize (W g); destruct (write_group g t) end. apply W; cbn; lia.
Qed.
Lemma keeps_update_group_row now id name description sync : keeps consistent (update_group_row now id name description sync).
Proof.
  unfold update_group_row. apply keeps_bind; [exact consistent_preorder|..]; [|unfold find_group; run]. apply keeps_on_plans. intros s.
  destruct (user_groups (planning s) !! id) as [g|] eqn:E; [|by intros []; split]. intros Hs.
  pose proof (consistent_write_group s (patched_group now name description sync g) s.(planning)
                eq_refl eq_refl eq_refl eq_refl eq_refl eq_refl ltac:(lia) ltac:(cbn; pose proof (to_group _ Hs _ _ E); lia)) as W.
  destruct (write_group _ _). by apply W.
Qed.
Lemma keeps_delete_group_row id : keeps consistent (delete_group_row id).
Proof.
  apply keeps_on_plans. intros s. destruct (user_groups (planning s) !! id); [apply consistent_drop_group|]. by intros []; split.
Qed.
Lemma keeps_add_users now plan ids : keeps consistent (add_plan_users now plan ids).
Proof.
  unfold add_plan_users. case_bool_decide; [run|]. apply keeps_checked. intros s a t. cbv zeta.
  destruct (join_rows _ _ _ _ _ _) as [[n m]|] eqn:E; [|done]. cbn. intros [= <- <-]. by eapply consistent_plan_users.
Qed.
Lemma keeps_add_groups now plan ids : keeps consistent (add_plan_groups now plan ids).
Proof.
  unfold add_plan_groups. case_bool_decide; [run|]. apply keeps_checked. intros s a t. cbv zeta.
  destruct (join_rows _ _ _ _ _ _) as [[n m]|] eqn:E; [|done]. cbn. intros [= <- <-]. by eapply consistent_plan_groups.
Qed.
Lemma keeps_insert_members now source group ids : keeps consistent (checked (insert_members now source group ids)).
Proof. apply keeps_checked. intros s n t. apply consistent_insert_members. Qed.
Lemma keeps_add_members now group ids : keeps consistent (add_members_rows now group ids).
Proof. unfold add_members_rows. case_bool_decide; [run|]. apply keeps_insert_members. Qed.
Lemma keeps_add_all now group : keeps consistent (add_all_users now group).
Proof. apply keeps_checked. intros s n t. apply consistent_insert_members. Qed.
Lemma keeps_remove_users plan ids : keeps consistent (remove_plan_users plan ids).
Proof. unfold remove_plan_users. case_bool_decide; [run|]. apply keeps_on_plans. intros s. apply consistent_remove_users. Qed.
Lemma keeps_remove_groups plan ids : keeps consistent (remove_plan_groups plan ids).
Proof. unfold remove_plan_groups. case_bool_decide; [run|]. apply keeps_on_plans. intros s. apply consistent_remove_groups. Qed.
Lemma keeps_remove_members group ids : keeps consistent (remove_members_rows group ids).
Proof. unfold remove_members_rows. case_bool_decide; [run|]. apply keeps_on_plans. intros s. apply consistent_remove_members. Qed.

Lemma keeps_upsert now e : keeps consistent (upsert_sync_user now e).
Proof.
  apply keeps_stmt; [exact consistent_preorder|]. intros s. destruct (find_row _ s) as [u|]; apply consistent_users; try done; intros i Hi; cbn;
    apply lookup_insert_is_Some'; by right.
Qed.
#[local] Hint Resolve keeps_find_plan keeps_find_group keeps_required_plan keeps_require_group keeps_lift keeps_delete_plan_row keeps_notice
  keeps_insert_group keeps_update_group_row keeps_delete_group_row keeps_add_users keeps_add_groups keeps_insert_members keeps_add_members
  keeps_add_all keeps_remove_users keeps_remove_groups keeps_remove_members keeps_upsert : runs.
Lemma keeps_upserts now cfg entries : keeps consistent (upsert_entries now cfg entries).
Proof. induction entries as [|e es IH]; cbn [upsert_entries]; [run|]. destruct (is_protected_admin cfg (e_username e)); [done|]. run. Qed.
Lemma keeps_reconcile now group ids : keeps consistent (reconcile_ldap_members now group ids).
Proof.
  unfold reconcile_ldap_members. run.
  - apply keeps_on_plans. intros s. apply consistent_remove_members.
  - apply keeps_on_plans. intros s. apply consistent_sync_result.
Qed.
Lemma keeps_record_sync now group text : keeps consistent (record_sync_failure now group text).
Proof. apply keeps_on_plans. intros s. apply consistent_sync_result. Qed.
#[local] Hint Resolve keeps_upserts keeps_reconcile keeps_record_sync : runs.
Lemma keeps_sync_group_ldap now cfg text dir group : keeps consistent (sync_group_ldap now cfg text dir group).
Proof. unfold sync_group_ldap, do_sync. run. Qed.
Lemma keeps_sync_all now cfg text dir : keeps consistent (sync_all_ldap_groups now cfg text dir).
Proof.
  assert (H : forall gs, keeps consistent (sync_groups now cfg text gs)).
  { induction gs as [|[g d] gs IH]; cbn [sync_groups]; [run|]. unfold sync_listed_group. run. }
  unfold sync_all_ldap_groups. run.
Qed.
#[local] Hint Resolve keeps_sync_group_ldap keeps_sync_all : runs.

(** *** Handlers *)

Section histories.
Context (debug : string -> string) (fixed3 : F64.t -> string) (json_text : Value -> string) (parse_hm parse_hms : string -> option Z).
Context (clock_value time_value : Z -> Value) (cfg : AuthConfig) (db_text : string).

Lemma keeps_lifted {A B} (r : result A AppError) (k : A -> M B) : (forall a, r = Ok a -> keeps consistent (k a)) -> keeps consistent (bind (lift r) k).
Proof. intros H w. destruct r as [a|e]; [|done]. by apply (H a eq_refl w). Qed.
Lemma keeps_create_plan routes now actor r :
  keeps consistent (create_plan debug fixed3 json_text parse_hm parse_hms clock_value time_value routes now actor r).
Proof.
  apply keeps_lifted. intros n En.
  run. apply keeps_on_plans. intros s. apply consistent_write_plan; cbn; try done; try lia. intros Hok.
  by eapply new_plan_sound.
Qed.
(** The second half of an update, with a row that was read at any time before. *)
Lemma keeps_write_patch routes now actor id before r :
  keeps consistent (write_patch debug fixed3 json_text parse_hm parse_hms clock_value time_value routes now actor id before r).
Proof.
  apply keeps_lifted. intros p Ep.
  run. apply keeps_on_plans. intros s Hs. destruct (coding_plans (planning s) !! id) as [row|] eqn:E; [|by destruct Hs; split].
  destruct (to_plan _ Hs _ _ E) as (Hid & Hlt & Hrow).
  pose proof (consistent_write_plan s (patched now p row) s.(planning) eq_refl eq_refl eq_refl eq_refl eq_refl ltac:(lia) eq_refl
                ltac:(cbn; lia) ltac:(by eapply patched_sound) Hs) as W.
  by destruct (write_plan _ _).
Qed.
#[local] Hint Resolve keeps_create_plan keeps_write_patch : runs.

Local Abbreviation create := (create_plan debug fixed3 json_text parse_hm parse_hms clock_value time_value).
Local Abbreviation write := (write_patch debug fixed3 json_text parse_hm parse_hms clock_value time_value).
Local Abbreviation update := (update_plan debug fixed3 json_text parse_hm parse_hms clock_value time_value).

(** The operations on plans and groups in any order, at any time, with any routes and any failures; an update is also
    two steps, with a row that was read at any time before. Users may be added and changed in between. *)
Inductive step : World -> World -> Prop :=
| step_env w s fs rs cs : s.(planning) = w.(db).(planning) -> (forall u, is_Some (w.(db).(users) !! u) -> is_Some (s.(users) !! u)) ->
    step w {| db := s; faults := fs; entropy := rs; caches := cs |}
| step_create routes now actor r w : step w (create routes now actor r w).2
| step_update routes now actor id r w : step w (update routes now actor id r w).2
| step_write routes now actor id before r w : step w (write routes now actor id before r w).2
| step_delete actor name id w : step w (delete_plan fixed3 json_text clock_value time_value actor name id w).2
| step_join now actor plan k ids w : step w (add_plan_members json_text now actor plan k ids w).2
| step_leave actor plan k ids w : step w (remove_plan_members json_text actor plan k ids w).2
| step_create_group now actor name description sync w : step w (create_group json_text time_value now actor name description sync w).2
| step_update_group now actor id name description sync w : step w (update_group time_value now actor id name description sync w).2
| step_delete_group actor id w : step w (delete_group json_text time_value actor id w).2
| step_add_members now actor id ids w : step w (add_members json_text now actor id ids w).2
| step_remove_members actor id ids w : step w (remove_members json_text actor id ids w).2
| step_add_all now actor id w : step w (add_all_members json_text now actor id w).2
| step_sync now dir actor id w : step w (sync_group json_text now cfg db_text dir actor id w).2
| step_sync_all now dir w : step w (sync_all_ldap_groups now cfg db_text dir w).2.

Lemma step_consistent w w' : step w w' -> consistent w.(db) w'.(db).
Proof.
  intros Hs. destruct Hs.
  - by apply consistent_users.
  - by apply keeps_create_plan.
  - revert w. change (keeps consistent (update routes now actor id r)). unfold update_plan. run.
  - by apply keeps_write_patch.
  - revert w. change (keeps consistent (delete_plan fixed3 json_text clock_value time_value actor name id)). unfold delete_plan. run.
  - revert w. change (keeps consistent (add_plan_members json_text now actor plan k ids)).
    unfold add_plan_members, ensure_plan_exists, ensure_known, plan_member_conflict, existing_ids, insert_plan_members, existing_plan_user_ids,
      existing_plan_group_ids, user_names, group_names, missing_user_ids, missing_group_ids, by_kind. run.
  - revert w. change (keeps consistent (remove_plan_members json_text actor plan k ids)). unfold remove_plan_members, ensure_plan_exists, by_kind. run.
  - revert w. change (keeps consistent (create_group json_text time_value now actor name description sync)). unfold create_group. run.
  - revert w. change (keeps consistent (update_group time_value now actor id name description sync)). unfold update_group. run.
  - revert w. change (keeps consistent (delete_group json_text time_value actor id)). unfold delete_group. run.
  - revert w. change (keeps consistent (add_members json_text now actor id ids)). unfold add_members, missing_user_ids. run.
  - revert w. change (keeps consistent (remove_members json_text actor id ids)). unfold remove_members. run.
  - revert w. change (keeps consistent (add_all_members json_text now actor id)). unfold add_all_members. run.
  - revert w. change (keeps consistent (sync_group json_text now cfg db_text dir actor id)). unfold sync_group. run.
  - by apply keeps_sync_all.
Qed.

(** C31: whatever the administrators, the directory and failures of single statements do, and however updates of a plan
    overlap, the tables stay consistent: every stored plan satisfies its constraints, its scope can be read back and its
    active hours are a proper window; names of plans and groups are unique; and every membership refers to a plan, a
    group and a user that exist. *)
Theorem plans_stay_consistent w w' : tables_ok w.(db) -> rtc step w w' -> tables_ok w'.(db).
Proof. intros Hw Hs. induction Hs as [w|w1 w2 w3 Hs _ IH]; [done|]. apply IH. by apply (step_consistent _ _ Hs). Qed.
End histories.
