(* ===== verification/PlanEffects.v ===== *)
(** * From the tables to the plan of a request

What requests see of the tables of plans: the candidates of a user are exactly its enabled plans, a change of members
takes effect as a whole, and the answer to the question for one's own plan explains itself. *)

From S2P Require Import Prelude Float Json Errors Routing Calendar Plans Metering Body Streams Chat AnthropicResponse ErrorShape Upstream ConfigTables Database.
From S2P Require Import PlanConfig Accounts PlanMembers Sessions PlanHistory.

Local Open Scope Z_scope.

(** ** Candidates *)

(** A user is in a plan on its own account or through a group, since some time. *)
Definition joined_since (t : PlanTables) (user plan : Z) (group : string) (since : Z) : Prop :=
  (group = "" /\ t.(plan_users) !! (plan, user) = Some since) \/
  exists g gr m, t.(members) !! (g, user) = Some m /\ is_Some (t.(plan_groups) !! (plan, g)) /\ t.(user_groups) !! g = Some gr /\
                 group = gr.(g_name) /\ since = m.(m_added_at).

Lemma runtime_source_elem t r :
  r ∈ runtime_source t <->
  exists user plan group since p, t.(coding_plans) !! plan = Some p /\ p.(cp_enabled) = true /\ joined_since t user plan group since /\
                                  r = runtime_row user group since p.
Proof.
  assert (He : forall i q, enabled_plan t i = Some q <-> t.(coding_plans) !! i = Some q /\ q.(cp_enabled) = true).
  { intros i q. unfold enabled_plan. destruct (coding_plans t !! i) as [q'|]; cbn; [|naive_solver]. destruct (cp_enabled q') eqn:E; naive_solver congruence. }
  unfold runtime_source, group_rows, direct_rows. rewrite elem_of_app, list_elem_of_bind, list_elem_of_omap. split.
  - intros [([[g u] m] & Hr & Hm)|([[i u] since] & Hin & Hr)].
    + apply elem_of_map_to_list in Hm. apply list_elem_of_omap in Hr as ([[i g'] t'] & Hpg%elem_of_map_to_list & Hr). cbn in Hr.
      destruct (Z.eqb_spec g' g) as [->|]; [|done]. destruct (user_groups t !! g) as [gr|] eqn:Eg; [|done]. cbn in Hr.
      destruct (enabled_plan t i) as [p|] eqn:Ep; [|done]. cbn in Hr. injection Hr as <-. apply He in Ep as [E1 E2].
      exists u, i, (g_name gr), (m_added_at m), p. split_and!; [done..| |done]. right. exists g, gr, m. by rewrite Hpg.
    + apply elem_of_map_to_list in Hin. cbn in Hr. destruct (enabled_plan t i) as [p|] eqn:Ep; [|done]. cbn in Hr. injection Hr as <-.
      apply He in Ep as [E1 E2]. exists u, i, "", since, p. split_and!; [done..| |done]. by left.
  - intros (u & i & group & since & p & E1 & E2 & Hj & ->). assert (Ep : enabled_plan t i = Some p) by (by apply He).
    destruct Hj as [[-> Hu]|(g & gr & m & Hm & [t' Hpg] & Hg & -> & ->)].
    + right. exists (i, u, since). split; [by apply elem_of_map_to_list|]. cbn. by rewrite Ep.
    + left. exists (g, u, m). split; [|by apply elem_of_map_to_list]. apply list_elem_of_omap. exists (i, g, t').
      split; [by apply elem_of_map_to_list|]. cbn. by rewrite Z.eqb_refl, Hg, Ep.
Qed.

(** The candidates that the cache of plans holds for a user are exactly the enabled plans that the user has joined,
    on its own account or through a group, each with the time of joining, except those whose stored scope is corrupt. *)
Theorem candidates_are_memberships json_text s user rt :
  rt ∈ default [] (load_plan_runtimes json_text s !! user) <->
  exists plan group since p scope,
    s.(planning).(coding_plans) !! plan = Some p /\ p.(cp_enabled) = true /\ joined_since s.(planning) user plan group since /\
    parse_model_scope json_text p.(cp_model_scope) = Ok scope /\ rt = runtime_of_row (runtime_row user group since p) scope.
Proof.
  unfold load_plan_runtimes. rewrite rows_into_runtimes_spec, list_elem_of_omap. setoid_rewrite runtime_source_elem. unfold row_runtime. split.
  - intros (r & (u & i & g & t & p & H1 & H2 & H3 & ->) & Hr). cbn [row_model_scope runtime_row row_user_id] in Hr.
    destruct (parse_model_scope json_text (cp_model_scope p)) as [sc|] eqn:Es; [|done]. destruct (Z.eqb_spec u user) as [->|]; [|done].
    injection Hr as <-. exists i, g, t, p, sc. done.
  - intros (i & g & t & p & sc & H1 & H2 & H3 & H4 & ->). exists (runtime_row user g t p). split; [by exists user, i, g, t, p|].
    cbn [row_model_scope runtime_row row_user_id]. by rewrite H4, Z.eqb_refl.
Qed.

(** The plan that is chosen is at least as good as any candidate. *)
Lemma resolve_plan_best plans user now model rt :
  rt ∈ default [] (plans !! user) -> active_at rt now = true -> scope_admits model rt = true ->
  exists best, resolve_plan plans user now model = Some best /\ rank_le (plan_rank model rt) (plan_rank model best) = true.
Proof.
  intros Hin Ha Hs. pose proof (resolve_plan_spec plans user now model) as H. destruct (resolve_plan plans user now model) as [best|].
  - exists best. split; [done|]. destruct H as (_ & _ & _ & H). by apply H.
  - by rewrite (H rt Hin Ha) in Hs.
Qed.

(** ** Joining a plan *)

(** The members of a kind that plans have; what a request to join leaves behind: the new ones since the request. *)
Definition plan_rows (k : MemberKind) (t : PlanTables) : gmap (Z * Z) Z := by_kind k t.(plan_users) t.(plan_groups).
Definition with_rows (k : MemberKind) (m : gmap (Z * Z) Z) (t : PlanTables) : PlanTables := by_kind k (set_plan_users m t) (set_plan_groups m t).
Definition with_members (k : MemberKind) (now plan : Z) (ids : list Z) (t : PlanTables) : PlanTables :=
  with_rows k (insert_new (pair plan) now ids (plan_rows k t)).2 t.

Lemma dedup_elem l x : x ∈ dedup l <-> x ∈ l.
Proof.
  induction l as [|a l IH]; [done|]. destruct l as [|b l]; [done|]. change (dedup (a :: b :: l)) with (if a =? b then dedup (b :: l) else a :: dedup (b :: l)).
  destruct (Z.eqb_spec a b) as [->|Hne]; rewrite ?elem_of_cons, IH, !elem_of_cons; naive_solver.
Qed.
Lemma dedup_ids_elem ids x : x ∈ dedup_ids ids <-> x ∈ ids.
Proof. unfold dedup_ids. by rewrite dedup_elem, sort_by_key_perm. Qed.
Lemma dedup_strict l : increasing (fun x => x) l -> strictly (fun x => x) (dedup l).
Proof.
  induction 1 as [|a l Hl IH Ha]; [constructor|]. destruct l as [|b l]; [by repeat constructor|].
  change (dedup (a :: b :: l)) with (if a =? b then dedup (b :: l) else a :: dedup (b :: l)).
  destruct (Z.eqb_spec a b) as [->|Hne]; [done|]. constructor; [done|]. apply Forall_forall. intros x Hx. apply (proj1 (dedup_elem _ _)) in Hx.
  rewrite Forall_forall in Ha. assert (a <= b) by (apply Ha; by left). inversion Hl as [|? ? _ Hb]; subst. rewrite Forall_forall in Hb.
  apply elem_of_cons in Hx as [->|Hx]; [lia|]. specialize (Hb x Hx). cbn in Hb. lia.
Qed.
Lemma dedup_ids_nodup ids : NoDup (dedup_ids ids).
Proof.
  assert (H : strictly (fun x => x) (dedup_ids ids)) by apply dedup_strict, sort_by_key_sorted.
  induction H as [|a l Hl IH Ha]; constructor; [|done]. intros Hin. rewrite Forall_forall in Ha. specialize (Ha a Hin). lia.
Qed.

(** A run that leaves plans and groups alone. *)
Definition same_planning (s s' : Db) : Prop := s'.(planning) = s.(planning) /\ s'.(users) = s.(users).
#[local] Instance same_planning_preorder : PreOrder same_planning.
Proof. split; [done|]. intros s1 s2 s3 [] []. split; congruence. Qed.
Lemma same_log a b c d e : keeps same_planning (log a b c d e).
Proof. apply keeps_stmt; [apply _|]. done. Qed.

(** Inserting keys that are all new and different counts them. *)
Lemma insert_new_count {A} (owner : Z) (a : A) ids m :
  NoDup ids -> (forall x, x ∈ ids -> m !! (owner, x) = None) -> (insert_new (pair owner) a ids m).1 = Z.of_nat (length ids).
Proof.
  unfold insert_new. intros Hd. assert (H : forall n m, (forall x, x ∈ ids -> m !! (owner, x) = None) ->
    (foldl (add_new (pair owner) a) (n, m) ids).1 = n + Z.of_nat (length ids)); [|intros Hm; by rewrite H].
  induction Hd as [|x ids Hx Hd IH]; intros n m' Hm; [cbn; lia|]. cbn [foldl length]. unfold add_new at 2. cbn [fst snd].
  rewrite (Hm x) by (by left). rewrite IH; [lia|]. intros y Hy. rewrite lookup_insert_ne; [apply Hm; by right|]. intros [= ->]. done.
Qed.
Lemma already_joined_elem {A} (owner : Z) (m : gmap (Z * Z) A) ids x : x ∈ already_joined owner m ids <-> x ∈ ids /\ is_Some (m !! (owner, x)).
Proof.
  unfold already_joined. rewrite list_elem_of_fmap. setoid_rewrite list_elem_of_In. setoid_rewrite List.filter_In. setoid_rewrite <-list_elem_of_In. split.
  - intros ([[o y] a] & -> & Hin%elem_of_map_to_list & Hf). cbn in *. apply andb_true_iff in Hf as [->%Z.eqb_eq Hf%bool_decide_eq_true].
    split; [done|]. by exists a.
  - intros [Hx [a Ha]]. exists (owner, x, a). split; [done|]. split; [by apply elem_of_map_to_list|]. cbn. by rewrite Z.eqb_refl, bool_decide_true.
Qed.

Lemma checked_ok {A} (f : Db -> option (A * PlanTables)) w a :
  (checked f w).1 = Ok a -> exists t, f w.(db) = Some (a, t) /\ (checked f w).2.(db) = set_planning t w.(db).
Proof.
  unfold checked, bind, stmt. destruct (default false _); [done|]. destruct (f (db w)) as [[b t]|]; [|done]. cbn. intros [= <-]. by exists t.
Qed.
Lemma existing_ids_ok k plan ids w dup :
  ids <> [] -> (existing_ids k plan ids w).1 = Ok dup ->
  dup = already_joined plan (plan_rows k w.(db).(planning)) ids /\ (existing_ids k plan ids w).2.(db) = w.(db).
Proof.
  intros Hne. unfold existing_ids, existing_plan_user_ids, existing_plan_group_ids.
  destruct k; cbn [by_kind plan_rows]; rewrite bool_decide_false by done; intros H; by destruct (query_ok _ _ _ H) as (-> & -> & _).
Qed.
Lemma insert_plan_members_ok now k plan ids w n :
  ids <> [] -> (insert_plan_members now k plan ids w).1 = Ok n ->
  n = (insert_new (pair plan) now ids (plan_rows k w.(db).(planning))).1 /\
  (insert_plan_members now k plan ids w).2.(db) = set_planning (with_members k now plan ids w.(db).(planning)) w.(db).
Proof.
  intros Hne. unfold insert_plan_members, add_plan_users, add_plan_groups, with_members.
  destruct k; cbn [by_kind plan_rows with_rows]; rewrite bool_decide_false by done; intros H; apply checked_ok in H as (t & Hf & ->); cbv zeta in Hf;
    (destruct (join_rows _ _ _ _ _ _) as [[m r]|] eqn:E; [|done]); cbn in Hf; injection Hf as <- <-; apply join_rows_Some in E as [-> _]; done.
Qed.

(** The transaction of a request to join. *)
Definition join_body (now : Z) (k : MemberKind) (plan : Z) (ids : list Z) : M Z :=
  let! dup := existing_ids k plan ids in
  if negb (bool_decide (dup = [])) then plan_member_conflict k dup
  else
    let! added := insert_plan_members now k plan ids in
    if negb (added =? Z.of_nat (length ids)) then
      let! dup := existing_ids k plan ids in plan_member_conflict k dup
    else ret added.
Lemma conflict_fails {A} k d w (a : A) : (plan_member_conflict k d w).1 = Ok a -> False.
Proof. unfold plan_member_conflict, bind. by destruct (by_kind k (user_names d) (group_names d) w) as [[names|e] w']. Qed.
Lemma join_body_ok now k plan ids w n :
  ids <> [] -> NoDup ids -> (join_body now k plan ids w).1 = Ok n ->
  n = Z.of_nat (length ids) /\ (forall x, x ∈ ids -> plan_rows k w.(db).(planning) !! (plan, x) = None) /\
  (join_body now k plan ids w).2.(db) = set_planning (with_members k now plan ids w.(db).(planning)) w.(db).
Proof.
  intros Hne Hd H. unfold join_body in *. apply bind_ok in H as (dup & Hdup & H & ->). apply existing_ids_ok in Hdup as [-> Edb]; [|done].
  case_bool_decide as E; cbn [negb] in *; [|by apply conflict_fails in H].
  apply bind_ok in H as (a & Ha & H & ->). apply insert_plan_members_ok in Ha as [_ Ei]; [|done]. rewrite Edb in Ei.
  destruct (Z.eqb_spec a (Z.of_nat (length ids))) as [Ea|Ea]; cbn [negb] in *.
  - injection H as <-. split_and!; [done| |done]. intros x Hx. destruct (plan_rows k (planning (db w)) !! (plan, x)) as [t|] eqn:El; [|done].
    assert (Hin : x ∈ already_joined plan (plan_rows k (planning (db w))) ids) by (apply already_joined_elem; split; [done|by exists t]).
    rewrite E in Hin. by apply elem_of_nil in Hin.
  - apply bind_ok in H as (d & _ & H & _). by apply conflict_fails in H.
Qed.

Lemma same_ensure k plan ids : keeps eq (let! _ := ensure_plan_exists plan in ensure_known k ids).
Proof.
  assert (Hq : forall A (f : Db -> A), keeps eq (query f)) by (intros A f; apply (keeps_query eq)).
  apply (keeps_bind eq); [apply (keeps_bind eq)|].
  - unfold required_plan, find_plan. apply (keeps_bind eq); [apply Hq|]. intros []; [apply (keeps_ret eq)|apply (keeps_throw eq)].
  - intros p. apply (keeps_ret eq).
  - intros _. unfold ensure_known. apply (keeps_bind eq).
    + unfold missing_user_ids, missing_group_ids. destruct k; cbn [by_kind]; apply Hq.
    + intros l. case_bool_decide; [apply (keeps_ret eq)|apply (keeps_throw eq)].
Qed.

(** The end of a handler: the caches are filled, the change is logged. *)
Lemma published {A} json_text (a : A) l1 l2 l3 l4 l5 w :
  let '(res, w') := (let! _ := reload json_text in let! _ := log l1 l2 l3 l4 l5 in ret a) w in
  w'.(db).(planning) = w.(db).(planning) /\
  forall b, res = Ok b -> b = a /\ w'.(caches).(plans) = load_plan_runtimes json_text w'.(db).
Proof.
  unfold bind at 1. pose proof (keeps_reload eq json_text w) as Ed. destruct (reload json_text w) as [[[]|e] w1] eqn:Er; cbn [snd] in Ed; [|by rewrite Ed].
  pose proof (f_equal fst Er) as Hr. cbn [fst] in Hr. apply reload_ok in Hr as [Ec _]. rewrite Er in Ec. cbn [snd] in Ec.
  unfold bind, log, execute, stmt, ret. destruct (default false _); cbn; [by rewrite Ed|]. split; [by rewrite Ed|]. intros b [= <-]. split; [done|].
  rewrite Ec, Ed. done.
Qed.

(** A request that adds users or groups to a plan adds all of them or none, whatever fails; when it succeeds none of
    them was a member before, the answer is their number, and the plans that requests see are those of the new tables. *)
Theorem join_as_a_whole json_text now actor plan k raw w :
  let '(res, w') := add_plan_members json_text now actor plan k raw w in
  let ids := dedup_ids raw in
  let after := with_members k now plan ids w.(db).(planning) in
  (w'.(db).(planning) = w.(db).(planning) \/ w'.(db).(planning) = after) /\
  forall n, res = Ok n ->
    w'.(db).(planning) = after /\ n = Z.of_nat (length ids) /\ (forall x, x ∈ raw -> plan_rows k w.(db).(planning) !! (plan, x) = None) /\
    w'.(caches).(plans) = load_plan_runtimes json_text w'.(db).
Proof.
  destruct (add_plan_members json_text now actor plan k raw w) as [res w'] eqn:E. cbv zeta. unfold add_plan_members in E. cbv zeta in E.
  case_bool_decide as Hne; [injection E as <- <-; split; [by left|done]|]. fold (join_body now k plan (dedup_ids raw)) in E.
  pose proof (same_ensure k plan (dedup_ids raw) w) as He. unfold bind at 1 in He.
  destruct (ensure_plan_exists plan w) as [[[]|e] w1] eqn:E1; unfold bind at 1 in E; rewrite E1 in E; cbn [snd] in He;
    [|injection E as <- <-; split; [left; by rewrite He|done]].
  destruct (ensure_known k (dedup_ids raw) w1) as [[[]|e] w2] eqn:E2; unfold bind at 1 in E; rewrite E2 in E; cbn [snd] in He;
    [|injection E as <- <-; split; [left; by rewrite He|done]].
  clear E1 E2. unfold bind at 1 in E. destruct (transaction (join_body now k plan (dedup_ids raw)) w2) as [[n|e] w3] eqn:Et.
  2: { injection E as <- <-. apply (f_equal fst) in Et as Ht. apply transaction_err in Ht. rewrite Et in Ht. split; [left|done]. cbn in Ht. by rewrite Ht, <-He. }
  apply (f_equal fst) in Et as Ht. apply transaction_ok in Ht as (w0 & Ew0 & Hb & Ed). rewrite Et in Ed. cbn [snd] in Ed.
  apply join_body_ok in Hb as (-> & Hnew & Eb); [|done|apply dedup_ids_nodup]. rewrite Eb, Ew0, <-He in Ed. rewrite Ew0, <-He in Hnew.
  pose proof (published json_text (Z.of_nat (length (dedup_ids raw))) (Some actor)
    (by_kind k "plan.members.add_users" "plan.members.add_groups") plan_target (Some plan)
    (Some (json_object [("ids", VArray (of_int <$> dedup_ids raw)); ("added", of_int (Z.of_nat (length (dedup_ids raw))))])) w3) as Hp.
  rewrite E in Hp. destruct Hp as [Hp Hok]. rewrite Ed in Hp. split; [by right|]. intros n ->. destruct (Hok n eq_refl) as [-> Hc].
  split_and!; [done..| |done]. intros x Hx. apply Hnew. by apply dedup_ids_elem.
Qed.

(** A user that has been added to an enabled plan is under that plan, or under a better one, from the next request
    on, at every time within the hours of the plan and for every model of its scope. *)
Theorem joined_plan_applies json_text now actor plan raw w n w' p user time model :
  tables_ok w.(db) -> add_plan_members json_text now actor plan MUser raw w = (Ok n, w') ->
  w.(db).(planning).(coding_plans) !! plan = Some p -> p.(cp_enabled) = true -> user ∈ raw ->
  is_within_active_window p.(cp_active_start) p.(cp_active_end) time = true ->
  exists scope, parse_model_scope json_text p.(cp_model_scope) = Ok scope /\
    let rt := runtime_of_row (runtime_row user "" now p) scope in
    (scope_admits model rt = true ->
     exists best, resolve_plan w'.(caches).(plans) user time model = Some best /\ rank_le (plan_rank model rt) (plan_rank model best) = true).
Proof.
  intros Hok E Hp He Hu Hwin. destruct (to_plan _ Hok _ _ Hp) as (_ & _ & Hs).
  destruct (scope_stored_loads json_text _ (ps_scope _ Hs)) as [scope Hsc]. exists scope. split; [done|]. cbv zeta. intros Hadm.
  pose proof (join_as_a_whole json_text now actor plan MUser raw w) as H. rewrite E in H. destruct H as [_ H].
  destruct (H n eq_refl) as (Ep & _ & Hnew & ->). apply resolve_plan_best; [|done|done].
  apply candidates_are_memberships. exists plan, "", now, p, scope. rewrite Ep. split_and!; [done..| |done|done]. left. split; [done|].
  cbn. rewrite insert_new_lookup. specialize (Hnew user Hu). cbn [plan_rows by_kind] in Hnew. rewrite Hnew.
  rewrite bool_decide_true; [done|]. split; [done|]. by apply dedup_ids_elem.
Qed.

(** ** Synchronisation with the directory *)

(** An account that was there keeps what is not its profile; one that is created is an enabled user without a
    password and without the rights of an administrator. *)
Definition same_account (row row' : UserRow) : Prop :=
  row'.(u_id) = row.(u_id) /\ row'.(username) = row.(username) /\ row'.(source) = row.(source) /\ row'.(password_hash) = row.(password_hash) /\
  row'.(is_admin) = row.(is_admin) /\ row'.(u_status) = row.(u_status) /\ row'.(token_version) = row.(token_version).
Definition new_account (name : string) (row : UserRow) : Prop :=
  row.(username) = name /\ row.(source) = "ldap" /\ row.(password_hash) = None /\ row.(is_admin) = false /\ row.(u_status) = 1.
#[global] Instance same_account_preorder : PreOrder same_account.
Proof. split; [by intros x; split_and!|]. unfold same_account. intros x y z (? & ? & ? & ? & ? & ? & ?) (? & ? & ? & ? & ? & ? & ?). split_and!; congruence. Qed.
Lemma new_account_same name row row' : new_account name row -> same_account row row' -> new_account name row'.
Proof. unfold new_account, same_account. intros (? & ? & ? & ? & ?) (? & ? & ? & ? & ? & ? & ?). split_and!; congruence. Qed.

Lemma upsert_sync_ok now e w :
  wf w.(db) -> w.(faults) = [] -> exists id,
  let w' := (upsert_sync_user now e w).2 in
  (upsert_sync_user now e w).1 = Ok id /\ w'.(faults) = [] /\ wf w'.(db) /\ w'.(db).(planning) = w.(db).(planning) /\
  (exists row, w'.(db).(users) !! id = Some row /\ row.(username) = e.(e_username)) /\
  (forall u row, w.(db).(users) !! u = Some row -> exists row', w'.(db).(users) !! u = Some row' /\ same_account row row') /\
  (forall u row, w'.(db).(users) !! u = Some row -> is_Some (w.(db).(users) !! u) \/ new_account e.(e_username) row).
Proof.
  intros Hw Hf.
  assert (Hwf : wf (upsert_sync_user now e w).2.(db)).
  { apply (good_upsert_sync {| auth_required := false; seed_admin_username := None; access_token_ttl := 0; refresh_token_ttl := 0; ldap_configured := false |} always);
      [by unfold is_protected_admin; rewrite bool_decide_false|done|done]. }
  unfold upsert_sync_user in *. rewrite stmt_ok in * by done. cbn [fst snd] in *.
  destruct (find_row _ (db w)) as [u|] eqn:E; cbn [fst snd] in *.
  - apply find_row_name in E as [Hu Hn]; [|done]. exists u.(u_id). split_and!; try done.
    + exists (profile_of e u). cbn. by rewrite lookup_insert_eq.
    + intros i row Hi. cbn. destruct (decide (i = u_id u)) as [->|Hne];
        [|rewrite lookup_insert_ne by done; exists row; by split].
      rewrite lookup_insert_eq. exists (profile_of e u). split; [done|]. simplify_eq. by split_and!.
    + intros i row. cbn. destruct (decide (i = u_id u)) as [->|Hne]; [left; by exists u|rewrite lookup_insert_ne by done; eauto].
  - eexists. split_and!; try done.
    + eexists. cbn. by rewrite lookup_insert_eq.
    + intros i row Hi. cbn. exists row. split; [|done]. rewrite lookup_insert_ne; [done|]. apply (wf_id _ Hw) in Hi as [_ Hi]. lia.
    + intros i row. cbn. intros [[<- <-]|[_ Hi]]%lookup_insert_Some; [right; by split_and!|left; by exists row].
Qed.

Lemma bind_run {A B} (m : M A) (f : A -> M B) w a w' : m w = (Ok a, w') -> bind m f w = f a w'.
Proof. unfold bind. by intros ->. Qed.
Lemma outcome_run {A} (m : M A) w r w' : m w = (r, w') -> outcome m w = (Ok r, w').
Proof. unfold outcome. by intros ->. Qed.

(** The name of a user, among the entries that are synchronised. *)
Definition listed (cfg : AuthConfig) (entries : list LdapUserEntry) (name : string) : Prop :=
  exists e, e ∈ entries /\ is_protected_admin cfg e.(e_username) = false /\ e.(e_username) = name.

#[global] Instance listed_dec cfg entries name : Decision (listed cfg entries name).
Proof. apply list_exist_dec. intros e. apply _. Defined.

Record upserted (cfg : AuthConfig) (entries : list LdapUserEntry) (w w' : World) (ids : list Z) : Prop := {
  up_faults : w'.(faults) = [];
  up_wf : wf w'.(db);
  up_planning : w'.(db).(planning) = w.(db).(planning);
  up_ids : forall u, u ∈ ids <-> exists row, w'.(db).(users) !! u = Some row /\ listed cfg entries row.(username);
  up_names : forall u row, w.(db).(users) !! u = Some row -> exists row', w'.(db).(users) !! u = Some row' /\ same_account row row';
  up_listed : forall name, listed cfg entries name -> exists u row, w'.(db).(users) !! u = Some row /\ row.(username) = name;
  up_new : forall u row, w'.(db).(users) !! u = Some row ->
    is_Some (w.(db).(users) !! u) \/ (listed cfg entries row.(username) /\ new_account row.(username) row);
}.
Lemma upsert_entries_ok now cfg entries w :
  wf w.(db) -> w.(faults) = [] ->
  exists ids, (upsert_entries now cfg entries w).1 = Ok (ids, 0) /\ upserted cfg entries w (upsert_entries now cfg entries w).2 ids.
Proof.
  revert w. induction entries as [|e es IH]; intros w Hw Hf; cbn [upsert_entries].
  - exists []. split; [done|]. split; try done.
    + intros u. split; [by intros ?%elem_of_nil|]. intros (row & _ & e & He & _). by apply elem_of_nil in He.
    + intros u row Hr. by exists row.
    + intros name (e & He & _). by apply elem_of_nil in He.
    + intros u row Hr. left. by exists row.
  - assert (Hhd : forall name, listed cfg (e :: es) name <->
      (is_protected_admin cfg (e_username e) = false /\ e_username e = name) \/ listed cfg es name).
    { intros name. unfold listed. setoid_rewrite elem_of_cons. naive_solver. }
    destruct (is_protected_admin cfg (e_username e)) eqn:Ep.
    + destruct (IH w Hw Hf) as (ids & H1 & [U1 U2 U3 U4 U5 U6 U7]). exists ids. split; [done|].
      assert (Hl : forall name, listed cfg (e :: es) name <-> listed cfg es name) by (intros name; rewrite Hhd; naive_solver).
      split; try done; [setoid_rewrite Hl; done..].
    + destruct (upsert_sync_ok now e w Hw Hf) as (id & Hok & F1 & W1 & P1 & (row1 & Hrow1 & Hn1) & N1 & N2).
      destruct (upsert_sync_user now e w) as [r w1] eqn:E1. cbn [fst snd] in *. subst r.
      destruct (IH w1 W1 F1) as (ids & H1 & [U1 U2 U3 U4 U5 U6 U7]). destruct (upsert_entries now cfg es w1) as [r w2] eqn:E2. cbn [fst snd] in *. subst r.
      rewrite (bind_run _ _ _ _ _ (outcome_run _ _ _ _ E1)), (bind_run _ _ _ _ _ E2). cbn [ret fst snd].
      destruct (U5 _ _ Hrow1) as (row2 & Hrow2 & Hsame). assert (Hn2 : username row2 = e_username e) by (destruct Hsame as (_ & -> & _); done).
      exists (id :: ids). split; [done|]. split; [done|done|congruence|..].
      * intros u. rewrite elem_of_cons, U4. setoid_rewrite Hhd. split; [naive_solver|].
        intros (row & Hr & [[_ Hx]|Hx]); [left|naive_solver]. eapply (wf_name _ U2); eauto. congruence.
      * intros u row Hr. destruct (N1 _ _ Hr) as (row' & Hr' & Hn'). destruct (U5 _ _ Hr') as (row3 & Hr3 & Hn3).
        exists row3. split; [done|]. by etrans.
      * intros name [[_ <-]|Hl]%Hhd; [by exists id, row2|by apply U6].
      * intros u row Hr. rewrite Hhd. destruct (U7 _ _ Hr) as [[x Hx]|[Hl Hnew]]; [|by right; split; [right|]].
        destruct (N2 _ _ Hx) as [?|Hnew]; [by left|right]. destruct (U5 _ _ Hx) as (row' & Hr' & Hs). simplify_eq.
        pose proof (new_account_same _ _ _ Hnew Hs) as Hnew'. destruct (Hnew') as [En _]. rewrite En. split; [by left|done].
Qed.

(** The members of a group after it has been reconciled with the users of the directory. *)
Lemma reconcile_ok now group ids w g :
  w.(faults) = [] -> w.(db).(planning).(user_groups) !! group = Some g -> (forall u, u ∈ ids -> is_Some (w.(db).(users) !! u)) ->
  exists n m, (reconcile_ldap_members now group ids w).1 = Ok (n, m) /\
  let s' := (reconcile_ldap_members now group ids w).2.(db) in
  s'.(users) = w.(db).(users) /\
  forall k, s'.(planning).(members) !! k =
    match w.(db).(planning).(members) !! k with
    | Some x => if (k.1 =? group) && is_ldap ids k.2 x then None else Some x
    | None => if bool_decide (k.1 = group /\ k.2 ∈ ids) then Some {| m_source := "ldap"; m_added_at := now |} else None
    end.
Proof.
  intros Hf Hg Hids. set (row := {| m_source := "ldap"; m_added_at := now |}). set (m0 := members (planning (db w))).
  assert (Hj : join_rows (user_groups (planning (db w))) (users (db w)) group row ids m0 = Some (insert_new (pair group) row ids m0)).
  { unfold join_rows. cbv zeta. destruct (bool_decide _); [done|]. cbn [orb]. unfold known. cbn [forallb]. rewrite bool_decide_true by done. cbn [andb].
    replace (forallb _ _) with true; [done|]. symmetry. apply forallb_forall. intros x Hx%list_elem_of_In. apply bool_decide_eq_true, Hids.
    unfold fresh_ids in Hx. apply list_elem_of_In, List.filter_In in Hx as [Hx _]. by apply list_elem_of_In. }
  unfold reconcile_ldap_members, transaction, checked, bind, query, on_plans, ret. rewrite !stmt_ok by done. cbn [fst snd db faults].
  unfold insert_members. fold m0. cbv zeta. fold row. rewrite Hj. destruct (insert_new (pair group) row ids m0) as [n m1] eqn:Ei. cbn [fst snd mbind option_bind].
  rewrite !stmt_ok by done. cbn [fst snd db faults ret planning set_planning members set_members].
  destruct (remove_rows group (is_ldap ids) m1) as [r m2] eqn:Er. cbn [fst snd].
  exists n, r. split; [done|]. split; [done|]. intros k. cbn.
  pose proof (insert_new_lookup group row ids m0 k) as El. rewrite Ei in El. cbn [snd] in El. fold m0.
  assert (Hm2 : forall x, m2 !! k = Some x <-> m1 !! k = Some x /\ ((k.1 =? group) && is_ldap ids k.2 x) = false).
  { intros x. rewrite <-(remove_rows_lookup group (is_ldap ids) m1 k x). by rewrite Er. }
  apply option_eq. intros x. rewrite Hm2, El. destruct (m0 !! k) as [y|].
  - destruct (_ && is_ldap ids k.2 y) eqn:Ey; split; [intros [[= <-] Hx]; congruence|done|by intros [[= <-] _]|by intros [= <-]].
  - case_bool_decide as Hk; [|naive_solver]. split; [by intros [? _]|]. intros [= <-]. split; [done|]. destruct Hk as [-> Hk].
    unfold is_ldap. rewrite (bool_decide_true (k.2 ∈ ids)) by done. cbn [negb]. by rewrite !andb_false_r.
Qed.

(** C32: the synchronisation of a group that exists and has it turned on succeeds when the directory answers and no
    statement fails, in a table of accounts whose names are unique. Every user the directory lists, the protected administrator excepted, then has an account and is a member of the group; the accounts are
    those of before, changed in their profile at most, and for listed users that had none a new one, enabled, without
    a password and not an administrator. The members are exactly these: those that did not come from the directory,
    untouched, and the users the directory lists; a user the directory no longer lists is removed if it came from
    there, and no other group changes. *)
Theorem sync_reconciles now cfg db_text entries group w g :
  wf w.(db) -> w.(faults) = [] -> w.(db).(planning).(user_groups) !! group = Some g -> g.(g_ldap_sync) = true ->
  let '(res, w') := sync_group_ldap now cfg db_text (Ok entries) group w in
  (exists added removed, res = Ok (Ok (added, removed))) /\
  (forall name, listed cfg entries name -> exists u row, w'.(db).(users) !! u = Some row /\ row.(username) = name /\
     is_Some (w'.(db).(planning).(members) !! (group, u))) /\
  (forall u row, w.(db).(users) !! u = Some row -> exists row', w'.(db).(users) !! u = Some row' /\ same_account row row') /\
  (forall u row, w'.(db).(users) !! u = Some row ->
     is_Some (w.(db).(users) !! u) \/ (listed cfg entries row.(username) /\ new_account row.(username) row)) /\
  (forall u row, w'.(db).(users) !! u = Some row ->
     let here := w.(db).(planning).(members) !! (group, u) in
     w'.(db).(planning).(members) !! (group, u) = (
       if bool_decide (listed cfg entries row.(username)) then Some (default {| m_source := "ldap"; m_added_at := now |} here)
       else x ← here; if bool_decide (x.(m_source) = "ldap") then None else Some x)) /\
  (forall k, k.1 <> group -> w'.(db).(planning).(members) !! k = w.(db).(planning).(members) !! k).
Proof.
  intros Hw Hf Hg Hs. destruct (upsert_entries_ok now cfg entries w Hw Hf) as (ids & Hu & [U1 U2 U3 U4 U5 U6 U7]).
  unfold sync_group_ldap. unfold find_group, query, outcome at 1, bind at 1. rewrite stmt_ok by done. cbn [fst snd]. unfold group_row. rewrite Hg.
  cbn [mbind option_bind gr_group]. rewrite Hs. cbn [do_sync].
  replace {| db := db w; faults := []; entropy := entropy w; caches := caches w |} with w by (destruct w; cbn in *; by subst).
  destruct (upsert_entries now cfg entries w) as [r w1] eqn:E1. cbn [fst snd] in *. subst r.
  assert (Hids : forall u, u ∈ ids -> is_Some (users (db w1) !! u)) by (intros u (row & Hr & _)%U4; by exists row).
  assert (Hg1 : user_groups (planning (db w1)) !! group = Some g) by (by rewrite U3).
  destruct (reconcile_ok now group ids w1 g U1 Hg1 Hids) as (n & m & Hr & Hus & Hm). rewrite U3 in Hm.
  rewrite (bind_run _ _ _ _ _ E1). destruct (reconcile_ldap_members now group ids w1) as [r w2] eqn:E2. cbn [fst snd] in *. subst r.
  rewrite (bind_run _ _ _ _ _ (outcome_run _ _ _ _ E2)). cbn [ret map_err].
  assert (Hmem : forall u row, users (db w2) !! u = Some row ->
     let here := members (planning (db w)) !! (group, u) in
     members (planning (db w2)) !! (group, u) = (
       if bool_decide (listed cfg entries (username row)) then Some (default {| m_source := "ldap"; m_added_at := now |} here)
       else x ← here; if bool_decide (m_source x = "ldap") then None else Some x)).
  { intros u row Hu. cbv zeta. rewrite Hm. cbn [fst snd]. rewrite Z.eqb_refl. cbn [andb]. rewrite Hus in Hu.
    assert (Hin : u ∈ ids <-> listed cfg entries (username row)).
    { rewrite U4. split; [intros (row' & Hr' & Hl); by simplify_eq|by exists row]. }
    unfold is_ldap. destruct (members (planning (db w)) !! (group, u)) as [x|]; cbn [mbind option_bind default].
    + rewrite (bool_decide_ext _ _ Hin). destruct (bool_decide (listed _ _ _)); cbn [negb]; [by rewrite andb_false_r|]. by rewrite andb_true_r.
    + rewrite (bool_decide_ext (group = group /\ u ∈ ids) (listed cfg entries (username row))) by (rewrite Hin; tauto). by case_bool_decide. }
  split_and!; [by eauto| |by rewrite Hus|by rewrite Hus|exact Hmem|].
  - intros name Hl. destruct (U6 name Hl) as (u & row & Hr & Hn). rewrite <-Hus in Hr. exists u, row. split_and!; [done..|].
    rewrite (Hmem u row Hr), bool_decide_true by (by rewrite Hn). by eexists.
  - intros k Hk. rewrite Hm. rewrite (proj2 (Z.eqb_neq _ _) Hk). cbn [andb]. destruct (_ !! k); [done|].
    by rewrite bool_decide_false by (intros [? _]; done).
Qed.
