(* ===== verification/PlanExamples.v ===== *)
(** * Examples of plans and members

A small installation built with the operations of [PlanConfig] and [PlanMembers]: one plan, one group that follows the
directory. It shows that the hypotheses of the theorems of [PlanHistory] and [PlanEffects] can hold, and the behaviours
that are at odds with comments of the program. *)

From S2P Require Import Prelude Float Json Errors Routing Calendar Plans Metering Body Streams Upstream ConfigTables Database PlanConfig Accounts PlanMembers.
From S2P Require Import Sessions PlanHistory PlanEffects.

Local Open Scope Z_scope.

Module PlanSample.
Definition text (v : Value) : string := "".
Definition no_time (s : string) : option Z := None.
Definition as_number (t : Z) : Value := of_int t.
Definition echo (s : string) : string := s.
Definition three (f : F64.t) : string := "".
(** One route, to the target of a downgrade. *)
Definition some_routes : list ModelRoute :=
  [{| model_pattern := "small"; provider_id := 1; fallback_ids := []; upstream_model := None; route_extra_body := VNull;
      strict_system_head := false; system_head_merge := false; reasoning_effort_mode := None; thinking_form := None;
      responses_passthrough_fields := None |}].

Definition request : PlanCreateReq :=
  {| r_name := " pro "; r_description := ""; r_priority := 5; r_token_limit := VString "500M"; r_period_type := "monthly";
     r_period_hours := 0; r_period_anchor_mode := "fixed"; r_overage_action := "block"; r_downgrade_model := None;
     r_alert_channels := None; r_webhook_url := ""; r_active_window := None; r_model_scope := None; r_enabled := true |}.
Definition change (action : option string) (target : option (option string)) : PlanUpdateReq :=
  {| q_name := None; q_description := None; q_priority := None; q_token_limit := None; q_period_type := None; q_period_hours := None;
     q_period_anchor_mode := None; q_overage_action := action; q_downgrade_model := target; q_alert_channels := None; q_webhook_url := None;
     q_active_window := None; q_model_scope := None; q_enabled := None |}.

Abbreviation create r := (create_plan echo three text no_time no_time as_number as_number some_routes 5 1 r).
Abbreviation write before r := (write_patch echo three text no_time no_time as_number as_number some_routes 6 1 1 before r).

Definition fails_at (fs : list bool) (w : World) : World := {| db := w.(db); faults := fs; entropy := w.(entropy); caches := w.(caches) |}.
Definition with_plan : World := (create request (Sample.start ∅)).2.
Definition with_group : World := (create_group text as_number 5 1 "staff" "" true with_plan).2.
Definition entry (name : string) : LdapUserEntry := {| e_username := name; e_dn := "uid=" +:+ name; e_email := None; e_display_name := None |}.
Definition sync (entries : list LdapUserEntry) : World -> World := fun w => (sync_group_ldap 7 Sample.cfg "db" (Ok entries) 1 w).2.
Definition is_member (u : Z) (w : World) : bool := bool_decide (is_Some (w.(db).(planning).(members) !! (1, u))).
End PlanSample.
Import PlanSample.

Lemma no_plans_ok : tables_ok (Sample.start ∅).(db).
Proof. split; cbn; intros *; by rewrite ?lookup_empty. Qed.
Lemma with_group_ok : tables_ok with_group.(db).
Proof.
  eapply (step_consistent echo three text no_time no_time as_number as_number Sample.cfg "db" with_plan); [apply step_create_group|].
  eapply (step_consistent echo three text no_time no_time as_number as_number Sample.cfg "db" (Sample.start ∅)); [apply step_create|].
  apply no_plans_ok.
Qed.

Lemma plans_stay_consistent_witness : tables_ok (add_plan_members text 6 1 1 MUser [7] with_group).2.(db).
Proof.
  apply (plans_stay_consistent echo three text no_time no_time as_number as_number Sample.cfg "db" with_group).
  - apply with_group_ok.
  - apply rtc_once. apply step_join.
Defined.

(** The plan as it is stored. *)
Definition stored (w : World) : CodingPlan :=
  default (Build_CodingPlan 0 "" "" 0 0 "" 0 "" "" None VNull "" false None None None 0 0) (w.(db).(planning).(coding_plans) !! 1).
Definition pro : CodingPlan := stored with_plan.
Lemma joined_plan_applies_witness :
  exists scope, parse_model_scope text pro.(cp_model_scope) = Ok scope /\
    let rt := runtime_of_row (runtime_row 7 "" 6 pro) scope in
    (scope_admits (Some "gpt-4o") rt = true ->
     exists best, resolve_plan (add_plan_members text 6 1 1 MUser [7] with_group).2.(caches).(plans) 7 0 (Some "gpt-4o") = Some best /\
       rank_le (plan_rank (Some "gpt-4o") rt) (plan_rank (Some "gpt-4o") best) = true).
Proof.
  apply (joined_plan_applies text 6 1 1 [7] with_group 1 (add_plan_members text 6 1 1 MUser [7] with_group).2 pro 7 0 (Some "gpt-4o")).
  - apply with_group_ok.
  - vm_compute. reflexivity.
  - vm_compute. reflexivity.
  - vm_compute. reflexivity.
  - apply list_elem_of_here.
  - vm_compute. reflexivity.
Defined.

Lemma sync_reconciles_witness :
  (exists added removed, (sync_group_ldap 7 Sample.cfg "db" (Ok [entry "bob"; entry "ann"]) 1 with_group).1 = Ok (Ok (added, removed))) /\
  (exists u row, (sync [entry "bob"; entry "ann"] with_group).(db).(users) !! u = Some row /\ row.(username) = "ann" /\
     is_Some ((sync [entry "bob"; entry "ann"] with_group).(db).(planning).(members) !! (1, u))).
Proof.
  destruct (with_group.(db).(planning).(user_groups) !! 1) as [g|] eqn:Hg; [|vm_compute in Hg; discriminate Hg].
  assert (Hs : g.(g_ldap_sync) = true) by (vm_compute in Hg; injection Hg as <-; reflexivity).
  assert (Hw : wf with_group.(db)).
  { destruct Sample.start_wf as [W1 W2 W3 W4]. split; [exact W1|exact W2|exact W3|exact W4]. }
  pose proof (sync_reconciles 7 Sample.cfg "db" [entry "bob"; entry "ann"] 1 with_group g Hw eq_refl Hg Hs) as H.
  unfold sync. destruct (sync_group_ldap 7 Sample.cfg "db" (Ok [entry "bob"; entry "ann"]) 1 with_group) as [r w].
  destruct H as (H1 & H2 & _). split; [exact H1|]. apply (H2 "ann"). exists (entry "ann"). split; [right; left|].
  split; reflexivity.
Defined.

(** ** Behaviours at odds with the comments *)

(** A user whose row cannot be written during a synchronisation loses the membership it had from the directory,
    although the directory still lists it. *)
Theorem failed_upsert_removes_member :
  let w := sync [entry "bob"; entry "ann"] with_group in
  is_member 7 w = true /\ is_member 7 (sync [entry "bob"; entry "ann"] (fails_at [false; true] w)) = false.
Proof. vm_compute. split; reflexivity. Qed.

(** A member of the directory that was removed by hand is back after the next synchronisation. *)
Theorem removed_member_returns :
  let w := (remove_members text 1 1 [7] (sync [entry "bob"] with_group)).2 in
  is_member 7 w = false /\ is_member 7 (sync [entry "bob"] w) = true.
Proof. vm_compute. split; reflexivity. Qed.

(** The limit 0 is refused as a number; as a text it passes the check and the database refuses it. *)
Theorem zero_limit_as_text :
  parse_limit_value echo (of_int 0) = Err (BadRequest "invalid token_limit") /\ parse_limit_value echo (VString "0") = Ok 0.
Proof. vm_compute. split; reflexivity. Qed.

(** A limit with a unit is computed with floats and cut off. *)
Theorem limit_is_cut_off : parse_token_limit echo "4.1G" = Ok 4099999999.
Proof. vm_compute. reflexivity. Qed.

(** Two updates that overlap, one that removes the target of a downgrade and one that turns the downgrade on, each
    valid for the row it has read, leave a plan that downgrades to no model. *)
Theorem overlapping_updates :
  let w1 := (write pro (change None (Some (Some "small"))) with_plan).2 in
  let before := stored w1 in
  let '(first, w2) := write before (change (Some "downgrade") None) w1 in
  let '(second, w3) := write before (change None (Some None)) w2 in
  is_ok first = true /\ is_ok second = true /\ (stored w3).(cp_overage_action) = "downgrade" /\ (stored w3).(cp_downgrade_model) = None.
Proof. vm_compute. split_and!; reflexivity. Qed.

(** A section that fails does not keep the other sections from being reloaded. *)
Theorem reload_is_per_section :
  let w := {| db := (add_plan_members text 6 1 1 MUser [7] with_group).2.(db); faults := [true]; entropy := []; caches := with_group.(caches) |} in
  is_ok (reload text w).1 = false /\ with_group.(caches).(plans) !! 7 = None /\
  exists p rest, (reload text w).2.(caches).(plans) !! 7 = Some (p :: rest) /\ p.(plan_name) = "pro".
Proof. vm_compute. split_and!; [reflexivity..|]. eexists _, _. split; reflexivity. Qed.
