(* ===== verification/Directory.v ===== *)
(** * The directory

[src/service/ldap.rs]: the login of a user at the directory, the groups that make an administrator, the list of users for the
synchronisation, and the test of the connection. The protocol is that of another crate: what a bind and a search
answer is a parameter, and what a search answers may depend on what the connection was bound as before. *)

From S2P Require Import Prelude Float Json Errors RateLimit Routing Calendar Plans Metering Body Streams Chat ToolMedia AnthropicResponse ErrorShape Upstream.
From S2P Require Import ConfigTables Database PlanConfig Accounts PlanMembers Sessions PlanHistory PlanExamples.

Local Open Scope Z_scope.

(** ** The protocol *)

(** An error of the protocol: a result the crate reports as an error, or another one with its text. *)
Inductive ProtocolError : Type := LdapResult (rc : Z) (text : string) | OtherError (text : string).
Definition error_text (e : ProtocolError) : string := match e with LdapResult _ t | OtherError t => t end.
Inductive Scope : Type := Base | Subtree.
Record SearchEntry : Type := { en_dn : string; attrs : gmap string (list string) }.
(** A connection: whether it is made, the result of a bind, and a search after some binds. A call may end in time or not. *)
Record Server : Type := {
  connect : string -> bool -> result unit ProtocolError;
  simple_bind : string -> string -> result (Z * string) ProtocolError;
  search : list (string * string) -> string -> Scope -> string -> result (list SearchEntry) ProtocolError;
  timed_out : bool;
}.

(** [From<ldap3::LdapError>] and [Display] *)
Definition ldap_error (e : ProtocolError) : LdapError :=
  match e with LdapResult rc t => if rc =? 49 then BadCredentials else Transport t | OtherError t => Transport t end.
Definition ldap_error_text (e : LdapError) : string :=
  match e with
  | UserNotFound => "user not found in LDAP"
  | BadCredentials => "LDAP bind failed"
  | NotConfigured => "LDAP not configured"
  | Transport e => "LDAP transport error: " +:+ e
  end.

Record LdapSettings : Type := {
  url : string;
  starttls : bool;
  bind_dn : option string;
  bind_password : option string;
  base_dn : string;
  user_filter : string;
  admin_groups : list string;
}.
Definition is_configured (s : LdapSettings) : bool := negb (str_is_empty s.(url)).

(** ** Filters and names *)

Definition NUL : Ascii.ascii := Ascii.Ascii false false false false false false false false.
Definition escape_char (a : Ascii.ascii) : string :=
  if bool_decide (a = "\"%char) then "\5c"
  else if bool_decide (a = "*"%char) then "\2a"
  else if bool_decide (a = "("%char) then "\28"
  else if bool_decide (a = ")"%char) then "\29"
  else if bool_decide (a = NUL) then "\00"
  else String a "".
Fixpoint ldap_escape_filter (s : string) : string :=
  match s with EmptyString => "" | String a s => escape_char a +:+ ldap_escape_filter s end.

(** The text before the first occurrence of a pattern. *)
Fixpoint before (pat s : string) : option string :=
  if starts_with pat s then Some ""
  else match s with EmptyString => None | String a s => String a <$> before pat s end.
Section names.
(** [char::is_alphanumeric] *)
Context (is_alphanumeric : string -> bool).
Definition in_name (c : string) : bool := is_alphanumeric c || bool_decide (c = "-") || bool_decide (c = "_").
Fixpoint drop_not (p : string -> bool) (l : list string) (acc : list string) : list string :=
  match l with [] => acc | c :: l => if p c then drop_not p l (acc ++ [c]) else drop_not p l [] end.
Definition username_attr (filter : string) : string :=
  match before "{0}" filter with
  | None => "uid"
  | Some b => let attr := join "" (drop_not in_name (chars b) []) in if str_is_empty attr then "uid" else attr
  end.
End names.

(** Distinguished names are taken apart at commas. *)
Definition rdns (dn : string) : list string := split_comma "" dn.
Definition cn_of_group (g : string) : string :=
  match List.find (fun rdn => starts_with "cn=" (to_ascii_lowercase rdn)) (trim <$> rdns g) with
  | Some rdn => str_drop 3 rdn
  | None => g
  end.
Definition dn_has_cn (dn : string) (cns : list string) : bool :=
  existsb (fun cn => existsb (fun rdn => eq_ignore_ascii_case (trim rdn) ("cn=" +:+ cn)) (rdns dn)) cns.
(** The value of the first component of a name. *)
Definition after_sign (rdn : string) : option string :=
  b ← before "=" rdn; Some (str_drop (S (String.length b)) rdn).

(** ** Operations *)

Section directory.
Context (is_alphanumeric : string -> bool) (srv : Server).

Definition bound (settings : LdapSettings) : list (string * string) :=
  match settings.(bind_dn), settings.(bind_password) with Some dn, Some pw => [(dn, pw)] | _, _ => [] end.
(** The connection and the bind of the service account; the code of its result is not looked at. *)
Definition open (settings : LdapSettings) : result unit LdapError :=
  let? _ := map_err ldap_error (srv.(connect) settings.(url) settings.(starttls)) in
  match settings.(bind_dn), settings.(bind_password) with
  | Some dn, Some pw => match srv.(simple_bind) dn pw with Ok _ => Ok tt | Err e => Err (ldap_error e) end
  | _, _ => Ok tt
  end.
Definition within_time {A} (text : string) (r : result A LdapError) : result A LdapError :=
  if srv.(timed_out) then Err (Transport text) else r.

Definition groups_filter (groups : list string) (user_dn : string) : string :=
  "(&(objectClass=groupOfNames)(|" +:+ join "" ((fun g => "(cn=" +:+ cn_of_group g +:+ ")") <$> groups) +:+ ")(member=" +:+ user_dn +:+ "))".
Definition match_admin_groups (settings : LdapSettings) (member_of : list string) (user_dn : string) : result bool LdapError :=
  if bool_decide (settings.(admin_groups) = []) then Ok false
  else if existsb (fun g => bool_decide (g ∈ member_of)) settings.(admin_groups) then Ok true
  else if existsb (fun m => dn_has_cn m (cn_of_group <$> settings.(admin_groups))) member_of then Ok true
  else if negb (bool_decide (member_of = [])) then Ok false
  else
    let? _ := open settings in
    let? rs := map_err ldap_error (srv.(search) (bound settings) settings.(base_dn) Subtree (groups_filter settings.(admin_groups) user_dn)) in
    Ok (negb (bool_decide (rs = []))).

Definition first (e : SearchEntry) (a : string) : option string := e.(attrs) !! a ≫= head.
(** The attribute that is present, first value or not. *)
Definition shown_name (e : SearchEntry) : option string := (match e.(attrs) !! "displayName" with Some v => Some v | None => e.(attrs) !! "cn" end) ≫= head.
Definition user_search (settings : LdapSettings) (name : string) : string := str_replace "{0}" (ldap_escape_filter name) settings.(user_filter).
Definition authenticate (settings : LdapSettings) (name password : string) : result Identity LdapError :=
  if negb (is_configured settings) then Err NotConfigured
  else if str_is_empty password then Err BadCredentials
  else within_time "LDAP operation timed out" (
    let? _ := open settings in
    let? rs := map_err ldap_error (srv.(search) (bound settings) settings.(base_dn) Subtree (user_search settings name)) in
    match rs with
    | [] => Err UserNotFound
    | entry :: _ =>
        let? res := map_err ldap_error (srv.(simple_bind) entry.(en_dn) password) in
        if negb (res.1 =? 0) then Err BadCredentials
        else
          let? admin := match_admin_groups settings (default [] (entry.(attrs) !! "memberOf")) entry.(en_dn) in
          Ok {| dn := entry.(en_dn); id_email := first entry "mail"; id_display := shown_name entry; id_admin := admin |}
    end).

Definition listed_user (attr : string) (e : SearchEntry) : option LdapUserEntry :=
  u ← or_else (first e attr) (r ← head (rdns e.(en_dn)); after_sign r);
  if str_is_empty u then None
  else Some {| e_username := u; e_dn := e.(en_dn); e_email := first e "mail"; e_display_name := or_else (first e "displayName") (first e "cn") |}.
Definition list_users (settings : LdapSettings) : result (list LdapUserEntry) LdapError :=
  if negb (is_configured settings) then Err NotConfigured
  else within_time "LDAP 用户列表拉取超时（30s）" (
    let? _ := open settings in
    let? rs := map_err ldap_error (srv.(search) (bound settings) settings.(base_dn) Subtree (str_replace "{0}" "*" settings.(user_filter))) in
    Ok (omap (listed_user (username_attr is_alphanumeric settings.(user_filter))) rs)).

Definition test_connection (settings : LdapSettings) : result string string :=
  if negb (is_configured settings) then Err "LDAP URL 为空"
  else if srv.(timed_out) then Err "LDAP 操作超时（10s）"
  else
    let? _ := map_err (fun e => "连接失败: " +:+ error_text e) (srv.(connect) settings.(url) settings.(starttls)) in
    let? _ := match settings.(bind_dn), settings.(bind_password) with
              | Some dn, Some pw =>
                  match srv.(simple_bind) dn pw with
                  | Err e => Err ("服务账号 bind 失败: " +:+ error_text e)
                  | Ok (rc, t) => if rc =? 0 then Ok tt else Err ("服务账号 bind 失败: " +:+ t +:+ " (code " +:+ pretty rc +:+ ")")
                  end
              | _, _ => Ok tt
              end in
    let? rs := map_err (fun e => "搜索失败: " +:+ error_text e) (srv.(search) (bound settings) settings.(base_dn) Base "(objectClass=*)") in
    Ok ("连接成功，base DN 可访问（" +:+ pretty (Z.of_nat (length rs)) +:+ " 条结果）").
End directory.

(** ** Properties *)

(** *** A name cannot change a filter *)

(** The characters that make up the structure of a filter. *)
Definition structural (a : Ascii.ascii) : bool := bool_decide (a = "("%char) || bool_decide (a = ")"%char) || bool_decide (a = "*"%char) || bool_decide (a = NUL).
Fixpoint skeleton (s : string) : list Ascii.ascii :=
  match s with EmptyString => [] | String a s => if structural a then a :: skeleton s else skeleton s end.
(** What the server reads: a backslash and two digits are a character. *)
Definition hex_digit (a : Ascii.ascii) : option nat :=
  let n := Ascii.nat_of_ascii a in
  if (48 <=? n)%nat && (n <=? 57)%nat then Some (n - 48)%nat else if (97 <=? n)%nat && (n <=? 102)%nat then Some (n - 87)%nat else None.
Fixpoint unescape (s : string) : option string :=
  match s with
  | EmptyString => Some ""
  | String a s' =>
      if bool_decide (a = "\"%char) then
        match s' with
        | String h (String l s'') => h ← hex_digit h; l ← hex_digit l; String (Ascii.ascii_of_nat (16 * h + l)) <$> unescape s''
        | _ => None
        end
      else String a <$> unescape s'
  end.

Lemma skeleton_app a b : skeleton (a +:+ b) = skeleton a ++ skeleton b.
Proof. induction a as [|c a IH]; [done|]. change (String c a +:+ b) with (String c (a +:+ b)). cbn [skeleton]. rewrite IH. by destruct (structural c). Qed.
Lemma skeleton_escape s : skeleton (ldap_escape_filter s) = [].
Proof.
  induction s as [|a s IH]; [done|]. cbn [ldap_escape_filter]. rewrite skeleton_app, IH, app_nil_r.
  by destruct a as [[] [] [] [] [] [] [] []]; vm_compute.
Qed.
Lemma unescape_escape s : unescape (ldap_escape_filter s) = Some s.
Proof.
  induction s as [|a s IH]; [done|]. transitivity (String a <$> unescape (ldap_escape_filter s)); [|by rewrite IH].
  cbn [ldap_escape_filter]. unfold escape_char. repeat (case_bool_decide; [by subst|]).
  change (String a "" +:+ ldap_escape_filter s) with (String a (ldap_escape_filter s)). cbn [unescape]. by rewrite bool_decide_false.
Qed.
Lemma drop_whole s : str_drop (String.length s) s = "".
Proof. by induction s. Qed.
Lemma replace_go_skip pat rep n : forall s, replace_go pat rep n s = str_replace pat rep (str_drop n s).
Proof. induction n as [|n IH]; intros [|a s]; try done. cbn. by rewrite IH. Qed.
Lemma skeleton_replace pat rep s : pat <> "" -> skeleton pat = [] -> skeleton rep = [] -> skeleton (str_replace pat rep s) = skeleton s.
Proof.
  intros Hn Hp Hr. induction s as [s IH] using (induction_ltof1 _ String.length). unfold ltof in IH. destruct s as [|a s]; [done|].
  unfold str_replace. cbn [replace_go]. destruct (starts_with pat (String a s)) eqn:E.
  - apply starts_with_spec in E as [t Et]. destruct pat as [|b pat]; [done|]. change (String b pat +:+ t) with (String b (pat +:+ t)) in Et. injection Et as -> ->.
    rewrite skeleton_app, Hr, replace_go_skip. cbn [String.length]. replace (S (String.length pat) - 1)%nat with (String.length pat) by lia.
    rewrite str_drop_app, drop_whole by done. cbn [app]. change ("" +:+ t) with t. rewrite IH by (cbn; rewrite length_app_str; lia).
    cbn in *. rewrite skeleton_app. destruct (structural b); [done|]. by rewrite Hp.
  - cbn [skeleton]. change (replace_go pat rep 0 s) with (str_replace pat rep s). by rewrite (IH s) by (cbn; lia).
Qed.

(** C30: whatever name a user logs in with, the filter of the search has the structure the operator gave it: no parenthesis and no
wildcard comes from the name, and the server reads the name back as it was typed. *)
Theorem name_cannot_change_filter settings name :
  skeleton (user_search settings name) = skeleton settings.(user_filter) /\ unescape (ldap_escape_filter name) = Some name.
Proof. split; [|apply unescape_escape]. apply skeleton_replace; [done|done|apply skeleton_escape]. Qed.

(** *** Who is let in, and as what *)

Section soundness.
Context (srv : Server).

(** Why a user is an administrator. *)
Definition admin_reason (settings : LdapSettings) (entry : SearchEntry) : Prop :=
  let member_of := default [] (entry.(attrs) !! "memberOf") in
  (exists g, g ∈ settings.(admin_groups) /\ g ∈ member_of) \/
  (exists g m, g ∈ settings.(admin_groups) /\ m ∈ member_of /\
     exists rdn, rdn ∈ rdns m /\ eq_ignore_ascii_case (trim rdn) ("cn=" +:+ cn_of_group g) = true) \/
  (member_of = [] /\ settings.(admin_groups) <> [] /\
   exists e rest, srv.(search) (bound settings) settings.(base_dn) Subtree (groups_filter settings.(admin_groups) entry.(en_dn)) = Ok (e :: rest)).

Lemma existsb_elem {A} (f : A -> bool) l : existsb f l = true <-> exists x, x ∈ l /\ f x = true.
Proof. rewrite existsb_exists. by setoid_rewrite list_elem_of_In. Qed.
Lemma admin_has_reason settings entry :
  match_admin_groups srv settings (default [] (entry.(attrs) !! "memberOf")) entry.(en_dn) = Ok true -> admin_reason settings entry.
Proof.
  unfold match_admin_groups, admin_reason. set (member_of := default [] _). case_bool_decide as Hg; [done|]. destruct (existsb _ _) eqn:E1.
  { intros _. apply existsb_elem in E1 as (g & Hin & Hb%bool_decide_eq_true). left. by exists g. }
  clear E1. destruct (existsb _ _) eqn:E2.
  { intros _. apply existsb_elem in E2 as (m & Hm & Hd). unfold dn_has_cn in Hd. apply existsb_elem in Hd as (cn & Hcn & (rdn & Hr & He)%existsb_elem).
    apply list_elem_of_fmap in Hcn as (g & -> & Hgin). right; left. exists g, m. split_and!; [done|done|]. by exists rdn. }
  case_bool_decide as Hm; [|done]. cbn [negb]. destruct (open srv settings); [|done]. cbn. destruct (search _ _ _ _ _) as [[|e rest]|e]; try done.
  intros _. right; right. split_and!; [done|done|]. by exists e, rest.
Qed.

(** C29: a login at the directory succeeds only with a password that is not empty, which the directory has accepted in a bind as the
first entry that the search for the name found; the profile is that of this entry, and the user is an administrator only
when one of the configured groups says so: by its full name or its common name among the groups of the entry, or, when the
directory lists none, by a search for a group with the user as a member. *)
Theorem directory_login_sound settings name password id :
  authenticate srv settings name password = Ok id ->
  password <> "" /\ settings.(url) <> "" /\
  exists entry rest text,
    srv.(search) (bound settings) settings.(base_dn) Subtree (user_search settings name) = Ok (entry :: rest) /\
    srv.(simple_bind) entry.(en_dn) password = Ok (0, text) /\
    id.(dn) = entry.(en_dn) /\ id.(id_email) = first entry "mail" /\ id.(id_display) = shown_name entry /\
    (id.(id_admin) = true -> admin_reason settings entry).
Proof.
  unfold authenticate, is_configured, str_is_empty, within_time. case_bool_decide as Hu; [done|]. cbn [negb]. case_bool_decide as Hp; [done|]. destruct (timed_out srv); [done|].
  destruct (open srv settings); [|done]. cbn. destruct (search _ _ _ _ _) as [[|entry rest]|e] eqn:Es; [done| |done]. cbn.
  destruct (simple_bind srv (en_dn entry) password) as [[rc text]|e] eqn:Eb; [|done]. cbn. destruct (rc =? 0) eqn:Er; [|done]. apply Z.eqb_eq in Er as ->. cbn.
  destruct (match_admin_groups _ _ _ _) as [admin|e] eqn:Em; [|done]. intros [= <-]. split_and!; [done|done|]. exists entry, rest, text. split_and!; try done.
  cbn. intros ->. by apply admin_has_reason.
Qed.
End soundness.

(** *** Examples *)

Module DirectorySample.
Definition settings (groups : list string) : LdapSettings :=
  {| url := "ldap://d.test"; starttls := false; bind_dn := Some "cn=svc"; bind_password := Some "old"; base_dn := "dc=x";
     user_filter := "(&(objectClass=person)(uid={0}))"; admin_groups := groups |}.
Definition entry (dn : string) (groups : list string) : SearchEntry :=
  {| en_dn := dn; attrs := {["mail" := ["ann@x.test"]; "cn" := ["Ann"]; "memberOf" := groups]} |}.
(** A directory with one user, that takes one password and answers the service account only. *)
Definition server (service : string) (e : SearchEntry) : Server :=
  {| connect := fun _ _ => Ok tt;
     simple_bind := fun dn pw => Ok (if bool_decide (dn = e.(en_dn) /\ pw = "secret") || bool_decide (dn = "cn=svc" /\ pw = service) then (0, "") else (49, "denied"));
     search := fun binds _ _ _ => Ok (if bool_decide (last binds = Some ("cn=svc", service)) then [e] else []);
     timed_out := false |}.
Definition ascii_letter (c : string) : bool :=
  match c with
  | String a "" => is_digit a || ((97 <=? Ascii.nat_of_ascii (ascii_lower a))%nat && (Ascii.nat_of_ascii (ascii_lower a) <=? 122)%nat)
  | _ => false
  end.
End DirectorySample.
Import DirectorySample.

Lemma directory_login_sound_witness :
  exists e rest text, (server "old" (entry "uid=ann,dc=x" ["cn=admins,dc=x"])).(search) [("cn=svc", "old")] "dc=x" Subtree (user_search (settings ["admins"]) "ann") = Ok (e :: rest) /\
    (server "old" (entry "uid=ann,dc=x" ["cn=admins,dc=x"])).(simple_bind) e.(en_dn) "secret" = Ok (0, text).
Proof.
  destruct (directory_login_sound (server "old" (entry "uid=ann,dc=x" ["cn=admins,dc=x"])) (settings ["admins"]) "ann" "secret"
    {| dn := "uid=ann,dc=x"; id_email := Some "ann@x.test"; id_display := Some "Ann"; id_admin := true |}) as (_ & _ & e & rest & t & H1 & H2 & _).
  - vm_compute. reflexivity.
  - exists e, rest, t. split; [exact H1|exact H2].
Defined.

(** The result of the bind of the service account is not looked at. After its password has changed, the directory, asked
    anonymously, lists no one; the synchronisation takes that for the truth and removes every member. *)
Theorem failed_bind_empties_group :
  let w := PlanSample.sync [PlanSample.entry "bob"] PlanSample.with_group in
  list_users ascii_letter (server "new" (entry "uid=bob,dc=x" [])) (settings []) = Ok [] /\
  PlanSample.is_member 7 w = true /\ PlanSample.is_member 7 (PlanSample.sync [] w) = false.
Proof. vm_compute. split_and!; reflexivity. Qed.

(** The search for groups of administrators takes the name of the user as it is: a wildcard in it becomes one in the filter. *)
Theorem group_filter_not_escaped :
  skeleton (groups_filter ["admins"] "uid=a*,dc=x") <> skeleton (groups_filter ["admins"] "uid=a,dc=x") /\
  groups_filter ["admins"] "uid=a*,dc=x" = "(&(objectClass=groupOfNames)(|(cn=admins))(member=uid=a*,dc=x))".
Proof. vm_compute. split; [discriminate|reflexivity]. Qed.

(** A group that lies in a container with the name of a configured group counts as that group. *)
Theorem container_counts_as_group :
  match_admin_groups (server "old" (entry "uid=ann,dc=x" [])) (settings ["Users"]) ["CN=Guests,CN=Users,DC=x"] "uid=ann,dc=x" = Ok true.
Proof. vm_compute. reflexivity. Qed.

(** The attribute of the name is looked for right before the placeholder, where the equals sign is: it is never found, and
    [uid] is used instead. A user of the default filter is then listed under the common name, not the name it logs in with. *)
Definition by_account : LdapSettings :=
  {| url := "ldap://d.test"; starttls := false; bind_dn := None; bind_password := None; base_dn := "dc=x";
     user_filter := "(&(objectClass=person)(sAMAccountName={0}))"; admin_groups := [] |}.
Definition account : SearchEntry := {| en_dn := "CN=Ann Smith,DC=x"; attrs := {["sAMAccountName" := ["asmith"]; "cn" := ["Ann Smith"]]} |}.
Definition lists_account : Server :=
  {| connect := fun _ _ => Ok tt; simple_bind := fun _ _ => Ok (0, ""); search := fun _ _ _ _ => Ok [account]; timed_out := false |}.
Theorem name_attribute_never_found :
  username_attr ascii_letter by_account.(user_filter) = "uid" /\
  list_users ascii_letter lists_account by_account =
    Ok [{| e_username := "Ann Smith"; e_dn := "CN=Ann Smith,DC=x"; e_email := None; e_display_name := Some "Ann Smith" |}] /\
  user_search by_account "asmith" = "(&(objectClass=person)(sAMAccountName=asmith))".
Proof. vm_compute. split_and!; reflexivity. Qed.
