(* ===== verification/ConfigExamples.v ===== *)
(** * Examples of the configuration

A small installation built with the operations of [ConfigAdmin]: one provider, then its models, rules and prices. It
shows that the hypotheses of the theorems of [ConfigHistory] and [ConfigEffects] can hold, and the behaviours that are at
odds with comments of the program. *)

From S2P Require Import Prelude Float Json Errors RateLimit Routing Calendar Plans Metering Body Streams Upstream ConfigTables Database.
From S2P Require Import PlanConfig ConfigStore Accounts ConfigAdmin ConfigHistory ConfigEffects Sessions.

Local Open Scope Z_scope.

Module ConfigSample.
Definition text (v : Value) : string := "".
Definition lower (s : string) : option string := Some (to_ascii_lowercase s).
Definition no_error (s : string) : string := "".
Definition seal (s : string) : result string string := Ok ("sealed:" +:+ s).
Definition unseal (s : string) : option string := Some (str_drop 7 s).
Definition exactly (f : F64.t) : option F64.t := Some f.
Definition status (n : Z) : string := "".
Definition no_json (s : string) : result Value string := Err "".

Definition provider_request : ProviderReq :=
  {| vr_name := "acme"; vr_api_type := "openai"; vr_base_url := "https://acme.test/v1"; vr_api_key := Some " sk-1 "; vr_timeout_ms := 60000;
     vr_enabled := true; vr_extra_body := VObject []; vr_auth_scheme := "bearer"; vr_extra_headers := VObject [("X-Team", VString "a")];
     vr_supports_images := true |}.
Definition limit (sc : string) (sid : option Z) : RateLimitReq :=
  {| lr_scope := sc; lr_scope_id := sid; lr_model := None; lr_concurrency := 1; lr_enabled := true |}.

Abbreviation create r := (create_provider text seal 5 1 r).
Abbreviation create_limit r := (create_rate_limit text Sample.cfg 5 1 r).
Abbreviation list_models ms := (store_models text 5 1 1 ms).

Definition with_provider : World := (create provider_request (Sample.start ∅)).2.
(** The provider as requests read it. *)
Definition acme : Provider :=
  {| id := 1; name := "acme"; api_type := "openai"; base_url := "https://acme.test/v1"; api_key_encrypted := "sealed:sk-1"; timeout_ms := 60000;
     provider_extra_body := VObject []; auth_scheme := "bearer"; extra_headers := VObject [("X-Team", VString "a")]; supports_images := true |}.
Definition chat : Endpoint := {| api := "/v1/chat/completions"; upstream := "/chat/completions"; responses := false; anthropic := false |}.
End ConfigSample.
Import ConfigSample.

Abbreviation sample_step :=
  (ConfigHistory.step Sample.cfg text lower Some no_error no_error seal unseal exactly status no_json).

Lemma sample_good : ConfigHistory.good Sample.cfg 1 (Sample.start ∅).(db).
Proof.
  split; cbn.
  1-5: repeat split; intros *; by rewrite ?lookup_empty.
  - split; exists []; done.
  - exists Sample.root. vm_compute. done.
Qed.
Lemma sample_cached : cached 1 (Sample.start ∅).(caches).
Proof. split; cbn; try constructor; exists []; done. Qed.
Lemma provider_step : rtc sample_step (Sample.start ∅) with_provider.
Proof. apply rtc_once, step_create_provider. Qed.
Lemma with_provider_sound : ConfigHistory.good Sample.cfg 1 with_provider.(db) /\ cached 1 with_provider.(caches).
Proof. apply (history_sound _ _ _ _ _ _ _ _ _ _ _ _ _ _ provider_step sample_good sample_cached). Qed.

Lemma configuration_stays_sound_witness : ConfigHistory.good Sample.cfg 1 with_provider.(db) /\ cached 1 with_provider.(caches).
Proof.
  apply (configuration_stays_sound Sample.cfg 1 text lower Some no_error no_error seal unseal exactly status no_json (Sample.start ∅)).
  - apply sample_good.
  - apply sample_cached.
  - apply provider_step.
Defined.

(** The request that goes to the provider, with headers of the client that would replace the credentials. *)
Definition sent : option Rectify.headers :=
  (upstream_request lower Some Some acme "sk-1" chat "r1" with_provider.(caches).(conf).(c_headers).(hs_upstream) false 0 false false "{}"
     [("x-api-key", "stolen"); ("accept", "text/plain")]).(req_headers).
Lemma provider_key_alone_witness : List.filter is_credential (default [] sent) = [("authorization", "Bearer sk-1")].
Proof.
  destruct (provider_key_alone text lower Some no_error no_error seal unseal exactly status no_json Sample.cfg 1 Some (Sample.start ∅) with_provider
              acme "sk-1" chat "r1" false 0 false false "{}" [("x-api-key", "stolen"); ("accept", "text/plain")] (default [] sent))
    as (v & Ev & Hv).
  - intros s n [= <-]. reflexivity.
  - apply sample_good.
  - apply sample_cached.
  - apply provider_step.
  - vm_compute. apply list_elem_of_here.
  - vm_compute. reflexivity.
  - injection Ev as <-. exact Hv.
Defined.

(** A rule for every user, and one for the user Bob. *)
Definition with_limits : World := (create_limit (limit "user" (Some 7)) (create_limit (limit "user" None) with_provider).2).2.
Lemma limits_step : rtc sample_step (Sample.start ∅) with_limits.
Proof.
  eapply rtc_l; [apply step_create_provider|]. eapply rtc_l; [apply step_create_rate_limit|]. apply rtc_once. apply step_create_rate_limit.
Qed.
Definition for_everyone : RateRule := {| scope := "user"; scope_id := None; rule_model := None; concurrency := 1 |}.
Lemma admin_not_targeted_witness :
  exists r, r ∈ with_limits.(caches).(conf).(c_rules) /\ is_Some (match_rule r (Some 1) None "m") /\
    (r.(scope) = "global" \/ (r.(scope) = "user" /\ r.(scope_id) = None) \/ (r.(scope) = "api_key" /\ r.(scope_id) = None)).
Proof.
  exists for_everyone.
  split; [vm_compute; repeat constructor|]. split; [vm_compute; eexists; reflexivity|].
  apply (admin_not_targeted text lower Some no_error no_error seal unseal exactly status no_json Sample.cfg 1 (Sample.start ∅) with_limits for_everyone None "m" "user:1" 1).
  - apply sample_good.
  - apply sample_cached.
  - apply limits_step.
  - vm_compute. repeat constructor.
  - vm_compute. reflexivity.
Defined.

Lemma listed_models_routed_witness :
  let w' := (list_models ["m1"; "m2"] with_provider).2 in
  is_Some (resolve_route w'.(caches).(conf).(c_routes) "m2") /\ has_row w'.(db).(config) 1 "m1".
Proof.
  destruct (listed_models_routed Sample.cfg 1 5 1 text 1 ["m1"; "m2"] with_provider 2 (list_models ["m1"; "m2"] with_provider).2) as (H1 & H2 & _).
  - apply with_provider_sound.
  - apply with_provider_sound.
  - vm_compute. reflexivity.
  - split; [apply H1|apply H2]; repeat constructor.
Defined.

(** ** Behaviours at odds with the comments *)

(** A user who may only use one provider may use every provider once that one is deleted: its access rules go with it,
    and no rule means no restriction. *)
Theorem deleted_provider_lifts_restriction :
  let w1 := (put_user_access text Sample.cfg 1 7 [(Some 1, None)] with_provider).2 in
  let w2 := (delete_provider text 1 1 w1).2 in
  user_can_use w1.(caches).(conf).(c_access) 7 2 "m" = false /\ user_can_use w2.(caches).(conf).(c_access) 7 2 "m" = true.
Proof. split; vm_compute; reflexivity. Qed.

(** A rule for a key that does not exist yet passes the check that protects the administrator, and limits the key of the
    administrator that is created with that identifier. *)
Theorem later_key_of_admin_limited :
  let (r, w1) := create_limit (limit "api_key" (Some 100)) with_provider in
  let (k, w2) := create_key Sample.sha256_hex Some Sample.root "ops" None w1 in
  is_ok r = true /\ (exists row, w2.(db).(api_keys) !! 100 = Some row /\ row.(k_user) = 1) /\
  matched_rules w2.(caches).(conf).(c_rules) (Some 1) (Some 100) "m" = [("key:100", 1)] /\
  is_ok (create_limit (limit "api_key" (Some 100)) w2).1 = false.
Proof. vm_compute. split; [reflexivity|]. split; [eexists; split; reflexivity|]. split; reflexivity. Qed.

(** An upstream that lists a model twice gets two routes for it, though at most one row of the model. *)
Theorem repeated_model_gets_two_routes :
  let w := (list_models ["m"; "m"] with_provider).2 in
  (model_pattern <$> w.(caches).(conf).(c_routes)) = ["m"; "m"] /\ length (rows w.(db).(config).(models)) = 1%nat.
Proof. split; vm_compute; reflexivity. Qed.

(** A model whose name ends in a star is stored as a route for every model with that prefix: a model that no upstream
    has listed is then routed. *)
Theorem listed_star_is_a_wildcard :
  let w := (list_models ["gpt-*"] with_provider).2 in
  bool_decide (is_Some (resolve_route w.(caches).(conf).(c_routes) "gpt-never-listed")) = true.
Proof. vm_compute. reflexivity. Qed.

(** A price that takes effect in the future is the price of requests from now on. *)
Theorem future_price_applies_now :
  let price from x := create_price text exactly 1 "m" (Some (F64.of_Z x)) None "USD" from in
  let w := (price 30000 9 (price 20000 1 with_provider).2).2 in
  w.(caches).(conf).(c_prices) !! "m" = (w.(db).(config).(prices) !! 2) ≫= (fun r => Some r.(pc_data)) /\
  (pc_effective_from <$> w.(db).(config).(prices) !! 2) = Some 30000.
Proof. split; vm_compute; reflexivity. Qed.

(** One model with a name of more than 128 bytes makes the models of that provider fail to be stored at all: its row would
    fit, its route does not, and the transaction is undone. *)
Theorem long_model_name_fails_sync :
  let (r, w) := list_models ["m"; String.string_of_list_ascii (replicate 129 "x"%char)] with_provider in
  r = Err db_error /\ w.(db).(config).(models) = ∅.
Proof. vm_compute. split; reflexivity. Qed.

(** A name with a blank is no name of a header, and yet it may be configured for a provider; no request to that provider
    can then be built. *)
Definition no_blanks (s : string) : option string := if existsb (Ascii.eqb " ") (String.list_ascii_of_string s) then None else lower s.
Definition odd_request : ProviderReq :=
  {| vr_name := "odd"; vr_api_type := "openai"; vr_base_url := "https://odd.test/v1"; vr_api_key := Some "sk-2"; vr_timeout_ms := 60000;
     vr_enabled := true; vr_extra_body := VObject []; vr_auth_scheme := "bearer"; vr_extra_headers := VObject [("bad name", VString "a")];
     vr_supports_images := true |}.
Theorem illegal_header_name_stored :
  let (r, w) := create odd_request (Sample.start ∅) in
  is_ok r = true /\
  ((fun p => (upstream_request no_blanks Some Some p "sk-2" chat "r1" [] false 0 false false "{}" []).(req_headers)) <$> w.(caches).(conf).(c_providers)) = [None].
Proof. vm_compute. split; reflexivity. Qed.
