(* ===== verification/AnthropicRequest.v ===== *)
(** * Anthropic requests as Chat requests

[src/service/anthropic/transform.rs] and the model families of [src/service/model_family.rs] it asks
for: the conversion of a Messages request into a Chat Completions request. Parsing and printing JSON,
Unicode lower-casing and the digest of a long tool name are parameters. *)

From S2P Require Import Prelude Float Json Metering Body Streams InlineThink Chat ToolMedia AnthropicResponse.

Local Open Scope Z_scope.

(** ** Strings *)

Definition slash : string := "/".
(** [s.rsplit('/').next()] *)
Definition last_segment (s : string) : string := string_rev (before slash (string_rev s)).
(** [s.split('/')] *)
Fixpoint segments (acc s : string) : list string :=
  match s with
  | EmptyString => [acc]
  | String c s => if bool_decide (String c "" = slash) then acc :: segments "" s else segments (acc +:+ String c "") s
  end.

Definition nth_char (n : nat) (s : string) : option Ascii.ascii := String.get n s.

(** [is_openai_o_series] *)
Definition is_openai_o_series (model : string) : bool :=
  let bare := last_segment model in
  bool_decide (1 < String.length bare)%nat && starts_with "o" bare &&
  match nth_char 1 bare with Some c => is_digit c | None => false end.

(** The width of the character that starts with a byte. *)
Definition char_width (c : Ascii.ascii) : nat :=
  let n := Ascii.nat_of_ascii c in
  if (n <? 128)%nat then 1 else if (n <? 224)%nat then 2 else if (n <? 240)%nat then 3 else 4.

(** The longest prefix of whole characters that fits. *)
Fixpoint take_chars (fuel budget : nat) (s : string) : string :=
  match fuel, s with
  | S fuel, String c _ =>
      let w := char_width c in
      if (w <=? budget)%nat then str_take w s +:+ take_chars fuel (budget - w) (str_drop w s) else ""
  | _, _ => ""
  end.

(** ** Tools *)

(** [strip_uri_formats] *)
Fixpoint strip_uri_formats (v : Value) : Value :=
  match v with
  | VObject m =>
      let drop := bool_decide (get_s "format" m = Some "uri") in
      VObject
        ((fix go (m : list (string * Value)) :=
            match m with
            | [] => []
            | (k, x) :: m' =>
                if drop && bool_decide (k = "format") then go m' else (k, strip_uri_formats x) :: go m'
            end) m)
  | VArray l => VArray (strip_uri_formats <$> l)
  | other => other
  end.

Definition normalize_schema (schema : Value) : Value :=
  match schema with
  | VObject obj =>
      let obj := if bool_decide (get_s "type" obj = Some "object") then obj
                 else Map.insert "type" (VString "object") obj in
      let obj := if Map.contains "properties" obj then obj
                 else Map.insert "properties" (json_object []) obj in
      strip_uri_formats (VObject obj)
  | _ => json_object [("type", VString "object"); ("properties", json_object [])]
  end.

Definition map_tool_choice_mode (mode : string) : Value :=
  VString (if bool_decide (mode = "any") then "required" else mode).

Definition convert_tool_choice (choice : option Value) : option Value :=
  match choice with
  | None => None
  | Some (VString s) => Some (map_tool_choice_mode s)
  | Some (VObject obj as c) =>
      match get_s "type" obj with
      | Some t =>
          if bool_decide (t = "tool") then
            (fun name => json_object [("type", VString "function");
                                      ("function", json_object [("name", VString name)])]) <$> get_s "name" obj
          else if bool_decide (t ∈ ["auto"; "none"; "any"]) then Some (map_tool_choice_mode t)
          else Some c
      | None => Some c
      end
  | Some c => Some c
  end.

Definition CHAT_TOOL_NAME_MAX_LEN : nat := 64.

Section names.
Variable digest16 : string -> string.

(** [digest16] is the first eight bytes of the SHA-256 digest, in hexadecimal. *)
Definition flatten_chat_tool_name (name : string) : string :=
  if (String.length name <=? CHAT_TOOL_NAME_MAX_LEN)%nat then name
  else
    let suffix := "__" +:+ digest16 name in
    take_chars (String.length name) (CHAT_TOOL_NAME_MAX_LEN - String.length suffix) name +:+ suffix.

Definition convert_tool (t : Value) : option Value :=
  if bool_decide (get_str "type" t = Some "BatchTool") then None
  else
    let name := default "" (get_str "name" t) in
    if str_is_empty name then None
    else
      let f := Map.insert "name" (VString (flatten_chat_tool_name name)) [] in
      let f := match get_str "description" t with Some d => Map.insert "description" (VString d) f | None => f end in
      let schema := normalize_schema (default (json_object []) (get "input_schema" t)) in
      Some (json_object [("type", VString "function"); ("function", VObject (Map.insert "parameters" schema f))]).

Definition convert_tools (tools : option Value) : option (list Value) :=
  match tools ≫= as_array with Some arr => Some (omap convert_tool arr) | None => None end.
End names.

(** ** Parameters of a request *)

(** [resolve_reasoning_effort] *)
Definition resolve_reasoning_effort (req : Value) : option string :=
  match pointer_str ["output_config"; "effort"] req with
  | Some e =>
      if bool_decide (e ∈ ["low"; "medium"; "high"]) then Some e
      else if bool_decide (e = "max") then Some "xhigh" else None
  | None =>
      thinking ← get "thinking" req;
      match get_str "type" thinking with
      | Some t =>
          if bool_decide (t = "adaptive") then Some "xhigh"
          else if bool_decide (t = "enabled") then
            match get "budget_tokens" thinking ≫= as_u64 with
            | Some b => Some (if b <? 4000 then "low" else if b <? 16000 then "medium" else "high")
            | None => Some "high"
            end
          else None
      | None => None
      end
  end.

Definition req_stop_sequences (req : Value) : option Value :=
  arr ← (get "stop_sequences" req ≫= as_array);
  let stops := List.filter (fun s => negb (str_is_empty s)) (omap as_str arr) in
  if bool_decide (stops = []) then None else Some (VArray (VString <$> stops)).

Definition BILLING_HEADER_PREFIX : string := "x-anthropic-billing-header:".

Definition line_break (c : Ascii.ascii) : bool :=
  (Ascii.nat_of_ascii c =? 10)%nat || (Ascii.nat_of_ascii c =? 13)%nat.
Fixpoint from_line_break (s : string) : option string :=
  match s with
  | EmptyString => None
  | String c s' => if line_break c then Some s else from_line_break s'
  end.
Fixpoint skip_line_breaks (s : string) : string :=
  match s with
  | EmptyString => ""
  | String c s' => if line_break c then skip_line_breaks s' else s
  end.

Definition strip_billing_header (text : string) : string :=
  match strip_prefix BILLING_HEADER_PREFIX (trim_start text) with
  | None => text
  | Some rest => match from_line_break rest with Some r => skip_line_breaks r | None => "" end
  end.

Section transform.
Context (show : Value -> string) (parse_json : string -> option Value) (to_lowercase : string -> string)
        (digest16 : string -> string).

(** [supports_reasoning_effort] *)
Definition supports_reasoning_effort (model : string) : bool :=
  let bare := last_segment (to_lowercase model) in
  is_openai_o_series bare ||
  match strip_prefix "gpt-" bare with
  | Some (String c _) => is_digit c && (53 <=? Ascii.nat_of_ascii c)%nat
  | _ => false
  end ||
  bool_decide (bare = "grok-4.5") || starts_with "grok-4.5-" bare || starts_with "grok-build-" bare.

Definition REASONING_VENDOR_HINTS : list string := ["deepseek"; "mimo"; "xiaomimimo"].
Definition THINKING_PLACEHOLDER : string := "tool call".

Definition requires_reasoning_content (model base_url : string) : bool :=
  existsb (fun h => str_contains h (to_lowercase model)) REASONING_VENDOR_HINTS ||
  existsb (fun seg => existsb (fun h => str_contains h seg) REASONING_VENDOR_HINTS)
    (segments "" (to_lowercase base_url)).

Definition system_to_text (system : option Value) : option string :=
  system ← system;
  let text :=
    match system with
    | VString s => strip_billing_header s
    | VArray blocks =>
        join newline (List.filter (fun s => negb (blank s)) (strip_billing_header <$> omap (get_str "text") blocks))
    | other => show other
    end in
  if blank text then None else Some text.

(** ** Messages *)

Definition text_part (t : string) : Value := json_object [("type", VString "text"); ("text", VString t)].

Definition media_block_to_chat_part (block : Value) : option Value :=
  part ← chat_media_part block;
  if bool_decide (get_str "type" part ∈ [Some "image_url"; Some "file"; Some "input_audio"]) then Some part else None.

Definition tool_result_content_with_media (content : option Value) (tool_use_id : string) : string * list Value :=
  match content with
  | None => ("", [])
  | Some content =>
      let split := split_tool_output show parse_json content in
      if bool_decide (split.(media) = []) then (split.(text), [])
      else (split.(text),
            (if blank tool_use_id then [] else [text_part (media_label tool_use_id)]) ++ split.(media))
  end.

Definition tool_message (id content : string) : Value :=
  json_object [("role", VString "tool"); ("tool_call_id", VString id); ("content", VString content)].

Definition tool_call (id name args : string) : Value :=
  json_object [("id", VString id); ("type", VString "function");
               ("function", json_object [("name", VString name); ("arguments", VString args)])].

(** The locals of [convert_blocks_to_chat], and the messages pushed. *)
Record Blocks : Type := {
  text_parts : list Value;
  tool_calls : list Value;
  reasoning : list string;
  pending_media : list Value;
  pushed : list Value;
}.
Definition no_blocks : Blocks :=
  {| text_parts := []; tool_calls := []; reasoning := []; pending_media := []; pushed := [] |}.
Definition add_part (p : Value) (a : Blocks) : Blocks :=
  {| text_parts := a.(text_parts) ++ [p]; tool_calls := a.(tool_calls); reasoning := a.(reasoning);
     pending_media := a.(pending_media); pushed := a.(pushed) |}.
Definition add_call (c : Value) (a : Blocks) : Blocks :=
  {| text_parts := a.(text_parts); tool_calls := a.(tool_calls) ++ [c]; reasoning := a.(reasoning);
     pending_media := a.(pending_media); pushed := a.(pushed) |}.
Definition add_reasoning (r : string) (a : Blocks) : Blocks :=
  {| text_parts := a.(text_parts); tool_calls := a.(tool_calls); reasoning := a.(reasoning) ++ [r];
     pending_media := a.(pending_media); pushed := a.(pushed) |}.
Definition add_result (m : list Value) (msg : Value) (a : Blocks) : Blocks :=
  {| text_parts := a.(text_parts); tool_calls := a.(tool_calls); reasoning := a.(reasoning);
     pending_media := a.(pending_media) ++ m; pushed := a.(pushed) ++ [msg] |}.

Definition block_kind (block : Value) : string := default "" (get_str "type" block).
Definition str_field (k : string) (block : Value) : string := default "" (get_str k block).

Definition convert_block (block : Value) (a : Blocks) : result Blocks string :=
  let ty := block_kind block in
  if bool_decide (ty = "text") then
    Ok (match get_str "text" block with
        | Some t => if blank t then a else add_part (text_part t) a
        | None => a
        end)
  else if bool_decide (ty ∈ ["image"; "document"; "audio"]) then
    Ok (match media_block_to_chat_part block with Some p => add_part p a | None => a end)
  else if bool_decide (ty = "tool_use") then
    let id := str_field "id" block in
    let name := str_field "name" block in
    if str_is_empty id || str_is_empty name then Err "tool_use block missing id or name"
    else
      let input := default (json_object []) (get "input" block) in
      Ok (add_call (tool_call id name (canonical_json_string show input)) a)
  else if bool_decide (ty = "tool_result") then
    let id := str_field "tool_use_id" block in
    let '(content, m) := tool_result_content_with_media (get "content" block) id in
    Ok (add_result m (tool_message id content) a)
  else if bool_decide (ty = "thinking") then
    Ok (match get_str "thinking" block with
        | Some t => if str_is_empty t then a else add_reasoning t a
        | None => a
        end)
  else if bool_decide (ty = "redacted_thinking") then Ok (add_reasoning "[redacted thinking]" a)
  else Ok (add_part (text_part (canonical_json_string show block)) a).

Fixpoint convert_each (blocks : list Value) (a : Blocks) : result Blocks string :=
  match blocks with
  | [] => Ok a
  | b :: blocks => let? a := convert_block b a in convert_each blocks a
  end.

Definition is_text_part (p : Value) : bool := bool_decide (get_str "type" p = Some "text").

Definition assistant_message (vendor_requires_reasoning : bool) (a : Blocks) : list Value :=
  if bool_decide (a.(text_parts) = []) && bool_decide (a.(tool_calls) = []) then []
  else
    let content :=
      if bool_decide (a.(text_parts) = []) then VNull
      else if forallb is_text_part a.(text_parts) then
        VString (concat_str (omap (get_str "text") a.(text_parts)))
      else VArray a.(text_parts) in
    let m := Map.of_list [("role", VString "assistant"); ("content", content)] in
    let m :=
      if bool_decide (a.(tool_calls) = []) then m
      else
        let m := Map.insert "tool_calls" (VArray a.(tool_calls)) m in
        if vendor_requires_reasoning then
          Map.insert "reasoning_content"
            (VString (if bool_decide (a.(reasoning) = []) then THINKING_PLACEHOLDER else join newline a.(reasoning))) m
        else m in
    [VObject m].

Definition message (role : string) (content : Value) : Value :=
  json_object [("role", VString role); ("content", content)].

Definition user_messages (a : Blocks) : list Value :=
  (if bool_decide (a.(pending_media) = []) then [] else [message "user" (VArray a.(pending_media))]) ++
  match a.(text_parts) with
  | [] => []
  | [p] => [message "user" (if is_text_part p then default VNull (get "text" p) else VArray [p])]
  | ps => [message "user" (VArray ps)]
  end.

Definition convert_blocks_to_chat (role : string) (blocks : list Value) (vendor : bool) : result (list Value) string :=
  let? a := convert_each blocks no_blocks in
  Ok (a.(pushed) ++ if bool_decide (role = "assistant") then assistant_message vendor a else user_messages a).

Definition message_role (msg : Value) : string := default "user" (get_str "role" msg).

Definition convert_message_to_chat (msg : Value) (vendor : bool) : result (list Value) string :=
  match get "content" msg with
  | Some (VArray blocks) => convert_blocks_to_chat (message_role msg) blocks vendor
  | Some other => Ok [message (message_role msg) other]
  | None => Ok [message (message_role msg) VNull]
  end.

Fixpoint convert_messages (msgs : list Value) (vendor : bool) : result (list Value) string :=
  match msgs with
  | [] => Ok []
  | m :: msgs =>
      let? l := convert_message_to_chat m vendor in
      let? l' := convert_messages msgs vendor in Ok (l ++ l')
  end.

(** ** Requests *)

Definition put (k : string) (o : option Value) (m : object) : object :=
  match o with Some v => Map.insert k v m | None => m end.
Definition not_null (o : option Value) : option Value := match o with Some VNull => None | o => o end.

(** [model], [stream], the sampling parameters, the limits, [user] and [stop]. *)
Definition head_fields (req : Value) (model gating_model : string) : object :=
  let out := Map.insert "model" (VString model) [] in
  let out := put "stream" (VBool <$> (get "stream" req ≫= as_bool)) out in
  let out := put "temperature" (not_null (get "temperature" req)) out in
  let out := put "top_p" (not_null (get "top_p" req)) out in
  let out := if supports_reasoning_effort gating_model
             then put "reasoning_effort" (VString <$> resolve_reasoning_effort req) out else out in
  let out := match get "max_tokens" req ≫= as_u64 with
             | Some mx =>
                 if 0 <? mx then
                   Map.insert (if is_openai_o_series (last_segment gating_model) then "max_completion_tokens"
                               else "max_tokens") (of_int mx) out
                 else out
             | None => out
             end in
  let user := or_else (pointer ["metadata"; "user_id"] req) (pointer ["metadata"; "user"] req) ≫= as_str in
  let out := put "user" (VString <$> user) out in
  put "stop" (req_stop_sequences req) out.

Definition tool_fields (req : Value) (out : object) : object :=
  match convert_tools digest16 (get "tools" req) with
  | Some tools =>
      if bool_decide (tools = []) then out
      else
        let out := Map.insert "tools" (VArray tools) out in
        let out := put "tool_choice" (convert_tool_choice (get "tool_choice" req)) out in
        match get "tool_choice" req ≫= as_object with
        | Some obj =>
            if bool_decide (Map.get "disable_parallel_tool_use" obj ≫= as_bool = Some true)
            then Map.insert "parallel_tool_calls" (VBool false) out else out
        | None => out
        end
  | None => out
  end.

Definition anthropic_request_to_chat (req : Value) (gating_model base_url : string) : result Value string :=
  match get_str "model" req with
  | Some model =>
      if str_is_empty model then Err "missing 'model' field"
      else
        let out := head_fields req model gating_model in
        let vendor := requires_reasoning_content gating_model base_url in
        let sys := match system_to_text (get "system" req) with
                   | Some t => if str_is_empty t then [] else [message "system" (VString t)]
                   | None => []
                   end in
        match get "messages" req ≫= as_array with
        | None => Err "missing 'messages' field"
        | Some arr =>
            let? msgs := convert_messages arr vendor in
            Ok (VObject (tool_fields req (Map.insert "messages" (VArray (sys ++ msgs)) out)))
        end
  | None => Err "missing 'model' field"
  end.

End transform.

(** ** Which requests are refused *)

(** A tool use the Chat dialect cannot express. *)
Definition bad_tool_use (b : Value) : bool :=
  bool_decide (block_kind b = "tool_use") && (str_is_empty (str_field "id" b) || str_is_empty (str_field "name" b)).
Definition bad_message (m : Value) : bool :=
  match get "content" m with Some (VArray bs) => existsb bad_tool_use bs | _ => false end.

(** The error of a request, if it has one. *)
Definition request_error (req : Value) : option string :=
  if str_is_empty (str_field "model" req) then Some "missing 'model' field"
  else match get "messages" req ≫= as_array with
       | None => Some "missing 'messages' field"
       | Some msgs => if existsb bad_message msgs then Some "tool_use block missing id or name" else None
       end.

Definition error_of {A} (r : result A string) : option string := match r with Ok _ => None | Err e => Some e end.

(** Two different kinds of one block. *)
Ltac kind_clash :=
  exfalso;
  match goal with
  | H : block_kind ?b = _, H' : block_kind ?b = _ |- _ => rewrite H in H'; discriminate
  | H : block_kind ?b = _, H' : block_kind ?b ∈ _ |- _ => rewrite H in H'; set_solver
  end.

Section requests.
Context (show : Value -> string) (parse_json : string -> option Value) (to_lowercase : string -> string)
        (digest16 : string -> string).

Lemma convert_block_error b a :
  error_of (convert_block show parse_json b a) =
  if bad_tool_use b then Some "tool_use block missing id or name" else None.
Proof.
  unfold convert_block, bad_tool_use. cbv zeta. repeat case_bool_decide; try done; cbn [andb]; try kind_clash.
  - by destruct (_ || _).
  - by destruct (tool_result_content_with_media _ _ _ _).
Qed.

Lemma convert_each_error bs a :
  error_of (convert_each show parse_json bs a) =
  if existsb bad_tool_use bs then Some "tool_use block missing id or name" else None.
Proof.
  revert a. induction bs as [|b bs IH]; intros a; [done|]. cbn [convert_each existsb].
  pose proof (convert_block_error b a) as H. destruct (convert_block _ _ b a) as [a'|e]; cbn [error_of] in H.
  - destruct (bad_tool_use b); [done|]. apply IH.
  - destruct (bad_tool_use b); [|done]. by injection H as ->.
Qed.

Lemma convert_message_error m vendor :
  error_of (convert_message_to_chat show parse_json m vendor) =
  if bad_message m then Some "tool_use block missing id or name" else None.
Proof.
  unfold convert_message_to_chat, bad_message. destruct (get "content" m) as [[| | | |bs|]|]; try done.
  unfold convert_blocks_to_chat. pose proof (convert_each_error bs no_blocks) as H.
  by destruct (convert_each _ _ bs no_blocks).
Qed.

Lemma convert_messages_error msgs vendor :
  error_of (convert_messages show parse_json msgs vendor) =
  if existsb bad_message msgs then Some "tool_use block missing id or name" else None.
Proof.
  induction msgs as [|m msgs IH]; [done|]. cbn [convert_messages existsb].
  pose proof (convert_message_error m vendor) as H. destruct (convert_message_to_chat _ _ m vendor) as [l|e];
    cbn [error_of] in H; destruct (bad_message m); try done.
  cbn [orb]. by destruct (convert_messages _ _ msgs vendor).
Qed.

(** A Messages request is refused exactly when it names no model, has no list of messages, or holds
    a tool use block without id or name, and with the message of the first of these that applies; every
    other request is converted, whatever else it holds. *)
Theorem request_refused_iff req gating base :
  error_of (anthropic_request_to_chat show parse_json to_lowercase digest16 req gating base) = request_error req.
Proof.
  unfold anthropic_request_to_chat, request_error, str_field. destruct (get_str "model" req) as [m|]; [|done].
  cbn [from_option id]. destruct (str_is_empty m); [done|].
  destruct (get "messages" req ≫= as_array) as [arr|]; [|done].
  pose proof (convert_messages_error arr (requires_reasoning_content to_lowercase gating base)) as H.
  by destruct (convert_messages _ _ arr _).
Qed.

(** ** Tool traffic *)

Definition block_call (b : Value) : option Value :=
  if bool_decide (block_kind b = "tool_use") then
    Some (tool_call (str_field "id" b) (str_field "name" b)
            (canonical_json_string show (default (json_object []) (get "input" b))))
  else None.
Definition block_result (b : Value) : option string :=
  if bool_decide (block_kind b = "tool_result") then Some (str_field "tool_use_id" b) else None.

(** The calls and results of a Messages conversation. *)
Definition message_blocks (m : Value) : list Value :=
  match get "content" m with Some (VArray bs) => bs | _ => [] end.
Definition sent_calls (msgs : list Value) : list Value :=
  concat ((fun m => if bool_decide (message_role m = "assistant") then omap block_call (message_blocks m) else []) <$> msgs).
Definition sent_results (msgs : list Value) : list string :=
  concat ((fun m => omap block_result (message_blocks m)) <$> msgs).

(** Those of a Chat conversation. *)
Definition calls_of (m : Value) : list Value := default [] (get "tool_calls" m ≫= as_array).
Definition result_of (m : Value) : option string :=
  if bool_decide (get_str "role" m = Some "tool") then get_str "tool_call_id" m else None.

Lemma convert_block_traffic b a a' :
  convert_block show parse_json b a = Ok a' ->
  a'.(tool_calls) = a.(tool_calls) ++ option_list (block_call b) /\
  exists l, a'.(pushed) = a.(pushed) ++ l /\ omap result_of l = option_list (block_result b) /\
    Forall (fun m => calls_of m = []) l.
Proof.
  unfold convert_block, block_call, block_result. cbv zeta.
  assert (Hn : forall a2 : Blocks, tool_calls a2 = tool_calls a -> pushed a2 = pushed a ->
    tool_calls a2 = tool_calls a ++ [] /\ exists l, pushed a2 = pushed a ++ l /\ omap result_of l = [] /\
    Forall (fun m => calls_of m = []) l).
  { intros a2 E1 E2. rewrite app_nil_r. split; [done|]. exists []. rewrite app_nil_r. by rewrite E2. }
  repeat case_bool_decide; try kind_clash.
  - intros [= <-]. destruct (get_str "text" b) as [t|]; [|by apply Hn]. destruct (blank t); by apply Hn.
  - intros [= <-]. destruct (media_block_to_chat_part b); by apply Hn.
  - destruct (_ || _); [done|]. intros [= <-]. cbn. split; [done|]. exists []. by rewrite app_nil_r.
  - destruct (tool_result_content_with_media _ _ _ _) as [c m]. intros [= <-]. cbn [tool_calls add_result pushed].
    split; [by rewrite app_nil_r|]. eexists. split; [done|]. split; [done|]. by constructor.
  - intros [= <-]. destruct (get_str "thinking" b) as [t|]; [|by apply Hn]. destruct (str_is_empty t); by apply Hn.
  - intros [= <-]. by apply Hn.
  - intros [= <-]. by apply Hn.
Qed.

Lemma omap_cons_list {A B} (f : A -> option B) x l : omap f (x :: l) = option_list (f x) ++ omap f l.
Proof. cbn. by destruct (f x). Qed.

Lemma convert_each_traffic bs a a' :
  convert_each show parse_json bs a = Ok a' ->
  a'.(tool_calls) = a.(tool_calls) ++ omap block_call bs /\
  exists l, a'.(pushed) = a.(pushed) ++ l /\ omap result_of l = omap block_result bs /\
    Forall (fun m => calls_of m = []) l.
Proof.
  revert a. induction bs as [|b bs IH]; intros a; cbn [convert_each].
  - intros [= <-]. rewrite app_nil_r. split; [done|]. exists []. by rewrite app_nil_r.
  - destruct (convert_block _ _ b a) as [a1|e] eqn:E; [|done]. intros H.
    destruct (convert_block_traffic _ _ _ E) as (C1 & l1 & P1 & R1 & F1).
    destruct (IH _ H) as (C2 & l2 & P2 & R2 & F2). rewrite !omap_cons_list. split; [by rewrite C2, C1, <-app_assoc|].
    exists (l1 ++ l2). rewrite P2, P1, omap_app, R1, R2, <-app_assoc. split_and!; [done..|]. by apply Forall_app.
Qed.

Lemma concat_nil {A B} (f : A -> list B) l : Forall (fun x => f x = []) l -> concat (f <$> l) = [].
Proof. induction 1 as [|x l Hx _ IH]; [done|]. cbn. by rewrite Hx. Qed.

Lemma message_traffic role c : calls_of (message role c) = [] /\ result_of (message role c) = None.
Proof. split; [done|]. unfold result_of. by case_bool_decide. Qed.

Lemma assistant_traffic vendor a :
  concat (calls_of <$> assistant_message vendor a) = a.(tool_calls) /\
  omap result_of (assistant_message vendor a) = [].
Proof.
  unfold assistant_message. case_bool_decide as Ep; case_bool_decide as Ec; cbn [andb]; cbv zeta;
    try (split; [by rewrite Ec|done]); try done.
  - split.
    + destruct vendor; unfold calls_of; cbn [fmap list_fmap concat]; unfold get;
        rewrite ?Map.get_insert_ne, Map.get_insert_eq by done; by rewrite app_nil_r.
    + destruct vendor; unfold result_of, get_str, get; cbn [omap list_omap];
        rewrite !Map.get_insert_ne by done; by rewrite bool_decide_false.
  - split.
    + destruct vendor; unfold calls_of; cbn [fmap list_fmap concat]; unfold get;
        rewrite ?Map.get_insert_ne, Map.get_insert_eq by done; by rewrite app_nil_r.
    + destruct vendor; unfold result_of, get_str, get; cbn [omap list_omap];
        rewrite !Map.get_insert_ne by done; by rewrite bool_decide_false.
Qed.

Lemma user_traffic a :
  concat (calls_of <$> user_messages a) = [] /\ omap result_of (user_messages a) = [].
Proof.
  unfold user_messages. assert (H : forall c, calls_of (message "user" c) = [] /\ result_of (message "user" c) = None).
  { intros c. apply message_traffic. }
  case_bool_decide; cbn [app]; destruct (a.(text_parts)) as [|p [|q ps]]; cbn; try done;
    repeat (rewrite ?(proj1 (H _)), ?(proj2 (H _))); done.
Qed.

Lemma convert_message_traffic m vendor l :
  convert_message_to_chat show parse_json m vendor = Ok l ->
  concat (calls_of <$> l) = (if bool_decide (message_role m = "assistant") then omap block_call (message_blocks m) else []) /\
  omap result_of l = omap block_result (message_blocks m).
Proof.
  unfold convert_message_to_chat, message_blocks.
  assert (Hp : forall c, concat (calls_of <$> [message (message_role m) c]) =
      (if bool_decide (message_role m = "assistant") then omap block_call [] else []) /\
    omap result_of [message (message_role m) c] = omap block_result []).
  { intros c. destruct (message_traffic (message_role m) c) as [E1 E2]. rewrite omap_cons_list, E2.
    change (calls_of <$> [message (message_role m) c]) with [calls_of (message (message_role m) c)]. rewrite E1.
    by case_bool_decide. }
  destruct (get "content" m) as [[| | | |bs|]|]; try (intros [= <-]; apply Hp).
  unfold convert_blocks_to_chat. destruct (convert_each _ _ bs no_blocks) as [a|e] eqn:E; [|done]. intros [= <-].
  destruct (convert_each_traffic _ _ _ E) as (C & l1 & P & R & F). cbn in C, P. rewrite P.
  rewrite fmap_app, concat_app, omap_app, R, (concat_nil _ _ F). cbn [app]. case_bool_decide.
  - destruct (assistant_traffic vendor a) as [E1 E2]. by rewrite E1, E2, app_nil_r, C.
  - destruct (user_traffic a) as [E1 E2]. by rewrite E1, E2, app_nil_r.
Qed.

Lemma convert_messages_traffic msgs vendor l :
  convert_messages show parse_json msgs vendor = Ok l ->
  concat (calls_of <$> l) = sent_calls msgs /\ omap result_of l = sent_results msgs.
Proof.
  unfold sent_calls, sent_results. revert l. induction msgs as [|m msgs IH]; intros l; cbn [convert_messages].
  - by intros [= <-].
  - destruct (convert_message_to_chat _ _ m vendor) as [l1|] eqn:E1; [|done].
    destruct (convert_messages _ _ msgs vendor) as [l2|]; [|done]. intros [= <-].
    destruct (convert_message_traffic _ _ _ E1) as [C1 R1]. destruct (IH _ eq_refl) as [C2 R2].
    rewrite fmap_app, concat_app, omap_app, C1, C2, R1, R2. done.
Qed.

(** Fields the conversion sets once. *)
Lemma tool_fields_get k req out :
  k ∉ ["tools"; "tool_choice"; "parallel_tool_calls"] ->
  Map.get k (tool_fields digest16 req out) = Map.get k out.
Proof.
  intros Hk. rewrite !not_elem_of_cons in Hk. destruct Hk as (H1 & H2 & H3 & _). unfold tool_fields.
  destruct (convert_tools _ _) as [tools|]; [|done]. case_bool_decide; [done|]. cbv zeta. unfold put.
  destruct (convert_tool_choice _); destruct (get "tool_choice" req ≫= as_object) as [o|];
    try case_bool_decide; by rewrite ?Map.get_insert_ne.
Qed.
Lemma get_put k k' o m : k <> k' -> Map.get k (put k' o m) = Map.get k m.
Proof. intros H. destruct o; [|done]. by apply Map.get_insert_ne. Qed.
Lemma head_fields_model req model gating :
  Map.get "model" (head_fields to_lowercase req model gating) = Some (VString model).
Proof.
  unfold head_fields. cbv zeta. rewrite !get_put by done.
  destruct (get "max_tokens" req ≫= as_u64) as [mx|]; [destruct (0 <? mx)|];
    rewrite ?(Map.get_insert_ne "model") by (by destruct (is_openai_o_series _));
    destruct (supports_reasoning_effort _ _); by rewrite !get_put.
Qed.

(** A conversation keeps its tool traffic. The tool calls of the Chat request are exactly the tool
    uses of the assistant turns, with their ids, names and canonical arguments, and its tool messages
    answer exactly the tool results, by id, both in the order they had; the model is the one named. *)
Theorem tool_traffic_preserved req gating base body msgs :
  anthropic_request_to_chat show parse_json to_lowercase digest16 req gating base = Ok body ->
  get "messages" req = Some (VArray msgs) ->
  get_str "model" body = get_str "model" req /\
  exists out, get "messages" body = Some (VArray out) /\
    concat (calls_of <$> out) = sent_calls msgs /\ omap result_of out = sent_results msgs.
Proof.
  unfold anthropic_request_to_chat. intros H Hm. rewrite Hm in H. cbn [mbind option_bind as_array] in H.
  destruct (get_str "model" req) as [model|]; [|done]. destruct (str_is_empty model); [done|].
  destruct (convert_messages _ _ msgs _) as [l|] eqn:E; [|done]. injection H as <-. split.
  - unfold get_str, get. rewrite tool_fields_get by set_solver. rewrite Map.get_insert_ne, head_fields_model by done. done.
  - eexists. split; [unfold get; rewrite tool_fields_get, Map.get_insert_eq by set_solver; done|].
    destruct (convert_messages_traffic _ _ _ E) as [C R]. rewrite fmap_app, concat_app, omap_app, C, R.
    destruct (system_to_text _ _) as [t|]; [|done]. by destruct (str_is_empty t).
Qed.
End requests.

(** ** Tools *)

(** A schema that names the format uri somewhere. *)
Fixpoint has_uri_format (v : Value) : bool :=
  match v with
  | VObject m =>
      bool_decide (get_s "format" m = Some "uri") ||
      (fix go (m : list (string * Value)) :=
         match m with [] => false | (_, x) :: m' => has_uri_format x || go m' end) m
  | VArray l => existsb has_uri_format l
  | _ => false
  end.

Definition strip_entries (drop : bool) (m : object) : object :=
  Map.map_values (fun _ x => strip_uri_formats x)
    (List.filter (fun kv => negb (drop && bool_decide (kv.1 = "format"))) m).
Lemma strip_uri_object m :
  strip_uri_formats (VObject m) = VObject (strip_entries (bool_decide (get_s "format" m = Some "uri")) m).
Proof.
  cbn [strip_uri_formats]. f_equal. generalize (bool_decide (get_s "format" m = Some "uri")). intros d.
  unfold strip_entries. induction m as [|[k x] m IH]; [done|]. cbn [List.filter fst].
  destruct (d && bool_decide (k = "format")); cbn [negb]; rewrite IH; [done|]. done.
Qed.
Lemma has_uri_object m :
  has_uri_format (VObject m) =
  bool_decide (get_s "format" m = Some "uri") || existsb (fun kv => has_uri_format kv.2) m.
Proof. cbn [has_uri_format]. f_equal. induction m as [|[k x] m IH]; [done|]. cbn. by rewrite IH. Qed.

Lemma get_strip_entries d k m :
  Map.get k (strip_entries d m) = if d && bool_decide (k = "format") then None else strip_uri_formats <$> Map.get k m.
Proof.
  unfold strip_entries. rewrite Map.get_map_values.
  change (List.filter _ m) with (Map.retain (fun k _ => negb (d && bool_decide (k = "format"))) m).
  rewrite (Map.get_retain (fun k => negb (d && bool_decide (k = "format")))).
  by destruct (d && bool_decide (k = "format")).
Qed.

Lemma strip_uri_str x : as_str (strip_uri_formats x) = as_str x.
Proof. by destruct x. Qed.

Lemma strip_uri_clean v : has_uri_format (strip_uri_formats v) = false.
Proof.
  induction v as [| | | |l IH|m IH] using value_nested_ind; try done.
  - cbn [strip_uri_formats has_uri_format]. induction IH as [|x l Hx _ IH]; [done|]. cbn. by rewrite Hx.
  - rewrite strip_uri_object, has_uri_object. set (d := bool_decide (get_s "format" m = Some "uri")).
    apply orb_false_iff. split.
    + unfold get_s. rewrite get_strip_entries, (bool_decide_true ("format" = "format")), andb_true_r by done.
      destruct d eqn:Ed; [done|]. unfold d, get_s in Ed. case_bool_decide as E; [done|].
      rewrite bool_decide_false; [done|]. destruct (Map.get "format" m) as [x|]; [|done]. cbn in *.
      by rewrite strip_uri_str.
    + clearbody d. unfold strip_entries, Map.map_values. induction IH as [|[k x] m Hx _ IH]; [done|].
      cbn [List.filter fst]. destruct (negb _); [|exact IH]. cbn. cbn in Hx. by rewrite Hx.
Qed.

(** The definition of a function for the Chat dialect. *)
Record good_function (t : Value) (name : string) : Prop := {
  good_type : get_str "type" t = Some "function";
  good_name : pointer_str ["function"; "name"] t = Some name;
  good_length : (String.length name <= CHAT_TOOL_NAME_MAX_LEN)%nat;
  good_schema : exists m, pointer ["function"; "parameters"] t = Some (VObject m) /\
    get_s "type" m = Some "object" /\ Map.contains "properties" m = true /\ has_uri_format (VObject m) = false;
}.

Lemma normalize_schema_good schema :
  exists m, normalize_schema schema = VObject m /\ get_s "type" m = Some "object" /\
    Map.contains "properties" m = true /\ has_uri_format (VObject m) = false.
Proof.
  destruct schema as [| | | | |obj]; try (eexists; split; [reflexivity|done]). cbn [normalize_schema]. cbv zeta.
  set (o1 := if bool_decide (get_s "type" obj = Some "object") then _ else _).
  assert (E1 : get_s "type" o1 = Some "object").
  { unfold o1. case_bool_decide; [done|]. unfold get_s. by rewrite Map.get_insert_eq. }
  set (o2 := if Map.contains "properties" o1 then _ else _).
  assert (E2 : get_s "type" o2 = Some "object" /\ Map.contains "properties" o2 = true).
  { unfold o2. destruct (Map.contains "properties" o1) eqn:E; [done|]. unfold get_s, Map.contains.
    rewrite Map.get_insert_ne, Map.get_insert_eq by done. split; [exact E1|]. by apply bool_decide_true. }
  destruct E2 as [E2 E3]. eexists. split; [apply strip_uri_object|].
  rewrite <-strip_uri_object. split_and!; [| |apply strip_uri_clean].
  - unfold get_s in *. rewrite get_strip_entries, (bool_decide_false ("type" = "format")), andb_false_r by done.
    destruct (Map.get "type" o2) as [x|]; [|done]. cbn in *. by rewrite strip_uri_str.
  - unfold Map.contains in *. rewrite get_strip_entries, (bool_decide_false ("properties" = "format")), andb_false_r by done.
    case_bool_decide as E; [|done]. apply bool_decide_true. destruct E as [x ->]. by eexists.
Qed.

Lemma str_take_length n s : (String.length (str_take n s) <= n)%nat.
Proof. revert s. induction n as [|n IH]; intros [|c s]; cbn; [lia..|]. specialize (IH s). lia. Qed.
Lemma string_length_app a b : String.length (a +:+ b) = (String.length a + String.length b)%nat.
Proof. induction a as [|c a IH]; [done|]. change (String c a +:+ b) with (String c (a +:+ b)). cbn. by rewrite IH. Qed.
Lemma take_chars_length fuel budget s : (String.length (take_chars fuel budget s) <= budget)%nat.
Proof.
  revert budget s. induction fuel as [|fuel IH]; intros budget [|c s]; cbn [take_chars]; cbv zeta; [cbn; lia..|].
  destruct (Nat.leb_spec (char_width c) budget); [|cbn; lia]. rewrite string_length_app.
  pose proof (str_take_length (char_width c) (String c s)).
  specialize (IH (budget - char_width c)%nat (str_drop (char_width c) (String c s))). lia.
Qed.
Lemma flatten_length digest16 name :
  (forall s, String.length (digest16 s) = 16%nat) ->
  (String.length (flatten_chat_tool_name digest16 name) <= CHAT_TOOL_NAME_MAX_LEN)%nat.
Proof.
  intros Hd. unfold flatten_chat_tool_name. destruct (Nat.leb_spec (String.length name) CHAT_TOOL_NAME_MAX_LEN); [done|].
  cbv zeta. rewrite string_length_app. set (suffix := "__" +:+ digest16 name).
  pose proof (take_chars_length (String.length name) (CHAT_TOOL_NAME_MAX_LEN - String.length suffix) name).
  assert (Hs : String.length suffix = 18%nat) by (unfold suffix; by rewrite string_length_app, Hd).
  unfold CHAT_TOOL_NAME_MAX_LEN in *. lia.
Qed.

(** The tools the Chat request keeps. *)
Definition usable_tool (t : Value) : bool :=
  negb (bool_decide (get_str "type" t = Some "BatchTool")) && negb (str_is_empty (str_field "name" t)).

Lemma convert_tool_good digest16 t :
  (forall s, String.length (digest16 s) = 16%nat) ->
  match convert_tool digest16 t with
  | Some f => usable_tool t = true /\ good_function f (flatten_chat_tool_name digest16 (str_field "name" t))
  | None => usable_tool t = false
  end.
Proof.
  intros Hd. unfold convert_tool, usable_tool. fold (str_field "name" t). case_bool_decide; [done|]. cbn [negb andb].
  cbv zeta. destruct (str_is_empty _) eqn:E; [done|]. split; [done|].
  destruct (normalize_schema_good (default (json_object []) (get "input_schema" t))) as (m & Em & H1 & H2 & H3).
  rewrite Em. set (name := flatten_chat_tool_name digest16 (str_field "name" t)).
  split; [done| |by apply flatten_length|].
  - destruct (get_str "description" t); done.
  - exists m. split; [|done]. destruct (get_str "description" t); done.
Qed.

(** Every tool the upstream is offered is one the Chat dialect accepts. The tools of a request are
    converted one by one and in order, only batch markers and nameless ones being left out; each becomes
    a function of at most 64 bytes of name, its own name when that is short enough, whose schema is an
    object with properties and nowhere asks for the format uri. *)
Theorem tools_acceptable digest16 tools :
  (forall s, String.length (digest16 s) = 16%nat) ->
  Forall2 (fun t f => good_function f (flatten_chat_tool_name digest16 (str_field "name" t)))
    (List.filter usable_tool tools) (omap (convert_tool digest16) tools) /\
  (forall name, (String.length name <= CHAT_TOOL_NAME_MAX_LEN)%nat -> flatten_chat_tool_name digest16 name = name).
Proof.
  intros Hd. split.
  - induction tools as [|t tools IH]; [constructor|]. rewrite omap_cons_list. cbn [List.filter].
    pose proof (convert_tool_good digest16 t Hd) as H. destruct (convert_tool digest16 t) as [f|].
    + destruct H as [-> H]. by constructor.
    + by rewrite H.
  - intros name H. unfold flatten_chat_tool_name. by rewrite (proj2 (Nat.leb_le _ _) H).
Qed.

Lemma tools_acceptable_witness :
  Forall2 (fun t f => good_function f (flatten_chat_tool_name (fun _ => "0123456789abcdef") (str_field "name" t)))
    (List.filter usable_tool [json_object [("name", VString "f")]])
    (omap (convert_tool (fun _ => "0123456789abcdef")) [json_object [("name", VString "f")]]).
Proof. apply (tools_acceptable (fun _ => "0123456789abcdef")). reflexivity. Defined.

(** ** A sample request *)

Module SampleRequest.
Definition msgs : list Value :=
  [json_object [("role", VString "assistant");
                ("content", VArray [json_object [("type", VString "tool_use"); ("id", VString "t1"); ("name", VString "f")]])];
   json_object [("role", VString "user");
                ("content", VArray [json_object [("type", VString "tool_result"); ("tool_use_id", VString "t1");
                                                 ("content", VString "ok")]])]].
Definition req : Value := json_object [("model", VString "m"); ("messages", VArray msgs)].
Definition convert (r : Value) : result Value string :=
  anthropic_request_to_chat (fun _ => "{}") (fun _ => None) (fun s => s) (fun _ => "0123456789abcdef") r "m" "".
Definition body : Value := Eval vm_compute in match convert req with Ok b => b | Err _ => VNull end.

(** A tool with a name of 65 bytes, and a request that asks for it by name. *)
Definition long_name : string := "aaaaaaaaaaaaaaaaaaaaaaaaaaaaaaaaaaaaaaaaaaaaaaaaaaaaaaaaaaaaaaaaa".
Definition long_req : Value :=
  json_object [("model", VString "m"); ("messages", VArray []);
               ("tools", VArray [json_object [("name", VString long_name)]]);
               ("tool_choice", json_object [("type", VString "tool"); ("name", VString long_name)])].
End SampleRequest.

Lemma tool_traffic_preserved_witness :
  exists out, get "messages" SampleRequest.body = Some (VArray out) /\ omap result_of out = ["t1"].
Proof.
  destruct (tool_traffic_preserved (fun _ => "{}") (fun _ => None) (fun s => s) (fun _ => "0123456789abcdef")
    SampleRequest.req "m" "" SampleRequest.body SampleRequest.msgs) as [_ (out & H1 & _ & H2)].
  - vm_compute. reflexivity.
  - vm_compute. reflexivity.
  - exists out. split; [exact H1|]. rewrite H2. vm_compute. reflexivity.
Defined.

(** A tool with a long name is offered to the upstream under a shorter one, but a request for that tool
    still asks for the long name: the Chat request then demands a function it does not define. *)
Theorem long_tool_choice_dangles :
  exists body, SampleRequest.convert SampleRequest.long_req = Ok body /\
  pointer_str ["tool_choice"; "function"; "name"] body = Some SampleRequest.long_name /\
  forall t, t ∈ default [] (get "tools" body ≫= as_array) ->
    pointer_str ["function"; "name"] t <> Some SampleRequest.long_name.
Proof.
  eexists. split; [vm_compute; reflexivity|]. split; [vm_compute; reflexivity|].
  intros t Ht. vm_compute in Ht. apply list_elem_of_singleton in Ht as ->. vm_compute. discriminate.
Qed.
