(* ===== verification/AnthropicStream.v ===== *)
(** * Chat streams as Anthropic event streams

[src/service/anthropic/stream.rs]: the state machine that turns the chunks of a Chat Completions stream
into Anthropic events, and the stream adapter around it. An event is a constructor of [Event]; [frame]
is the server-sent event the source builds for it. The fields [thinking_block_index],
[text_block_index], [thinking_started], [text_started] and [non_tool_open_order] of the source are
written and never read, and are left out. *)

From S2P Require Import Prelude Float Json Metering Body Streams Machine InlineThink Chat AnthropicResponse.

Local Open Scope Z_scope.

(** ** Events *)

Inductive Kind : Type := KThinking | KText | KTool.

#[global] Instance kind_eq_dec : EqDecision Kind.
Proof. solve_decision. Defined.

Inductive Start : Type :=
| SThinking
| SText
| STool (id name : string).

Inductive Event : Type :=
| MessageStart (id model : string) (usage : Buckets)
| BlockStart (index : Z) (b : Start)
| BlockDelta (index : Z) (kind : Kind) (text : string)
| BlockStop (index : Z)
| MessageDelta (stop_reason : string) (usage : Buckets)
| MessageStop
| ErrorEvent (message : string).

Definition start_kind (b : Start) : Kind :=
  match b with SThinking => KThinking | SText => KText | STool _ _ => KTool end.

Definition quote : string := String (Ascii.ascii_of_nat 34) "".

(** [sse_frame] *)
Definition sse_frame (show : Value -> string) (event : string) (data : Value) : string :=
  "event: " +:+ event +:+ newline +:+ "data: " +:+ show data +:+ newline +:+ newline.

Definition start_block (b : Start) : Value :=
  match b with
  | SThinking => json_object [("type", VString "thinking"); ("thinking", VString "")]
  | SText => json_object [("type", VString "text"); ("text", VString "")]
  | STool id name =>
      json_object [("type", VString "tool_use"); ("id", VString id); ("name", VString name);
                   ("input", json_object [])]
  end.

Definition delta_block (k : Kind) (t : string) : Value :=
  match k with
  | KThinking => json_object [("type", VString "thinking_delta"); ("thinking", VString t)]
  | KText => json_object [("type", VString "text_delta"); ("text", VString t)]
  | KTool => json_object [("type", VString "input_json_delta"); ("partial_json", VString t)]
  end.

Definition frame (show : Value -> string) (e : Event) : string :=
  match e with
  | MessageStart id model usage =>
      sse_frame show "message_start"
        (json_object
           [("type", VString "message_start");
            ("message",
             json_object
               [("id", VString ("msg_" +:+ id)); ("type", VString "message"); ("role", VString "assistant");
                ("model", VString model); ("content", VArray []); ("stop_reason", VNull);
                ("stop_sequence", VNull); ("usage", buckets_json usage)])])
  | BlockStart i b =>
      sse_frame show "content_block_start"
        (json_object [("type", VString "content_block_start"); ("index", of_int i);
                      ("content_block", start_block b)])
  | BlockDelta i k t =>
      sse_frame show "content_block_delta"
        (json_object [("type", VString "content_block_delta"); ("index", of_int i); ("delta", delta_block k t)])
  | BlockStop i =>
      sse_frame show "content_block_stop"
        (json_object [("type", VString "content_block_stop"); ("index", of_int i)])
  | MessageDelta reason usage =>
      sse_frame show "message_delta"
        (json_object
           [("type", VString "message_delta");
            ("delta", json_object [("stop_reason", VString reason); ("stop_sequence", VNull)]);
            ("usage", buckets_json usage)])
  | MessageStop =>
      "event: message_stop" +:+ newline +:+ "data: {" +:+ quote +:+ "type" +:+ quote +:+ ":" +:+ quote +:+
      "message_stop" +:+ quote +:+ "}" +:+ newline +:+ newline
  | ErrorEvent message =>
      sse_frame show "error"
        (json_object
           [("type", VString "error");
            ("error", json_object [("type", VString "stream_error"); ("message", VString message)])])
  end.

(** ** State *)

Record ToolBlock : Type := {
  anthropic_index : Z;
  tool_id : string;
  tool_name : string;
  arguments : string;
  pending_args : string;
  started : bool;
  stopped : bool;
  consecutive_whitespace : Z;
  aborted : bool;
}.

Definition new_tool (index : Z) : ToolBlock :=
  {| anthropic_index := index; tool_id := ""; tool_name := ""; arguments := ""; pending_args := "";
     started := false; stopped := false; consecutive_whitespace := 0; aborted := false |}.

Definition INFINITE_WHITESPACE_THRESHOLD : Z := 500.

(** The ordered map of tool blocks, by chat index. *)
Abbreviation tool_map := (list (Z * ToolBlock)).

Record State : Type := {
  msg_id : string;
  msg_model : string;
  usage : option ChatUsage;
  failed : option string;
  open_non_tool : option (Kind * Z);
  sent_message_start : bool;
  has_emitted_message_delta : bool;
  pending_stop_reason : option string;
  has_tool_use : bool;
  dropped_tools : nat;
  finalized : bool;
  next_block_index : Z;
  thinking_stopped : bool;
  text_stopped : bool;
  tools : tool_map;
  last_tool_key : option Z;
  inline_think : InlineThinkState;
}.

Definition new (id model : string) : State :=
  {| msg_id := id; msg_model := model; usage := None; failed := None; open_non_tool := None;
     sent_message_start := false; has_emitted_message_delta := false; pending_stop_reason := None;
     has_tool_use := false; dropped_tools := 0; finalized := false; next_block_index := 0;
     thinking_stopped := false; text_stopped := false; tools := []; last_tool_key := None;
     inline_think := InlineThink.new |}.

(** Updates of the fields that change together. *)
Definition set_head (id model : string) (u : option ChatUsage) (sent : bool) (s : State) : State :=
  {| msg_id := id; msg_model := model; usage := u; failed := s.(failed); open_non_tool := s.(open_non_tool);
     sent_message_start := sent; has_emitted_message_delta := s.(has_emitted_message_delta);
     pending_stop_reason := s.(pending_stop_reason); has_tool_use := s.(has_tool_use);
     dropped_tools := s.(dropped_tools); finalized := s.(finalized); next_block_index := s.(next_block_index);
     thinking_stopped := s.(thinking_stopped); text_stopped := s.(text_stopped); tools := s.(tools);
     last_tool_key := s.(last_tool_key); inline_think := s.(inline_think) |}.
Definition set_blocks (o : option (Kind * Z)) (next : Z) (think text : bool) (s : State) : State :=
  {| msg_id := s.(msg_id); msg_model := s.(msg_model); usage := s.(usage); failed := s.(failed);
     open_non_tool := o; sent_message_start := s.(sent_message_start);
     has_emitted_message_delta := s.(has_emitted_message_delta);
     pending_stop_reason := s.(pending_stop_reason); has_tool_use := s.(has_tool_use);
     dropped_tools := s.(dropped_tools); finalized := s.(finalized); next_block_index := next;
     thinking_stopped := think; text_stopped := text; tools := s.(tools);
     last_tool_key := s.(last_tool_key); inline_think := s.(inline_think) |}.
Definition set_tools (m : tool_map) (used : bool) (dropped : nat) (s : State) : State :=
  {| msg_id := s.(msg_id); msg_model := s.(msg_model); usage := s.(usage); failed := s.(failed);
     open_non_tool := s.(open_non_tool); sent_message_start := s.(sent_message_start);
     has_emitted_message_delta := s.(has_emitted_message_delta);
     pending_stop_reason := s.(pending_stop_reason); has_tool_use := used; dropped_tools := dropped;
     finalized := s.(finalized); next_block_index := s.(next_block_index);
     thinking_stopped := s.(thinking_stopped); text_stopped := s.(text_stopped); tools := m;
     last_tool_key := s.(last_tool_key); inline_think := s.(inline_think) |}.
Definition set_last_key (k : Z) (s : State) : State :=
  {| msg_id := s.(msg_id); msg_model := s.(msg_model); usage := s.(usage); failed := s.(failed);
     open_non_tool := s.(open_non_tool); sent_message_start := s.(sent_message_start);
     has_emitted_message_delta := s.(has_emitted_message_delta);
     pending_stop_reason := s.(pending_stop_reason); has_tool_use := s.(has_tool_use);
     dropped_tools := s.(dropped_tools); finalized := s.(finalized); next_block_index := s.(next_block_index);
     thinking_stopped := s.(thinking_stopped); text_stopped := s.(text_stopped); tools := s.(tools);
     last_tool_key := Some k; inline_think := s.(inline_think) |}.
Definition set_think (t : InlineThinkState) (s : State) : State :=
  {| msg_id := s.(msg_id); msg_model := s.(msg_model); usage := s.(usage); failed := s.(failed);
     open_non_tool := s.(open_non_tool); sent_message_start := s.(sent_message_start);
     has_emitted_message_delta := s.(has_emitted_message_delta);
     pending_stop_reason := s.(pending_stop_reason); has_tool_use := s.(has_tool_use);
     dropped_tools := s.(dropped_tools); finalized := s.(finalized); next_block_index := s.(next_block_index);
     thinking_stopped := s.(thinking_stopped); text_stopped := s.(text_stopped); tools := s.(tools);
     last_tool_key := s.(last_tool_key); inline_think := t |}.
Definition set_end (f : option string) (delta : bool) (reason : option string) (fin : bool) (s : State) : State :=
  {| msg_id := s.(msg_id); msg_model := s.(msg_model); usage := s.(usage); failed := f;
     open_non_tool := s.(open_non_tool); sent_message_start := s.(sent_message_start);
     has_emitted_message_delta := delta; pending_stop_reason := reason; has_tool_use := s.(has_tool_use);
     dropped_tools := s.(dropped_tools); finalized := fin; next_block_index := s.(next_block_index);
     thinking_stopped := s.(thinking_stopped); text_stopped := s.(text_stopped); tools := s.(tools);
     last_tool_key := s.(last_tool_key); inline_think := s.(inline_think) |}.

(** ** Operations *)

Notation op := (Machine.op State Event).

Definition close_open_non_tool : op := fun s =>
  match s.(open_non_tool) with
  | None => (s, [])
  | Some (k, i) =>
      (set_blocks None s.(next_block_index)
         (match k with KThinking => true | _ => s.(thinking_stopped) end)
         (match k with KThinking => s.(text_stopped) | _ => true end) s,
       [BlockStop i])
  end.

Definition open_start (k : Kind) : Start := match k with KThinking => SThinking | _ => SText end.

(** [append_thinking_delta] and [append_text_delta] *)
Definition append_delta (k : Kind) (delta : string) : op := fun s =>
  match s.(open_non_tool) with
  | Some (k', i) =>
      if bool_decide (k' = k) then (s, [BlockDelta i k delta])
      else
        let '(s, ev) := close_open_non_tool s in
        let i := s.(next_block_index) in
        (set_blocks (Some (k, i)) (i + 1) s.(thinking_stopped) s.(text_stopped) s,
         ev ++ [BlockStart i (open_start k); BlockDelta i k delta])
  | None =>
      let i := s.(next_block_index) in
      (set_blocks (Some (k, i)) (i + 1) s.(thinking_stopped) s.(text_stopped) s,
       [BlockStart i (open_start k); BlockDelta i k delta])
  end.
Definition append_thinking_delta := append_delta KThinking.
Definition append_text_delta := append_delta KText.

(** The number of white-space characters at the end, continuing a count. *)
Fixpoint whitespace_run (n : Z) (s : string) : Z :=
  match s with
  | EmptyString => n
  | String a s1 =>
      let na := Ascii.nat_of_ascii a in
      if ws1 na then whitespace_run (n + 1) s1
      else match s1 with
           | EmptyString => 0
           | String b s2 =>
               let nb := Ascii.nat_of_ascii b in
               if ws2 na nb then whitespace_run (n + 1) s2
               else match s2 with
                    | EmptyString => whitespace_run 0 s1
                    | String c s3 =>
                        if ws3 na nb (Ascii.nat_of_ascii c) then whitespace_run (n + 1) s3
                        else whitespace_run 0 s1
                    end
           end
  end.

Definition key_for_id (id : option string) (m : tool_map) : option Z :=
  match trimmed_non_empty id with
  | Some i => head (List.filter (fun kb => bool_decide (kb.2.(tool_id) = i)) m) ≫= (fun kb => Some kb.1)
  | None => None
  end.

Definition chat_index (tc : ToolCallDelta) (s : State) : Z :=
  match tc.(tc_index) with
  | Some i => i
  | None =>
      resolve_no_index_tool_key tc.(tc_id) (key_for_id tc.(tc_id) s.(tools)) s.(last_tool_key)
        (fst <$> last s.(tools))
  end.

(** The tool block a frame belongs to; a new one takes the next block index. *)
Definition tool_block_for (k : Z) (s : State) : State * ToolBlock :=
  match tool_get k s.(tools) with
  | Some b => (s, b)
  | None =>
      let b := new_tool s.(next_block_index) in
      (set_tools (tool_set k b s.(tools)) s.(has_tool_use) s.(dropped_tools)
         (set_blocks s.(open_non_tool) (s.(next_block_index) + 1) s.(thinking_stopped) s.(text_stopped) s), b)
  end.

Definition name_tool (tc : ToolCallDelta) (b : ToolBlock) : ToolBlock :=
  {| anthropic_index := b.(anthropic_index);
     tool_id := default b.(tool_id) (trimmed_non_empty tc.(tc_id));
     tool_name := default b.(tool_name) (trimmed_non_empty (tc.(tc_function) ≫= fn_name));
     arguments := b.(arguments); pending_args := b.(pending_args); started := b.(started);
     stopped := b.(stopped); consecutive_whitespace := b.(consecutive_whitespace); aborted := b.(aborted) |}.

(** Start a block and flush the arguments that waited for it. *)
Definition start_tool (b : ToolBlock) : ToolBlock * list Event :=
  ({| anthropic_index := b.(anthropic_index); tool_id := b.(tool_id); tool_name := b.(tool_name);
      arguments := b.(arguments) +:+ b.(pending_args); pending_args := ""; started := true;
      stopped := b.(stopped); consecutive_whitespace := b.(consecutive_whitespace); aborted := b.(aborted) |},
   BlockStart b.(anthropic_index) (STool b.(tool_id) b.(tool_name)) ::
   if str_is_empty b.(pending_args) then [] else [BlockDelta b.(anthropic_index) KTool b.(pending_args)]).

Definition ready (b : ToolBlock) : bool :=
  negb b.(started) && negb (str_is_empty b.(tool_id)) && negb (str_is_empty b.(tool_name)).

Definition set_args (args pending : string) (ws : Z) (ab : bool) (b : ToolBlock) : ToolBlock :=
  {| anthropic_index := b.(anthropic_index); tool_id := b.(tool_id); tool_name := b.(tool_name);
     arguments := args; pending_args := pending; started := b.(started); stopped := b.(stopped);
     consecutive_whitespace := ws; aborted := ab |}.

Definition add_args (args : string) (b : ToolBlock) : ToolBlock * list Event :=
  if b.(aborted) then (b, [])
  else
    let ws := whitespace_run b.(consecutive_whitespace) args in
    if INFINITE_WHITESPACE_THRESHOLD <=? ws then (set_args b.(arguments) b.(pending_args) ws true b, [])
    else if b.(started) then
      (set_args (b.(arguments) +:+ args) b.(pending_args) ws false b, [BlockDelta b.(anthropic_index) KTool args])
    else (set_args b.(arguments) (b.(pending_args) +:+ args) ws false b, []).

Definition append_tool_delta (tc : ToolCallDelta) : op := fun s =>
  let '(s, ev0) := close_open_non_tool s in
  let k := chat_index tc s in
  let '(s, b) := tool_block_for k (set_last_key k s) in
  let b := name_tool tc b in
  let '(b, used, ev1) :=
    if ready b then let '(b, ev) := start_tool b in (b, true, ev) else (b, s.(has_tool_use), []) in
  let '(b, ev2) :=
    match tc.(tc_function) ≫= fn_arguments with
    | Some a => if str_is_empty a then (b, []) else add_args a b
    | None => (b, [])
    end in
  (set_tools (tool_set k b s.(tools)) used s.(dropped_tools) s, ev0 ++ ev1 ++ ev2).

(** Closing one tool block: the block, whether it is now a tool use, whether it was dropped. *)
Definition close_tool (k : Z) (b : ToolBlock) : ToolBlock * list Event * bool * bool :=
  let with_id b := {| anthropic_index := b.(anthropic_index);
                      tool_id := or_if_empty b.(tool_id) ("tool_call_" +:+ pretty k);
                      tool_name := b.(tool_name); arguments := b.(arguments);
                      pending_args := b.(pending_args); started := b.(started); stopped := b.(stopped);
                      consecutive_whitespace := b.(consecutive_whitespace); aborted := b.(aborted) |} in
  let with_name b := {| anthropic_index := b.(anthropic_index); tool_id := b.(tool_id);
                        tool_name := or_if_empty b.(tool_name) "unknown_tool"; arguments := b.(arguments);
                        pending_args := b.(pending_args); started := b.(started); stopped := b.(stopped);
                        consecutive_whitespace := b.(consecutive_whitespace); aborted := b.(aborted) |} in
  let stop b := {| anthropic_index := b.(anthropic_index); tool_id := b.(tool_id);
                   tool_name := b.(tool_name); arguments := b.(arguments);
                   pending_args := b.(pending_args); started := b.(started); stopped := true;
                   consecutive_whitespace := b.(consecutive_whitespace); aborted := b.(aborted) |} in
  if b.(started) && negb b.(stopped) then (with_id (stop b), [BlockStop b.(anthropic_index)], false, false)
  else if negb b.(started) then
    if negb (str_is_empty b.(tool_id)) || negb (str_is_empty b.(tool_name)) ||
       negb (str_is_empty b.(pending_args)) || negb (str_is_empty b.(arguments)) then
      let '(b, ev) := start_tool (with_name (with_id b)) in
      (stop b, ev ++ [BlockStop b.(anthropic_index)], true, false)
    else (b, [], false, true)
  else (b, [], false, false).

Fixpoint close_tools (m : tool_map) : tool_map * list Event * bool * nat :=
  match m with
  | [] => ([], [], false, O)
  | (k, b) :: m =>
      let '(b, ev, used, dropped) := close_tool k b in
      let '(m, ev', used', n) := close_tools m in
      ((k, b) :: m, ev ++ ev', used || used', (n + if dropped then 1 else 0)%nat)
  end.

Definition close_open_blocks : op := fun s =>
  let '(s, ev) := close_open_non_tool s in
  let '(m, ev', used, n) := close_tools s.(tools) in
  (set_tools m (s.(has_tool_use) || used) (s.(dropped_tools) + n)%nat s, ev ++ ev').

Definition current_usage (s : State) : Buckets :=
  match s.(usage) with Some u => buckets u | None => zero_buckets end.

Definition final_stop_reason (truncated : bool) (s : State) : string :=
  let r := match s.(pending_stop_reason) with
           | Some r => r
           | None => if truncated then "max_tokens" else if s.(has_tool_use) then "tool_use" else "end_turn"
           end in
  if bool_decide (r = "end_turn") && s.(has_tool_use) then "tool_use" else r.

Definition message_delta_events (truncated : bool) : op := fun s =>
  if s.(has_emitted_message_delta) then (s, [])
  else (set_end s.(failed) true s.(pending_stop_reason) s.(finalized) s,
        [MessageDelta (final_stop_reason truncated s) (current_usage s)]).

Definition message_start_event (s : State) : Event := MessageStart s.(msg_id) s.(msg_model) (current_usage s).

Definition start_message : op := fun s =>
  if s.(sent_message_start) then (s, [])
  else (set_head s.(msg_id) s.(msg_model) s.(usage) true s, [message_start_event s]).

Definition fail_with (message : string) : op := fun s =>
  (set_end (Some message) s.(has_emitted_message_delta) s.(pending_stop_reason) s.(finalized) s,
   [ErrorEvent message]).

Definition transport_error (message : string) : op := fun s =>
  match s.(failed) with Some _ => (s, []) | None => fail_with message s end.

Definition extract_stream_error_message (err : Value) : string :=
  match err with
  | VString s => s
  | VObject _ =>
      default "upstream stream error"
        (or_else (pointer_str ["error"; "message"] err) (or_else (get_str "message" err) (get_str "detail" err)))
  | _ => "upstream stream error"
  end.

Definition emit_think (o : list string * list string) : op :=
  each append_thinking_delta o.1 ;;; each append_text_delta o.2.

Definition feed_content (content : string) : op := fun s =>
  let '(t, o) := InlineThink.feed content s.(inline_think) in emit_think o (set_think t s).

Definition non_empty_opt (s : option string) : option string :=
  match s with Some t => if str_is_empty t then None else Some t | None => None end.

Definition note_finish (fr : string) : op := fun s =>
  (set_end s.(failed) s.(has_emitted_message_delta) (Some (stop_reason_from_finish fr s.(has_tool_use)))
     s.(finalized) s, []).

Section machine.
Variable show : Value -> string.

Definition process_choice (c : ChatStreamChoice) : op :=
  let d := c.(choice_delta) in
  when_some (non_empty_opt (or_else d.(delta_reasoning_content) d.(delta_reasoning))) append_thinking_delta ;;;
  when_some (non_empty_opt (d.(delta_content) ≫= delta_content_text show)) feed_content ;;;
  when_some (trimmed_non_empty d.(delta_refusal)) append_text_delta ;;;
  each append_tool_delta d.(delta_tool_calls) ;;;
  when_some (trimmed_non_empty c.(choice_finish_reason)) note_finish.

Definition adopt_head (c : ChatStreamChunk) : op :=
  modify (fun s =>
    set_head (if str_is_empty s.(msg_id) then c.(chunk_id) else s.(msg_id))
      (if str_is_empty s.(msg_model) then c.(chunk_model) else s.(msg_model))
      (or_else c.(chunk_usage) s.(usage)) s.(sent_message_start) s).

Definition process_chunk (c : ChatStreamChunk) : op := fun s =>
  match s.(failed) with
  | Some _ => (s, [])
  | None =>
      match c.(chunk_error) with
      | Some err => fail_with (extract_stream_error_message err) s
      | None => (adopt_head c ;;; start_message ;;; each process_choice c.(chunk_choices)) s
      end
  end.

End machine.

Definition flush_think : op := fun s =>
  let '(t, o) := InlineThink.flush s.(inline_think) in emit_think o (set_think t s).

Definition has_output (s : State) : bool :=
  s.(thinking_stopped) || s.(text_stopped) || existsb (fun kb => kb.2.(started)) s.(tools).

Definition finalize_inner (truncated : bool) : op := fun s =>
  if s.(finalized) then (s, [])
  else
    let s := set_end s.(failed) s.(has_emitted_message_delta) s.(pending_stop_reason) true s in
    match s.(failed) with
    | Some _ => (s, [])
    | None =>
        if truncated && negb s.(sent_message_start) then
          (s, [ErrorEvent "upstream stream ended before any output"])
        else
          let '(s, ev) := (start_message ;;; flush_think) s in
          let '(s, close) := close_open_blocks s in
          if (0 <? s.(dropped_tools))%nat && negb (has_output s) then
            (s, [ErrorEvent "upstream returned tool_calls without function name and no other output"])
          else
            let '(s, fin) := (message_delta_events truncated ;;; emit [MessageStop]) s in
            (s, ev ++ close ++ fin)
    end.
Definition finalize : op := finalize_inner false.
Definition finalize_truncated : op := finalize_inner true.

(** [billing_usage] *)
Definition billing_usage (s : State) : option Usage :=
  (fun u => {| Metering.prompt_tokens := Some (usage_input u); Metering.completion_tokens := Some (usage_output u);
               Metering.input_tokens := None; Metering.output_tokens := None;
               Metering.cache_read_tokens := Some (cached_tokens u);
               Metering.cache_write_tokens := Some (cache_write_tokens u) |}) <$> s.(usage).
