(* ===== verification/AnthropicProtocol.v ===== *)
(** * The Anthropic event stream follows its protocol

The automaton a reader of the stream relies on, the invariants that tie it to the state machine of
[AnthropicStream], and the theorem that every stream is a complete run of it. The lemmas on
preserved relations between the state and the events written so far are shared by the theorems on the
contents of the stream. *)

From S2P Require Import Prelude Float Json Metering Body Streams Machine InlineThink Chat AnthropicResponse AnthropicStream.

Local Open Scope Z_scope.

(** ** The event protocol

What a reader of the stream relies on, as an automaton over the events: one [message_start] first,
every block opened at an unused index, its increments of its own kind and while it is open, every
block stopped before the single [message_delta], [message_stop] after it; an [error] may come at any
point, and nothing follows an [error] or a [message_stop]. *)

Record Protocol : Type := {
  p_started : bool;
  p_open : gmap Z Kind;
  p_used : gset Z;
  p_delta : bool;
  p_done : bool;
}.

Definition p_init : Protocol :=
  {| p_started := false; p_open := ∅; p_used := ∅; p_delta := false; p_done := false |}.

Definition p_in_message (p : Protocol) : bool := p.(p_started) && negb p.(p_delta) && negb p.(p_done).
Definition p_with_open (m : gmap Z Kind) (u : gset Z) (p : Protocol) : Protocol :=
  {| p_started := p.(p_started); p_open := m; p_used := u; p_delta := p.(p_delta); p_done := p.(p_done) |}.
Definition p_with_end (delta done : bool) (p : Protocol) : Protocol :=
  {| p_started := p.(p_started); p_open := p.(p_open); p_used := p.(p_used); p_delta := delta; p_done := done |}.

Definition p_step (p : Protocol) (e : Event) : option Protocol :=
  match e with
  | MessageStart _ _ _ =>
      if p.(p_started) || p.(p_done) then None
      else Some {| p_started := true; p_open := p.(p_open); p_used := p.(p_used); p_delta := p.(p_delta);
                   p_done := p.(p_done) |}
  | BlockStart i b =>
      if p_in_message p && bool_decide (i ∉ p.(p_used)) then
        Some (p_with_open (<[i := start_kind b]> p.(p_open)) ({[i]} ∪ p.(p_used)) p)
      else None
  | BlockDelta i k _ =>
      if p_in_message p && bool_decide (p.(p_open) !! i = Some k) then Some p else None
  | BlockStop i =>
      if p_in_message p && bool_decide (is_Some (p.(p_open) !! i)) then
        Some (p_with_open (delete i p.(p_open)) p.(p_used) p)
      else None
  | MessageDelta _ _ =>
      if p_in_message p && bool_decide (p.(p_open) = ∅) then Some (p_with_end true false p) else None
  | MessageStop =>
      if p.(p_started) && p.(p_delta) && negb p.(p_done) then Some (p_with_end true true p) else None
  | ErrorEvent _ => if p.(p_done) then None else Some (p_with_end p.(p_delta) true p)
  end.

Definition p_run : Protocol -> list Event -> option Protocol := Machine.run p_step.

(** A complete run of the protocol. *)
Definition p_complete (l : list Event) : Prop := exists p, p_run p_init l = Some p /\ p.(p_done) = true.

Lemma p_run_app p l1 l2 : p_run p (l1 ++ l2) = (p_run p l1) ≫= (fun p => p_run p l2).
Proof. apply Machine.run_app. Qed.
Lemma p_run_cons p e l : p_run p (e :: l) = (p_step p e) ≫= (fun p => p_run p l).
Proof. apply Machine.run_cons. Qed.

(** ** The blocks of the state and of the protocol

The open blocks are the current thinking or text block and the started tools; an index is used once. *)

Definition indices (m : tool_map) : list Z := (fun kb : Z * ToolBlock => kb.2.(anthropic_index)) <$> m.

Definition tool_ok (next : Z) (p : Protocol) (kb : Z * ToolBlock) : Prop :=
  kb.2.(anthropic_index) < next /\ kb.2.(stopped) = false /\
  if kb.2.(started) then p.(p_open) !! kb.2.(anthropic_index) = Some KTool
  else kb.2.(anthropic_index) ∉ p.(p_used).

Record blocks_ok (o : option (Kind * Z)) (next : Z) (m : tool_map) (p : Protocol) : Prop := {
  ok_message : p_in_message p = true;
  ok_sorted : tools_sorted m;
  ok_nodup : NoDup (indices m);
  ok_tools : Forall (tool_ok next p) m;
  ok_slot : forall k i, o = Some (k, i) -> k <> KTool /\ p.(p_open) !! i = Some k;
  ok_open : forall i k, p.(p_open) !! i = Some k ->
    o = Some (k, i) \/ (exists kb, kb ∈ m /\ kb.2.(anthropic_index) = i /\ kb.2.(started) = true);
  ok_dom : forall i k, p.(p_open) !! i = Some k -> i ∈ p.(p_used);
  ok_used : forall i, i ∈ p.(p_used) -> i < next;
}.

Lemma step_start p i b :
  p_in_message p = true -> i ∉ p.(p_used) ->
  p_step p (BlockStart i b) = Some (p_with_open (<[i := start_kind b]> p.(p_open)) ({[i]} ∪ p.(p_used)) p).
Proof. intros H1 H2. cbn. by rewrite H1, (bool_decide_true _ H2). Qed.
Lemma step_delta p i k t :
  p_in_message p = true -> p.(p_open) !! i = Some k -> p_step p (BlockDelta i k t) = Some p.
Proof. intros H1 H2. cbn. by rewrite H1, (bool_decide_true _ H2). Qed.
Lemma step_stop p i k :
  p_in_message p = true -> p.(p_open) !! i = Some k ->
  p_step p (BlockStop i) = Some (p_with_open (delete i p.(p_open)) p.(p_used) p).
Proof. intros H1 H2. cbn. rewrite H1, bool_decide_true by eauto. done. Qed.

Lemma slot_not_tool o next m p k i kb :
  blocks_ok o next m p -> o = Some (k, i) -> kb ∈ m -> kb.2.(anthropic_index) <> i.
Proof.
  intros H -> Hin <-. destruct (ok_slot _ _ _ _ H _ _ eq_refl) as [Hk Ho].
  pose proof (proj1 (Forall_forall _ _) (ok_tools _ _ _ _ H) kb Hin) as (_ & _ & Ht).
  destruct (kb.2.(started)); [congruence|]. by apply Ht, (ok_dom _ _ _ _ H) with k.
Qed.

Lemma close_slot k i next m p :
  blocks_ok (Some (k, i)) next m p ->
  exists p', p_step p (BlockStop i) = Some p' /\ blocks_ok None next m p'.
Proof.
  intros H. destruct (ok_slot _ _ _ _ H _ _ eq_refl) as [Hk Ho].
  rewrite (step_stop p i k) by (done || apply H). eexists. split; [done|]. split; try apply H.
  - apply Forall_forall. intros kb Hin.
    pose proof (slot_not_tool _ _ _ _ _ _ kb H eq_refl Hin) as Hne.
    pose proof (proj1 (Forall_forall _ _) (ok_tools _ _ _ _ H) kb Hin) as (? & ? & Ht).
    split_and!; [done..|]. destruct (kb.2.(started)); cbn; [by rewrite lookup_delete_ne|done].
  - done.
  - cbn. intros j k' Hj. apply lookup_delete_Some in Hj as [Hne Hj].
    destruct (ok_open _ _ _ _ H j k' Hj) as [[= <- <-]|?]; [done|by right].
  - cbn. intros j k' Hj. apply lookup_delete_Some in Hj as [_ Hj]. by eapply ok_dom.
Qed.

Lemma next_unused o next m p : blocks_ok o next m p -> next ∉ p.(p_used).
Proof. intros H Hin. apply (ok_used _ _ _ _ H) in Hin. lia. Qed.

(** Opening a block at an unused index keeps the tools that are not at that index. *)
Lemma tool_ok_insert next next' i k p kb :
  tool_ok next p kb -> next <= next' -> kb.2.(anthropic_index) <> i ->
  tool_ok next' (p_with_open (<[i := k]> p.(p_open)) ({[i]} ∪ p.(p_used)) p) kb.
Proof.
  intros (H1 & H2 & H3) Hle Hne. split_and!; [lia|done|]. cbn.
  destruct (kb.2.(started)); [by rewrite lookup_insert_ne|set_solver].
Qed.

Lemma open_slot k next m p d :
  k <> KTool -> blocks_ok None next m p ->
  exists p', p_run p [BlockStart next (open_start k); BlockDelta next k d] = Some p' /\
             blocks_ok (Some (k, next)) (next + 1) m p'.
Proof.
  intros Hk H. assert (Hs : start_kind (open_start k) = k) by by destruct k.
  rewrite p_run_cons, step_start by (apply H || by eapply next_unused). rewrite Hs. cbn [mbind option_bind].
  rewrite p_run_cons, (step_delta _ next k) by (apply H || apply lookup_insert_eq). eexists. split; [done|].
  split; try apply H.
  - eapply Forall_impl; [apply H|]. intros kb Hkb. eapply tool_ok_insert; [exact Hkb|lia|].
    destruct Hkb. lia.
  - intros k' i [= <- <-]. split; [done|]. cbn. apply lookup_insert_eq.
  - cbn. intros i k' Hi. apply lookup_insert_Some in Hi as [[<- <-]|[Hne Hi]]; [by left|].
    destruct (ok_open _ _ _ _ H i k' Hi); [done|by right].
  - cbn. intros i k' Hi. apply lookup_insert_Some in Hi as [[<- <-]|[Hne Hi]]; [set_solver|].
    apply elem_of_union_r. by eapply ok_dom.
  - cbn. intros i Hi. apply elem_of_union in Hi as [->%elem_of_singleton|Hi]; [lia|].
    apply (ok_used _ _ _ _ H) in Hi. lia.
Qed.

Lemma indices_perm m m' : m ≡ₚ m' -> indices m ≡ₚ indices m'.
Proof. intros H. unfold indices. by rewrite H. Qed.

(** A new tool reserves the next index. *)
Lemma add_tool k next m p :
  blocks_ok None next m p -> tool_get k m = None ->
  blocks_ok None (next + 1) (tool_set k (new_tool next) m) p.
Proof.
  intros H Hg. pose proof (tool_set_new k (new_tool next) m Hg) as Hp. split; try apply H.
  - apply tool_set_sorted, H.
  - rewrite (indices_perm _ _ Hp). cbn. constructor; [|apply H]. intros Hin.
    apply list_elem_of_fmap in Hin as (kb & He & Hin).
    pose proof (proj1 (Forall_forall _ _) (ok_tools _ _ _ _ H) kb Hin) as (? & _). cbn in He. lia.
  - rewrite Hp. constructor.
    + split_and!; cbn; [lia|done|by eapply next_unused].
    + eapply Forall_impl; [apply H|]. intros kb (? & ? & ?). split_and!; [lia|done..].
  - intros i k' Hi. destruct (ok_open _ _ _ _ H i k' Hi) as [?|(kb & ? & ?)]; [by left|].
    right. exists kb. split; [|done]. rewrite Hp. by apply elem_of_cons; right.
  - intros i Hi. apply (ok_used _ _ _ _ H) in Hi. lia.
Qed.

(** Changing the texts of a tool changes nothing of the blocks. *)
Lemma update_tool k next m p b0 b :
  blocks_ok None next m p -> tool_get k m = Some b0 ->
  b.(anthropic_index) = b0.(anthropic_index) -> b.(started) = b0.(started) -> b.(stopped) = b0.(stopped) ->
  blocks_ok None next (tool_set k b m) p.
Proof.
  intros H Hg Hi Hs Ht. destruct (tool_set_known k b b0 m (ok_sorted _ _ _ _ H) Hg) as (r & Hm & Hp).
  pose proof (ok_tools _ _ _ _ H) as Hf. rewrite Hm in Hf. apply Forall_cons in Hf as [Hb Hr].
  split; try apply H.
  - apply tool_set_sorted, H.
  - rewrite (indices_perm _ _ Hp). pose proof (ok_nodup _ _ _ _ H) as Hn.
    rewrite (indices_perm _ _ Hm) in Hn. cbn in Hn |- *. by rewrite Hi.
  - rewrite Hp. constructor; [|done]. unfold tool_ok in *. cbn in *. by rewrite Hi, Hs, Ht.
  - intros i k' Ho. destruct (ok_open _ _ _ _ H i k' Ho) as [?|(kb & Hin & He & Hst)]; [by left|].
    right. rewrite Hm in Hin. apply elem_of_cons in Hin as [->|Hin].
    + exists (k, b). rewrite Hp. cbn in *. split; [by apply elem_of_cons; left|]. by rewrite Hi, Hs.
    + exists kb. rewrite Hp. split; [by apply elem_of_cons; right|done].
Qed.

(** Starting a tool opens its block. *)
Lemma start_tool_ok k next m p b0 b st :
  blocks_ok None next m p -> tool_get k m = Some b0 -> b0.(started) = false ->
  b.(anthropic_index) = b0.(anthropic_index) -> b.(started) = true -> b.(stopped) = false ->
  start_kind st = KTool ->
  exists p', p_step p (BlockStart b.(anthropic_index) st) = Some p' /\
             p'.(p_open) !! b.(anthropic_index) = Some KTool /\
             blocks_ok None next (tool_set k b m) p'.
Proof.
  intros H Hg Hn Hi Hs Ht Hst. destruct (tool_set_known k b b0 m (ok_sorted _ _ _ _ H) Hg) as (r & Hm & Hp).
  pose proof (ok_tools _ _ _ _ H) as Hf. rewrite Hm in Hf. apply Forall_cons in Hf as [Hb Hr].
  destruct Hb as (Hlt & _ & Hu). cbn in Hlt, Hu. rewrite Hn in Hu.
  pose proof (ok_nodup _ _ _ _ H) as Hnd. rewrite (indices_perm _ _ Hm) in Hnd. cbn in Hnd.
  rewrite step_start; [|apply H|by rewrite Hi]. rewrite Hst, Hi. eexists. split; [done|].
  split; [apply lookup_insert_eq|]. split; try apply H.
  - apply tool_set_sorted, H.
  - rewrite (indices_perm _ _ Hp). cbn. by rewrite Hi.
  - rewrite Hp. constructor.
    + unfold tool_ok. cbn. rewrite Hi, Hs, Ht. split_and!; [done..|apply lookup_insert_eq].
    + rewrite Forall_forall in Hr |- *. intros kb Hin. eapply tool_ok_insert; [by apply Hr|lia|].
      intros He. apply NoDup_cons in Hnd as [Hni _]. apply Hni. rewrite <-He.
      apply list_elem_of_fmap. by exists kb.
  - done.
  - cbn. intros i k' Ho. apply lookup_insert_Some in Ho as [[<- <-]|[Hne Ho]]; right.
    + exists (k, b). rewrite Hp. split; [by apply elem_of_cons; left|done].
    + destruct (ok_open _ _ _ _ H i k' Ho) as [?|(kb & Hin & He & Hkb)]; [done|].
      rewrite Hm in Hin. apply elem_of_cons in Hin as [->|Hin]; [by cbn in He|].
      exists kb. rewrite Hp. split; [by apply elem_of_cons; right|done].
  - cbn. intros i k' Ho. apply lookup_insert_Some in Ho as [[<- <-]|[Hne Ho]]; [set_solver|].
    apply elem_of_union_r. by eapply ok_dom.
  - cbn. intros i Hin. apply elem_of_union in Hin as [->%elem_of_singleton|Hin]; [lia|].
    by apply (ok_used _ _ _ _ H) in Hin.
Qed.

Lemma start_tool_run p b :
  p_in_message p = true -> b.(anthropic_index) ∉ p.(p_used) ->
  p_run p (start_tool b).2 =
    Some (p_with_open (<[b.(anthropic_index) := KTool]> p.(p_open)) ({[b.(anthropic_index)]} ∪ p.(p_used)) p).
Proof.
  intros H1 H2. unfold start_tool. cbn [snd]. rewrite p_run_cons, step_start by done. cbn [mbind option_bind].
  destruct (str_is_empty _); [done|]. rewrite p_run_cons, (step_delta _ _ KTool); [done..|].
  apply lookup_insert_eq.
Qed.

(** Closing the tools stops every block that is open. *)
Lemma close_tools_ok next m p :
  p_in_message p = true -> NoDup (indices m) -> Forall (tool_ok next p) m ->
  (forall i k, p.(p_open) !! i = Some k ->
     exists kb, kb ∈ m /\ kb.2.(anthropic_index) = i /\ kb.2.(started) = true) ->
  exists p', p_run p (close_tools m).1.1.2 = Some p' /\ p_in_message p' = true /\ p'.(p_open) = ∅.
Proof.
  revert p. induction m as [|[k b] m IH]; intros p Hp Hn Hf Ho.
  { exists p. split_and!; [done..|]. apply map_empty. intros i. destruct (p.(p_open) !! i) eqn:E; [|done].
    apply Ho in E as (? & H & _). by apply elem_of_nil in H. }
  cbn in Hn. apply NoDup_cons in Hn as [Hni Hn]. apply Forall_cons in Hf as [(Hlt & Hst & Ht) Hf].
  cbn in Hlt, Hst, Ht. cbn [close_tools].
  assert (Hne : forall kb, kb ∈ m -> kb.2.(anthropic_index) <> b.(anthropic_index)).
  { intros kb Hin He. apply Hni. rewrite <-He. apply list_elem_of_fmap. by exists kb. }
  (* the rest of the tools, once the block of [b] is not open *)
  assert (rest : forall u, p.(p_used) ⊆ u -> u ⊆ {[b.(anthropic_index)]} ∪ p.(p_used) ->
    exists p', p_run (p_with_open (delete b.(anthropic_index) p.(p_open)) u p) (close_tools m).1.1.2 = Some p' /\
      p_in_message p' = true /\ p'.(p_open) = ∅).
  { intros u Hu1 Hu2. apply IH; [done|done| |].
    - rewrite Forall_forall in Hf |- *. intros kb Hin. destruct (Hf kb Hin) as (? & ? & Hkb).
      specialize (Hne kb Hin). split_and!; [done..|]. cbn.
      destruct (kb.2.(started)); [by rewrite lookup_delete_ne|set_solver].
    - cbn. intros i k' Hi. apply lookup_delete_Some in Hi as [Hi1 Hi].
      apply Ho in Hi as (kb & Hin & He & Hs). apply elem_of_cons in Hin as [->|Hin]; [by cbn in He|]. eauto. }
  unfold close_tool. rewrite Hst. destruct (b.(started)) eqn:Es; cbn [negb andb].
  - destruct (rest p.(p_used)) as (p' & H1 & H2); [done|set_solver|].
    destruct (close_tools m) as [[[m' ev] u'] n]. cbn [fst snd] in *. exists p'. split; [|done].
    cbn [app]. by rewrite p_run_cons, (step_stop p _ KTool).
  - destruct (_ || _).
    + destruct (rest ({[b.(anthropic_index)]} ∪ p.(p_used))) as (p' & H1 & H2); [set_solver|done|].
      match goal with |- context [start_tool ?b'] => pose proof (start_tool_run p b' Hp Ht) as Hr end.
      destruct (close_tools m) as [[[m' ev] u'] n]. destruct (start_tool _) as [b' evs] eqn:Es'. cbn [fst snd] in *.
      assert (Hb : b'.(anthropic_index) = b.(anthropic_index)) by by injection Es' as <- _.
      exists p'. split; [|done]. rewrite <-!app_assoc, p_run_app, Hr. cbn [mbind option_bind app].
      cbn [anthropic_index] in *. rewrite Hb, p_run_cons, (step_stop _ _ KTool); [|done|apply lookup_insert_eq].
      cbn [mbind option_bind]. rewrite <-H1. f_equal. unfold p_with_open. cbn. f_equal.
      by rewrite delete_insert_eq.
    + destruct (rest p.(p_used)) as (p' & H1 & H2); [done|set_solver|].
      destruct (close_tools m) as [[[m' ev] u'] n]. cbn [fst snd] in *. exists p'. split; [|done].
      cbn [app]. rewrite <-H1. f_equal. destruct p as [st op us de dn]. unfold p_with_open. cbn. f_equal.
      rewrite delete_id; [done|]. cbn in Ho, Ht. destruct (op !! b.(anthropic_index)) eqn:E; [|done].
      apply Ho in E as (kb & Hin & He & Hs). apply elem_of_cons in Hin as [->|Hin]; [cbn in Hs; congruence|].
      by apply Hne in He.
Qed.

(** ** Invariants over the state and the events so far *)

Section preservation.
Variable R : State -> list Event -> Prop.

(** The operations on blocks are the only ones that look inside [R]. *)
Hypothesis Rthinking : forall d, preserves R (append_thinking_delta d).
Hypothesis Rtext : forall d, preserves R (append_text_delta d).
Hypothesis Rtool : forall tc, preserves R (append_tool_delta tc).
Hypothesis Rthink : forall t, preserves R (modify (set_think t)).
Hypothesis Rfinish : forall fr, preserves R (note_finish fr).

Lemma preserves_emit_think o : preserves R (emit_think o).
Proof. apply preserves_seq; by apply preserves_each. Qed.
Lemma preserves_feed c : preserves R (feed_content c).
Proof.
  intros s h H. unfold feed_content. destruct (InlineThink.feed c _) as [t o].
  apply (Rthink t) in H. cbn in H. rewrite app_nil_r in H. by apply (preserves_emit_think o) in H.
Qed.
Lemma preserves_flush : preserves R flush_think.
Proof.
  intros s h H. unfold flush_think. destruct (InlineThink.flush _) as [t o].
  apply (Rthink t) in H. cbn in H. rewrite app_nil_r in H. by apply (preserves_emit_think o) in H.
Qed.
Lemma preserves_choice show c : preserves R (process_choice show c).
Proof.
  unfold process_choice. repeat apply preserves_seq; try (apply preserves_when; auto using preserves_feed).
  by apply preserves_each.
Qed.

Hypothesis Rhead : forall c, preserves R (adopt_head c).
Hypothesis Rstart : preserves R start_message.
Hypothesis Rfail : forall m, preserves R (fail_with m).

Lemma preserves_chunk show c : preserves R (process_chunk show c).
Proof.
  intros s h H. unfold process_chunk. destruct (s.(failed)); [by apply (preserves_nil R s h)|].
  destruct (c.(chunk_error)); [by apply Rfail|].
  eapply preserves_seq; [apply Rhead| |exact H]. apply preserves_seq; [apply Rstart|].
  apply preserves_each, preserves_choice.
Qed.
End preservation.

(** ** The stream follows the protocol *)

Section message.
Variable fin : bool.

(** Inside a message; [fin] is whether the end of the stream is being written. *)
Record Live (s : State) (p : Protocol) : Prop := {
  live_blocks : blocks_ok s.(open_non_tool) s.(next_block_index) s.(tools) p;
  live_failed : s.(failed) = None;
  live_sent : s.(sent_message_start) = true;
  live_delta : s.(has_emitted_message_delta) = false;
  live_final : s.(finalized) = fin;
}.
Definition live (s : State) (h : list Event) : Prop := exists p, p_run p_init h = Some p /\ Live s p.

(** A change that leaves the blocks and the flags alone. *)
Lemma live_silent (f : State -> State) :
  (forall s, (f s).(open_non_tool) = s.(open_non_tool) /\ (f s).(next_block_index) = s.(next_block_index) /\
     (f s).(tools) = s.(tools) /\ (f s).(failed) = s.(failed) /\
     (f s).(sent_message_start) = s.(sent_message_start) /\
     (f s).(has_emitted_message_delta) = s.(has_emitted_message_delta) /\ (f s).(finalized) = s.(finalized)) ->
  preserves live (modify f).
Proof.
  intros Hf s h (p & Hr & Hl). cbn. rewrite app_nil_r. exists p. split; [done|].
  destruct (Hf s) as (E1 & E2 & E3 & E4 & E5 & E6 & E7).
  split; rewrite ?E1, ?E2, ?E3, ?E4, ?E5, ?E6, ?E7; apply Hl.
Qed.

(** Events that the protocol takes from [p] to [p'] extend the history. *)
Lemma live_extend h ev p p' s :
  p_run p_init h = Some p -> p_run p ev = Some p' -> Live s p' -> live s (h ++ ev).
Proof. intros H1 H2 H3. exists p'. split; [|done]. by rewrite p_run_app, H1. Qed.

Lemma close_open_run s p :
  Live s p -> exists p', p_run p (close_open_non_tool s).2 = Some p' /\ Live (close_open_non_tool s).1 p' /\
    (close_open_non_tool s).1.(open_non_tool) = None.
Proof.
  intros H. unfold close_open_non_tool. destruct (s.(open_non_tool)) as [[k i]|] eqn:E.
  - pose proof (live_blocks _ _ H) as Hb. rewrite E in Hb. destruct (close_slot _ _ _ _ _ Hb) as (p' & H1 & H2).
    exists p'. cbn [fst snd]. split_and!; [by rewrite p_run_cons, H1| |done]. split; try apply H. exact H2.
  - exists p. done.
Qed.

Lemma open_block_run k d s p :
  k <> KTool -> Live s p -> s.(open_non_tool) = None ->
  let i := s.(next_block_index) in
  exists p', p_run p [BlockStart i (open_start k); BlockDelta i k d] = Some p' /\
    Live (set_blocks (Some (k, i)) (i + 1) s.(thinking_stopped) s.(text_stopped) s) p'.
Proof.
  intros Hk H Hn i. pose proof (live_blocks _ _ H) as Hb. rewrite Hn in Hb.
  destruct (open_slot k _ _ _ d Hk Hb) as (p' & H1 & H2). exists p'. split; [done|]. split; try apply H. exact H2.
Qed.

Lemma append_delta_live k d : k <> KTool -> preserves live (append_delta k d).
Proof.
  intros Hk s h (p & Hr & Hl). unfold append_delta. destruct (s.(open_non_tool)) as [[k' i]|] eqn:E.
  - case_bool_decide as Ek; [subst k'|].
    + eapply live_extend; [done| |exact Hl]. cbn [snd]. pose proof (live_blocks _ _ Hl) as Hb.
      rewrite p_run_cons, (step_delta p i k); [done|apply Hb|].
      by destruct (ok_slot _ _ _ _ Hb k i E).
    + destruct (close_open_run s p Hl) as (p1 & H1 & H2 & H3).
      destruct (close_open_non_tool s) as [s1 ev]. cbn [fst snd] in *.
      destruct (open_block_run k d s1 p1 Hk H2 H3) as (p2 & H4 & H5).
      eapply live_extend; [done| |exact H5]. cbn [snd]. by rewrite p_run_app, H1.
  - destruct (open_block_run k d s p Hk Hl E) as (p2 & H4 & H5). eapply live_extend; eauto.
Qed.

(** The key a tool frame is filed under is known once its block is looked up. *)
Lemma tool_block_for_ok k s p :
  Live s p -> s.(open_non_tool) = None ->
  let '(s', b) := tool_block_for k s in
  Live s' p /\ s'.(open_non_tool) = None /\ tool_get k s'.(tools) = Some b /\ s'.(has_tool_use) = s.(has_tool_use).
Proof.
  intros H Hn. unfold tool_block_for. destruct (tool_get k s.(tools)) as [b|] eqn:E; [done|].
  pose proof (live_blocks _ _ H) as Hb. rewrite Hn in Hb. split_and!; [|done| |done].
  - split; try apply H. cbn. rewrite Hn. by apply add_tool.
  - cbn. by rewrite tool_get_set, Z.eqb_refl.
Qed.

(** Increments of arguments go to the open block of the tool. *)
Lemma add_args_run args b p :
  p_in_message p = true -> (b.(started) = true -> p.(p_open) !! b.(anthropic_index) = Some KTool) ->
  p_run p (add_args args b).2 = Some p.
Proof.
  intros Hp Ho. unfold add_args. destruct (b.(aborted)); [done|]. destruct (_ <=? _); [done|].
  destruct (b.(started)) eqn:E; [|done]. cbn [snd]. by rewrite p_run_cons, (step_delta p _ KTool) by auto.
Qed.
Definition same_block (b b' : ToolBlock) : Prop :=
  b'.(anthropic_index) = b.(anthropic_index) /\ b'.(started) = b.(started) /\ b'.(stopped) = b.(stopped).
Lemma add_args_same args b : same_block b (add_args args b).1.
Proof.
  unfold add_args. destruct (b.(aborted)); [done|]. destruct (_ <=? _); [done|]. by destruct (b.(started)) eqn:E.
Qed.

(** The arguments of a frame, if it has any. *)
Definition frame_args (tc : ToolCallDelta) (b : ToolBlock) : ToolBlock * list Event :=
  match tc.(tc_function) ≫= fn_arguments with
  | Some a => if str_is_empty a then (b, []) else add_args a b
  | None => (b, [])
  end.
Lemma frame_args_run tc b p :
  p_in_message p = true -> (b.(started) = true -> p.(p_open) !! b.(anthropic_index) = Some KTool) ->
  p_run p (frame_args tc b).2 = Some p /\ same_block b (frame_args tc b).1.
Proof.
  intros H1 H2. unfold frame_args. destruct (_ ≫= _) as [a|]; [|done]. destruct (str_is_empty a); [done|].
  eauto using add_args_run, add_args_same.
Qed.

Lemma live_tools s p m used n :
  Live s p -> blocks_ok s.(open_non_tool) s.(next_block_index) m p -> Live (set_tools m used n s) p.
Proof. intros H Hb. split; try apply H. exact Hb. Qed.

(** A started tool is an open block. *)
Lemma tool_get_open o next m p k b :
  blocks_ok o next m p -> tool_get k m = Some b -> b.(started) = true ->
  p.(p_open) !! b.(anthropic_index) = Some KTool.
Proof.
  intros H Hg Hs. destruct (tool_set_known k b b m (ok_sorted _ _ _ _ H) Hg) as (r & Hm & _).
  pose proof (ok_tools _ _ _ _ H) as Hf. rewrite Hm in Hf. apply Forall_cons in Hf as [(_ & _ & Hb) _].
  cbn in Hb. by rewrite Hs in Hb.
Qed.
Lemma tool_get_stopped o next m p k b :
  blocks_ok o next m p -> tool_get k m = Some b -> b.(stopped) = false.
Proof.
  intros H Hg. destruct (tool_set_known k b b m (ok_sorted _ _ _ _ H) Hg) as (r & Hm & _).
  pose proof (ok_tools _ _ _ _ H) as Hf. rewrite Hm in Hf. by apply Forall_cons in Hf as [(_ & Hb & _) _].
Qed.

(** The events of a frame for a block that is not started yet, and is by this frame. *)
Lemma start_frame_run tc k s p b0 b :
  Live s p -> s.(open_non_tool) = None -> tool_get k s.(tools) = Some b0 ->
  same_block b0 b -> b.(started) = false ->
  let b2 := frame_args tc (start_tool b).1 in
  exists p', p_run p ((start_tool b).2 ++ b2.2) = Some p' /\
    blocks_ok None s.(next_block_index) (tool_set k b2.1 s.(tools)) p'.
Proof.
  intros H Hn Hg (Hi & Hs & Ht) Hb b2. pose proof (live_blocks _ _ H) as Hk. rewrite Hn in Hk.
  assert (Hu : b.(anthropic_index) ∉ p.(p_used)).
  { destruct (tool_set_known k b0 b0 _ (ok_sorted _ _ _ _ Hk) Hg) as (r & Hm & _).
    pose proof (ok_tools _ _ _ _ Hk) as Hf. rewrite Hm in Hf. apply Forall_cons in Hf as [(_ & _ & Hu) _].
    cbn in Hu. rewrite <-Hs, Hb in Hu. by rewrite Hi. }
  pose proof (start_tool_run p b (ok_message _ _ _ _ Hk) Hu) as Hr.
  set (p' := p_with_open _ _ _) in Hr.
  destruct (frame_args_run tc (start_tool b).1 p') as [Ha Hsame]; [apply Hk|by intros; apply lookup_insert_eq|].
  exists p'. split; [by rewrite p_run_app, Hr|]. destruct Hsame as (Ei & Es & Et). fold b2 in Ei, Es, Et.
  destruct (start_tool_ok k _ _ p b0 b2.1 (STool "" "") Hk Hg) as (p2 & H2 & _ & Hok).
  - congruence.
  - rewrite Ei. exact Hi.
  - rewrite Es. done.
  - rewrite Et. cbn. rewrite Ht. by eapply tool_get_stopped.
  - done.
  - rewrite step_start in H2 by (apply Hk || (rewrite Ei; exact Hu)). injection H2 as <-.
    rewrite Ei in Hok. exact Hok.
Qed.

Lemma append_tool_delta_eq tc s :
  append_tool_delta tc s =
  let '(s, ev0) := close_open_non_tool s in
  let k := chat_index tc s in
  let '(s, b) := tool_block_for k (set_last_key k s) in
  let b := name_tool tc b in
  if ready b then
    (set_tools (tool_set k (frame_args tc (start_tool b).1).1 s.(tools)) true s.(dropped_tools) s,
     ev0 ++ (start_tool b).2 ++ (frame_args tc (start_tool b).1).2)
  else
    (set_tools (tool_set k (frame_args tc b).1 s.(tools)) s.(has_tool_use) s.(dropped_tools) s,
     ev0 ++ (frame_args tc b).2).
Proof.
  unfold append_tool_delta. destruct (close_open_non_tool s) as [s0 ev0]. cbv zeta.
  destruct (tool_block_for _ _) as [s1 b]. destruct (ready (name_tool tc b)).
  - destruct (start_tool _) as [b1 ev1]. fold (frame_args tc b1). cbn [fst snd]. by destruct (frame_args tc b1).
  - fold (frame_args tc (name_tool tc b)). by destruct (frame_args tc (name_tool tc b)).
Qed.

Lemma append_tool_live tc : preserves live (append_tool_delta tc).
Proof.
  intros s h (p & Hr & Hl). rewrite append_tool_delta_eq.
  destruct (close_open_run s p Hl) as (p1 & H1 & Hl1 & Hn1).
  destruct (close_open_non_tool s) as [s1 ev0]. cbn [fst snd] in H1, Hl1, Hn1. cbv zeta.
  set (k := chat_index tc s1).
  assert (Hl1' : Live (set_last_key k s1) p1) by (split; apply Hl1).
  pose proof (tool_block_for_ok k _ p1 Hl1' Hn1) as Ht.
  destruct (tool_block_for k (set_last_key k s1)) as [s2 b0]. destruct Ht as (Hl2 & Hn2 & Hg & _).
  pose proof (live_blocks _ _ Hl2) as Hb. rewrite Hn2 in Hb.
  destruct (ready (name_tool tc b0)) eqn:Erd.
  - destruct (start_frame_run tc k s2 p1 b0 (name_tool tc b0) Hl2 Hn2 Hg) as (p2 & H2 & H3); [done| |].
    { unfold ready in Erd. by destruct (started _). }
    eapply live_extend with (p' := p2); [done| |].
    + cbn [snd]. by rewrite p_run_app, H1.
    + cbn [fst]. split; try apply Hl2. cbn. rewrite Hn2. exact H3.
  - destruct (frame_args_run tc (name_tool tc b0) p1) as [Ha (Hs1 & Hs2 & Hs3)].
    { apply Hb. }
    { cbn. by eapply tool_get_open. }
    eapply live_extend with (p' := p1); [done| |].
    + cbn [snd]. by rewrite p_run_app, H1.
    + apply live_tools; [done|]. rewrite Hn2. by eapply update_tool.
Qed.

(** Before the first chunk. *)
Record Fresh (s : State) : Prop := {
  fresh_failed : s.(failed) = None;
  fresh_sent : s.(sent_message_start) = false;
  fresh_slot : s.(open_non_tool) = None;
  fresh_tools : s.(tools) = [];
  fresh_delta : s.(has_emitted_message_delta) = false;
  fresh_final : s.(finalized) = fin;
}.

Lemma live_not_done s h : live s h -> exists p, p_run p_init h = Some p /\ p.(p_done) = false.
Proof.
  intros (p & Hr & Hl). exists p. split; [done|]. pose proof (ok_message _ _ _ _ (live_blocks _ _ Hl)) as H.
  unfold p_in_message in H. destruct (p_done p); [|done]. by rewrite andb_false_r in H.
Qed.

(** An error ends a stream that was not ended. *)
Lemma error_completes s h m : Fresh s /\ h = [] \/ live s h -> p_complete (h ++ [ErrorEvent m]).
Proof.
  intros [[_ ->]|H]; [by eexists|]. apply live_not_done in H as (p & H1 & H2).
  exists (p_with_end p.(p_delta) true p). rewrite p_run_app, H1. cbn. by rewrite H2.
Qed.

Lemma live_running s h : live s h -> s.(failed) = None.
Proof. intros (p & _ & H). apply H. Qed.

Lemma start_message_live s h :
  Fresh s /\ h = [] \/ live s h -> live (start_message s).1 (h ++ (start_message s).2).
Proof.
  intros H. unfold start_message. destruct (s.(sent_message_start)) eqn:E.
  - destruct H as [[H _]|H]; [|cbn; by rewrite app_nil_r]. destruct H. congruence.
  - destruct H as [[H ->]|(p & _ & H)]; [|destruct H; congruence].
    eexists. split; [reflexivity|]. destruct H. split; cbn; try done. rewrite fresh_slot0, fresh_tools0.
    split; cbn; try done.
    + constructor.
    + constructor.
Qed.

Lemma adopt_head_eq c s :
  (adopt_head c s).2 = [] /\ (Fresh s -> Fresh (adopt_head c s).1) /\
  (forall h, live s h -> live (adopt_head c s).1 h).
Proof.
  split_and!; [done|by intros []; split|]. intros h (p & Hr & Hl). exists p. split; [done|]. split; apply Hl.
Qed.

Lemma live_choices show l : preserves live (each (process_choice show) l).
Proof.
  apply preserves_each. intros c. apply preserves_choice.
  - intros d. by apply append_delta_live.
  - intros d. by apply append_delta_live.
  - apply append_tool_live.
  - intros t. by apply live_silent.
  - intros fr. by apply (live_silent (fun s => (note_finish fr s).1)).
Qed.
Lemma live_flush : preserves live flush_think.
Proof.
  apply preserves_flush.
  - intros d. by apply append_delta_live.
  - intros d. by apply append_delta_live.
  - intros t. by apply live_silent.
Qed.

Lemma close_blocks_ok s p :
  Live s p ->
  exists p', p_run p (close_open_blocks s).2 = Some p' /\ p_in_message p' = true /\ p'.(p_open) = ∅.
Proof.
  intros H. unfold close_open_blocks. destruct (close_open_run s p H) as (p1 & H1 & H2 & H3).
  destruct (close_open_non_tool s) as [s1 ev]. cbn [fst snd] in *. pose proof (live_blocks _ _ H2) as Hb.
  rewrite H3 in Hb. destruct (close_tools_ok _ _ _ (ok_message _ _ _ _ Hb) (ok_nodup _ _ _ _ Hb)
    (ok_tools _ _ _ _ Hb)) as (p2 & H4 & H5).
  { intros i k Hi. by destruct (ok_open _ _ _ _ Hb i k Hi). }
  destruct (close_tools _) as [[[m ev'] used] n]. cbn [fst snd] in *. exists p2. split; [|done].
  by rewrite p_run_app, H1.
Qed.
Lemma close_blocks_flags s :
  (close_open_blocks s).1.(has_emitted_message_delta) = s.(has_emitted_message_delta).
Proof.
  unfold close_open_blocks, close_open_non_tool.
  destruct (s.(open_non_tool)) as [[k i]|]; cbn; by destruct (close_tools _) as [[[m ev'] used] n].
Qed.

End message.

(** The stream so far: nothing sent, inside the message, or ended by an error. *)
Definition running (s : State) (h : list Event) : Prop :=
  (Fresh false s /\ h = []) \/ live false s h \/ (is_Some s.(failed) /\ s.(finalized) = false /\ p_complete h).

Lemma fail_with_running m s h :
  Fresh false s /\ h = [] \/ live false s h -> running (fail_with m s).1 (h ++ (fail_with m s).2).
Proof.
  intros H. right; right. cbn. split_and!; [done| |by eapply error_completes].
  destruct H as [[H _]|(p & _ & H)]; apply H.
Qed.

Lemma chunk_running show c : preserves running (process_chunk show c).
Proof.
  intros s h H. unfold process_chunk. destruct (s.(failed)) as [m|] eqn:Ef.
  { cbn. by rewrite app_nil_r. }
  assert (Hc : Fresh false s /\ h = [] \/ live false s h).
  { destruct H as [?|[?|[[? ?] _]]]; [by left|by right|congruence]. }
  destruct (c.(chunk_error)) as [err|]; [by apply fail_with_running|]. right; left.
  pose proof (adopt_head_eq false c s) as (E & Ha & Hb).
  assert (Hc1 : Fresh false (adopt_head c s).1 /\ h = [] \/ live false (adopt_head c s).1 h) by naive_solver.
  apply start_message_live in Hc1. unfold seq. destruct (adopt_head c s) as [s1 e1]. cbn [fst snd] in *. subst e1.
  destruct (start_message s1) as [s2 e2]. cbn [fst snd] in *.
  apply (live_choices false show c.(chunk_choices)) in Hc1. destruct (each _ _ s2) as [s3 e3]. cbn [fst snd app] in *.
  by rewrite app_assoc.
Qed.

(** How a stream ends: at its terminator, cut short, or broken. *)
Inductive Ending : Type :=
| Terminated
| Truncated
| Broken (message : string).

Definition finish (e : Ending) : op :=
  match e with
  | Terminated => finalize
  | Truncated => finalize_truncated
  | Broken m => transport_error m
  end.

(** The end of a message: its reason, then its stop. *)
Lemma end_run tr s p :
  s.(has_emitted_message_delta) = false -> p_in_message p = true -> p.(p_open) = ∅ ->
  exists p', p_run p ((message_delta_events tr ;;; emit [MessageStop]) s).2 = Some p' /\ p'.(p_done) = true.
Proof.
  intros Hd Hp Ho. unfold seq, message_delta_events. rewrite Hd. cbn [emit snd app]. rewrite p_run_cons. cbn [p_step].
  rewrite Hp, Ho, (bool_decide_true (∅ = ∅)) by done. cbn [andb mbind option_bind]. rewrite p_run_cons. cbn.
  unfold p_in_message in Hp. destruct (p_started p); [|done]. cbn. by eexists.
Qed.

(** Writing the end of a stream changes none of its blocks. *)
Lemma mark_final s h :
  Fresh false s /\ h = [] \/ live false s h ->
  let s0 := set_end s.(failed) s.(has_emitted_message_delta) s.(pending_stop_reason) true s in
  Fresh true s0 /\ h = [] \/ live true s0 h.
Proof.
  intros [[[] ->]|(p & Hr & [])] s0; [left|right]; [by split|]. exists p. split; [done|by split].
Qed.

Lemma finalize_complete tr s h : running s h -> p_complete (h ++ (finalize_inner tr s).2).
Proof.
  intros H. unfold finalize_inner. assert (Hf : s.(finalized) = false).
  { destruct H as [[[] _]|[(p & _ & [])|(_ & ? & _)]]; done. }
  rewrite Hf. cbv zeta. destruct (s.(failed)) as [m|] eqn:Ef.
  { cbn. rewrite app_nil_r. destruct H as [[[] _]|[(p & _ & [])|(_ & _ & ?)]]; [congruence..|done]. }
  assert (Hc : Fresh false s /\ h = [] \/ live false s h).
  { destruct H as [?|[?|[[? ?] _]]]; [by left|by right|congruence]. }
  apply mark_final in Hc. rewrite Ef in Hc. set (s0 := set_end _ _ _ _ s) in *.
  change (failed s0) with (@None string). cbn iota.
  destruct (_ && negb s0.(sent_message_start)); [by eapply error_completes|].
  assert (Hl : live true ((start_message ;;; flush_think) s0).1 (h ++ ((start_message ;;; flush_think) s0).2)).
  { apply start_message_live in Hc. unfold seq. destruct (start_message s0) as [s1 e1]. apply live_flush in Hc.
    destruct (flush_think s1) eqn:E. cbn [fst snd] in *. rewrite E in Hc. by rewrite app_assoc. }
  destruct ((start_message ;;; flush_think) s0) as [s1 ev]. cbn [fst snd] in Hl.
  destruct Hl as (p & Hr & Hl). destruct (close_blocks_ok _ _ _ Hl) as (p1 & H1 & H2 & H3).
  pose proof (close_blocks_flags s1) as Hd. destruct (close_open_blocks s1) as [s2 close]. cbn [fst snd] in *.
  destruct (_ && negb (has_output s2)); [by eapply error_completes|].
  destruct (end_run tr s2 p1) as (p2 & H4 & H5); [by rewrite Hd; apply Hl|done..|].
  destruct ((message_delta_events tr ;;; emit [MessageStop]) s2) as [s3 ending]. cbn [snd] in *.
  exists p2. split; [|done]. rewrite app_assoc, p_run_app, Hr. cbn [mbind option_bind]. by rewrite p_run_app, H1.
Qed.

Lemma finish_complete e s h : running s h -> p_complete (h ++ (finish e s).2).
Proof.
  intros H. destruct e as [| |m]; [by apply finalize_complete..|]. cbn. unfold transport_error.
  destruct (s.(failed)) eqn:Ef.
  - cbn. rewrite app_nil_r. destruct H as [[[] _]|[(p & _ & [])|(_ & _ & ?)]]; [congruence..|done].
  - eapply error_completes. destruct H as [?|[?|[[? ?] _]]]; [by left|by right|congruence].
Qed.

(** C8: whatever the upstream sends, the client reads a complete Anthropic event stream. For any
    sequence of chunks, and whether the stream then terminates, is cut short or breaks, the events are
    a complete run of the protocol: one message_start first, every block at an index of its own,
    increments only to an open block and of its kind, every block stopped before the single
    message_delta, then message_stop; or an error event, and nothing after it. *)
Theorem anthropic_stream_protocol show id model chunks e :
  p_complete ((each (process_chunk show) chunks ;;; finish e) (new id model)).2.
Proof.
  assert (H : running (new id model) []) by by left.
  apply (preserves_each running (process_chunk show) chunks (chunk_running show)) in H. unfold seq.
  destruct (each _ chunks _) as [s ev]. apply (finish_complete e) in H. cbn [fst snd app] in H.
  by destruct (finish e s).
Qed.
