(* ===== verification/AnthropicContent.v ===== *)
(** * What an Anthropic event stream carries

The contents of the streams of [AnthropicStream]: the text and the thinking are those of the answer,
the arguments of a tool reach its block whole, the stop reason tells whether there is a tool use, and
the usage is the last one the upstream reported. *)

From S2P Require Import Prelude Float Json Metering Body Streams Machine InlineThink Chat AnthropicResponse AnthropicStream.
From S2P Require Import AnthropicProtocol.

Local Open Scope Z_scope.

(** ** Observing a stream *)

Definition text_delta (k : Kind) (e : Event) : option string :=
  match e with BlockDelta _ k' t => if bool_decide (k' = k) then Some t else None | _ => None end.
(** The text of a channel. *)
Definition text_of (k : Kind) (h : list Event) : string := concat_str (omap (text_delta k) h).

Definition tool_delta (i : Z) (e : Event) : option string :=
  match e with BlockDelta j KTool t => if j =? i then Some t else None | _ => None end.
(** The arguments written to a block. *)
Definition tool_text (i : Z) (h : list Event) : string := concat_str (omap (tool_delta i) h).

Definition tool_start (e : Event) : bool := match e with BlockStart _ (STool _ _) => true | _ => false end.
Definition uses_tool (h : list Event) : bool := existsb tool_start h.

Lemma text_of_app k h1 h2 : text_of k (h1 ++ h2) = text_of k h1 +:+ text_of k h2.
Proof. unfold text_of. by rewrite omap_app, concat_str_app. Qed.
Lemma tool_text_app i h1 h2 : tool_text i (h1 ++ h2) = tool_text i h1 +:+ tool_text i h2.
Proof. unfold tool_text. by rewrite omap_app, concat_str_app. Qed.
Lemma uses_tool_app h1 h2 : uses_tool (h1 ++ h2) = uses_tool h1 || uses_tool h2.
Proof. apply existsb_app. Qed.

(** Events without increments of the channel. *)
Lemma text_of_nil k h : Forall (fun e => text_delta k e = None) h -> text_of k h = "".
Proof.
  unfold text_of. induction 1 as [|e h He _ IH]; [done|]. cbn. rewrite He. exact IH.
Qed.

(** ** The stop reason *)

(** Events that give no reason. *)
Definition undecided (e : Event) : Prop := match e with MessageDelta _ _ => False | _ => True end.

(** The flag and the reasons noted agree with the events; no reason is written before the end. *)
Record Reason (s : State) (h : list Event) : Prop := {
  reason_used : s.(has_tool_use) = uses_tool h;
  reason_tool : s.(pending_stop_reason) = Some "tool_use" -> s.(has_tool_use) = true;
  reason_range : forall r, s.(pending_stop_reason) = Some r -> r ∈ ["end_turn"; "tool_use"; "max_tokens"];
  reason_none : Forall undecided h;
}.

(** Events that say nothing of a reason or of a tool. *)
Definition plain (e : Event) : Prop :=
  match e with MessageDelta _ _ | BlockStart _ (STool _ _) => False | _ => True end.

Lemma plain_uses h : Forall plain h -> uses_tool h = false.
Proof. unfold uses_tool. induction 1 as [|e h He _ IH]; [done|]. cbn. by destruct e as [|? []| | | | |]. Qed.
Lemma plain_undecided h : Forall plain h -> Forall undecided h.
Proof. intros H. eapply Forall_impl; [exact H|]. by intros []. Qed.

Lemma reason_plain s s' h ev :
  Reason s h -> s'.(has_tool_use) = s.(has_tool_use) -> s'.(pending_stop_reason) = s.(pending_stop_reason) ->
  Forall plain ev -> Reason s' (h ++ ev).
Proof.
  intros [H1 H2 H3 H4] E1 E2 Hp. split.
  - rewrite uses_tool_app, (plain_uses ev Hp), orb_false_r. congruence.
  - rewrite E1, E2. exact H2.
  - rewrite E2. exact H3.
  - apply Forall_app. split; [done|by apply plain_undecided].
Qed.

Lemma close_open_plain s :
  let '(s', ev) := close_open_non_tool s in
  Forall plain ev /\ s'.(has_tool_use) = s.(has_tool_use) /\ s'.(pending_stop_reason) = s.(pending_stop_reason) /\
  s'.(open_non_tool) = None /\ s'.(tools) = s.(tools) /\ s'.(dropped_tools) = s.(dropped_tools) /\
  s'.(usage) = s.(usage) /\ s'.(failed) = s.(failed) /\ s'.(inline_think) = s.(inline_think).
Proof.
  unfold close_open_non_tool. destruct (s.(open_non_tool)) as [[k i]|] eqn:E; cbn; split_and!; try done.
  by repeat constructor.
Qed.

Lemma append_delta_plain k d s :
  let '(s', ev) := append_delta k d s in
  Forall plain ev /\ s'.(has_tool_use) = s.(has_tool_use) /\ s'.(pending_stop_reason) = s.(pending_stop_reason) /\
  s'.(tools) = s.(tools) /\ s'.(usage) = s.(usage) /\ s'.(failed) = s.(failed) /\
  s'.(inline_think) = s.(inline_think).
Proof.
  unfold append_delta. pose proof (close_open_plain s) as Hc.
  destruct (s.(open_non_tool)) as [[k' i]|] eqn:E.
  - case_bool_decide; [by repeat constructor|]. destruct (close_open_non_tool s) as [s1 ev].
    destruct Hc as (H1 & H2). cbn. split_and!; try naive_solver. apply Forall_app. split; [done|].
    by destruct k; repeat constructor.
  - cbn. split_and!; try done. by destruct k; repeat constructor.
Qed.

Lemma reason_append k d : preserves Reason (append_delta k d).
Proof.
  intros s h H. pose proof (append_delta_plain k d s) as Hp. destruct (append_delta k d s) as [s' ev].
  destruct Hp as (H1 & H2 & H3 & _). cbn [fst snd]. by eapply reason_plain.
Qed.

Lemma frame_args_plain tc b : Forall plain (frame_args tc b).2.
Proof.
  unfold frame_args. destruct (_ ≫= _) as [a|]; [|done]. destruct (str_is_empty a); [done|].
  unfold add_args. destruct (aborted b); [done|]. destruct (_ <=? _); [done|].
  destruct (started b); [by repeat constructor|done].
Qed.
Lemma start_tool_undecided b : Forall undecided (start_tool b).2 /\ uses_tool (start_tool b).2 = true.
Proof.
  unfold start_tool. cbn [snd]. split; [|done]. constructor; [done|].
  destruct (str_is_empty _); by repeat constructor.
Qed.

Lemma reason_tool_delta tc : preserves Reason (append_tool_delta tc).
Proof.
  intros s h H. rewrite append_tool_delta_eq. pose proof (close_open_plain s) as Hc.
  destruct (close_open_non_tool s) as [s0 ev0]. destruct Hc as (Hp & Hu & Hr & _). cbv zeta.
  set (k := chat_index tc s0).
  assert (Hb : let '(s1, b) := tool_block_for k (set_last_key k s0) in
    s1.(has_tool_use) = s.(has_tool_use) /\ s1.(pending_stop_reason) = s.(pending_stop_reason)).
  { unfold tool_block_for. by destruct (tool_get k _). }
  destruct (tool_block_for k (set_last_key k s0)) as [s1 b]. destruct Hb as [Hb1 Hb2].
  destruct (ready (name_tool tc b)); cbn [fst snd].
  - destruct (start_tool_undecided (name_tool tc b)) as [E1 E2].
    pose proof (frame_args_plain tc (start_tool (name_tool tc b)).1) as E3.
    destruct H as [H1 H2 H3 H4]. split; cbn [has_tool_use pending_stop_reason set_tools].
    + by rewrite !uses_tool_app, E2, !orb_true_r.
    + done.
    + rewrite Hb2. exact H3.
    + rewrite !Forall_app. split_and!; [done|by apply plain_undecided|done|by apply plain_undecided].
  - eapply reason_plain; [exact H|done..|]. apply Forall_app. split; [done|apply frame_args_plain].
Qed.

Lemma stop_reason_range fr used :
  let r := stop_reason_from_finish fr used in
  r ∈ ["end_turn"; "tool_use"; "max_tokens"] /\ (r = "tool_use" -> used = true).
Proof.
  unfold stop_reason_from_finish. cbv zeta.
  repeat case_bool_decide; try destruct (negb _); destruct used; cbn; split; set_solver.
Qed.

Lemma reason_note fr : preserves Reason (note_finish fr).
Proof.
  intros s h [H1 H2 H3 H4]. cbn. rewrite app_nil_r.
  destruct (stop_reason_range fr s.(has_tool_use)) as [Hr Hu]. split; cbn; try done.
  - intros [= E]. by apply Hu.
  - by intros r [= <-].
Qed.

Lemma reason_modify (f : State -> State) :
  (forall s, (f s).(has_tool_use) = s.(has_tool_use) /\ (f s).(pending_stop_reason) = s.(pending_stop_reason)) ->
  preserves Reason (modify f).
Proof. intros Hf s h H. destruct (Hf s). cbn. by eapply reason_plain. Qed.
Lemma reason_start : preserves Reason start_message.
Proof.
  intros s h H. unfold start_message. destruct (s.(sent_message_start)); [by apply (preserves_nil Reason)|].
  eapply reason_plain; [exact H|done..|by repeat constructor].
Qed.
Lemma reason_chunk show c : preserves Reason (process_chunk show c).
Proof.
  apply preserves_chunk.
  - intros d. apply reason_append.
  - intros d. apply reason_append.
  - apply reason_tool_delta.
  - intros t. by apply reason_modify.
  - apply reason_note.
  - intros c'. by apply reason_modify.
  - apply reason_start.
  - intros m s h H. eapply reason_plain; [exact H|done..|by repeat constructor].
Qed.
Lemma reason_flush : preserves Reason flush_think.
Proof.
  apply preserves_flush; [intros d; apply reason_append..|]. intros t. by apply reason_modify.
Qed.

Lemma close_tools_uses m :
  let '(_, ev, used, _) := close_tools m in uses_tool ev = used /\ Forall undecided ev.
Proof.
  induction m as [|[k b] m IH]; [done|]. cbn [close_tools].
  assert (Hb : let '(_, ev, used, _) := close_tool k b in uses_tool ev = used /\ Forall undecided ev).
  { unfold close_tool. destruct (_ && _); [by repeat constructor|]. destruct (negb _); [|done].
    destruct (_ || _ || _ || _); [|done].
    match goal with |- context [start_tool ?b'] => pose proof (start_tool_undecided b') as [E1 E2] end.
    destruct (start_tool _) as [b' ev]. cbn [snd] in *. rewrite uses_tool_app, E2. split; [done|].
    apply Forall_app. split; [done|by repeat constructor]. }
  destruct (close_tool k b) as [[[b' ev] used] dropped]. destruct (close_tools m) as [[[m' ev'] used'] n].
  destruct Hb as [H1 H2], IH as [H3 H4]. rewrite uses_tool_app, H1, H3. split; [done|]. by apply Forall_app.
Qed.
Lemma reason_close : preserves Reason close_open_blocks.
Proof.
  intros s h [H1 H2 H3 H4]. unfold close_open_blocks. pose proof (close_open_plain s) as Hc.
  destruct (close_open_non_tool s) as [s1 ev]. destruct Hc as (Hp & Hu & Hr & _).
  pose proof (close_tools_uses s1.(tools)) as Hc. destruct (close_tools _) as [[[m ev'] used] n].
  destruct Hc as [Hc1 Hc2]. cbn [fst snd]. split; cbn.
  - by rewrite !uses_tool_app, (plain_uses ev Hp), Hc1, Hu, H1.
  - rewrite Hr, Hu. intros E. by rewrite (H2 E).
  - by rewrite Hr.
  - rewrite !Forall_app. split_and!; [done|by apply plain_undecided|done].
Qed.

(** What the end of a stream writes: nothing, an error, or the rest of the message, with its blocks
    closed, the reason and the stop. *)
Definition end_state (s : State) : State :=
  (close_open_blocks ((start_message ;;; flush_think)
     (set_end s.(failed) s.(has_emitted_message_delta) s.(pending_stop_reason) true s)).1).1.
Definition end_events (s : State) : list Event :=
  ((start_message ;;; flush_think ;;; close_open_blocks)
     (set_end s.(failed) s.(has_emitted_message_delta) s.(pending_stop_reason) true s)).2.

Lemma finalize_cases tr s :
  let ev := (finalize_inner tr s).2 in
  (ev = [] /\ (s.(finalized) = true \/ is_Some s.(failed))) \/
  (s.(failed) = None /\ s.(sent_message_start) = false /\ tr = true /\
   ev = [ErrorEvent "upstream stream ended before any output"]) \/
  (s.(failed) = None /\ (0 < (end_state s).(dropped_tools))%nat /\ has_output (end_state s) = false /\
   ev = [ErrorEvent "upstream returned tool_calls without function name and no other output"]) \/
  (s.(failed) = None /\
   ((0 < (end_state s).(dropped_tools))%nat -> has_output (end_state s) = true) /\
   ev = end_events s ++ ((message_delta_events tr ;;; emit [MessageStop]) (end_state s)).2).
Proof.
  unfold finalize_inner. cbv zeta. destruct (s.(finalized)); [left; by auto|].
  destruct (s.(failed)) eqn:Ef; [left; by eauto|]. unfold end_events, end_state. rewrite Ef.
  set (s0 := set_end _ _ _ _ s). change (failed s0) with (@None string).
  change (sent_message_start s0) with (sent_message_start s). cbn iota. right.
  destruct (tr && negb s.(sent_message_start)) eqn:E.
  { left. apply andb_prop in E as [-> E]. by destruct (sent_message_start s). }
  right. rewrite seq_assoc, (seq_pair (start_message ;;; flush_think) close_open_blocks). destruct ((start_message ;;; flush_think) s0) as [s1 ev]. cbn [fst].
  destruct (close_open_blocks s1) as [s2 close]. cbn [fst snd].
  destruct (Nat.ltb_spec 0 (dropped_tools s2)); cbn [andb].
  - destruct (has_output s2) eqn:Eo; cbn [negb]; [right|by left].
    split_and!; [done..|]. destruct ((message_delta_events tr ;;; emit [MessageStop]) s2). cbn [snd].
    by rewrite app_assoc.
  - right. split_and!; [done|lia|]. destruct ((message_delta_events tr ;;; emit [MessageStop]) s2). cbn [snd].
    by rewrite app_assoc.
Qed.

Lemma reason_end s h : Reason s h -> Reason (end_state s) (h ++ end_events s).
Proof.
  intros H. unfold end_state, end_events.
  rewrite seq_assoc, (seq_pair (start_message ;;; flush_think) close_open_blocks).
  set (s0 := set_end _ _ _ _ s). assert (H0 : Reason s0 h) by by destruct H.
  assert (H1 : Reason ((start_message ;;; flush_think) s0).1 (h ++ ((start_message ;;; flush_think) s0).2)).
  { by apply preserves_seq; [apply reason_start|apply reason_flush|]. }
  apply reason_close in H1. cbn [snd]. by rewrite app_assoc.
Qed.

(** ** The usage *)

(** Only the head of a chunk changes the usage. *)
Definition Steady (u : option ChatUsage) (f : option string) (s : State) (_ : list Event) : Prop :=
  s.(usage) = u /\ s.(failed) = f.

Section steady.
Context (u : option ChatUsage) (f : option string).

Lemma steady_append k d : preserves (Steady u f) (append_delta k d).
Proof.
  intros s h [H1 H2]. pose proof (append_delta_plain k d s) as Hp. destruct (append_delta k d s).
  split; cbn [fst]; naive_solver.
Qed.
Lemma steady_tool tc : preserves (Steady u f) (append_tool_delta tc).
Proof.
  intros s h [H1 H2]. rewrite append_tool_delta_eq. pose proof (close_open_plain s) as Hc.
  destruct (close_open_non_tool s) as [s0 ev0]. cbv zeta. unfold tool_block_for.
  destruct (tool_get _ _); destruct (ready _); split; cbn; naive_solver.
Qed.
Lemma steady_silent (g : State -> State) :
  (forall s, (g s).(usage) = s.(usage) /\ (g s).(failed) = s.(failed)) -> preserves (Steady u f) (modify g).
Proof. intros Hg s h [H1 H2]. destruct (Hg s). split; cbn; congruence. Qed.
Lemma steady_choices show l : preserves (Steady u f) (each (process_choice show) l).
Proof.
  apply preserves_each. intros c. apply preserves_choice.
  - intros d. apply steady_append.
  - intros d. apply steady_append.
  - apply steady_tool.
  - intros t. by apply steady_silent.
  - intros fr. by apply (steady_silent (fun s => (note_finish fr s).1)).
Qed.
Lemma steady_start : preserves (Steady u f) start_message.
Proof. intros s h H. unfold start_message. by destruct (sent_message_start s). Qed.
Lemma steady_flush : preserves (Steady u f) flush_think.
Proof.
  apply preserves_flush; [intros d; apply steady_append..|]. intros t. by apply steady_silent.
Qed.
Lemma steady_close : preserves (Steady u f) close_open_blocks.
Proof.
  intros s h [H1 H2]. unfold close_open_blocks. pose proof (close_open_plain s) as Hc.
  destruct (close_open_non_tool s). destruct (close_tools _) as [[[? ?] ?] ?]. split; cbn; naive_solver.
Qed.
Lemma steady_end s : Steady u f s [] -> Steady u f (end_state s) [].
Proof.
  intros H. unfold end_state. apply (steady_close _ []).
  apply (preserves_seq (Steady u f) start_message flush_think steady_start steady_flush _ []). by destruct H.
Qed.
End steady.

Definition last_usage (chunks : list ChatStreamChunk) : option ChatUsage := last (omap chunk_usage chunks).

Lemma or_else_none {A} (o : option A) : or_else o None = o.
Proof. by destruct o. Qed.
Lemma last_cons_or {A} (x : A) l : last (x :: l) = or_else (last l) (Some x).
Proof. rewrite last_cons. by destruct (last l). Qed.

Lemma chunk_usage_after show c s :
  (process_chunk show c s).1.(failed) = None -> s.(failed) = None /\ c.(chunk_error) = None /\
  (process_chunk show c s).1.(usage) = or_else c.(chunk_usage) s.(usage).
Proof.
  unfold process_chunk. destruct (s.(failed)) eqn:Ef; cbn [fst]; [congruence|].
  destruct (c.(chunk_error)); [done|]. intros _. split; [done|]. split; [done|].
  set (s0 := (adopt_head c s).1).
  assert (H : Steady (or_else c.(chunk_usage) s.(usage)) None s0 []) by done.
  apply steady_start in H. rewrite (seq_pair (adopt_head c)). cbn [fst]. fold s0.
  rewrite seq_pair. cbn [fst]. eapply steady_choices in H. apply H.
Qed.

Lemma chunks_usage show chunks s :
  (each (process_chunk show) chunks s).1.(failed) = None ->
  (each (process_chunk show) chunks s).1.(usage) = or_else (last_usage chunks) s.(usage) /\
  Forall (fun c => c.(chunk_error) = None) chunks.
Proof.
  revert s. induction chunks as [|c l IH]; intros s; [done|]. cbn [each]. rewrite seq_pair. cbn [fst].
  intros H. destruct (IH _ H) as [H1 H2]. rewrite H1.
  assert (Hf : failed (process_chunk show c s).1 = None).
  { clear -H. revert H. generalize (process_chunk show c s).1. clear s. intros s.
    destruct (failed s) eqn:E; [|done]. intros H. exfalso. revert s s0 E H. induction l as [|c' l IH]; cbn.
    - congruence.
    - intros s m E. rewrite seq_pair. cbn [fst]. unfold process_chunk at 2. rewrite E. cbn [fst]. by eapply IH. }
  apply chunk_usage_after in Hf as (_ & He & Hu). split; [|by constructor]. rewrite Hu. unfold last_usage. cbn.
  destruct (chunk_usage c) as [u|]; [|done]. rewrite last_cons_or. by destruct (last (omap chunk_usage l)).
Qed.

Lemma undecided_not h r u : Forall undecided h -> MessageDelta r u ∉ h.
Proof. intros H Hin. by apply (proj1 (Forall_forall _ _) H) in Hin. Qed.

(** The one message_delta of a stream. *)
Lemma message_delta_of tr s h reason u :
  Reason s h -> MessageDelta reason u ∈ h ++ (finalize_inner tr s).2 ->
  s.(failed) = None /\ reason = final_stop_reason tr (end_state s) /\ u = current_usage (end_state s) /\
  uses_tool (h ++ (finalize_inner tr s).2) = (end_state s).(has_tool_use).
Proof.
  intros H Hin. pose proof (reason_end s h H) as He. pose proof (finalize_cases tr s) as Hc. cbv zeta in Hc.
  apply elem_of_app in Hin as [Hin|Hin]; [by apply undecided_not in Hin; [|apply H]|].
  destruct Hc as [[E _]|[(_ & _ & _ & E)|[(_ & _ & _ & E)|(Hf & _ & E)]]]; rewrite E in Hin |- *.
  - by apply elem_of_nil in Hin.
  - by apply list_elem_of_singleton in Hin.
  - by apply list_elem_of_singleton in Hin.
  - split; [done|]. apply elem_of_app in Hin as [Hin|Hin].
    { pose proof (reason_none _ _ He) as Hn. apply Forall_app in Hn as [_ Hn]. by apply undecided_not in Hin. }
    unfold seq, message_delta_events in Hin |- *.
    destruct (has_emitted_message_delta (end_state s)); cbn [emit snd app] in Hin |- *.
    { by apply list_elem_of_singleton in Hin. }
    apply elem_of_cons in Hin as [[= -> ->]|Hin]; [|by apply list_elem_of_singleton in Hin].
    split_and!; [done..|]. rewrite app_assoc, uses_tool_app, <-(reason_used _ _ He). cbn. by rewrite orb_false_r.
Qed.

(** The message_delta tells the truth about the message. Its stop reason is end_turn, tool_use or
    max_tokens; a stream with a tool use block never says end_turn, and one that says tool_use has such
    a block, late-started blocks included; its usage is that of the last chunk that reported one. *)
Theorem message_delta_truthful show id model chunks e reason u :
  let ev := ((each (process_chunk show) chunks ;;; finish e) (new id model)).2 in
  MessageDelta reason u ∈ ev ->
  reason ∈ ["end_turn"; "tool_use"; "max_tokens"] /\
  (reason = "end_turn" -> uses_tool ev = false) /\ (reason = "tool_use" -> uses_tool ev = true) /\
  u = from_option buckets zero_buckets (last_usage chunks).
Proof.
  cbv zeta. rewrite seq_pair. cbn [snd].
  assert (H : Reason (new id model) []) by by constructor.
  apply (preserves_each Reason _ chunks (reason_chunk show)) in H. cbn [app] in H.
  pose proof (chunks_usage show chunks (new id model)) as Hus.
  destruct (each _ chunks _) as [s h]. cbn [fst snd] in *.
  assert (Hfin : forall tr, MessageDelta reason u ∈ h ++ (finalize_inner tr s).2 ->
    reason ∈ ["end_turn"; "tool_use"; "max_tokens"] /\
    (reason = "end_turn" -> uses_tool (h ++ (finalize_inner tr s).2) = false) /\
    (reason = "tool_use" -> uses_tool (h ++ (finalize_inner tr s).2) = true) /\
    u = from_option buckets zero_buckets (last_usage chunks)).
  { intros tr Hin. destruct (message_delta_of tr s h reason u H Hin) as (Hf & -> & -> & ->).
    destruct (Hus Hf) as [Hu _]. pose proof (reason_end s h H) as [_ H2 H3 _].
    pose proof (steady_end s.(usage) s.(failed) s ltac:(done)) as [Hu' _].
    unfold final_stop_reason, current_usage. rewrite Hu', Hu. cbn [new usage].
    destruct (pending_stop_reason (end_state s)) as [r|].
    - specialize (H3 r eq_refl). case_bool_decide as Er; cbn [andb].
      + subst r. destruct (has_tool_use _); split_and!; try done; [set_solver|by destruct (last_usage chunks)|].
        by destruct (last_usage chunks).
      + split_and!; [done|congruence| |by destruct (last_usage chunks)]. intros ->. by apply H2.
    - destruct tr, (has_tool_use _); cbn; split_and!; try done; try set_solver; by destruct (last_usage chunks). }
  destruct e as [| |m]; [apply Hfin..|]. cbn [finish]. unfold transport_error.
  destruct (failed s); cbn; intros Hin; apply elem_of_app in Hin as [Hin|Hin];
    try (by apply undecided_not in Hin; [|apply H]); [by apply elem_of_nil in Hin|by apply list_elem_of_singleton in Hin].
Qed.

(** ** Text and thinking *)

(** What an operation writes to a channel, and that it leaves the separator of inline thinking alone. *)
Lemma append_said k' k d s :
  k' <> KTool ->
  text_of k (append_delta k' d s).2 = (if bool_decide (k' = k) then d else "") /\
  (append_delta k' d s).1.(inline_think) = s.(inline_think).
Proof.
  intros Hk. split; [|by pose proof (append_delta_plain k' d s); destruct (append_delta k' d s); naive_solver].
  unfold append_delta, close_open_non_tool. destruct (s.(open_non_tool)) as [[k1 i]|];
    [case_bool_decide; [|cbn [snd app]]|]; unfold text_of; cbn; case_bool_decide; cbn;
    by rewrite ?string_app_empty_r.
Qed.

Lemma each_said k' k l s :
  k' <> KTool ->
  text_of k (each (append_delta k') l s).2 = (if bool_decide (k' = k) then concat_str l else "") /\
  (each (append_delta k') l s).1.(inline_think) = s.(inline_think).
Proof.
  intros Hk. revert s. induction l as [|d l IH]; intros s; [by cbn; case_bool_decide|]. cbn [each].
  rewrite seq_pair. cbn [fst snd]. destruct (append_said k' k d s Hk) as [E1 E2].
  destruct (IH (append_delta k' d s).1) as [E3 E4]. rewrite text_of_app, E1, E3, E4, E2.
  by case_bool_decide.
Qed.

Lemma emit_think_said k o s :
  k <> KTool ->
  text_of k (emit_think o s).2 = (match k with KThinking => concat_str o.1 | _ => concat_str o.2 end) /\
  (emit_think o s).1.(inline_think) = s.(inline_think).
Proof.
  intros Hk. unfold emit_think. rewrite seq_pair. cbn [fst snd].
  destruct (each_said KThinking k o.1 s) as [E1 E2]; [done|].
  destruct (each_said KText k o.2 (each append_thinking_delta o.1 s).1) as [E3 E4]; [done|].
  unfold append_thinking_delta, append_text_delta in *. rewrite text_of_app, E1, E3, E4, E2.
  split; [|done]. destruct k; cbn; [by rewrite string_app_empty_r|done|done].
Qed.

Lemma close_open_said k s : text_of k (close_open_non_tool s).2 = "".
Proof. unfold close_open_non_tool. by destruct (s.(open_non_tool)) as [[]|]. Qed.
Lemma start_tool_said k b : k <> KTool -> text_of k (start_tool b).2 = "".
Proof.
  intros Hk. apply text_of_nil. unfold start_tool. cbn [snd]. constructor; [done|].
  destruct (str_is_empty _); constructor; [|done]. cbn. by rewrite bool_decide_false.
Qed.
Lemma frame_args_said k tc b : k <> KTool -> text_of k (frame_args tc b).2 = "".
Proof.
  intros Hk. apply text_of_nil. unfold frame_args. destruct (_ ≫= _) as [a|]; [|done].
  destruct (str_is_empty a); [done|]. unfold add_args. destruct (aborted b); [done|]. destruct (_ <=? _); [done|].
  destruct (started b); constructor; [|done]. cbn. by rewrite bool_decide_false.
Qed.
Lemma tool_said k tc s :
  k <> KTool ->
  text_of k (append_tool_delta tc s).2 = "" /\ (append_tool_delta tc s).1.(inline_think) = s.(inline_think).
Proof.
  intros Hk. rewrite append_tool_delta_eq. pose proof (close_open_said k s) as E0.
  pose proof (close_open_plain s) as Hc. destruct (close_open_non_tool s) as [s0 ev0]. cbv zeta.
  assert (Ht : (tool_block_for (chat_index tc s0) (set_last_key (chat_index tc s0) s0)).1.(inline_think)
    = s.(inline_think)) by (unfold tool_block_for; destruct (tool_get _ _); naive_solver).
  destruct (tool_block_for _ _) as [s1 b]. cbn [fst snd] in *.
  destruct (ready _); cbn [fst snd]; rewrite !text_of_app, E0, ?start_tool_said, frame_args_said by done; done.
Qed.
Lemma each_tool_said k l s :
  k <> KTool ->
  text_of k (each append_tool_delta l s).2 = "" /\ (each append_tool_delta l s).1.(inline_think) = s.(inline_think).
Proof.
  intros Hk. revert s. induction l as [|tc l IH]; intros s; [done|]. cbn [each]. rewrite seq_pair. cbn [fst snd].
  destruct (tool_said k tc s Hk) as [E1 E2]. destruct (IH (append_tool_delta tc s).1) as [E3 E4].
  by rewrite text_of_app, E1, E3, E4, E2.
Qed.

(** The separator over increments, without the flush. *)
Fixpoint feeds (ds : list string) (st : InlineThinkState) : InlineThinkState * (string * string) :=
  match ds with
  | [] => (st, ("", ""))
  | d :: ds =>
      let '(st, (r, t)) := InlineThink.feed d st in
      let '(st, (r', t')) := feeds ds st in (st, (concat_str r +:+ r', concat_str t +:+ t'))
  end.
Lemma run_feeds ds st :
  InlineThink.run ds st =
  let '(st', (r, t)) := feeds ds st in
  let '(_, (r', t')) := InlineThink.flush st' in (r +:+ concat_str r', t +:+ concat_str t').
Proof.
  revert st. induction ds as [|d ds IH]; intros st; cbn [InlineThink.run feeds].
  - by destruct (InlineThink.flush st) as [? [? ?]].
  - destruct (InlineThink.feed d st) as [st1 [r t]]. rewrite IH. destruct (feeds ds st1) as [st2 [r' t']].
    destruct (InlineThink.flush st2) as [? [? ?]]. by rewrite !string_app_assoc.
Qed.

Section answer.
Variable show : Value -> string.

(** The parts of a choice. *)
Definition choice_content (c : ChatStreamChoice) : option string :=
  non_empty_opt (c.(choice_delta).(delta_content) ≫= delta_content_text show).
Definition choice_reasoning (c : ChatStreamChoice) : option string :=
  non_empty_opt (or_else c.(choice_delta).(delta_reasoning_content) c.(choice_delta).(delta_reasoning)).
Definition choice_refusal (c : ChatStreamChoice) : option string :=
  trimmed_non_empty c.(choice_delta).(delta_refusal).

Definition channel (k : Kind) (o : string * string) : string := match k with KThinking => o.1 | _ => o.2 end.
(** A channel that only inline separation writes to, in a choice. *)
Definition only_inline (k : Kind) (c : ChatStreamChoice) : Prop :=
  match k with KThinking => choice_reasoning c = None | _ => choice_refusal c = None end.

Lemma when_append_said k' k o s :
  k' <> KTool ->
  text_of k (when_some o (append_delta k') s).2 = (if bool_decide (k' = k) then default "" o else "") /\
  (when_some o (append_delta k') s).1.(inline_think) = s.(inline_think).
Proof. intros Hk. destruct o; [by apply append_said|]. cbn. by case_bool_decide. Qed.

Lemma when_feed_said k o s :
  k <> KTool ->
  text_of k (when_some o feed_content s).2 = channel k (feeds (option_list o) s.(inline_think)).2 /\
  (when_some o feed_content s).1.(inline_think) = (feeds (option_list o) s.(inline_think)).1.
Proof.
  intros Hk. destruct o as [d|]; [|by destruct k]. change (option_list (Some d)) with [d].
  cbn [when_some feeds]. unfold feed_content.
  destruct (InlineThink.feed d s.(inline_think)) as [t [r x]].
  destruct (emit_think_said k (r, x) (set_think t s) Hk) as [E1 E2]. rewrite E1, E2.
  split; [|done]. destruct k; cbn; [by rewrite string_app_empty_r..|done].
Qed.

Lemma choice_said k c s :
  k <> KTool -> only_inline k c ->
  text_of k (process_choice show c s).2 =
    channel k (feeds (option_list (choice_content c)) s.(inline_think)).2 /\
  (process_choice show c s).1.(inline_think) = (feeds (option_list (choice_content c)) s.(inline_think)).1.
Proof.
  intros Hk Ho. unfold process_choice. fold (choice_content c) (choice_reasoning c) (choice_refusal c).
  rewrite !seq_pair. cbn [fst snd]. rewrite !text_of_app.
  unfold append_thinking_delta, append_text_delta.
  destruct (when_append_said KThinking k (choice_reasoning c) s) as [E1 E2]; [done|].
  set (s1 := (when_some (choice_reasoning c) _ s).1) in *.
  destruct (when_feed_said k (choice_content c) s1 Hk) as [E3 E4]. set (s2 := (when_some _ _ s1).1) in *.
  destruct (when_append_said KText k (choice_refusal c) s2) as [E5 E6]; [done|].
  set (s3 := (when_some (choice_refusal c) _ s2).1) in *.
  destruct (each_tool_said k (delta_tool_calls (choice_delta c)) s3 Hk) as [E7 E8].
  set (s4 := (each append_tool_delta _ s3).1) in *.
  assert (E9 : forall x : option string, text_of k (when_some x note_finish s4).2 = "" /\
    (when_some x note_finish s4).1.(inline_think) = s4.(inline_think)) by by intros [].
  destruct (E9 (trimmed_non_empty (choice_finish_reason c))) as [E10 E11].
  rewrite E1, E3, E5, E7, E10, E11, E8, E6, E4, E2. split; [|done].
  destruct k; [| |done]; unfold only_inline in Ho; rewrite Ho; cbn; by rewrite ?string_app_empty_r.
Qed.

(** Over the choices of a stream. *)
Definition contents (cs : list ChatStreamChoice) : list string := omap choice_content cs.

Lemma feeds_app ds1 ds2 st :
  feeds (ds1 ++ ds2) st =
  let '(st1, (r1, t1)) := feeds ds1 st in
  let '(st2, (r2, t2)) := feeds ds2 st1 in (st2, (r1 +:+ r2, t1 +:+ t2)).
Proof.
  revert st. induction ds1 as [|d ds IH]; intros st; cbn [app feeds].
  - by destruct (feeds ds2 st) as [? [? ?]].
  - destruct (InlineThink.feed d st) as [st1 [r t]]. rewrite IH. destruct (feeds ds st1) as [st2 [r' t']].
    destruct (feeds ds2 st2) as [? [? ?]]. by rewrite !string_app_assoc.
Qed.
Lemma feeds_said k ds1 ds2 st :
  channel k (feeds (ds1 ++ ds2) st).2 =
    channel k (feeds ds1 st).2 +:+ channel k (feeds ds2 (feeds ds1 st).1).2 /\
  (feeds (ds1 ++ ds2) st).1 = (feeds ds2 (feeds ds1 st).1).1.
Proof.
  rewrite feeds_app. destruct (feeds ds1 st) as [st1 [r1 t1]]. cbn [fst snd].
  destruct (feeds ds2 st1) as [st2 [r2 t2]]. by destruct k.
Qed.

Lemma choices_said k cs s :
  k <> KTool -> Forall (only_inline k) cs ->
  text_of k (each (process_choice show) cs s).2 = channel k (feeds (contents cs) s.(inline_think)).2 /\
  (each (process_choice show) cs s).1.(inline_think) = (feeds (contents cs) s.(inline_think)).1.
Proof.
  intros Hk Ho. revert s. induction Ho as [|c cs Hc Ho IH]; intros s; [by destruct k|].
  cbn [each]. rewrite seq_pair. cbn [fst snd]. destruct (choice_said k c s Hk Hc) as [E1 E2].
  destruct (IH (process_choice show c s).1) as [E3 E4]. rewrite text_of_app, E1, E3, E4, E2.
  assert (Ec : contents (c :: cs) = option_list (choice_content c) ++ contents cs).
  { unfold contents. cbn. by destruct (choice_content c). }
  rewrite Ec. destruct (feeds_said k (option_list (choice_content c)) (contents cs) s.(inline_think)) as [E5 E6].
  by rewrite E5, E6.
Qed.

Definition all_choices (chunks : list ChatStreamChunk) : list ChatStreamChoice :=
  concat (chunk_choices <$> chunks).

Lemma chunk_said k c s :
  k <> KTool -> s.(failed) = None -> c.(chunk_error) = None -> Forall (only_inline k) c.(chunk_choices) ->
  text_of k (process_chunk show c s).2 = channel k (feeds (contents c.(chunk_choices)) s.(inline_think)).2 /\
  (process_chunk show c s).1.(inline_think) = (feeds (contents c.(chunk_choices)) s.(inline_think)).1 /\
  (process_chunk show c s).1.(failed) = None.
Proof.
  intros Hk Hf He Ho. unfold process_chunk. rewrite Hf, He, (seq_pair (adopt_head c)). cbn [fst snd].
  set (s0 := (adopt_head c s).1). rewrite seq_pair. cbn [fst snd].
  assert (Es : text_of k (start_message s0).2 = "" /\ (start_message s0).1.(inline_think) = s.(inline_think)).
  { unfold start_message. by destruct (sent_message_start s0). }
  destruct Es as [Es1 Es2].
  destruct (choices_said k c.(chunk_choices) (start_message s0).1 Hk Ho) as [E1 E2].
  rewrite !text_of_app, Es1, E1, E2, Es2. split_and!; [done..|].
  assert (H : Steady s0.(usage) None s0 []) by done. apply steady_start in H.
  apply (steady_choices _ _ show c.(chunk_choices)) in H. apply H.
Qed.

Lemma chunks_said k chunks s :
  k <> KTool -> s.(failed) = None -> Forall (fun c => c.(chunk_error) = None) chunks ->
  Forall (only_inline k) (all_choices chunks) ->
  text_of k (each (process_chunk show) chunks s).2 =
    channel k (feeds (contents (all_choices chunks)) s.(inline_think)).2 /\
  (each (process_chunk show) chunks s).1.(inline_think) =
    (feeds (contents (all_choices chunks)) s.(inline_think)).1.
Proof.
  intros Hk Hf He Ho. revert s Hf. induction He as [|c l Hc He IH]; intros s Hf; [by destruct k|].
  cbn in Ho. apply Forall_app in Ho as [Ho1 Ho2]. cbn [each]. rewrite seq_pair. cbn [fst snd].
  destruct (chunk_said k c s Hk Hf Hc Ho1) as (E1 & E2 & E3).
  destruct (IH Ho2 _ E3) as [E4 E5]. rewrite text_of_app, E1, E4, E5, E2.
  unfold contents, all_choices. cbn. rewrite omap_app. fold (contents (chunk_choices c)).
  fold (all_choices l). fold (contents (all_choices l)).
  destruct (feeds_said k (contents (chunk_choices c)) (contents (all_choices l)) s.(inline_think)) as [E6 E7].
  by rewrite E6, E7.
Qed.
End answer.

(** A channel that was written to has an open or a stopped block. *)
Definition channel_stopped (k : Kind) (s : State) : bool :=
  match k with KThinking => s.(thinking_stopped) | _ => s.(text_stopped) end.
Definition seen (k : Kind) (s : State) : Prop :=
  channel_stopped k s = true \/ exists i, s.(open_non_tool) = Some (k, i).
Definition Written (k : Kind) (s : State) (h : list Event) : Prop := text_of k h = "" \/ seen k s.

Section written.
Context (k : Kind) (Hk : k <> KTool).

(** Closing the slot marks its channel. *)
Lemma seen_closed s : seen k s -> channel_stopped k (close_open_non_tool s).1 = true.
Proof.
  unfold close_open_non_tool. intros [H|[i H]].
  - destruct (s.(open_non_tool)) as [[k' i]|]; [|done]. by destruct k, k'.
  - rewrite H. by destruct k.
Qed.
Lemma seen_append k' d s : k' <> KTool -> (k' = k \/ seen k s) -> seen k (append_delta k' d s).1.
Proof.
  intros Hk' H. unfold append_delta. pose proof (seen_closed s) as Hc.
  destruct (s.(open_non_tool)) as [[k1 i]|] eqn:E.
  - case_bool_decide as Ek.
    + subst k1. destruct H as [->|H]; [right; by eauto|done].
    + destruct (close_open_non_tool s) as [s1 ev]. cbn [fst] in *.
      destruct H as [->|H]; [right; by eauto|left]. specialize (Hc H). by destruct k.
  - destruct H as [->|[H|[i H]]]; [right; by eauto|left; by destruct k|congruence].
Qed.
Lemma written_append k' d : k' <> KTool -> preserves (Written k) (append_delta k' d).
Proof.
  intros Hk' s h H. destruct (append_said k' k d s Hk') as [E _]. unfold Written. rewrite text_of_app, E.
  case_bool_decide as Ek; [right; apply seen_append; by auto|]. rewrite string_app_empty_r.
  destruct H as [H|H]; [by left|right]. apply seen_append; by auto.
Qed.
Lemma written_tool tc : preserves (Written k) (append_tool_delta tc).
Proof.
  intros s h H. destruct (tool_said k tc s Hk) as [E _]. unfold Written. rewrite text_of_app, E, string_app_empty_r.
  destruct H as [H|H]; [by left|right; left]. rewrite append_tool_delta_eq.
  pose proof (seen_closed s H) as Hc. destruct (close_open_non_tool s) as [s0 ev0]. cbn [fst] in Hc. cbv zeta.
  unfold tool_block_for. destruct (tool_get _ _); destruct (ready _); by destruct k.
Qed.
Lemma written_silent (f : State -> State) :
  (forall s, (f s).(open_non_tool) = s.(open_non_tool) /\ (f s).(thinking_stopped) = s.(thinking_stopped) /\
     (f s).(text_stopped) = s.(text_stopped)) -> preserves (Written k) (modify f).
Proof.
  intros Hf s h H. destruct (Hf s) as (E1 & E2 & E3). cbn. rewrite app_nil_r.
  destruct H as [H|H]; [by left|right]. unfold seen, channel_stopped in *. by rewrite E1, E2, E3.
Qed.
Lemma written_said (o : op) :
  (forall s, text_of k (o s).2 = "") ->
  (forall s, (o s).1.(open_non_tool) = s.(open_non_tool) /\ (o s).1.(thinking_stopped) = s.(thinking_stopped) /\
     (o s).1.(text_stopped) = s.(text_stopped)) -> preserves (Written k) o.
Proof.
  intros Hs Hf s h H. destruct (Hf s) as (E1 & E2 & E3). unfold Written. rewrite text_of_app, Hs, string_app_empty_r.
  destruct H as [H|H]; [by left|right]. unfold seen, channel_stopped in *. by rewrite E1, E2, E3.
Qed.
Lemma start_message_said s : text_of k (start_message s).2 = "".
Proof. unfold start_message. by destruct (sent_message_start s). Qed.
Lemma written_start : preserves (Written k) start_message.
Proof.
  apply written_said; [apply start_message_said|]. intros s. unfold start_message. by destruct (sent_message_start s).
Qed.
Lemma written_chunk show c : preserves (Written k) (process_chunk show c).
Proof.
  apply preserves_chunk.
  - intros d. by apply written_append.
  - intros d. by apply written_append.
  - apply written_tool.
  - intros t. by apply written_silent.
  - intros fr. by apply (written_silent (fun s => (note_finish fr s).1)).
  - intros c'. by apply written_silent.
  - apply written_start.
  - intros m. by apply written_said.
Qed.
Lemma written_flush : preserves (Written k) flush_think.
Proof.
  apply preserves_flush; [intros d; by apply written_append..|]. intros t. by apply written_silent.
Qed.

Lemma close_tools_said m : text_of k (close_tools m).1.1.2 = "".
Proof.
  induction m as [|[j b] m IH]; [done|]. cbn [close_tools].
  assert (Hb : text_of k (close_tool j b).1.1.2 = "").
  { unfold close_tool. destruct (_ && _); [done|]. destruct (negb _); [|done]. destruct (_ || _ || _ || _); [|done].
    match goal with |- context [start_tool ?b'] => pose proof (start_tool_said k b' Hk) as E end.
    destruct (start_tool _) as [b' ev]. cbn [fst snd] in *. by rewrite text_of_app, E. }
  destruct (close_tool j b) as [[[b' ev] used] dropped]. destruct (close_tools m) as [[[m' ev'] used'] n].
  cbn [fst snd] in *. by rewrite text_of_app, Hb, IH.
Qed.
Lemma close_blocks_said s : text_of k (close_open_blocks s).2 = "".
Proof.
  unfold close_open_blocks. pose proof (close_open_said k s) as E. destruct (close_open_non_tool s) as [s1 ev].
  pose proof (close_tools_said s1.(tools)) as E2. destruct (close_tools _) as [[[m ev'] used] n]. cbn [fst snd] in *.
  by rewrite text_of_app, E, E2.
Qed.
Lemma close_blocks_seen s : seen k s -> has_output (close_open_blocks s).1 = true.
Proof.
  intros H. apply seen_closed in H. unfold close_open_blocks. destruct (close_open_non_tool s) as [s1 ev].
  cbn [fst] in H. destruct (close_tools _) as [[[m ev'] used] n]. cbn [fst]. unfold has_output. cbn.
  destruct k; cbn in H; rewrite H; [done|by rewrite orb_true_r|done].
Qed.

(** What the end of a stream adds to a channel. *)
Lemma end_said s :
  text_of k (end_events s) =
    (let o := (InlineThink.flush s.(inline_think)).2 in
     match k with KThinking => concat_str o.1 | _ => concat_str o.2 end).
Proof.
  unfold end_events. rewrite !seq_pair. cbn [fst snd]. rewrite !text_of_app, start_message_said, close_blocks_said.
  rewrite string_app_empty_r. set (s0 := set_end _ _ _ _ s).
  assert (E : (start_message s0).1.(inline_think) = s.(inline_think)).
  { unfold start_message. by destruct (sent_message_start s0). }
  unfold flush_think. rewrite E. destruct (InlineThink.flush s.(inline_think)) as [t o].
  destruct (emit_think_said k o (set_think t (start_message s0).1) Hk) as [E1 _]. by rewrite E1.
Qed.
Lemma end_silent s h : Written k s h -> has_output (end_state s) = false -> text_of k (h ++ end_events s) = "".
Proof.
  intros H Hn. unfold end_state in Hn. unfold end_events. set (s0 := set_end _ _ _ _ s) in *.
  assert (H0 : Written k s0 h) by done.
  apply (preserves_seq (Written k) start_message flush_think written_start written_flush) in H0.
  rewrite seq_assoc, (seq_pair (start_message ;;; flush_think) close_open_blocks). cbn [snd].
  rewrite app_assoc, text_of_app, close_blocks_said, string_app_empty_r.
  destruct H0 as [H0|H0]; [done|]. apply close_blocks_seen in H0. congruence.
Qed.
End written.

(** The separation of an answer, channel by channel. *)
Lemma run_channel k ds st :
  channel k (InlineThink.run ds st) =
  channel k (feeds ds st).2 +:+
    (let o := (InlineThink.flush (feeds ds st).1).2 in
     match k with KThinking => concat_str o.1 | _ => concat_str o.2 end).
Proof.
  rewrite run_feeds. destruct (feeds ds st) as [st' [r t]]. cbn [fst snd].
  destruct (InlineThink.flush st') as [st2 [r' t']]. by destruct k.
Qed.

Lemma no_text_ends tr s h k :
  k <> KTool -> Written k s h -> s.(failed) = None -> s.(finalized) = false ->
  (s.(sent_message_start) = false -> text_of k (h ++ end_events s) = "") ->
  text_of k (h ++ (finalize_inner tr s).2) = text_of k (h ++ end_events s).
Proof.
  intros Hk Hw Hf Hn Hs. pose proof (finalize_cases tr s) as Hc. cbv zeta in Hc.
  assert (Hh : text_of k (h ++ end_events s) = "" -> text_of k h = "").
  { rewrite text_of_app. by destruct (text_of k h). }
  destruct Hc as [[_ [E|[m E]]]|[(_ & E1 & _ & E)|[(_ & _ & E1 & E)|(_ & _ & E)]]]; [congruence..| | |].
  - rewrite E, text_of_app, (Hs E1), (Hh (Hs E1)). done.
  - pose proof (end_silent k Hk s h Hw E1) as E2. by rewrite E, text_of_app, E2, (Hh E2).
  - rewrite E, app_assoc, (text_of_app _ (h ++ end_events s)).
    assert (Ee : text_of k ((message_delta_events tr ;;; emit [MessageStop]) (end_state s)).2 = "").
    { unfold seq, message_delta_events. by destruct (has_emitted_message_delta _). }
    by rewrite Ee, string_app_empty_r.
Qed.

(** A stream that processed a chunk has begun its message. *)
Lemma begun show c l id model :
  c.(chunk_error) = None -> (each (process_chunk show) (c :: l) (new id model)).2 <> [].
Proof.
  intros He. cbn [each]. rewrite seq_pair. cbn [snd]. unfold process_chunk at 1. cbn [new failed]. rewrite He.
  unfold seq at 1. cbn [adopt_head modify]. unfold seq at 1, start_message at 1. cbn [set_head sent_message_start new].
  by destruct (each _ _ _).
Qed.

(** The text of a channel over a whole stream, when only inline separation writes to it. *)
Lemma channel_delivered show id model chunks tr k :
  k <> KTool -> Forall (fun c => c.(chunk_error) = None) chunks ->
  Forall (only_inline k) (all_choices chunks) ->
  text_of k ((each (process_chunk show) chunks ;;; finalize_inner tr) (new id model)).2 =
  channel k (InlineThink.run (contents show (all_choices chunks)) InlineThink.new).
Proof.
  intros Hk He Ho. rewrite seq_pair. cbn [snd].
  destruct (chunks_said show k chunks (new id model) Hk eq_refl He Ho) as [E1 E2].
  assert (Hr : running (new id model) []) by by left.
  apply (preserves_each running _ chunks (chunk_running show)) in Hr. cbn [app] in Hr.
  assert (Hw : Written k (new id model) []) by by left.
  apply (preserves_each (Written k) _ chunks (written_chunk k Hk show)) in Hw. cbn [app] in Hw.
  assert (Hs : failed (each (process_chunk show) chunks (new id model)).1 = None).
  { clear -He Hk. assert (Hg : forall s, failed s = None -> failed (each (process_chunk show) chunks s).1 = None);
      [|by apply Hg]. induction He as [|c l Hc He IH]; intros s Hs; [done|].
    cbn [each]. rewrite seq_pair. cbn [fst]. apply IH. unfold process_chunk. rewrite Hs, Hc.
    assert (H : Steady (or_else c.(chunk_usage) s.(usage)) None (adopt_head c s).1 []) by done.
    apply steady_start in H. rewrite (seq_pair (adopt_head c)), seq_pair. cbn [fst].
    eapply steady_choices in H. apply H. }
  assert (Hb : (each (process_chunk show) chunks (new id model)).2 <> [] \/ chunks = []).
  { destruct chunks as [|c l]; [by right|left]. apply begun. by inversion He. }
  change (inline_think (new id model)) with InlineThink.new in E1, E2. rewrite run_channel, <-E1.
  destruct (each (process_chunk show) chunks (new id model)) as [s h] eqn:Es. cbn [fst snd] in *.
  rewrite no_text_ends; [|done..| |].
  - by rewrite text_of_app, (end_said k Hk s), E2.
  - destruct Hr as [[[] _]|[(p & _ & [])|[[? ?] _]]]; congruence.
  - intros Hn. destruct Hb as [Hb| ->].
    + exfalso. destruct Hr as [[_ Hr]|[(p & _ & [])|[[? ?] _]]]; congruence.
    + cbn in Es. injection Es as <- <-. cbn [app]. rewrite (end_said k Hk). by destruct k.
Qed.

(** C12: the answer reaches the client whole. When no chunk reports an error (see [error_drops_held_text])
    and every chunk's content is text of whole characters, then, however the upstream cuts the answer into
    chunks, the text increments of the stream are the text of the whole answer with a leading think block
    taken out, and the thinking increments are that block, whatever tools are called in between; refusals
    and separate reasoning fields, which add to these channels, aside. *)
Theorem answer_delivered show id model chunks tr :
  Forall (fun c => c.(chunk_error) = None) chunks ->
  Forall (fun d => utf8 d = true) (contents show (all_choices chunks)) ->
  let ev := ((each (process_chunk show) chunks ;;; finalize_inner tr) (new id model)).2 in
  let whole := InlineThink.split_think (concat_str (contents show (all_choices chunks))) in
  (Forall (fun c => choice_refusal c = None) (all_choices chunks) -> text_of KText ev = whole.2) /\
  (Forall (fun c => choice_reasoning c = None) (all_choices chunks) -> text_of KThinking ev = whole.1).
Proof.
  intros He Hu ev whole.
  assert (Hw : InlineThink.run (contents show (all_choices chunks)) InlineThink.new = whole).
  { pose proof (InlineThink.run_inv _ "" InlineThink.new "" "" eq_refl Hu) as H.
    change ("" +:+ ?x) with x in H. unfold whole. rewrite H by done. by destruct (InlineThink.run _ _). }
  split; intros Ho.
  - unfold ev. rewrite (channel_delivered show id model chunks tr KText) by done. by rewrite Hw.
  - unfold ev. rewrite (channel_delivered show id model chunks tr KThinking) by done. by rewrite Hw.
Qed.

(** ** A sample stream *)

Module Sample.

Definition text_choice (t : string) : ChatStreamChoice :=
  {| choice_index := 0;
     choice_delta := {| delta_role := None; delta_content := Some (VString t); delta_reasoning_content := None;
                        delta_reasoning := None; delta_tool_calls := []; delta_refusal := None |};
     choice_finish_reason := None |}.
Definition call (k : Z) (id name args : option string) : ToolCallDelta :=
  {| tc_index := Some k; tc_id := id; tc_type := None; tc_function := Some {| fn_name := name; fn_arguments := args |} |}.
Definition tool_choice (l : list ToolCallDelta) (finish : option string) : ChatStreamChoice :=
  {| choice_index := 0;
     choice_delta := {| delta_role := None; delta_content := None; delta_reasoning_content := None;
                        delta_reasoning := None; delta_tool_calls := l; delta_refusal := None |};
     choice_finish_reason := finish |}.
Definition chunk (c : ChatStreamChoice) : ChatStreamChunk :=
  {| chunk_id := "1"; chunk_model := "m"; chunk_created := None; chunk_choices := [c]; chunk_usage := None;
     chunk_error := None |}.

(** A thought, an answer, and two interleaved calls, the second one named late. *)
Definition chunks : list ChatStreamChunk :=
  [chunk (text_choice "<thi"); chunk (text_choice "nk>why</think>he"); chunk (text_choice "llo");
   chunk (tool_choice [call 0 (Some "x") (Some "f") (Some "[1"); call 1 None None (Some "{")] None);
   chunk (tool_choice [call 1 (Some "y") (Some "g") None; call 0 None None (Some "]")] None);
   chunk (tool_choice [call 1 None None (Some "}")] (Some "stop"))].
Definition show (_ : Value) : string := "".
(** The upstream reports an error. *)
Definition failure : ChatStreamChunk :=
  {| chunk_id := "1"; chunk_model := "m"; chunk_created := None; chunk_choices := []; chunk_usage := None;
     chunk_error := Some (VString "overloaded") |}.

End Sample.

(** An error drops what the stream was holding back: text that might begin a think block is not sent. *)
Theorem error_drops_held_text :
  let chunks := [Sample.chunk (Sample.text_choice "<thi"); Sample.failure] in
  text_of KText ((each (process_chunk Sample.show) chunks ;;; finalize_inner false) (new "" "")).2 = "" /\
  InlineThink.split_think (concat_str (contents Sample.show (all_choices chunks))) = ("", "<thi").
Proof. split; vm_compute; reflexivity. Qed.

Lemma message_delta_truthful_witness :
  uses_tool ((each (process_chunk Sample.show) Sample.chunks ;;; finish Terminated) (new "" "")).2 = true.
Proof.
  eapply (message_delta_truthful Sample.show "" "" Sample.chunks Terminated "tool_use" zero_buckets); [|reflexivity].
  vm_compute. repeat (first [left|right]).
Defined.

Lemma answer_delivered_witness :
  text_of KText ((each (process_chunk Sample.show) Sample.chunks ;;; finalize_inner false) (new "" "")).2 = "hello" /\
  text_of KThinking ((each (process_chunk Sample.show) Sample.chunks ;;; finalize_inner false) (new "" "")).2 = "why".
Proof.
  destruct (answer_delivered Sample.show "" "" Sample.chunks false) as [H1 H2].
  - repeat constructor.
  - vm_compute. repeat constructor.
  - rewrite H1, H2; [vm_compute; auto|..]; repeat constructor.
Defined.
