(* ===== verification/AnthropicTools.v ===== *)
(** * The arguments of streamed tool calls

Each tool call of a stream gets a block of its own, and the arguments received for it, in whatever
increments and before or after its name is known, are the arguments written to that block. *)

From S2P Require Import Prelude Float Json Metering Body Streams Machine InlineThink Chat AnthropicResponse AnthropicStream.
From S2P Require Import AnthropicProtocol AnthropicContent.

Local Open Scope Z_scope.

(** ** What was received *)

Definition frame_text (tc : ToolCallDelta) : string := default "" (tc.(tc_function) ≫= fn_arguments).
(** The arguments received under a key. *)
Definition received (k : Z) (g : list ToolCallDelta) : string :=
  concat_str (frame_text <$> List.filter (fun tc => bool_decide (tc.(tc_index) = Some k)) g).


(** ** One block *)

(** Arguments wait until the block starts, and are then written at once. *)
Definition args_split (b : ToolBlock) : Prop :=
  if b.(started) then b.(pending_args) = "" else b.(arguments) = "".







(** ** All the blocks *)

(** What the blocks hold is what was received and what was written. *)
Record Args (g : list ToolCallDelta) (s : State) (h : list Event) : Prop := {
  args_known : forall tc k, tc ∈ g -> tc.(tc_index) = Some k -> is_Some (tool_get k s.(tools));
  args_unknown : forall k, tool_get k s.(tools) = None -> received k g = "";
  args_block : forall k b, tool_get k s.(tools) = Some b ->
    args_split b /\ tool_text b.(anthropic_index) h = b.(arguments) /\
    (b.(aborted) = false -> b.(arguments) +:+ b.(pending_args) = received k g);
  args_fresh : forall i, s.(next_block_index) <= i -> tool_text i h = "";
}.

(** An operation that leaves the tools alone and writes no arguments. *)
Lemma args_quiet g s s' h ev :
  Args g s h -> s'.(tools) = s.(tools) -> s.(next_block_index) <= s'.(next_block_index) ->
  (forall i, tool_text i ev = "") -> Args g s' (h ++ ev).
Proof.
  intros H Et En He. split; rewrite ?Et.
  - apply H.
  - apply H.
  - intros k b Hb. rewrite tool_text_app, He, string_app_empty_r. by apply H.
  - intros i Hi. rewrite tool_text_app, He, string_app_empty_r. apply H. lia.
Qed.







(** ** Over a stream *)

Definition Both (g : list ToolCallDelta) (s : State) (h : list Event) : Prop := live false s h /\ Args g s h.

Lemma append_quiet k d s :
  k <> KTool -> (forall i, tool_text i (append_delta k d s).2 = "") /\
  s.(next_block_index) <= (append_delta k d s).1.(next_block_index).
Proof.
  intros Hk. unfold append_delta, close_open_non_tool. destruct (s.(open_non_tool)) as [[k' i]|];
    [case_bool_decide|]; (split; [by intros j; destruct k|cbn; lia]).
Qed.
Lemma both_append g k d : k <> KTool -> preserves (Both g) (append_delta k d).
Proof.
  intros Hk s h [Hl Ha]. split; [by apply append_delta_live|].
  pose proof (append_delta_plain k d s) as Hp. destruct (append_quiet k d s Hk) as [Hq Hn].
  destruct (append_delta k d s) as [s' ev]. cbn [fst snd] in *. eapply args_quiet; naive_solver.
Qed.
Lemma both_silent g (f : State -> State) :
  preserves (live false) (modify f) ->
  (forall s, (f s).(tools) = s.(tools) /\ (f s).(next_block_index) = s.(next_block_index)) ->
  preserves (Both g) (modify f).
Proof.
  intros Hf Ht s h [Hl Ha]. split; [by apply Hf|]. destruct (Ht s) as [E1 E2]. cbn.
  eapply args_quiet; [done..|lia|done].
Qed.
Lemma both_flush g : preserves (Both g) flush_think.
Proof.
  apply preserves_flush; [intros d; by apply both_append..|]. intros t. by apply both_silent; [apply live_silent|].
Qed.




Definition choice_frames (cs : list ChatStreamChoice) : list ToolCallDelta :=
  concat ((fun c => c.(choice_delta).(delta_tool_calls)) <$> cs).





Definition all_frames (chunks : list ChatStreamChunk) : list ToolCallDelta := choice_frames (all_choices chunks).


(** ** The end of a stream *)










(** An error drops what the stream was holding back: the arguments of a call that has no name yet are
    not sent, although its block was not aborted. *)
Theorem error_drops_held_arguments :
  let chunks := [Sample.chunk (Sample.tool_choice [Sample.call 0 None None (Some "{")] None); Sample.failure] in
  exists b, tool_get 0 (each (process_chunk Sample.show) chunks (new "" "")).1.(tools) = Some b /\
    b.(aborted) = false /\ received 0 (all_frames chunks) = "{" /\
    tool_text b.(anthropic_index) ((each (process_chunk Sample.show) chunks ;;; finalize_inner false) (new "" "")).2 = "".
Proof. eexists. split; [vm_compute; reflexivity|]. split_and!; vm_compute; reflexivity. Qed.
