(* ===== verification/StreamAdapter.v ===== *)
(** * The stream adapter around a converter

[wrap_chat_stream_to_anthropic] and [wrap_chat_stream_to_responses] are the same adapter around two
state machines: the bytes of the upstream are cut into frames, read, run through the machine, and the
stream is finished and accounted for at its terminator, at a failure, at a transport error, at its
end, or when it is dropped. [Converter] is what the adapter asks of a machine, [ConverterLaws] what a
machine promises to it; the theorems on the adapter are proved against them. Decoding bytes and JSON
are parameters. *)

From S2P Require Import Prelude Float Json Metering Body Streams Machine InlineThink Chat.

Local Open Scope Z_scope.

(** What the adapter uses of a state machine. [kept] is what it hands to the response history. *)
Class Converter (S E : Type) : Type := {
  convert : ChatStreamChunk -> op S E;
  finalize : op S E;
  finalize_truncated : op S E;
  transport_error : string -> op S E;
  has_failed : S -> bool;
  billing_usage : S -> option Usage;
  kept : S -> option (string * Value);
}.

(** The machine runs while [running] relates its state and its events, and every way to end it leads to
    a [complete] sequence of events. *)
Class ConverterLaws (S E : Type) `{Converter S E} (running : S -> list E -> Prop) (complete : list E -> Prop) : Prop := {
  convert_running c : preserves running (convert c);
  finalize_complete s h : running s h -> complete (h ++ (finalize s).2);
  truncated_complete s h : running s h -> complete (h ++ (finalize_truncated s).2);
  transport_complete m s h : running s h -> complete (h ++ (transport_error m s).2);
}.

(** An item of the upstream: bytes, or a transport error with its message. *)
Inductive Item : Type :=
| Bytes (b : string)
| Err (message : string).

(** [ConvertCtx], with the calls of [record] (the usages they were given) and of the history. *)
Record ConvertCtx (S : Type) : Type := {
  state : S;
  parser : string;
  finished : bool;
  recorded : bool;
  records : list (option Usage);
  history : list (string * Value);
}.
Arguments state {S}. Arguments parser {S}. Arguments finished {S}. Arguments recorded {S}.
Arguments records {S}. Arguments history {S}.
Arguments Build_ConvertCtx {S}.

Section adapter.
Context {S E : Type} `{Converter S E}.
Context (show : Value -> string) (from_utf8_lossy : string -> string) (parse_json : string -> option Value).

Definition start (s : S) : ConvertCtx S :=
  {| state := s; parser := ""; finished := false; recorded := false; records := []; history := [] |}.

(** [if !recorded.swap(true) { record(.., usage, ..) }] *)
Definition record_once (c : ConvertCtx S) : ConvertCtx S :=
  if c.(recorded) then c
  else {| state := c.(state); parser := c.(parser); finished := c.(finished); recorded := true;
          records := c.(records) ++ [billing_usage c.(state)]; history := c.(history) |}.

(** [if !finished.swap(true) { .. }]: run the end of the machine once, hand over what is kept unless
    the transport failed, and account for the stream. *)
Definition finish_once (keep : bool) (o : op S E) (c : ConvertCtx S) : ConvertCtx S * list E :=
  if c.(finished) then (c, [])
  else
    let '(s, ev) := o c.(state) in
    let h := if keep then option_list (kept s) else [] in
    (record_once {| state := s; parser := c.(parser); finished := true; recorded := c.(recorded);
                    records := c.(records); history := c.(history) ++ h |}, ev).

(** The chunk of a frame; a frame named [error] without an error of its own is one. *)
Definition frame_chunk (f : SseEvent) : option ChatStreamChunk :=
  (fun cc =>
     match cc.(chunk_error) with
     | None =>
         if bool_decide (f.(sse_event) = Some "error") then
           {| chunk_id := cc.(chunk_id); chunk_model := cc.(chunk_model); chunk_created := cc.(chunk_created);
              chunk_choices := cc.(chunk_choices); chunk_usage := cc.(chunk_usage);
              chunk_error := Some (json_object [("message", VString f.(sse_data))]) |}
         else cc
     | Some _ => cc
     end) <$> from_json_str show parse_json f.(sse_data).

(** The frames of one piece of the upstream; whether the machine has failed. *)
Fixpoint run_frames (fs : list SseEvent) (s : S) : S * list E * bool :=
  match fs with
  | [] => (s, [], false)
  | f :: fs =>
      match frame_chunk f with
      | None => run_frames fs s
      | Some cc =>
          let '(s, ev) := convert cc s in
          let failed_here := has_failed s in
          let '(s, ev', failed_later) := run_frames fs s in
          (s, ev ++ ev', failed_here || failed_later)
      end
  end.

Definition on_item (i : Item) (c : ConvertCtx S) : ConvertCtx S * list E :=
  match i with
  | Err m => finish_once false (transport_error m) c
  | Bytes b =>
      let '(buf, fs, terminal) := push from_utf8_lossy c.(parser) b in
      let '(s, ev, fail) := run_frames fs c.(state) in
      let c := {| state := s; parser := buf; finished := c.(finished); recorded := c.(recorded);
                  records := c.(records); history := c.(history) |} in
      if terminal || fail then let '(c, ev') := finish_once true finalize c in (c, ev ++ ev') else (c, ev)
  end.

(** [tail], and the drop of the stream. *)
Definition on_end (c : ConvertCtx S) : ConvertCtx S * list E := finish_once true finalize_truncated c.
Definition on_drop (c : ConvertCtx S) : ConvertCtx S := record_once c.

Fixpoint on_items (l : list Item) (c : ConvertCtx S) : ConvertCtx S * list E :=
  match l with
  | [] => (c, [])
  | i :: l => let '(c, ev) := on_item i c in let '(c, ev') := on_items l c in (c, ev ++ ev')
  end.

(** ** Accounting *)

Definition Billed (c : ConvertCtx S) : Prop :=
  length c.(records) = (if c.(recorded) then 1 else 0)%nat /\ (c.(finished) = true -> c.(recorded) = true).

Lemma record_once_billed c :
  length c.(records) = (if c.(recorded) then 1 else 0)%nat -> Billed (record_once c) /\ (record_once c).(recorded) = true.
Proof.
  intros Hc. unfold record_once, Billed. destruct (c.(recorded)) eqn:E0; [rewrite E0; by auto|]. cbn.
  rewrite length_app, Hc. done.
Qed.
Lemma finish_once_billed b o c : Billed c -> Billed (finish_once b o c).1.
Proof.
  intros [H1 H2]. unfold finish_once. destruct (c.(finished)) eqn:E0; [split; cbn; auto|].
  destruct (o c.(state)) as [s ev]. cbn [fst]. by apply record_once_billed.
Qed.
Lemma on_item_billed i c : Billed c -> Billed (on_item i c).1.
Proof.
  intros Hc. destruct i as [b|m]; cbn [on_item]; [|by apply finish_once_billed].
  destruct (push _ _ _) as [[buf fs] t]. destruct (run_frames _ _) as [[s ev] f].
  destruct (t || f); [|done]. set (c' := Build_ConvertCtx _ _ _ _ _ _).
  assert (H' : Billed c') by done. apply (finish_once_billed true finalize) in H'.
  by destruct (finish_once true finalize c').
Qed.
Lemma on_items_billed l c : Billed c -> Billed (on_items l c).1.
Proof.
  revert c. induction l as [|i l IH]; intros c Hc; [done|]. cbn [on_items]. apply (on_item_billed i) in Hc.
  destruct (on_item i c) as [c1 e1]. cbn [fst] in Hc. apply IH in Hc. by destruct (on_items l c1).
Qed.

(** A converted stream is accounted for exactly once. Whatever items the upstream delivers, and
    whether the client leaves after any of them or reads to the end, [record] has been called exactly
    once when the stream is gone; in both dialects. *)
Theorem adapter_billed_once s l ended :
  let c := (on_items l (start s)).1 in
  length (on_drop (if ended : bool then (on_end c).1 else c)).(records) = 1%nat.
Proof.
  cbv zeta. assert (Hc : Billed (on_items l (start s)).1) by (apply on_items_billed; by split).
  set (c := (on_items l _).1) in *.
  assert (H' : Billed (if ended then (on_end c).1 else c)) by (destruct ended; [by apply finish_once_billed|done]).
  unfold on_drop. destruct (record_once_billed _ (proj1 H')) as [[E0 _] Hr]. by rewrite E0, Hr.
Qed.

(** ** Events *)

Lemma on_items_snoc l i c :
  on_items (l ++ [i]) c =
  ((on_item i (on_items l c).1).1, (on_items l c).2 ++ (on_item i (on_items l c).1).2).
Proof.
  revert c. induction l as [|j l IH]; intros c; cbn [app on_items fst snd].
  - destruct (on_item i c) as [c1 e1]. cbn. by rewrite app_nil_r.
  - destruct (on_item j c) as [c1 e1]. rewrite IH. destruct (on_items l c1) as [c2 e2]. cbn [fst snd].
    by rewrite app_assoc.
Qed.
Lemma finished_stays i c : c.(finished) = true -> (on_item i c).1.(finished) = true.
Proof.
  intros Hf. destruct i as [b|m]; cbn [on_item]; [|unfold finish_once; by rewrite Hf].
  destruct (push _ _ _) as [[buf fs] t]. destruct (run_frames _ _) as [[s ev] f].
  destruct (t || f); [|done]. unfold finish_once. cbn [finished]. by rewrite Hf.
Qed.
Lemma finish_once_finished b o c :
  c.(finished) = false -> (finish_once b o c).1.(finished) = true /\ (finish_once b o c).2 = (o c.(state)).2.
Proof.
  intros Hf. unfold finish_once. rewrite Hf. destruct (o c.(state)) as [s ev]. cbn [fst snd]. unfold record_once.
  by destruct (c.(recorded)).
Qed.

Section complete.
Context {running : S -> list E -> Prop} {complete : list E -> Prop} `{!ConverterLaws S E running complete}.

Lemma run_frames_running fs s h :
  running s h -> let '(s', ev, _) := run_frames fs s in running s' (h ++ ev).
Proof.
  revert s h. induction fs as [|f fs IH]; intros s h Hr; cbn [run_frames]; [by rewrite app_nil_r|].
  destruct (frame_chunk f) as [cc|]; [|by apply IH]. apply (convert_running cc) in Hr.
  destruct (convert cc s) as [s1 ev]. cbn [fst snd] in Hr. apply IH in Hr.
  destruct (run_frames fs s1) as [[s2 ev'] fl]. by rewrite app_assoc.
Qed.

(** While the stream is not finished the machine is running; it finishes by completing its events. *)
Definition Good (c : ConvertCtx S) (h : list E) : Prop :=
  if c.(finished) then complete h else running c.(state) h.

Lemma on_item_good i c h :
  c.(finished) = false -> running c.(state) h -> Good (on_item i c).1 (h ++ (on_item i c).2).
Proof.
  intros Hf Hr. unfold Good. destruct i as [b|m]; cbn [on_item].
  - destruct (push _ _ _) as [[buf fs] t]. pose proof (run_frames_running fs c.(state) h Hr) as Hr'.
    destruct (run_frames fs c.(state)) as [[s ev] f]. set (c' := Build_ConvertCtx _ _ _ _ _ _).
    destruct (t || f); [|cbn; by rewrite Hf].
    destruct (finish_once_finished true finalize c' Hf) as [E1 E2].
    destruct (finish_once true finalize c') as [c2 ev2]. cbn [fst snd] in *. rewrite E1, E2, app_assoc.
    by apply finalize_complete.
  - destruct (finish_once_finished false (transport_error m) c Hf) as [-> ->]. by apply transport_complete.
Qed.

Lemma on_items_good s l :
  running s [] -> (on_items l (start s)).1.(finished) = false ->
  running (on_items l (start s)).1.(state) (on_items l (start s)).2.
Proof.
  intros Hs. induction l as [|i l IH] using rev_ind; intros Hf; [done|]. rewrite on_items_snoc in Hf |- *.
  cbn [fst snd] in *. set (c := (on_items l (start s)).1) in *.
  destruct (c.(finished)) eqn:E0; [by rewrite (finished_stays i c E0) in Hf|].
  pose proof (on_item_good i c _ E0 (IH eq_refl)) as Hg. unfold Good in Hg. by rewrite Hf in Hg.
Qed.

(** The item at which the stream finishes completes its events; when none does, the end does. *)
Lemma adapter_finishes s l i :
  running s [] -> (on_items l (start s)).1.(finished) = false ->
  let '(c, ev) := on_items (l ++ [i]) (start s) in
  if c.(finished) then complete ev else complete (ev ++ (on_end c).2).
Proof.
  intros Hs Hf. pose proof (on_items_good s l Hs Hf) as Hr. pose proof (on_item_good i _ _ Hf Hr) as Hg.
  rewrite on_items_snoc. unfold Good in Hg. destruct (finished (on_item i _).1) eqn:E0; [done|].
  unfold on_end. destruct (finish_once_finished true finalize_truncated _ E0) as [_ ->]. by apply truncated_complete.
Qed.
End complete.

End adapter.
