(* ===== verification/AnthropicAdapter.v ===== *)
(** * The Anthropic stream adapter

[wrap_chat_stream_to_anthropic] of [src/service/anthropic/stream.rs]: the adapter of [StreamAdapter]
around the state machine of [AnthropicStream], which keeps the promises the adapter relies on. *)

From S2P Require Import Prelude Float Json Metering Body Streams Machine InlineThink Chat AnthropicResponse AnthropicStream.
From S2P Require Import AnthropicProtocol StreamAdapter.

Local Open Scope Z_scope.

#[export] Instance anthropic_converter (show : Value -> string) : Converter State Event :=
  {| convert := process_chunk show; StreamAdapter.finalize := AnthropicStream.finalize;
     StreamAdapter.finalize_truncated := AnthropicStream.finalize_truncated;
     StreamAdapter.transport_error := AnthropicStream.transport_error;
     has_failed := fun s => bool_decide (is_Some s.(failed));
     StreamAdapter.billing_usage := AnthropicStream.billing_usage; kept := fun _ => None |}.

#[export] Instance anthropic_laws (show : Value -> string) :
  ConverterLaws State Event (H := anthropic_converter show) running p_complete.
Proof.
  split.
  - apply (chunk_running show).
  - intros s h. apply (finish_complete Terminated).
  - intros s h. apply (finish_complete Truncated).
  - intros m s h. apply (finish_complete (Broken m)).
Qed.

Section adapter.
Context (show : Value -> string) (from_utf8_lossy : string -> string) (parse_json : string -> option Value).

(** The adapter of the Anthropic dialect: the items of the upstream so far. *)
Definition wrap_chat_stream_to_anthropic (id model : string) (l : list Item) : ConvertCtx State * list Event :=
  on_items (H := anthropic_converter show) show from_utf8_lossy parse_json l (start (new id model)).

(** C19: every way a converted stream can finish completes the protocol. The item at which the stream
    finishes, be it the end marker, a failure or a transport error, completes a run of the Anthropic
    event protocol with all that was sent before; and when no item finishes it, the end of the upstream
    does. *)
Theorem adapter_completes id model l i :
  (wrap_chat_stream_to_anthropic id model l).1.(finished) = false ->
  let '(c, ev) := wrap_chat_stream_to_anthropic id model (l ++ [i]) in
  if c.(finished) then p_complete ev
  else p_complete (ev ++ (on_end (H := anthropic_converter show) c).2).
Proof. apply (adapter_finishes show from_utf8_lossy parse_json). by left. Qed.
End adapter.

(** ** An example, and a flaw *)

Module Example.

Definition show (_ : Value) : string := "".
(** Frames [a] and [b] carry text. *)
Definition answer (t : string) : Value :=
  json_object [("id", VString "1"); ("model", VString "m");
               ("choices", VArray [json_object [("delta", json_object [("content", VString t)])]])].
Definition parse_json (s : string) : option Value :=
  if bool_decide (s = "a") then Some (answer "hello") else if bool_decide (s = "b") then Some (answer "late") else None.
Definition sse (d : string) : string := "data: " +:+ d +:+ newline +:+ newline.

Definition run (l : list Item) : ConvertCtx State * list Event :=
  wrap_chat_stream_to_anthropic show (fun s => s) parse_json "" "" l.

End Example.

Lemma adapter_completes_witness :
  let '(c, ev) := Example.run ([Bytes (Example.sse "a")] ++ [Bytes (Example.sse "[DONE]")]) in
  if c.(finished) then p_complete ev
  else p_complete (ev ++ (on_end (H := anthropic_converter Example.show) c).2).
Proof. apply adapter_completes. vm_compute. reflexivity. Defined.

(** A frame that follows the end marker is still converted: an increment follows message_stop. *)
Theorem events_after_stop :
  exists l, MessageStop ∈ (Example.run l).2 /\ ~ p_complete (Example.run l).2 /\
  exists i t, last (Example.run l).2 = Some (BlockDelta i KText t).
Proof.
  exists [Bytes (Example.sse "a"); Bytes (Example.sse "[DONE]"); Bytes (Example.sse "b")].
  vm_compute. split; [by repeat first [left|right]|]. split; [|by eauto].
  intros (p & H & _). discriminate.
Qed.
