(* ===== verification/ResponsesContext.v ===== *)
(** * The tools of a Responses request

[src/service/responses/tool_ctx.rs]: the tools a Responses request declares, by the name they have in
the Chat request, so that a call in the answer can be given the shape of the tool it calls. The short
SHA-256 digest is a parameter. *)

From S2P Require Import Prelude Float Json Metering Body Streams InlineThink Chat ToolMedia AnthropicResponse.
From S2P Require Import AnthropicRequest.

Inductive ToolKind : Type := Function | Custom | Namespace | ToolSearch.
#[export] Instance ToolKind_eq_dec : EqDecision ToolKind.
Proof. solve_decision. Defined.

Record ToolSpec : Type := { kind : ToolKind; spec_name : string; spec_namespace : option string }.

Record ToolContext : Type := {
  specs : gmap string ToolSpec;
  ns_lookup : gmap (string * string) string;
  bridges_web_search : bool;
}.

Definition empty_ctx : ToolContext := {| specs := ∅; ns_lookup := ∅; bridges_web_search := false |}.

Definition TOOL_SEARCH_PROXY_NAME : string := "tool_search".

Definition lookup_tool (c : ToolContext) (chat_name : string) : option ToolSpec := c.(specs) !! chat_name.

Definition responses_tool_name (tool : Value) : option string :=
  trimmed_non_empty (or_else (get "function" tool ≫= get "name") (get "name" tool) ≫= as_str).

Section context.
Variable digest16 : string -> string.

Definition flatten_namespace_tool_name (namespace name : string) : string :=
  let full := namespace +:+ "__" +:+ name in
  if (String.length full <=? CHAT_TOOL_NAME_MAX_LEN)%nat then full
  else
    let suffix := "__" +:+ digest16 full in
    take_chars (String.length full) (CHAT_TOOL_NAME_MAX_LEN - String.length suffix) full +:+ suffix.

Definition chat_name_for (c : ToolContext) (name : string) (namespace : option string) : string :=
  match namespace with
  | Some ns =>
      if str_is_empty ns then name
      else default (flatten_namespace_tool_name ns name) (c.(ns_lookup) !! (ns, name))
  | None => name
  end.

Definition add_chat_tool (chat_name : string) (spec : ToolSpec) (c : ToolContext) : ToolContext :=
  if str_is_empty (trim chat_name) || bool_decide (is_Some (c.(specs) !! chat_name)) then c
  else
    {| specs := <[chat_name := spec]> c.(specs);
       ns_lookup := match spec.(spec_namespace) with
                    | Some ns => <[(ns, spec.(spec_name)) := chat_name]> c.(ns_lookup)
                    | None => c.(ns_lookup)
                    end;
       bridges_web_search := c.(bridges_web_search) |}.

Definition add_function_tool (tool : Value) (namespace : option string) (c : ToolContext) : ToolContext :=
  match responses_tool_name tool with
  | None => c
  | Some original_name =>
      let chat_name := match namespace with
                       | Some ns => flatten_namespace_tool_name ns original_name
                       | None => original_name
                       end in
      add_chat_tool chat_name
        {| kind := match namespace with Some _ => Namespace | None => Function end;
           spec_name := original_name; spec_namespace := namespace |} c
  end.

Definition add_custom_tool (name : string) (c : ToolContext) : ToolContext :=
  add_chat_tool name {| kind := Custom; spec_name := name; spec_namespace := None |} c.

Definition add_tool_search_tool (c : ToolContext) : ToolContext :=
  add_chat_tool TOOL_SEARCH_PROXY_NAME
    {| kind := ToolSearch; spec_name := TOOL_SEARCH_PROXY_NAME; spec_namespace := None |} c.

Definition add_namespace_tool (t : Value) (c : ToolContext) : ToolContext :=
  match get_str "name" t, or_else (get "tools" t) (get "children" t) ≫= as_array with
  | Some namespace, Some children =>
      foldl (fun c child =>
               if bool_decide (get_str "type" child = Some "function")
               then add_function_tool child (Some namespace) c else c) c children
  | _, _ => c
  end.

Definition add_response_tool (c : ToolContext) (tool : Value) : ToolContext :=
  match tool with
  | VString name => let n := trim name in if str_is_empty n then c else add_custom_tool n c
  | VObject _ =>
      let ty := get_str "type" tool in
      if bool_decide (ty = Some "function") then add_function_tool tool None c
      else if bool_decide (ty = Some "custom") then
        match responses_tool_name tool with Some n => add_custom_tool n c | None => c end
      else if bool_decide (ty = Some "tool_search") then add_tool_search_tool c
      else if bool_decide (ty = Some "namespace") then add_namespace_tool tool c
      else if bool_decide (ty = Some "web_search") then
        {| specs := c.(specs); ns_lookup := c.(ns_lookup); bridges_web_search := true |}
      else c
  | _ => c
  end.

(** [collect_tool_search_output_tools]: the tools that searches have loaded, wherever they stand. *)
Fixpoint collect_tool_search_output_tools (v : Value) (c : ToolContext) {struct v} : ToolContext :=
  match v with
  | VArray items =>
      (fix go (l : list Value) (c : ToolContext) :=
         match l with [] => c | x :: l => go l (collect_tool_search_output_tools x c) end) items c
  | VObject obj =>
      let c :=
        if bool_decide (Map.get "type" obj ≫= as_str = Some "tool_search_output") then
          foldl add_response_tool c (default [] (Map.get "tools" obj ≫= as_array))
        else c in
      (fix go (m : list (string * Value)) (c : ToolContext) :=
         match m with [] => c | (_, x) :: m => go m (collect_tool_search_output_tools x c) end) obj c
  | _ => c
  end.

Definition from_request (req : Value) : ToolContext :=
  let c := foldl add_response_tool empty_ctx (default [] (get "tools" req ≫= as_array)) in
  match get "input" req with
  | Some input => collect_tool_search_output_tools input c
  | None => c
  end.

(** ** Names *)

(** Every registered name is the name its own tool is given in a Chat request. *)
Definition spec_ok (chat_name : string) (s : ToolSpec) : Prop :=
  s.(spec_name) <> "" /\
  match s.(spec_namespace) with
  | Some ns => s.(kind) = Namespace /\ chat_name = flatten_namespace_tool_name ns s.(spec_name)
  | None => s.(kind) <> Namespace /\ chat_name = s.(spec_name) /\ (s.(kind) = ToolSearch -> chat_name = TOOL_SEARCH_PROXY_NAME)
  end.
Record ctx_ok (c : ToolContext) : Prop := {
  ok_specs : map_Forall spec_ok c.(specs);
  ok_lookup : map_Forall (fun p chat => chat = flatten_namespace_tool_name p.1 p.2) c.(ns_lookup);
}.

Lemma trimmed_non_empty_some s t : trimmed_non_empty s = Some t -> t <> "".
Proof.
  unfold trimmed_non_empty. destruct s as [s|]; [|done]. cbv zeta. unfold str_is_empty. case_bool_decide; congruence.
Qed.
Lemma tool_name_some t n : responses_tool_name t = Some n -> n <> "".
Proof. apply trimmed_non_empty_some. Qed.

Lemma add_chat_tool_ok n s c : spec_ok n s -> ctx_ok c -> ctx_ok (add_chat_tool n s c).
Proof.
  intros Hs [H1 H2]. unfold add_chat_tool. destruct (_ || _); [by split|]. split; cbn.
  - by apply map_Forall_insert_2.
  - destruct (s.(spec_namespace)) as [ns|] eqn:E; [|done]. apply map_Forall_insert_2; [|done]. cbn.
    destruct Hs as [_ Hs]. rewrite E in Hs. apply Hs.
Qed.
Lemma add_function_ok t ns c : ctx_ok c -> ctx_ok (add_function_tool t ns c).
Proof.
  intros H. unfold add_function_tool. destruct (responses_tool_name t) as [n|] eqn:E; [|done].
  apply add_chat_tool_ok; [|done]. split; [by eapply tool_name_some|]. by destruct ns.
Qed.
Lemma add_custom_ok n c : n <> "" -> ctx_ok c -> ctx_ok (add_custom_tool n c).
Proof. intros Hn. by apply add_chat_tool_ok. Qed.
Lemma foldl_ok (f : ToolContext -> Value -> ToolContext) l c :
  (forall c x, ctx_ok c -> ctx_ok (f c x)) -> ctx_ok c -> ctx_ok (foldl f c l).
Proof. intros Hf. revert c. induction l as [|x l IH]; [done|]. cbn. auto. Qed.

Lemma add_response_ok c t : ctx_ok c -> ctx_ok (add_response_tool c t).
Proof.
  intros H. destruct t as [| | |name| |m]; try done; cbn [add_response_tool]; cbv zeta.
  - unfold str_is_empty. case_bool_decide as E; [done|]. by apply add_custom_ok.
  - case_bool_decide; [by apply add_function_ok|]. case_bool_decide.
    { destruct (responses_tool_name _) eqn:E; [|done]. apply add_custom_ok; [by eapply tool_name_some|done]. }
    case_bool_decide; [by apply add_chat_tool_ok|]. case_bool_decide; [|by case_bool_decide; destruct H].
    unfold add_namespace_tool. destruct (get_str "name" _); [|done]. destruct (_ ≫= as_array); [|done].
    apply foldl_ok; [|done]. intros c' x Hc. case_bool_decide; [by apply add_function_ok|done].
Qed.

Lemma collect_ok v c : ctx_ok c -> ctx_ok (collect_tool_search_output_tools v c).
Proof.
  revert c. induction v as [| | | |l IH|m IH] using value_nested_ind; try done; intros c H;
    cbn [collect_tool_search_output_tools].
  - revert c H. induction IH as [|x l Hx _ IH]; [done|]. auto.
  - set (c0 := if bool_decide _ then _ else c). assert (H0 : ctx_ok c0).
    { unfold c0. case_bool_decide; [|done]. by apply foldl_ok; [apply add_response_ok|]. }
    clearbody c0. clear H c. revert c0 H0. induction IH as [|[k x] m Hx _ IH]; [done|]. cbn in Hx. auto.
Qed.

Lemma from_request_ok req : ctx_ok (from_request req).
Proof.
  unfold from_request. cbv zeta. set (c := foldl _ _ _).
  assert (H : ctx_ok c) by (apply foldl_ok; [apply add_response_ok|done]).
  destruct (get "input" req); [by apply collect_ok|done].
Qed.

Lemma chat_name_flat c name ns :
  ctx_ok c -> ns <> "" -> chat_name_for c name (Some ns) = flatten_namespace_tool_name ns name.
Proof.
  intros H Hns. unfold chat_name_for, str_is_empty. rewrite bool_decide_false by done.
  destruct (c.(ns_lookup) !! (ns, name)) eqn:E; [|done]. exact (ok_lookup _ H _ _ E).
Qed.

(** What the client is told about a tool leads back to the tool. When the answer calls a tool by a
    name that the request's context knows, the client sees the original name and the namespace of the
    tool; a later request that repeats the call under that name and namespace is converted with the
    same Chat name again, whatever the later request itself declares. *)
Theorem tool_names_roundtrip req req' chat_name spec :
  lookup_tool (from_request req) chat_name = Some spec -> spec.(spec_namespace) <> Some "" ->
  chat_name_for (from_request req') spec.(spec_name) spec.(spec_namespace) = chat_name /\
  (spec.(spec_namespace) = None <-> spec.(kind) <> Namespace).
Proof.
  intros H Hns. destruct (ok_specs _ (from_request_ok req) _ _ H) as [_ Hs].
  destruct (spec.(spec_namespace)) as [ns|] eqn:E.
  - destruct Hs as [Hk ->]. split; [|naive_solver].
    apply chat_name_flat; [apply from_request_ok|naive_solver].
  - destruct Hs as (Hk & -> & _). done.
Qed.

(** Names in the context are at most 64 bytes long when they come from a namespace. *)
Lemma flatten_namespace_length ns name :
  (forall s, String.length (digest16 s) = 16%nat) ->
  (String.length (flatten_namespace_tool_name ns name) <= CHAT_TOOL_NAME_MAX_LEN)%nat.
Proof. apply (flatten_length digest16 (ns +:+ "__" +:+ name)). Qed.

End context.

(** ** Examples *)

Module ToolSample.
Definition digest (_ : string) : string := "0123456789abcdef".
Definition fn (name : string) : Value :=
  json_object [("type", VString "function"); ("name", VString name)].
Definition ns_tool (ns : string) (names : list string) : Value :=
  json_object [("type", VString "namespace"); ("name", VString ns); ("tools", VArray (fn <$> names))].
Definition request (tools : list Value) : Value := json_object [("tools", VArray tools)].
End ToolSample.

Lemma tool_names_roundtrip_witness :
  chat_name_for ToolSample.digest
    (from_request ToolSample.digest (ToolSample.request [])) "query" (Some "mcp") = "mcp__query" /\
  (Some "mcp" = None <-> Namespace <> Namespace).
Proof.
  exact (tool_names_roundtrip ToolSample.digest (ToolSample.request [ToolSample.ns_tool "mcp" ["query"]])
           (ToolSample.request []) "mcp__query"
           {| kind := Namespace; spec_name := "query"; spec_namespace := Some "mcp" |}
           eq_refl ltac:(discriminate)).
Defined.

(** Two tools of different namespaces can have the same Chat name; the context keeps the first, and a
    call of the second is reported to the client as a call of the first. *)
Theorem namespace_names_collide :
  let ctx := from_request ToolSample.digest
    (ToolSample.request [ToolSample.ns_tool "a" ["b__c"]; ToolSample.ns_tool "a__b" ["c"]]) in
  chat_name_for ToolSample.digest ctx "c" (Some "a__b") = "a__b__c" /\
  lookup_tool ctx "a__b__c" = Some {| kind := Namespace; spec_name := "b__c"; spec_namespace := Some "a" |}.
Proof. vm_compute. done. Qed.

(** A namespace with an empty name loses the tools it holds: their calls come back under another name. *)
Theorem empty_namespace_breaks_roundtrip :
  let ctx := from_request ToolSample.digest (ToolSample.request [ToolSample.ns_tool "" ["c"]]) in
  lookup_tool ctx "__c" = Some {| kind := Namespace; spec_name := "c"; spec_namespace := Some "" |} /\
  chat_name_for ToolSample.digest ctx "c" (Some "") = "c".
Proof. vm_compute. done. Qed.
