(* ===== verification/ResponsesOutput.v ===== *)
(** * The output side of the Responses dialect

The response, item and usage records of [src/service/responses/dto.rs] with their serialisation, and
[src/service/responses/convert_resp.rs], which converts a complete Chat response. The JSON parser and
printer are parameters. Fields that every construction site leaves empty ([quality], [size], and the
echoes of request parameters) are left out of the records. *)

From S2P Require Import Prelude Float Json Metering Body Streams InlineThink Chat AnthropicResponse.
From S2P Require Import ResponsesContext.

Local Open Scope Z_scope.

(** ** Data *)

Record SummaryPart : Type := { sp_type : string; sp_text : string; sp_annotations : option (list Value) }.
Definition summary_part (ty text : string) : SummaryPart :=
  {| sp_type := ty; sp_text := text; sp_annotations := None |}.

Record OutputContent : Type := { oc_type : string; oc_text : string; oc_refusal : string }.

Record OutputItem : Type := {
  o_type : string;
  o_id : string;
  o_status : string;
  o_role : string;
  o_content : list OutputContent;
  o_summary : list SummaryPart;
  o_call_id : option string;
  o_name : option string;
  o_namespace : option string;
  o_arguments : option Value;
  o_reasoning_content : option string;
  o_query : option string;
  o_input : option string;
  o_execution : option string;
}.

Definition output_item (ty id status : string) (content : list OutputContent) : OutputItem :=
  {| o_type := ty; o_id := id; o_status := status; o_role := ""; o_content := content; o_summary := [];
     o_call_id := None; o_name := None; o_namespace := None; o_arguments := None;
     o_reasoning_content := None; o_query := None; o_input := None; o_execution := None |}.

(** A message and a reasoning item. *)
Definition message_item (id status : string) (content : list OutputContent) : OutputItem :=
  {| o_type := "message"; o_id := id; o_status := status; o_role := "assistant"; o_content := content;
     o_summary := []; o_call_id := None; o_name := None; o_namespace := None; o_arguments := None;
     o_reasoning_content := None; o_query := None; o_input := None; o_execution := None |}.
Definition reasoning_item (id status : string) (summary : list SummaryPart) : OutputItem :=
  {| o_type := "reasoning"; o_id := id; o_status := status; o_role := ""; o_content := [];
     o_summary := summary; o_call_id := None; o_name := None; o_namespace := None; o_arguments := None;
     o_reasoning_content := None; o_query := None; o_input := None; o_execution := None |}.

Record UsageOut : Type := {
  u_prompt_tokens : Z;
  u_completion_tokens : Z;
  u_total_tokens : Z;
  u_prompt_tokens_details : Value;
  u_completion_tokens_details : Value;
  u_input_tokens : Z;
  u_output_tokens : Z;
  u_input_tokens_details : Value;
  u_output_tokens_details : Value;
}.

Record ResponseOut : Type := {
  r_id : string;
  r_created_at : Z;
  r_status : string;
  r_error : option Value;
  r_incomplete : option string;
  r_model : string;
  r_output : list OutputItem;
  r_usage : option UsageOut;
}.

(** ** Usage *)

Definition zero_prompt_details : Value :=
  json_object [("cached_tokens", of_int 0); ("text_tokens", of_int 0); ("audio_tokens", of_int 0);
               ("image_tokens", of_int 0)].
Definition zero_completion_details : Value :=
  json_object [("text_tokens", of_int 0); ("audio_tokens", of_int 0); ("image_tokens", of_int 0);
               ("reasoning_tokens", of_int 0)].

Definition nonzero (v : Value) : bool := match as_i64 v with Some n => negb (n =? 0) | None => false end.

Definition nonzero_input_details (details : option Value) : option Value :=
  match details with
  | Some (VObject m) =>
      let known k := starts_with "cached" k || starts_with "text" k || starts_with "audio" k ||
                     starts_with "image" k || bool_decide (k = "cache_write_tokens") in
      if existsb (fun kv => known kv.1 && nonzero kv.2) m then Some (VObject m) else None
  | _ => None
  end.

Definition output_details_from_chat (u : ChatUsage) : Value :=
  match default (json_object []) u.(completion_tokens_details) with
  | VObject obj =>
      VObject (if Map.contains "reasoning_tokens" obj then obj else Map.insert "reasoning_tokens" (of_int 0) obj)
  | base => base
  end.

Definition input_details_with_cache (u : ChatUsage) : option Value :=
  let cached := cached_tokens u in
  let write := cache_write_tokens u in
  match default (json_object []) (or_else u.(prompt_tokens_details) u.(input_tokens_details)) with
  | VObject obj =>
      let obj := if 0 <? cached then Map.insert "cached_tokens" (of_int cached) obj else obj in
      let obj := if 0 <? write then Map.insert "cache_write_tokens" (of_int write) obj else obj in
      if existsb (fun kv => nonzero kv.2) obj then Some (VObject obj) else None
  | _ => nonzero_input_details u.(prompt_tokens_details)
  end.

Definition usage_from_chat (u : ChatUsage) : UsageOut :=
  {| u_prompt_tokens := usage_input u; u_completion_tokens := usage_output u; u_total_tokens := usage_total u;
     u_prompt_tokens_details := default zero_prompt_details u.(prompt_tokens_details);
     u_completion_tokens_details := default zero_completion_details u.(completion_tokens_details);
     u_input_tokens := usage_input u; u_output_tokens := usage_output u;
     u_input_tokens_details :=
       default (json_object [("cached_tokens", of_int 0)]) (input_details_with_cache u);
     u_output_tokens_details := output_details_from_chat u |}.

Definition zero_usage_out : UsageOut :=
  {| u_prompt_tokens := 0; u_completion_tokens := 0; u_total_tokens := 0;
     u_prompt_tokens_details := zero_prompt_details; u_completion_tokens_details := zero_completion_details;
     u_input_tokens := 0; u_output_tokens := 0;
     u_input_tokens_details := json_object [("cached_tokens", of_int 0)];
     u_output_tokens_details := zero_completion_details |}.

Definition with_zero_usage (r : ResponseOut) : ResponseOut :=
  {| r_id := r.(r_id); r_created_at := r.(r_created_at); r_status := r.(r_status); r_error := r.(r_error);
     r_incomplete := r.(r_incomplete); r_model := r.(r_model); r_output := r.(r_output);
     r_usage := Some (default zero_usage_out r.(r_usage)) |}.

(** ** Serialisation

A structure is the object of its fields in the order of their declaration, as [serde] writes it;
[to_value] sorts the keys. *)

Definition field (k : string) (v : Value) : list (string * Value) := [(k, v)].
Definition opt_field (k : string) (v : option Value) : list (string * Value) :=
  match v with Some v => [(k, v)] | None => [] end.
Definition opt_str (k : string) (s : option string) : list (string * Value) := opt_field k (VString <$> s).

Definition part_doc (p : SummaryPart) : Value :=
  VObject (field "type" (VString p.(sp_type)) ++ field "text" (VString p.(sp_text)) ++
           opt_field "annotations" (VArray <$> p.(sp_annotations))).
Definition content_doc (c : OutputContent) : Value :=
  VObject (field "type" (VString c.(oc_type)) ++ field "text" (VString c.(oc_text)) ++
           (if str_is_empty c.(oc_refusal) then [] else field "refusal" (VString c.(oc_refusal))) ++
           field "annotations" (VArray [])).
Definition item_doc (o : OutputItem) : Value :=
  VObject
    (field "type" (VString o.(o_type)) ++
     (if str_is_empty o.(o_id) then [] else field "id" (VString o.(o_id))) ++
     field "status" (VString o.(o_status)) ++ field "role" (VString o.(o_role)) ++
     field "content" (VArray (content_doc <$> o.(o_content))) ++
     (if bool_decide (o.(o_summary) = []) then [] else field "summary" (VArray (part_doc <$> o.(o_summary)))) ++
     field "quality" (VString "") ++ field "size" (VString "") ++
     opt_str "call_id" o.(o_call_id) ++ opt_str "name" o.(o_name) ++ opt_str "namespace" o.(o_namespace) ++
     opt_field "arguments" o.(o_arguments) ++ opt_str "reasoning_content" o.(o_reasoning_content) ++
     opt_str "query" o.(o_query) ++ opt_str "input" o.(o_input) ++ opt_str "execution" o.(o_execution)).
Definition usage_doc (u : UsageOut) : Value :=
  VObject
    (field "prompt_tokens" (of_int u.(u_prompt_tokens)) ++
     field "completion_tokens" (of_int u.(u_completion_tokens)) ++
     field "total_tokens" (of_int u.(u_total_tokens)) ++
     field "prompt_tokens_details" u.(u_prompt_tokens_details) ++
     field "completion_tokens_details" u.(u_completion_tokens_details) ++
     field "input_tokens" (of_int u.(u_input_tokens)) ++ field "output_tokens" (of_int u.(u_output_tokens)) ++
     field "input_tokens_details" u.(u_input_tokens_details) ++
     field "output_tokens_details" u.(u_output_tokens_details)).
Definition response_doc (r : ResponseOut) : Value :=
  VObject
    (field "id" (VString r.(r_id)) ++ field "object" (VString "response") ++
     field "created_at" (of_int r.(r_created_at)) ++ field "status" (VString r.(r_status)) ++
     opt_field "error" r.(r_error) ++
     opt_field "incomplete_details" ((fun s => VObject [("reason", VString s)]) <$> r.(r_incomplete)) ++
     field "model" (VString r.(r_model)) ++ field "output" (VArray (item_doc <$> r.(r_output))) ++
     field "usage" (default VNull (usage_doc <$> r.(r_usage)))).
Definition to_value (doc : Value) : Value := canonical_value doc.

(** ** Arguments of tools *)

Section convert.
Context (show : Value -> string) (parse_json : string -> option Value).

Definition canonicalize_json_string_if_parseable (s : string) : string :=
  let trimmed := trim s in
  if str_is_empty trimmed then s
  else
    match parse_json trimmed with
    | Some v => if is_object v || is_array v then show (canonical_value v) else s
    | None => s
    end.

Definition arguments_string (v : Value) : string :=
  match v with VString s => s | VNull => "" | other => show other end.

Definition custom_tool_input_from_chat_arguments (arguments : string) : string :=
  if str_is_empty (trim arguments) then ""
  else
    match parse_json arguments with
    | Some (VObject obj) => default arguments (Map.get "input" obj ≫= as_str)
    | _ => arguments
    end.

Definition parse_tool_arguments_object (arguments : string) : Value :=
  if str_is_empty (trim arguments) then json_object []
  else
    match parse_json arguments with
    | Some v => if is_object v then v else json_object [("query", VString arguments)]
    | None => json_object [("query", VString arguments)]
    end.

Definition finish_reason_to_status (finish_reason : string) : string * option string :=
  let fr := trim finish_reason in
  if bool_decide (fr ∈ ["length"; "max_tokens"; "token_limit"]) then ("incomplete", Some "max_output_tokens")
  else if bool_decide (fr = "content_filter") then ("incomplete", Some "content_filter")
  else ("completed", None).

(** An item for a call of a tool. *)
Definition call_item (ty id status : string) (call_id : string) (name namespace : option string)
    (arguments : option Value) (reasoning_content input execution : option string) : OutputItem :=
  {| o_type := ty; o_id := id; o_status := status; o_role := ""; o_content := []; o_summary := [];
     o_call_id := Some call_id; o_name := name; o_namespace := namespace; o_arguments := arguments;
     o_reasoning_content := reasoning_content; o_query := None; o_input := input; o_execution := execution |}.

(** ** A complete response *)

Definition chat_tool_call_to_responses_output (ctx : ToolContext) (response_id status : string)
    (reasoning : option string) (index : nat) (tc : Value) : OutputItem :=
  let call_id := default (response_id +:+ "_call_" +:+ pretty (Z.of_nat index))
                   (trimmed_non_empty (get_str "id" tc)) in
  let tool_type := default "function" (get_str "type" tc) in
  let name := default "" (pointer_str ["function"; "name"] tc) in
  let arguments :=
    default "" ((fun a => canonicalize_json_string_if_parseable (arguments_string a)) <$>
                  pointer ["function"; "arguments"] tc) in
  let reasoning_content := match reasoning with
                           | Some r => if str_is_empty (trim r) then None else Some r
                           | None => None
                           end in
  let plain :=
    call_item (if str_is_empty tool_type || bool_decide (tool_type = "function") then "function_call" else tool_type)
      ("fc_" +:+ call_id) status call_id (Some name) None (Some (VString arguments)) reasoning_content None None in
  match lookup_tool ctx name with
  | Some spec =>
      match spec.(kind) with
      | Custom =>
          call_item "custom_tool_call" ("ctc_" +:+ call_id) status call_id (Some name) None None
            reasoning_content (Some (custom_tool_input_from_chat_arguments arguments)) None
      | ToolSearch =>
          call_item "tool_search_call" "" status call_id None None (Some (parse_tool_arguments_object arguments))
            reasoning_content None (Some "client")
      | Namespace =>
          call_item "function_call" ("fc_" +:+ call_id) status call_id (Some spec.(spec_name))
            spec.(spec_namespace) (Some (VString arguments)) reasoning_content None None
      | Function => plain
      end
  | None => plain
  end.

Definition refusal_part (p : Value) : option string :=
  if bool_decide (get_str "type" p = Some "refusal") then
    match or_else (get "refusal" p) (get "text" p) ≫= as_str with
    | Some r => if str_is_empty (trim r) then None else Some r
    | None => None
    end
  else None.

Definition extract_message_text_and_refusals (message : Value) : string * list string :=
  let '(text, refusals) :=
    match get "content" message with
    | Some (VString s) => (s, [])
    | Some (VArray parts) =>
        (concat_str ((fun p => default "" (get_str "text" p)) <$> List.filter is_text_part parts),
         omap refusal_part parts)
    | _ => ("", [])
    end in
  if str_is_empty text then (default "" (get_str "refusal" message), refusals) else (text, refusals).

Definition extract_message_reasoning (message : Value) : string :=
  match or_else (get_str "reasoning_content" message) (get_str "reasoning" message) with
  | Some r => r
  | None =>
      match get "reasoning_details" message ≫= as_array with
      | Some parts => join newline (omap (get_str "text") parts)
      | None => ""
      end
  end.

(** The reasoning, the text and the refusals of a message. *)
Definition message_parts (message : option Value) : string * string * list string :=
  let '(text, part_refusals) := default ("", []) (extract_message_text_and_refusals <$> message) in
  let reasoning := default "" (extract_message_reasoning <$> message) in
  match split_leading_think text with
  | Some (think, rest) =>
      ((if str_is_empty reasoning then think else reasoning +:+ newline +:+ think), trim rest, part_refusals)
  | None => (reasoning, text, part_refusals)
  end.

Definition refusal_content (r : string) : OutputContent := {| oc_type := "refusal"; oc_text := ""; oc_refusal := r |}.
Definition text_content (t : string) : OutputContent := {| oc_type := "output_text"; oc_text := t; oc_refusal := "" |}.

Definition message_refusal (message : option Value) : list string :=
  match message ≫= get_str "refusal" with
  | Some r => if str_is_empty (trim r) then [] else [r]
  | None => []
  end.

(** The reasoning and the message items. *)
Definition text_items (id status : string) (message : option Value) : list OutputItem :=
  let '(reasoning, text, part_refusals) := message_parts message in
  (if str_is_empty reasoning then []
   else [reasoning_item (id +:+ "_reasoning_0") status [summary_part "summary_text" reasoning]]) ++
  (if str_is_empty text && bool_decide (part_refusals = []) then []
   else [message_item (id +:+ "_msg_0") status
           (text_content text :: (refusal_content <$> message_refusal message ++ part_refusals))]).

Definition call_name (tc : Value) : option string := trimmed_non_empty (pointer_str ["function"; "name"] tc).

Definition tool_items (ctx : ToolContext) (id status : string) (reasoning : option string)
    (message : option Value) : list OutputItem * nat :=
  let calls := default [] ((message ≫= get "tool_calls") ≫= as_array) in
  (omap (fun o => o)
     (imap (fun i tc => (fun _ => chat_tool_call_to_responses_output ctx id status reasoning i tc) <$> call_name tc) calls),
   length (List.filter (fun tc => negb (bool_decide (is_Some (call_name tc)))) calls)).

Definition legacy_call (fc : Value) : option Value :=
  (fun name =>
     json_object
       [("id", VString (default "" (get_str "id" fc))); ("type", VString "function");
        ("function",
         json_object [("name", VString name);
                      ("arguments", VString (default "" (arguments_string <$> get "arguments" fc)))])])
  <$> trimmed_non_empty (get_str "name" fc).

Definition legacy_items (ctx : ToolContext) (id status : string) (reasoning : option string)
    (message : option Value) (output : list OutputItem) : list OutputItem :=
  if forallb (fun o => negb (bool_decide (o.(o_type) ∈ ["function_call"; "custom_tool_call"]))) output then
    match (message ≫= get "function_call") ≫= legacy_call with
    | Some tc => [chat_tool_call_to_responses_output ctx id status reasoning (length output) tc]
    | None => []
    end
  else [].

Definition dropped_error : Value :=
  json_object
    [("code", VString "upstream_tool_call_dropped");
     ("message", VString "upstream returned tool_calls without function name and no other output")].

Definition chat_response_out (resp : Value) (id : string) (fallback_created : Z) (ctx : ToolContext) : ResponseOut :=
  let '(status0, incomplete) :=
    finish_reason_to_status (default "" (pointer_str ["choices"; "0"; "finish_reason"] resp)) in
  let message := pointer ["choices"; "0"; "message"] resp in
  let output_status := if bool_decide (status0 = "incomplete") then "incomplete" else "completed" in
  let '(reasoning, _, _) := message_parts message in
  let attached := if str_is_empty (trim reasoning) then None else Some (trim reasoning) in
  let '(tools, dropped) := tool_items ctx id output_status attached message in
  let output := text_items id output_status message ++ tools in
  let output := output ++ legacy_items ctx id output_status attached message output in
  let failed := (0 <? dropped)%nat && bool_decide (output = []) && negb (bool_decide (status0 = "incomplete")) in
  with_zero_usage
    {| r_id := id;
       r_created_at := default fallback_created (get "created" resp ≫= as_i64);
       r_status := if failed then "failed" else status0;
       r_error := if failed then Some dropped_error else None;
       r_incomplete := incomplete;
       r_model := default "" (get_str "model" resp);
       r_output := output;
       r_usage := match get "usage" resp with
                  | Some u => if is_object u then Some (usage_from_chat (from_value_lenient u)) else None
                  | None => None
                  end |}.

Definition chat_response_to_responses (resp : Value) (id : string) (fallback_created : Z) (ctx : ToolContext) :
    result Value string :=
  Ok (to_value (response_doc (chat_response_out resp id fallback_created ctx))).

End convert.
