(* ===== verification/ResponsesRequest.v ===== *)
(** * Responses requests as Chat requests

[src/service/responses/convert_req.rs] and the request half of [src/service/responses/dto.rs]: the
conversion of a Responses request into a Chat Completions request. Reading the items of the input
threads the messages written so far, the reasoning that waits for its assistant message and the media
that wait for a user message. Parsing and printing JSON, Unicode lower-casing and the digest of a long
tool name are parameters. *)

From S2P Require Import Prelude Float Json Metering Body Streams InlineThink Chat ToolMedia AnthropicResponse.
From S2P Require Import AnthropicRequest ResponsesContext ResponsesOutput.

Local Open Scope Z_scope.

(** ** The request that is sent *)

Record FunctionOut : Type := {
  f_description : string;
  f_name : string;
  f_parameters : option Value;
  f_strict : option Value;
  f_arguments : string;
}.
(** [type] is always "function". *)
Record ToolCallOut : Type := { tc_out_id : string; tc_out_function : FunctionOut }.
Record MessageOut : Type := {
  m_role : string;
  m_content : option Value;
  m_tool_calls : list ToolCallOut;
  m_tool_call_id : option string;
  m_reasoning_content : option string;
}.

Definition nonempty_str (k s : string) : list (string * Value) := if str_is_empty s then [] else field k (VString s).
Definition nonempty_list (k : string) (l : list Value) : list (string * Value) :=
  if bool_decide (l = []) then [] else field k (VArray l).

Definition function_doc (f : FunctionOut) : Value :=
  VObject (nonempty_str "description" f.(f_description) ++ field "name" (VString f.(f_name)) ++
           opt_field "parameters" f.(f_parameters) ++ opt_field "strict" f.(f_strict) ++
           nonempty_str "arguments" f.(f_arguments)).
Definition tool_call_doc (t : ToolCallOut) : Value :=
  VObject (nonempty_str "id" t.(tc_out_id) ++ field "type" (VString "function") ++
           field "function" (function_doc t.(tc_out_function))).
Definition message_doc (m : MessageOut) : Value :=
  VObject (field "role" (VString m.(m_role)) ++ opt_field "content" m.(m_content) ++
           nonempty_list "tool_calls" (tool_call_doc <$> m.(m_tool_calls)) ++
           opt_str "tool_call_id" m.(m_tool_call_id) ++ opt_str "reasoning_content" m.(m_reasoning_content)).

Definition plain_message (role : string) (content : Value) : MessageOut :=
  {| m_role := role; m_content := Some content; m_tool_calls := []; m_tool_call_id := None; m_reasoning_content := None |}.
Definition tool_reply (call_id text : string) : MessageOut :=
  {| m_role := "tool"; m_content := Some (VString text); m_tool_calls := []; m_tool_call_id := Some call_id;
     m_reasoning_content := None |}.

(** ** Fields *)

Definition present (v : option Value) : bool := match v with Some VNull | None => false | Some _ => true end.
Definition raw_present (v : option Value) : option Value := if present v then v else None.

Definition normalize_input_role (role : option string) : string :=
  match role with
  | Some r => if bool_decide (trim r ∈ ["user"; "assistant"; "system"]) then r else "user"
  | None => "user"
  end.

Definition blank_line : string := newline +:+ newline.
Definition non_blank (o : option string) : option string :=
  match o with Some s => if blank s then None else Some s | None => None end.
(** The first of several readings that succeeds. *)
Definition first_of {A B} (f : A -> option B) (l : list A) : option B := List.hd_error (omap f l).

Definition unsupported_fields (req : Value) : list string :=
  (if present (get "conversation" req) then ["conversation"] else []) ++
  (match get_str "previous_response_id" req with
   | Some pid => if blank pid then [] else ["previous_response_id"]
   | None => []
   end) ++
  (if present (get "prompt" req) then ["prompt"] else []) ++
  (if present (get "context_management" req) then ["context_management"] else []).

Definition validate_unsupported_fields (req : Value) : result () string :=
  match unsupported_fields req with
  | [] => Ok ()
  | l => Err ("responses to chat conversion does not support stateful fields: " +:+ join ", " l +:+
              ". The Chat upstream is stateless: resend the full conversation history " +:+
              "instead of referencing a previous response (codex clients: disable " +:+
              "server-side storage, e.g. 'store' 'false' in model args)")
  end.

Definition max_tokens_fields (req : Value) (model : string) : option Z * option Z :=
  let read k := match get k req ≫= as_u64 with Some n => if n =? 0 then None else Some n | None => None end in
  let n := or_else (or_else (read "max_output_tokens") (read "max_completion_tokens")) (read "max_tokens") in
  if is_openai_o_series (last_segment model) then (n, None) else (None, n).

Definition as_f64 (v : Value) : option F64.t :=
  match v with
  | VNumber (PosInt n) | VNumber (NegInt n) => Some (F64.of_Z n)
  | VNumber (Float f) => Some f
  | _ => None
  end.

Definition normalize_function_parameters (parameters : option Value) : Value :=
  match parameters with
  | Some (VObject o) => VObject (Map.insert "type" (VString "object") o)
  | _ => json_object [("type", VString "object"); ("properties", json_object [])]
  end.

Definition request_text_to_chat_response_format (text : option Value) : result (option Value) string :=
  match raw_present text with
  | None => Ok None
  | Some (VObject m) =>
      match Map.get "format" m ≫= as_object with
      | None => Ok None
      | Some format =>
          let ty := trim (default "" (get_s "type" format)) in
          if str_is_empty ty then Ok None
          else if bool_decide (ty = "json_schema") then
            Ok (Some (json_object [("type", VString "json_schema"); ("json_schema", VObject format)]))
          else Ok (Some (json_object [("type", VString ty)]))
      end
  | Some _ => Err "invalid text config"
  end.

Definition call_id (item : Value) : string :=
  default "" (or_else (trimmed_non_empty (get_str "call_id" item)) (trimmed_non_empty (get_str "id" item))).

(** ** Reasoning *)

Definition summary_text (p : Value) : option string :=
  non_blank (match p with
             | VString s => Some s
             | VObject o => or_else (Map.get "text" o) (Map.get "content" o) ≫= as_str
             | _ => None
             end).

Definition reasoning_item_text (item : Value) : option string :=
  match first_of (fun k => non_blank (get_str k item)) ["reasoning_content"; "content"; "text"] with
  | Some s => Some s
  | None =>
      match get "summary" item with
      | Some (VString s) => non_blank (Some s)
      | Some (VArray parts) =>
          match omap summary_text parts with [] => None | texts => Some (join blank_line texts) end
      | _ => None
      end
  end.

Definition embedded_under (item : Value) (k : string) : option string :=
  match get k item with
  | Some (VString s) => non_blank (Some s)
  | Some (VObject o) => first_of (fun k => non_blank (get_s k o)) ["content"; "text"; "summary"]
  | _ => None
  end.
Definition item_embedded_reasoning (item : Value) : option string :=
  match first_of (embedded_under item) ["reasoning_content"; "reasoning"] with
  | Some s => Some s
  | None =>
      match omap (fun p => non_blank (get_str "text" p)) (default [] (get "reasoning_details" item ≫= as_array)) with
      | [] => None
      | details => Some (join newline details)
      end
  end.

Definition append_pending_reasoning (text : option string) (pending : option string) : option string :=
  match non_blank text with
  | None => pending
  | Some text => match pending with Some p => Some (p +:+ newline +:+ text) | None => Some text end
  end.

(** The last element that satisfies [p] is changed. *)
Fixpoint update_last {A} (p : A -> bool) (f : A -> A) (l : list A) : list A :=
  match l with
  | [] => []
  | x :: l' => if existsb p l' then x :: update_last p f l' else (if p x then f x else x) :: l'
  end.

Definition is_assistant (m : MessageOut) : bool := bool_decide (m.(m_role) = "assistant").
Definition with_reasoning (r : string) (m : MessageOut) : MessageOut :=
  {| m_role := m.(m_role); m_content := m.(m_content); m_tool_calls := m.(m_tool_calls);
     m_tool_call_id := m.(m_tool_call_id); m_reasoning_content := Some r |}.
Definition add_message_reasoning (r : string) (m : MessageOut) : MessageOut :=
  match non_blank m.(m_reasoning_content) with
  | Some existing => with_reasoning (existing +:+ newline +:+ r) m
  | None => with_reasoning r m
  end.
Definition attach_reasoning_to_last_assistant (reasoning : option string) (l : list MessageOut) : list MessageOut :=
  match non_blank reasoning with
  | None => l
  | Some r => update_last is_assistant (add_message_reasoning r) l
  end.

Definition TOOL_CALL_REASONING_PLACEHOLDER : string := "tool call".
Definition backfill (m : MessageOut) : MessageOut :=
  if is_assistant m && negb (bool_decide (m.(m_tool_calls) = [])) &&
     blank (default "" m.(m_reasoning_content))
  then with_reasoning TOOL_CALL_REASONING_PLACEHOLDER m else m.
Definition backfill_tool_call_reasoning_placeholders (l : list MessageOut) : list MessageOut := backfill <$> l.

(** ** Content *)

(** The parts, the text and whether all was text. *)
Definition Parts : Type := list Value * string * bool.
Definition content_part (raw : Value) (a : Parts) : Parts :=
  let '(parts, text, only) := a in
  match raw with
  | VObject part =>
      let ty := default "" (get_s "type" part) in
      if bool_decide (ty ∈ ["input_text"; "output_text"; "text"; "refusal"]) then
        let t := default "" ((if bool_decide (ty = "refusal")
                              then or_else (Map.get "refusal" part) (Map.get "text" part)
                              else Map.get "text" part) ≫= as_str) in
        if str_is_empty t then a
        else (parts ++ [json_object [("type", VString "text"); ("text", VString t)]],
              (if str_is_empty text then t else text +:+ newline +:+ t), only)
      else if bool_decide (ty ∈ ["input_image"; "input_file"; "input_audio"; "input_video"; "image_url"; "file"]) then
        match chat_media_part raw with Some media => (parts ++ [media], text, false) | None => a end
      else (parts ++ [raw], text, false)
  | other => (parts ++ [other], text, false)
  end.
Definition content_parts_to_chat_content (parts : list Value) : Value :=
  let '(parts, text, only) := foldl (fun a p => content_part p a) ([], "", true) parts in
  if only then VString text else VArray parts.
Definition input_content_to_chat_content (content : Value) : Value :=
  match content with VArray parts => content_parts_to_chat_content parts | other => other end.

(** ** Items of the input *)

(** The messages, [pending_reasoning] and [pending_media]. *)
Record Input : Type := {
  messages : list MessageOut;
  waiting_reasoning : option string;
  waiting_media : list Value;
}.
Definition no_input (l : list MessageOut) : Input := {| messages := l; waiting_reasoning := None; waiting_media := [] |}.

Definition push_message (m : MessageOut) (a : Input) : Input :=
  {| messages := a.(messages) ++ [m]; waiting_reasoning := a.(waiting_reasoning); waiting_media := a.(waiting_media) |}.
Definition wait_reasoning (text : option string) (a : Input) : Input :=
  {| messages := a.(messages); waiting_reasoning := append_pending_reasoning text a.(waiting_reasoning);
     waiting_media := a.(waiting_media) |}.
Definition attach_pending (a : Input) : Input :=
  {| messages := attach_reasoning_to_last_assistant a.(waiting_reasoning) a.(messages);
     waiting_reasoning := None; waiting_media := a.(waiting_media) |}.
Definition wait_media (l : list Value) (a : Input) : Input :=
  {| messages := a.(messages); waiting_reasoning := a.(waiting_reasoning); waiting_media := a.(waiting_media) ++ l |}.
Definition flush_pending_media (a : Input) : Input :=
  match a.(waiting_media) with
  | [] => a
  | parts =>
      {| messages := a.(messages) ++ [plain_message "user" (VArray parts)];
         waiting_reasoning := a.(waiting_reasoning); waiting_media := [] |}
  end.

Definition with_call (t : ToolCallOut) (m : MessageOut) : MessageOut :=
  {| m_role := m.(m_role); m_content := m.(m_content); m_tool_calls := m.(m_tool_calls) ++ [t];
     m_tool_call_id := m.(m_tool_call_id); m_reasoning_content := m.(m_reasoning_content) |}.
Definition empty_assistant : MessageOut :=
  {| m_role := "assistant"; m_content := None; m_tool_calls := []; m_tool_call_id := None; m_reasoning_content := None |}.
Definition append_tool_call_to_last_assistant (t : ToolCallOut) (l : list MessageOut) : list MessageOut :=
  match last l with
  | Some m => if is_assistant m then removelast l ++ [with_call t m] else l ++ [with_call t empty_assistant]
  | None => l ++ [with_call t empty_assistant]
  end.
(** [flush_pending_media], [append_tool_call_to_last_assistant], [attach_reasoning_to_last_assistant]. *)
Definition push_call (t : ToolCallOut) (a : Input) : Input :=
  let a := flush_pending_media a in
  attach_pending {| messages := append_tool_call_to_last_assistant t a.(messages);
                    waiting_reasoning := a.(waiting_reasoning); waiting_media := a.(waiting_media) |}.

Definition chat_call (id name arguments : string) : ToolCallOut :=
  {| tc_out_id := id;
     tc_out_function := {| f_description := ""; f_name := name; f_parameters := None; f_strict := None;
                           f_arguments := arguments |} |}.
Definition chat_tool (name description : string) (parameters : Value) (strict : option Value) : ToolCallOut :=
  {| tc_out_id := "";
     tc_out_function := {| f_description := description; f_name := name; f_parameters := Some parameters;
                           f_strict := strict; f_arguments := "" |} |}.

Section request.
Context (show : Value -> string) (parse_json : string -> option Value) (to_lowercase : string -> string)
        (digest16 : string -> string).

Definition instructions_text (v : Value) : string :=
  match v with
  | VString s => s
  | VArray parts => join blank_line (omap (get_str "text") parts)
  | other => show other
  end.

Definition value_to_string (v : Value) : string := match v with VString s => s | VNull => "" | other => show other end.

Definition function_call_item_to_chat_tool_call (ctx : ToolContext) (item : Value) : result ToolCallOut string :=
  let name := trim (default "" (get_str "name" item)) in
  if str_is_empty name then Err "function_call item is missing name"
  else
    let chat_name := chat_name_for digest16 ctx name (trimmed_non_empty (get_str "namespace" item)) in
    let arguments := canonicalize_json_string_if_parseable show parse_json
                       (arguments_string show (default VNull (get "arguments" item))) in
    Ok (chat_call (call_id item) chat_name (if blank arguments then "{}" else arguments)).

Definition web_search_call (item : Value) : ToolCallOut :=
  chat_call (call_id item) "web_search"
    (show (json_object [("query", VString (default "" (get_str "query" item)))])).

Definition tool_search_call_item_to_chat_tool_call (item : Value) : ToolCallOut :=
  chat_call (call_id item) TOOL_SEARCH_PROXY_NAME
    (match get "arguments" item with Some a => canonical_json_string show a | None => "{}" end).

Definition custom_tool_call_item_to_chat_tool_call (item : Value) : ToolCallOut :=
  chat_call (call_id item) (trim (default "" (get_str "name" item)))
    (canonical_json_string show (json_object [("input", default (VString "") (get "input" item))])).

(** The media of a tool's output, labelled with the call they come from. *)
Definition labelled (id : string) (media : list Value) : list Value :=
  if bool_decide (media = []) then [] else (if blank id then [] else [text_part (media_label id)]) ++ media.

(** A tool message for the output of a call; its media wait. *)
Definition push_output (output : Value) (item : Value) (a : Input) : Input :=
  let id := trim (default "" (get_str "call_id" item)) in
  let split := split_tool_output show parse_json output in
  push_message (tool_reply id split.(text)) (wait_media (labelled id split.(media)) a).

Definition tool_output_to_chat_content (item : Value) (a : Input) : Input :=
  match get "output" item with
  | None | Some VNull => push_message (tool_reply (trim (default "" (get_str "call_id" item))) "") a
  | Some output => push_output output item a
  end.

Definition item_type (item : Value) : string := trim (default "" (get_str "type" item)).

Definition message_item (item : Value) (a : Input) : Input :=
  match get "content" item with
  | None => a
  | Some content =>
      let role := normalize_input_role (get_str "role" item) in
      let content := input_content_to_chat_content content in
      if bool_decide (role = "assistant") then
        {| messages := a.(messages) ++
             [{| m_role := "assistant"; m_content := Some content; m_tool_calls := []; m_tool_call_id := None;
                 m_reasoning_content := non_blank a.(waiting_reasoning) |}];
           waiting_reasoning := None; waiting_media := a.(waiting_media) |}
      else push_message (plain_message role content) (flush_pending_media (attach_pending a))
  end.

Definition input_item_to_chat_messages (ctx : ToolContext) (item : Value) (a : Input) : result Input string :=
  let ty := item_type item in
  if bool_decide (ty = "reasoning") then Ok (wait_reasoning (reasoning_item_text item) a)
  else if bool_decide (ty = "function_call") then
    let? t := function_call_item_to_chat_tool_call ctx item in
    Ok (push_call t (wait_reasoning (item_embedded_reasoning item) a))
  else if bool_decide (ty = "web_search_call") then
    let results := match get "results" item with Some r => canonical_json_string show r | None => "" end in
    Ok (push_message (tool_reply (call_id item) results) (push_call (web_search_call item) a))
  else if bool_decide (ty = "custom_tool_call") then
    Ok (push_call (custom_tool_call_item_to_chat_tool_call item) (wait_reasoning (item_embedded_reasoning item) a))
  else if bool_decide (ty = "tool_search_call") then
    Ok (push_call (tool_search_call_item_to_chat_tool_call item) (wait_reasoning (item_embedded_reasoning item) a))
  else if bool_decide (ty = "function_call_output") then Ok (tool_output_to_chat_content item a)
  else if bool_decide (ty ∈ ["custom_tool_call_output"; "tool_search_output"]) then
    Ok (push_output (VObject (default [] (as_object item))) item a)
  else if bool_decide (ty ∈ ["input_text"; "output_text"; "input_image"; "input_file"; "input_audio"; "input_video"]) then
    Ok (push_message (plain_message (normalize_input_role (get_str "role" item)) (content_parts_to_chat_content [item]))
          (flush_pending_media (attach_pending a)))
  else Ok (message_item item a).

Fixpoint each_item (ctx : ToolContext) (items : list Value) (a : Input) : result Input string :=
  match items with
  | [] => Ok a
  | x :: items => let? a := input_item_to_chat_messages ctx x a in each_item ctx items a
  end.

Definition json_type_name (v : Value) : string :=
  match v with
  | VNull => "null" | VBool _ => "boolean" | VNumber _ => "number" | VString _ => "string"
  | VArray _ => "array" | VObject _ => "object"
  end.

Definition quoted (s : string) : string := String (Ascii.ascii_of_nat 34) (s +:+ String (Ascii.ascii_of_nat 34) "").

Definition instruction_messages (req : Value) : list MessageOut :=
  match raw_present (get "instructions" req) with
  | Some v => let t := instructions_text v in if blank t then [] else [plain_message "system" (VString t)]
  | None => []
  end.

(** The end of the input: media and reasoning that still wait. *)
Definition finish_input (a : Input) : list MessageOut := (attach_pending (flush_pending_media a)).(messages).

Definition request_messages_to_chat (ctx : ToolContext) (req : Value) : result (list MessageOut) string :=
  let start := no_input (instruction_messages req) in
  let? a :=
    match raw_present (get "input" req) with
    | None => Ok start
    | Some (VString s) => Ok (push_message (plain_message "user" (VString s)) start)
    | Some (VArray items) => each_item ctx items start
    | Some (VObject o) => input_item_to_chat_messages ctx (VObject o) start
    | Some other => Err ("unsupported responses input type " +:+ quoted (json_type_name other))
    end in
  Ok (backfill_tool_call_reasoning_placeholders (finish_input a)).
(** ** Tools *)

Definition CUSTOM_TOOL_INPUT_FIELD : string := "input".
Definition CUSTOM_TOOL_INPUT_DESCRIPTION : string :=
  "Raw string input for the original custom tool. Preserve formatting exactly and follow the original tool definition embedded in the description.".
Definition CUSTOM_TOOL_PRESERVED_METADATA_HEADING : string := "Original tool definition:".

Definition typed (ty description : string) : Value :=
  json_object [("type", VString ty); ("description", VString description)].
Definition object_schema (properties : list (string * Value)) (required : list string) : Value :=
  json_object [("type", VString "object"); ("properties", json_object properties);
               ("required", VArray (VString <$> required))].

Definition custom_tool_to_chat (name original_desc : string) (tool : Value) : ToolCallOut :=
  let embedded := CUSTOM_TOOL_PRESERVED_METADATA_HEADING +:+ newline +:+ "```json" +:+ newline +:+
                  canonical_json_string show tool +:+ "```" in
  chat_tool name (if blank original_desc then embedded else original_desc +:+ blank_line +:+ embedded)
    (object_schema [(CUSTOM_TOOL_INPUT_FIELD, typed "string" CUSTOM_TOOL_INPUT_DESCRIPTION)] [CUSTOM_TOOL_INPUT_FIELD])
    None.

(** A field of a function tool, of the nested object first. *)
Definition tool_field (t : list (string * Value)) (k : string) : option Value :=
  or_else ((Map.get "function" t ≫= as_object) ≫= Map.get k) (Map.get k t).

Definition function_tool_to_chat (ctx : ToolContext) (namespace : option string) (t : list (string * Value)) :
    option ToolCallOut :=
  let text k := default "" (value_to_string <$> tool_field t k) in
  let name := trim (text "name") in
  if str_is_empty name then None
  else Some (chat_tool (chat_name_for digest16 ctx name namespace) (text "description")
               (normalize_function_parameters (tool_field t "parameters")) (tool_field t "strict")).

Definition web_search_tool (t : list (string * Value)) : ToolCallOut :=
  chat_tool "web_search"
    (match Map.get "description" t with Some d => value_to_string d | None => "Web search tool" end)
    (object_schema [("query", typed "string" "Search query")] ["query"]) None.

Definition tool_search_tool : ToolCallOut :=
  chat_tool TOOL_SEARCH_PROXY_NAME
    "Search and load Codex tools, plugins, connectors, and MCP namespaces for the current task."
    (object_schema [("query", typed "string" "Search query for tools or connectors to load.");
                    ("limit", typed "integer" "Maximum number of tool groups to return.")] ["query"]) None.

Definition namespace_tools (ctx : ToolContext) (t : list (string * Value)) : list ToolCallOut :=
  match trimmed_non_empty (get_s "name" t), or_else (Map.get "tools" t) (Map.get "children" t) ≫= as_array with
  | Some namespace, Some children => omap (function_tool_to_chat ctx (Some namespace)) (omap as_object children)
  | _, _ => []
  end.

Definition convert_response_tool (ctx : ToolContext) (tool : Value) : result (list ToolCallOut) string :=
  match tool with
  | VString name =>
      let n := trim name in Ok (if str_is_empty n then [] else [custom_tool_to_chat n "" tool])
  | VObject t =>
      let ty := trim (default "" (get_s "type" t)) in
      Ok (if bool_decide (ty = "web_search") then [web_search_tool t]
          else if bool_decide (ty = "tool_search") then [tool_search_tool]
          else if bool_decide (ty = "namespace") then namespace_tools ctx t
          else if bool_decide (ty = "function") || str_is_empty ty then option_list (function_tool_to_chat ctx None t)
          else if bool_decide (ty = "custom") then
            let name := trim (default "" (value_to_string <$> Map.get "name" t)) in
            if str_is_empty name then []
            else [custom_tool_to_chat name (default "" (value_to_string <$> Map.get "description" t)) tool]
          else [])
  | _ => Err "invalid tools"
  end.

Fixpoint convert_response_tools (ctx : ToolContext) (l : list Value) : result (list ToolCallOut) string :=
  match l with
  | [] => Ok []
  | t :: l =>
      let? a := convert_response_tool ctx t in
      let? b := convert_response_tools ctx l in
      Ok (a ++ b)
  end.

Definition request_tools_to_chat (ctx : ToolContext) (tools : option Value) : result (list ToolCallOut) string :=
  match raw_present tools with
  | None => Ok []
  | Some (VArray l) => convert_response_tools ctx l
  | Some _ => Err "invalid tools"
  end.

Definition named_choice (chat_name : string) : Value :=
  json_object [("type", VString "function"); ("function", json_object [("name", VString chat_name)])].

Definition request_tool_choice_to_chat (ctx : ToolContext) (tool_choice : option Value) : result (option Value) string :=
  match raw_present tool_choice with
  | None => Ok None
  | Some (VString s) => Ok (Some (VString s))
  | Some (VObject m as tc) =>
      let ty := default "" (get_s "type" m) in
      let name := trim (default "" (get_s "name" m)) in
      Ok (Some
        (if bool_decide (ty = "function") then
           if str_is_empty name then tc
           else named_choice (chat_name_for digest16 ctx name (trimmed_non_empty (get_s "namespace" m)))
         else if bool_decide (ty = "custom") then
           if str_is_empty name then tc else named_choice name
         else if bool_decide (ty = "tool_search") then named_choice TOOL_SEARCH_PROXY_NAME
         else tc))
  | Some _ => Err "invalid tool_choice"
  end.

(** ** The whole request *)

Definition reasoning_effort (req : Value) (gating_model : string) : option string :=
  match get "reasoning" req ≫= get_str "effort" with
  | Some e =>
      if str_is_empty e || negb (supports_reasoning_effort to_lowercase gating_model) then None
      else Some (if effort_is_off e then "none" else e)
  | None => None
  end.

Definition non_empty_text (k : string) (req : Value) : option string :=
  match get_str k req with Some s => if str_is_empty s then None else Some s | None => None end.

(** Fields that are passed on when they are there and not null. *)
Definition passed (req : Value) (ks : list string) : list (string * Value) :=
  concat ((fun k => opt_field k (raw_present (get k req))) <$> ks).
Definition float_field (k : string) (req : Value) : list (string * Value) :=
  opt_field k ((fun f => VNumber (Float f)) <$> (get k req ≫= as_f64)).

(** [ChatRequestOut], with its fields in order. *)
Definition chat_request_doc (req : Value) (gating_model model : string) (msgs : list MessageOut)
    (tools : list ToolCallOut) (tool_choice response_format : option Value) : Value :=
  let '(max_completion_tokens, max_tokens) := max_tokens_fields req gating_model in
  VObject
    (field "model" (VString model) ++ nonempty_list "messages" (message_doc <$> msgs) ++
     opt_field "stream" (VBool <$> (get "stream" req ≫= as_bool)) ++ passed req ["stream_options"] ++
     opt_field "max_completion_tokens" (of_int <$> max_completion_tokens) ++
     opt_field "max_tokens" (of_int <$> max_tokens) ++
     float_field "temperature" req ++ float_field "top_p" req ++
     opt_field "response_format" response_format ++ nonempty_list "tools" (tool_call_doc <$> tools) ++
     opt_field "tool_choice" tool_choice ++
     (if bool_decide (tools = []) then [] else
        opt_field "parallel_tool_calls" (VBool <$> (get "parallel_tool_calls" req ≫= as_bool))) ++
     passed req ["user"; "store"; "metadata"] ++ opt_str "reasoning_effort" (reasoning_effort req gating_model) ++
     passed req ["frequency_penalty"; "logit_bias"; "logprobs"; "top_logprobs"; "n"; "presence_penalty"; "seed"; "stop"] ++
     opt_str "service_tier" (non_empty_text "service_tier" req) ++
     passed req ["safety_identifier"; "prompt_cache_retention"] ++
     opt_str "prompt_cache_key" (non_empty_text "prompt_cache_key" req) ++
     passed req ["enable_thinking"; "thinking_budget"]).

Definition responses_request_to_chat (req : Value) (gating_model : string) : result Value string :=
  let model := trim (default "" (get_str "model" req)) in
  if str_is_empty model then Err "model is required"
  else
    let? _ := validate_unsupported_fields req in
    let ctx := from_request digest16 req in
    let? msgs := request_messages_to_chat ctx req in
    let? tools := request_tools_to_chat ctx (get "tools" req) in
    let? tool_choice := if bool_decide (tools = []) then Ok None
                        else request_tool_choice_to_chat ctx (get "tool_choice" req) in
    let? format := request_text_to_chat_response_format (get "text" req) in
    let response_format := or_else format (raw_present (get "response_format" req)) in
    Ok (to_value (chat_request_doc req gating_model model msgs tools tool_choice response_format)).
End request.
