(* ===== verification/ResponsesTraffic.v ===== *)
(** * What becomes of a Responses request

Theorems on [ResponsesRequest]: the calls of tools and their outputs reach the upstream, the tools
offered are acceptable, which requests are refused, and calls survive the round trip through the
client. *)

From S2P Require Import Prelude Float Json Metering Body Streams InlineThink Chat ToolMedia AnthropicResponse.
From S2P Require Import AnthropicRequest ResponsesContext ResponsesOutput ResponsesRequest.

Local Open Scope Z_scope.

(** ** What becomes of calls and their outputs *)

(** A call of a tool, or the output of one, in the order of the conversation. *)
Inductive Traffic : Type := Called (id name arguments : string) | Replied (id text : string).


(** The same of the messages under construction. *)
Definition called (t : ToolCallOut) : Traffic :=
  Called t.(tc_out_id) t.(tc_out_function).(f_name) t.(tc_out_function).(f_arguments).

Definition message_traffic (m : MessageOut) : list Traffic :=
  match m.(m_tool_call_id), m.(m_content) with
  | Some id, Some (VString t) => [Replied id t]
  | _, _ => []
  end ++ (called <$> m.(m_tool_calls)).
Definition traffic (l : list MessageOut) : list Traffic := concat (message_traffic <$> l).

Lemma traffic_app l1 l2 : traffic (l1 ++ l2) = traffic l1 ++ traffic l2.
Proof. unfold traffic. by rewrite fmap_app, concat_app. Qed.
Lemma traffic_plain l role v : traffic (l ++ [plain_message role v]) = traffic l.
Proof. rewrite traffic_app. apply app_nil_r. Qed.

Lemma traffic_reply l id t : traffic (l ++ [tool_reply id t]) = traffic l ++ [Replied id t].
Proof. by rewrite traffic_app. Qed.

Lemma traffic_update p f l : (forall m, message_traffic (f m) = message_traffic m) -> traffic (update_last p f l) = traffic l.
Proof.
  intros Hf. induction l as [|m l IH]; [done|]. cbn. destruct (existsb p l); unfold traffic in *; cbn; [by rewrite IH|].
  destruct (p m); [by rewrite Hf|done].
Qed.
Lemma traffic_reasoning r m : message_traffic (add_message_reasoning r m) = message_traffic m.
Proof. unfold add_message_reasoning. by destruct (non_blank _). Qed.
Lemma traffic_attach r l : traffic (attach_reasoning_to_last_assistant r l) = traffic l.
Proof.
  unfold attach_reasoning_to_last_assistant. destruct (non_blank r); [|done]. apply traffic_update, traffic_reasoning.
Qed.
Lemma traffic_with_call t m : message_traffic (with_call t m) = message_traffic m ++ [called t].
Proof. unfold message_traffic. cbn. by rewrite fmap_app, app_assoc. Qed.
Lemma traffic_call t l : traffic (append_tool_call_to_last_assistant t l) = traffic l ++ [called t].
Proof.
  unfold append_tool_call_to_last_assistant. destruct l as [|m l _] using rev_ind; [done|].
  rewrite last_snoc. destruct (is_assistant m); [|by rewrite traffic_app].
  rewrite removelast_last, !traffic_app. unfold traffic. cbn [fmap list_fmap concat].
  by rewrite traffic_with_call, !app_nil_r, app_assoc.
Qed.
Lemma traffic_flush a : traffic (messages (flush_pending_media a)) = traffic (messages a).
Proof. unfold flush_pending_media. destruct (waiting_media a); [done|]. apply traffic_plain. Qed.
Lemma traffic_push_call t a : traffic (messages (push_call t a)) = traffic (messages a) ++ [called t].
Proof. unfold push_call. cbn [attach_pending messages]. by rewrite traffic_attach, traffic_call, traffic_flush. Qed.
Lemma traffic_attached a : traffic (messages (flush_pending_media (attach_pending a))) = traffic (messages a).
Proof. rewrite traffic_flush. apply traffic_attach. Qed.

Section traffic.
Context (show : Value -> string) (parse_json : string -> option Value) (to_lowercase : string -> string)
        (digest16 : string -> string).

(** What an item says of the tools, by its fields. The id of a call is its [call_id], or its [id]; that
    of an output is its [call_id]. A function is called under the name it is offered upstream by, with
    its arguments in canonical form, if it has any; a custom tool with an object of its input; a tool
    search with its arguments; a web search with its query, and its results are the output. *)
Definition said_id (item : Value) : string :=
  match trimmed_non_empty (get_str "call_id" item) with
  | Some id => id
  | None => default "" (trimmed_non_empty (get_str "id" item))
  end.
Definition output_id (item : Value) : string := trim (default "" (get_str "call_id" item)).
Definition said_name (item : Value) : string := trim (default "" (get_str "name" item)).
Definition said_arguments (item : Value) : string :=
  let args := match get "arguments" item with
              | None | Some VNull => ""
              | Some (VString s) => s
              | Some v => show v
              end in
  let args := canonicalize_json_string_if_parseable show parse_json args in
  if str_is_empty (trim args) then "{}" else args.
Definition said_output (v : Value) : string := text (split_tool_output show parse_json v).

Definition item_traffic (ctx : ToolContext) (item : Value) : list Traffic :=
  let ty := trim (default "" (get_str "type" item)) in
  if bool_decide (ty = "function_call") then
    if str_is_empty (said_name item) then []
    else [Called (said_id item)
                 (chat_name_for digest16 ctx (said_name item) (trimmed_non_empty (get_str "namespace" item)))
                 (said_arguments item)]
  else if bool_decide (ty = "web_search_call") then
    [Called (said_id item) "web_search" (show (json_object [("query", VString (default "" (get_str "query" item)))]));
     Replied (said_id item) (match get "results" item with Some r => show (canonical_value r) | None => "" end)]
  else if bool_decide (ty = "custom_tool_call") then
    [Called (said_id item) (said_name item)
            (show (canonical_value (json_object [("input", default (VString "") (get "input" item))])))]
  else if bool_decide (ty = "tool_search_call") then
    [Called (said_id item) TOOL_SEARCH_PROXY_NAME
            (match get "arguments" item with Some a => show (canonical_value a) | None => "{}" end)]
  else if bool_decide (ty = "function_call_output") then
    [Replied (output_id item)
             (match get "output" item with None | Some VNull => "" | Some v => said_output v end)]
  else if bool_decide (ty = "custom_tool_call_output") || bool_decide (ty = "tool_search_output") then
    [Replied (output_id item) (said_output (VObject (default [] (as_object item))))]
  else [].

Lemma said_id_spec item : call_id item = said_id item.
Proof. unfold call_id, said_id. by destruct (trimmed_non_empty (get_str "call_id" item)). Qed.
Lemma function_call_said ctx item :
  match function_call_item_to_chat_tool_call show parse_json digest16 ctx item with
  | Ok t => str_is_empty (said_name item) = false /\
      called t = Called (said_id item)
                   (chat_name_for digest16 ctx (said_name item) (trimmed_non_empty (get_str "namespace" item)))
                   (said_arguments item)
  | Err _ => str_is_empty (said_name item) = true
  end.
Proof.
  unfold function_call_item_to_chat_tool_call. cbv zeta. fold (said_name item).
  destruct (str_is_empty (said_name item)); [done|]. split; [done|]. unfold called. cbn.
  rewrite said_id_spec. f_equal. unfold said_arguments, arguments_string, blank. by destruct (get "arguments" item) as [[]|].
Qed.

Lemma message_item_traffic item a : traffic (messages (message_item item a)) = traffic (messages a).
Proof.
  unfold message_item. destruct (get "content" item) as [c|]; [|done]. cbv zeta. case_bool_decide.
  - cbn [messages]. rewrite traffic_app. apply app_nil_r.
  - cbn [push_message messages]. by rewrite traffic_plain, traffic_attached.
Qed.

Lemma item_step_traffic ctx item a a' :
  input_item_to_chat_messages show parse_json digest16 ctx item a = Ok a' ->
  traffic (messages a') = traffic (messages a) ++ item_traffic ctx item.
Proof.
  unfold input_item_to_chat_messages, item_traffic. cbv zeta. fold (item_type item). set (ty := item_type item). clearbody ty.
  case_bool_decide as E0; [intros [= <-]; subst ty; by rewrite app_nil_r|].
  case_bool_decide.
  { pose proof (function_call_said ctx item) as Hf. destruct (function_call_item_to_chat_tool_call _ _ _ _ _); [|done].
    destruct Hf as [-> <-]. intros [= <-]. by rewrite traffic_push_call. }
  rewrite <-said_id_spec. case_bool_decide.
  { intros [= <-]. cbn [push_message messages]. by rewrite traffic_app, traffic_push_call, <-app_assoc. }
  case_bool_decide; [intros [= <-]; by rewrite traffic_push_call|].
  case_bool_decide; [intros [= <-]; by rewrite traffic_push_call|].
  case_bool_decide.
  { intros [= <-]. unfold tool_output_to_chat_content, said_output, output_id. destruct (get "output" item) as [[]|];
      unfold push_output; cbn [push_message wait_media messages]; rewrite traffic_reply; reflexivity. }
  assert (Eo : bool_decide (ty ∈ ["custom_tool_call_output"; "tool_search_output"]) =
    bool_decide (ty = "custom_tool_call_output") || bool_decide (ty = "tool_search_output")).
  { clear. rewrite <-bool_decide_or. apply bool_decide_ext. rewrite !elem_of_cons, elem_of_nil. tauto. }
  rewrite <-Eo. clear Eo.
  case_bool_decide.
  { intros [= <-]. unfold push_output, said_output, output_id. cbn [push_message wait_media messages].
    rewrite traffic_reply. reflexivity. }
  rewrite app_nil_r.
  case_bool_decide; intros [= <-]; [|apply message_item_traffic].
  cbn [push_message messages]. by rewrite traffic_plain, traffic_attached.
Qed.



End traffic.

(** ** Reading the fields of a structure *)

(** The last binding of a key in a list of fields. *)
Fixpoint last_get (k : string) (l : list (string * Value)) : option Value :=
  match l with
  | [] => None
  | (k', v) :: l => or_else (last_get k l) (if String.eqb k k' then Some v else None)
  end.

Lemma last_get_app k l1 l2 : last_get k (l1 ++ l2) = or_else (last_get k l2) (last_get k l1).
Proof. induction l1 as [|[k' v] l1 IH]; cbn; [by destruct (last_get k l2)|]. rewrite IH. by destruct (last_get k l2). Qed.

Lemma get_of_list k l : Map.get k (Map.of_list l) = last_get k l.
Proof.
  unfold Map.of_list. enough (forall acc, Map.get k (foldl (fun m kv => Map.insert kv.1 kv.2 m) acc l) =
                                          or_else (last_get k l) (Map.get k acc)) as -> by by destruct (last_get k l).
  induction l as [|[k' v] l IH]; intros acc; [done|]. cbn. rewrite IH. destruct (last_get k l); [done|]. cbn.
  rewrite Map.get_insert. destruct (String.eqb_spec k k'); by case_bool_decide.
Qed.

Lemma get_to_value k l : get k (to_value (VObject l)) = canonical_value <$> last_get k l.
Proof.
  unfold to_value. rewrite canonical_object. cbn [get]. rewrite get_of_list.
  induction l as [|[k' v] l IH]; [done|]. cbn. rewrite IH. destruct (last_get k l); [done|]. cbn. by destruct (String.eqb k k').
Qed.

Lemma last_get_opt k k' o : last_get k (opt_field k' o) = if String.eqb k k' then o else None.
Proof. destruct o; cbn; [done|by destruct (String.eqb k k')]. Qed.
Lemma last_get_opt_str k k' o : last_get k (opt_str k' o) = if String.eqb k k' then VString <$> o else None.
Proof. apply last_get_opt. Qed.
Lemma last_get_str k k' s :
  last_get k (nonempty_str k' s) = if String.eqb k k' then if str_is_empty s then None else Some (VString s) else None.
Proof. unfold nonempty_str. destruct (str_is_empty s); cbn; by destruct (String.eqb k k'). Qed.
Lemma last_get_list {A} k k' (f : A -> Value) l :
  last_get k (nonempty_list k' (f <$> l)) =
  if String.eqb k k' then match l with [] => None | _ => Some (VArray (f <$> l)) end else None.
Proof. unfold nonempty_list. destruct l; cbn; by destruct (String.eqb k k'). Qed.
Lemma last_get_passed k req ks : existsb (String.eqb k) ks = false -> last_get k (passed req ks) = None.
Proof.
  unfold passed. induction ks as [|k' ks IH]; [done|]. intros [H1 H2]%orb_false_iff. cbn.
  by rewrite last_get_app, (IH H2), last_get_opt, H1.
Qed.
Lemma last_get_if k (b : bool) l1 l2 : last_get k (if b then l1 else l2) = if b then last_get k l1 else last_get k l2.
Proof. by destruct b. Qed.

Lemma fmap_to_value {A} (f : A -> Value) (l : list A) : (fun x => to_value (f x)) <$> l = canonical_value <$> (f <$> l).
Proof. induction l as [|x l IH]; [done|]. cbn [fmap list_fmap]. by rewrite <-IH. Qed.

(** A field of a structure whose fields are a list of groups. *)
Ltac read_fields :=
  rewrite get_to_value, !last_get_app; unfold float_field;
  rewrite ?last_get_if, ?last_get_opt_str, ?last_get_str, ?last_get_list, ?last_get_opt, ?last_get_passed by reflexivity;
  cbn -[to_value canonical_value message_doc tool_call_doc fmap list_fmap].

Section answer.
Context (show : Value -> string) (parse_json : string -> option Value) (to_lowercase : string -> string)
        (digest16 : string -> string).
Implicit Types (msgs : list MessageOut) (tools : list ToolCallOut).


Lemma doc_tools req gm model msgs tools tc rf :
  let out := to_value (chat_request_doc to_lowercase req gm model msgs tools tc rf) in
  get "tools" out = (if bool_decide (tools = []) then None else Some (VArray ((fun t => to_value (tool_call_doc t)) <$> tools))) /\
  get "tool_choice" out = canonical_value <$> tc /\
  (tools = [] -> get "parallel_tool_calls" out = None).
Proof.
  unfold chat_request_doc. destruct (max_tokens_fields req gm). cbv zeta. split; [|split].
  - read_fields. rewrite fmap_to_value. destruct tools; done.
  - read_fields. destruct tools, tc; done.
  - intros ->. by read_fields.
Qed.






(** The parts of an accepted request. *)
Lemma accepted req gm out :
  responses_request_to_chat show parse_json to_lowercase digest16 req gm = Ok out ->
  let ctx := from_request digest16 req in
  exists model msgs tools tc rf,
    request_messages_to_chat show parse_json digest16 ctx req = Ok msgs /\
    request_tools_to_chat show digest16 ctx (get "tools" req) = Ok tools /\
    (if bool_decide (tools = []) then tc = None
     else request_tool_choice_to_chat digest16 ctx (get "tool_choice" req) = Ok tc) /\
    out = to_value (chat_request_doc to_lowercase req gm model msgs tools tc rf).
Proof.
  unfold responses_request_to_chat. cbv zeta. destruct (str_is_empty _); [done|].
  destruct (validate_unsupported_fields req) as [[]|]; [|done].
  destruct (request_messages_to_chat _ _ _ _ _) as [msgs|]; [|done].
  destruct (request_tools_to_chat _ _ _ _) as [tools|]; [|done].
  case_bool_decide as E.
  - destruct (request_text_to_chat_response_format _) as [f|]; [|done]. intros [= <-].
    eexists _, msgs, tools, None, _. rewrite bool_decide_true by done. done.
  - destruct (request_tool_choice_to_chat _ _ _) as [tc|]; [|done].
    destruct (request_text_to_chat_response_format _) as [f|]; [|done]. intros [= <-].
    eexists _, msgs, tools, tc, _. rewrite bool_decide_false by done. done.
Qed.


(** ** Tools *)

Definition acceptable (t : ToolCallOut) : Prop :=
  t.(tc_out_function).(f_name) <> "" /\
  exists o, t.(tc_out_function).(f_parameters) = Some (VObject o) /\ Map.get "type" o = Some (VString "object").

Lemma flatten_not_empty ns name : flatten_namespace_tool_name digest16 ns name <> "".
Proof.
  unfold flatten_namespace_tool_name. cbv zeta. destruct (_ <=? _)%nat.
  - destruct ns; [done|]. by intros [=].
  - generalize (take_chars (String.length (ns +:+ "__" +:+ name))
                  (CHAT_TOOL_NAME_MAX_LEN - String.length ("__" +:+ digest16 (ns +:+ "__" +:+ name))) (ns +:+ "__" +:+ name)).
    intros a. by destruct a.
Qed.
Lemma chat_name_not_empty ctx name ns :
  ctx_ok digest16 ctx -> name <> "" -> chat_name_for digest16 ctx name ns <> "".
Proof.
  intros Hc Hn. destruct ns as [ns|]; [|done]. destruct (decide (ns = "")) as [->|Hns]; [done|].
  rewrite chat_name_flat by done. apply flatten_not_empty.
Qed.

Lemma chat_tool_acceptable name d o strict :
  name <> "" -> Map.get "type" o = Some (VString "object") -> acceptable (chat_tool name d (VObject o) strict).
Proof. intros Hn Ho. split; [done|]. by exists o. Qed.

Lemma function_tool_acceptable ctx ns t c :
  ctx_ok digest16 ctx -> function_tool_to_chat show digest16 ctx ns t = Some c -> acceptable c.
Proof.
  intros Hc. unfold function_tool_to_chat. cbv zeta. unfold str_is_empty. case_bool_decide as E; [done|]. intros [= <-].
  unfold normalize_function_parameters. destruct (tool_field t "parameters") as [[]|];
    apply chat_tool_acceptable; try done; try by apply chat_name_not_empty. apply Map.get_insert_eq.
Qed.
Lemma custom_tool_acceptable name d t : name <> "" -> acceptable (custom_tool_to_chat show name d t).
Proof. intros Hn. by apply chat_tool_acceptable. Qed.

Lemma tool_acceptable ctx t l : ctx_ok digest16 ctx -> convert_response_tool show digest16 ctx t = Ok l -> Forall acceptable l.
Proof.
  intros Hc. destruct t as [| | |s| |m]; try done; cbn [convert_response_tool]; cbv zeta; intros [= <-].
  - unfold str_is_empty. case_bool_decide; [done|]. apply Forall_singleton. by apply custom_tool_acceptable.
  - case_bool_decide; [apply Forall_singleton; by apply chat_tool_acceptable|].
    case_bool_decide; [apply Forall_singleton; by apply chat_tool_acceptable|]. case_bool_decide.
    { unfold namespace_tools. destruct (trimmed_non_empty _) as [ns|]; [|done]. destruct (_ ≫= as_array) as [ch|]; [|done].
      apply Forall_forall. intros c Hin. apply list_elem_of_omap in Hin as (x & _ & Hx). by eapply function_tool_acceptable. }
    destruct (bool_decide _ || _).
    { destruct (function_tool_to_chat _ _ _ _ _) eqn:E; [|done]. apply Forall_singleton. by eapply function_tool_acceptable. }
    case_bool_decide; [|done]. unfold str_is_empty. case_bool_decide; [done|]. apply Forall_singleton. by apply custom_tool_acceptable.
Qed.

Lemma tools_acceptable_list ctx v l :
  ctx_ok digest16 ctx -> request_tools_to_chat show digest16 ctx v = Ok l -> Forall acceptable l.
Proof.
  intros Hc. unfold request_tools_to_chat. destruct (raw_present v) as [[]|]; try done; [|by intros [= <-]].
  revert l. induction items as [|t ts IH]; intros l; cbn; [by intros [= <-]|].
  destruct (convert_response_tool _ _ _ t) as [a|] eqn:E; [|done].
  destruct (convert_response_tools _ _ _ ts) as [b|]; [|done]. intros [= <-]. apply Forall_app. split; [|by apply IH].
  by eapply tool_acceptable.
Qed.

(** The tools that are offered are ones a strict upstream accepts. In an accepted request every tool
    has a name and parameters that are the schema of an object, whatever form it was declared in; and
    when no tool is offered, no choice of a tool and no parallel calls are asked for. *)
Theorem responses_tools_acceptable req gm out :
  responses_request_to_chat show parse_json to_lowercase digest16 req gm = Ok out ->
  match get "tools" out with
  | None => get "tool_choice" out = None /\ get "parallel_tool_calls" out = None
  | Some v => exists l, l <> [] /\ v = VArray ((fun t => to_value (tool_call_doc t)) <$> l) /\ Forall acceptable l
  end.
Proof.
  intros (model & msgs & tools & tc & rf & _ & Ht & Hc & ->)%accepted.
  destruct (doc_tools req gm model msgs tools tc rf) as (-> & -> & Hp). case_bool_decide as E.
  - subst tc. split; [done|]. by apply Hp.
  - exists tools. split_and!; [done..|]. eapply tools_acceptable_list, Ht. apply from_request_ok.
Qed.

(** ** Refusals *)

Definition unnamed_call (item : Value) : bool :=
  bool_decide (item_type item = "function_call") && blank (default "" (get_str "name" item)).
Definition readable_input (req : Value) : bool :=
  match get "input" req with
  | Some (VBool _ | VNumber _) => false
  | Some (VArray l) => negb (existsb unnamed_call l)
  | Some (VObject o) => negb (unnamed_call (VObject o))
  | _ => true
  end.
Definition readable_tool (t : Value) : bool := match t with VString _ | VObject _ => true | _ => false end.
Definition readable_tools (req : Value) : bool :=
  match get "tools" req with None | Some VNull => true | Some (VArray l) => forallb readable_tool l | _ => false end.
Definition readable_choice (req : Value) : bool :=
  match get "tool_choice" req with None | Some (VNull | VString _ | VObject _) => true | _ => false end.
Definition readable_text (req : Value) : bool :=
  match get "text" req with None | Some (VNull | VObject _) => true | _ => false end.

Definition offers_no_tool (req : Value) : bool :=
  match request_tools_to_chat show digest16 (from_request digest16 req) (get "tools" req) with Ok [] => true | _ => false end.

Lemma item_ok ctx item a :
  is_ok (input_item_to_chat_messages show parse_json digest16 ctx item a) = negb (unnamed_call item).
Proof.
  unfold input_item_to_chat_messages, unnamed_call. cbv zeta. set (ty := item_type item). clearbody ty.
  case_bool_decide as E0; [by rewrite E0|]. case_bool_decide as E1; cbn [andb].
  { unfold function_call_item_to_chat_tool_call, blank. cbv zeta. by destruct (str_is_empty (trim _)). }
  repeat case_bool_decide; done.
Qed.
Lemma each_item_ok ctx items a :
  is_ok (each_item show parse_json digest16 ctx items a) = negb (existsb unnamed_call items).
Proof.
  revert a. induction items as [|x l IH]; intros a; [done|]. cbn [each_item existsb]. rewrite negb_orb.
  pose proof (item_ok ctx x a) as Hx. destruct (input_item_to_chat_messages _ _ _ _ _ _) as [a1|];
    cbn in Hx; rewrite <-Hx; [apply IH|done].
Qed.
Lemma messages_ok ctx req :
  is_ok (request_messages_to_chat show parse_json digest16 ctx req) = readable_input req.
Proof.
  unfold request_messages_to_chat, readable_input. cbv zeta.
  destruct (get "input" req) as [[| | | |l|o]|];
    cbn -[each_item input_item_to_chat_messages finish_input unnamed_call]; try done.
  - rewrite <-(each_item_ok ctx l (no_input (instruction_messages show req))). by destruct (each_item _ _ _ _ _ _).
  - rewrite <-(item_ok ctx (VObject o) (no_input (instruction_messages show req))).
    by destruct (input_item_to_chat_messages _ _ _ _ _ _).
Qed.
Lemma tools_ok ctx req : is_ok (request_tools_to_chat show digest16 ctx (get "tools" req)) = readable_tools req.
Proof.
  unfold request_tools_to_chat, readable_tools. destruct (get "tools" req) as [[| | | |l|]|]; try done.
  cbn [raw_present present]. induction l as [|t l IH]; [done|]. cbn.
  destruct t; try done; cbn; rewrite <-IH; by destruct (convert_response_tools _ _ _ l).
Qed.

(** C23: a request is refused exactly when it cannot be converted: it names no model, it refers to state
    the upstream does not keep, its input is a number or a boolean or has a function call without a
    name, its tools are not a list of names and objects, it offers tools and its choice among them is
    neither a string nor an object, or its text configuration is no object. *)
Theorem responses_request_accepted_iff req gm :
  is_ok (responses_request_to_chat show parse_json to_lowercase digest16 req gm) =
  negb (blank (default "" (get_str "model" req))) && bool_decide (unsupported_fields req = []) &&
  readable_input req && readable_tools req &&
  (offers_no_tool req || readable_choice req) && readable_text req.
Proof.
  unfold responses_request_to_chat, offers_no_tool. cbv zeta. fold (blank (default "" (get_str "model" req))).
  destruct (blank _); [done|]. unfold validate_unsupported_fields.
  destruct (unsupported_fields req) as [|f l]; [|by rewrite bool_decide_false]. rewrite bool_decide_true by done. cbn [negb andb].
  set (ctx := from_request digest16 req). rewrite <-(messages_ok ctx req), <-(tools_ok ctx req).
  destruct (request_messages_to_chat _ _ _ _ _) as [msgs|]; [|done]. cbn [is_ok andb].
  destruct (request_tools_to_chat _ _ _ _) as [tools|]; [|done]. cbn [is_ok andb].
  assert (Ht : is_ok (request_text_to_chat_response_format (get "text" req)) = readable_text req).
  { unfold request_text_to_chat_response_format, readable_text. destruct (get "text" req) as [[]|]; try done. cbn.
    destruct (Map.get "format" m ≫= as_object); [|done]. destruct (str_is_empty _); [done|]. by case_bool_decide. }
  assert (Hc : is_ok (request_tool_choice_to_chat digest16 ctx (get "tool_choice" req)) = readable_choice req).
  { unfold request_tool_choice_to_chat, readable_choice. by destruct (get "tool_choice" req) as [[]|]. }
  rewrite <-Ht, <-Hc. destruct tools as [|t ts].
  - cbn. by destruct (request_text_to_chat_response_format _).
  - rewrite bool_decide_false by done. destruct (request_tool_choice_to_chat _ _ _); [|done]. cbn.
    by destruct (request_text_to_chat_response_format _).
Qed.
End answer.

(** ** Calls that come back *)

Lemma item_doc_fields o :
  let d := to_value (item_doc o) in
  get_str "type" d = Some o.(o_type) /\ get_str "call_id" d = o.(o_call_id) /\ get_str "name" d = o.(o_name) /\
  get_str "namespace" d = o.(o_namespace) /\ get "arguments" d = canonical_value <$> o.(o_arguments) /\
  get "input" d = VString <$> o.(o_input).
Proof.
  unfold item_doc, get_str. cbv zeta. split_and!; read_fields.
  all: destruct (bool_decide (o_summary o = [])), (str_is_empty (o_id o));
    destruct (o_call_id o), (o_name o), (o_namespace o), (o_arguments o), (o_input o); done.
Qed.

Section roundtrip.
Context (show : Value -> string) (parse_json : string -> option Value) (digest16 : string -> string).

(** A call as the upstream makes it. *)
Definition upstream_call (id name args : string) : Value :=
  json_object [("id", VString id); ("type", VString "function");
               ("function", json_object [("name", VString name); ("arguments", VString args)])].

(** Printing an object gives a text without surrounding space that reads back as the object. *)
Definition prints (v : Value) : Prop := parse_json (show v) = Some v /\ trim (show v) = show v /\ show v <> "".

Lemma canonicalize_printed o :
  wf (VObject o) -> prints (VObject o) ->
  canonicalize_json_string_if_parseable show parse_json (show (VObject o)) = show (VObject o).
Proof.
  intros Hw (H1 & H2 & H3). unfold canonicalize_json_string_if_parseable, str_is_empty. rewrite H2, bool_decide_false, H1 by done.
  cbn [is_object orb]. by rewrite (proj1 (proj2 (canonical_form (VObject o))) Hw).
Qed.

Lemma upstream_fields id name args :
  get_str "id" (upstream_call id name args) = Some id /\ get_str "type" (upstream_call id name args) = Some "function" /\
  pointer_str ["function"; "name"] (upstream_call id name args) = Some name /\
  pointer ["function"; "arguments"] (upstream_call id name args) = Some (VString args).
Proof. done. Qed.

Lemma trimmed_id id : id <> "" -> trim id = id -> trimmed_non_empty (Some id) = Some id.
Proof. intros Hn Ht. unfold trimmed_non_empty, str_is_empty. by rewrite Ht, bool_decide_false. Qed.

(** An item for a function call comes back as the call. *)
Lemma function_call_back ctx fc st id name ns args rc :
  id <> "" -> trim id = id -> name <> "" -> trim name = name ->
  (forall n, ns = Some n -> n <> "" /\ trim n = n) ->
  canonicalize_json_string_if_parseable show parse_json args = args -> blank args = false ->
  item_traffic show parse_json digest16 ctx
    (to_value (item_doc (call_item "function_call" fc st id (Some name) ns (Some (VString args)) rc None None))) =
  [Called id (chat_name_for digest16 ctx name ns) args].
Proof.
  intros Hid Hid' Hn Hn' Hns Ha Hb. set (o := call_item _ _ _ _ _ _ _ _ _ _).
  destruct (item_doc_fields o) as (F1 & F2 & F3 & F4 & F5 & _).
  unfold item_traffic. rewrite F1. cbv zeta. rewrite bool_decide_true by done.
  unfold said_name, said_id, said_arguments. rewrite F2, F3, F4, F5.
  change (o_name o) with (Some name). change (o_namespace o) with ns. change (o_arguments o) with (Some (VString args)).
  change (o_call_id o) with (Some id). rewrite (trimmed_id id Hid Hid').
  cbn [default from_option fmap option_fmap option_map canonical_value]. unfold Datatypes.id. rewrite Hn', Ha.
  fold (blank args). rewrite Hb. unfold str_is_empty. rewrite bool_decide_false by done. do 2 f_equal.
  destruct ns as [n|]; [|done]. destruct (Hns n eq_refl). by rewrite trimmed_id.
Qed.

Lemma custom_call_back ctx fc st id name s rc :
  id <> "" -> trim id = id -> trim name = name ->
  item_traffic show parse_json digest16 ctx
    (to_value (item_doc (call_item "custom_tool_call" fc st id (Some name) None None rc (Some s) None))) =
  [Called id name (show (VObject [("input", VString s)]))].
Proof.
  intros Hid Hid' Hn'. set (o := call_item _ _ _ _ _ _ _ _ _ _).
  destruct (item_doc_fields o) as (F1 & F2 & F3 & _ & _ & F6).
  unfold item_traffic. rewrite F1. cbv zeta. change (trim (default "" (Some (o_type o)))) with "custom_tool_call".
  cbn [bool_decide]. unfold said_name, said_id. rewrite F2, F3, F6.
  change (o_call_id o) with (Some id). change (o_name o) with (Some name). change (o_input o) with (Some s).
  rewrite (trimmed_id id Hid Hid'). cbn [default from_option]. unfold Datatypes.id. by rewrite Hn'.
Qed.

Lemma search_call_back ctx fc st id o rc :
  id <> "" -> trim id = id -> wf (VObject o) ->
  item_traffic show parse_json digest16 ctx
    (to_value (item_doc (call_item "tool_search_call" fc st id None None (Some (VObject o)) rc None (Some "client")))) =
  [Called id TOOL_SEARCH_PROXY_NAME (show (VObject o))].
Proof.
  intros Hid Hid' Hw. set (i := call_item _ _ _ _ _ _ _ _ _ _).
  destruct (item_doc_fields i) as (F1 & F2 & _ & _ & F5 & _).
  unfold item_traffic. rewrite F1. cbv zeta. change (trim (default "" (Some (o_type i)))) with "tool_search_call".
  cbn [bool_decide]. unfold said_id. rewrite F2, F5.
  change (o_call_id i) with (Some id). change (o_arguments i) with (Some (VObject o)).
  pose proof (proj1 (proj2 (canonical_form (VObject o))) Hw) as Hc. cbn [fmap option_fmap option_map]. rewrite Hc.
  rewrite (trimmed_id id Hid Hid'). by rewrite Hc.
Qed.

(** What a tool must be like for its calls to come back: the arguments of a custom tool are the object
    its schema asks for, and the names of a name space carry no surrounding space. *)
Definition returnable (spec : option ToolSpec) (o : list (string * Value)) : Prop :=
  match spec with
  | Some spec =>
      match spec.(kind) with
      | Custom => exists s, o = [("input", VString s)]
      | Namespace =>
          trim spec.(spec_name) = spec.(spec_name) /\
          forall ns, spec.(spec_namespace) = Some ns -> ns <> "" /\ trim ns = ns
      | Function | ToolSearch => True
      end
  | None => True
  end.

Lemma call_item_back req req' rid st r i id name o :
  id <> "" -> trim id = id -> name <> "" -> trim name = name -> wf (VObject o) -> prints (VObject o) ->
  returnable (lookup_tool (from_request digest16 req) name) o ->
  item_traffic show parse_json digest16 (from_request digest16 req')
    (to_value (item_doc (chat_tool_call_to_responses_output show parse_json (from_request digest16 req) rid st r i
       (upstream_call id name (show (VObject o)))))) =
  [Called id name (show (VObject o))].
Proof.
  intros Hid Hid' Hn Hn' Hw Hp Hr. cbv zeta. unfold chat_tool_call_to_responses_output. cbv zeta.
  destruct (upstream_fields id name (show (VObject o))) as (-> & -> & -> & ->).
  rewrite (trimmed_id id Hid Hid'). cbn [default from_option fmap option_fmap option_map arguments_string]. unfold Datatypes.id.
  cbn [arguments_string]. rewrite (canonicalize_printed o Hw Hp). destruct Hp as (P1 & P2 & P3).
  assert (Hb : blank (show (VObject o)) = false) by (unfold blank, str_is_empty; by rewrite P2, bool_decide_false).
  assert (Hplain : forall ns, (forall n, ns = Some n -> n <> "" /\ trim n = n) -> forall name', name' <> "" -> trim name' = name' ->
    forall rc, item_traffic show parse_json digest16 (from_request digest16 req')
      (to_value (item_doc (call_item "function_call" ("fc_" +:+ id) st id (Some name') ns (Some (VString (show (VObject o)))) rc None None))) =
    [Called id (chat_name_for digest16 (from_request digest16 req') name' ns) (show (VObject o))]).
  { intros ns Hns name' Hx Hy rc. apply function_call_back; try done. by apply canonicalize_printed. }
  destruct (lookup_tool _ name) as [spec|] eqn:El; [|by apply Hplain].
  destruct (ok_specs _ _ (from_request_ok digest16 req) _ _ El) as [Hs1 Hs2]. cbn in Hr.
  destruct (kind spec) eqn:Ek; [by apply Hplain|..].
  - destruct Hr as [s ->]. unfold custom_tool_input_from_chat_arguments. fold (blank (show (VObject [("input", VString s)]))).
    rewrite Hb, P1. by apply custom_call_back.
  - destruct (spec_namespace spec) as [ns|]; [|by destruct Hs2]. destruct Hr as [Hr1 Hr2]. destruct Hs2 as [_ ->].
    rewrite Hplain by done. rewrite chat_name_flat; [done|apply from_request_ok|by apply Hr2].
  - unfold parse_tool_arguments_object. fold (blank (show (VObject o))). rewrite Hb, P1. cbn [is_object].
    destruct (spec_namespace spec) as [ns|]; [by destruct Hs2|]. destruct Hs2 as (_ & _ & ->); [|done]. by apply search_call_back.
Qed.

(** C22: a call of a tool survives the round trip through the client. The upstream calls a tool with an
    object in canonical form as arguments, under an id and a name that are not empty and carry no surrounding space; the
    client is sent an item for the call and sends it back in the input of a later request: the item is
    accepted, and the messages to the upstream then hold one call more, with the same id, the same name
    and the same arguments, whatever the later request declares. The tool may be a function, the proxy
    of a tool search, one of a name space (when neither its name nor that of the space carries
    surrounding space and the space is not empty), or a custom tool, provided its arguments are exactly
    the object with one text [input] that the schema offered for it asks for; the arguments are printed
    so that they read back. *)
Theorem tool_call_roundtrip req req' rid st r i id name o a :
  id <> "" -> trim id = id -> name <> "" -> trim name = name -> wf (VObject o) -> prints (VObject o) ->
  returnable (lookup_tool (from_request digest16 req) name) o ->
  let call := upstream_call id name (show (VObject o)) in
  let item := chat_tool_call_to_responses_output show parse_json (from_request digest16 req) rid st r i call in
  exists a', input_item_to_chat_messages show parse_json digest16 (from_request digest16 req') (to_value (item_doc item)) a =
      Ok a' /\
    traffic (messages a') = traffic (messages a) ++ [Called id name (show (VObject o))].
Proof.
  intros Hid Hid' Hn Hn' Hw Hp Hr. cbv zeta.
  pose proof (call_item_back req req' rid st r i id name o Hid Hid' Hn Hn' Hw Hp Hr) as E.
  set (item := to_value _) in *. set (ctx := from_request digest16 req') in *.
  pose proof (item_ok show parse_json digest16 ctx item a) as Hok.
  destruct (input_item_to_chat_messages _ _ _ ctx item a) as [a'|] eqn:Ea.
  - exists a'. split; [done|]. by rewrite (item_step_traffic _ _ _ _ _ _ _ Ea), E.
  - symmetry in Hok. apply negb_false_iff, andb_true_iff in Hok as [Ht Hb]. apply bool_decide_eq_true in Ht.
    unfold item_traffic in E. fold (item_type item) in E. rewrite Ht in E. cbv zeta in E.
    rewrite bool_decide_true in E by done. unfold said_name in E. unfold blank in Hb. by rewrite Hb in E.
Qed.
End roundtrip.

(** ** Examples, and flaws *)

Module RequestSample.
Definition args : list (string * Value) := [("query", VString "x")].
Definition show (v : Value) : string := if bool_decide (get_str "query" v = Some "x") then "{q}" else "?".
Definition parse (s : string) : option Value := if bool_decide (s = "{q}") then Some (VObject args) else None.
Definition lower (s : string) : string := s.
Definition digest (_ : string) : string := "0123456789abcdef".
Definition message (role text : string) : Value :=
  json_object [("type", VString "message"); ("role", VString role); ("content", VString text)].
Definition call : Value :=
  json_object [("type", VString "function_call"); ("call_id", VString "call_1"); ("name", VString "f"); ("arguments", VString "{q}")].
Definition output : Value :=
  json_object [("type", VString "function_call_output"); ("call_id", VString "call_1"); ("output", VString "done")].
Definition tool (ns : string) : Value :=
  json_object [("type", VString "namespace"); ("name", VString ns);
               ("tools", VArray [json_object [("type", VString "function"); ("name", VString "f")]])].
Definition request (items tools : list Value) : Value :=
  json_object [("model", VString "m"); ("input", VArray items); ("tools", VArray tools)].
Definition convert (req : Value) : result Value string := responses_request_to_chat show parse lower digest req "m".
Definition converted (req : Value) : Value := match convert req with Ok v => v | Err _ => VNull end.
Definition conversation : Value := request [message "user" "hi"; call; output] [tool "mcp"].
End RequestSample.


Lemma responses_tools_acceptable_witness :
  match get "tools" (RequestSample.converted RequestSample.conversation) with
  | None => False
  | Some v => exists l, l <> [] /\ v = VArray ((fun t => to_value (tool_call_doc t)) <$> l) /\ Forall acceptable l
  end.
Proof.
  exact (responses_tools_acceptable RequestSample.show RequestSample.parse RequestSample.lower RequestSample.digest
           RequestSample.conversation "m" (RequestSample.converted RequestSample.conversation) eq_refl).
Defined.

Lemma tool_call_roundtrip_witness :
  exists a',
    input_item_to_chat_messages RequestSample.show RequestSample.parse RequestSample.digest
      (from_request RequestSample.digest (RequestSample.request [] []))
      (to_value (item_doc (chat_tool_call_to_responses_output RequestSample.show RequestSample.parse
         (from_request RequestSample.digest RequestSample.conversation) "resp_1" "completed" None 0
         (upstream_call "call_1" "mcp__f" "{q}")))) (no_input []) = Ok a' /\
    traffic (messages a') = [Called "call_1" "mcp__f" "{q}"].
Proof.
  refine (tool_call_roundtrip RequestSample.show RequestSample.parse RequestSample.digest RequestSample.conversation
           (RequestSample.request [] []) "resp_1" "completed" None 0 "call_1" "mcp__f" RequestSample.args (no_input []) _ _ _ _ _ _ _).
  - discriminate.
  - reflexivity.
  - discriminate.
  - reflexivity.
  - vm_compute. repeat split; repeat constructor.
  - split; [reflexivity|split; [reflexivity|discriminate]].
  - split; [reflexivity|]. intros ns [= <-]. split; [discriminate|reflexivity].
Defined.

(** A role with white space around it is recognised and yet sent as it is; a message of the assistant is
    then not treated as one. *)
Theorem spaced_role_sent :
  normalize_input_role (Some " assistant ") = " assistant " /\
  exists m, get "messages" (RequestSample.converted (RequestSample.request [RequestSample.message " assistant " "hi"] [])) =
    Some (VArray [m]) /\ get_str "role" m = Some " assistant ".
Proof. split; [reflexivity|]. eexists. split; vm_compute; reflexivity. Qed.

(** A name space with white space around its name is offered under the trimmed name, and calls of its
    tools are not recognised in the answer. *)
Theorem spaced_namespace_not_recognised :
  let req := RequestSample.request [] [RequestSample.tool " mcp "] in
  (exists t, get "tools" (RequestSample.converted req) = Some (VArray [t]) /\
             (get "function" t ≫= get_str "name") = Some "mcp__f") /\
  lookup_tool (from_request RequestSample.digest req) "mcp__f" = None.
Proof. split; [eexists; split; vm_compute; reflexivity|]. vm_compute. reflexivity. Qed.
