(* ===== verification/ResponsesStream.v ===== *)
(** * The Responses stream state machine

[ChatToResponsesStreamState] of [src/service/responses/stream.rs]: Chat chunks are turned into the
events of a Responses stream. The flat fields of the source are grouped: [Head] identifies the
response, [Slot] is the message and the reasoning item (index, started, done, text), [Verdict] is what
decides the terminal event. The map of tool calls is a hash map in the source; every traversal of it
is in the order of the keys or independent of the order, except the search of a call by its id, whose
choice among several calls with that id is the parameter [pick]. The JSON parser and printer are
parameters. *)

From S2P Require Import Prelude Float Json Metering Body Streams Machine InlineThink Chat AnthropicResponse.
From S2P Require Import ResponsesContext ResponsesOutput.

Local Open Scope Z_scope.

(** ** Events *)

Inductive TerminalKind : Type := Completed | Incomplete | Failed.

Inductive Event : Type :=
| Created (r : ResponseOut)
| InProgress (r : ResponseOut)
| ItemAdded (output_index : Z) (item : OutputItem)
| ItemDone (output_index : Z) (item : OutputItem)
| ContentPartAdded (output_index : Z) (item_id : string) (part : SummaryPart)
| ContentPartDone (output_index : Z) (item_id : string) (part : SummaryPart)
| TextDelta (output_index : Z) (item_id : string) (delta : string)
| TextDone (output_index : Z) (item_id : string) (text : string)
| SummaryPartAdded (output_index : Z) (item_id : string) (part : SummaryPart)
| SummaryPartDone (output_index : Z) (item_id : string) (part : SummaryPart)
| SummaryDelta (output_index : Z) (item_id : string) (delta : string)
| SummaryDone (output_index : Z) (item_id : string) (part : SummaryPart) (text : string)
| ArgsDelta (output_index : Z) (item_id : string) (delta : string)
| ArgsDone (output_index : Z) (item_id : string) (arguments : string)
| InputDelta (output_index : Z) (item_id : string) (delta : string)
| InputDone (output_index : Z) (item_id : string) (input : string)
| Terminal (k : TerminalKind) (r : ResponseOut).

Definition event_type (e : Event) : string :=
  match e with
  | Created _ => "response.created"
  | InProgress _ => "response.in_progress"
  | ItemAdded _ _ => "response.output_item.added"
  | ItemDone _ _ => "response.output_item.done"
  | ContentPartAdded _ _ _ => "response.content_part.added"
  | ContentPartDone _ _ _ => "response.content_part.done"
  | TextDelta _ _ _ => "response.output_text.delta"
  | TextDone _ _ _ => "response.output_text.done"
  | SummaryPartAdded _ _ _ => "response.reasoning_summary_part.added"
  | SummaryPartDone _ _ _ => "response.reasoning_summary_part.done"
  | SummaryDelta _ _ _ => "response.reasoning_summary_text.delta"
  | SummaryDone _ _ _ _ => "response.reasoning_summary_text.done"
  | ArgsDelta _ _ _ => "response.function_call_arguments.delta"
  | ArgsDone _ _ _ => "response.function_call_arguments.done"
  | InputDelta _ _ _ => "response.custom_tool_call_input.delta"
  | InputDone _ _ _ => "response.custom_tool_call_input.done"
  | Terminal Completed _ => "response.completed"
  | Terminal Incomplete _ => "response.incomplete"
  | Terminal Failed _ => "response.failed"
  end.

(** The fields of an event after its type, in the order of [ResponsesStreamEventOut]. *)
Definition event_fields (e : Event) : list (string * Value) :=
  match e with
  | Created r | InProgress r | Terminal _ r => field "response" (response_doc r)
  | ItemAdded i o | ItemDone i o => field "item" (item_doc o) ++ field "output_index" (of_int i)
  | ContentPartAdded i id p | ContentPartDone i id p =>
      field "output_index" (of_int i) ++ field "content_index" (of_int 0) ++ field "item_id" (VString id) ++
      field "part" (part_doc p)
  | TextDelta i id d =>
      field "delta" (VString d) ++ field "output_index" (of_int i) ++ field "content_index" (of_int 0) ++
      field "item_id" (VString id)
  | TextDone i id t =>
      field "output_index" (of_int i) ++ field "content_index" (of_int 0) ++ field "item_id" (VString id) ++
      field "text" (VString t)
  | SummaryPartAdded i id p | SummaryPartDone i id p =>
      field "output_index" (of_int i) ++ field "summary_index" (of_int 0) ++ field "item_id" (VString id) ++
      field "part" (part_doc p)
  | SummaryDelta i id d =>
      field "delta" (VString d) ++ field "output_index" (of_int i) ++ field "summary_index" (of_int 0) ++
      field "item_id" (VString id)
  | SummaryDone i id p t =>
      field "output_index" (of_int i) ++ field "summary_index" (of_int 0) ++ field "item_id" (VString id) ++
      field "part" (part_doc p) ++ field "text" (VString t)
  | ArgsDelta i id d | InputDelta i id d =>
      field "delta" (VString d) ++ field "output_index" (of_int i) ++ field "item_id" (VString id)
  | ArgsDone i id a =>
      field "output_index" (of_int i) ++ field "item_id" (VString id) ++ field "arguments" (VString a)
  | InputDone i id a =>
      field "output_index" (of_int i) ++ field "item_id" (VString id) ++ field "input" (VString a)
  end.

Definition sse_frame (show : Value -> string) (e : Event) : string :=
  "event: " +:+ event_type e +:+ newline +:+ "data: " +:+
  show (VObject (field "type" (VString (event_type e)) ++ event_fields e)) +:+ newline +:+ newline.

(** ** State *)

Inductive OutputRef : Type := RMessage | RReasoning | RTool (chat_index : Z).

Record ChatTool : Type := {
  output_index : Z;
  tool_id : string;
  tool_name : string;
  arguments : string;
  reasoning_content : string;
  bridged : bool;
  custom : bool;
  tool_search : bool;
  orig_name : option string;
  namespace : option string;
  started : bool;
  released : bool;
  pending_args : string;
  tool_done : bool;
}.

Definition new_tool : ChatTool :=
  {| output_index := -1; tool_id := ""; tool_name := ""; arguments := ""; reasoning_content := "";
     bridged := false; custom := false; tool_search := false; orig_name := None; namespace := None;
     started := false; released := false; pending_args := ""; tool_done := false |}.

Record Head : Type := {
  resp_id : string;
  resp_model : string;
  resp_created : Z;
  resp_usage : option ChatUsage;
  sent_created : bool;
}.

Record Verdict : Type := {
  status : string;
  incomplete_details : option string;
  failed_error : option Value;
  finish_reason_seen : bool;
  finalized : bool;
}.

Record Slot : Type := { slot_index : Z; slot_started : bool; slot_done : bool; slot_text : string }.
Definition new_slot : Slot := {| slot_index := -1; slot_started := false; slot_done := false; slot_text := "" |}.

Abbreviation tool_map := (list (Z * ChatTool)).

Record State : Type := {
  head : Head;
  verdict : Verdict;
  message : Slot;
  reasoning : Slot;
  next_output_index : Z;
  output_order : list OutputRef;
  tools : tool_map;
  last_tool_key : option Z;
  dropped_tools : nat;
  inline_think : InlineThinkState;
  tool_ctx : ToolContext;
}.

(** [ChatToResponsesStreamState::new]; the clock is an argument. *)
Definition new (id model : string) (now : Z) (ctx : ToolContext) : State :=
  {| head := {| resp_id := id; resp_model := model; resp_created := now; resp_usage := None; sent_created := false |};
     verdict := {| status := "completed"; incomplete_details := None; failed_error := None;
                   finish_reason_seen := false; finalized := false |};
     message := new_slot; reasoning := new_slot; next_output_index := 0; output_order := []; tools := [];
     last_tool_key := None; dropped_tools := 0; inline_think := InlineThink.new; tool_ctx := ctx |}.

Definition set_head (h : Head) (s : State) : State :=
  {| head := h; verdict := s.(verdict); message := s.(message); reasoning := s.(reasoning);
     next_output_index := s.(next_output_index); output_order := s.(output_order); tools := s.(tools);
     last_tool_key := s.(last_tool_key); dropped_tools := s.(dropped_tools); inline_think := s.(inline_think);
     tool_ctx := s.(tool_ctx) |}.
Definition set_verdict (v : Verdict) (s : State) : State :=
  {| head := s.(head); verdict := v; message := s.(message); reasoning := s.(reasoning);
     next_output_index := s.(next_output_index); output_order := s.(output_order); tools := s.(tools);
     last_tool_key := s.(last_tool_key); dropped_tools := s.(dropped_tools); inline_think := s.(inline_think);
     tool_ctx := s.(tool_ctx) |}.
Definition set_message (m : Slot) (s : State) : State :=
  {| head := s.(head); verdict := s.(verdict); message := m; reasoning := s.(reasoning);
     next_output_index := s.(next_output_index); output_order := s.(output_order); tools := s.(tools);
     last_tool_key := s.(last_tool_key); dropped_tools := s.(dropped_tools); inline_think := s.(inline_think);
     tool_ctx := s.(tool_ctx) |}.
Definition set_reasoning (r : Slot) (s : State) : State :=
  {| head := s.(head); verdict := s.(verdict); message := s.(message); reasoning := r;
     next_output_index := s.(next_output_index); output_order := s.(output_order); tools := s.(tools);
     last_tool_key := s.(last_tool_key); dropped_tools := s.(dropped_tools); inline_think := s.(inline_think);
     tool_ctx := s.(tool_ctx) |}.
Definition set_tools (m : tool_map) (s : State) : State :=
  {| head := s.(head); verdict := s.(verdict); message := s.(message); reasoning := s.(reasoning);
     next_output_index := s.(next_output_index); output_order := s.(output_order); tools := m;
     last_tool_key := s.(last_tool_key); dropped_tools := s.(dropped_tools); inline_think := s.(inline_think);
     tool_ctx := s.(tool_ctx) |}.
Definition set_last_key (k : Z) (s : State) : State :=
  {| head := s.(head); verdict := s.(verdict); message := s.(message); reasoning := s.(reasoning);
     next_output_index := s.(next_output_index); output_order := s.(output_order); tools := s.(tools);
     last_tool_key := Some k; dropped_tools := s.(dropped_tools); inline_think := s.(inline_think);
     tool_ctx := s.(tool_ctx) |}.
Definition count_dropped (s : State) : State :=
  {| head := s.(head); verdict := s.(verdict); message := s.(message); reasoning := s.(reasoning);
     next_output_index := s.(next_output_index); output_order := s.(output_order); tools := s.(tools);
     last_tool_key := s.(last_tool_key); dropped_tools := S s.(dropped_tools); inline_think := s.(inline_think);
     tool_ctx := s.(tool_ctx) |}.
Definition set_think (t : InlineThinkState) (s : State) : State :=
  {| head := s.(head); verdict := s.(verdict); message := s.(message); reasoning := s.(reasoning);
     next_output_index := s.(next_output_index); output_order := s.(output_order); tools := s.(tools);
     last_tool_key := s.(last_tool_key); dropped_tools := s.(dropped_tools); inline_think := t;
     tool_ctx := s.(tool_ctx) |}.

(** [next_index]: the index it returns is [next_output_index] of the state before. *)
Definition next_index (r : OutputRef) (s : State) : State :=
  {| head := s.(head); verdict := s.(verdict); message := s.(message); reasoning := s.(reasoning);
     next_output_index := s.(next_output_index) + 1; output_order := s.(output_order) ++ [r]; tools := s.(tools);
     last_tool_key := s.(last_tool_key); dropped_tools := s.(dropped_tools); inline_think := s.(inline_think);
     tool_ctx := s.(tool_ctx) |}.

Notation op := (Machine.op State Event).

Definition message_id (s : State) : string := s.(head).(resp_id) +:+ "_msg_0".
Definition reasoning_id (s : State) : string := s.(head).(resp_id) +:+ "_reasoning_0".
Definition output_status (s : State) : string :=
  if bool_decide (s.(verdict).(status) = "incomplete") then "incomplete" else "completed".

(** ** Text and reasoning *)

Definition push_text (d : string) (m : Slot) : Slot :=
  {| slot_index := m.(slot_index); slot_started := m.(slot_started); slot_done := m.(slot_done);
     slot_text := m.(slot_text) +:+ d |}.
Definition mark_done (m : Slot) : Slot :=
  {| slot_index := m.(slot_index); slot_started := m.(slot_started); slot_done := true; slot_text := m.(slot_text) |}.
Definition annotated (p : SummaryPart) : SummaryPart :=
  {| sp_type := p.(sp_type); sp_text := p.(sp_text); sp_annotations := Some [] |}.

Definition start_text : op := fun s =>
  if s.(message).(slot_started) then (s, [])
  else
    let i := s.(next_output_index) in
    let s := set_message {| slot_index := i; slot_started := true; slot_done := s.(message).(slot_done);
                            slot_text := s.(message).(slot_text) |} (next_index RMessage s) in
    (s, [ItemAdded i (message_item (message_id s) "in_progress" []);
         ContentPartAdded i (message_id s) (annotated (summary_part "output_text" ""))]).

Definition append_text_delta (d : string) : op :=
  start_text ;;;
  (fun s => let s := set_message (push_text d s.(message)) s in
            (s, [TextDelta s.(message).(slot_index) (message_id s) d])).

(** Opens the reasoning item; one closed by a tool call is opened again at its index. *)
Definition start_reasoning : op := fun s =>
  let reopen := s.(reasoning).(slot_done) in
  if negb s.(reasoning).(slot_started) || reopen then
    let i := if reopen then s.(reasoning).(slot_index) else s.(next_output_index) in
    let s := if reopen then s else next_index RReasoning s in
    let s := set_reasoning {| slot_index := i; slot_started := true; slot_done := false;
                              slot_text := s.(reasoning).(slot_text) |} s in
    (s, [ItemAdded i (reasoning_item (reasoning_id s) "in_progress" []);
         SummaryPartAdded i (reasoning_id s) (summary_part "summary_text" "")])
  else (s, []).

Definition add_reasoning (d : string) (t : ChatTool) : ChatTool :=
  {| output_index := t.(output_index); tool_id := t.(tool_id); tool_name := t.(tool_name);
     arguments := t.(arguments); reasoning_content := t.(reasoning_content) +:+ d; bridged := t.(bridged);
     custom := t.(custom); tool_search := t.(tool_search); orig_name := t.(orig_name); namespace := t.(namespace);
     started := t.(started); released := t.(released); pending_args := t.(pending_args); tool_done := t.(tool_done) |}.

Definition append_reasoning_delta (d : string) : op :=
  start_reasoning ;;;
  (fun s =>
     let s := set_reasoning (push_text d s.(reasoning)) s in
     let s := set_tools ((fun kt => (kt.1, if kt.2.(started) then add_reasoning d kt.2 else kt.2)) <$> s.(tools)) s in
     (s, [SummaryDelta s.(reasoning).(slot_index) (reasoning_id s) d])).

Definition message_output (st : string) (s : State) : OutputItem :=
  message_item (message_id s) st [text_content s.(message).(slot_text)].
Definition reasoning_output (st : string) (s : State) : OutputItem :=
  reasoning_item (reasoning_id s) st [summary_part "summary_text" s.(reasoning).(slot_text)].

(** The events that close the reasoning item. *)
Definition reasoning_done_events (st : string) (s : State) : list Event :=
  let r := s.(reasoning) in
  let p := summary_part "summary_text" r.(slot_text) in
  [SummaryDone r.(slot_index) (reasoning_id s) p r.(slot_text);
   SummaryPartDone r.(slot_index) (reasoning_id s) p;
   ItemDone r.(slot_index) (reasoning_output st s)].

Definition close_reasoning_for_tool_call (s : State) : State * list Event * option string :=
  if negb s.(reasoning).(slot_started) || s.(reasoning).(slot_done) then (s, [], None)
  else
    let s := set_reasoning (mark_done s.(reasoning)) s in
    let t := trim s.(reasoning).(slot_text) in
    (s, reasoning_done_events "completed" s, if str_is_empty t then None else Some t).

(** ** Tool calls *)

Section machine.
Context (show : Value -> string) (parse_json : string -> option Value) (pick : list Z -> option Z).

Definition parse_web_search_query (args : string) : option string := parse_json args ≫= get_str "query".

Definition tool_output_item (t : ChatTool) (st : string) : OutputItem :=
  let rc := if str_is_empty (trim t.(reasoning_content)) then None else Some (trim t.(reasoning_content)) in
  let args := canonicalize_json_string_if_parseable show parse_json t.(arguments) in
  if t.(bridged) then
    {| o_type := "web_search_call"; o_id := t.(tool_id); o_status := st; o_role := ""; o_content := [];
       o_summary := []; o_call_id := None; o_name := None; o_namespace := None; o_arguments := None;
       o_reasoning_content := rc; o_query := parse_web_search_query t.(arguments); o_input := None;
       o_execution := None |}
  else if t.(custom) then
    call_item "custom_tool_call" ("ctc_" +:+ t.(tool_id)) st t.(tool_id) (Some t.(tool_name)) None None rc
      (Some (custom_tool_input_from_chat_arguments parse_json args)) None
  else if t.(tool_search) then
    call_item "tool_search_call" "" st t.(tool_id) None None (Some (parse_tool_arguments_object parse_json args)) rc
      None (Some "client")
  else
    call_item "function_call" ("fc_" +:+ t.(tool_id)) st t.(tool_id) (Some (default t.(tool_name) t.(orig_name)))
      t.(namespace) (Some (VString args)) rc None None.

Definition tool_item_id (t : ChatTool) : string :=
  if t.(bridged) then t.(tool_id)
  else if t.(custom) then "ctc_" +:+ t.(tool_id)
  else "fc_" +:+ t.(tool_id).

(** Whether the arguments of the call are sent as increments. *)
Definition streams_args (t : ChatTool) : bool := negb t.(bridged) && negb t.(custom) && negb t.(tool_search).

Definition mark_released (i : Z) (t : ChatTool) : ChatTool :=
  {| output_index := i; tool_id := t.(tool_id); tool_name := t.(tool_name); arguments := t.(arguments);
     reasoning_content := t.(reasoning_content); bridged := t.(bridged); custom := t.(custom);
     tool_search := t.(tool_search); orig_name := t.(orig_name); namespace := t.(namespace);
     started := t.(started); released := true; pending_args := t.(pending_args); tool_done := t.(tool_done) |}.
Definition set_args (args pending : string) (t : ChatTool) : ChatTool :=
  {| output_index := t.(output_index); tool_id := t.(tool_id); tool_name := t.(tool_name); arguments := args;
     reasoning_content := t.(reasoning_content); bridged := t.(bridged); custom := t.(custom);
     tool_search := t.(tool_search); orig_name := t.(orig_name); namespace := t.(namespace);
     started := t.(started); released := t.(released); pending_args := pending; tool_done := t.(tool_done) |}.

(** The arguments that waited for the item are sent with it. *)
Definition release_tool (k : Z) (t : ChatTool) : op := fun s =>
  let i := s.(next_output_index) in
  let t := mark_released i t in
  (set_tools (tool_set k (set_args (t.(arguments) +:+ t.(pending_args)) "" t) s.(tools)) (next_index (RTool k) s),
   ItemAdded i (tool_output_item t "in_progress") ::
   if negb (str_is_empty t.(pending_args)) && streams_args t
   then [ArgsDelta i (tool_item_id t) t.(pending_args)] else []).

(** The call with the smallest index that is not released; when forced, among those started. *)
Definition candidate (force : bool) (m : tool_map) : option (Z * ChatTool) :=
  List.find (fun kt => negb kt.2.(released) && (negb force || kt.2.(started))) m.

Fixpoint release_loop (fuel : nat) (force : bool) : op := fun s =>
  match fuel with
  | O => (s, [])
  | S fuel =>
      match candidate force s.(tools) with
      | None => (s, [])
      | Some (k, t) => if t.(started) then (release_tool k t ;;; release_loop fuel force) s else (s, [])
      end
  end.
Definition release_ready_tools (force : bool) : op := fun s => release_loop (length s.(tools)) force s.

Definition key_for_id (id : option string) (m : tool_map) : option Z :=
  match trimmed_non_empty id with
  | Some i => pick ((List.filter (fun kt => bool_decide (kt.2.(tool_id) = i)) m).*1)
  | None => None
  end.

Definition chat_index (tc : ToolCallDelta) (s : State) : Z :=
  match tc.(tc_index) with
  | Some i => i
  | None =>
      resolve_no_index_tool_key tc.(tc_id) (key_for_id tc.(tc_id) s.(tools)) s.(last_tool_key)
        (fst <$> last s.(tools))
  end.

(** The id and the name of a frame; the name decides the shape of the call. *)
Definition identify (ctx : ToolContext) (tc : ToolCallDelta) (t : ChatTool) : ChatTool :=
  let id := default t.(tool_id) (trimmed_non_empty tc.(tc_id)) in
  match trimmed_non_empty (tc.(tc_function) ≫= fn_name) with
  | None =>
      {| output_index := t.(output_index); tool_id := id; tool_name := t.(tool_name); arguments := t.(arguments);
         reasoning_content := t.(reasoning_content); bridged := t.(bridged); custom := t.(custom);
         tool_search := t.(tool_search); orig_name := t.(orig_name); namespace := t.(namespace);
         started := t.(started); released := t.(released); pending_args := t.(pending_args);
         tool_done := t.(tool_done) |}
  | Some n =>
      let spec := lookup_tool ctx n in
      let has k := match spec with Some sp => bool_decide (sp.(kind) = k) | None => false end in
      {| output_index := t.(output_index); tool_id := id; tool_name := n; arguments := t.(arguments);
         reasoning_content := t.(reasoning_content);
         bridged := ctx.(bridges_web_search) && bool_decide (n = "web_search");
         custom := t.(custom) || has Custom; tool_search := t.(tool_search) || has ToolSearch;
         orig_name := if has Namespace then spec_name <$> spec else t.(orig_name);
         namespace := if has Namespace then spec ≫= spec_namespace else t.(namespace);
         started := t.(started); released := t.(released); pending_args := t.(pending_args);
         tool_done := t.(tool_done) |}
  end.

(** The reasoning closed by this frame, and the start of the call once it has an id and a name. *)
Definition start_tool (r : option string) (t : ChatTool) : ChatTool :=
  {| output_index := t.(output_index); tool_id := t.(tool_id); tool_name := t.(tool_name);
     arguments := t.(arguments);
     reasoning_content :=
       match r with
       | Some r => if negb (str_is_empty r) && str_is_empty t.(reasoning_content) then r else t.(reasoning_content)
       | None => t.(reasoning_content)
       end;
     bridged := t.(bridged); custom := t.(custom); tool_search := t.(tool_search); orig_name := t.(orig_name);
     namespace := t.(namespace);
     started := t.(started) || negb (str_is_empty t.(tool_id)) && negb (str_is_empty t.(tool_name));
     released := t.(released); pending_args := t.(pending_args); tool_done := t.(tool_done) |}.

Definition add_args (args : string) (t : ChatTool) : ChatTool * list Event :=
  if t.(started) && t.(released) then
    (set_args (t.(arguments) +:+ args) t.(pending_args) t,
     if streams_args t then [ArgsDelta t.(output_index) (tool_item_id t) args] else [])
  else (set_args t.(arguments) (t.(pending_args) +:+ args) t, []).

Definition frame_args (tc : ToolCallDelta) (t : ChatTool) : ChatTool * list Event :=
  match tc.(tc_function) ≫= fn_arguments with
  | Some a => if str_is_empty a then (t, []) else add_args a t
  | None => (t, [])
  end.

Definition append_tool_call_delta (tc : ToolCallDelta) (r : option string) : op :=
  (fun s =>
     let k := chat_index tc s in
     let s := set_last_key k s in
     let t := start_tool r (identify s.(tool_ctx) tc (default new_tool (tool_get k s.(tools)))) in
     let '(t, ev) := frame_args tc t in
     (set_tools (tool_set k t s.(tools)) s, ev)) ;;;
  release_ready_tools false.

(** ** Closing the items *)

Definition finish_text : op := fun s =>
  if s.(message).(slot_started) && negb s.(message).(slot_done) then
    let s := set_message (mark_done s.(message)) s in
    let m := s.(message) in
    (s, [TextDone m.(slot_index) (message_id s) m.(slot_text);
         ContentPartDone m.(slot_index) (message_id s) (annotated (summary_part "output_text" m.(slot_text)));
         ItemDone m.(slot_index) (message_output (output_status s) s)])
  else (s, []).

Definition finish_reasoning : op := fun s =>
  if s.(reasoning).(slot_started) && negb s.(reasoning).(slot_done) then
    let s := set_reasoning (mark_done s.(reasoning)) s in
    (s, reasoning_done_events (output_status s) s)
  else (s, []).

(** A call that is done, with an id of its own when the upstream gave none. *)
Definition close_tool (fallback_id : string) (t : ChatTool) : ChatTool :=
  {| output_index := t.(output_index);
     tool_id := if negb (str_is_empty t.(tool_name)) && str_is_empty t.(tool_id) then fallback_id else t.(tool_id);
     tool_name := t.(tool_name); arguments := t.(arguments); reasoning_content := t.(reasoning_content);
     bridged := t.(bridged); custom := t.(custom); tool_search := t.(tool_search); orig_name := t.(orig_name);
     namespace := t.(namespace); started := t.(started); released := t.(released);
     pending_args := t.(pending_args); tool_done := true |}.

Definition tool_done_events (st : string) (t : ChatTool) : list Event :=
  let i := t.(output_index) in
  let item := tool_output_item t st in
  (if t.(bridged) || t.(tool_search) then []
   else if t.(custom) then
     let input := default "" item.(o_input) in
     (if str_is_empty input then [] else [InputDelta i item.(o_id) input]) ++ [InputDone i item.(o_id) input]
   else [ArgsDone i (tool_item_id t) (canonicalize_json_string_if_parseable show parse_json t.(arguments))]) ++
  [ItemDone i item].

Definition finish_tool (k : Z) : op := fun s =>
  match tool_get k s.(tools) with
  | None => (s, [])
  | Some t =>
      if t.(tool_done) then (s, [])
      else
        let t := close_tool (s.(head).(resp_id) +:+ "_call_" +:+ pretty k) t in
        let s' := set_tools (tool_set k t s.(tools)) s in
        if str_is_empty t.(tool_name) then (count_dropped s', [])
        else (s', tool_done_events (output_status s) t)
  end.

Definition finish_tools : op := fun s => each finish_tool s.(tools).*1 s.

Definition done_delta_events : op :=
  release_ready_tools false ;;; release_ready_tools true ;;; finish_text ;;; finish_reasoning ;;; finish_tools.

(** ** Chunks *)

Definition extract_stream_error (err : Value) : Value :=
  let '(message, code) :=
    match err with
    | VString s => (s, None)
    | VObject _ =>
        (default "upstream stream error"
           (or_else (pointer_str ["error"; "message"] err) (or_else (get_str "message" err) (get_str "detail" err))),
         or_else (pointer_str ["error"; "code"] err) (get_str "code" err))
    | _ => ("upstream stream error", None)
    end in
  match code with
  | Some c => json_object [("code", VString c); ("message", VString message)]
  | None => json_object [("message", VString message)]
  end.

Definition fail_with (e : Value) (s : State) : State :=
  let v := s.(verdict) in
  set_verdict {| status := v.(status); incomplete_details := v.(incomplete_details);
                 failed_error := Some (default e v.(failed_error)); finish_reason_seen := v.(finish_reason_seen);
                 finalized := v.(finalized) |} s.

Definition adopt_head (c : ChatStreamChunk) (s : State) : State :=
  let h := s.(head) in
  set_head
    {| resp_id := if str_is_empty h.(resp_id) then c.(chunk_id) else h.(resp_id);
       resp_model := if str_is_empty h.(resp_model) then c.(chunk_model) else h.(resp_model);
       resp_created := if h.(resp_created) =? 0 then default 0 c.(chunk_created) else h.(resp_created);
       resp_usage := match c.(chunk_usage) with Some u => Some u | None => h.(resp_usage) end;
       sent_created := h.(sent_created) |} s.

Definition in_progress_response (s : State) : ResponseOut :=
  {| r_id := s.(head).(resp_id); r_created_at := s.(head).(resp_created); r_status := "in_progress";
     r_error := None; r_incomplete := None; r_model := s.(head).(resp_model); r_output := []; r_usage := None |}.

Definition start_response : op := fun s =>
  if s.(head).(sent_created) then (s, [])
  else
    let h := s.(head) in
    let s := set_head {| resp_id := h.(resp_id); resp_model := h.(resp_model); resp_created := h.(resp_created);
                         resp_usage := h.(resp_usage); sent_created := true |} s in
    (s, [Created (in_progress_response s); InProgress (in_progress_response s)]).

Definition emit_think (o : list string * list string) : op :=
  each append_reasoning_delta o.1 ;;; each append_text_delta o.2.

Definition feed_content (content : string) : op := fun s =>
  let '(t, o) := InlineThink.feed content s.(inline_think) in emit_think o (set_think t s).

Definition flush_think : op := fun s =>
  let '(t, o) := InlineThink.flush s.(inline_think) in emit_think o (set_think t s).

Definition tool_frame (tc : ToolCallDelta) : op := fun s =>
  let '(s, ev, r) := close_reasoning_for_tool_call s in
  let '(s, ev') := append_tool_call_delta tc r s in (s, ev ++ ev').

Definition apply_finish_reason (fr : string) (s : State) : State :=
  let v := s.(verdict) in
  let '(st, details) := finish_reason_to_status fr in
  let inc := bool_decide (st = "incomplete") in
  set_verdict {| status := if inc then st else v.(status);
                 incomplete_details := if inc then details else v.(incomplete_details);
                 failed_error := v.(failed_error); finish_reason_seen := true; finalized := v.(finalized) |} s.

Definition note_finish (fr : string) : op := modify (apply_finish_reason fr) ;;; done_delta_events.

Definition non_empty_opt (o : option string) : option string :=
  match o with Some s => if str_is_empty s then None else Some s | None => None end.

Definition delta_reasoning_of (d : ChatStreamDelta) : option string :=
  non_empty_opt (or_else d.(delta_reasoning_content) d.(delta_reasoning)).
Definition delta_content_of (d : ChatStreamDelta) : option string :=
  non_empty_opt (d.(delta_content) ≫= delta_content_text show).

Definition process_choice (c : ChatStreamChoice) : op :=
  let d := c.(choice_delta) in
  when_some (delta_reasoning_of d) append_reasoning_delta ;;;
  when_some (delta_content_of d) feed_content ;;;
  when_some (trimmed_non_empty d.(delta_refusal)) append_text_delta ;;;
  each tool_frame d.(delta_tool_calls) ;;;
  when_some (trimmed_non_empty c.(choice_finish_reason)) note_finish.

Definition process_chunk (c : ChatStreamChunk) : op := fun s =>
  match s.(verdict).(failed_error) with
  | Some _ => (s, [])
  | None =>
      match c.(chunk_error) with
      | Some err => (fail_with (extract_stream_error err) s, [])
      | None => (modify (adopt_head c) ;;; start_response ;;; each process_choice c.(chunk_choices)) s
      end
  end.

(** ** The end of the stream *)

Definition has_any_output (s : State) : bool :=
  s.(message).(slot_started) || s.(reasoning).(slot_started) ||
  existsb (fun kt => kt.2.(started) && negb (str_is_empty kt.2.(tool_name))) s.(tools).

Definition output_of (s : State) (r : OutputRef) : option OutputItem :=
  match r with
  | RMessage => Some (message_output (output_status s) s)
  | RReasoning => Some (reasoning_output (output_status s) s)
  | RTool k =>
      match tool_get k s.(tools) with
      | Some t => if str_is_empty t.(tool_name) then None else Some (tool_output_item t (output_status s))
      | None => None
      end
  end.

Definition final_response (s : State) : ResponseOut :=
  with_zero_usage
    {| r_id := s.(head).(resp_id); r_created_at := s.(head).(resp_created); r_status := s.(verdict).(status);
       r_error := None; r_incomplete := s.(verdict).(incomplete_details); r_model := s.(head).(resp_model);
       r_output := omap (output_of s) s.(output_order);
       r_usage := usage_from_chat <$> s.(head).(resp_usage) |}.

Definition truncated_error : Value :=
  json_object [("code", VString "stream_truncated"); ("message", VString "upstream stream ended before completion")].

(** The verdict at the end: the new status and details, the terminal event and its error. *)
Definition judge (truncated : bool) (s : State) : string * option string * TerminalKind * option Value :=
  let v := s.(verdict) in
  match v.(failed_error) with
  | Some err => ("failed", v.(incomplete_details), Failed, Some err)
  | None =>
      if truncated && negb (has_any_output s) then
        ("failed", v.(incomplete_details), Failed, Some truncated_error)
      else if truncated && negb v.(finish_reason_seen) then
        ("incomplete", Some "max_output_tokens", Incomplete, None)
      else if (0 <? s.(dropped_tools))%nat && negb (has_any_output s) &&
              negb (bool_decide (v.(status) = "incomplete")) then
        ("failed", v.(incomplete_details), Failed, Some dropped_error)
      else (v.(status), v.(incomplete_details),
            if bool_decide (v.(status) = "incomplete") then Incomplete else Completed, None)
  end.

Definition with_error (e : option Value) (r : ResponseOut) : ResponseOut :=
  {| r_id := r.(r_id); r_created_at := r.(r_created_at); r_status := r.(r_status);
     r_error := match e with Some e => Some e | None => r.(r_error) end; r_incomplete := r.(r_incomplete);
     r_model := r.(r_model); r_output := r.(r_output); r_usage := r.(r_usage) |}.

Definition end_response (truncated : bool) : op := fun s =>
  let '(st, details, k, error) := judge truncated s in
  let v := s.(verdict) in
  let s := set_verdict {| status := st; incomplete_details := details; failed_error := v.(failed_error);
                          finish_reason_seen := v.(finish_reason_seen); finalized := v.(finalized) |} s in
  (s, [Terminal k (with_error error (final_response s))]).

Definition mark_final (s : State) : State :=
  let v := s.(verdict) in
  set_verdict {| status := v.(status); incomplete_details := v.(incomplete_details);
                 failed_error := v.(failed_error); finish_reason_seen := v.(finish_reason_seen);
                 finalized := true |} s.

Definition finalize_inner (truncated : bool) : op := fun s =>
  if s.(verdict).(finalized) then (s, [])
  else (modify mark_final ;;; flush_think ;;; done_delta_events ;;; end_response truncated) s.

Definition finalize : op := finalize_inner false.
Definition finalize_truncated : op := finalize_inner true.

Definition transport_error (m : string) : op :=
  modify (fail_with (json_object [("code", VString "stream_error"); ("message", VString m)])) ;;; finalize.

Definition billing_usage (s : State) : option Usage :=
  (fun u =>
     {| Metering.prompt_tokens := Some (usage_input u); Metering.completion_tokens := Some (usage_output u);
        Metering.input_tokens := None; Metering.output_tokens := None;
        Metering.cache_read_tokens := Some (cached_tokens u);
        Metering.cache_write_tokens := Some (cache_write_tokens u) |}) <$> s.(head).(resp_usage).

Definition has_failed (s : State) : bool := bool_decide (is_Some s.(verdict).(failed_error)).

(** [synthesize_sse_from_chat_body], after the decoding of the body. *)
Definition synthesize_events (id model : string) (now : Z) (ctx : ToolContext) (raw : string) : option (list Event) :=
  match from_json_str show parse_json raw with
  | Some chunk =>
      if bool_decide (chunk.(chunk_choices) = []) || bool_decide (is_Some chunk.(chunk_error)) then None
      else Some ((process_chunk chunk ;;; finalize) (new id model now ctx)).2
  | None => None
  end.

End machine.
