(* ===== verification/ResponsesProtocol.v ===== *)
(** * The Responses event stream follows its protocol

The automaton a reader of the stream relies on, the invariant that ties its open items to the state
machine of [ResponsesStream], and the theorem that the stream of a well-formed upstream is a complete
run of it. *)

From S2P Require Import Prelude Float Json Metering Body Streams Machine InlineThink Chat AnthropicResponse.
From S2P Require Import ResponsesContext ResponsesOutput ResponsesStream.

Local Open Scope Z_scope.

(** ** The protocol

[response.created] and [response.in_progress] come first. Items are added at the indices 0, 1, 2, ...;
a reasoning item that is done may be added again at its index. Everything about an item comes while it
is open and in its order: a part is added, its increments follow, then the text is done, the part is
done, the item is done; a call has increments and one end of its arguments. The events of a message
and of a reasoning name the id it was added with; those of a call do so when the reading is [strict], and
are told apart by their index alone otherwise. All items are done when the terminal event comes, and
nothing follows it. A stream that fails before anything was sent is its terminal event alone. *)

Inductive Kind : Type := KMessage | KReasoning | KCall.
Inductive Stage : Type := Added | PartOpen | PayloadDone | PartClosed.
Inductive Phase : Type := Silent | Announced | Running | Ended.
#[export] Instance Kind_eq_dec : EqDecision Kind.
Proof. solve_decision. Defined.
#[export] Instance Stage_eq_dec : EqDecision Stage.
Proof. solve_decision. Defined.
#[export] Instance Phase_eq_dec : EqDecision Phase.
Proof. solve_decision. Defined.

Record Item : Type := { it_kind : Kind; it_id : string; it_stage : Stage }.
#[export] Instance Item_eq_dec : EqDecision Item.
Proof. solve_decision. Defined.

Record Protocol : Type := {
  p_phase : Phase;
  p_next : Z;
  p_open : gmap Z Item;
  p_closed : gmap Z Kind;
}.

Definition p_init : Protocol := {| p_phase := Silent; p_next := 0; p_open := ∅; p_closed := ∅ |}.

Definition kind_of (o : OutputItem) : Kind :=
  if bool_decide (o.(o_type) = "message") then KMessage
  else if bool_decide (o.(o_type) = "reasoning") then KReasoning
  else KCall.

Section protocol.
Context (strict : bool).

(** What a reader sees of the id of a call. *)
Definition id_seen (id : string) : string := if strict then id else "".
Definition added_item (o : OutputItem) : Item :=
  {| it_kind := kind_of o; it_id := match kind_of o with KCall => id_seen o.(o_id) | _ => o.(o_id) end;
     it_stage := Added |}.

Definition p_with (ph : Phase) (p : Protocol) : Protocol :=
  {| p_phase := ph; p_next := p.(p_next); p_open := p.(p_open); p_closed := p.(p_closed) |}.

(** The item at an index goes from one stage to another. *)
Definition p_move (i : Z) (a b : Item) (p : Protocol) : option Protocol :=
  if bool_decide (p.(p_phase) = Running) && bool_decide (p.(p_open) !! i = Some a) then
    Some {| p_phase := p.(p_phase); p_next := p.(p_next); p_open := <[i := b]> p.(p_open);
            p_closed := p.(p_closed) |}
  else None.

Definition p_add (i : Z) (o : OutputItem) (p : Protocol) : option Protocol :=
  if bool_decide (p.(p_phase) = Running) then
    if bool_decide (i = p.(p_next)) then
      Some {| p_phase := p.(p_phase); p_next := p.(p_next) + 1; p_open := <[i := added_item o]> p.(p_open);
              p_closed := p.(p_closed) |}
    else if bool_decide (p.(p_closed) !! i = Some KReasoning) && bool_decide (kind_of o = KReasoning) then
      Some {| p_phase := p.(p_phase); p_next := p.(p_next); p_open := <[i := added_item o]> p.(p_open);
              p_closed := delete i p.(p_closed) |}
    else None
  else None.

Definition p_close (i : Z) (o : OutputItem) (p : Protocol) : option Protocol :=
  if bool_decide (p.(p_phase) = Running) then
    match p.(p_open) !! i with
    | Some it =>
        if bool_decide (it.(it_kind) = kind_of o) &&
           match it.(it_kind) with
           | KCall => bool_decide (it.(it_id) = id_seen o.(o_id))
           | _ => bool_decide (it.(it_id) = o.(o_id)) && bool_decide (it.(it_stage) = PartClosed)
           end
        then Some {| p_phase := p.(p_phase); p_next := p.(p_next); p_open := delete i p.(p_open);
                     p_closed := <[i := it.(it_kind)]> p.(p_closed) |}
        else None
    | None => None
    end
  else None.

Definition item (k : Kind) (id : string) (st : Stage) : Item := {| it_kind := k; it_id := id; it_stage := st |}.
Definition call (id : string) (st : Stage) : Item := item KCall (id_seen id) st.

Definition p_step (p : Protocol) (e : Event) : option Protocol :=
  match e with
  | Created _ => if bool_decide (p.(p_phase) = Silent) then Some (p_with Announced p) else None
  | InProgress _ => if bool_decide (p.(p_phase) = Announced) then Some (p_with Running p) else None
  | ItemAdded i o => p_add i o p
  | ItemDone i o => p_close i o p
  | ContentPartAdded i id _ => p_move i (item KMessage id Added) (item KMessage id PartOpen) p
  | TextDelta i id _ => p_move i (item KMessage id PartOpen) (item KMessage id PartOpen) p
  | TextDone i id _ => p_move i (item KMessage id PartOpen) (item KMessage id PayloadDone) p
  | ContentPartDone i id _ => p_move i (item KMessage id PayloadDone) (item KMessage id PartClosed) p
  | SummaryPartAdded i id _ => p_move i (item KReasoning id Added) (item KReasoning id PartOpen) p
  | SummaryDelta i id _ => p_move i (item KReasoning id PartOpen) (item KReasoning id PartOpen) p
  | SummaryDone i id _ _ => p_move i (item KReasoning id PartOpen) (item KReasoning id PayloadDone) p
  | SummaryPartDone i id _ => p_move i (item KReasoning id PayloadDone) (item KReasoning id PartClosed) p
  | ArgsDelta i id _ | InputDelta i id _ => p_move i (call id Added) (call id Added) p
  | ArgsDone i id _ | InputDone i id _ => p_move i (call id Added) (call id PayloadDone) p
  | Terminal _ _ =>
      if (bool_decide (p.(p_phase) = Running) || bool_decide (p.(p_phase) = Silent)) &&
         bool_decide (p.(p_open) = ∅)
      then Some (p_with Ended p) else None
  end.

(** A complete run of the protocol. *)
Definition p_complete (l : list Event) : Prop :=
  exists p, Machine.run p_step p_init l = Some p /\ p.(p_phase) = Ended.

(** ** Open items

[Items H z next p]: the open items of the protocol are those of [H], the closed reasoning item, if
any, is at [z]. *)

Record Items (H : Z -> Item -> Prop) (z : option Z) (next : Z) (p : Protocol) : Prop := {
  items_phase : p.(p_phase) = Running;
  items_next : p.(p_next) = next;
  items_open : forall i it, p.(p_open) !! i = Some it <-> H i it;
  items_bound : forall i, is_Some (p.(p_open) !! i) \/ is_Some (p.(p_closed) !! i) -> i < next;
  items_closed : forall i, z = Some i -> p.(p_closed) !! i = Some KReasoning /\ p.(p_open) !! i = None;
}.

Lemma items_iff (H H' : Z -> Item -> Prop) z z' next p :
  Items H z next p -> (forall i it, H i it <-> H' i it) -> (forall i, z' = Some i -> z = Some i) ->
  Items H' z' next p.
Proof. intros [] He Hz. split; try done; [|naive_solver]. intros i it. by rewrite items_open0. Qed.

Lemma items_fun H z next p i a b : Items H z next p -> H i a -> H i b -> a = b.
Proof. intros HI Ha Hb. apply (items_open _ _ _ _ HI) in Ha, Hb. congruence. Qed.

Lemma items_below H z next p i a : Items H z next p -> H i a -> i < next.
Proof. intros HI Ha. apply (items_open _ _ _ _ HI) in Ha. apply (items_bound _ _ _ _ HI). left. by eexists. Qed.

Lemma items_apart H z next p i a : Items H z next p -> H i a -> z <> Some i.
Proof. intros HI Ha Hz. apply (items_open _ _ _ _ HI) in Ha. apply (items_closed _ _ _ _ HI) in Hz as [_ E]. congruence. Qed.

Lemma items_add H z next p o :
  Items H z next p ->
  exists p', p_step p (ItemAdded next o) = Some p' /\
    Items (fun i it => H i it \/ i = next /\ it = added_item o) z (next + 1) p'.
Proof.
  intros HI. pose proof (items_below H z next p) as Hlt. destruct HI. cbn [p_step]. unfold p_add.
  rewrite (bool_decide_true (p_phase p = Running)), (bool_decide_true (next = p_next p)) by done.
  eexists. split; [done|]. split; cbn.
  - done.
  - by rewrite items_next0.
  - intros i it. rewrite lookup_insert_Some, items_open0. split; [naive_solver|].
    intros [Hi|[-> ->]]; [right|by left]. split; [|done]. intros <-.
    assert (next < next); [|lia]. by eapply (Hlt next it); [split|].
  - intros i [[it Hi]|Hi].
    + apply lookup_insert_Some in Hi as [[<- _]|[_ Hi]]; [lia|]. enough (i < next) by lia. apply items_bound0. left. by eexists.
    + enough (i < next) by lia. apply items_bound0. by right.
  - intros i Hz. destruct (items_closed0 i Hz) as [Hc Ho]. split; [done|]. rewrite lookup_insert_ne; [done|].
    intros <-. assert (next < next); [|lia]. apply items_bound0. right. by eexists.
Qed.

Lemma items_reopen H next p i o :
  Items H (Some i) next p -> kind_of o = KReasoning ->
  exists p', p_step p (ItemAdded i o) = Some p' /\
    Items (fun j it => H j it \/ j = i /\ it = added_item o) None next p'.
Proof.
  intros HI Hk. destruct HI. destruct (items_closed0 i eq_refl) as [Hc Ho]. cbn [p_step]. unfold p_add.
  assert (Hi : i < next) by (apply items_bound0; right; by eexists).
  rewrite (bool_decide_true (p_phase p = Running)), (bool_decide_false (i = p_next p)),
    (bool_decide_true (p_closed p !! i = _)), (bool_decide_true (kind_of o = _)) by (done || lia).
  eexists. split; [done|]. split; cbn; try done.
  - intros j it. rewrite lookup_insert_Some, items_open0. split; [naive_solver|].
    intros [Hj|[-> ->]]; [right|by left]. split; [|done]. intros <-. apply items_open0 in Hj. congruence.
  - intros j [[it Hj]|[x Hj]].
    + apply lookup_insert_Some in Hj as [[<- _]|[_ Hj]]; [done|]. apply items_bound0. left. by eexists.
    + apply lookup_delete_Some in Hj as [_ Hj]. apply items_bound0. right. by eexists.
Qed.

Lemma items_move H z next p i a b :
  Items H z next p -> H i a ->
  exists p', p_move i a b p = Some p' /\
    Items (fun j it => (j <> i /\ H j it) \/ j = i /\ it = b) z next p'.
Proof.
  intros HI Ha. pose proof (items_apart _ _ _ _ _ _ HI Ha) as Hz. destruct HI. apply items_open0 in Ha. unfold p_move.
  rewrite (bool_decide_true (p_phase p = Running)), (bool_decide_true (p_open p !! i = _)) by done.
  eexists. split; [done|]. split; cbn; try done.
  - intros j it. rewrite lookup_insert_Some, items_open0. naive_solver.
  - intros j [[it Hj]|Hj]; apply items_bound0; [|by right]. left.
    apply lookup_insert_Some in Hj as [[<- _]|[_ Hj]]; by eexists.
  - intros j Hj. rewrite lookup_insert_ne by congruence. auto.
Qed.

(** Closing an item; a closed reasoning item may be the one that can be opened again. *)
Lemma items_close H z next p i a o z' :
  Items H z next p -> H i a -> a.(it_kind) = kind_of o ->
  (a.(it_kind) = KCall /\ a.(it_id) = id_seen o.(o_id) \/
   a.(it_kind) <> KCall /\ a.(it_id) = o.(o_id) /\ a.(it_stage) = PartClosed) ->
  (z' = z \/ z' = Some i /\ a.(it_kind) = KReasoning) ->
  exists p', p_step p (ItemDone i o) = Some p' /\ Items (fun j it => j <> i /\ H j it) z' next p'.
Proof.
  intros HI Ha Hk Hok Hz'. pose proof (items_apart _ _ _ _ _ _ HI Ha) as Hz. destruct HI. apply items_open0 in Ha.
  cbn [p_step]. unfold p_close. rewrite (bool_decide_true (p_phase p = Running)), Ha, (bool_decide_true (it_kind a = _)) by done.
  assert (E : match it_kind a with KCall => bool_decide (it_id a = id_seen (o_id o))
    | _ => bool_decide (it_id a = o_id o) && bool_decide (it_stage a = PartClosed) end = true).
  { destruct Hok as [[-> E1]|(Hn & E1 & E2)]; [by apply bool_decide_true|].
    rewrite (bool_decide_true (it_id a = o_id o)), (bool_decide_true (it_stage a = _)) by done. by destruct (it_kind a). }
  rewrite E. eexists. split; [done|]. split; cbn; try done.
  - intros j it. rewrite lookup_delete_Some, items_open0. naive_solver.
  - intros j [[it Hj]|[x Hj]].
    + apply lookup_delete_Some in Hj as [_ Hj]. apply items_bound0. left. by eexists.
    + apply lookup_insert_Some in Hj as [[<- _]|[_ Hj]]; apply items_bound0; [left|right]; by eexists.
  - intros j Hj. destruct Hz' as [->|[-> Hr]].
    + rewrite lookup_insert_ne, lookup_delete_ne by congruence. auto.
    + injection Hj as <-. rewrite lookup_insert_eq, lookup_delete_eq, Hr. done.
Qed.

(** An increment leaves the item as it is. *)
Lemma items_same H z next p i a :
  Items H z next p -> H i a -> exists p', p_move i a a p = Some p' /\ Items H z next p'.
Proof.
  intros HI Ha. destruct (items_move _ _ _ _ _ _ a HI Ha) as (p1 & E1 & H1). exists p1. split; [done|].
  eapply items_iff; [exact H1| |done]. intros j it. split; [by intros [[_ ?]|[-> ->]]|].
  intros Hj. destruct (decide (j = i)) as [->|]; [right|by left]. split; [done|].
  exact (items_fun _ _ _ _ _ _ _ HI Hj Ha).
Qed.

(** The three events that end a message or a reasoning item. *)
Lemma items_end H z next p i k id o z' :
  Items H z next p -> H i (item k id PartOpen) -> k <> KCall -> k = kind_of o -> id = o.(o_id) ->
  (z' = z \/ z' = Some i /\ k = KReasoning) ->
  exists p1 p2 p3, p_move i (item k id PartOpen) (item k id PayloadDone) p = Some p1 /\
    p_move i (item k id PayloadDone) (item k id PartClosed) p1 = Some p2 /\
    p_step p2 (ItemDone i o) = Some p3 /\ Items (fun j it => j <> i /\ H j it) z' next p3.
Proof.
  intros HI Ha Hc Hk Hid Hz. destruct (items_move _ _ _ _ _ _ (item k id PayloadDone) HI Ha) as (p1 & E1 & H1).
  destruct (items_move _ _ _ _ i (item k id PayloadDone) (item k id PartClosed) H1
              ltac:(right; split; reflexivity)) as (p2 & E2 & H2).
  destruct (items_close _ _ _ _ i (item k id PartClosed) o z' H2 ltac:(right; split; reflexivity))
    as (p3 & E3 & H3); [done|by right|done|].
  exists p1, p2, p3. split_and!; [done..|]. eapply items_iff; [exact H3| |done]. naive_solver.
Qed.

(** ** The items of the state *)

Definition active (m : Slot) : bool := m.(slot_started) && negb m.(slot_done).
Definition slot_item (k : Kind) (id : string) (m : Slot) (i : Z) (it : Item) : Prop :=
  active m = true /\ i = m.(slot_index) /\ it = item k id PartOpen.
(** The id of the item of a call: by the kind of the call. *)
Definition call_item_id (t : ChatTool) : string :=
  if t.(bridged) then t.(tool_id)
  else if t.(custom) then "ctc_" +:+ t.(tool_id)
  else if t.(tool_search) then ""
  else "fc_" +:+ t.(tool_id).
Abbreviation open_call t := (call (call_item_id t) Added).
Definition call_item_at (m : tool_map) (i : Z) (it : Item) : Prop :=
  exists k t, tool_get k m = Some t /\ t.(released) = true /\ t.(tool_done) = false /\ i = t.(output_index) /\ it = open_call t.
Definition holds (s : State) (i : Z) (it : Item) : Prop :=
  slot_item KMessage (message_id s) s.(message) i it \/ slot_item KReasoning (reasoning_id s) s.(reasoning) i it \/
  call_item_at s.(tools) i it.
Definition closed_reasoning (s : State) : option Z :=
  if s.(reasoning).(slot_done) then Some s.(reasoning).(slot_index) else None.

(** A call is started when it has an id and a name; a name never comes without an id. *)
Record tool_ok (t : ChatTool) : Prop := {
  ok_started : t.(started) = negb (str_is_empty t.(tool_id)) && negb (str_is_empty t.(tool_name));
  ok_released : t.(released) = true -> t.(started) = true;
  ok_named : t.(tool_name) <> "" -> t.(tool_id) <> "";
  ok_done : t.(tool_done) = true -> t.(released) = true \/ t.(tool_name) = "";
}.

(** *** Calls that keep their id and name

[names] gives the id and the name of the call at each index. *)

Definition agrees (o : option string) (x : string) : bool :=
  match o with Some y => bool_decide (y = x) | None => true end.
Definition given_id (tc : ToolCallDelta) : option string := trimmed_non_empty tc.(tc_id).
Definition given_name (tc : ToolCallDelta) : option string := trimmed_non_empty (tc.(tc_function) ≫= fn_name).
Definition steady (names : Z -> string * string) (tc : ToolCallDelta) : bool :=
  match tc.(tc_index) with
  | Some k => agrees (given_id tc) (names k).1 && agrees (given_name tc) (names k).2
  | None => false
  end.
(** Every frame has an index, and the frames of an index agree on the id and on the name. *)
Definition names_of (l : list ToolCallDelta) (k : Z) : string * string :=
  let mine := List.filter (fun tc => bool_decide (tc.(tc_index) = Some k)) l in
  (default "" (List.hd_error (omap given_id mine)), default "" (List.hd_error (omap given_name mine))).
Definition frames_of (cs : list ChatStreamChoice) : list ToolCallDelta :=
  concat ((fun c => delta_tool_calls (choice_delta c)) <$> cs).
Definition settled (l : list ToolCallDelta) : bool := forallb (steady (names_of l)) l.

(** The kind of a call is that of its name. *)
Definition named_kind (ctx : ToolContext) (n : string) : bool * bool * bool :=
  let has k := match lookup_tool ctx n with Some sp => bool_decide (sp.(kind) = k) | None => false end in
  (ctx.(bridges_web_search) && bool_decide (n = "web_search"), has Custom, has ToolSearch).
Definition named_origin (ctx : ToolContext) (n : string) : option string * option string :=
  match lookup_tool ctx n with
  | Some sp => if bool_decide (sp.(kind) = Namespace) then (Some sp.(spec_name), sp.(spec_namespace)) else (None, None)
  | None => (None, None)
  end.
Record call_fits (ctx : ToolContext) (x : string * string) (t : ChatTool) : Prop := {
  fits_id : t.(tool_id) <> "" -> t.(tool_id) = x.1;
  fits_name : t.(tool_name) <> "" -> t.(tool_name) = x.2;
  fits_kind : (t.(bridged), t.(custom), t.(tool_search)) =
    if str_is_empty t.(tool_name) then (false, false, false) else named_kind ctx x.2;
  fits_origin : (t.(orig_name), t.(namespace)) =
    if str_is_empty t.(tool_name) then (None, None) else named_origin ctx x.2;
}.

Section live.
Context (names : Z -> string * string) (ctx : ToolContext).
Variable fin : bool.

(** The stream has begun; [fin] is whether its end is being written. *)
Record Live (s : State) (p : Protocol) : Prop := {
  live_items : Items (holds s) (closed_reasoning s) s.(next_output_index) p;
  live_sorted : tools_sorted s.(tools);
  live_tools : forall k t, tool_get k s.(tools) = Some t -> tool_ok t;
  live_apart : forall k k' t t', tool_get k s.(tools) = Some t -> tool_get k' s.(tools) = Some t' ->
    t.(released) = true -> t'.(released) = true -> t.(tool_done) = false -> t'.(tool_done) = false ->
    t.(output_index) = t'.(output_index) -> k = k';
  live_sent : s.(head).(sent_created) = true;
  live_id : s.(head).(resp_id) <> "";
  live_reasoning : s.(reasoning).(slot_done) = true -> s.(reasoning).(slot_started) = true;
  live_message : s.(message).(slot_done) = true -> s.(message).(slot_started) = true;
  live_final : s.(verdict).(finalized) = fin;
  live_ctx : s.(tool_ctx) = ctx;
  live_fits : strict = true -> forall k t, tool_get k s.(tools) = Some t -> call_fits ctx (names k) t;
}.

(** Nothing has been closed for good. *)
Definition Open (s : State) : Prop :=
  s.(message).(slot_done) = false /\ (forall k t, tool_get k s.(tools) = Some t -> t.(tool_done) = false).

Abbreviation run := (Machine.run p_step).

Lemma run_step p e l p' : p_step p e = Some p' -> run p (e :: l) = run p' l.
Proof. intros H. by rewrite run_cons, H. Qed.

Lemma message_index s p j it :
  Live s p -> holds s j it -> s.(message).(slot_started) = true -> s.(message).(slot_done) = false ->
  it.(it_kind) <> KMessage -> j <> s.(message).(slot_index).
Proof.
  intros HL H H1 H2 Hk ->. apply Hk. rewrite (items_fun _ _ _ _ _ _ (item KMessage (message_id s) PartOpen) (live_items _ _ HL) H); [done|].
  left. unfold slot_item, active. by rewrite H1, H2.
Qed.

Lemma start_text_moves : moves p_step (fun s p => Live s p /\ s.(message).(slot_done) = false)
  (fun s p => Live s p /\ active s.(message) = true) start_text.
Proof.
  intros s p [HL Hd]. unfold start_text. destruct (s.(message).(slot_started)) eqn:E.
  { exists p. split; [done|]. split; [done|]. unfold active. cbn. by rewrite E, Hd. }
  cbv zeta. set (s' := set_message _ _). set (i := s.(next_output_index)).
  pose proof (live_items _ _ HL) as HI.
  destruct (items_add _ _ _ _ (message_item (message_id s') "in_progress" []) HI) as (p1 & E1 & H1).
  destruct (items_move _ _ _ _ i _ (item KMessage (message_id s') PartOpen) H1
              ltac:(right; split; reflexivity)) as (p2 & E2 & H2).
  exists p2. split; [cbn [snd]; by rewrite (run_step _ _ _ _ E1), (run_step p1 _ _ p2)|].
  cbn [fst]. split; [|cbn; by rewrite Hd].
  split; try apply HL; [|done]. eapply items_iff; [exact H2| |done]. intros j it. fold i.
  assert (Hne : forall it, holds s j it -> j <> i).
  { intros it' Hj. pose proof (items_below _ _ _ _ _ _ HI Hj). unfold i. lia. }
  unfold holds at 2. cbn [s' set_message message reasoning tools next_index]. unfold slot_item at 1. cbn.
  rewrite Hd. fold i. split.
  - intros [[Hj [Hh|[-> _]]]|[-> ->]]; [|done|by left]. right. destruct Hh as [(Ha & _)|Hh]; [|exact Hh].
    unfold active in Ha. by rewrite E in Ha.
  - intros [(_ & -> & ->)|Hh]; [by right|]. left. assert (holds s j it) by by right. split; [by eapply Hne|by left].
Qed.

Lemma append_text_moves (Q : tool_map -> Prop) d :
  let R s p := Live s p /\ s.(message).(slot_done) = false /\ Q s.(tools) in
  moves p_step R R (append_text_delta d).
Proof.
  intros R. eapply moves_seq with (R2 := fun s p => R s p /\ active s.(message) = true).
  - intros s p (HL & Hd & HQ). destruct (start_text_moves s p) as (p' & Hr & HL' & Ha); [done|].
    exists p'. split; [done|]. split; [|done]. split; [done|]. unfold start_text. by destruct (s.(message).(slot_started)).
  - intros s p ((HL & Hd & HQ) & Ha). cbv zeta. pose proof (live_items _ _ HL) as HI.
    assert (Hh : holds s s.(message).(slot_index) (item KMessage (message_id s) PartOpen)) by by left.
    destruct (items_same _ _ _ _ _ _ HI Hh) as (p1 & E1 & H1).
    exists p1. split; [cbn [snd]; by rewrite (run_step _ _ _ p1)|]. split; [|done].
    split; try apply HL. exact H1.
Qed.

(** ** Reasoning *)

Lemma open_reasoning s s' i p p1 part :
  Live s p -> active s.(reasoning) = false -> (forall it, ~ holds s i it) ->
  message s' = message s -> tools s' = tools s -> head s' = head s -> verdict s' = verdict s ->
  tool_ctx s' = tool_ctx s ->
  reasoning s' = {| slot_index := i; slot_started := true; slot_done := false; slot_text := slot_text (reasoning s) |} ->
  Items (fun j it => holds s j it \/ j = i /\ it = item KReasoning (reasoning_id s') Added) None
    (next_output_index s') p1 ->
  exists p2, p_step p1 (SummaryPartAdded i (reasoning_id s') part) = Some p2 /\ Live s' p2.
Proof.
  intros HL Ha Hn Em Et Eh Ev Ec Er H1.
  destruct (items_move _ _ _ _ i _ (item KReasoning (reasoning_id s') PartOpen) H1
              ltac:(right; split; reflexivity)) as (p2 & E2 & H2).
  exists p2. split; [done|]. split; rewrite ?Em, ?Et, ?Eh, ?Ev, ?Ec, ?Er; try apply HL; [|done].
  eapply items_iff; [exact H2| |unfold closed_reasoning; by rewrite Er]. intros j it.
  assert (Ei : message_id s' = message_id s) by (unfold message_id; by rewrite Eh).
  unfold holds. rewrite Em, Et, Er, Ei. unfold slot_item at 4. cbn. split.
  - intros [[Hj [Hh|[? _]]]|[-> ->]]; [|done|by right; left].
    destruct Hh as [?|[[Hf _]|?]]; [by left|congruence|by right; right].
  - assert (Hne : forall it, holds s j it -> j <> i) by (intros it' Hh ->; by eapply Hn).
    unfold holds in Hne. intros [Hh|[(_ & -> & ->)|Hh]]; [|by right|]; left; (split; [eapply Hne|left]); eauto.
Qed.

Lemma start_reasoning_moves : moves p_step Live (fun s p => Live s p /\ active s.(reasoning) = true) start_reasoning.
Proof.
  intros s p HL. unfold start_reasoning. cbv zeta. pose proof (live_items _ _ HL) as HI.
  destruct (negb _ || _) eqn:E.
  2:{ exists p. split; [done|]. split; [done|]. unfold active. cbn [fst].
      by destruct (slot_started (reasoning s)), (slot_done (reasoning s)). }
  assert (Ha : active s.(reasoning) = false).
  { unfold active. by destruct (slot_started (reasoning s)), (slot_done (reasoning s)). }
  unfold closed_reasoning in HI. destruct (slot_done (reasoning s)) eqn:Ed; cbn iota.
  - set (s' := set_reasoning _ _). set (i := slot_index (reasoning s)) in *.
    destruct (items_reopen _ _ _ _ (reasoning_item (reasoning_id s') "in_progress" []) HI eq_refl) as (p1 & E1 & H1).
    destruct (open_reasoning s s' i p p1 (summary_part "summary_text" "") HL Ha) as (p2 & E2 & H2); try done.
    { intros it Hh. by apply (items_apart _ _ _ _ _ _ HI Hh). }
    exists p2. split; [cbn [snd]; by rewrite (run_step _ _ _ _ E1), (run_step _ _ _ _ E2)|done].
  - set (s' := set_reasoning _ _). set (i := next_output_index s) in *.
    destruct (items_add _ _ _ _ (reasoning_item (reasoning_id s') "in_progress" []) HI) as (p1 & E1 & H1).
    destruct (open_reasoning s s' i p p1 (summary_part "summary_text" "") HL Ha) as (p2 & E2 & H2); try done.
    { intros it Hh. pose proof (items_below _ _ _ _ _ _ HI Hh). lia. }
    exists p2. split; [cbn [snd]; by rewrite (run_step _ _ _ _ E1), (run_step _ _ _ _ E2)|done].
Qed.

(** A change of the calls that keeps what the protocol sees of each of them. *)
Record same_call (t t' : ChatTool) : Prop := {
  same_index : t'.(output_index) = t.(output_index);
  same_released : t'.(released) = t.(released);
  same_done : t'.(tool_done) = t.(tool_done);
  same_id : t.(released) = true -> id_seen (call_item_id t') = id_seen (call_item_id t);
}.

Lemma append_reasoning_moves d : moves p_step Live Live (append_reasoning_delta d).
Proof.
  eapply moves_seq; [apply start_reasoning_moves|]. intros s p [HL Ha]. cbv zeta.
  set (s' := set_tools _ _). pose proof (live_items _ _ HL) as HI.
  assert (Hh : holds s s.(reasoning).(slot_index) (item KReasoning (reasoning_id s) PartOpen)) by by right; left.
  destruct (items_same _ _ _ _ _ _ HI Hh) as (p1 & E1 & H1). exists p1.
  split; [cbn [snd]; by rewrite (run_step _ _ _ p1)|].
  assert (Hg : forall k, tool_get k (tools s') =
    (fun t => if started t then add_reasoning d t else t) <$> tool_get k (tools s)).
  { intros k. unfold s'. cbn [set_tools tools set_reasoning]. generalize (tools s). intros m.
    induction m as [|[k' t] m IH]; [done|]. cbn. by destruct (k =? k'). }
  assert (Hg' : forall k t', tool_get k (tools s') = Some t' ->
    exists t, tool_get k (tools s) = Some t /\ same_call t t' /\ (tool_ok t -> tool_ok t') /\
      (forall x, call_fits ctx x t -> call_fits ctx x t')).
  { intros k t'. rewrite Hg. destruct (tool_get k (tools s)) as [t|]; [|done]. cbn. intros [= <-]. exists t.
    split; [done|]. destruct (started t) eqn:Es; [|done]. split; [done|]. split; [|intros x]; intros []; by split. }
  cbn [fst]. split; try apply HL.
  - eapply items_iff; [exact H1| |done]. intros j it. unfold holds.
    change (slot_item KReasoning (reasoning_id s') (reasoning s') j it) with
      (slot_item KReasoning (reasoning_id s) (reasoning s) j it).
    assert (Hc : call_item_at (tools s) j it <-> call_item_at (tools s') j it); [|by rewrite Hc].
    split.
    + intros (k & t & Et & ? & ? & -> & ->). exists k. rewrite Hg, Et. cbn. eexists. split; [done|].
      by destruct (started t).
    + intros (k & t' & Et & R & ? & -> & ->). apply Hg' in Et as (t & Et & [E3 E4 E5 E6] & _).
      exists k, t. unfold call. rewrite E6, <-E3, <-E4, <-E5 by congruence. done.
  - unfold s'. cbn [set_tools tools set_reasoning]. unfold tools_sorted. rewrite <-list_fmap_compose. apply HL.
  - intros k t' Et. apply Hg' in Et as (t & Et & _ & Hok & _). apply Hok. by eapply live_tools.
  - intros k k' t t' Et Et'. apply Hg' in Et as (u & Eu & [-> -> -> _] & _), Et' as (u' & Eu' & [-> -> -> _] & _).
    by eapply live_apart.
  - intros Hst k t' Et. apply Hg' in Et as (t & Et & _ & _ & Hf). by eapply Hf, live_fits.
Qed.

(** Another item is not where an open one is. *)
Lemma other_index s p i a j b :
  Live s p -> holds s i a -> holds s j b -> a.(it_kind) <> b.(it_kind) -> j <> i.
Proof.
  intros HL Ha Hb Hk ->. apply Hk. by rewrite (items_fun _ _ _ _ _ _ _ (live_items _ _ HL) Ha Hb).
Qed.

Lemma active_done m : active (mark_done m) = false.
Proof. unfold active. cbn. apply andb_false_r. Qed.

Lemma slot_item_done k id m i it : ~ slot_item k id (mark_done m) i it.
Proof. intros [H _]. by rewrite active_done in H. Qed.

Lemma end_reasoning st s p :
  Live s p -> active s.(reasoning) = true ->
  let s' := set_reasoning (mark_done s.(reasoning)) s in
  exists p', run p (reasoning_done_events st s') = Some p' /\ Live s' p'.
Proof.
  intros HL Ha s'. pose proof (live_items _ _ HL) as HI. set (i := slot_index (reasoning s)).
  assert (Hh : holds s i (item KReasoning (reasoning_id s) PartOpen)) by by right; left.
  destruct (items_end _ _ _ _ i KReasoning (reasoning_id s) (reasoning_output st s') (Some i) HI Hh)
    as (p1 & p2 & p3 & E1 & E2 & E3 & H3); [done..|by right|].
  exists p3. split.
  { unfold reasoning_done_events. cbv zeta.
    by rewrite (run_step p _ _ p1), (run_step p1 _ _ p2), (run_step p2 _ _ p3). }
  split; try apply HL.
  - eapply items_iff; [exact H3| |done]. intros j it. unfold holds at 2.
    change (message_id s') with (message_id s). cbn [s' set_reasoning message reasoning tools]. split.
    + intros [Hj [?|[(_ & ? & _)|?]]]; [by left|done|by right; right].
    + intros Hj. assert (Hs : holds s j it /\ it.(it_kind) <> KReasoning).
      { destruct Hj as [Hm|[Hr|Hc]]; [|by apply slot_item_done in Hr|].
        - split; [by left|]. by destruct Hm as (_ & _ & ->).
        - split; [by right; right|]. by destruct Hc as (? & ? & _ & _ & _ & _ & ->). }
      destruct Hs as [Hs Hk]. split; [|done]. by apply (other_index s p i _ j it HL Hh Hs).
  - intros _. unfold active in Ha. cbn. by destruct (slot_started (reasoning s)).
Qed.

Lemma close_reasoning_moves s p :
  Live s p ->
  let '(s', ev, _) := close_reasoning_for_tool_call s in exists p', run p ev = Some p' /\ Live s' p'.
Proof.
  intros HL. unfold close_reasoning_for_tool_call. destruct (_ || _) eqn:E; [by exists p|]. cbv zeta.
  apply end_reasoning; [done|]. unfold active. by destruct (slot_started _), (slot_done _).
Qed.

Lemma finish_reasoning_moves :
  moves p_step Live (fun s p => Live s p /\ active s.(reasoning) = false) finish_reasoning.
Proof.
  intros s p HL. unfold finish_reasoning. destruct (_ && _) eqn:E.
  - destruct (end_reasoning (output_status s) s p HL E) as (p' & H1 & H2). exists p'.
    split; [exact H1|]. split; [exact H2|apply active_done].
  - by exists p.
Qed.

Lemma finish_text_moves :
  moves p_step Live (fun s p => Live s p /\ active s.(message) = false) finish_text.
Proof.
  intros s p HL. unfold finish_text. destruct (_ && _) eqn:E; [|by exists p]. cbv zeta.
  set (s' := set_message _ _). pose proof (live_items _ _ HL) as HI. set (i := slot_index (message s)).
  assert (Hh : holds s i (item KMessage (message_id s) PartOpen)) by by left.
  destruct (items_end _ _ _ _ i KMessage (message_id s) (message_output (output_status s') s')
              (closed_reasoning s) HI Hh) as (p1 & p2 & p3 & E1 & E2 & E3 & H3); [done..|by left|].
  exists p3. split.
  { cbn [snd]. by rewrite (run_step p _ _ p1), (run_step p1 _ _ p2), (run_step p2 _ _ p3). }
  split; [|apply active_done]. split; try apply HL.
  2:{ intros _. cbn. by destruct (slot_started (message s)). }
  eapply items_iff; [exact H3| |done]. intros j it. unfold holds at 2.
  change (reasoning_id s') with (reasoning_id s). cbn [fst s' set_message message reasoning tools]. split.
  - intros [Hj [(_ & ? & _)|?]]; [done|by right].
  - intros Hj. assert (Hs : holds s j it /\ it.(it_kind) <> KMessage).
    { destruct Hj as [Hm|[Hr|Hc]]; [by apply slot_item_done in Hm|..].
      - split; [by right; left|]. by destruct Hr as (_ & _ & ->).
      - split; [by right; right|]. by destruct Hc as (? & ? & _ & _ & _ & _ & ->). }
    destruct Hs as [Hs Hk]. split; [|done]. by apply (other_index s p i _ j it HL Hh Hs).
Qed.

(** ** Tool calls *)

Section tools.
Context (show : Value -> string) (parse_json : string -> option Value) (pick : list Z -> option Z).
Abbreviation tool_item := (tool_output_item show parse_json).

Lemma kind_of_call t st : kind_of (tool_item t st) = KCall.
Proof. unfold tool_output_item. destruct (bridged t), (custom t), (tool_search t); done. Qed.
Lemma id_of_call t st : o_id (tool_item t st) = call_item_id t.
Proof. unfold tool_output_item, call_item_id. by destruct (bridged t), (custom t), (tool_search t). Qed.
Lemma added_call t st : added_item (tool_item t st) = open_call t.
Proof. unfold added_item. by rewrite kind_of_call, id_of_call. Qed.
Lemma id_of_streamed t : streams_args t = true -> tool_item_id t = call_item_id t.
Proof. unfold streams_args, tool_item_id, call_item_id. by destruct (bridged t), (custom t), (tool_search t). Qed.

(** A call that is set anew keeps the others. *)
Lemma calls_set k t m j it :
  call_item_at (tool_set k t m) j it <->
  (t.(released) = true /\ t.(tool_done) = false /\ j = t.(output_index) /\ it = open_call t) \/
  (exists k' t', k' <> k /\ tool_get k' m = Some t' /\ t'.(released) = true /\ t'.(tool_done) = false /\
     j = t'.(output_index) /\ it = open_call t').
Proof.
  split.
  - intros (k' & t' & H & Hr). rewrite tool_get_set in H. destruct (Z.eqb_spec k' k) as [->|Hk].
    + injection H as <-. by left.
    + right. by exists k', t'.
  - intros [H|(k' & t' & Hk & Hg & H)].
    + exists k, t. rewrite tool_get_set, Z.eqb_refl. done.
    + exists k', t'. rewrite tool_get_set. destruct (Z.eqb_spec k' k); [done|]. done.
Qed.

(** Setting a call that looks to the protocol as before. *)
Definition looks_same (t0 : option ChatTool) (t : ChatTool) : Prop :=
  match t0 with
  | Some t0 => same_call t0 t \/ t0.(released) = false /\ t.(released) = false
  | None => t.(released) = false
  end.

Lemma update_call s p k t :
  Live s p -> tool_ok t -> looks_same (tool_get k s.(tools)) t -> (strict = true -> call_fits ctx (names k) t) ->
  Live (set_tools (tool_set k t s.(tools)) s) p.
Proof.
  intros HL Hok Hsame Hfit.
  assert (Hs : t.(released) = true -> exists t0, tool_get k (tools s) = Some t0 /\ same_call t0 t).
  { intros Hr. unfold looks_same in Hsame. destruct (tool_get k (tools s)) as [t0|]; [|congruence].
    destruct Hsame as [?|[_ ?]]; [by exists t0|congruence]. }
  split; try apply HL; cbn [set_tools tools].
  - eapply items_iff; [apply HL| |done]. intros j it. unfold holds. cbn [set_tools message reasoning tools].
    assert (Hc : call_item_at (tools s) j it <-> call_item_at (tool_set k t (tools s)) j it); [|by rewrite <-Hc].
    rewrite calls_set. split.
    + intros (k' & t' & Hg & Hr). destruct (decide (k' = k)) as [->|]; [|right; by exists k', t'].
      left. rewrite Hg in Hsame. destruct Hsame as [[-> -> -> Ei]|[? _]]; [|destruct Hr; congruence].
      unfold call. rewrite Ei by apply Hr. done.
    + intros [(Hr & H)|(k' & t' & _ & Hg)]; [|by exists k', t'].
      destruct (Hs Hr) as (t0 & E & [E1 E2 E3 E4]). exists k, t0. split; [done|].
      unfold call in *. rewrite E4 in H by congruence. naive_solver congruence.
  - apply tool_set_sorted, HL.
  - intros k' t'. rewrite tool_get_set. destruct (k' =? k); [by intros [= <-]|]. apply (live_tools _ _ HL).
  - assert (Hd : forall k1 t1, tool_get k1 (tool_set k t (tools s)) = Some t1 -> t1.(released) = true ->
      exists t0, tool_get k1 (tools s) = Some t0 /\ same_call t0 t1).
    { intros k1 t1. rewrite tool_get_set. destruct (Z.eqb_spec k1 k) as [->|]; [|intros; by exists t1].
      intros [= <-]. exact Hs. }
    intros k1 k2 t1 t2 E1 E2 R1 R2. apply Hd in E1 as (u1 & G1 & []), E2 as (u2 & G2 & []); [|done..].
    intros D1 D2 I. eapply (live_apart _ _ HL k1 k2 u1 u2); congruence.
  - intros Hst k' t'. rewrite tool_get_set. destruct (Z.eqb_spec k' k) as [->|]; [intros [= <-]; by apply Hfit|].
    by apply (live_fits _ _ HL).
Qed.

Lemma release_moves s p k t :
  Live s p -> tool_get k s.(tools) = Some t -> t.(started) = true -> t.(released) = false ->
  exists p', run p (release_tool show parse_json k t s).2 = Some p' /\ Live (release_tool show parse_json k t s).1 p'.
Proof.
  intros HL Hg Hst Hr. pose proof (live_items _ _ HL) as HI. pose proof (live_tools _ _ HL k t Hg) as Hok.
  assert (Hd : tool_done t = false).
  { destruct (tool_done t) eqn:E; [|done]. destruct (ok_done _ Hok E) as [?|En]; [congruence|].
    pose proof (ok_started _ Hok) as Es. rewrite Hst, En in Es. by rewrite andb_false_r in Es. }
  unfold release_tool. cbv zeta. cbn [fst snd]. set (s' := set_tools _ _). set (i := next_output_index s).
  match goal with |- context [ItemAdded i ?o] => destruct (items_add _ _ _ _ o HI) as (p1 & E1 & H1) end.
  fold i in E1, H1. rewrite added_call in H1.
  assert (H2 : exists p2, Items (fun j it => holds s j it \/ j = i /\ it = open_call t) (closed_reasoning s) (i + 1) p2 /\
    forall d, run p1 (if negb (str_is_empty (pending_args (mark_released i t))) && streams_args (mark_released i t)
      then [ArgsDelta i (tool_item_id (mark_released i t)) d] else []) = Some p2).
  { destruct (_ && _) eqn:E; [|by exists p1]. apply andb_true_iff in E as [_ E].
    destruct (items_same _ _ _ _ i (open_call t) H1 ltac:(by right)) as (p2 & E2 & H2). exists p2. split; [done|].
    intros d. rewrite (id_of_streamed _ E). by rewrite (run_step p1 _ _ p2). }
  destruct H2 as (p2 & H2 & E2). exists p2. split; [by rewrite (run_step p _ _ p1)|].
  assert (Hlt : forall k' t', tool_get k' (tools s) = Some t' -> released t' = true -> tool_done t' = false ->
    output_index t' < i).
  { intros k' t' G R D. eapply (items_below _ _ _ _ _ (open_call t') HI). right; right. by exists k', t'. }
  split; try apply HL; cbn [s' set_tools tools next_index].
  - eapply items_iff; [exact H2| |done]. intros j it. unfold holds. cbn [set_tools next_index message reasoning].
    change (message_id s') with (message_id s). change (reasoning_id s') with (reasoning_id s).
    change (tools s') with (tool_set k (set_args (arguments t +:+ pending_args t) "" (mark_released i t)) (tools s)).
    assert (Hc : call_item_at (tool_set k (set_args (arguments t +:+ pending_args t) "" (mark_released i t)) (tools s)) j it
      <-> call_item_at (tools s) j it \/ j = i /\ it = open_call t); [|rewrite Hc; tauto].
    rewrite calls_set. cbn. split.
    + intros [(_ & _ & H)|(k' & t' & _ & H)]; [by right|]. left. by exists k', t'.
    + intros [(k' & t' & G & R & H)|H]; [|by left]. right. exists k', t'. split; [|done].
      intros ->. rewrite Hg in G. injection G as <-. congruence.
  - apply tool_set_sorted, HL.
  - intros k' t'. rewrite tool_get_set. destruct (k' =? k); [|apply (live_tools _ _ HL)].
    intros [= <-]. destruct Hok. split; cbn; try done. by left.
  - intros k1 k2 t1 t2. rewrite !tool_get_set. destruct (Z.eqb_spec k1 k) as [->|], (Z.eqb_spec k2 k) as [->|]; try done.
    + intros [= <-] G _ R _ D. cbn. specialize (Hlt _ _ G R D). lia.
    + intros G [= <-] R _ D _. cbn. specialize (Hlt _ _ G R D). lia.
    + apply (live_apart _ _ HL).
  - intros Hs k' t'. rewrite tool_get_set. destruct (Z.eqb_spec k' k) as [->|]; [|by apply (live_fits _ _ HL)].
    intros [= <-]. destruct (live_fits _ _ HL Hs k t Hg). by split.
Qed.

Lemma candidate_spec force m k t :
  tools_sorted m -> candidate force m = Some (k, t) ->
  tool_get k m = Some t /\ t.(released) = false /\ (force = true -> t.(started) = true).
Proof.
  clear names ctx. intros Hs H. apply List.find_some in H as [Hin Hp]. apply list_elem_of_In in Hin.
  apply elem_tool_get in Hin; [|done]. cbn in Hp. split; [done|]. destruct (released t), force, (started t); naive_solver.
Qed.

Lemma release_loop_moves n force : moves p_step Live Live (release_loop show parse_json n force).
Proof.
  induction n as [|n IH]; intros s p HL; [by exists p|]. cbn [release_loop].
  destruct (candidate force (tools s)) as [[k t]|] eqn:E; [|by exists p].
  apply candidate_spec in E as (Hg & Hr & _); [|apply HL]. destruct (started t) eqn:Es; [|by exists p].
  rewrite seq_pair. destruct (release_moves s p k t HL Hg Es Hr) as (p1 & H1 & H2).
  destruct (IH _ _ H2) as (p2 & H3 & H4). exists p2. split; [|done]. cbn [snd]. by rewrite run_app, H1.
Qed.
Lemma release_ready_moves force : moves p_step Live Live (release_ready_tools show parse_json force).
Proof. intros s p. apply release_loop_moves. Qed.

(** *** What a release leaves alone, and that it ends *)

Definition keeps (s s' : State) : Prop :=
  head s' = head s /\ verdict s' = verdict s /\ message s' = message s /\ reasoning s' = reasoning s /\
  inline_think s' = inline_think s /\ dropped_tools s' = dropped_tools s /\ tool_ctx s' = tool_ctx s /\
  (forall k, (tool_done <$> tool_get k (tools s')) = (tool_done <$> tool_get k (tools s))).

Lemma release_loop_keeps n force s : tools_sorted s.(tools) -> keeps s (release_loop show parse_json n force s).1.
Proof.
  revert s. induction n as [|n IH]; intros s Hs; [done|]. cbn [release_loop].
  destruct (candidate force (tools s)) as [[k t]|] eqn:E; [|done]. destruct (started t); [|done].
  apply candidate_spec in E as (Hg & _); [|done]. rewrite seq_pair. cbn [fst].
  set (s1 := (release_tool _ _ _ _ _).1). destruct (IH s1) as (E1 & E2 & E3 & E4 & E5 & E6 & E7 & E8).
  { by apply tool_set_sorted. }
  split_and!; try (etrans; [eassumption|done]).
  intros k'. rewrite E8. cbn. rewrite tool_get_set. destruct (Z.eqb_spec k' k) as [->|]; [|done]. by rewrite Hg.
Qed.

Lemma release_loop_keeps_sorted n force s :
  tools_sorted s.(tools) -> tools_sorted (release_loop show parse_json n force s).1.(tools).
Proof.
  revert s. induction n as [|n IH]; intros s Hs; [done|]. cbn [release_loop].
  destruct (candidate force (tools s)) as [[k t]|] eqn:E; [|done]. destruct (started t); [|done].
  rewrite seq_pair. apply IH. by apply tool_set_sorted.
Qed.

(** The calls that a release would still consider. *)
Definition waiting (force : bool) (kt : Z * ChatTool) : bool :=
  negb kt.2.(released) && (negb force || kt.2.(started)).
Definition waiting_count (force : bool) (m : tool_map) : nat := length (List.filter (waiting force) m).

#[local] Instance waiting_count_perm force : Proper ((≡ₚ) ==> eq) (waiting_count force).
Proof.
  intros m m' H. unfold waiting_count. apply Permutation_length. induction H; cbn; repeat destruct (waiting _ _); try done.
  - by constructor.
  - by constructor.
  - by etrans.
Qed.

Lemma release_counts k t s force :
  tools_sorted s.(tools) -> tool_get k s.(tools) = Some t -> waiting force (k, t) = true ->
  waiting_count force s.(tools) = S (waiting_count force (release_tool show parse_json k t s).1.(tools)).
Proof.
  intros Hs Hg Hw. cbn [release_tool fst set_tools tools]. cbv zeta. cbn [set_tools tools].
  destruct (tool_set_known k (set_args (arguments t +:+ pending_args t) "" (mark_released (next_output_index s) t))
    t (tools s) Hs Hg) as (r & E1 & E2).
  transitivity (waiting_count force ((k, t) :: r)); [by rewrite <-E1|].
  transitivity (S (waiting_count force r)); [unfold waiting_count; cbn [List.filter]; by rewrite Hw|].
  f_equal. etrans; [|symmetry; apply waiting_count_perm, E2]. done.
Qed.

Lemma find_none_filter {A} (f : A -> bool) l : List.find f l = None -> List.filter f l = [].
Proof. induction l as [|x l IH]; cbn; [done|]. by destruct (f x). Qed.

Lemma release_loop_done n s :
  tools_sorted s.(tools) -> (waiting_count true s.(tools) <= n)%nat ->
  waiting_count true (release_loop show parse_json n true s).1.(tools) = 0%nat.
Proof.
  revert s. induction n as [|n IH]; intros s Hs Hn; [cbn; lia|]. cbn [release_loop].
  destruct (candidate true (tools s)) as [[k t]|] eqn:E.
  - pose proof E as E'. apply candidate_spec in E as (Hg & Hr & Hst); [|done]. rewrite Hst by done.
    rewrite seq_pair. cbn [fst].
    pose proof (release_counts k t s true Hs Hg ltac:(unfold waiting; cbn; by rewrite Hr, Hst)) as Hc.
    apply IH; [by apply tool_set_sorted|]. lia.
  - change (candidate true (tools s)) with (List.find (waiting true) (tools s)) in E.
    cbn [fst]. unfold waiting_count. by rewrite (find_none_filter _ _ E).
Qed.

Lemma waiting_none m k t :
  waiting_count true m = 0%nat -> tool_get k m = Some t -> t.(started) = true -> t.(released) = true.
Proof.
  intros Hc Hg Hs. apply tool_get_elem in Hg. unfold waiting_count in Hc. apply nil_length_inv in Hc.
  assert (H : (k, t) ∉ List.filter (waiting true) m) by (rewrite Hc; apply not_elem_of_nil).
  rewrite list_elem_of_In, List.filter_In, <-list_elem_of_In in H. destruct (released t) eqn:E; [done|].
  exfalso. apply H. split; [done|]. unfold waiting. cbn. by rewrite E, Hs.
Qed.

Lemma release_all s k t :
  tools_sorted s.(tools) -> tool_get k (release_ready_tools show parse_json true s).1.(tools) = Some t ->
  t.(started) = true -> t.(released) = true.
Proof.
  intros Hs. apply waiting_none, release_loop_done; [done|]. unfold waiting_count. apply List.filter_length_le.
Qed.

(** *** Frames of calls *)

(** A frame that names a call gives its id. *)
Definition named_with_id (tc : ToolCallDelta) : bool :=
  negb (bool_decide (is_Some (trimmed_non_empty (tc.(tc_function) ≫= fn_name)))) ||
  bool_decide (is_Some (trimmed_non_empty tc.(tc_id))).

Lemma str_is_empty_spec x : reflect (x = "") (str_is_empty x).
Proof. unfold str_is_empty. by apply bool_decide_reflect. Qed.

Lemma new_tool_ok : tool_ok new_tool.
Proof. by split. Qed.

Lemma tool_ok_grow t t' :
  tool_ok t -> (t.(tool_id) <> "" -> t'.(tool_id) <> "") -> (t.(tool_name) <> "" -> t'.(tool_name) <> "") ->
  (t'.(tool_name) <> "" -> t'.(tool_id) <> "") ->
  t'.(started) = t.(started) || negb (str_is_empty t'.(tool_id)) && negb (str_is_empty t'.(tool_name)) ->
  t'.(released) = t.(released) -> t'.(tool_done) = false -> tool_ok t'.
Proof.
  intros [H1 H2 H3 H4] Hi Hn Hni Hs Hr Hd. split; [| |done|congruence].
  - rewrite Hs, H1. destruct (str_is_empty_spec (tool_id t)), (str_is_empty_spec (tool_name t)),
      (str_is_empty_spec (tool_id t')), (str_is_empty_spec (tool_name t')); cbn; tauto.
  - rewrite Hr, Hs. intros H. by rewrite (H2 H).
Qed.

Lemma identify_ok c tc r t :
  named_with_id tc = true -> tool_done t = false -> tool_ok t -> tool_ok (start_tool r (identify c tc t)).
Proof.
  intros Hn Hd Hok. unfold named_with_id in Hn. pose proof (ok_named _ Hok) as Hni.
  pose proof (trimmed_non_empty_some tc.(tc_id)) as Hid.
  pose proof (trimmed_non_empty_some (tc.(tc_function) ≫= fn_name)) as Hname.
  apply (tool_ok_grow t); unfold identify; try done;
    destruct (trimmed_non_empty (tc_id tc)) as [i|]; destruct (trimmed_non_empty (_ ≫= fn_name)) as [n|]; cbn in *; naive_solver.
Qed.

Lemma identify_fits x tc r t :
  agrees (given_id tc) x.1 = true -> agrees (given_name tc) x.2 = true -> call_fits ctx x t ->
  call_fits ctx x (start_tool r (identify ctx tc t)).
Proof.
  unfold agrees, given_id, given_name, identify. intros Hi Hn [F1 F2 F3 F4].
  pose proof (trimmed_non_empty_some (tc.(tc_function) ≫= fn_name)) as Hne.
  assert (Hi' : default (tool_id t) (trimmed_non_empty (tc_id tc)) <> "" ->
    default (tool_id t) (trimmed_non_empty (tc_id tc)) = x.1).
  { destruct (trimmed_non_empty (tc_id tc)); [by apply bool_decide_eq_true in Hi|done]. }
  destruct (trimmed_non_empty (_ ≫= fn_name)) as [n|]; [|by split].
  apply bool_decide_eq_true in Hn as ->. specialize (Hne _ eq_refl). split; [done|done|..];
    cbn [start_tool bridged custom tool_search tool_name orig_name namespace]; (destruct (str_is_empty_spec x.2); [done|]).
  - unfold named_kind in *. destruct (str_is_empty (tool_name t)); injection F3 as _ -> ->; [done|]. by rewrite !orb_diag.
  - unfold named_origin in *. destruct (lookup_tool ctx x.2) as [sp|]; [|by destruct (str_is_empty (tool_name t))].
    destruct (bool_decide (kind sp = Namespace)); [done|]. by destruct (str_is_empty (tool_name t)).
Qed.

(** A call that has both an id and a name keeps the id of its item. *)
Lemma fits_item_id x t t' :
  call_fits ctx x t -> call_fits ctx x t' -> tool_ok t -> tool_ok t' ->
  t.(released) = true -> t'.(released) = true -> call_item_id t' = call_item_id t.
Proof.
  assert (H : forall u, call_fits ctx x u -> tool_ok u -> released u = true ->
    (tool_id u, (bridged u, custom u, tool_search u)) = (x.1, named_kind ctx x.2)).
  { intros u [F1 F2 F3 _] [O1 O2 _ _] R. specialize (O2 R). rewrite O1 in O2. rewrite F3.
    destruct (str_is_empty_spec (tool_id u)), (str_is_empty_spec (tool_name u)); cbn in O2; try done. by rewrite F1. }
  intros F F' O O' R R'. pose proof (H t F O R) as E. rewrite <-(H t' F' O' R') in E. injection E as E1 E2 E3 E4.
  unfold call_item_id. by rewrite E1, E2, E3, E4.
Qed.

Lemma identify_same x tc r t :
  named_with_id tc = true -> tool_done t = false -> tool_ok t ->
  (strict = true -> call_fits ctx x t /\ call_fits ctx x (start_tool r (identify ctx tc t))) ->
  same_call t (start_tool r (identify ctx tc t)).
Proof.
  intros Hn Hd Hok Hf. pose proof (identify_ok ctx tc r t Hn Hd Hok) as Hok'.
  assert (E : released (start_tool r (identify ctx tc t)) = released t /\
    output_index (start_tool r (identify ctx tc t)) = output_index t /\
    tool_done (start_tool r (identify ctx tc t)) = tool_done t).
  { unfold identify. by destruct (trimmed_non_empty (_ ≫= fn_name)). }
  destruct E as (E1 & E2 & E3). split; try done. intros R. unfold id_seen. destruct strict; [|done].
  destruct (Hf eq_refl) as [F F']. apply (fits_item_id x); try done. by rewrite E1.
Qed.

Lemma new_tool_fits x : call_fits ctx x new_tool.
Proof. by split. Qed.

Lemma set_args_ok a b t : tool_ok t -> tool_ok (set_args a b t).
Proof. intros []. by split. Qed.
Lemma set_args_fits x a b t : call_fits ctx x t -> call_fits ctx x (set_args a b t).
Proof. intros []. by split. Qed.
Lemma frame_args_fits x tc t : call_fits ctx x t -> call_fits ctx x (frame_args tc t).1.
Proof.
  intros H. unfold frame_args, add_args. destruct (_ ≫= _) as [a|]; [|done]. destruct (str_is_empty a); [done|].
  destruct (_ && _); by apply set_args_fits.
Qed.

Lemma frame_args_ok tc t :
  tool_ok t -> tool_ok (frame_args tc t).1 /\ same_call t (frame_args tc t).1.
Proof.
  intros H. unfold frame_args. destruct (_ ≫= _) as [a|]; [|by split]. destruct (str_is_empty a); [by split|].
  unfold add_args. destruct (_ && _); (split; [by apply set_args_ok|by split]).
Qed.

Lemma call_args_run tc t s p :
  Live s p -> (released t = true -> holds s t.(output_index) (open_call t)) ->
  exists p', run p (frame_args tc t).2 = Some p' /\ Live s p'.
Proof.
  intros HL Hh. unfold frame_args. destruct (_ ≫= _) as [a|]; [|by exists p]. destruct (str_is_empty a); [by exists p|].
  unfold add_args. destruct (started t && released t) eqn:E; [|by exists p]. cbn [snd].
  destruct (streams_args t) eqn:Es; [|by exists p]. rewrite (id_of_streamed t Es).
  destruct (items_same _ _ _ _ _ _ (live_items _ _ HL) (Hh ltac:(by destruct (started t)))) as (p1 & E1 & H1).
  exists p1. split; [by rewrite (run_step p _ _ p1)|]. split; try apply HL. done.
Qed.

Lemma same_call_trans t1 t2 t3 : same_call t1 t2 -> same_call t2 t3 -> same_call t1 t3.
Proof. intros [E1 E2 E3 E4] [F1 F2 F3 F4]. split; [congruence..|]. intros R. rewrite F4 by congruence. auto. Qed.

(** A frame that names a call gives its id and, in the strict reading, agrees with what is known of the call. *)
Definition frame_ok (tc : ToolCallDelta) : bool := named_with_id tc && (negb strict || steady names tc).

Lemma release_open force s : tools_sorted s.(tools) -> Open s -> Open (release_ready_tools show parse_json force s).1.
Proof.
  intros Hs [H1 H2]. destruct (release_loop_keeps (length (tools s)) force s Hs) as (_ & _ & Em & _ & _ & _ & _ & Ed).
  split; [unfold release_ready_tools; by rewrite Em|]. intros k t Ht. specialize (Ed k).
  unfold release_ready_tools in Ht. rewrite Ht in Ed. destruct (tool_get k (tools s)) eqn:E; [|done].
  injection Ed as ->. by eapply H2.
Qed.

Abbreviation LiveOpen := (fun s p => Live s p /\ Open s).

Lemma release_live_open force : moves p_step LiveOpen LiveOpen (release_ready_tools show parse_json force).
Proof.
  intros s p [HL HO]. destruct (release_ready_moves force s p HL) as (p' & H1 & H2). exists p'. split; [done|].
  split; [done|]. apply release_open; [apply HL|done].
Qed.

Lemma append_tool_moves tc r :
  frame_ok tc = true -> moves p_step LiveOpen LiveOpen (append_tool_call_delta show parse_json pick tc r).
Proof.
  intros [Hn Hst]%andb_true_iff. eapply moves_seq; [|apply release_live_open]. intros s p [HL [Hm Hd]]. cbv zeta.
  set (k := chat_index pick tc s). set (t0 := default new_tool (tool_get k (tools (set_last_key k s)))).
  assert (H0 : tool_ok t0 /\ tool_done t0 = false /\ (released t0 = true -> holds s t0.(output_index) (open_call t0)) /\
    (forall t, same_call t0 t -> looks_same (tool_get k (tools s)) t) /\
    (strict = true -> call_fits ctx (names k) t0)).
  { unfold t0. cbn [set_last_key tools]. destruct (tool_get k (tools s)) as [t|] eqn:E; cbn.
    - split_and!; [by eapply live_tools|by eapply Hd| |by left|intros Hb; by apply (live_fits _ _ HL Hb)].
      intros Hr. right; right. exists k, t. split_and!; try done. by eapply Hd.
    - split_and!; try done. by intros t []. }
  destruct H0 as (Hok0 & Hd0 & Hh0 & Hl0 & Hf0). change (tool_ctx (set_last_key k s)) with (tool_ctx s).
  rewrite (live_ctx _ _ HL). set (t := start_tool r (identify ctx tc t0)).
  assert (Hf : strict = true -> call_fits ctx (names k) t).
  { intros Hb. rewrite Hb in Hst. cbn in Hst. unfold steady in Hst. destruct (tc_index tc) as [i|] eqn:Ei; [|done].
    assert (k = i) as -> by (unfold k, chat_index; by rewrite Ei). apply andb_true_iff in Hst as [? ?].
    apply identify_fits; auto. }
  assert (Hs : same_call t0 t) by (apply (identify_same (names k)); auto).
  assert (Hok : tool_ok t) by by apply identify_ok.
  destruct (frame_args_ok tc t Hok) as [Hok' Hs']. pose proof (fun Hb => frame_args_fits (names k) tc t (Hf Hb)) as Hf'.
  assert (HL' : Live (set_last_key k s) p) by (split; apply HL).
  destruct (call_args_run tc t (set_last_key k s) p HL') as (p1 & E1 & H1).
  { destruct Hs as [E1 E2 _ E3]. unfold call. rewrite E1, E2. intros R. rewrite E3 by done. by apply Hh0. }
  destruct (frame_args tc t) as [t' ev]. cbn [fst snd] in *. exists p1. split; [done|]. split.
  - apply update_call; [done..| |done]. cbn [set_last_key tools]. apply Hl0. by eapply same_call_trans.
  - split; [exact Hm|]. cbn. intros k' u. rewrite tool_get_set. destruct (k' =? k); [|apply Hd].
    intros [= <-]. destruct Hs' as [_ _ -> _], Hs as [_ _ -> _]. done.
Qed.

Lemma tool_frame_moves tc :
  frame_ok tc = true -> moves p_step LiveOpen LiveOpen (tool_frame show parse_json pick tc).
Proof.
  intros Hn s p [HL HO]. unfold tool_frame. pose proof (close_reasoning_moves s p HL) as Hc.
  assert (HO' : Open (close_reasoning_for_tool_call s).1.1).
  { unfold close_reasoning_for_tool_call. by destruct (_ || _). }
  destruct (close_reasoning_for_tool_call s) as [[s1 ev] r]. destruct Hc as (p1 & E1 & H1). cbn [fst] in HO'.
  destruct (append_tool_moves tc r Hn s1 p1 (conj H1 HO')) as (p2 & E2 & H2).
  destruct (append_tool_call_delta _ _ _ tc r s1) as [s2 ev']. cbn [fst snd] in *. exists p2.
  split; [by rewrite run_app, E1|done].
Qed.

(** *** The end of the calls *)

Definition AllOut (s : State) : Prop := forall k t, tool_get k s.(tools) = Some t -> t.(started) = true -> t.(released) = true.
Definition done_at (s : State) (k : Z) : option bool := tool_done <$> tool_get k s.(tools).

Lemma call_done_run s p st t :
  Items (holds s) (closed_reasoning s) (next_output_index s) p -> holds s t.(output_index) (open_call t) ->
  exists p', run p (tool_done_events show parse_json st t) = Some p' /\
    Items (fun j it => j <> t.(output_index) /\ holds s j it) (closed_reasoning s) (next_output_index s) p'.
Proof.
  intros HI Hh. unfold tool_done_events. cbv zeta. set (i := output_index t) in *.
  (* closing after the item has been moved, or not *)
  assert (Hend : forall q sg H, Items H (closed_reasoning s) (next_output_index s) q -> H i (call (call_item_id t) sg) ->
    (forall j it, j <> i -> H j it <-> holds s j it) ->
    exists p', run q [ItemDone i (tool_item t st)] = Some p' /\
      Items (fun j it => j <> i /\ holds s j it) (closed_reasoning s) (next_output_index s) p').
  { intros q sg H Hq Hi Hj.
    destruct (items_close _ _ _ _ i (call _ sg) (tool_item t st) (closed_reasoning s) Hq Hi) as (p' & E' & H');
      [by rewrite kind_of_call|left; by rewrite id_of_call|by left|].
    exists p'. split; [by rewrite (run_step q _ _ p')|]. eapply items_iff; [exact H'| |done]. naive_solver. }
  destruct (items_move _ _ _ _ i _ (call (call_item_id t) PayloadDone) HI Hh) as (p1 & E1 & H1).
  assert (Hfin : exists p', run p1 [ItemDone i (tool_item t st)] = Some p' /\
      Items (fun j it => j <> i /\ holds s j it) (closed_reasoning s) (next_output_index s) p').
  { eapply Hend; [exact H1|by right|]. naive_solver. }
  destruct (bridged t || tool_search t) eqn:Eb; [by eapply Hend|]. rewrite id_of_call.
  destruct Hfin as (p' & E' & H'). destruct (custom t) eqn:Ec.
  - destruct (str_is_empty _); cbn [app].
    + exists p'. split; [|done]. by rewrite (run_step p _ _ p1).
    + destruct (items_same _ _ _ _ _ _ HI Hh) as (p0 & E0 & H0).
      destruct (items_move _ _ _ _ i _ (call (call_item_id t) PayloadDone) H0 Hh) as (p2 & E2 & H2).
      destruct (Hend p2 PayloadDone _ H2) as (p3 & E3 & H3); [by right|naive_solver|].
      exists p3. split; [|done]. by rewrite (run_step p _ _ p0), (run_step p0 _ _ p2).
  - exists p'. split; [|done]. cbn [app]. rewrite id_of_streamed; [by rewrite (run_step p _ _ p1)|].
    unfold streams_args. rewrite Ec. by destruct (bridged t), (tool_search t).
Qed.

Lemma close_tool_id id t : tool_ok t -> tool_id (close_tool id t) = tool_id t.
Proof.
  intros []. cbn. destruct (str_is_empty_spec (tool_name t)), (str_is_empty_spec (tool_id t)); cbn; naive_solver.
Qed.

Lemma close_call_id id t : tool_ok t -> call_item_id (close_tool id t) = call_item_id t.
Proof. intros Hok. unfold call_item_id. by rewrite (close_tool_id id t Hok). Qed.

Lemma close_tool_fits id x t : tool_ok t -> call_fits ctx x t -> call_fits ctx x (close_tool id t).
Proof. intros Hok []. split; rewrite ?(close_tool_id id t Hok); done. Qed.

Lemma close_tool_ok id t :
  tool_ok t -> (t.(started) = true -> t.(released) = true) -> tool_ok (close_tool id t).
Proof.
  intros Hok Hr. pose proof (close_tool_id id t Hok) as E. pose proof Hok as [H1 H2 H3 H4].
  split; rewrite ?E; try done. intros _. cbn.
  destruct (str_is_empty_spec (tool_name t)) as [|Hn]; [by right|left]. apply Hr. rewrite H1.
  specialize (H3 Hn). by destruct (str_is_empty_spec (tool_id t)), (str_is_empty_spec (tool_name t)).
Qed.

Lemma finish_tool_spec k s p :
  Live s p -> AllOut s ->
  let '(s', ev) := finish_tool show parse_json k s in
  exists p', run p ev = Some p' /\ Live s' p' /\ AllOut s' /\ message s' = message s /\ reasoning s' = reasoning s /\
    (forall j, done_at s' j = if j =? k then (fun _ => true) <$> tool_get j s.(tools) else done_at s j).
Proof.
  intros HL Ha. unfold finish_tool. destruct (tool_get k (tools s)) as [t|] eqn:Hg.
  2:{ exists p. split_and!; try done. intros j. destruct (Z.eqb_spec j k) as [->|]; [|done]. unfold done_at. by rewrite Hg. }
  destruct (tool_done t) eqn:Ed.
  { exists p. split_and!; try done. intros j. destruct (Z.eqb_spec j k) as [->|]; [|done]. unfold done_at. rewrite Hg.
    cbn. by rewrite Ed. }
  cbv zeta. set (t' := close_tool _ t). set (s' := set_tools _ _).
  pose proof (live_tools _ _ HL k t Hg) as Hok. pose proof (Ha k t Hg) as Hr.
  assert (Hok' : tool_ok t') by by apply close_tool_ok.
  assert (Hfit : strict = true -> call_fits ctx (names k) t').
  { intros Hb. apply close_tool_fits; [done|]. by apply (live_fits _ _ HL Hb). }
  assert (Hdone : forall j, done_at s' j = if j =? k then (fun _ => true) <$> tool_get j s.(tools) else done_at s j).
  { intros j. unfold done_at, s'. cbn [set_tools tools]. rewrite tool_get_set. destruct (Z.eqb_spec j k) as [->|]; [|done].
    by rewrite Hg. }
  assert (HA' : AllOut s').
  { intros j u. unfold s'. cbn [set_tools tools]. rewrite tool_get_set. destruct (j =? k); [|apply Ha].
    by intros [= <-]. }
  change (tool_name t') with (tool_name t). destruct (str_is_empty_spec (tool_name t)) as [Hn|Hn].
  - exists p. split_and!; try done. enough (Live s' p) as [] by by split. apply update_call; [done..| |done].
    rewrite Hg. right. assert (Hrel : released t = false); [|done].
    destruct (released t) eqn:E; [|done]. pose proof (ok_released _ Hok E) as Hs. rewrite (ok_started _ Hok), Hn in Hs.
    by rewrite andb_false_r in Hs.
  - assert (Hs : started t = true).
    { rewrite (ok_started _ Hok). pose proof (ok_named _ Hok Hn).
      by destruct (str_is_empty_spec (tool_id t)), (str_is_empty_spec (tool_name t)). }
    specialize (Hr Hs). pose proof (live_items _ _ HL) as HI.
    assert (Hh : holds s (output_index t') (open_call t')) by (right; right; exists k, t; split_and!; try done; unfold t'; by rewrite close_call_id).
    destruct (call_done_run s p (output_status s) t' HI Hh) as (p' & E' & H'). exists p'. split_and!; try done.
    split; try apply HL; unfold s'; cbn [set_tools tools].
    + eapply items_iff; [exact H'| |done]. intros j it. unfold holds at 2. cbn [set_tools message reasoning tools].
      rewrite calls_set. split.
      * intros [Hj [Hm|[Hm|(k' & u & G & R)]]]; [by left|by right; left|]. right; right; right.
        exists k', u. split; [|done]. intros ->. rewrite Hg in G. injection G as <-. naive_solver.
      * intros Hj. assert (Hc : holds s j it /\ (it.(it_kind) <> KCall \/ j <> output_index t)).
        { destruct Hj as [Hm|[Hm|[(_ & ? & _)|(k' & u & Hk & G & R & D & -> & ->)]]]; [| |done|].
          - split; [by left|left]. by destruct Hm as (_ & _ & ->).
          - split; [by right; left|left]. by destruct Hm as (_ & _ & ->).
          - split; [right; right; by exists k', u|right]. intros E. apply Hk. symmetry.
            by apply (live_apart _ _ HL k k' t u). }
        destruct Hc as [Hc Hk]. split; [|done]. destruct Hk as [Hk|?]; [|done].
        by apply (other_index s p (output_index t') (open_call t') j it HL Hh Hc).
    + apply tool_set_sorted, HL.
    + intros j u. rewrite tool_get_set. destruct (j =? k); [by intros [= <-]|apply (live_tools _ _ HL)].
    + intros k1 k2 t1 t2. rewrite !tool_get_set. destruct (k1 =? k); [intros [= <-]; done|].
      destruct (k2 =? k); [intros _ [= <-]; done|]. apply (live_apart _ _ HL).
    + intros Hb j u. rewrite tool_get_set. destruct (Z.eqb_spec j k) as [->|]; [intros [= <-]; by apply Hfit|].
      by apply (live_fits _ _ HL).
Qed.

Lemma finish_each l s p :
  Live s p -> AllOut s ->
  let '(s', ev) := each (finish_tool show parse_json) l s in
  exists p', run p ev = Some p' /\ Live s' p' /\ message s' = message s /\ reasoning s' = reasoning s /\
    (forall j b, done_at s' j = Some b -> j ∈ l \/ done_at s j = Some true -> b = true) /\
    (forall j, done_at s' j = None <-> done_at s j = None).
Proof.
  revert s p. induction l as [|k l IH]; intros s p HL HA.
  { cbn. exists p. split_and!; try done. intros j b H [Hj|Hj]; [by apply elem_of_nil in Hj|congruence]. }
  cbn [each]. rewrite seq_pair. pose proof (finish_tool_spec k s p HL HA) as H1.
  destruct (finish_tool _ _ k s) as [s1 ev1]. destruct H1 as (p1 & E1 & HL1 & HA1 & Em1 & Er1 & Hd1). cbn [fst snd].
  pose proof (IH s1 p1 HL1 HA1) as H2. destruct (each _ l s1) as [s2 ev2].
  destruct H2 as (p2 & E2 & HL2 & Em2 & Er2 & Hd2 & Hk2). exists p2. cbn [fst snd].
  split_and!; [by rewrite run_app, E1|done|congruence|congruence| |].
  - intros j b H Hj. apply (Hd2 j b H). pose proof (Hd1 j) as Hdj. destruct (Z.eqb_spec j k) as [Ejk|Hne].
    + right. subst j. rewrite Hdj. destruct (tool_get k (tools s)) eqn:E; [done|]. exfalso.
      assert (N : done_at s2 k = None); [|congruence]. rewrite Hk2, Hdj. done.
    + destruct Hj as [Hj|Hj]; [|right; by rewrite Hdj]. apply elem_of_cons in Hj as [?|Hj]; [done|by left].
  - intros j. rewrite Hk2, Hd1. unfold done_at. destruct (j =? k); [|done]. by destruct (tool_get j (tools s)).
Qed.

(** Everything is closed. *)
Definition Closed (s : State) : Prop :=
  active s.(message) = false /\ active s.(reasoning) = false /\ forall k, done_at s k <> Some false.

Lemma closed_empty s p : Live s p -> Closed s -> p.(p_open) = ∅.
Proof.
  intros HL (Hm & Hr & Ht). apply map_empty. intros i. destruct (p_open p !! i) as [it|] eqn:E; [|done].
  apply (items_open _ _ _ _ (live_items _ _ HL)) in E as [[? _]|[[? _]|(k & t & G & _ & D & _)]]; [congruence..|].
  exfalso. apply (Ht k). unfold done_at. rewrite G. cbn. by rewrite D.
Qed.

Lemma finish_tools_moves :
  moves p_step (fun s p => Live s p /\ AllOut s /\ active s.(message) = false /\ active s.(reasoning) = false)
    (fun s p => Live s p /\ Closed s) (finish_tools show parse_json).
Proof.
  intros s p (HL & HA & Hm & Hr). unfold finish_tools. pose proof (finish_each (tools s).*1 s p HL HA) as H.
  destruct (each _ _ s) as [s' ev]. destruct H as (p' & E & HL' & Em & Er & Hd & Hk). exists p'. split; [done|].
  split; [done|]. cbn [fst]. split_and!; [by rewrite Em|by rewrite Er|]. intros k Hf.
  assert (Hin : k ∈ (tools s).*1).
  { destruct (tool_get k (tools s)) as [t|] eqn:G.
    - apply tool_get_elem in G. apply list_elem_of_fmap. by exists (k, t).
    - assert (done_at s' k = None); [|congruence]. apply Hk. unfold done_at. by rewrite G. }
  by specialize (Hd k false Hf (or_introl Hin)).
Qed.

Lemma done_delta_moves :
  moves p_step Live (fun s p => Live s p /\ Closed s) (done_delta_events show parse_json).
Proof.
  unfold done_delta_events. eapply moves_seq; [apply release_ready_moves|].
  eapply moves_seq with (R2 := fun s p => Live s p /\ AllOut s).
  { intros s p HL. destruct (release_ready_moves true s p HL) as (p' & H1 & H2). exists p'. split; [done|].
    split; [done|]. intros k t. apply release_all, HL. }
  eapply moves_seq with (R2 := fun s p => Live s p /\ AllOut s /\ active s.(message) = false).
  { intros s p [HL HA]. destruct (finish_text_moves s p HL) as (p' & H1 & H2 & H3). exists p'. split; [done|].
    split_and!; try done. unfold finish_text. by destruct (_ && _). }
  eapply moves_seq; [|apply finish_tools_moves].
  intros s p (HL & HA & Hm). destruct (finish_reasoning_moves s p HL) as (p' & H1 & H2 & H3). exists p'. split; [done|].
  split_and!; try done; unfold finish_reasoning; by destruct (_ && _).
Qed.

Lemma append_reasoning_open d s : Open s -> Open (append_reasoning_delta d s).1.
Proof.
  intros [Hm Ht]. unfold append_reasoning_delta. rewrite seq_pair. cbn [fst set_tools set_reasoning tools message].
  set (s1 := (start_reasoning s).1). assert (E : message s1 = message s /\ tools s1 = tools s).
  { unfold s1, start_reasoning. cbv zeta. destruct (_ || _); [|done]. by destruct (slot_done (reasoning s)). }
  destruct E as [Em Et]. split; [change (slot_done (message s1) = false); by rewrite Em|].
  cbn. fold s1. rewrite Et. clear -Ht. intros k.
  revert Ht. generalize (tools s). intros m Ht. specialize (Ht k). induction m as [|[k' t] m IH]; [done|]. cbn in *.
  destruct (k =? k'); [|by apply IH]. intros u [= <-]. specialize (Ht t eq_refl). by destruct (started t).
Qed.

(** ** Chunks *)

(** Operations that neither feed the splitter of inline thinking nor start the message. *)
Definition thinking (s : State) : InlineThinkState * bool := (inline_think s, slot_started (message s)).
Abbreviation thoughtless := (fixes thinking).

Lemma release_thoughtless force : thoughtless (release_ready_tools show parse_json force).
Proof.
  intros s. unfold release_ready_tools. generalize (length (tools s)). intros n. revert s.
  induction n as [|n IH]; intros s; [done|]. cbn [release_loop]. destruct (candidate _ _) as [[k t]|]; [|done].
  destruct (started t); [|done]. rewrite seq_pair. cbn [fst]. by rewrite IH.
Qed.
Lemma done_delta_thoughtless : thoughtless (done_delta_events show parse_json).
Proof.
  repeat apply fixes_seq; try apply release_thoughtless.
  - intros s. unfold finish_text. by destruct (_ && _).
  - intros s. unfold finish_reasoning. by destruct (_ && _).
  - intros s. unfold finish_tools. apply (fixes_each thinking). clear s. intros k s. unfold finish_tool.
    destruct (tool_get _ _) as [t|]; [|done]. destruct (tool_done t); [done|]. cbv zeta. by destruct (str_is_empty _).
Qed.
Lemma note_finish_thoughtless fr : thoughtless (note_finish show parse_json fr).
Proof.
  apply fixes_seq; [|apply done_delta_thoughtless]. intros s. cbn. unfold apply_finish_reason.
  by destruct (finish_reason_to_status fr).
Qed.
Lemma append_reasoning_thoughtless d : thoughtless (append_reasoning_delta d).
Proof.
  apply fixes_seq; [|done]. intros s. unfold start_reasoning. cbv zeta. destruct (_ || _); [|done].
  by destruct (slot_done (reasoning s)).
Qed.
Lemma tool_frame_thoughtless tc : thoughtless (tool_frame show parse_json pick tc).
Proof.
  intros s. unfold tool_frame. assert (H : thinking (close_reasoning_for_tool_call s).1.1 = thinking s).
  { unfold close_reasoning_for_tool_call. by destruct (_ || _). }
  destruct (close_reasoning_for_tool_call s) as [[s1 ev] r]. cbn [fst] in H.
  assert (H' : thoughtless (append_tool_call_delta show parse_json pick tc r)).
  { apply fixes_seq; [|apply release_thoughtless]. intros s'. cbv zeta. by destruct (frame_args _ _). }
  specialize (H' s1). destruct (append_tool_call_delta _ _ _ _ _ s1). cbn [fst] in *. congruence.
Qed.

(** What the splitter may still hold: with no refusals the message starts only after the splitter has
    decided, with no content the splitter has nothing. *)
Definition Thought (no_refusal : bool) (s : State) : Prop :=
  if no_refusal then slot_started (message s) = true -> mode (inline_think s) <> Detecting
  else inline_think s = InlineThink.new.

Definition Flow (seen no_refusal : bool) (s : State) (p : Protocol) : Prop :=
  Live s p /\ (seen = false -> Open s) /\ Thought no_refusal s.

Lemma thoughtless_thought nr (o : op) s : thoughtless o -> Thought nr s -> Thought nr (o s).1.
Proof. intros H. injection (H s) as E1 E2. unfold Thought. by rewrite E1, E2. Qed.

Lemma reasoning_flow b nr d : moves p_step (Flow b nr) (Flow b nr) (append_reasoning_delta d).
Proof.
  intros s p (HL & HO & HT). destruct (append_reasoning_moves d s p HL) as (p' & E & H). exists p'. split; [done|].
  split_and!; [done| |by apply thoughtless_thought; [apply append_reasoning_thoughtless|]].
  intros Hb. by apply append_reasoning_open, HO.
Qed.

(** Text that arrives before anything is closed. *)
Definition all_open (m : tool_map) : Prop := forall k t, tool_get k m = Some t -> tool_done t = false.
Lemma text_flow d : moves p_step LiveOpen LiveOpen (append_text_delta d).
Proof. exact (append_text_moves all_open d). Qed.

Lemma append_text_think d s : inline_think (append_text_delta d s).1 = inline_think s.
Proof. unfold append_text_delta. rewrite seq_pair. cbn. unfold start_text. by destruct (slot_started _). Qed.

Lemma refusal_flow d : moves p_step (Flow false false) (Flow false false) (append_text_delta d).
Proof.
  intros s p (HL & HO & HT). destruct (text_flow d s p (conj HL (HO eq_refl))) as (p' & E & H1 & H2).
  exists p'. split; [done|]. split_and!; [done..|]. unfold Thought. by rewrite append_text_think.
Qed.

(** After the splitter has decided. *)
Definition Decided (s : State) (p : Protocol) : Prop := Live s p /\ Open s /\ mode (inline_think s) <> Detecting.

Lemma decided_emit o : moves p_step Decided Decided (emit_think o).
Proof.
  eapply moves_seq; apply moves_each; intros d _ s p (HL & HO & HT).
  - destruct (append_reasoning_moves d s p HL) as (p' & E & H). exists p'. split; [done|].
    split_and!; [done|by apply append_reasoning_open|]. injection (append_reasoning_thoughtless d s) as E1 _. by rewrite E1.
  - destruct (text_flow d s p (conj HL HO)) as (p' & E & H1 & H2). exists p'. split; [done|].
    split_and!; [done..|]. by rewrite append_text_think.
Qed.

Lemma feed_mode d st :
  (mode st <> Detecting -> mode (InlineThink.feed d st).1 <> Detecting) /\
  ((InlineThink.feed d st).2.2 <> [] -> mode (InlineThink.feed d st).1 <> Detecting).
Proof.
  unfold InlineThink.feed, emit_reasoning. destruct (mode st) eqn:E; cbn; [|..].
  - destruct (leading_think_prefix_decision _); cbn; try done. destruct (find_sub _ _); [done|]. by destruct (_ =? _)%nat.
  - destruct (find_sub _ _); [done|]. by destruct (_ =? _)%nat.
  - split; congruence.
Qed.

Lemma feed_flow c : moves p_step (Flow false true) (Flow false true) (feed_content c).
Proof.
  intros s p (HL & HO & HT). unfold feed_content. destruct (feed_mode c (inline_think s)) as [F1 F2].
  destruct (InlineThink.feed c (inline_think s)) as [t [think text]]. cbn [fst snd] in *.
  assert (HL' : Live (set_think t s) p) by (split; apply HL). specialize (HO eq_refl).
  destruct text as [|x text].
  - assert (HF : Flow false true (set_think t s) p) by (split_and!; [done..|intros Hs; apply F1, HT, Hs]).
    unfold emit_think. cbn [snd fst each].
    eapply (moves_seq p_step); [apply moves_each; intros d _; apply reasoning_flow|apply moves_nil|exact HF].
  - destruct (decided_emit (think, x :: text) (set_think t s) p) as (p' & E & H1 & H2 & H3).
    { split_and!; [done..|by apply F2]. }
    exists p'. split; [done|]. split_and!; [done..|by intros _].
Qed.

(** *** The upstreams for which the stream is well formed *)

Definition finishes (c : ChatStreamChoice) : bool :=
  bool_decide (is_Some (trimmed_non_empty c.(choice_finish_reason))).
Definition content_free (c : ChatStreamChoice) : bool :=
  bool_decide (delta_content_of show c.(choice_delta) = None).
Definition refusal_free (c : ChatStreamChoice) : bool :=
  bool_decide (trimmed_non_empty c.(choice_delta).(delta_refusal) = None).
Definition call_free (c : ChatStreamChoice) : bool := bool_decide (c.(choice_delta).(delta_tool_calls) = []).

(** After a finish reason, nothing but reasoning and further finish reasons. *)
Fixpoint quiet_after_finish (seen : bool) (l : list ChatStreamChoice) : bool :=
  match l with
  | [] => true
  | c :: l =>
      (negb seen || content_free c && refusal_free c && call_free c) && quiet_after_finish (seen || finishes c) l
  end.

Definition well_formed (l : list ChatStreamChoice) : bool :=
  forallb (fun c => forallb named_with_id c.(choice_delta).(delta_tool_calls)) l && quiet_after_finish false l &&
  (forallb refusal_free l || forallb content_free l).

(** One choice: its calls name their ids, it brings no refusal or no content. *)
Definition fits (seen no_refusal : bool) (c : ChatStreamChoice) : bool :=
  forallb frame_ok c.(choice_delta).(delta_tool_calls) &&
  (negb seen || content_free c && refusal_free c && call_free c) &&
  (if no_refusal then refusal_free c else content_free c).

Lemma note_finish_flow b nr fr : moves p_step (Flow b nr) (Flow true nr) (note_finish show parse_json fr).
Proof.
  intros s p (HL & _ & HT).
  assert (HL' : Live (apply_finish_reason fr s) p).
  { unfold apply_finish_reason. destruct (finish_reason_to_status fr). split; apply HL. }
  destruct (done_delta_moves _ _ HL') as (p' & E & H & _). exists p'. unfold note_finish. rewrite seq_pair. cbn [modify fst snd app].
  split; [done|]. split_and!; [done..|].
  apply (thoughtless_thought nr (note_finish show parse_json fr) s) in HT; [|apply note_finish_thoughtless].
  unfold note_finish in HT. by rewrite seq_pair in HT.
Qed.

Lemma tool_frame_flow nr tc :
  frame_ok tc = true -> moves p_step (Flow false nr) (Flow false nr) (tool_frame show parse_json pick tc).
Proof.
  intros Hn s p (HL & HO & HT). destruct (tool_frame_moves tc Hn s p (conj HL (HO eq_refl))) as (p' & E & H1 & H2).
  exists p'. split; [done|]. split_and!; [done..|]. by apply thoughtless_thought; [apply tool_frame_thoughtless|].
Qed.

Lemma choice_flow b nr c :
  fits b nr c = true -> moves p_step (Flow b nr) (Flow (b || finishes c) nr) (process_choice show parse_json pick c).
Proof.
  unfold fits. intros [[Hn Hq]%andb_true_iff Hr]%andb_true_iff. unfold process_choice. cbv zeta.
  eapply moves_seq; [apply moves_when; intros; apply reasoning_flow|].
  eapply moves_seq with (R2 := Flow b nr).
  { apply moves_when. intros x Hx. destruct b.
    - cbn in Hq. apply andb_true_iff in Hq as [[Hc _]%andb_true_iff _]. apply bool_decide_eq_true in Hc. congruence.
    - destruct nr; [apply feed_flow|]. apply bool_decide_eq_true in Hr. congruence. }
  eapply moves_seq with (R2 := Flow b nr).
  { apply moves_when. intros x Hx. destruct b.
    - cbn in Hq. apply andb_true_iff in Hq as [[_ Hc]%andb_true_iff _]. apply bool_decide_eq_true in Hc. congruence.
    - destruct nr; [|apply refusal_flow]. apply bool_decide_eq_true in Hr. congruence. }
  eapply moves_seq with (R2 := Flow b nr).
  { apply moves_each. intros x Hx. destruct b.
    - cbn in Hq. apply andb_true_iff in Hq as [_ Hc]. apply bool_decide_eq_true in Hc. rewrite Hc in Hx.
      by apply elem_of_nil in Hx.
    - apply tool_frame_flow. rewrite forallb_forall in Hn. by apply Hn, list_elem_of_In. }
  unfold finishes. destruct (trimmed_non_empty (choice_finish_reason c)) as [fr|]; cbn [when_some].
  - rewrite bool_decide_true, orb_true_r by done. apply note_finish_flow.
  - rewrite bool_decide_false, orb_false_r by (by intros [? ?]). apply moves_nil.
Qed.

(** A list of choices that fit. *)
Fixpoint fit_all (seen nr : bool) (l : list ChatStreamChoice) : bool :=
  match l with [] => true | c :: l => fits seen nr c && fit_all (seen || finishes c) nr l end.
Definition seen_after (seen : bool) (l : list ChatStreamChoice) : bool := seen || existsb finishes l.

Lemma choices_flow l b nr :
  fit_all b nr l = true -> moves p_step (Flow b nr) (Flow (seen_after b l) nr) (each (process_choice show parse_json pick) l).
Proof.
  revert b. induction l as [|c l IH]; intros b H; cbn [each].
  - unfold seen_after. cbn. rewrite orb_false_r. apply moves_nil.
  - cbn in H. apply andb_true_iff in H as [H1 H2]. eapply moves_seq; [by apply choice_flow|].
    unfold seen_after. cbn. rewrite orb_assoc. by apply IH.
Qed.

Lemma fit_all_app l1 l2 b nr : fit_all b nr (l1 ++ l2) = fit_all b nr l1 && fit_all (seen_after b l1) nr l2.
Proof.
  revert b. induction l1 as [|c l1 IH]; intros b; unfold seen_after; cbn; [by rewrite orb_false_r|].
  rewrite IH. unfold seen_after. by rewrite orb_assoc, andb_assoc.
Qed.

Lemma frames_ok l :
  forallb named_with_id l = true -> (strict = true -> forallb (steady names) l = true) -> forallb frame_ok l = true.
Proof.
  rewrite !forallb_forall. intros H1 H2 x Hx. unfold frame_ok. rewrite H1 by done.
  destruct strict; [|done]. cbn. by apply H2.
Qed.

Lemma well_formed_fit l :
  well_formed l = true -> (strict = true -> forallb (steady names) (frames_of l) = true) ->
  exists nr, fit_all false nr l = true.
Proof.
  unfold well_formed. rewrite !andb_true_iff. intros [[H1 H2] H3] Hst.
  assert (H : exists nr : bool, forallb (if nr then refusal_free else content_free) l = true).
  { apply orb_true_iff in H3 as [?|?]; [by exists true|by exists false]. }
  destruct H as [nr H]. exists nr. clear H3. revert H1 H2 H. generalize false. induction l as [|c l IH]; intros b; [done|].
  cbn. rewrite !andb_true_iff. intros [Hn ?] [? ?] [Hr ?]. unfold frames_of in Hst. cbn in Hst. rewrite forallb_app in Hst.
  split; [|apply IH; try done; intros Hb; by apply andb_prop in Hst as [_ ?]].
  unfold fits. rewrite !andb_true_iff. split_and!; try done; [|by destruct nr].
  apply frames_ok; [done|]. intros Hb. by apply andb_prop in Hst as [? _].
Qed.

(** What the splitter still holds at the end goes out as reasoning, or as a message that starts now. *)
Lemma flush_moves b nr : moves p_step (Flow b nr) Live flush_think.
Proof.
  intros s p (HL & HO & HT). unfold flush_think.
  assert (Ht : (InlineThink.flush (inline_think s)).2.2 = [] \/ slot_done (message s) = false).
  { destruct nr; cbn in HT; [|rewrite HT; by left]. unfold InlineThink.flush.
    destruct (mode (inline_think s)); [|by left..]. right. destruct (slot_done (message s)) eqn:E; [|done].
    apply (live_message _ _ HL) in E. by specialize (HT E). }
  destruct (InlineThink.flush (inline_think s)) as [t [think text]]. cbn [fst snd] in Ht.
  assert (HL' : Live (set_think t s) p) by (split; apply HL).
  destruct Ht as [->|Hd].
  - unfold emit_think. cbn [snd fst each]. eapply (moves_seq p_step); [|apply moves_nil|exact HL'].
    apply moves_each. intros d _. apply append_reasoning_moves.
  - pose (R s p := Live s p /\ slot_done (message s) = false /\ True).
    destruct (moves_seq p_step R R R (each append_reasoning_delta think) (each append_text_delta text))
      with (s := set_think t s) (p := p) as (p' & E & H & _).
    + apply moves_each. intros d _ s0 p0 (H1 & H2 & _). destruct (append_reasoning_moves d s0 p0 H1) as (p' & E & H).
      exists p'. split; [done|]. split_and!; [done| |done]. unfold append_reasoning_delta. rewrite seq_pair. cbn.
      unfold start_reasoning. cbv zeta. destruct (_ || _); [|done]. by destruct (slot_done (reasoning s0)).
    + apply moves_each. intros d _. apply (append_text_moves (fun _ => True)).
    + done.
    + by exists p'.
Qed.

End tools.
End live.

(** ** The whole stream *)

Section stream.
Context (show : Value -> string) (parse_json : string -> option Value) (pick : list Z -> option Z).

Section flow.
Context (names : Z -> string * string) (ctx : ToolContext).

(** Before the first chunk. *)
Record Fresh (fin : bool) (s : State) : Prop := {
  fresh_sent : s.(head).(sent_created) = false;
  fresh_id : s.(head).(resp_id) <> "";
  fresh_message : s.(message) = new_slot;
  fresh_reasoning : s.(reasoning) = new_slot;
  fresh_next : s.(next_output_index) = 0;
  fresh_tools : s.(tools) = [];
  fresh_think : s.(inline_think) = InlineThink.new;
  fresh_final : s.(verdict).(finalized) = fin;
  fresh_ctx : s.(tool_ctx) = ctx;
}.

Definition Stream (seen nr : bool) (s : State) (p : Protocol) : Prop :=
  Fresh false s /\ p = p_init \/ Flow names ctx false seen nr s p.

Lemma flow_seen fin b b' nr s p : Flow names ctx fin b nr s p -> Flow names ctx fin (b || b') nr s p.
Proof. intros (H1 & H2 & H3). split_and!; [done| |done]. intros E. apply H2. by destruct b. Qed.

Lemma adopt_head_stream c b nr s p : Stream b nr s p -> Stream b nr (adopt_head c s) p.
Proof.
  assert (E : resp_id (head s) <> "" -> resp_id (head (adopt_head c s)) = resp_id (head s)).
  { intros H. cbn. unfold str_is_empty. by rewrite bool_decide_false. }
  intros [[[] ->]|(HL & HO & HT)].
  - left. split; [|done]. split; try done. by rewrite E.
  - right. specialize (E (live_id _ _ _ _ _ HL)). split_and!; [|done..]. destruct HL. split; try done; [|by rewrite E].
    eapply items_iff; [done| |done]. intros j it. unfold holds, message_id, reasoning_id. by rewrite E.
Qed.

Lemma start_response_flow b nr : moves p_step (Stream b nr) (Flow names ctx false b nr) start_response.
Proof.
  intros s p [[[] ->]|HF]; unfold start_response.
  - rewrite fresh_sent0. cbv zeta. cbn [snd fst]. eexists. split; [reflexivity|]. split_and!.
    + split; cbn; rewrite ?fresh_tools0, ?fresh_message0, ?fresh_reasoning0, ?fresh_next0; try done; [|constructor].
      split; cbn; try done.
      * intros i it. rewrite lookup_empty. unfold holds. cbn. rewrite fresh_message0, fresh_reasoning0, fresh_tools0.
        split; [done|]. intros [[? _]|[[? _]|(? & ? & ? & _)]]; done.
      * intros i [[? H]|[? H]]; by rewrite lookup_empty in H.
      * unfold closed_reasoning. cbn. by rewrite fresh_reasoning0.
    + intros _. split; cbn; [by rewrite fresh_message0|by rewrite fresh_tools0].
    + unfold Thought. cbn. rewrite fresh_message0. by destruct nr.
  - destruct HF as (HL & H). rewrite (live_sent _ _ _ _ _ HL). by exists p.
Qed.

Definition choices_of (chunks : list ChatStreamChunk) : list ChatStreamChoice := concat (chunk_choices <$> chunks).

Lemma chunk_stream c b nr :
  fit_all names show b nr c.(chunk_choices) = true ->
  moves p_step (Stream b nr) (Stream (seen_after b c.(chunk_choices)) nr) (process_chunk show parse_json pick c).
Proof.
  intros Hf s p HS. unfold process_chunk.
  assert (Hw : Stream (seen_after b c.(chunk_choices)) nr s p).
  { destruct HS as [?|?]; [by left|right]. by apply flow_seen. }
  destruct (failed_error (verdict s)); [by exists p|]. destruct (chunk_error c).
  { exists p. split; [done|]. destruct Hw as [[[] ->]|([] & HO & HT)]; [by left|right]. split_and!; [by split|done..]. }
  assert (H : moves p_step (Stream b nr) (Flow names ctx false (seen_after b c.(chunk_choices)) nr)
    (modify (adopt_head c) ;;; start_response ;;; each (process_choice show parse_json pick) (chunk_choices c))).
  { eapply moves_seq; [apply moves_modify; intros; by apply adopt_head_stream|].
    eapply moves_seq; [apply start_response_flow|]. by apply choices_flow. }
  destruct (H s p HS) as (p' & E & HF). exists p'. split; [done|by right].
Qed.

Lemma chunks_stream l b nr :
  fit_all names show b nr (choices_of l) = true ->
  moves p_step (Stream b nr) (Stream (seen_after b (choices_of l)) nr) (each (process_chunk show parse_json pick) l).
Proof.
  revert b. induction l as [|c l IH]; intros b H; cbn [each].
  - unfold seen_after. cbn. rewrite orb_false_r. apply moves_nil.
  - cbn in H. rewrite fit_all_app in H. apply andb_true_iff in H as [H1 H2].
    eapply moves_seq; [by apply chunk_stream|].
    assert (E : seen_after b (choices_of (c :: l)) = seen_after (seen_after b (chunk_choices c)) (choices_of l)).
    { unfold seen_after. cbn. by rewrite existsb_app, orb_assoc. }
    rewrite E. by apply IH.
Qed.

(** How a stream ends: at its terminator, cut short, or broken. *)
Inductive Ending : Type := Terminated | Truncated | Broken (message : string).
Definition finish (e : Ending) : op :=
  match e with
  | Terminated => finalize show parse_json
  | Truncated => finalize_truncated show parse_json
  | Broken m => transport_error show parse_json m
  end.

Lemma end_response_event tr s : exists k r, (end_response show parse_json tr s).2 = [Terminal k r].
Proof. unfold end_response. destruct (judge tr s) as [[[st d] k] e]. cbn. by eexists _, _. Qed.

Lemma fresh_silent s : Fresh true s -> ((flush_think ;;; done_delta_events show parse_json) s).2 = [].
Proof.
  intros []. assert (Ef : flush_think s = (set_think {| mode := Text; buffer := "" |} s, [])).
  { unfold flush_think. by rewrite fresh_think0. }
  rewrite seq_pair, Ef. cbn [fst snd app]. set (s1 := set_think _ s).
  unfold done_delta_events. rewrite seq_pair.
  assert (Er : forall force, release_ready_tools show parse_json force s1 = (s1, [])).
  { intros force. unfold release_ready_tools. change (tools s1) with (tools s). by rewrite fresh_tools0. }
  rewrite Er. cbn [fst snd app]. rewrite seq_pair, Er. cbn [fst snd app].
  assert (Et : finish_text s1 = (s1, [])).
  { unfold finish_text. change (message s1) with (message s). by rewrite fresh_message0. }
  assert (En : finish_reasoning s1 = (s1, [])).
  { unfold finish_reasoning. change (reasoning s1) with (reasoning s). by rewrite fresh_reasoning0. }
  rewrite seq_pair, Et. cbn [fst snd app]. rewrite seq_pair, En. cbn [fst snd app].
  unfold finish_tools. change (tools s1) with (tools s). by rewrite fresh_tools0.
Qed.

Lemma finalize_ends tr b nr s p :
  Stream b nr s p ->
  exists p', Machine.run p_step p (finalize_inner show parse_json tr s).2 = Some p' /\ p'.(p_phase) = Ended.
Proof.
  intros HS. unfold finalize_inner.
  assert (Ef : finalized (verdict s) = false) by (destruct HS as [[[] _]|([] & _)]; done). rewrite Ef.
  rewrite seq_pair. cbn [modify fst snd app]. rewrite seq_assoc, seq_pair.
  set (s0 := mark_final s). set (o := flush_think ;;; done_delta_events show parse_json).
  destruct (end_response_event tr (o s0).1) as (k & r & Ee). cbn [snd]. rewrite Ee.
  assert (H : exists p', Machine.run p_step p (o s0).2 = Some p' /\ p'.(p_open) = ∅ /\
    (p'.(p_phase) = Running \/ p'.(p_phase) = Silent)).
  { destruct HS as [[HF ->]|HF].
    - unfold o. rewrite fresh_silent by (destruct HF; by split). by exists p_init; eauto.
    - assert (HF' : Flow names ctx true b nr s0 p).
      { destruct HF as ([] & HO & HT). split_and!; [by split|done..]. }
      destruct (moves_seq p_step _ _ _ _ _ (flush_moves names ctx true b nr) (done_delta_moves names ctx true show parse_json) s0 p HF')
        as (p' & E & HL & HC).
      exists p'. split_and!; [done|by eapply closed_empty|]. left. apply (items_phase _ _ _ _ (live_items _ _ _ _ _ HL)). }
  destruct H as (p' & E & Ho & Hp). exists (p_with Ended p'). split; [|done]. rewrite run_app, E. cbn [mbind option_bind].
  rewrite run_cons. cbn [p_step]. rewrite Ho, (bool_decide_true (∅ = ∅)), andb_true_r by done.
  destruct Hp as [Hp|Hp]; by rewrite Hp.
Qed.

End flow.

(** C9: the client of a well-formed upstream reads a complete Responses event stream. When every frame
    that names a tool call also gives its id, nothing but reasoning follows a finish reason, and
    refusals do not come together with content, then for any chunks, and whether the stream terminates,
    is cut short or breaks, the events are a complete run of the protocol: created and in_progress
    first, items at consecutive indices, every increment inside its open item and part, those of a
    message or of a reasoning under the id the item was added with, every item done before the single
    terminal event, and nothing after it. When moreover every frame of a call has an index and the
    frames of an index agree on the id and the name of the call, the run is a strict one: the
    increments, the end and the closed item of a call too are under the id its item was added with.
    (The id of the response is the gateway's own and not empty.) *)
Theorem responses_stream_protocol id model now ctx chunks e :
  id <> "" -> well_formed show (choices_of chunks) = true ->
  (strict = true -> settled (frames_of (choices_of chunks)) = true) ->
  p_complete ((each (process_chunk show parse_json pick) chunks ;;; finish e) (new id model now ctx)).2.
Proof.
  intros Hid Hw Hs. set (names := names_of (frames_of (choices_of chunks))).
  apply (well_formed_fit names) in Hw as [nr Hf]; [|exact Hs].
  destruct (chunks_stream names ctx chunks false nr Hf (new id model now ctx) p_init) as (p & E & HS).
  { left. split; [by split|done]. }
  rewrite seq_pair. cbn [snd]. set (s := (each _ _ _).1) in *.
  assert (H : exists p', Machine.run p_step p (finish e s).2 = Some p' /\ p'.(p_phase) = Ended).
  { destruct e as [| |m]; cbn [finish]; [by eapply finalize_ends..|]. unfold transport_error. rewrite seq_pair.
    cbn [modify fst snd app]. apply (finalize_ends names ctx _ (seen_after false (choices_of chunks)) nr).
    destruct HS as [[[] ->]|([] & HO & HT)]; [by left|right]. split_and!; [by split|done..]. }
  destruct H as (p' & E' & Hp). exists p'. split; [|done]. by rewrite run_app, E.
Qed.

End stream.
End protocol.

(** ** Examples *)

Module StreamSample.
Definition show (_ : Value) : string := "".
Definition parse (_ : string) : option Value := None.
Definition pick (l : list Z) : option Z := List.hd_error l.
Definition delta (text refusal : option string) (calls : list ToolCallDelta) : ChatStreamDelta :=
  {| delta_role := None; delta_content := VString <$> text; delta_reasoning_content := None; delta_reasoning := None;
     delta_tool_calls := calls; delta_refusal := refusal |}.
Definition chunk (text : option string) (calls : list ToolCallDelta) (fr : option string) : ChatStreamChunk :=
  {| chunk_id := "c"; chunk_model := "m"; chunk_created := None;
     chunk_choices := [{| choice_index := 0; choice_delta := delta text None calls; choice_finish_reason := fr |}];
     chunk_usage := None; chunk_error := None |}.
Definition tool (id : option string) (name args : string) : ToolCallDelta :=
  {| tc_index := Some 0; tc_id := id; tc_type := None;
     tc_function := Some {| fn_name := Some name; fn_arguments := Some args |} |}.
Definition stream (chunks : list ChatStreamChunk) : State * list Event :=
  (each (process_chunk show parse pick) chunks ;;; finish show parse Terminated) (new "resp_1" "m" 0 empty_ctx).
Definition answer : list ChatStreamChunk :=
  [chunk (Some "hello") [] None; chunk None [tool (Some "call_1") "f" "{}"] None; chunk None [] (Some "tool_calls")].
End StreamSample.

Lemma responses_stream_protocol_witness :
  p_complete true ((each (process_chunk StreamSample.show StreamSample.parse StreamSample.pick) StreamSample.answer ;;;
    finish StreamSample.show StreamSample.parse Terminated) (new "resp_1" "m" 0 empty_ctx)).2.
Proof.
  apply (responses_stream_protocol true StreamSample.show StreamSample.parse StreamSample.pick "resp_1" "m" 0 empty_ctx
           StreamSample.answer Terminated); [discriminate|reflexivity|intros _; vm_compute; reflexivity].
Defined.

(** Text after a finish reason is sent into a message item that is already done. *)
Theorem late_text_breaks_protocol :
  ~ p_complete false (StreamSample.stream [StreamSample.chunk (Some "hello") [] (Some "stop");
                                     StreamSample.chunk (Some "more") [] None]).2.
Proof. intros (p & H & _). vm_compute in H. done. Qed.

(** A call that has a name and never an id is not released: its item is never added and its arguments
    are not in the answer, yet it is reported done at the index -1; the terminal event reports a
    completed response without any output. *)
Theorem call_without_id_lost :
  let r := StreamSample.stream [StreamSample.chunk None [StreamSample.tool None "f" "{}"] None;
                                StreamSample.chunk None [] (Some "tool_calls")] in
  exists c1 c2 item resp,
    r.2 = [Created c1; InProgress c2; ArgsDone (-1) "fc_resp_1_call_0" ""; ItemDone (-1) item; Terminal Completed resp] /\
    o_arguments item = Some (VString "") /\ r_output resp = [] /\ ~ p_complete false r.2.
Proof.
  eexists _, _, _, _. split; [vm_compute; reflexivity|]. split; [reflexivity|]. split; [reflexivity|].
  intros (p & H & _). vm_compute in H. done.
Qed.

(** A second id for the same index is taken over after the item has been sent under the first: its later
    increments and its closed item have another id than the item that was added. *)
Theorem renamed_call_changes_item :
  let r := StreamSample.stream [StreamSample.chunk None [StreamSample.tool (Some "a") "f" "{"] None;
                                StreamSample.chunk None [StreamSample.tool (Some "b") "f" "}"] (Some "tool_calls")] in
  p_complete false r.2 /\ ~ p_complete true r.2.
Proof.
  split; [eexists; split; [vm_compute; reflexivity|reflexivity]|].
  intros (p & H & _). vm_compute in H. discriminate.
Qed.
