(* ===== verification/ResponsesContent.v ===== *)
(** * What a Responses stream says

The increments of the stream, its terminal response and the upstream's chunks agree: the terminal
response restates what was sent as increments ([responses_final_restates]), and what it holds is what
the upstream said ([responses_answer_delivered]). *)

From S2P Require Import Prelude Float Json Metering Body Streams Machine InlineThink Chat AnthropicResponse.
From S2P Require Import ResponsesContext ResponsesOutput ResponsesStream ResponsesProtocol.

Local Open Scope Z_scope.

(** ** Increments *)

Definition text_inc (i : Z) (e : Event) : option string :=
  match e with TextDelta j _ d => if j =? i then Some d else None | _ => None end.
Definition summary_inc (i : Z) (e : Event) : option string :=
  match e with SummaryDelta j _ d => if j =? i then Some d else None | _ => None end.
Definition args_inc (i : Z) (e : Event) : option string :=
  match e with ArgsDelta j _ d => if j =? i then Some d else None | _ => None end.

(** All the increments of a kind, in order. *)
Definition said (inc : Event -> option string) (h : list Event) : string := concat_str (omap inc h).

Lemma said_app inc h1 h2 : said inc (h1 ++ h2) = said inc h1 +:+ said inc h2.
Proof. unfold said. by rewrite omap_app, concat_str_app. Qed.

Definition is_terminal (e : Event) : bool := match e with Terminal _ _ => true | _ => false end.

(** Events that are neither increments of these kinds nor the end. *)
Definition plain (e : Event) : bool :=
  match e with TextDelta _ _ _ | SummaryDelta _ _ _ | ArgsDelta _ _ _ | Terminal _ _ => false | _ => true end.

Lemma said_plain h ev i :
  Forall (fun e => plain e = true) ev ->
  said (text_inc i) (h ++ ev) = said (text_inc i) h /\ said (summary_inc i) (h ++ ev) = said (summary_inc i) h /\
  said (args_inc i) (h ++ ev) = said (args_inc i) h.
Proof.
  intros H. rewrite !said_app.
  assert (E : said (text_inc i) ev = "" /\ said (summary_inc i) ev = "" /\ said (args_inc i) ev = "").
  { induction H as [|e ev He _ IH]; [done|]. by destruct e. }
  destruct E as (-> & -> & ->). by rewrite !string_app_empty_r.
Qed.

(** The index and the kind of the item that an event adds or adds to. *)
Definition shows (e : Event) : option (Z * Kind) :=
  match e with
  | ItemAdded i o => Some (i, kind_of o)
  | TextDelta i _ _ => Some (i, KMessage)
  | SummaryDelta i _ _ => Some (i, KReasoning)
  | ArgsDelta i _ _ => Some (i, KCall)
  | _ => None
  end.
Definition ref_kind (r : OutputRef) : Kind :=
  match r with RMessage => KMessage | RReasoning => KReasoning | RTool _ => KCall end.
(** The item is among those of the state, at its index. *)
Definition listed_at (order : list OutputRef) (x : option (Z * Kind)) : Prop :=
  match x with Some (i, k) => 0 <= i /\ ref_kind <$> order !! Z.to_nat i = Some k | None => True end.
Definition listed (order : list OutputRef) (h : list Event) : Prop := Forall (fun e => listed_at order (shows e)) h.

Lemma listed_grow order l h : listed order h -> listed (order ++ l) h.
Proof.
  intros H. eapply Forall_impl; [exact H|]. intros e. unfold listed_at. destruct (shows e) as [[i k]|]; [|done].
  intros [Hi Hk]. split; [done|]. apply fmap_Some in Hk as (r & Hr & ->). by rewrite (lookup_app_l_Some _ _ _ _ Hr).
Qed.
Lemma listed_app order h1 h2 : listed order (h1 ++ h2) <-> listed order h1 /\ listed order h2.
Proof. apply Forall_app. Qed.

(** ** The invariant *)

Definition slot_sum (r : OutputRef) (inc : Z -> Event -> option string) (order : list OutputRef) (m : Slot)
    (h : list Event) : Prop :=
  if m.(slot_started) then
    0 <= m.(slot_index) /\ order !! Z.to_nat m.(slot_index) = Some r /\ said (inc m.(slot_index)) h = m.(slot_text)
  else m.(slot_text) = "" /\ m.(slot_done) = false.

Definition tool_sum (k : Z) (order : list OutputRef) (h : list Event) (t : ChatTool) : Prop :=
  t.(bridged) = false /\ (t.(started) = true -> t.(tool_id) <> "" /\ t.(tool_name) <> "") /\
  if t.(released) then
    t.(started) = true /\ 0 <= t.(output_index) /\ order !! Z.to_nat t.(output_index) = Some (RTool k) /\
    (streams_args t = true -> said (args_inc t.(output_index)) h = t.(arguments))
  else t.(arguments) = "".

(** The reference at an index is the item that has this index. *)
Definition order_ok (s : State) : Prop :=
  forall i r, s.(output_order) !! i = Some r ->
    match r with
    | RMessage => s.(message).(slot_started) = true /\ s.(message).(slot_index) = Z.of_nat i
    | RReasoning => s.(reasoning).(slot_started) = true /\ s.(reasoning).(slot_index) = Z.of_nat i
    | RTool k => exists t, tool_get k s.(tools) = Some t /\ t.(released) = true /\ t.(output_index) = Z.of_nat i
    end.

Record Sum (s : State) (h : list Event) : Prop := {
  sum_next : s.(next_output_index) = Z.of_nat (length s.(output_order));
  sum_sorted : tools_sorted s.(tools);
  sum_open : Forall (fun e => is_terminal e = false) h;
  sum_fresh : forall j, s.(next_output_index) <= j ->
    said (text_inc j) h = "" /\ said (summary_inc j) h = "" /\ said (args_inc j) h = "";
  sum_message : slot_sum RMessage text_inc s.(output_order) s.(message) h;
  sum_reasoning : slot_sum RReasoning summary_inc s.(output_order) s.(reasoning) h;
  sum_tools : forall k t, tool_get k s.(tools) = Some t -> tool_sum k s.(output_order) h t;
  sum_order : order_ok s;
  sum_ctx : s.(tool_ctx).(bridges_web_search) = false;
  sum_listed : listed s.(output_order) h;
}.

(** Plain events change nothing that is summed. *)
Lemma sum_plain s s' h ev :
  Forall (fun e => plain e = true) ev -> listed (output_order s) ev ->
  next_output_index s' = next_output_index s -> output_order s' = output_order s -> tools s' = tools s ->
  message s' = message s -> reasoning s' = reasoning s -> tool_ctx s' = tool_ctx s ->
  Sum s h -> Sum s' (h ++ ev).
Proof.
  intros Hp Hl En Eo Et Em Er Ec []. pose proof (said_plain h ev) as E.
  split; rewrite ?En, ?Eo, ?Et, ?Em, ?Er, ?Ec; try done.
  - apply Forall_app. split; [done|]. eapply Forall_impl; [exact Hp|]. by intros [].
  - intros j Hj. destruct (E j Hp) as (-> & -> & ->). by apply sum_fresh0.
  - unfold slot_sum in *. destruct (slot_started (message s)); [|done].
    by destruct (E (slot_index (message s)) Hp) as (-> & _ & _).
  - unfold slot_sum in *. destruct (slot_started (reasoning s)); [|done].
    by destruct (E (slot_index (reasoning s)) Hp) as (_ & -> & _).
  - intros k t Hk. specialize (sum_tools0 k t Hk). unfold tool_sum in *. destruct (released t); [|done].
    by destruct (E (output_index t) Hp) as (_ & _ & ->).
  - unfold order_ok in *. by rewrite Eo, Et, Em, Er.
  - by apply listed_app.
Qed.

Lemma slot_sum_grow r inc order l m h : slot_sum r inc order m h -> slot_sum r inc (order ++ l) m h.
Proof.
  unfold slot_sum. destruct (slot_started m); [|done]. intros (H1 & H2 & H3). split_and!; [done| |done].
  by apply lookup_app_l_Some.
Qed.
Lemma tool_sum_grow k order l h t : tool_sum k order h t -> tool_sum k (order ++ l) h t.
Proof.
  unfold tool_sum. destruct (released t); [|done]. intros (H1 & H2 & H3 & H4 & H5 & H6). split_and!; try done.
  by apply lookup_app_l_Some.
Qed.

(** A new item takes the next index. *)
Lemma order_grow s r i r' :
  (s.(output_order) ++ [r]) !! i = Some r' -> s.(output_order) !! i = Some r' \/ i = length s.(output_order) /\ r' = r.
Proof. intros H. apply lookup_app_Some in H as [?|[Hl H]]; [by left|right]. apply list_lookup_singleton_Some in H as [H <-]. split; [lia|done]. Qed.

Lemma order_new s (r : OutputRef) :
  s.(next_output_index) = Z.of_nat (length s.(output_order)) ->
  (s.(output_order) ++ [r]) !! Z.to_nat s.(next_output_index) = Some r.
Proof. intros ->. rewrite Nat2Z.id, lookup_app_r, Nat.sub_diag by lia. done. Qed.

Lemma next_grow s (r : OutputRef) :
  s.(next_output_index) = Z.of_nat (length s.(output_order)) ->
  s.(next_output_index) + 1 = Z.of_nat (length (s.(output_order) ++ [r])).
Proof. intros ->. rewrite length_app. cbn. lia. Qed.

Lemma listed_new s r o ev :
  s.(next_output_index) = Z.of_nat (length s.(output_order)) -> kind_of o = ref_kind r ->
  listed (s.(output_order) ++ [r]) ev -> listed (s.(output_order) ++ [r]) (ItemAdded s.(next_output_index) o :: ev).
Proof.
  intros Hn Hk Hev. constructor; [|exact Hev]. cbn. split; [lia|]. by rewrite (order_new s r Hn), Hk.
Qed.
Lemma listed_quiet order ev : Forall (fun e => shows e = None) ev -> listed order ev.
Proof. intros H. eapply Forall_impl; [exact H|]. intros e E. cbn beta in E. by rewrite E. Qed.

Lemma start_text_sum : preserves Sum start_text.
Proof.
  intros s h H. unfold start_text. destruct (slot_started (message s)) eqn:E; [by rewrite app_nil_r|].
  cbv zeta. cbn [fst snd]. eapply sum_plain with (s := set_message _ (next_index RMessage s)); try done.
  { by repeat constructor. }
  { apply listed_new; [apply H|done|]. apply listed_quiet. by repeat constructor. }
  destruct H. unfold slot_sum in sum_message0. rewrite E in sum_message0. destruct sum_message0 as [Et Ed].
  split; cbn [set_message next_index next_output_index output_order tools message reasoning tool_ctx]; try done.
  - by apply next_grow.
  - intros j Hj. apply sum_fresh0. lia.
  - unfold slot_sum. cbn. split_and!; [rewrite sum_next0; lia|by apply order_new|]. rewrite Et.
    by apply sum_fresh0.
  - by apply slot_sum_grow.
  - intros k t Hk. by apply tool_sum_grow, sum_tools0.
  - intros i r Hi. apply order_grow in Hi as [Hi|[-> ->]]; [|done]. apply sum_order0 in Hi.
    destruct r; try done. by destruct Hi; congruence.
  - by apply listed_grow.
Qed.

Lemma said_snoc inc h e : said inc (h ++ [e]) = said inc h +:+ default "" (inc e).
Proof. rewrite said_app. f_equal. unfold said. cbn. destruct (inc e); [|done]. cbn. apply string_app_empty_r. Qed.

Lemma slot_below r inc order m h : slot_sum r inc order m h -> slot_started m = true -> slot_index m < Z.of_nat (length order).
Proof. unfold slot_sum. intros H E. rewrite E in H. destruct H as (H1 & H2 & _). apply lookup_lt_Some in H2. lia. Qed.

Lemma slot_listed r inc order m h : slot_sum r inc order m h -> slot_started m = true ->
  listed_at order (Some (slot_index m, ref_kind r)).
Proof. unfold slot_sum. intros H E. rewrite E in H. destruct H as (H1 & H2 & _). cbn. by rewrite H2. Qed.

(** An increment of a slot is added to its text. *)
Lemma slot_sum_push r inc order m h e d :
  slot_sum r inc order m h -> slot_started m = true -> inc (slot_index m) e = Some d ->
  slot_sum r inc order (push_text d m) (h ++ [e]).
Proof.
  unfold slot_sum. cbn. intros H E Ei. rewrite E in *. destruct H as (H1 & H2 & H3). split_and!; [done..|].
  rewrite said_snoc, H3, Ei. done.
Qed.
Lemma slot_sum_other r inc order m h e :
  slot_sum r inc order m h -> (slot_started m = true -> inc (slot_index m) e = None) -> slot_sum r inc order m (h ++ [e]).
Proof.
  unfold slot_sum. destruct (slot_started m); [|done]. intros (H1 & H2 & H3) Ei. split_and!; [done..|].
  by rewrite said_snoc, Ei, string_app_empty_r.
Qed.
Lemma tool_sum_other k order h e t :
  tool_sum k order h t -> (released t = true -> args_inc (output_index t) e = None) -> tool_sum k order (h ++ [e]) t.
Proof.
  unfold tool_sum. destruct (released t); [|done]. intros (H1 & H2 & H3 & H4 & H5 & H6) Ei. split_and!; try done.
  by rewrite said_snoc, Ei, string_app_empty_r.
Qed.

Lemma append_text_sum d : preserves Sum (append_text_delta d).
Proof.
  intros s h H. unfold append_text_delta. rewrite seq_pair. cbn [fst snd]. rewrite app_assoc.
  apply start_text_sum in H. assert (Hs : slot_started (message (start_text s).1) = true).
  { unfold start_text. by destruct (slot_started (message s)) eqn:E. }
  revert H Hs. generalize (h ++ (start_text s).2). generalize (start_text s).1. clear s h. intros s h H Hs.
  pose proof (slot_below _ _ _ _ _ (sum_message _ _ H) Hs) as Hb. destruct H. cbv zeta.
  split; cbn [fst snd set_message next_output_index output_order tools message reasoning tool_ctx push_text slot_index]; try done.
  - apply Forall_app. split; [done|by repeat constructor].
  - intros j Hj. destruct (sum_fresh0 j Hj) as (E1 & E2 & E3). rewrite !said_snoc, E1, E2, E3. cbn.
    destruct (Z.eqb_spec (slot_index (message s)) j); [lia|done].
  - apply slot_sum_push; [done..|]. cbn. by rewrite Z.eqb_refl.
  - by apply slot_sum_other.
  - intros k t Hk. by apply tool_sum_other; [apply sum_tools0|].
  - apply listed_app. split; [done|]. constructor; [|constructor]. by apply (slot_listed RMessage text_inc _ _ h).
Qed.

(** ** Reasoning *)

Lemma start_reasoning_sum : preserves Sum start_reasoning.
Proof.
  intros s h H. unfold start_reasoning. cbv zeta. destruct (negb _ || _) eqn:E; [|by rewrite app_nil_r].
  pose proof (sum_reasoning _ _ H) as Hr. unfold slot_sum in Hr.
  destruct (slot_done (reasoning s)) eqn:Ed; cbn [fst snd].
  - destruct (slot_started (reasoning s)) eqn:Es; [|by destruct Hr].
    eapply sum_plain with (s := set_reasoning _ s); try done; [by repeat constructor| |].
    { constructor; [|apply listed_quiet; by repeat constructor]. cbn. destruct Hr as (? & -> & _). done. }
    destruct H.
    split; cbn [set_reasoning next_output_index output_order tools message reasoning tool_ctx]; try done.
    intros i r Hi. apply sum_order0 in Hi. destruct r; cbn; try done. by destruct Hi.
  - rewrite orb_false_r in E. apply negb_true_iff in E. rewrite E in Hr. destruct Hr as [Et _].
    eapply sum_plain with (s := set_reasoning _ (next_index RReasoning s)); try done; [by repeat constructor| |].
    { apply listed_new; [apply H|done|]. apply listed_quiet. by repeat constructor. }
    destruct H. split; cbn [set_reasoning next_index next_output_index output_order tools message reasoning tool_ctx]; try done.
    + by apply next_grow.
    + intros j Hj. apply sum_fresh0. lia.
    + by apply slot_sum_grow.
    + unfold slot_sum. cbn. split_and!; [rewrite sum_next0; lia|by apply order_new|]. rewrite Et. by apply sum_fresh0.
    + intros k t Hk. by apply tool_sum_grow, sum_tools0.
    + intros i r Hi. apply order_grow in Hi as [Hi|[-> ->]]; [|done]. apply sum_order0 in Hi.
      destruct r; try done. by destruct Hi; congruence.
    + by apply listed_grow.
Qed.

(** A map over the calls that keeps what is summed. *)
Lemma tool_sum_same k order h t t' :
  tool_sum k order h t -> bridged t' = bridged t -> custom t' = custom t -> tool_search t' = tool_search t ->
  started t' = started t -> tool_id t' = tool_id t -> tool_name t' = tool_name t -> released t' = released t ->
  output_index t' = output_index t -> arguments t' = arguments t -> tool_sum k order h t'.
Proof. unfold tool_sum, streams_args. intros H -> -> -> -> -> -> -> -> ->. exact H. Qed.

Lemma append_reasoning_sum d : preserves Sum (append_reasoning_delta d).
Proof.
  intros s h H. unfold append_reasoning_delta. rewrite seq_pair. cbn [fst snd]. rewrite app_assoc.
  apply start_reasoning_sum in H. assert (Hs : slot_started (reasoning (start_reasoning s).1) = true).
  { unfold start_reasoning. cbv zeta. destruct (negb _ || _) eqn:E; [by destruct (slot_done (reasoning s))|].
    cbn. by destruct (slot_started (reasoning s)). }
  revert H Hs. generalize (h ++ (start_reasoning s).2). generalize (start_reasoning s).1. clear s h. intros s h H Hs.
  pose proof (slot_below _ _ _ _ _ (sum_reasoning _ _ H) Hs) as Hb. destruct H. cbv zeta.
  cbn [fst snd set_tools set_reasoning reasoning push_text slot_index tools].
  set (m' := (fun kt => (kt.1, if started kt.2 then add_reasoning d kt.2 else kt.2)) <$> tools s).
  assert (Hg : forall k, tool_get k m' = (fun t => if started t then add_reasoning d t else t) <$> tool_get k (tools s)).
  { intros k. unfold m'. generalize (tools s). intros m. induction m as [|[k' t] m IH]; [done|]. cbn. by destruct (k =? k'). }
  split; cbn [set_tools set_reasoning next_output_index output_order tools message reasoning tool_ctx]; try done.
  - unfold m', tools_sorted. rewrite <-list_fmap_compose. exact sum_sorted0.
  - apply Forall_app. split; [done|by repeat constructor].
  - intros j Hj. destruct (sum_fresh0 j Hj) as (E1 & E2 & E3). rewrite !said_snoc, E1, E2, E3. cbn.
    destruct (Z.eqb_spec (slot_index (reasoning s)) j); [lia|done].
  - by apply slot_sum_other.
  - apply slot_sum_push; [done..|]. cbn. by rewrite Z.eqb_refl.
  - intros k t Hk. rewrite Hg in Hk. destruct (tool_get k (tools s)) as [u|] eqn:E; [|done]. injection Hk as <-.
    apply tool_sum_other; [|done]. specialize (sum_tools0 k u E). destruct (started u); [|done].
    by eapply tool_sum_same.
  - intros i r Hi. apply sum_order0 in Hi. destruct r as [| |k]; try done. cbn [tools set_tools]. rewrite Hg.
    destruct Hi as (t & -> & H1 & H2). cbn. eexists. split; [done|]. by destruct (started t).
  - apply listed_app. split; [done|]. constructor; [|constructor]. by apply (slot_listed RReasoning summary_inc _ _ h).
Qed.

Lemma mark_done_sum r inc order m h : slot_sum r inc order m h -> slot_started m = true -> slot_sum r inc order (mark_done m) h.
Proof. unfold slot_sum. cbn. intros H E. by rewrite E in *. Qed.

(** Closing a slot. *)
Lemma close_slot_sum s h ev b1 b2 :
  Sum s h -> Forall (fun e => plain e = true) ev -> Forall (fun e => shows e = None) ev ->
  (b1 = true -> slot_started (message s) = true) -> (b2 = true -> slot_started (reasoning s) = true) ->
  Sum (set_message (if b1 : bool then mark_done (message s) else message s)
        (set_reasoning (if b2 : bool then mark_done (reasoning s) else reasoning s) s)) (h ++ ev).
Proof.
  intros H Hp Hq H1 H2. eapply sum_plain; [exact Hp|by apply listed_quiet|done..|]. destruct H.
  split; cbn [set_message set_reasoning next_output_index output_order tools message reasoning tool_ctx]; try done.
  - destruct b1; [by apply mark_done_sum; auto|done].
  - destruct b2; [by apply mark_done_sum; auto|done].
  - intros i r Hi. apply sum_order0 in Hi. destruct r; cbn; [by destruct b1|by destruct b2|done].
Qed.

Lemma finish_text_sum : preserves Sum finish_text.
Proof.
  intros s h H. unfold finish_text. destruct (_ && _) eqn:E; [|by rewrite app_nil_r]. cbv zeta. cbn [fst snd].
  apply andb_true_iff in E as [E _].
  match goal with |- Sum _ (h ++ ?ev) => pose proof (close_slot_sum s h ev true false H) as Hc end.
  apply sum_plain with (ev := []) (s' := set_message (mark_done (message s)) s) in Hc; try done.
  - by rewrite app_nil_r in Hc.
  - by apply listed_quiet.
  - by repeat constructor.
  - by repeat constructor.
Qed.
Lemma finish_reasoning_sum : preserves Sum finish_reasoning.
Proof.
  intros s h H. unfold finish_reasoning. destruct (_ && _) eqn:E; [|by rewrite app_nil_r]. cbv zeta. cbn [fst snd].
  apply andb_true_iff in E as [E _].
  match goal with |- Sum _ (h ++ ?ev) => pose proof (close_slot_sum s h ev false true H) as Hc end.
  apply sum_plain with (ev := []) (s' := set_reasoning (mark_done (reasoning s)) s) in Hc; try done.
  - by rewrite app_nil_r in Hc.
  - by apply listed_quiet.
  - by repeat constructor.
  - by repeat constructor.
Qed.
Lemma close_reasoning_sum s h :
  Sum s h -> let '(s', ev, _) := close_reasoning_for_tool_call s in Sum s' (h ++ ev).
Proof.
  intros H. unfold close_reasoning_for_tool_call. destruct (_ || _) eqn:E; [by rewrite app_nil_r|]. cbv zeta.
  apply orb_false_iff in E as [E _]. apply negb_false_iff in E.
  match goal with |- Sum _ (h ++ ?ev) => pose proof (close_slot_sum s h ev false true H) as Hc end.
  apply sum_plain with (ev := []) (s' := set_reasoning (mark_done (reasoning s)) s) in Hc; try done.
  - by rewrite app_nil_r in Hc.
  - by apply listed_quiet.
  - by repeat constructor.
  - by repeat constructor.
Qed.

(** ** Tool calls *)

Lemma update_tool_sum s h k t :
  Sum s h -> tool_sum k (output_order s) h t ->
  (forall t0, tool_get k (tools s) = Some t0 -> released t0 = true -> released t = true /\ output_index t = output_index t0) ->
  Sum (set_tools (tool_set k t (tools s)) s) h.
Proof.
  intros [] Ht Hk. split; cbn [set_tools next_output_index output_order tools message reasoning tool_ctx]; try done.
  - by apply tool_set_sorted.
  - intros j u. rewrite tool_get_set. destruct (Z.eqb_spec j k) as [->|]; [by intros [= <-]|apply sum_tools0].
  - intros i r Hi. apply sum_order0 in Hi. destruct r as [| |j]; try done. cbn [set_tools tools].
    destruct Hi as (u & E & H1 & H2). rewrite tool_get_set. destruct (Z.eqb_spec j k) as [->|]; [|by exists u].
    destruct (Hk u E H1) as [H3 H4]. exists t. split_and!; [done..|congruence].
Qed.

Section tools.
Context (show : Value -> string) (parse_json : string -> option Value) (pick : list Z -> option Z).

(** The increment of a call counts for that call only. *)
Lemma args_sum s h k t id d :
  Sum s h -> tool_get k (tools s) = Some t -> released t = true ->
  (forall j u, tool_get j (tools s) = Some u -> j <> k -> tool_sum j (output_order s) (h ++ [ArgsDelta (output_index t) id d]) u) /\
  (forall j, next_output_index s <= j -> said (args_inc j) (h ++ [ArgsDelta (output_index t) id d]) = "").
Proof.
  intros [] Hk Hr. pose proof (sum_tools0 k t Hk) as Ht. unfold tool_sum in Ht. rewrite Hr in Ht.
  destruct Ht as (_ & _ & _ & Hp & Ho & _). split.
  - intros j u Hj Hne. apply tool_sum_other; [by apply sum_tools0|]. intros Hru. cbn.
    pose proof (sum_tools0 j u Hj) as Hu. unfold tool_sum in Hu. rewrite Hru in Hu. destruct Hu as (_ & _ & _ & _ & Ho' & _).
    destruct (Z.eqb_spec (output_index t) (output_index u)) as [E|]; [|done]. rewrite <-E in Ho'. congruence.
  - intros j Hj. rewrite said_snoc. destruct (sum_fresh0 j Hj) as (_ & _ & ->). cbn.
    apply lookup_lt_Some in Ho. destruct (Z.eqb_spec (output_index t) j); [lia|done].
Qed.

Lemma release_sum s h k t :
  Sum s h -> tool_get k (tools s) = Some t -> started t = true -> released t = false ->
  Sum (release_tool show parse_json k t s).1 (h ++ (release_tool show parse_json k t s).2).
Proof.
  intros H Hg Hs Hr. pose proof (sum_tools _ _ H k t Hg) as Ht. unfold tool_sum in Ht. rewrite Hr in Ht.
  destruct Ht as (Hb & Hn & Ha). unfold release_tool. cbv zeta. cbn [fst snd]. set (i := next_output_index s).
  set (t' := mark_released i t). set (s' := set_tools _ _).
  set (ev := ItemAdded _ _ :: _).
  assert (E : forall j, said (text_inc j) (h ++ ev) = said (text_inc j) h /\
    said (summary_inc j) (h ++ ev) = said (summary_inc j) h /\
    (j <> i -> said (args_inc j) (h ++ ev) = said (args_inc j) h) /\
    (streams_args t = true -> said (args_inc i) (h ++ ev) = said (args_inc i) h +:+ pending_args t)).
  { intros j. unfold ev. rewrite !said_app. change (pending_args t') with (pending_args t).
    change (streams_args t') with (streams_args t).
    destruct (negb (str_is_empty (pending_args t)) && streams_args t) eqn:Ep; unfold said; cbn.
    - rewrite Z.eqb_refl. destruct (Z.eqb_spec i j); cbn; rewrite !string_app_empty_r; split_and!; done.
    - rewrite !string_app_empty_r. split_and!; try done. intros Hst. rewrite Hst, andb_true_r in Ep.
      destruct (str_is_empty_spec (pending_args t)) as [->|]; [|done]. by rewrite string_app_empty_r. }
  assert (Hlt : forall j u, tool_get j (tools s) = Some u -> released u = true -> output_index u <> i).
  { intros j u Hj Hu. pose proof (sum_tools _ _ H j u Hj) as Ht. unfold tool_sum in Ht. rewrite Hu in Ht.
    destruct Ht as (_ & _ & _ & Hp & Ho & _). apply lookup_lt_Some in Ho. unfold i. rewrite (sum_next _ _ H). lia. }
  destruct H. split; cbn [s' set_tools next_index next_output_index output_order tools message reasoning tool_ctx]; try done.
  - by apply next_grow.
  - by apply tool_set_sorted.
  - apply Forall_app. split; [done|]. constructor; [done|]. destruct (_ && _); by repeat constructor.
  - intros j Hj. destruct (E j) as (-> & -> & E3 & _). unfold i in *. rewrite E3 by lia. apply sum_fresh0. lia.
  - apply slot_sum_grow. unfold slot_sum in *. by destruct (E (slot_index (message s))) as (-> & _).
  - apply slot_sum_grow. unfold slot_sum in *. by destruct (E (slot_index (reasoning s))) as (_ & -> & _).
  - intros j u. rewrite tool_get_set. destruct (Z.eqb_spec j k) as [->|].
    + intros [= <-]. split_and!; [done..|]. cbn. split_and!; [done|unfold i; rewrite sum_next0; lia|by apply order_new|].
      intros Hst. destruct (E i) as (_ & _ & _ & E4). rewrite (E4 Hst), Ha. f_equal. by apply sum_fresh0.
    + intros Hj. apply tool_sum_grow. specialize (sum_tools0 j u Hj). unfold tool_sum in *.
      destruct (released u) eqn:Eu; [|done]. destruct (E (output_index u)) as (_ & _ & E3 & _).
      by rewrite E3 by by eapply Hlt.
  - intros j r Hj. apply order_grow in Hj as [Hj|[-> ->]].
    + apply sum_order0 in Hj. destruct r as [| |k']; try done. cbn [set_tools tools]. destruct Hj as (u & Eu & H1 & H2).
      exists u. unfold s'. cbn [set_tools tools]. rewrite tool_get_set. destruct (Z.eqb_spec k' k) as [->|]; [|done]. congruence.
    + eexists. unfold s'. cbn [set_tools tools]. rewrite tool_get_set, Z.eqb_refl. split_and!; [done..|]. cbn. apply sum_next0.
  - apply listed_app. split; [by apply listed_grow|]. apply listed_new; [done|apply kind_of_call|].
    destruct (_ && _); [|constructor]. constructor; [|constructor]. cbn. unfold i. rewrite order_new by done. split; [|done].
    unfold i. rewrite sum_next0. lia.
Qed.

Lemma release_ready_sum force : preserves Sum (release_ready_tools show parse_json force).
Proof.
  intros s. unfold release_ready_tools. generalize (length (tools s)). intros n. revert s.
  induction n as [|n IH]; intros s h H; [by rewrite app_nil_r|]. cbn [release_loop].
  destruct (candidate force (tools s)) as [[k t]|] eqn:E; [|by rewrite app_nil_r].
  apply candidate_spec in E as (Hg & Hr & _); [|apply H]. destruct (started t) eqn:Es; [|by rewrite app_nil_r].
  rewrite seq_pair. cbn [fst snd]. rewrite app_assoc. apply IH. by apply release_sum.
Qed.

Lemma tool_sum_new k order h : tool_sum k order h new_tool.
Proof. by split_and!. Qed.

Lemma identify_sum ctx tc r t k order h :
  bridges_web_search ctx = false -> tool_sum k order h t ->
  tool_sum k order h (start_tool r (identify ctx tc t)).
Proof.
  intros Hb (H1 & H2 & H3).
  pose proof (trimmed_non_empty_some tc.(tc_id)) as Hid.
  pose proof (trimmed_non_empty_some (tc.(tc_function) ≫= fn_name)) as Hname.
  assert (Hi : tool_id t <> "" -> default (tool_id t) (trimmed_non_empty (tc_id tc)) <> "").
  { destruct (trimmed_non_empty (tc_id tc)) as [i|]; [|done]. intros _. by apply Hid. }
  assert (Hs : forall a b, (a <> "" -> b <> "" -> True) -> started t || negb (str_is_empty a) && negb (str_is_empty b) = true ->
    started t = true \/ a <> "" /\ b <> "").
  { intros a b _ E. destruct (started t); [by left|right]. cbn in E.
    by destruct (str_is_empty_spec a), (str_is_empty_spec b). }
  unfold identify. destruct (trimmed_non_empty (_ ≫= fn_name)) as [n|]; unfold tool_sum, streams_args in *; cbn.
  - specialize (Hname n eq_refl). split_and!.
    + by rewrite Hb.
    + intros E. apply Hs in E as [E|E]; [|done..]. destruct (H2 E). auto.
    + destruct (released t); [|done]. destruct H3 as (E1 & E2 & E3 & E4). split_and!; [by rewrite E1|done..|].
      intros E. rewrite Hb in E. cbn in E. apply E4. rewrite H1.
      apply andb_true_iff in E as [Ec Et]. by destruct (custom t), (tool_search t).
  - split_and!; [done| |].
    + intros E. apply Hs in E as [E|E]; [|done..]. destruct (H2 E). auto.
    + destruct (released t); [|done]. destruct H3 as (E1 & E2 & E3 & E4). split_and!; [by rewrite E1|done..].
Qed.

Lemma add_args_sum s h k t a :
  Sum s h -> tool_sum k (output_order s) h t ->
  (forall t0, tool_get k (tools s) = Some t0 -> released t0 = true -> released t = true /\ output_index t = output_index t0) ->
  (released t = true -> exists t0, tool_get k (tools s) = Some t0 /\ released t0 = true) ->
  Sum (set_tools (tool_set k (add_args a t).1 (tools s)) s) (h ++ (add_args a t).2).
Proof.
  intros H Ht Hk Hk'. unfold add_args. destruct (started t && released t) eqn:E.
  2:{ cbn [fst snd]. rewrite app_nil_r. apply update_tool_sum; [done| |done].
      destruct Ht as (H1 & H2 & H3). split_and!; [done..|]. cbn.
      destruct (released t) eqn:R; [|done]. destruct H3 as (S1 & _). by rewrite S1 in E. }
  apply andb_true_iff in E as [Es Er]. cbn [fst snd].
  assert (H1 : Sum (set_tools (tool_set k t (tools s)) s) h) by by apply update_tool_sum.
  set (s1 := set_tools _ s) in H1. set (t' := set_args _ _ t).
  set (ev := if streams_args t then _ else _).
  assert (Hev : forall j, said (text_inc j) (h ++ ev) = said (text_inc j) h /\
    said (summary_inc j) (h ++ ev) = said (summary_inc j) h).
  { intros j. rewrite !said_app. unfold ev. destruct (streams_args t); by rewrite !string_app_empty_r. }
  assert (Hg : tool_get k (tools s1) = Some t) by (unfold s1; cbn; by rewrite tool_get_set, Z.eqb_refl).
  assert (Ha : (forall j u, tool_get j (tools s1) = Some u -> j <> k -> tool_sum j (output_order s1) (h ++ ev) u) /\
    (forall j, next_output_index s1 <= j -> said (args_inc j) (h ++ ev) = "")).
  { unfold ev. destruct (streams_args t); [by apply args_sum|]. rewrite app_nil_r. destruct H1. split; [by auto|].
    intros j Hj. by apply sum_fresh0. }
  destruct Ha as [Ha Hf]. destruct H. unfold tool_sum in Ht. rewrite Er in Ht. destruct Ht as (B1 & B2 & B3 & B4 & B5 & B6).
  split; cbn [set_tools next_output_index output_order tools message reasoning tool_ctx]; try done.
  - by apply tool_set_sorted.
  - apply Forall_app. split; [done|]. unfold ev. destruct (streams_args t); by repeat constructor.
  - intros j Hj. destruct (Hev j) as [-> ->]. destruct (sum_fresh0 j Hj) as (E1 & E2 & _). split_and!; [done..|by apply Hf].
  - unfold slot_sum in *. by destruct (Hev (slot_index (message s))) as [-> _].
  - unfold slot_sum in *. by destruct (Hev (slot_index (reasoning s))) as [_ ->].
  - intros j u. rewrite tool_get_set. destruct (Z.eqb_spec j k) as [->|Hne].
    + intros [= <-]. unfold tool_sum. cbn. rewrite Er. split_and!; try done. intros Hst.
      unfold ev. change (streams_args t') with (streams_args t) in Hst. rewrite Hst, said_snoc, (B6 Hst). cbn. by rewrite Z.eqb_refl.
    + intros Hj. apply (Ha j u); [|done]. unfold s1. cbn. rewrite tool_get_set. by destruct (Z.eqb_spec j k).
  - intros i r Hi. apply sum_order0 in Hi. destruct r as [| |j]; try done. cbn [set_tools tools].
    destruct Hi as (u & Eu & R & I). rewrite tool_get_set. destruct (Z.eqb_spec j k) as [->|]; [|by exists u].
    destruct (Hk u Eu R) as [_ E']. exists t'. split_and!; [done..|]. cbn. congruence.
  - apply listed_app. split; [done|]. unfold ev. destruct (streams_args t); [|constructor].
    constructor; [|constructor]. cbn. by rewrite B5.
Qed.

Lemma append_tool_sum tc r : preserves Sum (append_tool_call_delta show parse_json pick tc r).
Proof.
  apply preserves_seq; [|apply release_ready_sum]. intros s h H. cbv zeta.
  set (k := chat_index pick tc s). set (s1 := set_last_key k s).
  assert (H1 : Sum s1 h) by (destruct H; by split). set (t0 := default new_tool (tool_get k (tools s1))).
  assert (Ht0 : tool_sum k (output_order s1) h t0).
  { unfold t0. destruct (tool_get k (tools s1)) as [t|] eqn:E; [by apply (sum_tools _ _ H1)|apply tool_sum_new]. }
  set (t := start_tool r (identify (tool_ctx s1) tc t0)).
  assert (Ht : tool_sum k (output_order s1) h t) by (apply identify_sum; [apply H1|done]).
  assert (E : output_index t = output_index t0 /\ released t = released t0).
  { unfold t, identify. by destruct (trimmed_non_empty (_ ≫= fn_name)). }
  destruct E as [Ei Er].
  assert (Hk : forall u, tool_get k (tools s1) = Some u -> released u = true -> released t = true /\ output_index t = output_index u).
  { intros u E Hu. assert (E0 : t0 = u) by (unfold t0; by rewrite E). rewrite Ei, Er, E0. done. }
  assert (Hk' : released t = true -> exists u, tool_get k (tools s1) = Some u /\ released u = true).
  { rewrite Er. unfold t0. destruct (tool_get k (tools s1)) as [u|]; [|done]. intros E. by exists u. }
  unfold frame_args. destruct (_ ≫= fn_arguments) as [a|].
  2:{ cbn [fst snd]. rewrite app_nil_r. by apply update_tool_sum. }
  destruct (str_is_empty a); [cbn [fst snd]; rewrite app_nil_r; by apply update_tool_sum|].
  pose proof (add_args_sum s1 h k t a H1 Ht Hk Hk') as Hf. by destruct (add_args a t).
Qed.

Lemma tool_frame_sum tc : preserves Sum (tool_frame show parse_json pick tc).
Proof.
  intros s h H. unfold tool_frame. apply close_reasoning_sum in H.
  destruct (close_reasoning_for_tool_call s) as [[s1 ev] r]. apply (append_tool_sum tc r) in H.
  destruct (append_tool_call_delta _ _ _ _ _ s1). cbn [fst snd] in *. by rewrite app_assoc.
Qed.

Lemma plain_done_events st t : Forall (fun e => plain e = true) (tool_done_events show parse_json st t).
Proof.
  unfold tool_done_events. cbv zeta. destruct (_ || _); [by repeat constructor|]. destruct (custom t); [|by repeat constructor].
  destruct (str_is_empty _); by repeat constructor.
Qed.

Lemma quiet_done_events st t order : listed order (tool_done_events show parse_json st t).
Proof.
  apply listed_quiet. unfold tool_done_events. cbv zeta. destruct (_ || _); [by repeat constructor|].
  destruct (custom t); [|by repeat constructor]. destruct (str_is_empty _); by repeat constructor.
Qed.

Lemma finish_tool_sum k : preserves Sum (finish_tool show parse_json k).
Proof.
  intros s h H. unfold finish_tool. destruct (tool_get k (tools s)) as [t|] eqn:Hg; [|by rewrite app_nil_r].
  destruct (tool_done t); [by rewrite app_nil_r|]. cbv zeta. set (t' := close_tool _ t).
  assert (Ht' : tool_sum k (output_order s) h t').
  { destruct (sum_tools _ _ H k t Hg) as (H1 & H2 & H3). split_and!; [done| |exact H3]. intros Hs.
    destruct (H2 Hs) as [Hi Hn]. split; [|exact Hn]. cbn.
    by destruct (str_is_empty_spec (tool_id t)), (str_is_empty_spec (tool_name t)). }
  assert (Hs : Sum (set_tools (tool_set k t' (tools s)) s) h).
  { apply update_tool_sum; [done..|]. rewrite Hg. by intros u [= <-]. }
  destruct (str_is_empty _); cbn [fst snd].
  - eapply sum_plain; [..|exact Hs]; (done || constructor).
  - eapply sum_plain; [apply plain_done_events|apply quiet_done_events|..|exact Hs]; done.
Qed.

Lemma done_delta_sum : preserves Sum (done_delta_events show parse_json).
Proof.
  repeat apply preserves_seq; auto using release_ready_sum, finish_text_sum, finish_reasoning_sum.
  intros s h H. unfold finish_tools. by apply preserves_each; [apply finish_tool_sum|].
Qed.

(** A change that leaves what is summed alone. *)
Lemma modify_sum f :
  (forall s, next_output_index (f s) = next_output_index s /\ output_order (f s) = output_order s /\ tools (f s) = tools s /\
     message (f s) = message s /\ reasoning (f s) = reasoning s /\ tool_ctx (f s) = tool_ctx s) ->
  preserves Sum (modify f).
Proof. intros Hf s h H. destruct (Hf s) as (? & ? & ? & ? & ? & ?). apply (sum_plain s (f s) h []); (done || constructor). Qed.

Lemma emit_think_sum o : preserves Sum (emit_think o).
Proof. apply preserves_seq; apply preserves_each; intros d; [apply append_reasoning_sum|apply append_text_sum]. Qed.

Lemma set_think_sum t s h : Sum s h -> Sum (set_think t s) h.
Proof. intros []. by split. Qed.

Lemma process_choice_sum c : preserves Sum (process_choice show parse_json pick c).
Proof.
  unfold process_choice. cbv zeta. repeat apply preserves_seq.
  - apply preserves_when, append_reasoning_sum.
  - apply preserves_when. intros x s h H. unfold feed_content. destruct (InlineThink.feed _ _) as [t o].
    by apply emit_think_sum, set_think_sum.
  - apply preserves_when, append_text_sum.
  - apply preserves_each, tool_frame_sum.
  - apply preserves_when. intros fr. apply preserves_seq; [|apply done_delta_sum]. apply modify_sum. intros s.
    unfold apply_finish_reason. by destruct (finish_reason_to_status fr).
Qed.

Lemma process_chunk_sum c : preserves Sum (process_chunk show parse_json pick c).
Proof.
  intros s h H. unfold process_chunk. destruct (failed_error (verdict s)); [by rewrite app_nil_r|].
  destruct (chunk_error c).
  { by apply (modify_sum (fail_with (extract_stream_error v))). }
  revert s h H. apply preserves_seq; [by apply modify_sum|]. apply preserves_seq.
  - intros s h H. unfold start_response. destruct (sent_created (head s)); [by rewrite app_nil_r|].
    eapply sum_plain; [..|exact H]; try done; [|apply listed_quiet]; by repeat constructor.
  - apply preserves_each, process_choice_sum.
Qed.

Lemma new_sum id model now ctx : bridges_web_search ctx = false -> Sum (new id model now ctx) [].
Proof. intros Hb. split; try done; constructor. Qed.

(** The state in which the end is judged. *)
Definition end_of (s : State) : State := ((flush_think ;;; done_delta_events show parse_json) (mark_final s)).1.

Lemma finalize_sum tr s h :
  Sum s h -> finalized (verdict s) = false ->
  exists body k v e, Sum (end_of s) (h ++ body) /\
    finalize_inner show parse_json tr s =
      (set_verdict v (end_of s),
       body ++ [Terminal k (with_error e (final_response show parse_json (set_verdict v (end_of s))))]).
Proof.
  intros H Hf. unfold finalize_inner. rewrite Hf, seq_pair. cbn [modify fst snd app]. rewrite seq_assoc, seq_pair.
  assert (H0 : Sum (mark_final s) h) by (apply (modify_sum mark_final) in H; [by rewrite app_nil_r in H|done]).
  assert (Ho : preserves Sum (flush_think ;;; done_delta_events show parse_json)).
  { apply preserves_seq; [|apply done_delta_sum]. intros s1 h1 H1. unfold flush_think.
    destruct (InlineThink.flush _) as [t x]. by apply emit_think_sum, set_think_sum. }
  apply Ho in H0. fold (end_of s) in H0 |- *. unfold end_response.
  destruct (judge tr (end_of s)) as [[[st d] k] e]. by eexists _, k, _, e.
Qed.

(** ** The terminal response restates the stream *)

Definition ended (s : State) : bool * option Value := (finalized (verdict s), failed_error (verdict s)).

Lemma release_not_ended force : fixes ended (release_ready_tools show parse_json force).
Proof.
  intros s. unfold release_ready_tools. generalize (length (tools s)). intros n. revert s.
  induction n as [|n IH]; intros s; [done|]. cbn [release_loop]. destruct (candidate _ _) as [[k t]|]; [|done].
  destruct (started t); [|done]. rewrite seq_pair. cbn [fst]. by rewrite IH.
Qed.
Lemma done_not_ended : fixes ended (done_delta_events show parse_json).
Proof.
  repeat apply fixes_seq; try apply release_not_ended.
  - intros s. unfold finish_text. by destruct (_ && _).
  - intros s. unfold finish_reasoning. by destruct (_ && _).
  - intros s. unfold finish_tools. apply (fixes_each ended). clear s. intros k s. unfold finish_tool.
    destruct (tool_get _ _) as [t|]; [|done]. destruct (tool_done t); [done|]. cbv zeta. by destruct (str_is_empty _).
Qed.
Lemma text_not_ended d : fixes ended (append_text_delta d).
Proof. apply fixes_seq; [|done]. intros s. unfold start_text. by destruct (slot_started _). Qed.
Lemma reasoning_not_ended d : fixes ended (append_reasoning_delta d).
Proof.
  apply fixes_seq; [|done]. intros s. unfold start_reasoning. cbv zeta. destruct (_ || _); [|done].
  by destruct (slot_done (reasoning s)).
Qed.
Lemma think_not_ended o : fixes ended (emit_think o).
Proof. apply fixes_seq; apply fixes_each; [apply reasoning_not_ended|apply text_not_ended]. Qed.
Lemma tool_not_ended tc : fixes ended (tool_frame show parse_json pick tc).
Proof.
  intros s. unfold tool_frame. assert (H : ended (close_reasoning_for_tool_call s).1.1 = ended s).
  { unfold close_reasoning_for_tool_call. by destruct (_ || _). }
  destruct (close_reasoning_for_tool_call s) as [[s1 ev] r]. cbn [fst] in H.
  assert (H' : fixes ended (append_tool_call_delta show parse_json pick tc r)).
  { apply fixes_seq; [|apply release_not_ended]. intros s'. cbv zeta. by destruct (frame_args _ _). }
  specialize (H' s1). destruct (append_tool_call_delta _ _ _ _ _ s1). cbn [fst] in *. congruence.
Qed.
Lemma choice_not_ended c : fixes ended (process_choice show parse_json pick c).
Proof.
  unfold process_choice. cbv zeta. repeat apply fixes_seq.
  - apply fixes_when, reasoning_not_ended.
  - apply fixes_when. intros x s. unfold feed_content. destruct (InlineThink.feed _ _) as [t o]. by rewrite think_not_ended.
  - apply fixes_when, text_not_ended.
  - apply fixes_each, tool_not_ended.
  - apply fixes_when. intros fr. apply fixes_seq; [|apply done_not_ended]. intros s. cbn. unfold apply_finish_reason.
    by destruct (finish_reason_to_status fr).
Qed.
Lemma chunk_ended c s :
  finalized (verdict (process_chunk show parse_json pick c s).1) = finalized (verdict s) /\
  (chunk_error c = None -> failed_error (verdict s) = None ->
   failed_error (verdict (process_chunk show parse_json pick c s).1) = None).
Proof.
  assert (H : fixes ended (modify (adopt_head c) ;;; start_response ;;; each (process_choice show parse_json pick) (chunk_choices c))).
  { apply fixes_seq; [done|]. apply fixes_seq; [|apply fixes_each, choice_not_ended].
    intros s'. unfold start_response. by destruct (sent_created (head s')). }
  injection (H s) as H1 H2. unfold process_chunk.
  destruct (failed_error (verdict s)) eqn:Ef; [done|]. destruct (chunk_error c); [done|]. by rewrite H1, H2.
Qed.
Lemma chunks_not_final : forall l, fixes (fun s => finalized (verdict s)) (each (process_chunk show parse_json pick) l).
Proof. intros l. apply fixes_each. intros c s. apply chunk_ended. Qed.

Lemma omap_lookup {A B} (f : A -> option B) (l : list A) (i : nat) :
  (forall x, x ∈ l -> is_Some (f x)) -> omap f l !! i = l !! i ≫= f.
Proof.
  revert i. induction l as [|x l IH]; intros i H; [done|]. destruct (H x) as [y Hy]; [by left|]. cbn. rewrite Hy.
  destruct i as [|i]; cbn; [done|]. apply IH. intros z Hz. apply H. by right.
Qed.

(** What the item at an index of the response says, against the increments at that index. *)
Definition restates (body : list Event) (i : nat) (o : OutputItem) : Prop :=
  (o.(o_type) = "message" /\ o.(o_content) = [text_content (said (text_inc (Z.of_nat i)) body)]) \/
  (o.(o_type) = "reasoning" /\
   o.(o_summary) = [summary_part "summary_text" (said (summary_inc (Z.of_nat i)) body)]) \/
  (o.(o_type) = "function_call" /\
   o.(o_arguments) = Some (VString (canonicalize_json_string_if_parseable show parse_json
                                      (said (args_inc (Z.of_nat i)) body)))) \/
  o.(o_type) ∈ ["custom_tool_call"; "tool_search_call"].

Lemma output_restates s h st i r o :
  Sum s h -> s.(output_order) !! i = Some r ->
  output_of show parse_json (set_verdict st s) r = Some o -> restates h i o.
Proof.
  intros H Hi Ho. pose proof (sum_order _ _ H i r Hi) as Hr. destruct r as [| |k]; cbn in Ho.
  - injection Ho as <-. destruct Hr as [Hs Ei]. left. split; [done|]. cbn.
    pose proof (sum_message _ _ H) as Hm. unfold slot_sum in Hm. rewrite Hs, Ei in Hm. by destruct Hm as (_ & _ & ->).
  - injection Ho as <-. destruct Hr as [Hs Ei]. right; left. split; [done|]. cbn.
    pose proof (sum_reasoning _ _ H) as Hm. unfold slot_sum in Hm. rewrite Hs, Ei in Hm. by destruct Hm as (_ & _ & ->).
  - destruct Hr as (t & Ht & Hrel & Ei). rewrite Ht in Ho. destruct (str_is_empty (tool_name t)); [done|].
    injection Ho as <-. destruct (sum_tools _ _ H k t Ht) as (Hb & _ & Hsum). rewrite Hrel in Hsum.
    destruct Hsum as (_ & _ & _ & Ha). unfold tool_output_item. cbv zeta. rewrite Hb.
    unfold streams_args in Ha. rewrite Hb, Ei in Ha. right; right.
    destruct (custom t); [right; cbn; set_solver|]. destruct (tool_search t); [right; cbn; set_solver|].
    left. split; [done|]. cbn. by rewrite Ha.
Qed.

Lemma output_total s h st r :
  Sum s h -> r ∈ s.(output_order) -> is_Some (output_of show parse_json (set_verdict st s) r).
Proof.
  intros H Hin. apply list_elem_of_lookup in Hin as [i Hi]. pose proof (sum_order _ _ H i r Hi) as Hr.
  destruct r as [| |k]; cbn; [done..|]. destruct Hr as (t & Ht & Hrel & _). rewrite Ht.
  destruct (sum_tools _ _ H k t Ht) as (_ & Hn & Hs). rewrite Hrel in Hs. destruct Hs as (Hst & _).
  destruct (Hn Hst) as [_ Hname]. by destruct (str_is_empty_spec (tool_name t)).
Qed.

(** The output of the response, by the references of the state. *)
Lemma final_output s h v e :
  Sum s h ->
  forall i, r_output (with_error e (final_response show parse_json (set_verdict v s))) !! i =
    output_order s !! i ≫= output_of show parse_json (set_verdict v s).
Proof.
  intros H i. unfold final_response. cbn [with_error with_zero_usage r_output].
  apply omap_lookup. intros r Hr. by eapply output_total.
Qed.

(** Nothing that was sent is missing: where an item was added or added to, the response has an item of
    that kind. *)
Definition complete (body : list Event) (r : ResponseOut) : Prop :=
  forall e i k, e ∈ body -> shows e = Some (i, k) ->
    0 <= i /\ exists o, r_output r !! Z.to_nat i = Some o /\ kind_of o = k.

Lemma output_kind s x o : output_of show parse_json s x = Some o -> kind_of o = ref_kind x.
Proof.
  destruct x as [| |k]; cbn; [by intros [= <-]..|]. destruct (tool_get k (tools s)); [|done].
  destruct (str_is_empty _); [done|]. intros [= <-]. apply kind_of_call.
Qed.

(** The end of the stream that is being sent, after [h]. *)
Definition restates_all (h : list Event) (o : op) (s : State) : Prop :=
  exists body k r, (o s).2 = body ++ [Terminal k r] /\ Forall (fun e => is_terminal e = false) (h ++ body) /\
    (forall i o, r_output r !! i = Some o -> restates (h ++ body) i o) /\ complete (h ++ body) r.

Lemma finalize_restates tr s h :
  Sum s h -> finalized (verdict s) = false -> restates_all h (finalize_inner show parse_json tr) s.
Proof.
  intros H Hf. destruct (finalize_sum tr s h H Hf) as (body & k & v & e & H' & E).
  exists body, k. eexists. split; [by rewrite E|]. split; [apply H'|]. split.
  - intros i o Ho. rewrite (final_output _ _ _ _ H') in Ho. destruct (output_order (end_of s) !! i) as [r|] eqn:Ei; [|done].
    cbn in Ho. by eapply output_restates.
  - intros ev i kd Hin Hs. pose proof (sum_listed _ _ H') as Hl. unfold listed in Hl. rewrite Forall_forall in Hl.
    specialize (Hl ev Hin). rewrite Hs in Hl. destruct Hl as [Hi Hk]. split; [done|].
    apply fmap_Some in Hk as (x & Hx & ->). rewrite (final_output _ _ _ _ H'), Hx.
    destruct (output_total _ _ v x H') as [o Ho]; [apply list_elem_of_lookup; by eexists|].
    exists o. split; [exact Ho|]. by eapply output_kind.
Qed.

(** One terminal event, the last, whose response restates what was sent, and all of it. *)
Definition restated (l : list Event) : Prop :=
  exists body k r, l = body ++ [Terminal k r] /\ Forall (fun e => is_terminal e = false) body /\
    (forall i o, r_output r !! i = Some o -> restates body i o) /\ complete body r.

Lemma finish_restates e s h :
  Sum s h -> finalized (verdict s) = false -> restated (h ++ (finish show parse_json e s).2).
Proof.
  intros H Hf.
  assert (Hg : restates_all h (finish show parse_json e) s).
  { destruct e as [| |m]; cbn [finish]; [by apply finalize_restates..|]. unfold restates_all, transport_error. rewrite seq_pair.
    cbn [modify fst snd app]. apply finalize_restates; [|done]. by destruct H. }
  destruct Hg as (body & k & r & E & H1 & H2). exists (h ++ body), k, r. split_and!; [|done|apply H2..].
  by rewrite E, app_assoc.
Qed.

(** The terminal response restates the stream. Whatever the chunks and the ending, exactly one
    terminal event is sent and it is the last; every item of its output says what the increments at
    the index of the item said: the message their text, the reasoning their summary, a function call
    their arguments in canonical form; and every item that was added or added to is in it. (The request
    asks for no hosted web search.) *)
Theorem responses_final_restates id model now ctx chunks e :
  bridges_web_search ctx = false ->
  restated ((each (process_chunk show parse_json pick) chunks ;;; finish show parse_json e) (new id model now ctx)).2.
Proof.
  intros Hb. rewrite seq_pair. cbn [snd].
  pose proof (preserves_each Sum _ chunks process_chunk_sum _ _ (new_sum id model now ctx Hb)) as H. cbn [app] in H.
  apply finish_restates; [done|]. by rewrite (chunks_not_final chunks (new id model now ctx)).
Qed.

End tools.

(** ** The response holds what the upstream said *)

Section delivered.
Context (show : Value -> string) (parse_json : string -> option Value) (pick : list Z -> option Z).

(** The reference: reasoning and text of the choices, with inline thinking separated. *)
Abbreviation Hearing := (InlineThinkState * (string * string))%type.



(** *** Text *)







(** *** Calls

[names] gives the id and the name of the call at each index. *)

Section calls.
Context (names : Z -> string * string) (ctx : ToolContext).













(** *** The whole answer *)





End calls.





End delivered.

(** ** Examples *)

Lemma responses_final_restates_witness :
  restated StreamSample.show StreamSample.parse
    ((each (process_chunk StreamSample.show StreamSample.parse StreamSample.pick) StreamSample.answer ;;;
      finish StreamSample.show StreamSample.parse Terminated) (new "resp_1" "m" 0 empty_ctx)).2.
Proof.
  exact (responses_final_restates StreamSample.show StreamSample.parse StreamSample.pick "resp_1" "m" 0 empty_ctx
           StreamSample.answer Terminated eq_refl).
Defined.

