(* ===== verification/ResponsesHistory.v ===== *)
(** * The history of Responses conversations

[src/service/responses/history.rs]: the output items of finished responses are kept in memory, least
recently used out first, so that a later request can refer to them by [previous_response_id]. Each
operation runs under one mutex and is a function on the state. The JSON printer is a parameter. *)

From S2P Require Import Prelude Float Json Metering Body Streams InlineThink Chat.

Local Open Scope nat_scope.

Definition MAX_ENTRIES : nat := 512.
Definition MAX_ENTRY_BYTES : Z := 2 * 1024 * 1024.

Definition plausible_response_id (id : string) : bool :=
  starts_with "resp_" id && (5 + 8 <=? String.length id) && (String.length id <=? 128).

Record History : Type := { order : list string; entries : gmap string Value }.
Definition empty_history : History := {| order := []; entries := ∅ |}.

(** [position] and [remove]: the first occurrence is taken out and put at the end. *)
Fixpoint remove_first (id : string) (l : list string) : list string :=
  match l with
  | [] => []
  | x :: l => if bool_decide (x = id) then l else x :: remove_first id l
  end.
Definition touch (id : string) (l : list string) : list string :=
  if bool_decide (id ∈ l) then remove_first id l ++ [id] else l.

(** [while order.len() > MAX_ENTRIES { pop_front, remove }], the length being the fuel. *)
Fixpoint evict (fuel : nat) (h : History) : History :=
  match fuel with
  | O => h
  | S fuel =>
      if MAX_ENTRIES <? length h.(order) then
        match h.(order) with
        | [] => h
        | x :: l => evict fuel {| order := l; entries := delete x h.(entries) |}
        end
      else h
  end.

Section store.
Variable show : Value -> string.

Definition record (id : string) (items : Value) (h : History) : History :=
  if negb (plausible_response_id id) then h
  else
    match items with
    | VArray (_ :: _) =>
        if (MAX_ENTRY_BYTES <? Z.of_nat (String.length (show items)))%Z then h
        else
          let h :=
            match h.(entries) !! id with
            | Some _ => {| order := h.(order); entries := <[id := items]> h.(entries) |}
            | None =>
                let h := {| order := h.(order) ++ [id]; entries := <[id := items]> h.(entries) |} in
                evict (length h.(order)) h
            end in
          {| order := touch id h.(order); entries := h.(entries) |}
    | _ => h
    end.

Definition restore (id : string) (h : History) : History * option Value :=
  ({| order := touch id h.(order); entries := h.(entries) |}, h.(entries) !! id).

(** ** Invariant *)

Record history_ok (h : History) : Prop := {
  ok_nodup : NoDup h.(order);
  ok_dom : forall id, id ∈ h.(order) <-> is_Some (h.(entries) !! id);
  ok_length : length h.(order) <= MAX_ENTRIES;
}.

Lemma remove_first_perm id l : id ∈ l -> l ≡ₚ id :: remove_first id l.
Proof.
  induction l as [|x l IH]; intros H; [by apply elem_of_nil in H|]. cbn. case_bool_decide as E; [by subst|].
  apply elem_of_cons in H as [->|H]; [done|]. rewrite (IH H) at 1. apply Permutation_swap.
Qed.
Lemma touch_perm id l : touch id l ≡ₚ l.
Proof.
  unfold touch. case_bool_decide as H; [|done]. rewrite (remove_first_perm id l H) at 2.
  by rewrite Permutation_app_comm.
Qed.

Lemma touch_ok id h : history_ok h -> history_ok {| order := touch id h.(order); entries := h.(entries) |}.
Proof.
  intros []. pose proof (touch_perm id h.(order)) as P. split; cbn.
  - by rewrite P.
  - intros j. by rewrite P.
  - by rewrite P.
Qed.

Lemma evict_small n h : length h.(order) <= MAX_ENTRIES -> evict n h = h.
Proof. intros H. destruct n; [done|]. cbn [evict]. by rewrite (proj2 (Nat.ltb_ge _ _) H). Qed.

(** The new entry makes the queue one too long at most. *)
Lemma push_evict id items h :
  history_ok h -> h.(entries) !! id = None ->
  let h1 := {| order := h.(order) ++ [id]; entries := <[id := items]> h.(entries) |} in
  evict (length h1.(order)) h1 =
    if length h.(order) <? MAX_ENTRIES then h1
    else {| order := drop 1 h.(order) ++ [id]; entries := match h.(order) with x :: _ => delete x h1.(entries) | [] => h1.(entries) end |}.
Proof.
  intros Hok Hn h1. destruct (Nat.ltb_spec (length h.(order)) MAX_ENTRIES) as [Hl|Hl].
  { apply evict_small. cbn. rewrite length_app. cbn. lia. }
  pose proof (ok_length _ Hok) as Hl'. destruct h.(order) as [|x l] eqn:Eo; [cbn in Hl; unfold MAX_ENTRIES in Hl; lia|].
  unfold h1. cbn [order length app]. cbn [evict order]. rewrite (proj2 (Nat.ltb_lt _ _)).
  - cbn [entries]. rewrite evict_small; [done|]. cbn. rewrite length_app. cbn in *. lia.
  - cbn in *. rewrite length_app. cbn. lia.
Qed.

Lemma record_ok id items h : history_ok h -> history_ok (record id items h).
Proof.
  intros Hok. unfold record. destruct (plausible_response_id id); [|done]. cbn [negb].
  destruct items as [| | | |[|x0 l0]|]; try done. destruct (_ <? _)%Z; [done|]. cbv zeta.
  set (items := VArray (x0 :: l0)). destruct (h.(entries) !! id) as [v|] eqn:E.
  { apply (touch_ok id {| order := h.(order); entries := <[id := items]> h.(entries) |}). destruct Hok. split; cbn; try done.
    intros j. destruct (decide (j = id)) as [->|Hne]; [|by rewrite lookup_insert_ne].
    rewrite lookup_insert_eq, ok_dom0, E. split; by eexists. }
  apply touch_ok. rewrite push_evict by done. pose proof Hok as [Hn Hd Hl].
  assert (Hid : id ∉ h.(order)) by (rewrite Hd, E; by intros [? ?]).
  assert (Hn' : NoDup (h.(order) ++ [id])).
  { apply NoDup_app. split_and!; [done| |by apply NoDup_singleton]. intros j Hj Hj'. by apply list_elem_of_singleton in Hj' as ->. }
  assert (Hd' : forall j, j ∈ h.(order) ++ [id] <-> is_Some (<[id := items]> h.(entries) !! j)).
  { intros j. rewrite elem_of_app, list_elem_of_singleton. destruct (decide (j = id)) as [->|Hne].
    - rewrite lookup_insert_eq. split; [by eexists|by right].
    - rewrite lookup_insert_ne, <-Hd by done. naive_solver. }
  destruct (Nat.ltb_spec (length h.(order)) MAX_ENTRIES) as [Hlt|Hge].
  - split; cbn; [done..|]. rewrite length_app. cbn. lia.
  - destruct h.(order) as [|x l]; [cbn in Hge; unfold MAX_ENTRIES in Hge; lia|]. cbn [drop entries].
    cbn [app] in Hn', Hd'. apply NoDup_cons in Hn' as [Hx Hn'']. split; cbn.
    + done.
    + intros j. destruct (decide (j = x)) as [->|Hne].
      * rewrite lookup_delete_eq. split; [by intros ?|by intros [? ?]].
      * rewrite lookup_delete_ne by done. rewrite <-Hd', elem_of_cons. naive_solver.
    + change (drop 0 l) with l. rewrite length_app. cbn in *. lia.
Qed.
Lemma restore_ok id h : history_ok h -> history_ok (restore id h).1.
Proof. apply touch_ok. Qed.

(** ** Use *)

Inductive Use : Type := Put (id : string) (items : Value) | Get (id : string).
Definition used (u : Use) : string := match u with Put id _ | Get id => id end.
Definition use (h : History) (u : Use) : History :=
  match u with Put id items => record id items h | Get id => (restore id h).1 end.

Lemma use_ok h u : history_ok h -> history_ok (use h u).
Proof. destruct u; [apply record_ok|apply restore_ok]. Qed.

(** The entry is kept, and only ids of [U] have been used since it was. *)
Definition Recent (U : gset string) (id : string) (v : Value) (h : History) : Prop :=
  h.(entries) !! id = Some v /\ exists pre post, h.(order) = pre ++ id :: post /\ forall j, j ∈ post -> j ∈ U.

Lemma remove_first_app a l1 l2 : a ∉ l1 -> remove_first a (l1 ++ l2) = l1 ++ remove_first a l2.
Proof.
  induction l1 as [|x l1 IH]; intros H; [done|]. cbn. rewrite not_elem_of_cons in H. destruct H as [Hx H].
  rewrite bool_decide_false by congruence. by rewrite IH.
Qed.
Lemma remove_first_sub a l j : j ∈ remove_first a l -> j ∈ l.
Proof.
  induction l as [|x l IH]; cbn; [done|]. case_bool_decide; rewrite !elem_of_cons; naive_solver.
Qed.

Lemma touch_recent U id j v h :
  j <> id -> j ∈ U -> Recent U id v h -> Recent U id v {| order := touch j h.(order); entries := h.(entries) |}.
Proof.
  intros Hne Hj (He & pre & post & Ho & Hp). split; [done|]. cbn. unfold touch. case_bool_decide as Hin; [|by eauto].
  rewrite Ho in *. destruct (decide (j ∈ pre)) as [Hpre|Hpre].
  - assert (E : exists pre', remove_first j (pre ++ id :: post) = pre' ++ id :: post).
    { clear -Hpre. induction pre as [|x pre IH]; [by apply elem_of_nil in Hpre|]. cbn. case_bool_decide as E; [by eauto|].
      apply elem_of_cons in Hpre as [->|Hpre]; [done|]. destruct (IH Hpre) as [pre' ->]. by exists (x :: pre'). }
    destruct E as [pre' ->]. exists pre', (post ++ [j]). rewrite <-app_assoc. split; [done|].
    intros x [Hx|Hx]%elem_of_app; [by apply Hp|]. by apply list_elem_of_singleton in Hx as ->.
  - rewrite remove_first_app by done. cbn. rewrite bool_decide_false by congruence.
    exists pre, (remove_first j post ++ [j]). rewrite <-app_assoc. split; [done|].
    intros x [Hx|Hx]%elem_of_app; [by apply Hp, (remove_first_sub j)|]. by apply list_elem_of_singleton in Hx as ->.
Qed.

Lemma post_size (U : gset string) (post : list string) : NoDup post -> (forall j, j ∈ post -> j ∈ U) -> length post <= size U.
Proof.
  intros Hn Hp. rewrite <-(size_list_to_set (C := gset string) post Hn). apply subseteq_size. intros j.
  rewrite elem_of_list_to_set. apply Hp.
Qed.

Lemma record_recent U id j v items h :
  size U < MAX_ENTRIES -> j <> id -> j ∈ U -> history_ok h -> Recent U id v h -> Recent U id v (record j items h).
Proof.
  intros HU Hne Hj Hok HR. unfold record. destruct (plausible_response_id j); [|done]. cbn [negb].
  destruct items as [| | | |[|x0 l0]|]; try done. destruct (_ <? _)%Z; [done|]. cbv zeta.
  set (items := VArray (x0 :: l0)). destruct (h.(entries) !! j) as [w|] eqn:E.
  { apply (touch_recent U id j v {| order := h.(order); entries := <[j := items]> h.(entries) |}); [done..|].
    destruct HR as (He & H). split; [cbn; by rewrite lookup_insert_ne|done]. }
  apply touch_recent; [done..|]. rewrite push_evict by done. destruct HR as (He & pre & post & Ho & Hp).
  assert (Hp' : forall x, x ∈ post ++ [j] -> x ∈ U).
  { intros x [Hx|Hx]%elem_of_app; [by apply Hp|]. by apply list_elem_of_singleton in Hx as ->. }
  assert (Hpost : length (post ++ [j]) <= size U).
  { apply post_size; [|done]. pose proof (ok_nodup _ Hok) as Hn. rewrite Ho in Hn.
    apply NoDup_app in Hn as (_ & _ & Hn). apply NoDup_cons in Hn as [_ Hn].
    apply NoDup_app. split_and!; [done| |by apply NoDup_singleton]. intros y Hy Hj'. apply list_elem_of_singleton in Hj' as ->.
    assert (is_Some (h.(entries) !! j)) as [? ?]; [|congruence]. apply (ok_dom _ Hok). rewrite Ho. set_solver. }
  rewrite length_app in Hpost. cbn in Hpost.
  destruct (Nat.ltb_spec (length h.(order)) MAX_ENTRIES) as [Hlt|Hge].
  - split; [cbn; by rewrite lookup_insert_ne|]. exists pre, (post ++ [j]). cbn. rewrite Ho, <-app_assoc. done.
  - destruct pre as [|x pre].
    { rewrite Ho in Hge. cbn in Hge. unfold MAX_ENTRIES in *. lia. }
    rewrite Ho. cbn [drop app]. split.
    + cbn. assert (x <> id).
      { intros ->. pose proof (ok_nodup _ Hok) as Hn. rewrite Ho in Hn. apply NoDup_cons in Hn as [Hn _]. apply Hn. set_solver. }
      rewrite lookup_delete_ne, lookup_insert_ne by done. done.
    + exists pre, (post ++ [j]). split; [|done]. cbn [order]. change (drop 0 ?l) with l. by rewrite <-app_assoc.
Qed.

Lemma recent_kept (before : list Use) (id : string) (x : Value) (l : list Value) (since : list Use) (U : gset string) :
  plausible_response_id id = true -> (Z.of_nat (String.length (show (VArray (x :: l)))) <= MAX_ENTRY_BYTES)%Z ->
  (forall u, u ∈ since -> used u <> id /\ used u ∈ U) -> size U < MAX_ENTRIES ->
  let h := foldl use (record id (VArray (x :: l)) (foldl use empty_history before)) since in
  history_ok h /\ (restore id h).2 = Some (VArray (x :: l)).
Proof.
  intros Hid Hsize Hsince HU h.
  assert (H0 : history_ok (foldl use empty_history before)).
  { assert (He : history_ok empty_history).
    { split; cbn; [apply NoDup_nil_2| |unfold MAX_ENTRIES; lia]. intros j. rewrite lookup_empty. split; [by intros ?%elem_of_nil|by intros [? ?]]. }
    revert He. generalize empty_history. induction before as [|u b IH]; intros h0 Hh; [done|]. cbn. by apply IH, use_ok. }
  set (h0 := foldl use empty_history before) in *. set (h1 := record id (VArray (x :: l)) h0).
  assert (H1 : history_ok h1 /\ Recent U id (VArray (x :: l)) h1).
  { split; [by apply record_ok|]. unfold h1, record. rewrite Hid. cbn [negb].
    rewrite (proj2 (Z.ltb_ge _ _)) by lia. cbv zeta.
    assert (Hend : forall m o, m !! id = Some (VArray (x :: l)) -> id ∈ o ->
      Recent U id (VArray (x :: l)) {| order := touch id o; entries := m |}).
    { intros m o Hm Ho. split; [done|]. exists (remove_first id o), []. cbn. unfold touch. rewrite bool_decide_true by done.
      split; [done|]. by intros j ?%elem_of_nil. }
    apply Hend.
    - destruct (h0.(entries) !! id) eqn:E; [cbn; by rewrite lookup_insert_eq|]. rewrite push_evict by done.
      destruct (_ <? _); [cbn; by rewrite lookup_insert_eq|]. cbn. destruct h0.(order) as [|y o] eqn:Eo; [by rewrite lookup_insert_eq|].
      rewrite lookup_delete_ne, lookup_insert_eq; [done|]. intros ->. assert (is_Some (h0.(entries) !! id)) as [? ?]; [|congruence].
      apply (ok_dom _ H0). rewrite Eo. by left.
    - destruct (h0.(entries) !! id) eqn:E; [cbn; apply (ok_dom _ H0); by rewrite E|]. rewrite push_evict by done.
      destruct (_ <? _); cbn; apply elem_of_app; right; by left. }
  unfold h. fold h1. clearbody h1. clear h h0 H0. revert h1 H1 Hsince.
  induction since as [|u since IH]; intros h1 [Hok HR] Hs; [split; [done|apply HR]|]. cbn [foldl]. apply IH.
  - split; [by apply use_ok|]. destruct (Hs u) as [Hu1 Hu2]; [by left|].
    destruct u as [j items|j]; [by apply record_recent|by apply touch_recent].
  - intros u' Hu'. apply Hs. by right.
Qed.

(** The history is bounded and keeps what is in use. After any sequence of uses it holds at most 512
    entries, its queue and its map agree; and a response that was recorded is restored, unchanged, as
    long as fewer than 512 other responses have been used since. *)
Theorem history_keeps_recent (before : list Use) (id : string) (x : Value) (l : list Value) (since : list Use) (U : gset string) :
  plausible_response_id id = true -> (Z.of_nat (String.length (show (VArray (x :: l)))) <= MAX_ENTRY_BYTES)%Z ->
  (forall u, u ∈ since -> used u <> id /\ used u ∈ U) -> size U < MAX_ENTRIES ->
  let h := foldl use (record id (VArray (x :: l)) (foldl use empty_history before)) since in
  history_ok h /\ (restore id h).2 = Some (VArray (x :: l)).
Proof. apply recent_kept. Qed.

(** ** Requests that refer to a response *)

Definition existing_input (v : option Value) : list Value :=
  match v with
  | None => []
  | Some (VString s) =>
      [json_object [("type", VString "message"); ("role", VString "user");
                    ("content", VArray [json_object [("type", VString "input_text"); ("text", VString s)]])]]
  | Some (VObject o) => [VObject o]
  | Some (VArray l) => l
  | Some other => [other]
  end.

Definition unknown_previous (pid : string) : string :=
  "unknown previous_response_id '" +:+ pid +:+ "': gateway history for this response has " +:+
  "expired or was recorded before a restart; resend the full conversation history " +:+
  "instead of referencing it (codex clients: disable server-side storage, e.g. " +:+
  "'store' 'false' in model args)".

Definition enrich_request_with_history (h : History) (json : Value) : History * result Value string :=
  match trimmed_non_empty (get_str "previous_response_id" json) with
  | None => (h, Ok json)
  | Some pid =>
      let '(h, restored) := restore pid h in
      match restored with
      | None => (h, Err (unknown_previous pid))
      | Some restored =>
          let input := default [] (as_array restored) ++ existing_input (get "input" json) in
          (h, Ok (match json with
                  | VObject o => VObject (Map.remove "previous_response_id" (Map.insert "input" (VArray input) o))
                  | other => other
                  end))
      end
  end.

(** A conversation continues where it was. When a response has been recorded and fewer than 512
    others were used since, a request that refers to it (white space around the id aside) becomes the
    request without the reference whose input is the recorded items followed by its own input, every
    other field unchanged; a request that refers to an unknown response is refused and leaves the
    history as it was; and a request without a reference is unchanged. *)
Theorem conversation_continues before id x l since (U : gset string) (o : list (string * Value)) r :
  plausible_response_id id = true -> (Z.of_nat (String.length (show (VArray (x :: l)))) <= MAX_ENTRY_BYTES)%Z ->
  (forall u, u ∈ since -> used u <> id /\ used u ∈ U) -> size U < MAX_ENTRIES ->
  trimmed_non_empty (get_str "previous_response_id" (VObject o)) = r ->
  let h := foldl use (record id (VArray (x :: l)) (foldl use empty_history before)) since in
  let out := (enrich_request_with_history h (VObject o)).2 in
  match r with
  | None => out = Ok (VObject o)
  | Some pid =>
      (pid = id -> exists o', out = Ok (VObject o') /\
         Map.get "input" o' = Some (VArray (x :: l ++ existing_input (Map.get "input" o))) /\
         Map.get "previous_response_id" o' = None /\
         forall k, k <> "input" -> k <> "previous_response_id" -> Map.get k o' = Map.get k o) /\
      (h.(entries) !! pid = None -> enrich_request_with_history h (VObject o) = (h, Err (unknown_previous pid)))
  end.
Proof.
  intros Hid Hsize Hs HU Hr h out. destruct (recent_kept before id x l since U Hid Hsize Hs HU) as [Hok Hre].
  fold h in Hok, Hre. unfold out, enrich_request_with_history. rewrite Hr. destruct r as [pid|]; [|done]. split.
  - intros ->. unfold restore in Hre |- *. cbn [snd] in Hre. rewrite Hre. cbn [snd get as_array].
    eexists. split; [done|]. rewrite !Map.get_remove, !Map.get_insert. cbn. split_and!; [done..|].
    intros k H1 H2. rewrite Map.get_remove, Map.get_insert. by rewrite !bool_decide_false by congruence.
  - intros Hn. unfold restore. rewrite Hn. f_equal. unfold touch. rewrite bool_decide_false; [by destruct h|].
    intros Hin. apply (ok_dom _ Hok) in Hin as [? ?]. congruence.
Qed.

End store.

(** ** Examples *)

Module HistorySample.
Definition show (_ : Value) : string := "".
Definition id : string := "resp_0123456789".
Definition other : string := "resp_9876543210".
Definition item (t : string) : Value := json_object [("type", VString t)].
End HistorySample.

Lemma history_keeps_recent_witness :
  history_ok (foldl (use HistorySample.show)
    (record HistorySample.show HistorySample.id (VArray [HistorySample.item "message"]) empty_history)
    [Put HistorySample.other (VArray [HistorySample.item "reasoning"])]).
Proof.
  refine (proj1 (history_keeps_recent HistorySample.show [] HistorySample.id (HistorySample.item "message") []
                   [Put HistorySample.other (VArray [HistorySample.item "reasoning"])] {[HistorySample.other]} _ _ _ _)).
  - reflexivity.
  - discriminate.
  - intros u ->%list_elem_of_singleton. split; [discriminate|]. set_solver.
  - rewrite size_singleton. unfold MAX_ENTRIES. lia.
Defined.

Lemma conversation_continues_witness :
  exists o', (enrich_request_with_history
      (record HistorySample.show HistorySample.id (VArray [HistorySample.item "message"]) empty_history)
      (VObject [("previous_response_id", VString HistorySample.id)])).2 = Ok (VObject o') /\
    Map.get "input" o' = Some (VArray [HistorySample.item "message"]).
Proof.
  destruct (conversation_continues HistorySample.show [] HistorySample.id (HistorySample.item "message") [] [] ∅
              [("previous_response_id", VString HistorySample.id)] (Some HistorySample.id)) as [H _].
  - reflexivity.
  - discriminate.
  - intros u Hu. by apply elem_of_nil in Hu.
  - rewrite size_empty. unfold MAX_ENTRIES. lia.
  - reflexivity.
  - destruct (H eq_refl) as (o' & H1 & H2 & _). exists o'. split; [exact H1|exact H2].
Defined.
