(* ===== verification/ResponsesAdapter.v ===== *)
(** * The Responses stream adapter

[wrap_chat_stream_to_responses] of [src/service/responses/stream.rs] and the snapshots of
[src/service/responses/history.rs]: the adapter of [StreamAdapter] around the state machine of
[ResponsesStream], and the history it feeds. *)

From S2P Require Import Prelude Float Json Metering Body Streams Machine InlineThink Chat StreamAdapter.
From S2P Require Import ResponsesContext ResponsesOutput ResponsesStream ResponsesProtocol ResponsesContent ResponsesHistory.

Local Open Scope Z_scope.

Section snapshot.
Context (show : Value -> string) (parse_json : string -> option Value).

(** The id and the output of a serialised response. *)
Definition snapshot_of (r : ResponseOut) : option (string * Value) :=
  let v := to_value (response_doc r) in
  match get "output" v, get_str "id" v with
  | Some output, Some id => Some (id, output)
  | _, _ => None
  end.

(** [snapshot_from_events]: the response of the first terminal event that is not a failure. *)
Definition snapshot_from_events (l : list Event) : option (string * Value) :=
  List.hd_error (omap (fun e => match e with Terminal (Completed | Incomplete) r => Some r | _ => None end) l) ≫= snapshot_of.

Definition snapshot_from_events_typed (s : State) : option (string * Value) :=
  snapshot_of (final_response show parse_json s).

(** The output of a response as it is kept. *)
Definition kept_items (r : ResponseOut) : Value := VArray ((fun o => to_value (item_doc o)) <$> r.(r_output)).

Lemma snapshot_of_Some r : snapshot_of r = Some (r.(r_id), kept_items r).
Proof.
  unfold snapshot_of, to_value, response_doc. rewrite canonical_object. unfold kept_items.
  destruct (r_error r), (r_incomplete r); cbn; by rewrite <-list_fmap_compose.
Qed.

Lemma no_snapshot_before l : Forall (fun e => is_terminal e = false) l ->
  forall e, snapshot_from_events (l ++ [e]) = snapshot_from_events [e].
Proof.
  intros Hl e. unfold snapshot_from_events. rewrite omap_app.
  assert (omap (fun e => match e with Terminal (Completed | Incomplete) r => Some r | _ => None end) l = []) as ->; [|done].
  induction Hl as [|e' l He Hl IH]; [done|]. cbn. destruct e'; [done..|]. done.
Qed.
End snapshot.

#[export] Instance responses_converter (show : Value -> string) (parse_json : string -> option Value)
    (pick : list Z -> option Z) : Converter State Event :=
  {| convert := process_chunk show parse_json pick;
     StreamAdapter.finalize := ResponsesStream.finalize show parse_json;
     StreamAdapter.finalize_truncated := ResponsesStream.finalize_truncated show parse_json;
     StreamAdapter.transport_error := ResponsesStream.transport_error show parse_json;
     StreamAdapter.has_failed := ResponsesStream.has_failed;
     StreamAdapter.billing_usage := ResponsesStream.billing_usage;
     kept := snapshot_from_events_typed show parse_json |}.

(** The machine runs while the increments sum up to its items and no end was sent. *)
Definition in_flight (s : State) (h : list Event) : Prop := Sum s h /\ s.(verdict).(finalized) = false.

#[export] Instance responses_laws (show : Value -> string) (parse_json : string -> option Value) (pick : list Z -> option Z) :
  ConverterLaws State Event (H := responses_converter show parse_json pick) in_flight (restated show parse_json).
Proof.
  split.
  - intros c s h [H Hf]. split; [by apply process_chunk_sum|]. cbn. by rewrite (proj1 (chunk_ended show parse_json pick c s)).
  - intros s h [H Hf]. by apply (finish_restates show parse_json Terminated).
  - intros s h [H Hf]. by apply (finish_restates show parse_json Truncated).
  - intros m s h [H Hf]. by apply (finish_restates show parse_json (Broken m)).
Qed.

Section adapter.
Context (show : Value -> string) (from_utf8_lossy : string -> string) (parse_json : string -> option Value).
Context (pick : list Z -> option Z).

(** The adapter of the Responses dialect: the items of the upstream so far. *)
Definition wrap_chat_stream_to_responses (id model : string) (now : Z) (ctx : ToolContext) (l : list StreamAdapter.Item) :
    ConvertCtx State * list Event :=
  on_items (H := responses_converter show parse_json pick) show from_utf8_lossy parse_json l (start (new id model now ctx)).

(** [ctx.st.responses_history.record(&id, items)] for what the stream handed over. *)
Definition remember (c : ConvertCtx State) (h : History) : History :=
  foldl (fun h kv => record show kv.1 kv.2 h) h c.(history).

(** C20: every way a converted Responses stream can finish ends it properly. The item at which the stream
    finishes, be it the end marker, a failure or a transport error, brings the one terminal event,
    after which nothing else of that item is sent; when no item finishes the stream, the end of the
    upstream does. The response of the terminal event restates what was sent before: wherever an item
    was added, or an increment of text, reasoning or arguments was sent, its output has an item of that
    kind at that index, and each message, reasoning and function call in it has exactly the text, the
    reasoning or (in canonical form) the arguments that the increments at its index add up to. (The
    request asks for no hosted web search; of a custom call and a tool search, whose payload is not sent
    in such increments, only the presence is stated.) *)
Theorem responses_adapter_ends id model now ctx l i :
  bridges_web_search ctx = false ->
  (wrap_chat_stream_to_responses id model now ctx l).1.(finished) = false ->
  let '(c, ev) := wrap_chat_stream_to_responses id model now ctx (l ++ [i]) in
  if c.(finished) then restated show parse_json ev
  else restated show parse_json (ev ++ (on_end (H := responses_converter show parse_json pick) c).2).
Proof.
  intros Hb. apply (adapter_finishes show from_utf8_lossy parse_json). split; [by apply new_sum|done].
Qed.

(** A finished response is remembered as it was sent. Whatever the chunks, and whether the stream was
    terminated or cut short, what is handed to the history is the id and the items of the response of
    the terminal event; and where that event is not a failure, it is also what reading the events back
    gives. (The request asks for no hosted web search.) *)
Theorem responses_remembered id model now ctx chunks tr :
  bridges_web_search ctx = false ->
  let '(s, ev) := (each (process_chunk show parse_json pick) chunks ;;; finalize_inner show parse_json tr) (new id model now ctx) in
  exists body k r, ev = body ++ [Terminal k r] /\
    snapshot_from_events_typed show parse_json s = Some (r.(r_id), kept_items r) /\
    snapshot_from_events ev =
      match k with Failed => None | Completed | Incomplete => snapshot_from_events_typed show parse_json s end.
Proof.
  intros Hb. rewrite seq_pair.
  pose proof (preserves_each Sum _ chunks (process_chunk_sum show parse_json pick) _ _ (new_sum id model now ctx Hb)) as H.
  cbn [app] in H. pose proof (chunks_not_final show parse_json pick chunks (new id model now ctx)) as Hf. cbn beta in Hf.
  set (s := (each _ chunks _).1) in *. set (h := (each _ chunks _).2) in *.
  destruct (finalize_sum show parse_json tr s h H Hf) as (body & k & v & e & H' & E). rewrite E. cbn [fst snd].
  exists (h ++ body), k, (with_error e (final_response show parse_json (set_verdict v (end_of show parse_json s)))).
  rewrite app_assoc, no_snapshot_before by apply H'. unfold snapshot_from_events_typed. rewrite snapshot_of_Some.
  split_and!; [done..|]. destruct k; [..|done]; cbn; by rewrite snapshot_of_Some.
Qed.
End adapter.

(** ** Examples, and a flaw *)

Module AdapterSample.
Definition show (_ : Value) : string := "".
Definition pick (l : list Z) : option Z := List.hd_error l.
Definition id : string := "resp_0123456789".
(** The frame [a] carries text, the frame [e] an error. *)
Definition parse_json (s : string) : option Value :=
  if bool_decide (s = "a") then
    Some (json_object [("id", VString "1"); ("model", VString "m");
                       ("choices", VArray [json_object [("delta", json_object [("content", VString "half an")])]])])
  else if bool_decide (s = "e") then Some (json_object [("error", json_object [("message", VString "overloaded")])])
  else None.
Definition sse (d : string) : string := "data: " +:+ d +:+ newline +:+ newline.
Definition run (l : list StreamAdapter.Item) : ConvertCtx State * list Event :=
  wrap_chat_stream_to_responses show (fun s => s) parse_json pick id "m" 0 empty_ctx l.
End AdapterSample.

Lemma responses_adapter_ends_witness :
  let '(c, ev) := AdapterSample.run ([Bytes (AdapterSample.sse "a")] ++ [Bytes (AdapterSample.sse "[DONE]")]) in
  if c.(finished) then restated AdapterSample.show AdapterSample.parse_json ev
  else restated AdapterSample.show AdapterSample.parse_json
         (ev ++ (on_end (H := responses_converter AdapterSample.show AdapterSample.parse_json AdapterSample.pick) c).2).
Proof. apply responses_adapter_ends; [reflexivity|]. vm_compute. reflexivity. Defined.

Lemma responses_remembered_witness :
  let '(s, ev) := (each (process_chunk StreamSample.show StreamSample.parse StreamSample.pick) StreamSample.answer ;;;
                   finalize_inner StreamSample.show StreamSample.parse false) (new "resp_1" "m" 0 empty_ctx) in
  exists body k r, ev = body ++ [Terminal k r] /\
    snapshot_from_events_typed StreamSample.show StreamSample.parse s = Some (r.(r_id), kept_items r) /\
    snapshot_from_events ev =
      match k with
      | Failed => None
      | Completed | Incomplete => snapshot_from_events_typed StreamSample.show StreamSample.parse s
      end.
Proof.
  exact (responses_remembered StreamSample.show StreamSample.parse StreamSample.pick "resp_1" "m" 0 empty_ctx
           StreamSample.answer false eq_refl).
Defined.

(** A stream that failed in the middle of its answer ends with [response.failed], and its half answer
    is recorded in the history all the same. *)
Theorem failed_stream_remembered :
  let '(c, ev) := AdapterSample.run [Bytes (AdapterSample.sse "a"); Bytes (AdapterSample.sse "e")] in
  exists r items, List.last ev (Created r) = Terminal Failed r /\
  (remember AdapterSample.show c empty_history).(entries) !! AdapterSample.id = Some (VArray items) /\ items <> [].
Proof.
  destruct (AdapterSample.run _) as [c ev] eqn:E. vm_compute in E. injection E as <- <-.
  eexists _, _. split; [cbn; reflexivity|]. split; [vm_compute; reflexivity|done].
Qed.
