(* ===== verification/Pipeline.v ===== *)
(** * The proxy pipeline

[proxy], [proxy_authed] and its closures and failover loops of [src/service/proxy.rs], composed from
the components: the guards that count running requests ([Guards]), the choice of the candidate
providers, the construction of the outbound body, and the two failover loops. The network is an
input: for every provider, what an attempt on it would yield. The request and response converters of
other dialects, the JSON codec and the history bridge are parameters. *)

From Stdlib Require Import SpecFloat.
From S2P Require Import Prelude Float Json Errors RateLimit Breaker Routing Calendar Plans Metering Body Streams.

Local Open Scope Z_scope.

(** ** Counting running requests *)

Module Guards.

Record Counters : Type := {
  active_requests : Z;
  active_by_user : gmap (Z * string) Z;
}.

(** The guards a response holds until its body has ended or is dropped. *)
Record Held : Type := { held_user : option (Z * string) }.

Definition user_key (user_id : option Z) (model : option string) : option (Z * string) :=
  (fun uid => (uid, default "" model)) <$> user_id.

(** [ActiveRequestGuard::enter] and [UserActiveGuard::enter] *)
Definition enter (key : option (Z * string)) (c : Counters) : Counters :=
  {| active_requests := c.(active_requests) + 1;
     active_by_user :=
       match key with
       | Some k => <[k := default 0 (c.(active_by_user) !! k) + 1]> c.(active_by_user)
       | None => c.(active_by_user)
       end |}.

(** The two [Drop] implementations; entries that are not positive are removed. *)
Definition leave (key : option (Z * string)) (c : Counters) : Counters :=
  {| active_requests := c.(active_requests) - 1;
     active_by_user :=
       match key with
       | Some k =>
           filter (fun kv => 0 < kv.2)
             (match c.(active_by_user) !! k with
              | Some n => <[k := n - 1]> c.(active_by_user)
              | None => c.(active_by_user)
              end)
       | None => c.(active_by_user)
       end |}.

Definition init : Counters := {| active_requests := 0; active_by_user := ∅ |}.

Inductive step : Counters * list (option (Z * string)) -> Counters * list (option (Z * string)) -> Prop :=
| step_enter k c live : step (c, live) (enter k c, k :: live)
| step_leave k c l1 l2 : step (c, l1 ++ k :: l2) (leave k c, l1 ++ l2).

End Guards.

(** ** Configuration *)

Record Config : Type := {
  cfg_routes : list ModelRoute;
  cfg_providers : list Provider;
  disabled_models : gmap Z (gset string);
  user_access : gmap Z (list UserAccessRule);
  admin_ids : gset Z;
  message_templates : MessageTemplates;
  extra_body_enabled : bool;
  max_attempts : Z;
  zen_table : list (string * list string);
  breaker_config : BreakerConfig;
  responses_enabled : bool;
  messages_enabled : bool;
}.

Definition ensure_endpoint_enabled (cfg : Config) (e : Endpoint) : result unit AppError :=
  if e.(responses) && negb cfg.(responses_enabled) then
    Err (ServiceUnavailable
      "the Responses API (/v1/responses) is currently disabled by the administrator")
  else if e.(anthropic) && negb cfg.(messages_enabled) then
    Err (ServiceUnavailable
      "the Anthropic Messages API (/v1/messages) is currently disabled by the administrator")
  else Ok ().

Definition requested_model (json : Value) : option string :=
  match get_str "model" json with
  | Some m => if str_is_empty m then None else Some m
  | None => None
  end.

(** ** Candidates *)

Definition strip_suffix (suf s : string) : option string :=
  string_rev <$> strip_prefix (string_rev suf) (string_rev s).

Definition outbound_model (route : ModelRoute) (mdl : string) : string :=
  match route.(upstream_model) with
  | Some m => m
  | None => default mdl (strip_suffix "[1m]" mdl)
  end.

Definition usable (cfg : Config) (route : ModelRoute) (mdl : string) (p : Provider) : bool :=
  negb (model_disabled cfg.(disabled_models) p.(id) (outbound_model route mdl)).

Definition authorised (cfg : Config) (user : option Z) (mdl : string) (p : Provider) : bool :=
  match user with
  | Some uid =>
      if bool_decide (uid ∈ cfg.(admin_ids)) then true
      else user_can_use cfg.(user_access) uid p.(id) mdl
  | None => true
  end.

Definition supported_pairing (e : Endpoint) (p : Provider) : bool :=
  match pairing_unsupported e p with None => true | Some _ => false end.

(** The filters between route resolution and the breaker, with their refusals. *)
Definition choose_candidates (cfg : Config) (e : Endpoint) (user : option Z) (mdl : string)
    (route : ModelRoute) : result (list Provider) AppError :=
  let candidates := resolve_candidates cfg.(cfg_providers) route in
  if bool_decide (candidates = []) then
    Err (Internal ("no enabled provider for route '" +:+ route.(model_pattern) +:+ "'"))
  else
    let candidates := List.filter (usable cfg route mdl) candidates in
    if bool_decide (candidates = []) then
      Err (ServiceUnavailable ("model '" +:+ mdl +:+ "' is disabled by the administrator"))
    else
      let candidates := List.filter (authorised cfg user mdl) candidates in
      if bool_decide (candidates = []) then
        Err (Forbidden (model_denied_message cfg.(message_templates) mdl))
      else
        let ok := List.filter (supported_pairing e) candidates in
        if bool_decide (ok = []) then
          let reason :=
            default "" (head (List.filter (fun p => negb (supported_pairing e p)) candidates)
                        ≫= pairing_unsupported e) in
          Err (BadRequest ("no provider supports this client/upstream dialect pairing for model '" +:+
                           mdl +:+ "': " +:+ reason))
        else Ok ok.

Record Selection : Type := {
  sel_json : Value;
  sel_model : string;
  sel_plan : option PlanRuntime;
  sel_downgraded : bool;
  sel_route : ModelRoute;
  sel_candidates : list Provider;
  sel_check_breaker : bool;
}.

Section select.
Context `{C : Calendar}.

(** Steps 3 to 5 of [proxy_authed]: quota, route, candidates, breaker. The state is the plan state
    and the breaker's. *)
Definition select (cfg : Config) (e : Endpoint) (user : option Z) (json : Value)
    (local_now now : Z) (st : PlanState) (brk : states)
    : PlanState * states * option Notify.Alert * result Selection AppError :=
  match requested_model json with
  | None => (st, brk, None, Err (BadRequest "missing 'model' field"))
  | Some mdl0 =>
      let '(st, alert, decision) :=
        match user with
        | Some uid => check_plan st uid local_now now mdl0
        | None => (st, None, Ok {| decided_plan := None; downgrade_to := None |})
        end in
      match decision with
      | Err err => (st, brk, alert, Err err)
      | Ok d =>
          let '(json, mdl, downgraded) :=
            match d.(downgrade_to) with
            | Some m => (default json (set_index "model" (VString m) json), m, true)
            | None => (json, mdl0, false)
            end in
          match resolve_route cfg.(cfg_routes) mdl with
          | None =>
              (st, brk, alert, Err (BadRequest ("model '" +:+ mdl +:+ "' is not routed to any provider")))
          | Some route =>
              match choose_candidates cfg e user mdl route with
              | Err err => (st, brk, alert, Err err)
              | Ok supported =>
                  let '(brk, allowed) := filter_candidates now id supported brk in
                  let '(candidates, bypassed) :=
                    match allowed with Some l => (l, false) | None => (supported, true) end in
                  (st, brk, alert,
                   Ok {| sel_json := json; sel_model := mdl; sel_plan := d.(decided_plan);
                         sel_downgraded := downgraded; sel_route := route;
                         sel_candidates := candidates;
                         sel_check_breaker := negb bypassed && (1 <? length candidates)%nat |})
              end
          end
      end
  end.

End select.

(** ** The outbound body *)

Inductive Outbound : Type :=
| RawBytes             (* the client's bytes, as they came *)
| Rebuilt (v : Value). (* a value to be serialised *)

Definition is_mini_max (mdl : string) : bool :=
  let m := to_ascii_lowercase mdl in str_contains "minimax" m || str_contains "abab" m.

Section outbound.
(** [anthropic::convert_request], [responses::convert_request] and the history bridge. *)
Variable anthropic_convert_request : Value -> string -> string -> result Value string.
Variable responses_convert_request : Value -> string -> result Value string.
Variable enrich_with_history : Value -> result Value string.
(** [rectify::strip_media_outbound] *)
Variable strip_media_outbound : Outbound -> option Outbound.

Variable cfg : Config.
Variable e : Endpoint.

Definition gating_model (sel : Selection) : string :=
  default sel.(sel_model) sel.(sel_route).(upstream_model).
Definition system_head (sel : Selection) : bool :=
  sel.(sel_route).(strict_system_head) || is_mini_max (gating_model sel).
Definition head_merge (sel : Selection) : bool :=
  sel.(sel_route).(system_head_merge) || is_mini_max (gating_model sel).

Definition set_model (m : string) (v : Value) : option Value := set_index "model" (VString m) v.

Definition extra_of (sel : Selection) (p : Provider) : option Value :=
  if cfg.(extra_body_enabled)
  then effective_extra sel.(sel_route).(route_extra_body) p.(provider_extra_body) else None.

Definition native_anthropic (p : Provider) : bool :=
  e.(anthropic) && eq_ignore_ascii_case p.(api_type) "anthropic".

(** The rewriting of a pass-through body. *)
Definition rebuild (sel : Selection) (p : Provider) (json : Value) : option Value :=
  let json := apply_extra json (extra_of sel p) in
  let json := (apply_system_head json (system_head sel) (head_merge sel)).1 in
  let json := if native_anthropic p then json
              else apply_reasoning_config cfg.(zen_table) json sel.(sel_route) (gating_model sel) in
  set_model (outbound_model sel.(sel_route) sel.(sel_model)) (strip_underscore_fields json).

Definition needs_rebuild (sel : Selection) (p : Provider) (roles_rewritten had_encoding : bool) : bool :=
  bool_decide (is_Some (extra_of sel p)) || roles_rewritten || had_encoding || system_head sel ||
  negb (bool_decide (outbound_model sel.(sel_route) sel.(sel_model) = sel.(sel_model))) ||
  has_underscore_fields sel.(sel_json) || sel.(sel_downgraded).

(** [None] is a panic; the path is the upstream path. *)
Definition build_outbound_raw (sel : Selection) (p : Provider) (is_streamed roles_rewritten had_encoding : bool)
    : option (result (Outbound * string) AppError) :=
  let m := outbound_model sel.(sel_route) sel.(sel_model) in
  let extra := extra_of sel p in
  if anthropic_should_convert e.(anthropic) p then
    match anthropic_convert_request sel.(sel_json) (gating_model sel) p.(base_url) with
    | Err err => Some (Err (BadRequest err))
    | Ok chat =>
        chat ← ensure_include_usage chat is_streamed;
        let chat := (apply_system_head (apply_extra chat extra) (system_head sel) (head_merge sel)).1 in
        let chat := apply_reasoning_config cfg.(zen_table) chat sel.(sel_route) (gating_model sel) in
        chat ← set_model m chat; Some (Ok (Rebuilt chat, "/chat/completions"))
    end
  else if responses_should_convert e.(responses) p then
    match (let? enriched := enrich_with_history sel.(sel_json) in
           responses_convert_request enriched (gating_model sel)) with
    | Err err => Some (Err (BadRequest err))
    | Ok chat =>
        chat ← ensure_include_usage chat is_streamed;
        let chat := (apply_system_head (apply_extra chat extra) (system_head sel) (head_merge sel)).1 in
        let chat := apply_dialect_field_gate chat sel.(sel_route) in
        let chat := apply_reasoning_config cfg.(zen_table) chat sel.(sel_route) (gating_model sel) in
        chat ← set_model m chat; Some (Ok (Rebuilt chat, "/chat/completions"))
    end
  else if is_streamed && negb e.(responses) && negb e.(anthropic) then
    json ← ensure_include_usage sel.(sel_json) is_streamed;
    let json := (apply_system_head (apply_extra json extra) (system_head sel) (head_merge sel)).1 in
    let json := apply_reasoning_config cfg.(zen_table) json sel.(sel_route) (gating_model sel) in
    json ← set_model m (strip_underscore_fields json); Some (Ok (Rebuilt json, e.(upstream)))
  else if needs_rebuild sel p roles_rewritten had_encoding then
    json ← rebuild sel p sel.(sel_json); Some (Ok (Rebuilt json, e.(upstream)))
  else Some (Ok (RawBytes, e.(upstream))).

Definition build_outbound (sel : Selection) (p : Provider) (is_streamed roles_rewritten had_encoding : bool)
    : option (result (Outbound * string) AppError) :=
  r ← build_outbound_raw sel p is_streamed roles_rewritten had_encoding;
  Some (match r with
        | Err err => Err err
        | Ok (o, path) =>
            if p.(supports_images) then Ok (o, path)
            else Ok (default o (strip_media_outbound o), path)
        end).

End outbound.

(** ** Failover *)

Definition is_success (status : Z) : bool := (200 <=? status) && (status <? 300).

Definition status_retryable (status : Z) : bool :=
  if is_success status then false
  else negb (bool_decide (status ∈ [400; 405; 406; 413; 414; 415; 422; 501])).

Definition EVENT_STREAM : string := "text/event-stream".

(** An accounting call: the provider it is attributed to, the status, the usage. *)
Record Bill : Type := {
  bill_provider : Z;
  bill_status : Z;
  bill_usage : option Usage;
}.

Inductive Answer : Type :=
| ABody (status : Z) (content_type body : string)
| AStream (status : Z) (content_type : string) (items : list Prime.Item) (capture_usage : bool).

(** The mutable variables of a loop. *)
Record Loop : Type := {
  brk : states;
  bills : list Bill;
  meta_provider : Z;
  last_response : option (Z * string * string);
  last_failed : option Provider;
  saw_timeout : bool;
  saw_connect_error : bool;
  history : list (string * Value);
}.

(** What an attempt on a provider yields. A [Replied] attempt carries both readings of the response
    body: the items a stream over it would produce, and the body read to its end, [None] when that
    fails. The loops differ in whether the key is decrypted before the body is built, so [reply] is
    the first failure in the order of the loop that makes the attempt. *)
Inductive Reply : Type :=
| DecryptFailed
| BuildFailed (err : AppError)
| SendFailed (header_timeout : bool)
| PreRead (status : Z) (content_type body : string)
| Replied (status : Z) (content_type : string) (items : list Prime.Item) (body : option string).

Record Attempt : Type := { t_allow : Z; t_done : Z; reply : Reply }.

(** What the loops use of other components: the JSON and UTF-8 codecs, the usage reader, the response
    converters (that of Responses also yields what is kept for [previous_response_id]), the synthesis
    of a stream from a complete body, and the two error reshapers in the context of a provider. *)
Record Deps : Type := {
  from_utf8_lossy : string -> string;
  parse_json : string -> option Value;
  to_vec : Value -> string;
  usage_from_value : Value -> option Usage;
  anthropic_convert_response : Value -> result Value string;
  responses_convert_response : Value -> result (Value * option (string * Value)) string;
  synthesize_sse : string -> option string;
  reshape_anthropic : Provider -> Z -> string -> string;
  reshape_responses : Provider -> Z -> string -> string;
}.

Section loops.
Variable d : Deps.
Variable bcfg : BreakerConfig.
Variable e : Endpoint.
Variable check_breaker : bool.
Variable attempt_on : Provider -> Attempt.

Definition parse_usage : string -> option Usage := Sse.parse_usage d.(parse_json) d.(usage_from_value).

Definition set_brk (b : states) (s : Loop) : Loop :=
  {| brk := b; bills := s.(bills); meta_provider := s.(meta_provider);
     last_response := s.(last_response); last_failed := s.(last_failed);
     saw_timeout := s.(saw_timeout); saw_connect_error := s.(saw_connect_error);
     history := s.(history) |}.
Definition set_meta (pid : Z) (s : Loop) : Loop :=
  {| brk := s.(brk); bills := s.(bills); meta_provider := pid; last_response := s.(last_response);
     last_failed := s.(last_failed); saw_timeout := s.(saw_timeout);
     saw_connect_error := s.(saw_connect_error); history := s.(history) |}.
Definition bill (status : Z) (u : option Usage) (s : Loop) : Loop :=
  {| brk := s.(brk);
     bills := s.(bills) ++ [{| bill_provider := s.(meta_provider); bill_status := status; bill_usage := u |}];
     meta_provider := s.(meta_provider); last_response := s.(last_response);
     last_failed := s.(last_failed); saw_timeout := s.(saw_timeout);
     saw_connect_error := s.(saw_connect_error); history := s.(history) |}.
Definition note_failed (p : Provider) (s : Loop) : Loop :=
  {| brk := s.(brk); bills := s.(bills); meta_provider := s.(meta_provider);
     last_response := s.(last_response); last_failed := Some p; saw_timeout := s.(saw_timeout);
     saw_connect_error := s.(saw_connect_error); history := s.(history) |}.
Definition note_response (r : Z * string * string) (s : Loop) : Loop :=
  {| brk := s.(brk); bills := s.(bills); meta_provider := s.(meta_provider);
     last_response := Some r; last_failed := s.(last_failed); saw_timeout := s.(saw_timeout);
     saw_connect_error := s.(saw_connect_error); history := s.(history) |}.
Definition note_send_error (header_timeout : bool) (s : Loop) : Loop :=
  {| brk := s.(brk); bills := s.(bills); meta_provider := s.(meta_provider);
     last_response := s.(last_response); last_failed := s.(last_failed);
     saw_timeout := s.(saw_timeout) || header_timeout;
     saw_connect_error := s.(saw_connect_error) || negb header_timeout; history := s.(history) |}.
Definition keep_history (h : option (string * Value)) (s : Loop) : Loop :=
  {| brk := s.(brk); bills := s.(bills); meta_provider := s.(meta_provider);
     last_response := s.(last_response); last_failed := s.(last_failed);
     saw_timeout := s.(saw_timeout); saw_connect_error := s.(saw_connect_error);
     history := s.(history) ++ match h with Some x => [x] | None => [] end |}.

Definition succeed (t : Z) (p : Provider) (s : Loop) : Loop :=
  set_brk (record_success bcfg t p.(id) s.(brk)) s.
Definition fail (t : Z) (p : Provider) (s : Loop) : Loop :=
  set_brk (record_failure bcfg t p.(id) s.(brk)) s.

Definition ac (p : Provider) : bool := anthropic_should_convert e.(anthropic) p.
Definition rc (p : Provider) : bool := responses_should_convert e.(responses) p.

Definition has_usable_choices (v : Value) : bool :=
  match get "choices" v with Some (VArray l) => negb (bool_decide (l = [])) | _ => false end.

Definition JSON_TYPE : string := "application/json".

(** An upstream error that was read in advance, in the client's dialect. *)
Definition pre_read_answer (p : Provider) (status : Z) (ct body : string) : Answer :=
  if ac p then ABody (if is_success status then 502 else status) JSON_TYPE (d.(reshape_anthropic) p status body)
  else if rc p then ABody status JSON_TYPE (d.(reshape_responses) p status body)
  else ABody status ct body.

(** The usage of a complete body; Anthropic counts are folded for native upstreams. *)
Definition body_usage (p : Provider) (body : string) : option Usage :=
  let u := parse_usage body in
  if e.(anthropic) && eq_ignore_ascii_case p.(api_type) "anthropic" then fold_anthropic_input <$> u else u.

(** The body of a served non-streaming response. *)
Definition convert_body (p : Provider) (status : Z) (body : string)
    : Z * string * option (string * Value) :=
  if ac p then
    match d.(parse_json) body with
    | Some v =>
        if is_success status && has_usable_choices v then
          match d.(anthropic_convert_response) v with
          | Ok out => (status, d.(to_vec) out, None)
          | Err err => (502, d.(reshape_anthropic) p 502 err, None)
          end
        else if is_success status then (502, d.(reshape_anthropic) p 502 body, None)
        else (status, d.(reshape_anthropic) p status body, None)
    | None =>
        if is_success status then (502, d.(reshape_anthropic) p 502 body, None)
        else (status, d.(reshape_anthropic) p status body, None)
    end
  else if rc p then
    match d.(parse_json) body with
    | Some v =>
        if is_success status && has_usable_choices v then
          match d.(responses_convert_response) v with
          | Ok (out, h) => (status, d.(to_vec) out, h)
          | Err _ => (status, body, None)
          end
        else if is_success status then (502, d.(reshape_responses) p status body, None)
        else (status, body, None)
    | None =>
        if is_success status then (502, d.(reshape_responses) p status body, None) else (status, body, None)
    end
  else (status, body, None).

(** One candidate of the non-streaming loop: [None] is [continue]. *)
Definition attempt_plain (p : Provider) (s : Loop) : Loop * option (result Answer AppError) :=
  let a := attempt_on p in
  let s := set_meta p.(id) s in
  let '(s, allowed) :=
    if check_breaker then
      let '(b, ok) := Breaker.allow a.(t_allow) p.(id) s.(brk) in (set_brk b s, ok)
    else (s, true) in
  if negb allowed then (s, None)
  else
    match a.(reply) with
    | DecryptFailed | SendFailed _ => (note_failed p (fail a.(t_done) p s), None)
    | BuildFailed err => (s, Some (Err err))
    | PreRead status ct body =>
        (bill status None (succeed a.(t_done) p s), Some (Ok (pre_read_answer p status ct body)))
    | Replied status ct _ body =>
        if status_retryable status then
          (note_failed p (fail a.(t_done) p (note_response (status, default "" body, ct) s)), None)
        else
          match body with
          | None => (note_failed p (fail a.(t_done) p s), None)
          | Some bytes =>
              let s := succeed a.(t_done) p s in
              if str_contains EVENT_STREAM ct || Prime.looks_like_sse bytes then
                let msg := "upstream returned SSE body for non-stream request" in
                (bill status None s,
                 Some (Ok (ABody 502 JSON_TYPE
                   (if e.(anthropic) then d.(reshape_anthropic) p status msg
                    else d.(reshape_responses) p status msg))))
              else
                let '(st, out, h) := convert_body p status bytes in
                (keep_history h (bill status (body_usage p bytes) s), Some (Ok (ABody st ct out)))
          end
    end.

(** Walking the candidates; a loop that no candidate ends returns [None]. *)
Fixpoint walk (f : Provider -> Loop -> Loop * option (result Answer AppError)) (ps : list Provider)
    (s : Loop) : Loop * option (result Answer AppError) :=
  match ps with
  | [] => (s, None)
  | p :: ps' =>
      let '(s, r) := f p s in
      match r with Some r => (s, Some r) | None => walk f ps' s end
  end.

Definition StatusOr502 (status : Z) : Z := if (100 <=? status) && (status <? 1000) then status else 502.

Definition plain_loop (first : Provider) (ps : list Provider) (s : Loop) : Loop * result Answer AppError :=
  let '(s, r) := walk attempt_plain ps s in
  match r with
  | Some r => (s, r)
  | None =>
      match s.(last_response) with
      | Some (status, body, ct) =>
          let s' := bill status (parse_usage body) s in
          let p := default first s.(last_failed) in
          let out := if e.(anthropic) then d.(reshape_anthropic) p status body
                     else if e.(responses) then d.(reshape_responses) p status body else body in
          (s', Ok (ABody (StatusOr502 status)
                     (if e.(anthropic) || e.(responses) then JSON_TYPE else ct) out))
      | None => (s, Err (UpstreamExhausted "all upstream attempts failed"))
      end
  end.

(** [upstream_error_envelope] *)
Definition upstream_error_envelope (msg : string) : string :=
  d.(to_vec) (json_object [("error", json_object [("message", VString msg); ("type", VString "upstream_error");
                                              ("code", VString "upstream_error")])]).

(** A stream that failed inside the priming window. For a transport error the source also sets a
    time-out flag, which is only read when no response has been noted. *)
Definition prime_failed (t : Z) (p : Provider) (msg : string) (s : Loop) : Loop :=
  fail t p (note_response (502, upstream_error_envelope msg, JSON_TYPE) (note_failed p s)).

(** After a commit, or without priming: the answer in the client's dialect. A streamed answer
    accounts for itself when it ends. *)
Definition stream_answer (p : Provider) (status : Z) (ct : string) (items : list Prime.Item)
    (body : string) (s : Loop) : Loop * Answer :=
  let sse := str_contains EVENT_STREAM ct in
  if ac p then
    if is_success status && sse then (s, AStream status EVENT_STREAM items true)
    else (bill status None s,
          ABody (if is_success status then 502 else status) JSON_TYPE (d.(reshape_anthropic) p status body))
  else if rc p then
    if is_success status && sse then (s, AStream status ct items true)
    else if is_success status then
      let s := bill status (parse_usage body) s in
      match d.(synthesize_sse) body with
      | Some out => (s, ABody status EVENT_STREAM out)
      | None => (s, ABody 502 JSON_TYPE (d.(reshape_responses) p status body))
      end
    else (bill status None s, ABody status JSON_TYPE (d.(reshape_responses) p status body))
  else (s, AStream status ct items (is_success status)).

Definition concat_chunks (l : list string) : string := foldr String.append "" l.

(** One candidate of the streaming loop. *)
Definition attempt_stream (p : Provider) (s : Loop) : Loop * option (result Answer AppError) :=
  let a := attempt_on p in
  let s := set_meta p.(id) s in
  let '(s, allowed) :=
    if check_breaker then
      let '(b, ok) := Breaker.allow a.(t_allow) p.(id) s.(brk) in (set_brk b s, ok)
    else (s, true) in
  if negb allowed then (s, None)
  else
    match a.(reply) with
    | BuildFailed err => (s, Some (Err err))
    | DecryptFailed => (fail a.(t_done) p s, None)
    | PreRead status ct body =>
        (bill status None (succeed a.(t_done) p s), Some (Ok (pre_read_answer p status ct body)))
    | SendFailed header_timeout =>
        (note_failed p (fail a.(t_done) p (note_send_error header_timeout s)), None)
    | Replied status ct items body =>
        if status_retryable status then
          (note_failed p (fail a.(t_done) p (note_response (status, default "" body, ct) s)), None)
        else
          let is_sse := str_contains EVENT_STREAM ct in
          if is_sse || (negb (ac p) && negb (rc p)) then
            match Prime.prime d.(from_utf8_lossy) d.(parse_json) items with
            | Prime.Failed msg => (prime_failed a.(t_done) p msg s, None)
            | Prime.Ended buffered =>
                if negb (bool_decide (buffered = [])) && is_success status && negb is_sse then
                  let body := concat_chunks buffered in
                  (bill status (body_usage p body) (succeed a.(t_done) p s),
                   Some (Ok (ABody status ct body)))
                else
                  (prime_failed a.(t_done) p
                     (if bool_decide (buffered = []) then "upstream stream ended before first byte"
                      else "upstream stream ended before productive output") s, None)
            | Prime.Committed buffered rest =>
                let '(s, ans) :=
                  stream_answer p status ct ((Prime.Chunk <$> buffered) ++ rest) (default "" body)
                    (succeed a.(t_done) p s) in
                (s, Some (Ok ans))
            end
          else
            let '(s, ans) := stream_answer p status ct [] (default "" body) (succeed a.(t_done) p s) in
            (s, Some (Ok ans))
    end.

Definition stream_loop (first : Provider) (ps : list Provider) (s : Loop) : Loop * result Answer AppError :=
  let '(s, r) := walk attempt_stream ps s in
  match r with
  | Some r => (s, r)
  | None =>
      match s.(last_response) with
      | Some (status, body, ct) =>
          let s' := bill status None s in
          let p := default first s.(last_failed) in
          (s', Ok (if e.(anthropic) then ABody (StatusOr502 status) JSON_TYPE (d.(reshape_anthropic) p status body)
                   else if e.(responses) then ABody (StatusOr502 status) JSON_TYPE (d.(reshape_responses) p status body)
                   else ABody (StatusOr502 status) ct body))
      | None =>
          (s, Err (if s.(saw_timeout) then UpstreamTimeout "all upstream stream attempts timed out"
                   else if s.(saw_connect_error) then
                     BadGateway "all upstream stream attempts failed at connection"
                   else UpstreamExhausted "all upstream stream attempts failed"))
      end
  end.

End loops.

Definition loop_init (b : states) (first : Provider) : Loop :=
  {| brk := b; bills := []; meta_provider := first.(id); last_response := None; last_failed := None;
     saw_timeout := false; saw_connect_error := false; history := [] |}.

(** [candidates.iter().take(max_attempts)] *)
Definition tried (cfg : Config) (candidates : list Provider) : list Provider :=
  take (Nat.min (length candidates) (Z.to_nat (Z.max cfg.(max_attempts) 1))) candidates.

(** ** Properties of the guards *)

Module GuardProofs.
Import Guards.

Definition count (k : Z * string) (live : list (option (Z * string))) : Z :=
  Z.of_nat (length (List.filter (fun x => bool_decide (x = Some k)) live)).

Record Inv (c : Counters) (live : list (option (Z * string))) : Prop := {
  inv_total : c.(active_requests) = Z.of_nat (length live);
  inv_user : forall k, c.(active_by_user) !! k = if bool_decide (count k live = 0) then None else Some (count k live);
}.

Lemma count_nonneg k live : 0 <= count k live.
Proof. unfold count. lia. Qed.

Lemma count_cons k x live : count k (x :: live) = (if bool_decide (x = Some k) then 1 else 0) + count k live.
Proof. unfold count. cbn. case_bool_decide; cbn; lia. Qed.

Lemma count_app k l1 l2 : count k (l1 ++ l2) = count k l1 + count k l2.
Proof. unfold count. rewrite List.filter_app, length_app. lia. Qed.

Lemma inv_enter k c live : Inv c live -> Inv (enter k c) (k :: live).
Proof.
  intros [Ht Hu]. split; [cbn [enter active_requests length]; rewrite Ht; lia|]. intros k'. rewrite count_cons. pose proof (count_nonneg k' live). cbn.
  destruct k as [k|].
  - destruct (decide (k = k')) as [->|Hne].
    + rewrite lookup_insert_eq, Hu. rewrite (bool_decide_true (Some k' = Some k')) by done.
      rewrite (bool_decide_false (1 + count k' live = 0)) by lia. f_equal. case_bool_decide; cbn; lia.
    + rewrite lookup_insert_ne, Hu by done. rewrite (bool_decide_false (Some k = Some k')) by congruence. done.
  - rewrite Hu, (bool_decide_false (None = Some k')) by done. done.
Qed.

Lemma inv_leave k c l1 l2 : Inv c (l1 ++ k :: l2) -> Inv (leave k c) (l1 ++ l2).
Proof.
  intros [Ht Hu]. split; [cbn; rewrite length_app in *; cbn in Ht; rewrite Ht; lia|]. intros k'.
  specialize (Hu k') as Hk'. rewrite count_app, count_cons in Hk'. rewrite count_app.
  pose proof (count_nonneg k' l1). pose proof (count_nonneg k' l2). cbn. destruct k as [k|].
  - specialize (Hu k) as Hk. rewrite count_app, count_cons, (bool_decide_true (Some k = Some k)) in Hk by done.
    pose proof (count_nonneg k l1). pose proof (count_nonneg k l2).
    rewrite bool_decide_false in Hk by lia. rewrite Hk.
    destruct (decide (k = k')) as [->|Hne].
    + rewrite map_lookup_filter, lookup_insert_eq. cbn.
      destruct (bool_decide_reflect (count k' l1 + count k' l2 = 0)); case_guard; cbn in *;
        first [done|lia|f_equal; lia].
    + rewrite (bool_decide_false (Some k = Some k')), Z.add_0_l in Hk' by congruence.
      rewrite map_lookup_filter, lookup_insert_ne, Hk' by done. case_bool_decide; cbn; [done|].
      case_guard; cbn; [done|lia].
  - by rewrite (bool_decide_false (None = Some k')), Z.add_0_l in Hk'.
Qed.

(** The request counters never drift. Whatever requests start and end, in any order, the number of
    active requests is the number of live responses, and a (user, model) pair is listed with exactly
    the number of its live responses and not at all when it has none. *)
Theorem request_counters_exact c live :
  rtc step (init, []) (c, live) ->
  c.(active_requests) = Z.of_nat (length live) /\
  forall k, c.(active_by_user) !! k = if bool_decide (count k live = 0) then None else Some (count k live).
Proof.
  intros H. assert (Inv (c, live).1 (c, live).2) as []; [|done].
  revert H. generalize (c, live). apply (rtc_ind_r (fun x => Inv x.1 x.2)).
  - split; [done|]. intros k. done.
  - intros x y _ Hs IH. destruct Hs; [by apply inv_enter|by apply inv_leave].
Qed.

Lemma request_counters_exact_witness :
  (leave (Some (1, "m")) (enter None (enter (Some (1, "m")) init))).(active_requests) = 1.
Proof.
  destruct (request_counters_exact (leave (Some (1, "m")) (enter None (enter (Some (1, "m")) init))) [None])
    as [H _]; [|exact H].
  eapply rtc_l; [apply (step_enter (Some (1, "m")))|]. eapply rtc_l; [apply (step_enter None)|].
  eapply rtc_l; [apply (step_leave (Some (1, "m")) _ [None] [])|]. apply rtc_refl.
Defined.

End GuardProofs.

(** ** Properties of the selection *)

Lemma filter_nil_iff {A} (f : A -> bool) l : List.filter f l = [] <-> forall x, x ∈ l -> f x = false.
Proof.
  split.
  - intros H x Hx. destruct (f x) eqn:E; [|done].
    assert (x ∈ List.filter f l) as Hin by (by apply list_elem_of_In, List.filter_In; rewrite <-list_elem_of_In).
    rewrite H in Hin. by apply elem_of_nil in Hin.
  - intros H. destruct (List.filter f l) as [|x l'] eqn:E; [done|].
    assert (x ∈ List.filter f l) as Hin by (rewrite E; left).
    apply list_elem_of_In, List.filter_In in Hin as [Hin Hf]. rewrite H in Hf; [done|by apply list_elem_of_In].
Qed.

Lemma elem_of_filter_list {A} (f : A -> bool) l x : x ∈ List.filter f l <-> x ∈ l /\ f x = true.
Proof. by rewrite list_elem_of_In, List.filter_In, <-list_elem_of_In. Qed.

(** The candidates of a request are exactly the providers that may serve it, and every refusal
    says why. A request is passed on iff some provider of its route is enabled, has the model
    enabled, is granted to the user and speaks a supported dialect, and then to all of those, in
    the route's order; otherwise the answer is 500, 503, 403 or 400 according to the first of these
    conditions that fails for all of them. *)
Theorem choose_candidates_spec cfg e user mdl route :
  let all := resolve_candidates cfg.(cfg_providers) route in
  match choose_candidates cfg e user mdl route with
  | Ok l =>
      l <> [] /\ l = List.filter (fun p => usable cfg route mdl p && authorised cfg user mdl p &&
                                           supported_pairing e p) all
  | Err err =>
      (error_status err = 500 /\ all = []) \/
      (error_status err = 503 /\ all <> [] /\ forall p, p ∈ all -> usable cfg route mdl p = false) \/
      (error_status err = 403 /\ (exists p, p ∈ all /\ usable cfg route mdl p = true) /\
         forall p, p ∈ all -> usable cfg route mdl p = true -> authorised cfg user mdl p = false) \/
      (error_status err = 400 /\
         (exists p, p ∈ all /\ usable cfg route mdl p = true /\ authorised cfg user mdl p = true) /\
         forall p, p ∈ all -> usable cfg route mdl p = true -> authorised cfg user mdl p = true ->
           supported_pairing e p = false)
  end.
Proof.
  cbv zeta. unfold choose_candidates. set (all := resolve_candidates _ _).
  set (l1 := List.filter (usable cfg route mdl) all).
  set (l2 := List.filter (authorised cfg user mdl) l1).
  assert (forall p, p ∈ l1 <-> p ∈ all /\ usable cfg route mdl p = true) as H1
    by (intros; apply elem_of_filter_list).
  assert (forall p, p ∈ l2 <-> p ∈ l1 /\ authorised cfg user mdl p = true) as H2
    by (intros; apply elem_of_filter_list).
  assert (forall (l : list Provider), l <> [] -> exists p, p ∈ l) as Hne.
  { intros [|p l] H; [done|]. exists p. left. }
  case_bool_decide as E0; [by left|]. case_bool_decide as E1.
  { right; left. split; [done|]. split; [done|]. by apply filter_nil_iff. }
  case_bool_decide as E2.
  { right; right; left. split; [done|]. split; [destruct (Hne l1 E1) as [p Hp]; exists p; by apply H1|].
    intros p Hp Hu. apply (proj1 (filter_nil_iff _ _) E2). by apply H1. }
  case_bool_decide as E3.
  { right; right; right. split; [done|]. split.
    - destruct (Hne l2 E2) as [p Hp]. exists p. apply H2 in Hp as [Hp ?]. apply H1 in Hp as []. done.
    - intros p Hp Hu Ha. apply (proj1 (filter_nil_iff _ _) E3). apply H2. split; [by apply H1|done]. }
  split; [done|]. unfold l2, l1. clear. induction all as [|p all IH]; cbn; [done|].
  destruct (usable cfg route mdl p); cbn; [|done].
  destruct (authorised cfg user mdl p); cbn; [|done]. destruct (supported_pairing e p); cbn; by rewrite IH.
Qed.

(** ** Properties of the outbound body *)

Lemma set_model_id m o :
  Map.sorted o -> Map.get "model" o = Some (VString m) -> set_model m (VObject o) = Some (VObject o).
Proof. intros Hs Hg. unfold set_model. cbn. by rewrite insert_get_id. Qed.

(** Passing the client's bytes through unchanged is sound whenever the reasoning configuration
    has nothing to do: if the test for the fast path holds, the body that rebuilding would have
    produced is the client's own. *)
Theorem fast_path_sound cfg e sel p rr he o :
  sel.(sel_json) = VObject o -> wf (VObject o) -> Map.get "model" o = Some (VString sel.(sel_model)) ->
  needs_rebuild cfg sel p rr he = false ->
  (native_anthropic e p = true \/
   apply_reasoning_config cfg.(zen_table) (VObject o) sel.(sel_route) (gating_model sel) = VObject o) ->
  rebuild cfg e sel p sel.(sel_json) = Some sel.(sel_json).
Proof.
  intros Ej Hw Hm Hn Hr. unfold needs_rebuild in Hn. rewrite !orb_false_iff in Hn.
  destruct Hn as [[[[[[Hx _] _] Hh] Ho] Hu] _]. rewrite Ej in *.
  apply bool_decide_eq_false in Hx. apply eq_None_not_Some in Hx.
  apply negb_false_iff, bool_decide_eq_true in Ho.
  unfold rebuild. rewrite Hx, Hh, Ho. cbn [apply_extra apply_system_head fst].
  assert ((if native_anthropic e p then VObject o
    else apply_reasoning_config (zen_table cfg) (VObject o) (sel_route sel) (gating_model sel)) = VObject o) as ->.
  { destruct Hr as [->| ->]; [done|by destruct (native_anthropic e p)]. }
  assert (strip_underscore_fields (VObject o) = VObject o) as ->.
  { apply strip_id_iff. exact Hu. }
  apply set_model_id; [|done]. by apply wf_object in Hw as [? _].
Qed.

Definition plain_config : Config :=
  {| cfg_routes := [sample_route]; cfg_providers := []; disabled_models := ∅; user_access := ∅;
     admin_ids := ∅; message_templates := {| tpl_concurrency := ""; tpl_model_denied := "" |};
     extra_body_enabled := true; max_attempts := 4; zen_table := []; breaker_config := default_config;
     responses_enabled := true; messages_enabled := true |}.

Definition sample_provider (pid : Z) : Provider :=
  {| id := pid; name := "p"; api_type := "openai"; base_url := ""; api_key_encrypted := "";
     timeout_ms := 1000; provider_extra_body := VNull; auth_scheme := ""; extra_headers := VNull;
     supports_images := true |}.

Definition chat_endpoint : Endpoint :=
  {| api := "/v1/chat/completions"; upstream := "/chat/completions"; responses := false; anthropic := false |}.

Definition chat_selection (o : list (string * Value)) : Selection :=
  {| sel_json := VObject o; sel_model := "m"; sel_plan := None; sel_downgraded := false;
     sel_route := sample_route; sel_candidates := [sample_provider 1]; sel_check_breaker := false |}.

Lemma fast_path_sound_witness :
  rebuild plain_config chat_endpoint (chat_selection [("model", VString "m")]) (sample_provider 1)
    (VObject [("model", VString "m")]) = Some (VObject [("model", VString "m")]).
Proof.
  apply (fast_path_sound plain_config chat_endpoint (chat_selection [("model", VString "m")])
           (sample_provider 1) false false [("model", VString "m")]); try reflexivity.
  - repeat (split || constructor).
  - right. reflexivity.
Defined.

(** The test for the fast path leaves the reasoning configuration out: a non-streaming chat
    request that switches reasoning off passes the test, so the marker the configuration would have
    removed reaches the upstream. *)
Theorem fast_path_skips_reasoning_config :
  let o := [("model", VString "m"); ("reasoning_effort", VString "none")] in
  let sel := chat_selection o in
  needs_rebuild plain_config sel (sample_provider 1) false false = false /\
  build_outbound_raw (fun _ _ _ => Err "") (fun _ _ => Err "") (fun _ => Err "") plain_config chat_endpoint
    sel (sample_provider 1) false false false = Some (Ok (RawBytes, "/chat/completions")) /\
  rebuild plain_config chat_endpoint sel (sample_provider 1) (VObject o) =
    Some (VObject [("model", VString "m")]).
Proof. repeat split; reflexivity. Qed.

(** ** Properties of the failover loops *)

Section failover.
Context (d : Deps) (bcfg : BreakerConfig) (e : Endpoint) (attempt_on : Provider -> Attempt).

(** Whether an attempt that is made ends the loop. *)
Definition plain_ends (p : Provider) : bool :=
  match (attempt_on p).(reply) with
  | DecryptFailed | SendFailed _ => false
  | BuildFailed _ | PreRead _ _ _ => true
  | Replied status _ _ body => negb (status_retryable status) && bool_decide (is_Some body)
  end.

Definition stream_ends (p : Provider) : bool :=
  match (attempt_on p).(reply) with
  | DecryptFailed | SendFailed _ => false
  | BuildFailed _ | PreRead _ _ _ => true
  | Replied status ct items _ =>
      negb (status_retryable status) &&
      let is_sse := str_contains EVENT_STREAM ct in
      if is_sse || (negb (ac e p) && negb (rc e p)) then
        match Prime.prime d.(from_utf8_lossy) d.(parse_json) items with
        | Prime.Failed _ => false
        | Prime.Ended buffered =>
            negb (bool_decide (buffered = [])) && is_success status && negb is_sse
        | Prime.Committed _ _ => true
        end
      else true
  end.

(** The failures recorded for the providers of a list. *)
Definition failed_over (ps : list Provider) (b : states) : states :=
  foldl (fun b p => record_failure bcfg (attempt_on p).(t_done) p.(id) b) b ps.

Definition build_failed (p : Provider) : bool :=
  match (attempt_on p).(reply) with BuildFailed _ => true | _ => false end.

(** What a candidate that does not end the loop leaves for the final verdict: the response it is noted
    with, whether it is the provider an error is attributed to, and how the send failed. *)
Definition noted (streamed : bool) (p : Provider) : option (Z * string * string) :=
  match (attempt_on p).(reply) with
  | Replied status ct items body =>
      if status_retryable status then Some (status, default "" body, ct)
      else if streamed then
        match Prime.prime d.(from_utf8_lossy) d.(parse_json) items with
        | Prime.Failed msg => Some (502, upstream_error_envelope d msg, JSON_TYPE)
        | Prime.Ended [] => Some (502, upstream_error_envelope d "upstream stream ended before first byte", JSON_TYPE)
        | Prime.Ended _ => Some (502, upstream_error_envelope d "upstream stream ended before productive output", JSON_TYPE)
        | Prime.Committed _ _ => None
        end
      else None
  | _ => None
  end.
Definition blamed (streamed : bool) (p : Provider) : bool :=
  match (attempt_on p).(reply) with DecryptFailed => negb streamed | _ => true end.
Definition no_header_in_time (streamed : bool) (p : Provider) : bool :=
  match (attempt_on p).(reply) with SendFailed true => streamed | _ => false end.
Definition not_connected (streamed : bool) (p : Provider) : bool :=
  match (attempt_on p).(reply) with SendFailed false => streamed | _ => false end.

(** What an attempt without breaker check does to the state, for either loop. *)
Record attempt_law (streamed : bool) (ends : Provider -> bool)
    (f : Provider -> Loop -> Loop * option (result Answer AppError)) : Prop := {
  law_continue : forall p s, ends p = false ->
    (f p s).2 = None /\ (f p s).1.(bills) = s.(bills) /\ (f p s).1.(meta_provider) = p.(id) /\
    (f p s).1.(brk) = record_failure bcfg (attempt_on p).(t_done) p.(id) s.(brk);
  law_notes : forall p s, ends p = false ->
    (f p s).1.(last_response) = or_else (noted streamed p) s.(last_response) /\
    (f p s).1.(last_failed) = (if blamed streamed p then Some p else s.(last_failed)) /\
    (f p s).1.(saw_timeout) = s.(saw_timeout) || no_header_in_time streamed p /\
    (f p s).1.(saw_connect_error) = s.(saw_connect_error) || not_connected streamed p;
  law_end : forall p s, ends p = true ->
    is_Some (f p s).2 /\ (f p s).1.(meta_provider) = p.(id) /\
    (f p s).1.(brk) = if build_failed p then s.(brk)
                      else record_success bcfg (attempt_on p).(t_done) p.(id) s.(brk);
}.

Lemma attempt_plain_law : attempt_law false plain_ends (attempt_plain d bcfg e false attempt_on).
Proof.
  split; intros p s; unfold plain_ends, build_failed, noted, blamed, no_header_in_time, not_connected, attempt_plain; cbn [negb].
  2: { destruct (reply (attempt_on p)) as [|err|[]|st ct body|st ct items [body|]]; try done;
         try (destruct (status_retryable st); try done); intros _; cbn; rewrite ?orb_false_r; by split_and!. }
  all: destruct (reply (attempt_on p)) as [|err|ht|st ct body|st ct items [body|]]; try done;
    destruct (status_retryable st); try done; intros _;
    destruct (str_contains _ _ || _); try destruct (convert_body _ _ _ _ _) as [[? ?] ?]; cbn; eauto.
Qed.

Lemma stream_answer_fields p st ct items body s :
  let s' := (stream_answer d e p st ct items body s).1 in
  s'.(meta_provider) = s.(meta_provider) /\ s'.(brk) = s.(brk).
Proof.
  unfold stream_answer. destruct (ac e p), (is_success st), (str_contains EVENT_STREAM ct), (rc e p); try done;
    cbn; by destruct (synthesize_sse d body).
Qed.

Lemma attempt_stream_notes p s : stream_ends p = false ->
  let s' := (attempt_stream d bcfg e false attempt_on p s).1 in
  s'.(last_response) = or_else (noted true p) s.(last_response) /\
  s'.(last_failed) = (if blamed true p then Some p else s.(last_failed)) /\
  s'.(saw_timeout) = s.(saw_timeout) || no_header_in_time true p /\
  s'.(saw_connect_error) = s.(saw_connect_error) || not_connected true p.
Proof.
  unfold stream_ends, noted, blamed, no_header_in_time, not_connected, attempt_stream; cbn [negb].
  destruct (reply (attempt_on p)) as [|err|[]|st ct body|st ct items body]; try done; try (intros _; cbn; rewrite ?orb_false_r, ?orb_true_r; by split_and!).
  destruct (status_retryable st); [intros _; cbn; rewrite ?orb_false_r; by split_and!|]. cbn [negb andb].
  destruct (str_contains EVENT_STREAM ct || _); [|done]. destruct (Prime.prime _ _ _) as [?|?|[|x l]]; [done| | |].
  all: rewrite ?orb_false_r; cbn [negb andb]; try (by intros; cbn; split_and!).
  destruct (_ && _); [done|]. intros _. cbn. by split_and!.
Qed.

Lemma attempt_stream_law : attempt_law true stream_ends (attempt_stream d bcfg e false attempt_on).
Proof.
  split; [|intros p s; apply attempt_stream_notes|]; intros p s; unfold stream_ends, build_failed, attempt_stream; cbn [negb];
    destruct (reply (attempt_on p)) as [|err|ht|st ct body|st ct items body]; try done;
    destruct (status_retryable st); try done; cbn [negb andb];
    (destruct (str_contains EVENT_STREAM ct || _); [destruct (Prime.prime _ _ _) as [?|?|?]|]); try done;
    try (destruct (negb (bool_decide _) && _ && _); try done; intros _; cbn; eauto);
    intros _;
    match goal with |- context [stream_answer ?d ?e ?p ?st ?ct ?i ?b ?s] =>
      destruct (stream_answer_fields p st ct i b s) as [H1 H2]; destruct (stream_answer d e p st ct i b s) end;
    cbn in *; rewrite H1, H2; eauto.
Qed.

Lemma last_omap_cons {A B} (f : A -> option B) x l : last (omap f (x :: l)) = or_else (last (omap f l)) (f x).
Proof. change (omap f (x :: l)) with (match f x with Some y => y :: omap f l | None => omap f l end). destruct (f x); [rewrite last_cons|]; by destruct (last _). Qed.

Lemma walk_law st ends f ps s :
  attempt_law st ends f ->
  match walk f ps s with
  | (s', None) =>
      (forall p, p ∈ ps -> ends p = false) /\ s'.(bills) = s.(bills) /\
      s'.(brk) = failed_over ps s.(brk) /\
      s'.(last_response) = or_else (last (omap (noted st) ps)) s.(last_response) /\
      s'.(last_failed) = or_else (last (List.filter (blamed st) ps)) s.(last_failed) /\
      s'.(saw_timeout) = s.(saw_timeout) || existsb (no_header_in_time st) ps /\
      s'.(saw_connect_error) = s.(saw_connect_error) || existsb (not_connected st) ps
  | (s', Some r) =>
      exists l1 p l2, ps = l1 ++ p :: l2 /\ (forall q, q ∈ l1 -> ends q = false) /\ ends p = true /\
        (exists s0, walk f l1 s = (s0, None) /\ f p s0 = (s', Some r)) /\ s'.(meta_provider) = p.(id) /\
        s'.(brk) = let b := failed_over l1 s.(brk) in
                   if build_failed p then b
                   else record_success bcfg (attempt_on p).(t_done) p.(id) b
  end.
Proof.
  intros L. revert s. induction ps as [|p ps IH]; intros s; cbn [walk].
  { cbn. rewrite !orb_false_r. split_and!; try done. intros p H. by apply elem_of_nil in H. }
  destruct (ends p) eqn:E.
  - destruct (law_end _ _ _ L p s E) as ([r Hr] & Hm & Hb).
    destruct (f p s) as [s1 o] eqn:Ef. cbn in *. subst o. exists [], p, ps. split_and!; try done; [|by exists s].
    intros q H. by apply elem_of_nil in H.
  - destruct (law_continue _ _ _ L p s E) as (Hr & Hbl & _ & Hb). destruct (law_notes _ _ _ L p s E) as (N1 & N2 & N3 & N4).
    destruct (f p s) as [s1 o] eqn:Ef. cbn [fst snd] in *. subst o. specialize (IH s1).
    destruct (walk f ps s1) as [s' [r|]].
    + destruct IH as (l1 & q & l2 & -> & Hl & Hq & (s0 & Hw & Hs) & Hm & Hbr). exists (p :: l1), q, l2.
      split_and!; try done; [|exists s0; cbn; by rewrite Ef|by rewrite Hbr, Hb]. intros q' [->|H]%elem_of_cons; [done|by apply Hl].
    + destruct IH as (Hl & Hbl' & Hbr & M1 & M2 & M3 & M4). split_and!; [|congruence|by rewrite Hbr, Hb| | | |].
      * intros q [->|H]%elem_of_cons; [done|by apply Hl].
      * rewrite M1, N1, (last_omap_cons (noted st)). by destruct (last _), (noted st p).
      * rewrite M2, N2. cbn [List.filter]. destruct (blamed st p); [|done]. rewrite last_cons.
        destruct (last (List.filter (blamed st) ps)); reflexivity.
      * rewrite M3, N3. cbn. by rewrite orb_assoc.
      * rewrite M4, N4. cbn. by rewrite orb_assoc.
Qed.

End failover.

(** Either loop, from its initial state. *)
Definition run_loop (d : Deps) (bcfg : BreakerConfig) (e : Endpoint) (check_breaker streamed : bool)
    (attempt_on : Provider -> Attempt) (first : Provider) (ps : list Provider) (b : states)
    : Loop * result Answer AppError :=
  (if streamed then stream_loop d bcfg e check_breaker attempt_on
   else plain_loop d bcfg e check_breaker attempt_on) first ps (loop_init b first).

Definition ends (d : Deps) (e : Endpoint) (streamed : bool) (attempt_on : Provider -> Attempt)
    : Provider -> bool :=
  if streamed then stream_ends d e attempt_on else plain_ends attempt_on.

Definition run_attempt (d : Deps) (bcfg : BreakerConfig) (e : Endpoint) (check_breaker streamed : bool)
    (attempt_on : Provider -> Attempt) : Provider -> Loop -> Loop * option (result Answer AppError) :=
  if streamed then attempt_stream d bcfg e check_breaker attempt_on
  else attempt_plain d bcfg e check_breaker attempt_on.

(** What a client is told when no candidate has answered: a response of an upstream, reshaped as an error of the
    provider in the dialect of the endpoint, or, when there is none, the failure that weighs most. *)
Definition in_dialect (d : Deps) (e : Endpoint) (p : Provider) (status : Z) (body ct : string) : Answer :=
  if e.(anthropic) then ABody (StatusOr502 status) JSON_TYPE (d.(reshape_anthropic) p status body)
  else if e.(responses) then ABody (StatusOr502 status) JSON_TYPE (d.(reshape_responses) p status body)
  else ABody (StatusOr502 status) ct body.
Definition exhausted (streamed timeout connect_error : bool) : AppError :=
  if streamed then
    if timeout then UpstreamTimeout "all upstream stream attempts timed out"
    else if connect_error then BadGateway "all upstream stream attempts failed at connection"
    else UpstreamExhausted "all upstream stream attempts failed"
  else UpstreamExhausted "all upstream attempts failed".

(** A loop is its walk, and a verdict on the walk that no candidate ended. *)
Lemma run_loop_walk d bcfg e cb st attempt_on first ps b :
  let '(s, r) := run_loop d bcfg e cb st attempt_on first ps b in
  let '(s1, r1) := walk (run_attempt d bcfg e cb st attempt_on) ps (loop_init b first) in
  match r1 with
  | Some r1 => s = s1 /\ r = r1
  | None =>
      s.(brk) = s1.(brk) /\
      match s1.(last_response) with
      | Some (status, body, ct) =>
          (exists u, s = bill status u s1) /\
          r = Ok (in_dialect d e (default first s1.(last_failed)) status body ct)
      | None => s = s1 /\ r = Err (exhausted st s1.(saw_timeout) s1.(saw_connect_error))
      end
  end.
Proof.
  unfold run_loop, run_attempt, in_dialect, exhausted. destruct st; unfold stream_loop, plain_loop;
    destruct (walk _ _ _) as [s1 [r1|]]; [done| |done|];
    destruct (last_response s1) as [[[status body] ct]|]; cbn; split_and!; eauto.
  by destruct (anthropic e), (responses e).
Qed.

(** C2: failover follows the order of the candidates. When the breaker is not consulted, a request
    is answered by the first candidate whose attempt ends the loop, with the answer of that attempt;
    every candidate before it has a failure recorded at its breaker, the one that answered a success
    (unless its request body could not be built), those after it nothing. When no attempt ends the
    loop every candidate has a failure recorded, and the answer is the last response that a
    candidate left: the retryable response of the upstream as it came, or 502 with the text of the
    failure when a stream failed before it was committed; in the dialect of the endpoint, as an error
    of the last candidate (in the streaming loop the last one whose key could be decrypted). When
    none left a response the answer is an error: for a stream 504 if some upstream sent no header
    in time, else 502 if some could not be reached, else 503; for a plain request 503. *)
Theorem failover_order d bcfg e st attempt_on first ps b :
  let '(s, r) := run_loop d bcfg e false st attempt_on first ps b in
  let ends := ends d e st attempt_on in
  let attempt := run_attempt d bcfg e false st attempt_on in
  (exists l1 p l2 s0, ps = l1 ++ p :: l2 /\ (forall q, q ∈ l1 -> ends q = false) /\ ends p = true /\
     walk attempt l1 (loop_init b first) = (s0, None) /\ attempt p s0 = (s, Some r) /\ s.(meta_provider) = p.(id) /\
     s.(brk) = let b := failed_over bcfg attempt_on l1 b in
               if build_failed attempt_on p then b
               else record_success bcfg (attempt_on p).(t_done) p.(id) b) \/
  ((forall p, p ∈ ps -> ends p = false) /\ s.(brk) = failed_over bcfg attempt_on ps b /\
   r = match last (omap (noted d attempt_on st) ps) with
       | Some (status, body, ct) =>
           Ok (in_dialect d e (default first (last (List.filter (blamed attempt_on st) ps))) status body ct)
       | None => Err (exhausted st (existsb (no_header_in_time attempt_on st) ps) (existsb (not_connected attempt_on st) ps))
       end).
Proof.
  pose proof (run_loop_walk d bcfg e false st attempt_on first ps b) as H.
  assert (attempt_law d bcfg attempt_on st (ends d e st attempt_on) (run_attempt d bcfg e false st attempt_on))
    as L by (destruct st; [apply attempt_stream_law|apply attempt_plain_law]).
  pose proof (walk_law d bcfg attempt_on _ _ _ ps (loop_init b first) L) as W.
  destruct (run_loop _ _ _ _ _ _ _ _ _) as [s r], (walk _ ps _) as [s1 [r1|]].
  - left. destruct H as [-> ->]. destruct W as (l1 & p & l2 & ? & ? & ? & (s0 & ? & ?) & ? & ?). by exists l1, p, l2, s0.
  - right. destruct W as (Hn & _ & Hb & W1 & W2 & W3 & W4), H as (Hb' & Hr). split; [done|]. split; [by rewrite Hb'|].
    rewrite W1, W2, W3, W4 in Hr. cbn [last_response last_failed saw_timeout saw_connect_error loop_init orb] in Hr.
    destruct (last (omap _ ps)) as [[[status body] ct]|]; cbn [or_else] in Hr; [|by destruct Hr as [_ ->]].
    destruct Hr as [_ ->]. by destruct (last (List.filter _ ps)).
Qed.

(** The status of the response to an attempt, if there was one. *)
Definition reply_status (r : Reply) : option Z :=
  match r with PreRead status _ _ | Replied status _ _ _ => Some status | _ => None end.
(** The accounting calls an outcome has made: one for a complete answer, none for a stream (which
    accounts for itself when it ends) or an error. *)
Definition billed (before after : list Bill) (pid : Z) (status : option Z) (r : result Answer AppError) : Prop :=
  match r with
  | Ok (ABody _ _ _) => exists bl, after = before ++ [bl] /\ bl.(bill_provider) = pid /\ status = Some bl.(bill_status)
  | Ok (AStream _ _ _ _) | Err _ => after = before
  end.

Lemma pre_read_is_body d e p st ct body :
  exists st' ct' body', pre_read_answer d e p st ct body = ABody st' ct' body'.
Proof. unfold pre_read_answer. destruct (ac e p), (rc e p); eauto. Qed.

Lemma stream_answer_billed d e p st ct items body s :
  let '(s', a) := stream_answer d e p st ct items body s in
  billed s.(bills) s'.(bills) s.(meta_provider) (Some st) (Ok a).
Proof.
  unfold stream_answer. destruct (ac e p), (is_success st), (str_contains EVENT_STREAM ct), (rc e p); cbn;
    try done; try (by eauto); destruct (synthesize_sse d body); cbn; eauto.
Qed.

Lemma attempt_billed d bcfg e cb st attempt_on p s :
  match run_attempt d bcfg e cb st attempt_on p s with
  | (s', None) => s'.(bills) = s.(bills) /\ s'.(meta_provider) = p.(id)
  | (s', Some r) => billed s.(bills) s'.(bills) p.(id) (reply_status (attempt_on p).(reply)) r
  end.
Proof.
  unfold run_attempt. destruct st; unfold attempt_stream, attempt_plain;
    (destruct cb; [destruct (Breaker.allow _ _ _) as [b []]|]; cbn [negb]; try done);
    destruct (reply (attempt_on p)) as [|err|ht|status ct body|status ct items body]; try done;
    try (destruct (pre_read_is_body d e p status ct body) as (? & ? & ? & ->); cbn; by eauto);
    destruct (status_retryable status); try done.
  1,2: (destruct (str_contains EVENT_STREAM ct || _); [destruct (Prime.prime _ _ _) as [?|?|?]|]); try done;
    try (destruct (negb (bool_decide _) && _ && _); [cbn; by eauto|done]);
    match goal with |- context [stream_answer ?d ?e ?p ?st ?ct ?i ?b ?s] =>
      pose proof (stream_answer_billed d e p st ct i b s) as H; destruct (stream_answer d e p st ct i b s) end;
    exact H.
  all: destruct body as [body|]; [|done]; destruct (str_contains _ _ || _); [cbn; by eauto|];
    destruct (convert_body _ _ _ _ _) as [[? ?] ?]; cbn; by eauto.
Qed.

Lemma walk_billed d bcfg e cb st attempt_on ps s :
  let attempt := run_attempt d bcfg e cb st attempt_on in
  match walk attempt ps s with
  | (s', None) => s'.(bills) = s.(bills) /\ s'.(meta_provider) = default s.(meta_provider) (id <$> last ps)
  | (s', Some r) =>
      exists l1 p l2 s1, ps = l1 ++ p :: l2 /\ walk attempt l1 s = (s1, None) /\ attempt p s1 = (s', Some r) /\
        billed s.(bills) s'.(bills) p.(id) (reply_status (attempt_on p).(reply)) r
  end.
Proof.
  cbv zeta. revert s. induction ps as [|p ps IH]; intros s; cbn [walk]; [done|].
  pose proof (attempt_billed d bcfg e cb st attempt_on p s) as H.
  destruct (run_attempt d bcfg e cb st attempt_on p s) as [s1 [r|]] eqn:E; [by exists [], p, ps, s|].
  destruct H as [H1 H2]. specialize (IH s1). rewrite H1, H2 in IH.
  destruct (walk _ ps s1) as [s' [r|]]; [|rewrite last_cons; by destruct (last ps)].
  destruct IH as (l1 & q & l2 & s2 & -> & Hw & Hq & Hb). exists (p :: l1), q, l2, s2. cbn [walk]. by rewrite E.
Qed.

(** C1: no request is billed twice and no complete answer goes unbilled. However many candidates are
    tried, with or without the breaker, a complete answer comes with exactly one accounting call. When
    it is the answer of a candidate, that candidate is charged, with the status of its response; it
    is the first one whose attempt has ended the loop. When no candidate has answered, the call
    has the status of the response that was noted last and names the last candidate of the list.
    A stream and an error come with no call (a stream makes its own when it ends). *)
Theorem answers_billed_once d bcfg e cb st attempt_on first ps b :
  let '(s, r) := run_loop d bcfg e cb st attempt_on first ps b in
  let attempt := run_attempt d bcfg e cb st attempt_on in
  match r with
  | Ok (ABody _ _ _) =>
      exists bl p, s.(bills) = [bl] /\ bl.(bill_provider) = p.(id) /\
        ((exists l1 l2 s1, ps = l1 ++ p :: l2 /\ walk attempt l1 (loop_init b first) = (s1, None) /\
            attempt p s1 = (s, Some r) /\ reply_status (attempt_on p).(reply) = Some bl.(bill_status)) \/
         (exists s1 body ct, walk attempt ps (loop_init b first) = (s1, None) /\ last ps = Some p /\
            s1.(last_response) = Some (bl.(bill_status), body, ct)))
  | Ok (AStream _ _ _ _) | Err _ => s.(bills) = []
  end.
Proof.
  pose proof (run_loop_walk d bcfg e cb st attempt_on first ps b) as H.
  pose proof (walk_billed d bcfg e cb st attempt_on ps (loop_init b first)) as W. cbv zeta in *.
  destruct (run_loop _ _ _ _ _ _ _ _ _) as [s r], (walk _ ps _) as [s1 [r1|]] eqn:Ew.
  - destruct H as [-> ->]. destruct W as (l1 & p & l2 & s0 & -> & Hw & Hp & Hb).
    destruct r1 as [[st' ct body|? ? ? ?]|err]; [|done|done]. destruct Hb as (bl & Hb & Hi & Hs). exists bl, p. split_and!; try done. left. by exists l1, l2, s0.
  - destruct H as (_ & Hr), W as [W1 W2]. destruct (last_response s1) as [[[status body] ct]|] eqn:El; [|by destruct Hr as [-> ->]].
    destruct Hr as [[u ->] ->]. destruct (last ps) as [p|] eqn:Ep; [|apply last_None in Ep as ->; cbn in Ew; by injection Ew as <-].
    unfold in_dialect. assert (K : exists bl p', (bill status u s1).(bills) = [bl] /\ bl.(bill_provider) = p'.(id) /\ Some p = Some p' /\ bl.(bill_status) = status).
    { eexists _, p. cbn. rewrite W1. split_and!; [done| |done|done]. cbn. exact W2. }
    destruct K as (bl & p' & K1 & K2 & [= <-] & <-).
    destruct (anthropic e), (responses e); exists bl, p; (split_and!; [done|done|]); right; by exists s1, body, ct.
Qed.

(** ** The breaker is asked twice *)

Lemma entry_allow_ne now pid qid b : qid <> pid -> entry pid (Breaker.allow now qid b).1 = entry pid b.
Proof.
  intros H. unfold Breaker.allow. destruct (allow_pb _ _). unfold entry. cbn. by rewrite lookup_insert_ne.
Qed.

Lemma entry_failure_ne cfg now pid qid b : qid <> pid -> entry pid (record_failure cfg now qid b) = entry pid b.
Proof. intros H. unfold record_failure, entry. by rewrite lookup_insert_ne. Qed.

Lemma entry_success_ne cfg now pid qid b : qid <> pid -> entry pid (record_success cfg now qid b) = entry pid b.
Proof. intros H. unfold record_success, entry. destruct (b !! qid); [by rewrite lookup_insert_ne|done]. Qed.

Lemma allow_keeps_probing now pid qid b u :
  phase (entry pid b) = Probing u -> phase (entry pid (Breaker.allow now qid b).1) = Probing u.
Proof.
  intros H. destruct (decide (qid = pid)) as [->|Hne]; [|by rewrite entry_allow_ne].
  destruct (allow_phase now pid b) as [-> _]. by rewrite H.
Qed.

(** An attempt with the check is the check, then the attempt without it. *)
Lemma run_attempt_checked d bcfg e st attempt_on p s :
  run_attempt d bcfg e true st attempt_on p s =
  let '(b, ok) := Breaker.allow (attempt_on p).(t_allow) p.(id) s.(brk) in
  if ok then run_attempt d bcfg e false st attempt_on p (set_brk b s)
  else (set_brk b (set_meta p.(id) s), None).
Proof.
  unfold run_attempt. destruct st; unfold attempt_stream, attempt_plain; cbn [set_meta brk];
    by destruct (Breaker.allow _ _ _) as [b []].
Qed.

Lemma run_attempt_brk d bcfg e st attempt_on p s :
  let b := (run_attempt d bcfg e false st attempt_on p s).1.(brk) in
  b = s.(brk) \/ b = record_failure bcfg (attempt_on p).(t_done) p.(id) s.(brk) \/
  b = record_success bcfg (attempt_on p).(t_done) p.(id) s.(brk).
Proof.
  assert (attempt_law d bcfg attempt_on st (ends d e st attempt_on) (run_attempt d bcfg e false st attempt_on))
    as L by (destruct st; [apply attempt_stream_law|apply attempt_plain_law]).
  cbv zeta. destruct (ends d e st attempt_on p) eqn:E.
  - destruct (law_end _ _ _ _ _ _ L p s E) as (_ & _ & ->). destruct (build_failed attempt_on p); auto.
  - destruct (law_continue _ _ _ _ _ _ L p s E) as (_ & _ & _ & ->). auto.
Qed.

(** A provider whose probe slot is taken is neither contacted nor freed by the loop. *)
Lemma attempt_on_probing d bcfg e st attempt_on q s pid u :
  phase (entry pid s.(brk)) = Probing u ->
  phase (entry pid (run_attempt d bcfg e true st attempt_on q s).1.(brk)) = Probing u.
Proof.
  intros H. rewrite run_attempt_checked.
  pose proof (allow_keeps_probing (attempt_on q).(t_allow) pid q.(id) _ _ H) as Ha.
  destruct (allow_phase (attempt_on q).(t_allow) q.(id) s.(brk)) as [_ Hok].
  destruct (Breaker.allow _ _ _) as [b ok]. cbn in Ha, Hok. destruct ok; [|exact Ha].
  destruct (decide (q.(id) = pid)) as [Heq|Hne].
  { rewrite Heq, H in Hok. done. }
  destruct (run_attempt_brk d bcfg e st attempt_on q (set_brk b s)) as [->|[->| ->]]; [exact Ha|..].
  - by rewrite entry_failure_ne.
  - by rewrite entry_success_ne.
Qed.

Lemma allow_probing now pid b u :
  phase (entry pid b) = Probing u -> Breaker.allow now pid b = (<[pid := entry pid b]> b, false).
Proof.
  unfold phase, Breaker.allow, allow_pb. intros H. destruct (open_until (entry pid b)) as [v|]; [|done].
  destruct (half_open_probe_in_flight (entry pid b)); [|done]. by destruct (v <=? now).
Qed.

Lemma run_attempt_same d bcfg e st attempt_on attempt_on' q s pid u :
  (forall q, q.(id) <> pid -> attempt_on' q = attempt_on q) ->
  phase (entry pid s.(brk)) = Probing u ->
  run_attempt d bcfg e true st attempt_on' q s = run_attempt d bcfg e true st attempt_on q s.
Proof.
  intros Ho H. destruct (decide (q.(id) = pid)) as [<-|Hne].
  - by rewrite !run_attempt_checked, !(allow_probing _ _ _ _ H).
  - unfold run_attempt. destruct st; unfold attempt_stream, attempt_plain; by rewrite (Ho q Hne).
Qed.

Lemma walk_on_probing d bcfg e st attempt_on attempt_on' ps s pid u :
  (forall q, q.(id) <> pid -> attempt_on' q = attempt_on q) ->
  phase (entry pid s.(brk)) = Probing u ->
  walk (run_attempt d bcfg e true st attempt_on') ps s = walk (run_attempt d bcfg e true st attempt_on) ps s /\
  phase (entry pid (walk (run_attempt d bcfg e true st attempt_on) ps s).1.(brk)) = Probing u.
Proof.
  intros Ho. revert s. induction ps as [|q ps IH]; intros s H; cbn [walk]; [done|].
  rewrite (run_attempt_same d bcfg e st attempt_on attempt_on' q s pid u Ho H).
  pose proof (attempt_on_probing d bcfg e st attempt_on q s pid u H) as Hq.
  destruct (run_attempt d bcfg e true st attempt_on q s) as [s1 [r|]]; [done|by apply IH].
Qed.

Lemma filter_allowed_probing {T} now (id_of : T -> Z) cs pid b u :
  phase (entry pid b) = Probing u -> phase (entry pid (filter_allowed now id_of cs b).1) = Probing u.
Proof.
  revert b. induction cs as [|c cs IH]; intros b H; cbn [filter_allowed]; [done|].
  apply (allow_keeps_probing now pid (id_of c)) in H. destruct (Breaker.allow _ _ _) as [b1 ok].
  specialize (IH b1 H). by destruct (filter_allowed now id_of cs b1).
Qed.

Lemma filter_takes_probe {T} now (id_of : T -> Z) cs c b u :
  c ∈ cs -> phase (entry (id_of c) b) = Open u -> u <= now ->
  phase (entry (id_of c) (filter_allowed now id_of cs b).1) = Probing u.
Proof.
  revert b. induction cs as [|c' cs IH]; intros b Hin H Hu; [by apply elem_of_nil in Hin|]. cbn [filter_allowed].
  destruct (decide (id_of c' = id_of c)) as [Heq|Hne].
  - destruct (allow_phase now (id_of c) b) as [Hp _]. rewrite H in Hp. cbn in Hp.
    rewrite (proj2 (Z.leb_le u now) Hu) in Hp. rewrite Heq. destruct (Breaker.allow _ _ _) as [b1 ok].
    pose proof (filter_allowed_probing now id_of cs _ b1 u Hp). by destruct (filter_allowed now id_of cs b1).
  - apply elem_of_cons in Hin as [->|Hin]; [done|].
    rewrite <-(entry_allow_ne now _ (id_of c') b Hne) in H. destruct (Breaker.allow _ _ _) as [b1 ok].
    specialize (IH b1 Hin H Hu). by destruct (filter_allowed now id_of cs b1).
Qed.

Lemma run_loop_brk d bcfg e cb st attempt_on first ps b :
  (run_loop d bcfg e cb st attempt_on first ps b).1.(brk) =
  (walk (run_attempt d bcfg e cb st attempt_on) ps (loop_init b first)).1.(brk).
Proof.
  pose proof (run_loop_walk d bcfg e cb st attempt_on first ps b) as H.
  destruct (run_loop _ _ _ _ _ _ _ _ _) as [s r], (walk _ _ _) as [s1 [r1|]].
  - by destruct H as [-> _].
  - by destruct H as [H _].
Qed.

Lemma run_loop_same d bcfg e cb st attempt_on attempt_on' first ps b :
  walk (run_attempt d bcfg e cb st attempt_on') ps (loop_init b first) =
    walk (run_attempt d bcfg e cb st attempt_on) ps (loop_init b first) ->
  run_loop d bcfg e cb st attempt_on' first ps b = run_loop d bcfg e cb st attempt_on first ps b.
Proof. unfold run_loop, run_attempt. destruct st; unfold stream_loop, plain_loop; by intros ->. Qed.

(** A provider that has become half open is never probed while another candidate is available.
    The filter that builds the candidate list takes the provider's probe slot; the loop then asks the
    breaker a second time, is refused, and skips it: the outcome does not depend on what the provider
    would have answered. The slot is not given back, so from then on the breaker refuses the provider
    at every later time, until some request reaches it without asking. *)
Theorem half_open_never_probed d bcfg e st attempt_on attempt_on' first ps cands p b u now :
  p ∈ cands -> phase (entry p.(id) b) = Open u -> u <= now ->
  (forall q, q.(id) <> p.(id) -> attempt_on' q = attempt_on q) ->
  let b1 := (filter_candidates now id cands b).1 in
  let out := run_loop d bcfg e true st attempt_on first ps b1 in
  run_loop d bcfg e true st attempt_on' first ps b1 = out /\
  forall ts, allow_seq ts p.(id) out.1.(brk) = replicate (length ts) false.
Proof.
  intros Hin Hp Hu Ho. cbv zeta. pose proof (filter_takes_probe now id cands p b u Hin Hp Hu) as H.
  unfold filter_candidates. destruct (filter_allowed now id cands b) as [b1 l]. cbn [fst] in *.
  destruct (walk_on_probing d bcfg e st attempt_on attempt_on' ps (loop_init b1 first) p.(id) u Ho H) as [H1 H2].
  split; [by apply run_loop_same|]. intros ts. apply (allow_seq_probing _ _ _ u). by rewrite run_loop_brk.
Qed.

(** Two providers of one route; the second has failed four times and its open window has passed. *)
Definition sample_deps : Deps :=
  {| from_utf8_lossy := fun s => s; parse_json := fun _ => None; to_vec := fun _ => "";
     usage_from_value := fun _ => None; anthropic_convert_response := Ok;
     responses_convert_response := fun v => Ok (v, None); synthesize_sse := fun _ => None;
     reshape_anthropic := fun _ _ b => b; reshape_responses := fun _ _ b => b |}.

Definition healthy (p : Provider) : Attempt :=
  {| t_allow := secs 40; t_done := secs 41; reply := Replied 200 "application/json" [] (Some "{}") |}.
Definition second_fails (p : Provider) : Attempt :=
  {| t_allow := secs 40; t_done := secs 41;
     reply := if p.(id) =? 2 then SendFailed false else Replied 200 "application/json" [] (Some "{}") |}.

Definition tripped : states := failures default_config [0; 0; 0; 0] 2 ∅.

Lemma half_open_never_probed_witness :
  let cands := [sample_provider 1; sample_provider 2] in
  (filter_candidates (secs 40) id cands tripped).2 = Some cands /\
  allow_seq [secs 1000000] 2
    (run_loop sample_deps default_config chat_endpoint true false healthy (sample_provider 1) cands
       (filter_candidates (secs 40) id cands tripped).1).1.(brk) = [false].
Proof.
  split; [vm_compute; reflexivity|].
  destruct (half_open_never_probed sample_deps default_config chat_endpoint false healthy second_fails
    (sample_provider 1) [sample_provider 1; sample_provider 2] [sample_provider 1; sample_provider 2]
    (sample_provider 2) tripped (secs 30) (secs 40)) as [_ H].
  - right. left.
  - vm_compute. reflexivity.
  - vm_compute. discriminate.
  - intros q Hq. unfold second_fails. by rewrite (proj2 (Z.eqb_neq (id q) 2) Hq).
  - exact (H [secs 1000000]).
Defined.

Definition first_overloaded (p : Provider) : Attempt :=
  {| t_allow := secs 40; t_done := secs 41; reply := Replied 500 "text/plain" [] (Some "overloaded") |}.

(** A failure is billed to the candidate the loop looked at last, even when the breaker made it
    skip that one. Here provider 1 answers 500, provider 2 is skipped, and the 500 is accounted to
    provider 2, in both loops. *)
Theorem failure_billed_to_skipped st :
  let cands := [sample_provider 1; sample_provider 2] in
  let b1 := (filter_candidates (secs 40) id cands tripped).1 in
  let s := (run_loop sample_deps default_config chat_endpoint true st first_overloaded (sample_provider 1)
              cands b1).1 in
  s.(bills) = [{| bill_provider := 2; bill_status := 500; bill_usage := None |}] /\
  (id <$> s.(last_failed)) = Some 1.
Proof. destruct st; vm_compute; done. Qed.
