(* ===== verification/Alerts.v ===== *)
(** * Delivery of threshold alerts

[dispatch], [send_plan_email] and [send_email] of [src/service/notify.rs], the settings of mail in [src/store/config.rs] and
[src/api/plans.rs], and the history of several processes that share the table of alerts: each marks the alerts it has
begun in a set of its own ([Metering.Notify]), and the table decides which of them delivers one. *)

From S2P Require Import Prelude Float Json Errors Routing Calendar Plans Metering Body Streams Upstream ConfigTables Database.

Local Open Scope Z_scope.
Import Notify.

(** ** Settings of mail *)

Record SmtpSettings : Type := { host : string; port : Z; smtp_username : string; password_enc : string; from : string }.
Definition configured (s : SmtpSettings) : bool :=
  negb (str_is_empty (trim s.(host))) && (0 <? s.(port)) && negb (str_is_empty (trim s.(from))).
(** The column is an [i32]; the rest of the row is copied. *)
Definition load_smtp_settings (row : SmtpSettings) : SmtpSettings :=
  {| host := row.(host); port := Z.max 0 (Z.min row.(port) 65535); smtp_username := row.(smtp_username);
     password_enc := row.(password_enc); from := row.(from) |}.
Definition save_smtp_settings (h : string) (p : Z) (user : string) (password : option string) (f : string) (row : SmtpSettings) : SmtpSettings :=
  {| host := h; port := p; smtp_username := user; password_enc := default row.(password_enc) password; from := f |}.

Record SmtpReq : Type := { sq_host : string; sq_port : Z; sq_username : string; sq_password : option string; sq_from : string }.
(** What the audit log is told. *)
Definition smtp_entry (r : SmtpReq) : Value :=
  json_object [("after", json_object [("host", VString (trim r.(sq_host))); ("port", of_int r.(sq_port)); ("username", VString (trim r.(sq_username)));
    ("from", VString (trim r.(sq_from))); ("password_changed", VBool (match r.(sq_password) with Some p => negb (str_is_empty p) | None => false end))])].
(** The row of settings and the audit log; each statement may fail. *)
Definition put_smtp (encrypt : string -> result string string) (save_fails log_fails : bool) (r : SmtpReq) (st : SmtpSettings * list Value)
    : result unit AppError * (SmtpSettings * list Value) :=
  let password := match r.(sq_password) with
                  | None => Ok None
                  | Some p => if str_is_empty p then Ok (Some "") else match encrypt p with Ok c => Ok (Some c) | Err e => Err (BadRequest e) end
                  end in
  match password with
  | Err e => (Err e, st)
  | Ok password =>
      if save_fails then (Err db_error, st)
      else
        let row := save_smtp_settings (trim r.(sq_host)) r.(sq_port) (trim r.(sq_username)) password (trim r.(sq_from)) st.1 in
        if log_fails then (Err db_error, (row, st.2)) else (Ok tt, (row, st.2 ++ [smtp_entry r]))
  end.

(** ** State *)

Record AlertRow : Type := {
  al_plan_name : string;
  al_username : string;
  al_used : Z;
  al_limit : Z;
  al_message : string;
  al_delivered : Value;
}.
Record Transport : Type := { tr_host : string; implicit_tls : bool; tr_port : Z; credentials : option (string * string) }.
Record Mail : Type := { via : Transport; recipient : string; mail_from : string; mail_to : string; subject : string; text : string }.
(** What one dispatch sent: the mails that were taken, and the call of the hook. *)
Record Delivery : Type := { d_alert : Alert; d_mails : list Mail; d_hook : option (string * Value) }.

Record Site : Type := {
  people : gmap Z UserRow;
  smtp_row : SmtpSettings;
  plan_alerts : gmap Alert AlertRow;
  sent : list Delivery;
}.

(** What fails during a dispatch: each statement, the mail server for a mail, and the hook. *)
Record Outcome : Type := {
  o_user : bool;
  o_insert : bool;
  o_smtp : bool;
  o_admins : bool;
  o_result : bool;
  o_mail : Mail -> result unit string;
  o_hook : string -> Value -> result Z string;
}.

Section alerts.
(** The text of an error of the database, the quoted form of a string, and what is taken from [lettre] and the cipher. *)
Context (db_text : string) (debug : string -> string) (parse_mailbox : string -> option string).
Context (tls_setup : string -> bool -> result unit string) (build : string -> string -> string -> string -> result unit string).
Context (decrypt : string -> result string string).

(** ** Mail *)

Definition transport_of (smtp : SmtpSettings) : result Transport string :=
  let? _ := map_err (fun e => "smtp tls setup failed: " +:+ e) (tls_setup smtp.(host) (smtp.(port) =? 465)) in
  let? creds := (if str_is_empty (trim smtp.(smtp_username)) then Ok None
                 else match decrypt smtp.(password_enc) with
                      | Ok p => Ok (Some (smtp.(smtp_username), p))
                      | Err e => Err ("smtp password decrypt failed: " +:+ e)
                      end) in
  Ok {| tr_host := smtp.(host); implicit_tls := smtp.(port) =? 465; tr_port := smtp.(port); credentials := creds |}.
(** The loop over the recipients: the mails that were taken, and the error that ended it. *)
Fixpoint send_all (o : Outcome) (t : Transport) (sender subj body : string) (tos : list string) : list Mail * result unit string :=
  match tos with
  | [] => ([], Ok tt)
  | to :: tos =>
      match parse_mailbox (trim to) with
      | None => ([], Err ("invalid recipient email: " +:+ debug to))
      | Some addr =>
          match build sender addr subj body with
          | Err e => ([], Err ("build email failed: " +:+ e))
          | Ok _ =>
              let m := {| via := t; recipient := to; mail_from := sender; mail_to := addr; subject := subj; text := body |} in
              match o.(o_mail) m with
              | Err e => ([], Err ("smtp send failed: " +:+ e))
              | Ok _ => let '(ms, r) := send_all o t sender subj body tos in (m :: ms, r)
              end
          end
      end
  end.
Definition send_email (o : Outcome) (smtp : SmtpSettings) (subj body : string) (tos : list string) : list Mail * result string string :=
  match parse_mailbox (trim smtp.(from)) with
  | None => ([], Err ("invalid smtp from: " +:+ debug smtp.(from)))
  | Some sender =>
      match transport_of smtp with
      | Err e => ([], Err e)
      | Ok t => let '(ms, r) := send_all o t sender subj body tos in
                (ms, match r with Ok _ => Ok (pretty (Z.of_nat (length ms))) | Err e => Err e end)
      end
  end.
Definition send_test_email (o : Outcome) (smtp : SmtpSettings) (to : string) : list Mail * result unit string :=
  let '(ms, r) := send_email o smtp "[LLM Gateway] SMTP 配置测试" "这是一封测试邮件：Coding Plan 告警邮件通道配置有效。" [to] in
  (ms, match r with Ok _ => Ok tt | Err e => Err e end).
(** The handler of the test. *)
Definition test_smtp (o : Outcome) (to : string) (s : Site) : list Mail * result unit AppError :=
  if o.(o_smtp) then ([], Err db_error)
  else
    let smtp := load_smtp_settings s.(smtp_row) in
    if configured smtp then let '(ms, r) := send_test_email o smtp (trim to) in (ms, map_err BadRequest r)
    else ([], Err (BadRequest "SMTP 未配置")).

(** Active administrators with an address. *)
Definition admin_emails (us : gmap Z UserRow) : list string :=
  omap (fun u => if u.(is_admin) && (u.(u_status) =? 1) then e ← u.(email); if str_is_empty e then None else Some e else None) ((map_to_list us).*2).
Definition add_recipient (tos : list string) (e : string) : list string := if bool_decide (e ∈ tos) then tos else tos ++ [e].
Definition recipients (user_email : option string) (admins : list string) : list string :=
  foldl add_recipient (match user_email with Some e => if str_is_empty (trim e) then [] else [e] | None => [] end) admins.
Definition send_plan_email (o : Outcome) (p : PlanRuntime) (message : string) (user_email : option string) (s : Site) : list Mail * result string string :=
  if o.(o_smtp) then ([], Err db_text)
  else
    let smtp := load_smtp_settings s.(smtp_row) in
    if negb (configured smtp) then ([], Ok "skipped: SMTP not configured")
    else if o.(o_admins) then ([], Err db_text)
    else
      let tos := recipients user_email (admin_emails s.(people)) in
      if bool_decide (tos = []) then ([], Ok "skipped: no email recipients")
      else send_email o smtp ("[LLM Gateway] Coding Plan「" +:+ p.(plan_name) +:+ "」用量告警") message tos.

(** ** Dispatch *)

Abbreviation Who := (option (string * option string)).
Definition name_of (who : Who) : string := default "" (fst <$> who).
Definition found_user (a : Alert) (s : Site) : Who := (fun u => (u.(username), u.(email))) <$> s.(people) !! a.1.1.1.

(** [ON CONFLICT .. DO NOTHING RETURNING id]: whether the row is new. *)
Definition store_alert (o : Outcome) (who : Who) (a : Alert) (p : PlanRuntime) (used : Z) (s : Site) : result bool string * Site :=
  if o.(o_insert) then (Err db_text, s)
  else match s.(plan_alerts) !! a with
       | Some _ => (Ok false, s)
       | None =>
           (Ok true, {| people := s.(people); smtp_row := s.(smtp_row); sent := s.(sent);
                        plan_alerts := <[a := {| al_plan_name := p.(plan_name); al_username := name_of who; al_used := used; al_limit := p.(token_limit);
                                                 al_message := build_message p used (name_of who); al_delivered := VObject [] |}]> s.(plan_alerts) |})
       end.

Definition hook_payload (who : Who) (a : Alert) (p : PlanRuntime) (used : Z) : Value :=
  json_object [("type", VString "plan.alert"); ("level", of_int a.2);
    ("plan", json_object [("id", of_int p.(plan_id)); ("name", VString p.(plan_name))]);
    ("user", json_object [("id", of_int a.1.1.1); ("username", VString (name_of who))]);
    ("period", VString a.1.2); ("used", of_int used); ("limit", of_int p.(token_limit));
    ("message", VString (build_message p used (name_of who)))].
Definition said (r : result string string) : string := match r with Ok n => "ok: " +:+ n +:+ " recipients" | Err e => "error: " +:+ e end.
Definition set_delivered (v : Value) (r : AlertRow) : AlertRow :=
  {| al_plan_name := r.(al_plan_name); al_username := r.(al_username); al_used := r.(al_used); al_limit := r.(al_limit);
     al_message := r.(al_message); al_delivered := v |}.

(** The channels of the plan, and the results written to the row if they can be. *)
Definition deliver (o : Outcome) (who : Who) (a : Alert) (p : PlanRuntime) (used : Z) (s : Site) : Site :=
  let message := build_message p used (name_of who) in
  let '(mails, by_mail) :=
    if bool_decide ("email" ∈ p.(alert_channels))
    then let '(ms, r) := send_plan_email o p message (who ≫= snd) s in (ms, [("email", VString (said r))]) else ([], []) in
  let '(hook, by_hook) :=
    if bool_decide ("webhook" ∈ p.(alert_channels)) && negb (str_is_empty (trim p.(webhook_url)))
    then let url := trim p.(webhook_url) in
         let payload := hook_payload who a p used in
         (Some (url, payload), [("webhook", VString (match o.(o_hook) url payload with Ok n => "http_" +:+ pretty n | Err e => "error: " +:+ e end))])
    else (None, []) in
  let result := json_object ([("in_site", VString "ok")] ++ by_mail ++ by_hook) in
  {| people := s.(people); smtp_row := s.(smtp_row);
     plan_alerts := if o.(o_result) then s.(plan_alerts) else alter (set_delivered result) a s.(plan_alerts);
     sent := s.(sent) ++ [{| d_alert := a; d_mails := mails; d_hook := hook |}] |}.

Definition dispatch (o : Outcome) (a : Alert) (p : PlanRuntime) (used : Z) (s : Site) : result unit string * Site :=
  if o.(o_user) then (Err db_text, s)
  else
    let who := found_user a s in
    match store_alert o who a p used s with
    | (Err e, s) => (Err e, s)
    | (Ok false, s) => (Ok tt, s)
    | (Ok true, s) => (Ok tt, deliver o who a p used s)
    end.
(** ** Several processes *)

(** A dispatch that has been spawned, by process, and one whose row is stored. *)
Inductive Task : Type :=
| Starting (i : nat) (a : Alert) (p : PlanRuntime) (used : Z)
| Delivering (i : nat) (a : Alert) (p : PlanRuntime) (used : Z) (who : Who).
Definition owner (t : Task) : nat := match t with Starting i _ _ _ | Delivering i _ _ _ _ => i end.
Record State : Type := { site : Site; marks : gmap nat (gset Alert); tasks : list Task }.
Definition marked (st : State) (i : nat) : gset Alert := default ∅ (st.(marks) !! i).

Inductive step : State -> State -> Prop :=
| step_check i u p used k s m ts seen o :
    check_and_dispatch (default ∅ (m !! i)) u p used k = (seen, o) ->
    step {| site := s; marks := m; tasks := ts |}
      {| site := s; marks := <[i := seen]> m; tasks := match o with Some a => Starting i a p used :: ts | None => ts end |}
| step_user_fails i a p used s m ts1 ts2 :
    step {| site := s; marks := m; tasks := ts1 ++ Starting i a p used :: ts2 |}
      {| site := s; marks := <[i := dispatch_failed (default ∅ (m !! i)) a]> m; tasks := ts1 ++ ts2 |}
| step_store_fails i a p used who o e s s' m ts1 ts2 :
    store_alert o who a p used s = (Err e, s') ->
    step {| site := s; marks := m; tasks := ts1 ++ Starting i a p used :: ts2 |}
      {| site := s'; marks := <[i := dispatch_failed (default ∅ (m !! i)) a]> m; tasks := ts1 ++ ts2 |}
| step_stored i a p used who o new s s' m ts1 ts2 :
    store_alert o who a p used s = (Ok new, s') ->
    step {| site := s; marks := m; tasks := ts1 ++ Starting i a p used :: ts2 |}
      {| site := s'; marks := m; tasks := ts1 ++ (if new : bool then [Delivering i a p used who] else []) ++ ts2 |}
| step_deliver i a p used who o s m ts1 ts2 :
    step {| site := s; marks := m; tasks := ts1 ++ Delivering i a p used who :: ts2 |}
      {| site := deliver o who a p used s; marks := m; tasks := ts1 ++ ts2 |}
| step_stop i s m ts :
    step {| site := s; marks := m; tasks := ts |}
      {| site := s; marks := delete i m; tasks := List.filter (fun t => negb (owner t =? i)%nat) ts |}
| step_administer s us row m ts :
    step {| site := s; marks := m; tasks := ts |}
      {| site := {| people := us; smtp_row := row; plan_alerts := s.(plan_alerts); sent := s.(sent) |}; marks := m; tasks := ts |}.

(** ** Properties *)

(** *** The recipients *)

Lemma add_recipients_nodup l : forall tos, NoDup tos -> NoDup (foldl add_recipient tos l).
Proof.
  induction l as [|e l IH]; intros tos H; [done|]. apply IH. unfold add_recipient. case_bool_decide; [done|].
  apply NoDup_app. split_and!; [done|set_solver|apply NoDup_singleton].
Qed.
Lemma add_recipients_elem l : forall tos e, e ∈ foldl add_recipient tos l <-> e ∈ tos \/ e ∈ l.
Proof.
  induction l as [|x l IH]; intros tos e; cbn; [set_solver|]. rewrite IH. unfold add_recipient. case_bool_decide; set_solver.
Qed.
Lemma recipients_nodup user admins : NoDup (recipients user admins).
Proof. apply add_recipients_nodup. destruct user as [e|]; [|constructor]. destruct (str_is_empty _); [constructor|apply NoDup_singleton]. Qed.

Lemma send_all_prefix o t sender subj body tos : exists n, recipient <$> (send_all o t sender subj body tos).1 = take n tos /\
  ((send_all o t sender subj body tos).2 = Ok tt -> (length tos <= n)%nat).
Proof.
  induction tos as [|to tos (n & Hn & Hl)]; cbn; [by exists 0%nat|]. destruct (parse_mailbox _); [|by exists 0%nat]. destruct (build _ _ _ _); [|by exists 0%nat].
  destruct (o_mail _ _); [|by exists 0%nat]. destruct (send_all _ _ _ _ _ _) as [ms r]. exists (S n). cbn in *. split; [by rewrite Hn|]. intros H. apply Hl in H. lia.
Qed.
Lemma send_email_prefix o smtp subj body tos : exists n, recipient <$> (send_email o smtp subj body tos).1 = take n tos /\
  (forall k, (send_email o smtp subj body tos).2 = Ok k -> (length tos <= n)%nat).
Proof.
  unfold send_email. destruct (parse_mailbox _) as [sender|]; [|by exists 0%nat]. destruct (transport_of smtp) as [t|]; [|by exists 0%nat].
  destruct (send_all_prefix o t sender subj body tos) as (n & H1 & H2). destruct (send_all _ _ _ _ _ _) as [ms [[]|e]]; exists n; (split; [exact H1|]); cbn in *; [by intros; apply H2|done].
Qed.

Lemma deliver_sent o who a p used s : exists d, (deliver o who a p used s).(sent) = s.(sent) ++ [d] /\ d.(d_alert) = a /\ NoDup (recipient <$> d.(d_mails)).
Proof.
  assert (H : NoDup (recipient <$> (send_plan_email o p (build_message p used (name_of who)) (who ≫= snd) s).1)).
  { unfold send_plan_email. destruct (o_smtp o); [constructor|]. cbv zeta. destruct (negb _); [constructor|]. destruct (o_admins o); [constructor|].
    case_bool_decide; [constructor|].
    match goal with |- NoDup (recipient <$> (send_email ?o ?s ?x ?b ?l).1) => destruct (send_email_prefix o s x b l) as (n & -> & _) end.
    eapply sublist_NoDup; [apply recipients_nodup|apply sublist_take]. }
  unfold deliver. cbv zeta. destruct (bool_decide ("email" ∈ _)); [|destruct (bool_decide ("webhook" ∈ _) && _); eexists; (split_and!; [done|done|constructor])].
  destruct (send_plan_email _ _ _ _ _) as [ms r]. cbn in H. destruct (bool_decide ("webhook" ∈ _) && _); eexists; by split_and!.
Qed.
Lemma deliver_rows o who a p used s b : is_Some ((deliver o who a p used s).(plan_alerts) !! b) <-> is_Some (s.(plan_alerts) !! b).
Proof.
  unfold deliver. cbv zeta. destruct (if bool_decide ("email" ∈ _) then _ else _) as [ms bm]. destruct (if bool_decide ("webhook" ∈ _) && _ then _ else _) as [hk bh]. cbn.
  destruct (o_result o); [done|]. destruct (decide (a = b)) as [->|]; [rewrite lookup_alter_eq, fmap_is_Some; done|by rewrite lookup_alter_ne].
Qed.
Lemma store_alert_spec o who a p used s r s' :
  store_alert o who a p used s = (r, s') ->
  s'.(sent) = s.(sent) /\ (forall b, is_Some (s.(plan_alerts) !! b) -> is_Some (s'.(plan_alerts) !! b)) /\
  match r with
  | Err _ => s' = s
  | Ok new => is_Some (s'.(plan_alerts) !! a) /\ (new = true -> s.(plan_alerts) !! a = None)
  end.
Proof.
  unfold store_alert. destruct (o_insert o); [by intros [= <- <-]|]. destruct (plan_alerts s !! a) eqn:E; intros [= <- <-]; cbn.
  - rewrite E. by split_and!.
  - rewrite lookup_insert_eq. split_and!; [done| |done|done]. intros b Hb. destruct (decide (a = b)) as [->|]; [by rewrite lookup_insert_eq|by rewrite lookup_insert_ne].
Qed.

(** *** What is kept *)

Definition delivering (t : Task) : option Alert := match t with Delivering _ a _ _ _ => Some a | Starting _ _ _ _ => None end.
Definition begun (i : nat) (a : Alert) (ts : list Task) : Prop := exists p used, Starting i a p used ∈ ts.
Record inv (st : State) : Prop := {
  in_once : NoDup ((d_alert <$> st.(site).(sent)) ++ omap delivering st.(tasks));
  in_rows : forall a, a ∈ (d_alert <$> st.(site).(sent)) ++ omap delivering st.(tasks) -> is_Some (st.(site).(plan_alerts) !! a);
  in_mails : forall d, d ∈ st.(site).(sent) -> NoDup (recipient <$> d.(d_mails));
  in_marks : forall i a, a ∈ marked st i -> is_Some (st.(site).(plan_alerts) !! a) \/ begun i a st.(tasks);
}.

Lemma begun_app i a l1 l2 : begun i a (l1 ++ l2) <-> begun i a l1 \/ begun i a l2.
Proof. unfold begun. setoid_rewrite elem_of_app. naive_solver. Qed.
Lemma begun_cons i a t l : begun i a (t :: l) <-> (exists p used, t = Starting i a p used) \/ begun i a l.
Proof. unfold begun. setoid_rewrite elem_of_cons. naive_solver. Qed.
Lemma marked_insert s m ts i j seen : marked {| site := s; marks := <[i := seen]> m; tasks := ts |} j = if decide (i = j) then seen else default ∅ (m !! j).
Proof. unfold marked. cbn. destruct (decide (i = j)) as [->|]; [by rewrite lookup_insert_eq|by rewrite lookup_insert_ne]. Qed.
Lemma omap_filter_sublist (f : Task -> bool) ts : omap delivering (List.filter f ts) `sublist_of` omap delivering ts.
Proof. induction ts as [|t ts IH]; cbn; [done|]. destruct (f t); cbn; destruct (delivering t); [by constructor|done|by constructor|done]. Qed.

(** The marks of a process that gives up a dispatch. *)
Lemma withdraw st i a l1 t l2 s' :
  st.(tasks) = l1 ++ t :: l2 -> delivering t = None -> (forall j b, (exists p used, t = Starting j b p used) -> j = i /\ b = a) ->
  s'.(sent) = st.(site).(sent) -> (forall b, is_Some (st.(site).(plan_alerts) !! b) -> is_Some (s'.(plan_alerts) !! b)) ->
  inv st -> inv {| site := s'; marks := <[i := dispatch_failed (marked st i) a]> st.(marks); tasks := l1 ++ l2 |}.
Proof.
  intros Et Ed Ht Es Hr [H1 H2 H3 H4]. rewrite Et, omap_app in H1, H2. cbn in H1, H2. rewrite Ed in H1, H2. split; cbn; rewrite ?Es, ?omap_app; [done|auto|done|].
  intros j b. rewrite marked_insert. intros Hb.
  assert (Hm : b ∈ marked st j /\ (j = i -> b <> a)).
  { destruct (decide (i = j)) as [->|]; [unfold dispatch_failed in Hb; set_solver|split; [exact Hb|congruence]]. }
  destruct Hm as [Hm Hne]. destruct (H4 j b Hm) as [?|Hs]; [left; auto|]. right. rewrite Et, begun_app, begun_cons in Hs. rewrite begun_app.
  destruct Hs as [?|[Hs|?]]; [by left| |by right]. apply Ht in Hs as [-> ->]. by destruct (Hne eq_refl).
Qed.

Lemma inv_step st st' : inv st -> step st st' -> inv st'.
Proof.
  intros Hi Hs. destruct Hs as [i u p used k s m ts seen o E|i a p used s m l1 l2|i a p used who o e s s' m l1 l2 E|i a p used who o new s s' m l1 l2 E|
    i a p used who o s m l1 l2|i s m ts|s us row m ts].
  - destruct Hi as [H1 H2 H3 H4]. cbn in *. split; cbn; [by destruct o|by destruct o|done|]. intros j b. rewrite marked_insert. intros Hb.
    assert (K : b ∈ default ∅ (m !! j) \/ (i = j /\ o = Some b)).
    { destruct (decide (i = j)) as [<-|]; [|by left]. pose proof (NotifyProofs.check_and_dispatch_cases (default ∅ (m !! i)) u p used k) as Hc.
      destruct (crossed_level _ _) as [l|]; [|rewrite Hc in E; injection E as <- <-; by left].
      destruct Hc as [[_ Hc]|[_ Hc]]; rewrite Hc in E; injection E as <- <-.
      - apply NotifyProofs.prune_elem in Hb as [? _]. by left.
      - apply elem_of_union in Hb as [->%elem_of_singleton|[? _]%NotifyProofs.prune_elem]; [by right|by left]. }
    destruct K as [K|[<- ->]].
    + destruct (H4 j b K) as [?|Hb']; [by left|]. right. destruct o; [|done]. rewrite begun_cons. by right.
    + right. rewrite begun_cons. left. by eexists _, _.
  - apply (withdraw _ i a l1 (Starting i a p used) l2 s) in Hi; [exact Hi|done|done| |done|done]. intros j b (p' & used' & [=]); by subst.
  - apply store_alert_spec in E as (E1 & E2 & _). apply (withdraw _ i a l1 (Starting i a p used) l2 s') in Hi; [exact Hi|done|done| |done|done]. intros j b (p' & used' & [=]); by subst.
  - apply store_alert_spec in E as (E1 & E2 & E3 & E4). destruct Hi as [H1 H2 H3 H4]. cbn in *. rewrite omap_app in H1, H2. cbn in H1, H2.
    split; cbn; rewrite ?E1, ?omap_app; [..|done|].
    + destruct new; [|done]. cbn. rewrite <- Permutation_middle, <- Permutation_middle. apply NoDup_cons. split; [|done].
      intros Hin. apply H2 in Hin. specialize (E4 eq_refl). rewrite E4 in Hin. by destruct Hin.
    + intros b Hb. destruct (decide (b = a)) as [->|]; [done|]. apply E2, H2. destruct new; cbn in Hb; set_solver.
    + intros j b Hb. destruct (H4 j b Hb) as [?|Hs]; [left; auto|]. rewrite begun_app, begun_cons in Hs. destruct Hs as [?|[(p' & u' & [=])|?]];
        [right; rewrite !begun_app; by left|subst; by left|right; rewrite !begun_app; by right; right].
  - destruct (deliver_sent o who a p used s) as (d & Ed & <- & Hd). destruct Hi as [H1 H2 H3 H4]. cbn in *. rewrite omap_app in H1, H2. cbn in H1, H2.
    assert (P : (d_alert <$> sent s) ++ omap delivering l1 ++ d_alert d :: omap delivering l2 ≡ₚ (d_alert <$> sent s ++ [d]) ++ omap delivering (l1 ++ l2)).
    { rewrite fmap_app, omap_app. cbn. rewrite <- app_assoc. cbn. by rewrite <- Permutation_middle. }
    split; cbn; rewrite ?Ed; [by rewrite <- P|intros b Hb; rewrite deliver_rows; apply H2; by rewrite P|set_solver|].
    intros j b Hb. rewrite deliver_rows. destruct (H4 j b Hb) as [?|Hs]; [by left|]. right. rewrite begun_app, begun_cons in Hs. rewrite begun_app.
    destruct Hs as [?|[(? & ? & [=])|?]]; tauto.
  - destruct Hi as [H1 H2 H3 H4]. cbn in *. pose proof (omap_filter_sublist (fun t => negb (owner t =? i)%nat) ts) as Hsub. split; cbn; [| |done|].
    + eapply sublist_NoDup; [exact H1|by apply sublist_app].
    + intros b Hb. apply H2. apply elem_of_app in Hb as [?|Hb]; apply elem_of_app; [by left|right]. by eapply elem_of_submseteq; [|by apply sublist_submseteq].
    + intros j b. unfold marked. cbn. destruct (decide (i = j)) as [->|Hne]; [by rewrite lookup_delete_eq|]. rewrite lookup_delete_ne by done.
      intros Hb. destruct (H4 j b Hb) as [?|(p & used & Hin)]; [by left|]. right. exists p, used. apply list_elem_of_In, filter_In. split; [by apply list_elem_of_In|].
      cbn. apply negb_true_iff, Nat.eqb_neq. congruence.
  - destruct Hi as [H1 H2 H3 H4]. by split.
Qed.

(** A system that has sent nothing yet. *)
Definition quiet (st : State) : Prop := st.(site).(sent) = [] /\ st.(tasks) = [] /\ st.(marks) = ∅.

(** C33: however many processes check the use of plans, whichever statements, mails and hooks fail and whichever processes stop,
each alert of a user, a plan, a period and a level is delivered at most once, to no address twice as the address is stored with
the accounts (two that differ only in the space around them count as two, see [spaced_address_mailed_twice]), and only with its
row stored; and a mark never hides an alert that is lost: every alert that a process has marked is stored, or the process is
still about to store it. *)
Theorem alert_delivered_once st st' :
  quiet st -> rtc step st st' ->
  NoDup (d_alert <$> st'.(site).(sent)) /\
  (forall d, d ∈ st'.(site).(sent) -> NoDup (recipient <$> d.(d_mails)) /\ is_Some (st'.(site).(plan_alerts) !! d.(d_alert))) /\
  (forall i a, a ∈ marked st' i -> is_Some (st'.(site).(plan_alerts) !! a) \/ begun i a st'.(tasks)).
Proof.
  intros (Q1 & Q2 & Q3) Hs.
  assert (Hi : inv st').
  { assert (H0 : inv st) by (split; unfold marked; rewrite ?Q1, ?Q2, ?Q3; cbn; [constructor|set_solver|set_solver|intros i a; by rewrite lookup_empty]).
    clear Q1 Q2 Q3. induction Hs as [|? ? ? Hstep _ IH]; [done|]. apply IH. by eapply inv_step. }
  destruct Hi as [H1 H2 H3 H4]. split_and!; [by apply NoDup_app in H1 as [? _]| |exact H4].
  intros d Hd. split; [by apply H3|]. apply H2, elem_of_app. left. by apply list_elem_of_fmap_2.
Qed.

(** *** A dispatch *)

(** [dispatch] as it is called is one of the histories above. *)
Lemma dispatch_runs o i a p used s m l :
  let '(r, s') := dispatch o a p used s in
  rtc step {| site := s; marks := m; tasks := Starting i a p used :: l |}
    {| site := s'; marks := match r with Ok _ => m | Err _ => <[i := dispatch_failed (default ∅ (m !! i)) a]> m end; tasks := l |}.
Proof.
  unfold dispatch. destruct (o_user o); [apply rtc_once, (step_user_fails i a p used s m [] l)|]. cbv zeta. set (who := found_user a s).
  destruct (store_alert o who a p used s) as [[new|e] s'] eqn:E; [|by apply rtc_once; eapply (step_store_fails i a p used who o e s s' m [] l)].
  pose proof (step_stored i a p used who o new s s' m [] l E) as H. destruct new; [|by apply rtc_once].
  eapply rtc_l; [exact H|]. apply rtc_once. exact (step_deliver i a p used who o s' m [] l).
Qed.

(** When mail is set up and an alert is reported as mailed, it was sent to the user, if its address is not blank, and to every
    active administrator with an address, and to no one else. *)
Theorem mailed_to_all o p message user s k :
  configured (load_smtp_settings s.(smtp_row)) = true -> (send_plan_email o p message user s).2 = Ok k ->
  forall e, e ∈ recipient <$> (send_plan_email o p message user s).1 <->
    (user = Some e /\ str_is_empty (trim e) = false) \/ e ∈ admin_emails s.(people).
Proof.
  intros Hc H e. transitivity (e ∈ recipients user (admin_emails s.(people))).
  - unfold send_plan_email in *. destruct (o_smtp o); [done|]. cbv zeta in *. rewrite Hc in *. cbn [negb] in *. destruct (o_admins o); [done|].
    case_bool_decide as Hn; [by rewrite Hn|].
    match goal with |- context [send_email ?o ?s ?x ?b ?l] => destruct (send_email_prefix o s x b l) as (n & -> & Hl) end. by rewrite take_ge by (by eapply Hl).
  - unfold recipients. rewrite add_recipients_elem. destruct user as [x|]; [|rewrite elem_of_nil; naive_solver].
    destruct (str_is_empty (trim x)) eqn:E; rewrite ?elem_of_nil, ?list_elem_of_singleton; [|naive_solver]. split; [naive_solver|]. intros [[[= ->] ?]|?]; [congruence|by right].
Qed.
End alerts.

(** *** Examples *)

Module AlertSample.
Definition plan : PlanRuntime :=
  {| plan_id := 1; plan_name := "team"; group_name := ""; token_limit := 1000; period_type := PERIOD_DAILY; period_hours := 24; period_anchor_mode := "";
     member_since := 0; overage_action := "block"; downgrade_model := None; alert_channels := ["email"; "webhook"]; webhook_url := "https://hook.test";
     priority := 0; active_start := None; active_end := None; model_scope := None |}.
Definition person (i : Z) (n mail : string) (admin : bool) : UserRow :=
  {| u_id := i; username := n; email := Some mail; display_name := None; ldap_dn := None; source := "local"; password_hash := None; is_admin := admin;
     u_status := 1; token_version := 0; last_login_at := None; u_created_at := 0 |}.
Definition mail_settings : SmtpSettings := {| host := "mail.test"; port := 465; smtp_username := ""; password_enc := ""; from := "gw@mail.test" |}.
Definition no_mail : SmtpSettings := {| host := ""; port := 0; smtp_username := ""; password_enc := ""; from := "" |}.
Definition site_with (user_mail : string) (row : SmtpSettings) : Site :=
  {| people := {[7 := person 7 "ann" user_mail false; 1 := person 1 "root" "root@mail.test" true]}; smtp_row := row; plan_alerts := ∅; sent := [] |}.
Definition all_well : Outcome :=
  {| o_user := false; o_insert := false; o_smtp := false; o_admins := false; o_result := false; o_mail := fun _ => Ok tt; o_hook := fun _ _ => Ok 200 |}.
(** An address has a sign in it. *)
Definition mailbox (s : string) : option string := if Streams.str_contains "@" s then Some s else None.
Definition setup (h : string) (implicit : bool) : result unit string := Ok tt.
Definition built (f t s b : string) : result unit string := Ok tt.
Definition alert : Alert := (7, 1, "d:1", 80).
Abbreviation send o s := (dispatch "" (fun x => x) mailbox setup built Ok o alert plan 900 s).
Definition to_all (s : Site) : list (list string) := (fun d => recipient <$> d.(d_mails)) <$> s.(sent).
End AlertSample.
Import AlertSample.

Example alert_reaches_both : to_all (send all_well (site_with "ann@mail.test" mail_settings)).2 = [["ann@mail.test"; "root@mail.test"]].
Proof. vm_compute. reflexivity. Qed.

Lemma alert_delivered_once_witness :
  let s := (send all_well (site_with "ann@mail.test" mail_settings)).2 in NoDup (d_alert <$> s.(sent)) /\ length s.(sent) = 1%nat.
Proof.
  cbv zeta. split; [|vm_compute; reflexivity].
  destruct (alert_delivered_once "" (fun x => x) mailbox setup built Ok
    {| site := site_with "ann@mail.test" mail_settings; marks := ∅; tasks := [] |}
    {| site := (send all_well (site_with "ann@mail.test" mail_settings)).2; marks := {[0%nat := {[alert]}]}; tasks := [] |}) as [H _].
  - by split_and!.
  - eapply rtc_l.
    + apply (step_check "" (fun x => x) mailbox setup built Ok 0 7 plan 900 "d:1" _ ∅ [] {[alert]} (Some alert)). vm_compute. reflexivity.
    + pose proof (dispatch_runs "" (fun x => x) mailbox setup built Ok all_well 0 alert plan 900 (site_with "ann@mail.test" mail_settings) {[0%nat := {[alert]}]} []) as R.
      destruct (send all_well (site_with "ann@mail.test" mail_settings)) as [[[]|e] s'] eqn:E; [exact R|]. vm_compute in E. discriminate E.
  - exact H.
Defined.

Lemma mailed_to_all_witness :
  forall e, e ∈ recipient <$> (send_plan_email "" (fun x => x) mailbox setup built Ok all_well plan "m" (Some "ann@mail.test") (site_with "ann@mail.test" mail_settings)).1 <->
    (Some "ann@mail.test" = Some e /\ str_is_empty (trim e) = false) \/ e ∈ ["root@mail.test"].
Proof.
  apply (mailed_to_all "" (fun x => x) mailbox setup built Ok all_well plan "m" (Some "ann@mail.test") (site_with "ann@mail.test" mail_settings) "2"); vm_compute; reflexivity.
Defined.

(** The address of the user comes first: when it is not one, the administrators are not told either, and the alert counts as
    delivered. *)
Theorem bad_address_silences_admins :
  let r := send all_well (site_with "ann" mail_settings) in r.1 = Ok tt /\ to_all r.2 = [[]] /\ is_Some (r.2.(plan_alerts) !! alert).
Proof. vm_compute. split_and!; [reflexivity|reflexivity|by eexists]. Qed.

(** The recipients are told apart by the stored text and mailed by the trimmed one: a user and an administrator whose addresses
    differ only in the space around them are one recipient that gets the alert twice. *)
Theorem spaced_address_mailed_twice :
  let r := send all_well (site_with " root@mail.test" mail_settings) in
  to_all r.2 = [[" root@mail.test"; "root@mail.test"]] /\
  (fun d => mail_to <$> d.(d_mails)) <$> r.2.(sent) = [["root@mail.test"; "root@mail.test"]].
Proof. vm_compute. split; reflexivity. Qed.

(** A mail that is not sent because mail is not set up is noted as sent. *)
Theorem skipped_mail_reported_ok :
  (al_delivered <$> (send all_well (site_with "ann@mail.test" no_mail)).2.(plan_alerts) !! alert) =
  Some (VObject [("email", VString "ok: skipped: SMTP not configured recipients"); ("in_site", VString "ok"); ("webhook", VString "http_200")]).
Proof. vm_compute. reflexivity. Qed.

(** A stored password is dropped by an empty one and kept when none is given. *)
Theorem put_smtp_password encrypt r st st' :
  put_smtp encrypt false false r st = (Ok tt, st') ->
  match r.(sq_password) with
  | None => st'.1.(password_enc) = st.1.(password_enc)
  | Some p => if str_is_empty p then st'.1.(password_enc) = "" else encrypt p = Ok st'.1.(password_enc)
  end.
Proof.
  unfold put_smtp. destruct (sq_password r) as [p|]; [|by intros [= <-]]. destruct (str_is_empty p); [by intros [= <-]|].
  destruct (encrypt p); [by intros [= <-]|done].
Qed.
