(* ===== verification/Intake.v ===== *)
(** * Reading a request

What happens to the bytes and headers of a client before the pipeline sees them ([src/service/proxy.rs]): the content
codings, the identifiers of a session, the bodies of upstreams that are read whole, and, from [src/api/v1.rs], the address
of the client and the headers the operator adds to responses. The decoders of the compression crates, the check of header
texts and the parser of addresses are parameters. *)

From S2P Require Import Prelude Json Errors Routing Body Streams Rectify ErrorShape Upstream PlanConfig.

Local Open Scope Z_scope.

(** ** Content codings *)

Definition MAX_DECOMPRESSED_BODY_BYTES : Z := 512 * 1024 * 1024.

(** The decoders, each reading its input to the end: the output, or the text of the error. *)
Record Codecs : Type := {
  gz_decoder : string -> result string string;
  zlib_decoder : string -> result string string;
  deflate_decoder : string -> result string string;
  brotli_decoder : string -> result string string;
  zstd_new : string -> result unit string;
  zstd_decoder : string -> result string string;
}.

Definition byte_len (s : string) : Z := Z.of_nat (String.length s).

Section codings.
Context (codecs : Codecs).

(** [input.take(MAX + 1)] *)
Definition limited (input : string) : string :=
  if byte_len input <=? MAX_DECOMPRESSED_BODY_BYTES + 1 then input else str_take (Z.to_nat (MAX_DECOMPRESSED_BODY_BYTES + 1)) input.
Definition failed_with {A} (what : string) (r : result A string) : result A string :=
  match r with Ok a => Ok a | Err e => Err (what +:+ ": " +:+ e) end.

Definition run_decoder (enc input : string) : result string string :=
  if bool_decide (enc ∈ ["gzip"; "x-gzip"]) then failed_with "gzip decode failed" (codecs.(gz_decoder) (limited input))
  else if bool_decide (enc = "deflate") then
    match codecs.(zlib_decoder) (limited input) with
    | Ok out => Ok out
    | Err _ => failed_with "deflate decode failed" (codecs.(deflate_decoder) (limited input))
    end
  else if bool_decide (enc = "br") then failed_with "brotli decode failed" (codecs.(brotli_decoder) (limited input))
  else if bool_decide (enc ∈ ["zstd"; "zst"]) then
    let? _ := failed_with "zstd decode init failed" (codecs.(zstd_new) (limited input)) in
    failed_with "zstd decode failed" (codecs.(zstd_decoder) (limited input))
  else Err ("unsupported content-encoding: " +:+ enc +:+ " (supported: gzip, deflate, br, zstd)").
Definition decode_single_coding (input enc : string) : result string string :=
  let? out := run_decoder enc input in
  if MAX_DECOMPRESSED_BODY_BYTES <? byte_len out
  then Err ("decompressed body exceeds " +:+ pretty MAX_DECOMPRESSED_BODY_BYTES +:+ " bytes limit") else Ok out.

(** The codings of a header, in the order in which they were applied. *)
Definition codings_of (header : string) : list string :=
  let enc := to_ascii_lowercase (trim header) in
  if str_is_empty enc || bool_decide (enc = "identity") then [] else omap non_blank (split_comma "" enc).
Fixpoint decode_all (encs : list string) (data : string) : result string string :=
  match encs with [] => Ok data | enc :: encs => let? out := decode_single_coding data enc in decode_all encs out end.
Definition decompress_request_body (body : string) (content_encoding : option string) : result string string :=
  match content_encoding with None => Ok body | Some h => decode_all (rev (codings_of h)) body end.

(** [serde_json::from_slice], with the text of its error. *)
Context (from_slice : string -> result Value string) (to_str : string -> option string).
Definition content_encoding (h : headers) : option string := header_of "content-encoding" h ≫= to_str.
Definition parse_request_json (body : string) (h : headers) : result Value AppError :=
  match decompress_request_body body (content_encoding h) with
  | Err e => Err (BadRequest e)
  | Ok data => match from_slice data with Ok v => Ok v | Err e => Err (BadRequest ("invalid JSON: " +:+ e)) end
  end.
Definition had_content_encoding (h : headers) : bool :=
  match content_encoding h with
  | Some v => negb (str_is_empty (trim v)) && negb (eq_ignore_ascii_case v "identity")
  | None => false
  end.

(** ** Bodies of upstreams *)

Definition MAX_UPSTREAM_BODY_BYTES : Z := 128 * 1024 * 1024.
(** [total] stands for the sum of the lengths, which saturates at [usize::MAX]. *)
Definition USIZE_MAX : Z := 2 ^ 64 - 1.
Fixpoint read_body_capped (cap : Z) (chunks : list (result string string)) (total : Z) (buf : string) : result string string :=
  match chunks with
  | [] => Ok buf
  | Err e :: _ => Err ("upstream body read failed: " +:+ e)
  | Ok chunk :: chunks =>
      let total := Z.min (total + byte_len chunk) USIZE_MAX in
      if cap <? total then Err ("upstream response body exceeds " +:+ pretty cap +:+ " bytes")
      else read_body_capped cap chunks total (buf +:+ chunk)
  end.

(** ** Sessions *)

Definition SESSION_HEADERS : list string := ["x-claude-code-session-id"; "session_id"; "x-grok-conv-id"].
Definition extract_session_id (h : headers) : option string :=
  head (omap (fun name => v ← header_of name h ≫= to_str; take_chars 128 <$> non_blank v) SESSION_HEADERS).
(** What follows the last occurrence of a pattern. *)
Fixpoint after_last (pat s : string) : option string :=
  match s with
  | "" => if bool_decide (pat = "") then Some "" else None
  | String _ s' => match after_last pat s' with Some r => Some r | None => strip_prefix pat s end
  end.
Definition session_id_from_metadata (json : Value) (anthropic_endpoint : bool) : option string :=
  if negb anthropic_endpoint then None
  else user_id ← get "metadata" json ≫= get_str "user_id";
       session ← after_last "_session_" user_id;
       take_chars 128 <$> non_blank session.

(** ** The address of the client *)

Definition resolve_client_ip {ip} (parse_ip : string -> option ip) (peer : ip) (h : headers) : ip :=
  default peer (s ← header_of "x-forwarded-for" h ≫= to_str; parse_ip (trim (default "" (head (split_comma "" s))))).

(** ** Headers of responses *)

Context (header_name header_value : string -> option string).
(** [HeaderMap::insert] *)
Definition insert_header (h : headers) (kv : string * string) : headers := List.filter (fun x => negb (bool_decide (x.1 = kv.1))) h ++ [kv].
Definition response_header (kv : string * Value) : option (string * string) :=
  s ← as_str kv.2; n ← header_name kv.1; v ← header_value s; Some (n, v).
Definition append_custom_response_headers (custom : list (string * Value)) (h : headers) : headers :=
  foldl insert_header h (omap response_header custom).
End codings.

(** ** Properties *)

Section laws.
Context (codecs : Codecs).

Lemma decode_single_bound input enc out :
  decode_single_coding codecs input enc = Ok out -> byte_len out <= MAX_DECOMPRESSED_BODY_BYTES.
Proof.
  unfold decode_single_coding. destruct (run_decoder _ _ _) as [o|]; [|done].
  destruct (Z.ltb_spec MAX_DECOMPRESSED_BODY_BYTES (byte_len o)); [done|]. by intros [= <-].
Qed.
Lemma decode_all_snoc encs enc data :
  decode_all codecs (encs ++ [enc]) data = let? out := decode_all codecs encs data in decode_single_coding codecs out enc.
Proof.
  revert data. induction encs as [|x encs IH]; intros data; cbn; [by destruct (decode_single_coding codecs data enc)|].
  destruct (decode_single_coding codecs data x); [apply IH|done].
Qed.

(** A body that was decoded is never larger than the budget. *)
Theorem decoded_within_budget body h d :
  codings_of h <> [] -> decompress_request_body codecs body (Some h) = Ok d -> byte_len d <= MAX_DECOMPRESSED_BODY_BYTES.
Proof.
  unfold decompress_request_body. destruct (codings_of h) as [|enc encs]; [done|]. intros _. cbn [rev]. rewrite decode_all_snoc.
  destruct (decode_all _ _ _) as [o|]; [|done]. apply decode_single_bound.
Qed.

(** Encoders that the decoders undo. *)
Context (encoder : string -> string -> string).
Definition CODINGS : list string := ["gzip"; "x-gzip"; "deflate"; "br"; "zstd"; "zst"].
Record inverse : Prop := {
  inv_gzip : forall enc x, enc ∈ ["gzip"; "x-gzip"] -> codecs.(gz_decoder) (encoder enc x) = Ok x;
  inv_deflate : forall x, codecs.(zlib_decoder) (encoder "deflate" x) = Ok x;
  inv_br : forall x, codecs.(brotli_decoder) (encoder "br" x) = Ok x;
  inv_zstd : forall enc x, enc ∈ ["zstd"; "zst"] -> codecs.(zstd_new) (encoder enc x) = Ok tt /\ codecs.(zstd_decoder) (encoder enc x) = Ok x;
}.
(** The codings applied in turn, and that no intermediate result exceeds the budget. *)
Definition encode_all (encs : list string) (body : string) : string := foldl (fun d enc => encoder enc d) body encs.
Definition fits_budget (encs : list string) (body : string) : Prop :=
  forall l r, encs = l ++ r -> byte_len (encode_all l body) <= MAX_DECOMPRESSED_BODY_BYTES.

Lemma run_gzip enc i : enc ∈ ["gzip"; "x-gzip"] -> run_decoder codecs enc i = failed_with "gzip decode failed" (codecs.(gz_decoder) (limited i)).
Proof. intros H. unfold run_decoder. by rewrite bool_decide_true. Qed.
Lemma run_deflate i :
  run_decoder codecs "deflate" i =
  match codecs.(zlib_decoder) (limited i) with Ok o => Ok o | Err _ => failed_with "deflate decode failed" (codecs.(deflate_decoder) (limited i)) end.
Proof. reflexivity. Qed.
Lemma run_br i : run_decoder codecs "br" i = failed_with "brotli decode failed" (codecs.(brotli_decoder) (limited i)).
Proof. reflexivity. Qed.
Lemma run_zstd enc i :
  enc ∈ ["zstd"; "zst"] ->
  run_decoder codecs enc i =
  let? _ := failed_with "zstd decode init failed" (codecs.(zstd_new) (limited i)) in failed_with "zstd decode failed" (codecs.(zstd_decoder) (limited i)).
Proof. intros [->|[->|[]%elem_of_nil]%elem_of_cons]%elem_of_cons; reflexivity. Qed.
Lemma decode_encoded enc x :
  inverse -> enc ∈ CODINGS -> byte_len x <= MAX_DECOMPRESSED_BODY_BYTES -> byte_len (encoder enc x) <= MAX_DECOMPRESSED_BODY_BYTES ->
  decode_single_coding codecs (encoder enc x) enc = Ok x.
Proof.
  intros [I1 I2 I3 I4] Hin Hx He. unfold decode_single_coding.
  assert (R : run_decoder codecs enc (encoder enc x) = Ok x); [|rewrite R; cbn; by rewrite (proj2 (Z.ltb_ge _ _) Hx)].
  assert (L : limited (encoder enc x) = encoder enc x) by (unfold limited; by rewrite (proj2 (Z.leb_le _ _)) by lia).
  unfold CODINGS in Hin. repeat (apply elem_of_cons in Hin as [->|Hin]); [..|by apply elem_of_nil in Hin].
  1-2: rewrite run_gzip, L, I1 by set_solver; done.
  - by rewrite run_deflate, L, I2.
  - by rewrite run_br, L, I3.
  - destruct (I4 "zstd" x ltac:(set_solver)) as [J1 J2]. rewrite run_zstd, L, J1 by set_solver. cbn. by rewrite J2.
  - destruct (I4 "zst" x ltac:(set_solver)) as [J1 J2]. rewrite run_zstd, L, J1 by set_solver. cbn. by rewrite J2.
Qed.

(** A request that was encoded with several codings in turn, and that says so in its header, is read as it was before
    the first: the codings are undone in the reverse order. *)
Theorem stacked_codings_roundtrip h body :
  inverse -> Forall (fun enc => enc ∈ CODINGS) (codings_of h) -> fits_budget (codings_of h) body ->
  decompress_request_body codecs (encode_all (codings_of h) body) (Some h) = Ok body.
Proof.
  unfold decompress_request_body. intros I. induction (codings_of h) as [|enc encs IH] using rev_ind; [done|].
  intros Hc Hf. apply Forall_app in Hc as [Hc [Henc _]%Forall_cons].
  assert (Hf' : fits_budget encs body) by (intros l r ->; apply (Hf l (r ++ [enc])); by rewrite app_assoc).
  rewrite rev_unit. cbn [decode_all]. unfold encode_all. rewrite foldl_app. cbn [foldl].
  change (foldl _ body encs) with (encode_all encs body).
  rewrite decode_encoded; [by apply IH|done|done|by apply (Hf encs [enc])|].
  specialize (Hf (encs ++ [enc]) []). rewrite app_nil_r in Hf. specialize (Hf eq_refl). unfold encode_all in Hf. by rewrite foldl_app in Hf.
Qed.
End laws.

Lemma byte_len_app a b : byte_len (a +:+ b) = byte_len a + byte_len b.
Proof. unfold byte_len. rewrite length_app_str. lia. Qed.

(** A body that is read whole is the chunks in order, if all of them arrive and they do not exceed the limit, and is
    refused otherwise. *)
Theorem body_read_iff cap chunks b :
  0 <= cap < USIZE_MAX ->
  read_body_capped cap chunks 0 "" = Ok b <->
  exists l, chunks = Ok <$> l /\ b = foldr String.append "" l /\ byte_len b <= cap.
Proof.
  intros Hcap.
  assert (G : forall chunks buf, byte_len buf <= cap ->
    read_body_capped cap chunks (byte_len buf) buf = Ok b <-> exists l, chunks = Ok <$> l /\ b = buf +:+ foldr String.append "" l /\ byte_len b <= cap).
  { clear chunks. intros chunks. induction chunks as [|[c|e] chunks IH]; intros buf Hb; cbn [read_body_capped].
    - split; [intros [= <-]; exists []; cbn; by rewrite string_app_empty_r|]. intros ([|? l] & E & -> & _); [cbn; by rewrite string_app_empty_r|done].
    - destruct (Z.ltb_spec cap (Z.min (byte_len buf + byte_len c) USIZE_MAX)) as [H|H].
      + split; [done|]. intros ([|c' l] & E & -> & Hl); [done|]. injection E as <- ->. cbn in Hl. rewrite !byte_len_app in Hl.
        unfold byte_len in *. lia.
      + assert (Hs : byte_len buf + byte_len c <= cap) by lia. rewrite Z.min_l by lia. rewrite <-byte_len_app in *. rewrite IH by done. split.
        * intros (l & -> & -> & Hl). exists (c :: l). cbn. by rewrite string_app_assoc in *.
        * intros ([|c' l] & E & -> & Hl); [done|]. injection E as <- ->. exists l. cbn in *. by rewrite string_app_assoc.
    - split; [done|]. intros ([|? l] & E & _); done. }
  apply (G chunks ""). unfold byte_len. cbn. lia.
Qed.

Example codings_of_header : codings_of " GZIP, br " = ["gzip"; "br"].
Proof. reflexivity. Qed.

(** Codings that put one byte before the data. *)
Module CodingSample.
Definition tail (s : string) : result string string := match s with "" => Err "empty" | String _ s => Ok s end.
Definition codecs : Codecs :=
  {| gz_decoder := tail; zlib_decoder := tail; deflate_decoder := tail; brotli_decoder := tail; zstd_new := fun _ => Ok tt; zstd_decoder := tail |}.
Definition encoder (enc x : string) : string := String "z" x.
End CodingSample.
Lemma stacked_codings_roundtrip_witness :
  decompress_request_body CodingSample.codecs (encode_all CodingSample.encoder ["gzip"; "br"] "{}") (Some " GZIP, br ") = Ok "{}".
Proof.
  apply (stacked_codings_roundtrip CodingSample.codecs CodingSample.encoder " GZIP, br " "{}").
  - split; intros; try reflexivity. split; reflexivity.
  - rewrite codings_of_header. repeat constructor.
  - rewrite codings_of_header. intros l r E. destruct l as [|a [|b [|c l]]]; cbn in E; simplify_eq; vm_compute; congruence.
Defined.

(** What is limited is the input of a decoder and not its output: however large a number, some decoder turns an input of
    one byte into more bytes than that before the length of the output is looked at. *)
Theorem decoder_output_unbounded (n : Z) :
  exists codecs out, run_decoder codecs "gzip" "x" = Ok out /\ n <= byte_len out.
Proof.
  set (out := String.string_of_list_ascii (replicate (Z.to_nat n) "x"%char)).
  exists {| gz_decoder := fun _ => Ok out; zlib_decoder := Err; deflate_decoder := Err; brotli_decoder := Err; zstd_new := fun _ => Ok tt; zstd_decoder := Err |}, out.
  split; [reflexivity|]. unfold byte_len, out. assert (H : forall k, String.length (String.string_of_list_ascii (replicate k "x"%char)) = k).
  { intros k. induction k as [|k IH]; cbn; [done|]. by rewrite IH. }
  rewrite H. lia.
Qed.
