(* ===== verification/Gateway.v ===== *)
(** * A request from end to end

[proxy], [proxy_test] and [proxy_authed] of [src/service/proxy.rs] with everything they call: the authentication of the
key, the switch of the endpoint, the decoding of the body, the concurrency limits, the guards bound to the response, the
choice of providers, the body and headers sent to each, the retry after a refusal and the failover. The state is that of
the process; the configuration is what the caches of [Database] hold. The network and the clock are inputs of a request. *)

From S2P Require Import Prelude Float Json Errors RateLimit Breaker Routing Calendar Plans Metering Body Streams Chat ToolMedia ErrorShape Rectify Upstream.
From S2P Require Import ConfigTables Database PlanConfig Accounts ConfigHistory Pipeline Intake.

Local Open Scope Z_scope.

(** ** State *)

(** The part of [AppConfig] that the pipeline reads. *)
Record Static : Type := {
  st_max_attempts : Z;
  st_zen_table : list (string * list string);
  st_breaker : BreakerConfig;
  rectify_enabled : bool;
  inject_claude_code_beta : bool;
  non_stream_timeout_secs : Z;
}.

Record Gateway : Type := {
  world : World;
  counters : Guards.Counters;
  slots : gmap string Z;
  plan_usage : UsageCache.t;
  alerts_seen : gset Notify.Alert;
  breakers : states;
  remembered : list (string * Value);      (** responses kept for [previous_response_id], in order *)
  calls : list (UsageMeta * Z * option Usage);  (** accounting calls *)
  outbox : list Notify.Alert;
}.

Definition set_counters (c : Guards.Counters) (g : Gateway) : Gateway :=
  {| world := g.(world); counters := c; slots := g.(slots); plan_usage := g.(plan_usage); alerts_seen := g.(alerts_seen);
     breakers := g.(breakers); remembered := g.(remembered); calls := g.(calls); outbox := g.(outbox) |}.
Definition set_slots (s : gmap string Z) (g : Gateway) : Gateway :=
  {| world := g.(world); counters := g.(counters); slots := s; plan_usage := g.(plan_usage); alerts_seen := g.(alerts_seen);
     breakers := g.(breakers); remembered := g.(remembered); calls := g.(calls); outbox := g.(outbox) |}.
Definition set_world (w : World) (g : Gateway) : Gateway :=
  {| world := w; counters := g.(counters); slots := g.(slots); plan_usage := g.(plan_usage); alerts_seen := g.(alerts_seen);
     breakers := g.(breakers); remembered := g.(remembered); calls := g.(calls); outbox := g.(outbox) |}.

Definition conf_of (g : Gateway) : ConfigCaches := g.(world).(caches).(conf).
Definition config_of (static : Static) (g : Gateway) : Config :=
  {| cfg_routes := (conf_of g).(c_routes); cfg_providers := (conf_of g).(c_providers); disabled_models := (conf_of g).(c_disabled);
     user_access := (conf_of g).(c_access); Pipeline.admin_ids := g.(world).(caches).(Database.admin_ids);
     message_templates := (conf_of g).(c_messages); extra_body_enabled := (conf_of g).(c_extra_body);
     max_attempts := static.(st_max_attempts); zen_table := static.(st_zen_table); breaker_config := static.(st_breaker);
     responses_enabled := (conf_of g).(c_endpoints).(es_responses_enabled); messages_enabled := (conf_of g).(c_endpoints).(es_messages_enabled) |}.
Definition plan_state (g : Gateway) : PlanState :=
  {| Metering.plans := g.(world).(caches).(Database.plans); usage := g.(plan_usage); plan_alerts_seen := g.(alerts_seen) |}.

(** ** Guards *)

(** [ResponseGuards] without the guard on the number of requests, which every request has. *)
Record Held : Type := { h_user : option (Z * string); h_slots : Concurrency.Guard }.

(** [UserActiveGuard::enter] *)
Definition enter_user (key : option (Z * string)) (c : Guards.Counters) : Guards.Counters :=
  {| Guards.active_requests := c.(Guards.active_requests);
     Guards.active_by_user := match key with
                              | Some k => <[k := default 0 (c.(Guards.active_by_user) !! k) + 1]> c.(Guards.active_by_user)
                              | None => c.(Guards.active_by_user)
                              end |}.
Definition enter_request (g : Gateway) : Gateway := set_counters (Guards.enter None g.(counters)) g.
Definition leave_request (g : Gateway) : Gateway := set_counters (Guards.leave None g.(counters)) g.
(** The guards of a response are dropped. *)
Definition release (h : Held) (g : Gateway) : Gateway :=
  set_slots (Concurrency.drop_guard h.(h_slots) g.(slots)) (set_counters (Guards.leave h.(h_user) g.(counters)) g).

(** ** A request *)

(** What the request meets: the time, the jitter of the retry hint, the network, the chunks of a response as a stream,
    and the times at which the breaker is asked and an attempt ends. *)
Record Env : Type := {
  e_now : Z;
  e_local_now : Z;
  e_jitter : F64.t;
  e_request_id : string;
  e_client_ip : string;
  e_transport : Request -> option (result Response string);
  e_items : Response -> list Prime.Item;
  e_allow : Provider -> Z;
  e_done : Provider -> Z;
}.

Section gateway.
Context `{C : Calendar}.
Context (codecs : Codecs) (from_slice : string -> result Value string) (to_str header_name header_value : string -> option string).
Context (sha256_hex : string -> string) (acfg : AuthConfig) (static : Static).
(** The converters of requests, and the history bridge on what is remembered. *)
Context (anthropic_convert : Value -> string -> string -> result Value string) (responses_convert : Value -> string -> result Value string).
Context (enrich : list (string * Value) -> Value -> result Value string).
Context (to_lowercase : string -> string) (decrypt : string -> option string) (builder_error : string) (d : Deps).

Record Accepted : Type := { a_user : option Z; a_key : option Z; a_json : Value; a_held : Held }.

Definition with_id {A} (env : Env) (r : result A AppError) : result A AppError :=
  match r with Ok a => Ok a | Err e => Err (with_request_id e env.(e_request_id)) end.

(** [proxy] up to the pipeline, after the guard on the number of requests. *)
Definition accept (env : Env) (h : headers) (body : string) (e : Endpoint) (g : Gateway) : Gateway * result Accepted AppError :=
  let '(auth, w) := authenticate env.(e_now) sha256_hex to_str acfg h g.(world) in
  let g := set_world w g in
  match auth with
  | Err err => (g, Err err)
  | Ok (user, key) =>
      match ensure_endpoint_enabled (config_of static g) e with
      | Err err => (g, Err err)
      | Ok _ =>
          match parse_request_json codecs from_slice to_str body h with
          | Err err => (g, Err err)
          | Ok json =>
              let model := requested_model json in
              match Concurrency.apply_concurrency_limits (conf_of g).(c_rules) (conf_of g).(c_messages) env.(e_jitter) user key (default "" model) g.(slots) with
              | Err err => (g, Err err)
              | Ok (slots, guard) =>
                  let held := {| h_user := Guards.user_key user model; h_slots := guard |} in
                  (set_slots slots (set_counters (enter_user held.(h_user) g.(counters)) g),
                   Ok {| a_user := user; a_key := key; a_json := json; a_held := held |})
              end
          end
      end
  end.

(** The normalisation of roles and tools, and whether it changed anything. *)
Definition normalized_request (e : Endpoint) (json : Value) : Value * bool :=
  if e.(anthropic) then (json, false)
  else
    let '(json, roles) := normalize_chat_roles json in
    if e.(responses) then (json, roles) else let '(json, tools) := normalize_tools json in (json, roles || tools).

(** *** An attempt on a provider *)

Definition bytes_of (body : string) (o : Outbound) : string := match o with RawBytes => body | Rebuilt v => d.(to_vec) v end.
Definition stripped (body : string) (o : Outbound) : option Outbound :=
  v ← d.(parse_json) (bytes_of body o); let '(v, n) := replace_image_parts v in if (n =? 0)%nat then None else Some (Rebuilt v).

Section attempts.
Context (env : Env) (h : headers) (body : string) (e : Endpoint) (g : Gateway) (sel : Selection) (roles_rewritten is_streamed : bool).

Definition wants_1m : bool := ends_with "[1m]" sel.(sel_model) || ends_with "[1m]" (outbound_model sel.(sel_route) sel.(sel_model)).
(** A panic in the construction of the body ends the request as a failure to build it does. *)
Definition outbound (p : Provider) : result (string * string) AppError :=
  match build_outbound anthropic_convert responses_convert (enrich g.(remembered)) (stripped body) (config_of static g) e sel p is_streamed
          roles_rewritten (had_content_encoding to_str h) with
  | Some (Ok (o, path)) => Ok (bytes_of body o, path)
  | Some (Err err) => Err err
  | None => Err (Internal "panic")
  end.
Definition at_path (path : string) : Endpoint := {| api := e.(api); upstream := path; responses := e.(responses); anthropic := e.(anthropic) |}.
(** The request that carries a body and the headers of the client to a provider. *)
Definition request_to (p : Provider) (key path data : string) (client : headers) : Request :=
  upstream_request header_name header_value to_str p key (at_path path) env.(e_request_id) (conf_of g).(c_headers).(hs_upstream)
    static.(inject_claude_code_beta) static.(non_stream_timeout_secs) is_streamed wants_1m data client.
Definition send (p : Provider) (key path data : string) (client : headers) : result Response string :=
  send_upstream header_name header_value to_str p key (at_path path) env.(e_request_id) (conf_of g).(c_headers).(hs_upstream)
    static.(inject_claude_code_beta) static.(non_stream_timeout_secs) builder_error env.(e_transport) is_streamed wants_1m data client.
Definition exchange (p : Provider) (key path data : string) : result SentOutcome string * list (string * headers) :=
  send_with_rectify d.(to_vec) d.(parse_json) d.(from_utf8_lossy) to_lowercase static.(rectify_enabled)
    (eq_ignore_ascii_case p.(api_type) "anthropic") (send p key path) data h.
Definition reply_of (r : result SentOutcome string) : Reply :=
  match r with
  | Err m => SendFailed (Streams.str_contains "header timeout" m)
  | Ok (Rectify.PreRead status ct bytes _) => Pipeline.PreRead status ct bytes
  | Ok (Sent resp) => Replied resp.(r_code) resp.(r_content_type) (env.(e_items) resp) resp.(r_bytes)
  end.
(** A streaming attempt builds the body first, another one decrypts the key first. *)
Definition attempt_reply (p : Provider) : Reply :=
  match outbound p, decrypt p.(api_key_encrypted) with
  | Ok (data, path), Some key => reply_of (exchange p key path data).1
  | Ok _, None => DecryptFailed
  | Err err, Some _ => BuildFailed err
  | Err err, None => if is_streamed then BuildFailed err else DecryptFailed
  end.
Definition attempt (p : Provider) : Attempt := {| t_allow := env.(e_allow) p; t_done := env.(e_done) p; reply := attempt_reply p |}.
(** What an attempt sends. *)
Definition sends (p : Provider) : list Request :=
  match outbound p, decrypt p.(api_key_encrypted) with
  | Ok (data, path), Some key => (fun bc => request_to p key path bc.1 bc.2) <$> (exchange p key path data).2
  | _, _ => []
  end.
End attempts.

(** *** The pipeline *)

Definition bill_plan (env : Env) (p : PlanRuntime) : PlanBill :=
  {| bill_plan_id := p.(plan_id); bill_period_start := period_start p env.(e_now); bill_period_key := period_key p env.(e_now) |}.
Definition meta_of (env : Env) (h : headers) (e : Endpoint) (user key : option Z) (test is_streamed : bool) (sel : Selection) (pid : Z) : UsageMeta :=
  {| request_id := env.(e_request_id); user_id := user; api_key_id := key; model := sel.(sel_model); meta_provider_id := pid;
     endpoint := e.(api); streamed := is_streamed; client_ip := Some env.(e_client_ip);
     session_id := match extract_session_id to_str h with
                   | Some s => Some s
                   | None => session_id_from_metadata sel.(sel_json) e.(anthropic)
                   end;
     first_token_ms := None; test_call := test;
     pricing_models := sel.(sel_model) :: match sel.(sel_route).(upstream_model) with Some m => [m] | None => [] end;
     plan := bill_plan env <$> sel.(sel_plan) |}.

(** [proxy_authed] up to the loops: the request as it was normalised, and the choice of providers. *)
Definition choose (env : Env) (e : Endpoint) (user : option Z) (json : Value) (g : Gateway) : Gateway * result Selection AppError :=
  let '(st, brk, alert, r) := select (config_of static g) e user json env.(e_local_now) env.(e_now) (plan_state g) g.(breakers) in
  ({| world := g.(world); counters := g.(counters); slots := g.(slots); plan_usage := st.(usage); alerts_seen := st.(plan_alerts_seen);
      breakers := brk; remembered := g.(remembered); calls := g.(calls);
      outbox := g.(outbox) ++ match alert with Some a => [a] | None => [] end |}, r).
Definition is_streaming (sel : Selection) : bool := default false (get "stream" sel.(sel_json) ≫= as_bool).

Definition proxy_authed (env : Env) (h : headers) (body : string) (e : Endpoint) (user key : option Z) (test : bool) (json : Value) (g : Gateway)
    : Gateway * result Answer AppError :=
  let '(json, rewritten) := normalized_request e json in
  let '(g, r) := choose env e user json g in
  match r with
  | Err err => (g, Err err)
  | Ok sel =>
      match sel.(sel_candidates) with
      | [] => (g, Err (Internal "panic"))
      | first :: _ =>
          let s := is_streaming sel in
          let '(l, r) := run_loop d static.(st_breaker) e sel.(sel_check_breaker) s (attempt env h body e g sel rewritten s) first
                           (tried (config_of static g) sel.(sel_candidates)) g.(breakers) in
          ({| world := g.(world); counters := g.(counters); slots := g.(slots); plan_usage := g.(plan_usage); alerts_seen := g.(alerts_seen);
              breakers := l.(brk); remembered := g.(remembered) ++ l.(history);
              calls := g.(calls) ++ ((fun b => (meta_of env h e user key test s sel b.(bill_provider), b.(bill_status), b.(bill_usage))) <$> l.(bills));
              outbox := g.(outbox) |}, r)
      end
  end.

(** The guards are bound to the body of the response, and dropped when there is none. *)
Definition proxy (env : Env) (h : headers) (body : string) (e : Endpoint) (g : Gateway) : Gateway * result (Answer * Held) AppError :=
  let '(g, r) := accept env h body e (enter_request g) in
  match r with
  | Err err => (leave_request g, with_id env (Err err))
  | Ok a =>
      let '(g, r) := proxy_authed env h body e a.(a_user) a.(a_key) false a.(a_json) g in
      match r with
      | Ok ans => (g, Ok (ans, a.(a_held)))
      | Err err => (release a.(a_held) g, with_id env (Err err))
      end
  end.
(** The test of an endpoint: no key, no limits, and no accounting. *)
Definition proxy_test (env : Env) (h : headers) (body : string) (e : Endpoint) (g : Gateway) : Gateway * result (Answer * Held) AppError :=
  let held := {| h_user := None; h_slots := [] |} in
  let g := enter_request g in
  match ensure_endpoint_enabled (config_of static g) e with
  | Err err => (release held g, with_id env (Err err))
  | Ok _ =>
      match parse_request_json codecs from_slice to_str body h with
      | Err err => (release held g, with_id env (Err err))
      | Ok json =>
          let '(g, r) := proxy_authed env h body e None None true json g in
          match r with
          | Ok ans => (g, Ok (ans, held))
          | Err err => (release held g, with_id env (Err err))
          end
      end
  end.
End gateway.
