(* ===== verification/GatewayHistory.v ===== *)
(** * Requests that overlap

The steps of many requests in any order ([Gateway]): a request enters, is admitted or refused, is answered or fails, is
cancelled by its client, and the body of its response ends. Whatever happens, the counters of running requests and the
slots of the concurrency limits are those of the requests that are under way. *)

From S2P Require Import Prelude Float Json Errors RateLimit Breaker Routing Calendar Plans Metering Body Streams Chat ErrorShape Rectify Upstream.
From S2P Require Import ConfigTables Database PlanConfig Accounts Pipeline Intake Gateway.

Local Open Scope Z_scope.

(** A request that has entered and is not admitted yet, or one that holds its guards. *)
Inductive Entry : Type := Waiting | Holding (h : Held).
Definition user_of (x : Entry) : option (Z * string) := match x with Waiting => None | Holding h => h.(h_user) end.
Definition slots_of (x : Entry) : Concurrency.Guard := match x with Waiting => [] | Holding h => h.(h_slots) end.

Definition exact (g : Gateway) (live : list Entry) : Prop :=
  GuardProofs.Inv g.(counters) (user_of <$> live) /\ Concurrency.accounted (g.(slots), slots_of <$> live).

Lemma enter_user_as k c : enter_user k c = Guards.leave None (Guards.enter k c).
Proof. unfold enter_user, Guards.leave, Guards.enter. cbn. f_equal. lia. Qed.

(** *** The guards *)

Lemma exact_enter g live : exact g live -> exact (enter_request g) (Waiting :: live).
Proof. intros [H1 H2]. split; cbn; [by apply GuardProofs.inv_enter|]. exact H2. Qed.
Lemma exact_leave g l1 l2 : exact g (l1 ++ Waiting :: l2) -> exact (leave_request g) (l1 ++ l2).
Proof.
  intros [H1 [H2 H3]]. rewrite fmap_app, fmap_cons in H1. split; cbn in *; rewrite fmap_app; [by apply GuardProofs.inv_leave|].
  split; [done|]. cbn in *. intros k. rewrite H3, fmap_app, fmap_cons, !concat_app. done.
Qed.
Lemma exact_release h g l1 l2 : exact g (l1 ++ Holding h :: l2) -> exact (release h g) (l1 ++ l2).
Proof.
  intros [H1 H2]. rewrite fmap_app, fmap_cons in H1. rewrite fmap_app, fmap_cons in H2. split; cbn in *; rewrite fmap_app; [by apply GuardProofs.inv_leave|].
  eapply (Concurrency.accounted_step (fun _ => True)); [apply Concurrency.step_release|exact H2].
Qed.
Lemma accounted_perm c l l' : l ≡ₚ l' -> Concurrency.accounted (c, l) -> Concurrency.accounted (c, l').
Proof.
  intros Hp [H1 H2]. split; [done|]. cbn in *. intros k. rewrite H2. clear H2. induction Hp as [|x l l' _ IH|x y l|l1 l2 l3 _ IH1 _ IH2]; cbn.
  - done.
  - by rewrite !Concurrency.occ_app, IH.
  - rewrite !Concurrency.occ_app. lia.
  - by rewrite IH1.
Qed.
Lemma exact_hold g l1 l2 c' h :
  exact g (l1 ++ Waiting :: l2) -> Concurrency.accounted (c', h.(h_slots) :: (slots_of <$> (l1 ++ l2))) ->
  exact (set_slots c' (set_counters (enter_user h.(h_user) g.(counters)) g)) (l1 ++ Holding h :: l2).
Proof.
  intros [H1 _] Ha. split; cbn.
  - rewrite enter_user_as. rewrite fmap_app in *. cbn in *. apply (GuardProofs.inv_enter (h_user h)) in H1.
    replace (user_of <$> l1) with ([] ++ (user_of <$> l1)) in H1 by done.
    assert (H2 : GuardProofs.Inv (Guards.enter (h_user h) (counters g)) ((h_user h :: (user_of <$> l1)) ++ None :: (user_of <$> l2))) by done.
    apply GuardProofs.inv_leave in H2. destruct H2 as [T U]. split.
    + rewrite T. cbn. rewrite !length_app. cbn. lia.
    + intros k. rewrite U. cbn. rewrite GuardProofs.count_cons, !GuardProofs.count_app, GuardProofs.count_cons.
      replace ((if bool_decide (h_user h = Some k) then 1 else 0) + (GuardProofs.count k (user_of <$> l1) + GuardProofs.count k (user_of <$> l2)))
        with (GuardProofs.count k (user_of <$> l1) + ((if bool_decide (h_user h = Some k) then 1 else 0) + GuardProofs.count k (user_of <$> l2))) by lia.
      done.
  - eapply accounted_perm; [|exact Ha]. rewrite !fmap_app. cbn. apply Permutation_middle.
Qed.

(** ** Steps *)

Section steps.
Context `{C : Calendar}.
Context (codecs : Codecs) (from_slice : string -> result Value string) (to_str header_name header_value : string -> option string).
Context (sha256_hex : string -> string) (acfg : AuthConfig) (static : Static).
Context (anthropic_convert : Value -> string -> string -> result Value string) (responses_convert : Value -> string -> result Value string).
Context (enrich : list (string * Value) -> Value -> result Value string).
Context (to_lowercase : string -> string) (decrypt : string -> option string) (builder_error : string) (d : Deps).
Local Abbreviation accept := (accept codecs from_slice to_str sha256_hex acfg static).
Local Abbreviation proxy_authed :=
  (proxy_authed to_str header_name header_value static anthropic_convert responses_convert enrich to_lowercase decrypt builder_error d).
Local Abbreviation proxy :=
  (proxy codecs from_slice to_str header_name header_value sha256_hex acfg static anthropic_convert responses_convert enrich to_lowercase decrypt builder_error d).
Local Abbreviation proxy_test :=
  (proxy_test codecs from_slice to_str header_name header_value static anthropic_convert responses_convert enrich to_lowercase decrypt builder_error d).

(** [step_other] stands for whatever else changes the state: other handlers, reloads, the accounting of streams, and the
    parts of [proxy_authed] between two waits, of which [step_answer] and [step_fail] are the last. *)
Inductive step : Gateway * list Entry -> Gateway * list Entry -> Prop :=
| step_enter g live : step (g, live) (enter_request g, Waiting :: live)
| step_accept env h body e g g' a l1 l2 :
    accept env h body e g = (g', Ok a) -> step (g, l1 ++ Waiting :: l2) (g', l1 ++ Holding a.(a_held) :: l2)
| step_refuse env h body e g g' err l1 l2 :
    accept env h body e g = (g', Err err) -> step (g, l1 ++ Waiting :: l2) (leave_request g', l1 ++ l2)
| step_test g l1 l2 : step (g, l1 ++ Waiting :: l2) (g, l1 ++ Holding {| h_user := None; h_slots := [] |} :: l2)
| step_cancel g l1 l2 : step (g, l1 ++ Waiting :: l2) (leave_request g, l1 ++ l2)
| step_answer env h body e user key test json g g' ans held l1 l2 :
    proxy_authed env h body e user key test json g = (g', Ok ans) ->
    step (g, l1 ++ Holding held :: l2) (g', l1 ++ Holding held :: l2)
| step_fail env h body e user key test json g g' err held l1 l2 :
    proxy_authed env h body e user key test json g = (g', Err err) ->
    step (g, l1 ++ Holding held :: l2) (release held g', l1 ++ l2)
| step_end held g l1 l2 : step (g, l1 ++ Holding held :: l2) (release held g, l1 ++ l2)
| step_other g g' live : g'.(counters) = g.(counters) -> g'.(slots) = g.(slots) -> step (g, live) (g', live).

Lemma accept_cases env h body e g :
  let '(g', r) := accept env h body e g in
  match r with
  | Err _ => g'.(counters) = g.(counters) /\ g'.(slots) = g.(slots)
  | Ok a => exists w rules tpl jitter user key m c guard,
      Concurrency.apply_concurrency_limits rules tpl jitter user key m g.(slots) = Ok (c, guard) /\ a.(a_held).(h_slots) = guard /\
      g' = set_slots c (set_counters (enter_user a.(a_held).(h_user) g.(counters)) (set_world w g))
  end.
Proof.
  unfold Gateway.accept. destruct (authenticate _ _ _ _ _ _) as [[[user key]|err] w]; [|done]. destruct (ensure_endpoint_enabled _ _); [|done].
  destruct (parse_request_json _ _ _ _ _) as [json|]; [|done]. cbv zeta.
  destruct (Concurrency.apply_concurrency_limits _ _ _ _ _ _ _) as [[c guard]|] eqn:E; [|done]. cbn [a_held h_slots h_user].
  eexists w, _, _, _, _, _, _, c, guard. split; [exact E|done].
Qed.
Lemma authed_keeps env h body e user key test json g :
  let g' := (proxy_authed env h body e user key test json g).1 in g'.(counters) = g.(counters) /\ g'.(slots) = g.(slots).
Proof.
  unfold Gateway.proxy_authed. destruct (normalized_request e json) as [json' rw]. unfold choose.
  destruct (select _ _ _ _ _ _ _ _) as [[[st brk] alert] [sel|err]]; [|done]. destruct (sel_candidates sel) as [|p ps]; [done|].
  destruct (run_loop _ _ _ _ _ _ _ _) as [l r]. done.
Qed.
Lemma exact_same g g' live : g'.(counters) = g.(counters) -> g'.(slots) = g.(slots) -> exact g live -> exact g' live.
Proof. unfold exact. by intros -> ->. Qed.

Lemma step_exact x y : step x y -> exact x.1 x.2 -> exact y.1 y.2.
Proof.
  intros Hs. destruct Hs as [g live|env h body e g g' a l1 l2 Ha|env h body e g g' err l1 l2 Ha|g l1 l2|g l1 l2
    |env h body e user key test json g g' ans held l1 l2 Ha|env h body e user key test json g g' err held l1 l2 Ha|held g l1 l2|g g' live Hc Hl]; cbn [fst snd].
  - apply exact_enter.
  - intros H. pose proof (accept_cases env h body e g) as K. rewrite Ha in K. destruct K as (w & rules & tpl & j & u & k & m & c & guard & Eg & Eh & ->).
    apply (exact_hold (set_world w g) l1 l2 c (a_held a)); [exact H|]. rewrite Eh.
    eapply (Concurrency.accounted_step (fun _ => True)); [by eapply Concurrency.step_admit|].
    destruct H as [_ [H2 H3]]. split; [done|]. cbn in *. intros k'. rewrite H3, !fmap_app, fmap_cons, !concat_app. done.
  - intros H. pose proof (accept_cases env h body e g) as K. rewrite Ha in K. destruct K. apply exact_leave. by apply (exact_same g).
  - intros [H1 [H2 H3]]. split; [rewrite fmap_app in *; exact H1|]. split; [done|]. cbn in *. intros k. rewrite H3, !fmap_app. done.
  - apply exact_leave.
  - pose proof (authed_keeps env h body e user key test json g) as K. rewrite Ha in K. destruct K. by apply exact_same.
  - intros H. pose proof (authed_keeps env h body e user key test json g) as K. rewrite Ha in K. destruct K. apply exact_release. by apply (exact_same g).
  - apply exact_release.
  - by apply exact_same.
Qed.

Lemma history_exact x y : rtc step x y -> exact x.1 x.2 -> exact y.1 y.2.
Proof. induction 1 as [x|x y z Hxy _ IH]; [done|]. intros H. apply IH. by eapply step_exact. Qed.

(** A process that has just started. *)
Definition fresh (g : Gateway) : Prop := g.(counters) = Guards.init /\ g.(slots) = ∅.

(** C4: however the requests overlap, whichever are refused, fail or are cancelled, and whatever the configuration becomes
    meanwhile, the number of running requests is that of the requests under way, the number for a user and a model that of
    those that were admitted for them, and the count of every concurrency limit that of the requests that hold it; when
    the last one has ended nothing is left. *)
Theorem guards_never_leak g g' live :
  fresh g -> rtc step (g, []) (g', live) ->
  g'.(counters).(Guards.active_requests) = Z.of_nat (length live) /\
  (forall k, g'.(counters).(Guards.active_by_user) !! k =
             let n := GuardProofs.count k (user_of <$> live) in if bool_decide (n = 0) then None else Some n) /\
  (forall k, Concurrency.active_in g'.(slots) k = Concurrency.occ k (concat (slots_of <$> live))) /\
  (live = [] -> g'.(counters) = Guards.init /\ g'.(slots) = ∅).
Proof.
  intros [Hc Hl] Hs.
  assert (H : exact (g', live).1 (g', live).2).
  { assert (H0 : exact g []).  
    { split; cbn; rewrite ?Hc, ?Hl; [split; [done|intros k; cbn; apply lookup_empty]|]. split; [by apply map_Forall_empty|done]. }
    by apply (history_exact _ _ Hs). }
  cbn in H. destruct H as [[T U] [P A]]. cbn in *. split_and!; [by rewrite T, length_fmap|done|done|].
  intros ->. cbn in *. split.
  - destruct (counters g') as [n m]. cbn in *. unfold Guards.init. f_equal; [done|]. apply map_eq. intros k. by rewrite U, lookup_empty.
  - apply map_eq. intros k. rewrite lookup_empty. destruct (slots g' !! k) as [n|] eqn:E; [|done].
    specialize (P _ _ E). specialize (A k). unfold Concurrency.active_in in A. rewrite E in A. cbn in *. unfold Concurrency.occ in A. cbn in A. lia.
Qed.

(** The handlers are runs of these steps. *)
Lemma proxy_runs env h body e g live :
  let '(g', r) := proxy env h body e g in
  rtc step (g, live) (g', match r with Ok (_, held) => Holding held :: live | Err _ => live end).
Proof.
  unfold Gateway.proxy. destruct (accept env h body e (enter_request g)) as [g1 [a|err]] eqn:Ea.
  - destruct (proxy_authed _ _ _ _ _ _ _ _ _) as [g2 [ans|err]] eqn:Ep; (eapply rtc_l; [apply step_enter|]; eapply rtc_l; [by eapply (step_accept _ _ _ _ _ _ _ [])|]; apply rtc_once).
    + by eapply (step_answer _ _ _ _ _ _ _ _ _ _ _ _ []).
    + by eapply (step_fail _ _ _ _ _ _ _ _ _ _ _ _ []).
  - eapply rtc_l; [apply step_enter|]. apply rtc_once. by eapply (step_refuse _ _ _ _ _ _ _ []).
Qed.
Lemma proxy_test_runs env h body e g live :
  let '(g', r) := proxy_test env h body e g in
  rtc step (g, live) (g', match r with Ok (_, held) => Holding held :: live | Err _ => live end).
Proof.
  unfold Gateway.proxy_test. destruct (ensure_endpoint_enabled _ _) as [[]|err];
    [destruct (parse_request_json _ _ _ _ _) as [json|err]; [destruct (proxy_authed _ _ _ _ _ _ _ _ _) as [g2 [ans|err]] eqn:Ep|]|];
    (eapply rtc_l; [apply step_enter|]; eapply rtc_l; [apply (step_test _ [])|]; apply rtc_once).
  - by eapply (step_answer _ _ _ _ _ _ _ _ _ _ _ _ []).
  - by eapply (step_fail _ _ _ _ _ _ _ _ _ _ _ _ []).
  - apply (step_end _ _ []).
  - apply (step_end _ _ []).
Qed.
End steps.
