(* ===== verification/GatewayEffects.v ===== *)
(** * What a request causes

The requests that the gateway sends to providers while it serves one request of a client ([Gateway]): to whom they go, on
whose behalf and with which credentials, and that the answer depends on no other. *)

From S2P Require Import Prelude Float Json Errors RateLimit Breaker Routing Calendar Plans Metering Body Streams Chat ErrorShape Rectify Upstream.
From S2P Require Import ConfigTables Database PlanConfig Accounts ConfigAdmin ConfigHistory Pipeline Intake Gateway.

Local Open Scope Z_scope.

(** ** Lemmas on the components *)

Lemma filter_allowed_sub {T} now (id_of : T -> Z) l s x : x ∈ (filter_allowed now id_of l s).2 -> x ∈ l.
Proof.
  revert s. induction l as [|c l IH]; intros s; cbn; [done|]. destruct (Breaker.allow now (id_of c) s) as [s1 b].
  specialize (IH s1). destruct (filter_allowed now id_of l s1) as [s2 l']. cbn in *. destruct b; rewrite ?elem_of_cons; naive_solver.
Qed.
Lemma filter_candidates_sub {T} now (id_of : T -> Z) l s l' x : (filter_candidates now id_of l s).2 = Some l' -> x ∈ l' -> x ∈ l.
Proof.
  unfold filter_candidates. pose proof (filter_allowed_sub now id_of l s x) as H. destruct (filter_allowed now id_of l s) as [s' [|y k]]; [done|].
  cbn in *. intros [= <-]. exact H.
Qed.

(** The model that a request asks for is the one the quota of the user leaves it: the one it names, or the one its plan
    downgrades to. *)
Definition granted `{C : Calendar} (st : PlanState) (user : option Z) (local_now now : Z) (named model : string) : Prop :=
  match user with
  | None => model = named
  | Some u => exists st' alert dec, check_plan st u local_now now named = (st', alert, Ok dec) /\ model = default named dec.(downgrade_to)
  end.

(** The providers a request may be tried on. *)
Lemma select_candidates `{C : Calendar} cfg e user json ln now st brk st' brk' al sel p :
  select cfg e user json ln now st brk = (st', brk', al, Ok sel) -> p ∈ sel.(sel_candidates) ->
  (exists named, requested_model json = Some named /\ granted st user ln now named sel.(sel_model)) /\
  resolve_route cfg.(cfg_routes) sel.(sel_model) = Some sel.(sel_route) /\ p ∈ cfg.(cfg_providers) /\
  (p.(id) = sel.(sel_route).(provider_id) \/ p.(id) ∈ sel.(sel_route).(fallback_ids)) /\
  usable cfg sel.(sel_route) sel.(sel_model) p = true /\ authorised cfg user sel.(sel_model) p = true /\ supported_pairing e p = true.
Proof.
  unfold select. destruct (requested_model json) as [m0|]; [|done].
  destruct (match user with Some uid => _ | None => _ end) as [[st1 al1] [dec|err]] eqn:Ed; [|done].
  destruct (match downgrade_to dec with Some m => _ | None => _ end) as [[json' mdl] down] eqn:Em.
  destruct (resolve_route (cfg_routes cfg) mdl) as [route|] eqn:Er; [|done].
  pose proof (choose_candidates_spec cfg e user mdl route) as Hc. destruct (choose_candidates cfg e user mdl route) as [l|err]; [|done].
  cbv zeta in Hc. destruct Hc as [_ ->]. set (ok := List.filter _ _).
  pose proof (fun l' => filter_candidates_sub now id ok brk l' p) as Hs.
  destruct (filter_candidates now id ok brk) as [brk2 al2]. cbn [snd] in Hs.
  destruct (match al2 with Some l => (l, false) | None => (ok, true) end) as [cands byp] eqn:Ec. intros [= <- <- <- <-] Hp. cbn in *.
  assert (Hin : p ∈ ok) by (destruct al2; injection Ec as <- <-; [by eapply Hs|done]).
  apply elem_of_filter_list in Hin as [Hin [[H1 H2]%andb_true_iff H3]%andb_true_iff].
  destruct (resolve_candidates_spec (cfg_providers cfg) route) as (_ & Hsub & Hids & _). split_and!; try done; [|by apply Hsub|].
  - exists m0. split; [done|]. unfold granted. destruct user as [u|].
    + exists st1, al1, dec. split; [exact Ed|]. by destruct (downgrade_to dec); injection Em as <- <- <-.
    + injection Ed as <- <- <-. cbn in Em. by injection Em as <- <- <-.
  - apply Hids. by apply list_elem_of_fmap_2.
Qed.

(** The normalisation of a request keeps the model it names. *)
Lemma on_array_model k f json : k <> "model" -> requested_model (Body.on_array k f json).1 = requested_model json.
Proof.
  intros Hk. unfold requested_model, get_str, get, Body.on_array. destruct json as [| | | | |m]; try done. destruct (Map.get k m) as [[| | | |l|]|]; try done.
  destruct (f l) as [l' c]. cbn. by rewrite Map.get_insert_ne by done.
Qed.
Lemma normalized_model e json : requested_model (normalized_request e json).1 = requested_model json.
Proof.
  unfold normalized_request, normalize_chat_roles, normalize_tools. destruct (anthropic e); [done|].
  pose proof (on_array_model "messages" (map_changed normalize_role) json ltac:(done)) as H1. destruct (Body.on_array "messages" _ json) as [j1 c1].
  pose proof (on_array_model "input" (map_changed normalize_item) j1 ltac:(done)) as H2. destruct (Body.on_array "input" _ j1) as [j2 c2]. cbn in *.
  destruct (responses e); [cbn; congruence|].
  match goal with |- context [Body.on_array "tools" ?f j2] => pose proof (on_array_model "tools" f j2 ltac:(done)) as H3; destruct (Body.on_array "tools" f j2) end.
  cbn in *. congruence.
Qed.

(** The path a request is sent to: that of Chat when the dialect of the client is converted, else that of the endpoint. *)
Definition path_to (e : Endpoint) (p : Provider) : string :=
  if anthropic_should_convert e.(anthropic) p || responses_should_convert e.(responses) p then "/chat/completions" else e.(upstream).
Lemma build_outbound_path ac rc en sm cfg e sel p st rw he o path :
  build_outbound ac rc en sm cfg e sel p st rw he = Some (Ok (o, path)) -> path = path_to e p.
Proof.
  unfold build_outbound, path_to. destruct (build_outbound_raw _ _ _ _ _ _ _ _ _ _) as [[[o' path']|err]|] eqn:E; [|discriminate|discriminate].
  assert (H : path' = if anthropic_should_convert e.(anthropic) p || responses_should_convert e.(responses) p then "/chat/completions" else e.(upstream)).
  { revert E. unfold build_outbound_raw. destruct (anthropic_should_convert _ _); cbn [orb]; [|destruct (responses_should_convert _ _)].
    - destruct (ac _ _ _) as [chat|]; [|discriminate]. by intros (? & _ & (? & _ & [= <- <-])%bind_Some)%bind_Some.
    - destruct (en _); [|discriminate]. destruct (rc _ _) as [chat|]; [|discriminate]. by intros (? & _ & (? & _ & [= <- <-])%bind_Some)%bind_Some.
    - destruct (_ && _); [|destruct (needs_rebuild _ _ _ _ _)].
      + by intros (? & _ & (? & _ & [= <- <-])%bind_Some)%bind_Some.
      + by intros (? & _ & [= <- <-])%bind_Some.
      + by intros [= <- <-]. }
  cbn [mbind option_bind]. destruct (supports_images p); intros [= _ <-]; exact H.
Qed.

Lemma authenticate_reads now sha to_str cfg h w :
  (authenticate now sha to_str cfg h w).2.(caches) = w.(caches) /\ (authenticate now sha to_str cfg h w).2.(db) = w.(db).
Proof.
  unfold authenticate. destruct (negb _); [done|]. destruct (client_key _ _); [|done]. destruct (_ <? 16)%nat; [done|].
  unfold bind, find_all_by_prefix, query, stmt. destruct (default false _); [done|]. cbn [fst snd].
  destruct (match_candidate _ _ _) as [r|]; [|done]. destruct (match ak_expires_at r with Some e => e <=? now | None => false end); [done|].
  by destruct (negb (ak_user_status r =? 1)).
Qed.
Lemma authenticate_nobody now sha to_str cfg h w k : (authenticate now sha to_str cfg h w).1 = Ok (None, k) -> cfg.(auth_required) = false.
Proof.
  unfold authenticate. destruct (auth_required cfg); [|done]. cbn [negb]. destruct (client_key _ _); [|done]. destruct (_ <? 16)%nat; [done|].
  unfold bind, find_all_by_prefix, query, stmt. destruct (default false _); [done|]. cbn [fst snd].
  destruct (match_candidate _ _ _) as [r|]; [|done]. destruct (match ak_expires_at r with Some e => e <=? now | None => false end); [done|].
  by destruct (negb (ak_user_status r =? 1)).
Qed.

(** The retry after a refusal depends on the upstream only through what it is sent. *)
Lemma rectify_agree show parse lossy low re native (f f' : string -> Rectify.headers -> result Response string) data h :
  (forall bc, bc ∈ (send_with_rectify show parse lossy low re native f data h).2 -> f' bc.1 bc.2 = f bc.1 bc.2) ->
  send_with_rectify show parse lossy low re native f' data h = send_with_rectify show parse lossy low re native f data h.
Proof.
  unfold send_with_rectify. intros H.
  assert (E : f' data h = f data h).
  { apply (H (data, h)). destruct (f data h) as [resp|]; [|apply list_elem_of_here]. destruct (_ || _); [apply list_elem_of_here|].
    destruct (rectify_outbound _ _ _ _ _ _ _ _); apply list_elem_of_here. }
  rewrite E. destruct (f data h) as [resp|]; [|done]. destruct (negb re || _); [done|].
  destruct (rectify_outbound _ _ _ _ _ _ _ _) as [fixed|]; [|done]. cbn [snd] in H. specialize (H (fixed, _) ltac:(right; left)). cbn in H. by rewrite H.
Qed.

Lemma walk_ext f f' ps s : (forall p s, p ∈ ps -> f' p s = f p s) -> walk f' ps s = walk f ps s.
Proof.
  revert s. induction ps as [|p ps IH]; intros s H; [done|]. cbn [walk]. rewrite (H p s) by apply list_elem_of_here.
  destruct (f p s) as [s1 [r|]]; [done|]. apply IH. intros q s' Hq. apply H. by right.
Qed.
Lemma run_attempt_ext d bcfg e cb st att att' p s : att' p = att p -> run_attempt d bcfg e cb st att' p s = run_attempt d bcfg e cb st att p s.
Proof. intros H. unfold run_attempt. destruct st; unfold attempt_stream, attempt_plain; by rewrite H. Qed.
Lemma run_loop_ext d bcfg e cb st att att' first ps b :
  (forall p, p ∈ ps -> att' p = att p) -> run_loop d bcfg e cb st att' first ps b = run_loop d bcfg e cb st att first ps b.
Proof. intros H. apply run_loop_same. apply walk_ext. intros p s Hp. apply run_attempt_ext. by apply H. Qed.

(** ** The requests to providers *)

Definition with_transport (t : Request -> option (result Response string)) (env : Env) : Env :=
  {| e_now := env.(e_now); e_local_now := env.(e_local_now); e_jitter := env.(e_jitter); e_request_id := env.(e_request_id);
     e_client_ip := env.(e_client_ip); e_transport := t; e_items := env.(e_items); e_allow := env.(e_allow); e_done := env.(e_done) |}.

Section effects.
Context `{C : Calendar}.
Context (codecs : Codecs) (from_slice : string -> result Value string) (to_str header_name header_value : string -> option string).
Context (sha256_hex : string -> string) (acfg : AuthConfig) (static : Static).
Context (anthropic_convert : Value -> string -> string -> result Value string) (responses_convert : Value -> string -> result Value string).
Context (enrich : list (string * Value) -> Value -> result Value string).
Context (to_lowercase : string -> string) (decrypt : string -> option string) (builder_error : string) (d : Deps).
Local Abbreviation accept := (accept codecs from_slice to_str sha256_hex acfg static).
Local Abbreviation choose := (choose static).
Local Abbreviation sends := (sends to_str header_name header_value static anthropic_convert responses_convert enrich to_lowercase decrypt builder_error d).
Local Abbreviation attempt := (attempt to_str header_name header_value static anthropic_convert responses_convert enrich to_lowercase decrypt builder_error d).
Local Abbreviation exchange := (exchange to_str header_name header_value static to_lowercase builder_error d).
Local Abbreviation proxy_authed :=
  (proxy_authed to_str header_name header_value static anthropic_convert responses_convert enrich to_lowercase decrypt builder_error d).
Local Abbreviation proxy :=
  (proxy codecs from_slice to_str header_name header_value sha256_hex acfg static anthropic_convert responses_convert enrich to_lowercase decrypt builder_error d).

(** The requests that the pipeline sends for an admitted request: those of every provider it may be tried on. *)
Definition pipeline_requests (env : Env) (h : headers) (body : string) (e : Endpoint) (user : option Z) (json : Value) (g : Gateway)
    : list (Provider * Request) :=
  let '(json, rw) := normalized_request e json in
  let '(g, r) := choose env e user json g in
  match r with
  | Err _ => []
  | Ok sel => tried (config_of static g) sel.(sel_candidates) ≫= fun p => pair p <$> sends env h body e g sel rw (is_streaming sel) p
  end.
Definition requests (env : Env) (h : headers) (body : string) (e : Endpoint) (g : Gateway) : list (Provider * Request) :=
  match accept env h body e (enter_request g) with
  | (_, Err _) => []
  | (g, Ok a) => pipeline_requests env h body e a.(a_user) a.(a_json) g
  end.

(** *** Nothing else is sent *)

Lemma attempt_agree env t h body e g sel rw st p :
  (forall q, q ∈ sends env h body e g sel rw st p -> t q = env.(e_transport) q) ->
  attempt (with_transport t env) h body e g sel rw st p = attempt env h body e g sel rw st p.
Proof.
  intros H. unfold Gateway.attempt. f_equal. unfold attempt_reply, Gateway.sends in *.
  change (outbound to_str static anthropic_convert responses_convert enrich d h body e g sel rw st p) with
    (Gateway.outbound to_str static anthropic_convert responses_convert enrich d h body e g sel rw st p) in *.
  destruct (Gateway.outbound _ _ _ _ _ _ _ _ _ _ _ _ _ p) as [[data path]|err]; [|done]. destruct (decrypt (api_key_encrypted p)) as [key|]; [|done].
  assert (E : exchange (with_transport t env) h e g sel st p key path data = exchange env h e g sel st p key path data); [|by rewrite E].
  unfold Gateway.exchange in *. apply rectify_agree.
  intros [data' client] Hin. cbn [fst snd]. unfold send, send_upstream. cbn [e_request_id e_transport with_transport].
  specialize (H (request_to to_str header_name header_value static env e g sel st p key path data' client)).
  unfold request_to in H. rewrite H; [done|]. apply (list_elem_of_fmap_2' _ _ (data', client)); done.
Qed.

Lemma authed_agree env t h body e user key test json g :
  (forall p q, (p, q) ∈ pipeline_requests env h body e user json g -> t q = env.(e_transport) q) ->
  proxy_authed (with_transport t env) h body e user key test json g = proxy_authed env h body e user key test json g.
Proof.
  unfold pipeline_requests, Gateway.proxy_authed. destruct (normalized_request e json) as [json' rw].
  change (choose (with_transport t env) e user json' g) with (choose env e user json' g).
  destruct (choose env e user json' g) as [g' [sel|err]]; [|done]. intros H. destruct (sel_candidates sel) as [|first ps] eqn:Es; [done|]. cbv zeta.
  rewrite (run_loop_ext _ _ _ _ _ (attempt env h body e g' sel rw (is_streaming sel))); [done|].
  intros p Hp. apply attempt_agree. intros q Hq. apply (H p). rewrite list_elem_of_bind. exists p. split; [|exact Hp]. rewrite list_elem_of_fmap. by exists q.
Qed.

(** What the gateway answers, and what it then holds, depends on the network only through these requests. *)
Lemma no_other_request env t h body e g :
  (forall p q, (p, q) ∈ requests env h body e g -> t q = env.(e_transport) q) ->
  proxy (with_transport t env) h body e g = proxy env h body e g.
Proof.
  unfold requests, Gateway.proxy. change (accept (with_transport t env) h body e (enter_request g)) with (accept env h body e (enter_request g)).
  destruct (accept env h body e (enter_request g)) as [g' [a|err]]; [|done]. intros H. by rewrite authed_agree.
Qed.

(** *** To whom, for whom and with which credentials *)

Lemma accept_keeps_caches env h body e g g' a :
  accept env h body e g = (g', Ok a) ->
  g'.(world).(caches) = g.(world).(caches) /\ (authenticate env.(e_now) sha256_hex to_str acfg h g.(world)).1 = Ok (a.(a_user), a.(a_key)) /\
  parse_request_json codecs from_slice to_str body h = Ok a.(a_json) /\ plan_state g' = plan_state g.
Proof.
  unfold Gateway.accept. pose proof (authenticate_reads (e_now env) sha256_hex to_str acfg h (world g)) as [Hc _].
  destruct (authenticate _ _ _ _ _ _) as [[[user key]|err] w]; [|done]. destruct (ensure_endpoint_enabled _ _); [|done].
  destruct (parse_request_json _ _ _ _ _) as [json|]; [|done]. cbv zeta.
  destruct (Concurrency.apply_concurrency_limits _ _ _ _ _ _ _) as [[c guard]|]; [|done]. intros [= <- <-]. cbn in Hc. split_and!; try done.
  unfold plan_state. cbn. by rewrite Hc.
Qed.
Lemma sends_elem env h body e g sel rw st p q :
  q ∈ sends env h body e g sel rw st p ->
  exists key path data client, decrypt p.(api_key_encrypted) = Some key /\ path = path_to e p /\
    q = request_to to_str header_name header_value static env e g sel st p key path data client.
Proof.
  unfold Gateway.sends. destruct (Gateway.outbound _ _ _ _ _ _ _ _ _ _ _ _ _ p) as [[data path]|err] eqn:Eo; [|intros []%elem_of_nil].
  destruct (decrypt (api_key_encrypted p)) as [key|]; [|intros []%elem_of_nil]. intros ([data' client] & -> & _)%list_elem_of_fmap.
  exists key, path, data', client. split_and!; try done. unfold Gateway.outbound in Eo.
  destruct (build_outbound _ _ _ _ _ _ _ _ _ _ _) as [[[o path']|]|] eqn:Eb; try done. injection Eo as _ <-. by eapply build_outbound_path.
Qed.

Lemma request_to_credentials root env e g sel st p key path data client hs :
  (forall s n, header_name s = Some n -> n = to_ascii_lowercase s) -> cached root g.(world).(caches) -> p ∈ (conf_of g).(c_providers) ->
  (request_to to_str header_name header_value static env e g sel st p key path data client).(req_headers) = Some hs ->
  exists v, header_value (if x_api_key p then key else "Bearer " +:+ key) = Some v /\
    List.filter is_credential hs = [(if x_api_key p then "x-api-key" else "authorization", v)].
Proof.
  intros Hl [C1 _ C3 _ _] Hp Hh. rewrite Forall_forall in C1. unfold request_to in Hh.
  apply (request_credentials header_name header_value to_str Hl) in Hh; [|done|by apply C1].
  unfold auth_header, put_str in Hh. destruct (x_api_key p); cbn in Hh;
    match type of Hh with context [header_value ?x] => destruct (header_value x) as [v|]; [|done] end; cbn in Hh; injection Hh as ->; by exists v.
Qed.

(** What a request of a client entitles the gateway to ask of a provider. *)
Definition entitled (env : Env) (h : headers) (body : string) (e : Endpoint) (g : Gateway) (p : Provider) (q : Request) : Prop :=
  exists user key json named model route secret,
    (authenticate env.(e_now) sha256_hex to_str acfg h g.(world)).1 = Ok (user, key) /\
    parse_request_json codecs from_slice to_str body h = Ok json /\ requested_model json = Some named /\
    granted (plan_state g) user env.(e_local_now) env.(e_now) named model /\
    resolve_route (conf_of g).(c_routes) model = Some route /\
    p ∈ (conf_of g).(c_providers) /\ (p.(id) = route.(provider_id) \/ p.(id) ∈ route.(fallback_ids)) /\
    model_disabled (conf_of g).(c_disabled) p.(id) (outbound_model route model) = false /\
    match user with
    | None => acfg.(auth_required) = false
    | Some u => u ∈ g.(world).(caches).(Database.admin_ids) \/ user_can_use (conf_of g).(c_access) u p.(id) model = true
    end /\
    pairing_unsupported e p = None /\
    q.(url) = upstream_url p.(base_url) (path_to e p) /\
    decrypt p.(api_key_encrypted) = Some secret /\
    forall hs, q.(req_headers) = Some hs ->
      exists v, header_value (if x_api_key p then secret else "Bearer " +:+ secret) = Some v /\
        List.filter is_credential hs = [(if x_api_key p then "x-api-key" else "authorization", v)].

Lemma requests_entitled root env h body e g p q :
  (forall s n, header_name s = Some n -> n = to_ascii_lowercase s) -> cached root g.(world).(caches) ->
  (p, q) ∈ requests env h body e g -> entitled env h body e g p q.
Proof.
  intros Hl Hc. unfold requests. destruct (accept env h body e (enter_request g)) as [g1 [a|err]] eqn:Ea; [|intros []%elem_of_nil].
  destruct (accept_keeps_caches _ _ _ _ _ _ _ Ea) as (Ew & Hauth & Hjson & Hplan). cbn [world enter_request set_counters] in Ew, Hauth.
  unfold pipeline_requests. pose proof (normalized_model e (a_json a)) as Hm. destruct (normalized_request e (a_json a)) as [json rw]. cbn [fst] in Hm. unfold Gateway.choose.
  destruct (select _ _ _ _ _ _ _ _) as [[[st brk] al] [sel|err]] eqn:Es; [|intros []%elem_of_nil].
  intros (p' & (q' & [= <- <-] & Hq)%list_elem_of_fmap & Hp)%list_elem_of_bind.
  apply sends_elem in Hq as (secret & path & data & client & Hdec & -> & ->).
  assert (Hin : p ∈ sel_candidates sel) by (unfold tried in Hp; by apply elem_of_take in Hp as (i & Hi & _); eapply list_elem_of_lookup_2).
  destruct (select_candidates _ _ _ _ _ _ _ _ _ _ _ _ p Es Hin) as ((named & Hn & Hg) & H1 & H2 & H0 & H3 & H4 & H5).
  assert (Hcred := fun hs => request_to_credentials root env e _ sel (is_streaming sel) p secret (path_to e p) data client hs Hl
                     ltac:(cbn [world]; rewrite Ew; exact Hc) H2).
  rewrite Hplan in Hg. unfold usable, authorised, supported_pairing, config_of, conf_of in H1, H2, H3, H4, H5. cbn in H1, H2, H3, H4. rewrite Ew in H1, H2, H3, H4.
  exists (a_user a), (a_key a), (a_json a), named, (sel_model sel), (sel_route sel), secret. split_and!; try done.
  - congruence.
  - by apply negb_true_iff in H3.
  - destruct (a_user a) as [u|]; [|by eapply authenticate_nobody].
    case_bool_decide; [by left|by right].
  - by destruct (pairing_unsupported e p).
Qed.


(** C5: nothing but what a client is entitled to can influence its request: two networks that answer alike the requests the client
    is entitled to ([entitled]: model, route, provider, rights, address and credential) cannot be told apart, neither by the
    answer nor by anything the gateway keeps of the request, its accounting, its breakers and its counters included. So no
    other provider is asked, and no provider in any other name or with another key. The caches are those that the
    administration can produce ([cached]); names of headers are taken to be in lower case. *)
Theorem network_confined root env t h body e g :
  (forall s n, header_name s = Some n -> n = to_ascii_lowercase s) -> cached root g.(world).(caches) ->
  (forall p q, entitled env h body e g p q -> t q = env.(e_transport) q) ->
  proxy (with_transport t env) h body e g = proxy env h body e g.
Proof. intros Hl Hc H. apply no_other_request. intros p q Hq. apply (H p), (requests_entitled root); done. Qed.

(** *** Refusals and tests *)

Lemma accept_refuses env h body e g g' err :
  accept env h body e g = (g', Err err) ->
  exists w, g' = set_world w g /\ w.(db) = g.(world).(db) /\ w.(caches) = g.(world).(caches).
Proof.
  unfold Gateway.accept. pose proof (authenticate_reads (e_now env) sha256_hex to_str acfg h (world g)) as [Hc Hd].
  destruct (authenticate _ _ _ _ _ _) as [[[user key]|err'] w]; cbn in Hc, Hd; [|intros [= <- _]; by exists w].
  destruct (ensure_endpoint_enabled _ _); [|intros [= <- _]; by exists w].
  destruct (parse_request_json _ _ _ _ _) as [json|]; [|intros [= <- _]; by exists w]. cbv zeta.
  destruct (Concurrency.apply_concurrency_limits _ _ _ _ _ _ _) as [[c guard]|]; [done|intros [= <- _]; by exists w].
Qed.

(** C6: a request that is refused because of its key, its endpoint, its body or a concurrency limit leaves no trace: the
    tables, the caches, the counters, the slots, the breakers, the usage of plans and the accounting are as before, no
    provider is asked, and the answer is the refusal with the identifier of the request. *)
Theorem refusal_leaves_no_trace env h body e g g1 err :
  accept env h body e (enter_request g) = (g1, Err err) ->
  requests env h body e g = [] /\
  exists w, proxy env h body e g = (set_world w g, Err (with_request_id err env.(e_request_id))) /\
    w.(db) = g.(world).(db) /\ w.(caches) = g.(world).(caches).
Proof.
  intros Ha. unfold requests, Gateway.proxy. rewrite Ha. split; [done|]. apply accept_refuses in Ha as (w & -> & Hd & Hc). exists w. split_and!; [|done|done].
  unfold with_id. f_equal. destruct g as [gw [n m] gs gp ga gb gr gc go]. unfold leave_request, enter_request, set_world, set_counters, Guards.leave, Guards.enter. cbn.
  do 2 f_equal. lia.
Qed.

(** The tests of an administrator are never accounted for: every call they make is one that [record] ignores. *)
Theorem tests_not_accounted env h body e g :
  let g' := (proxy_test codecs from_slice to_str header_name header_value static anthropic_convert responses_convert enrich to_lowercase decrypt
               builder_error d env h body e g).1 in
  exists l, g'.(calls) = g.(calls) ++ l /\ Forall (fun c => c.1.1.(test_call) = true) l.
Proof.
  cbv zeta. unfold proxy_test. destruct (ensure_endpoint_enabled _ _); [|exists []; cbn; by rewrite app_nil_r].
  destruct (parse_request_json _ _ _ _ _) as [json|]; [|exists []; cbn; by rewrite app_nil_r].
  assert (H : exists l, (proxy_authed env h body e None None true json (enter_request g)).1.(calls) = g.(calls) ++ l /\ Forall (fun c => c.1.1.(test_call) = true) l).
  { unfold Gateway.proxy_authed. destruct (normalized_request e json) as [json' rw]. unfold Gateway.choose.
    destruct (select _ _ _ _ _ _ _ _) as [[[st brk] al] [sel|err]]; [|exists []; cbn; by rewrite app_nil_r].
    destruct (sel_candidates sel) as [|p ps]; [exists []; cbn; by rewrite app_nil_r|]. destruct (run_loop _ _ _ _ _ _ _ _) as [l r].
    eexists. split; [done|]. apply Forall_forall. intros c (b & -> & _)%list_elem_of_fmap. done. }
  destruct (proxy_authed _ _ _ _ _ _ _ _ _) as [g2 [ans|err]]; exact H.
Qed.
End effects.
