(* ===== verification/Catalog.v ===== *)
(** * The list of models

[GET /v1/models] of [src/api/v1.rs]: the models of the catalog that the user may use, with what they guarantee wherever
they are routed, and the names of routes that lead to such a model. *)

From S2P Require Import Prelude Float Json Errors RateLimit Breaker Routing Calendar Plans Metering Body Streams Chat ErrorShape Rectify Upstream.
From S2P Require Import ConfigTables Database PlanConfig ConfigStore Accounts ConfigAdmin ConfigHistory Pipeline Intake Gateway.

Local Open Scope Z_scope.

(** ** Merging what several providers offer *)

Definition merge_min_opt (acc next : option Z) : option Z :=
  match acc, next with Some a, Some b => Some (Z.min a b) | Some a, None => Some a | None, b => b end.
Definition rank (c : option string) : Z :=
  match c with
  | None => 0
  | Some c => if bool_decide (c = "text") then 1 else if bool_decide (c = "vision") then 2 else 3
  end.
Definition merge_capability (acc next : option string) : option string := if rank acc <=? rank next then acc else next.

(** ** The list *)

(** The enabled models of enabled providers. The query names no order: [listed] is defined and its limits hold for any. *)
Definition catalog (t : ConfigTables) : list AdminModel :=
  List.filter (fun m => m.(mo_enabled) && match t.(providers) !! m.(mo_provider) with Some p => p.(pr_enabled) | None => false end)
    (rows t.(models)).

Record Listed : Type := { li_id : string; li_context : option Z; li_max_output : option Z; li_capability : option string }.
Definition model_object (x : Listed) : Value :=
  json_object ([("id", VString x.(li_id)); ("object", VString "model"); ("owned_by", VString "llm-gateway")] ++
    match x.(li_context) with
    | Some n => [("context_length", of_int n); ("context_window", of_int n); ("max_model_len", of_int n)]
    | None => []
    end ++
    match x.(li_max_output) with Some n => [("max_output_tokens", of_int n); ("max_completion_tokens", of_int n)] | None => [] end ++
    match x.(li_capability) with Some c => [("capability", VString c)] | None => [] end).
(** A name that has been listed is not listed again. *)
Definition push (data : list Listed) (x : Listed) : list Listed :=
  if existsb (fun y => bool_decide (y.(li_id) = x.(li_id))) data then data else data ++ [x].

Section listing.
Context (can_use : Z -> string -> bool).

(** A table that merges a column over the rows the user may use, by model; [seed] starts an entry. *)
Definition merged {A} (merge : A -> A -> A) (seed value : AdminModel -> A) (rows : list AdminModel) : gmap string A :=
  foldl (fun t r => if can_use r.(mo_provider) r.(mo_model)
                    then <[r.(mo_model) := merge (default (seed r) (t !! r.(mo_model))) (value r)]> t else t) ∅ rows.
Definition catalog_ctx : list AdminModel -> gmap string (option Z) := merged merge_min_opt (fun _ => None) mo_context_length.
Definition catalog_cap : list AdminModel -> gmap string (option string) := merged merge_capability mo_capability mo_capability.
Definition catalog_max_out : list AdminModel -> gmap string (option Z) := merged merge_min_opt (fun _ => None) mo_max_output_tokens.

Definition catalog_entry (rows : list AdminModel) (m : string) : Listed :=
  {| li_id := m; li_context := catalog_ctx rows !! m ≫= (fun x => x); li_max_output := catalog_max_out rows !! m ≫= (fun x => x);
     li_capability := catalog_cap rows !! m ≫= (fun x => x) |}.
Definition catalog_part (rows : list AdminModel) : list Listed :=
  foldl push [] ((fun r => catalog_entry rows r.(mo_model)) <$> List.filter (fun r => can_use r.(mo_provider) r.(mo_model)) rows).
(** The name of a route, with what its model offers at the provider of the route. *)
Definition alias (rows : list AdminModel) (r : ModelRoute) : option Listed :=
  if ends_with_char "*" r.(model_pattern) then None
  else
    m ← List.find (fun m => (m.(mo_provider) =? r.(provider_id)) && bool_decide (m.(mo_model) = default r.(model_pattern) r.(upstream_model))) rows;
    if can_use r.(provider_id) r.(model_pattern)
    then Some {| li_id := r.(model_pattern); li_context := m.(mo_context_length); li_max_output := m.(mo_max_output_tokens);
                 li_capability := m.(mo_capability) |} else None.

Definition listed (rows : list AdminModel) (routes : list ModelRoute) : list Listed :=
  foldl push (catalog_part rows) (omap (alias rows) routes).
End listing.

Definition can_use (c : Caches) (user : option Z) (pid : Z) (model : string) : bool :=
  match user with
  | None => true
  | Some u => bool_decide (u ∈ c.(Database.admin_ids)) || user_can_use c.(conf).(c_access) u pid model
  end.

(** The handler: a key that is not accepted counts as no key, and a query that fails as an empty catalog. *)
Definition models (now : Z) (sha256_hex : string -> string) (to_str : string -> option string) (acfg : AuthConfig) (h : list (string * string)) :
    World -> Value * World :=
  fun w =>
    let '(auth, w) := authenticate now sha256_hex to_str acfg h w in
    let user := match auth with Ok (user, _) => user | Err _ => None end in
    let '(rows, w) := query (fun s => catalog s.(config)) w in
    let rows := match rows with Ok rows => rows | Err _ => [] end in
    (json_object [("object", VString "list");
                  ("data", VArray (model_object <$> listed (can_use w.(caches) user) rows w.(caches).(conf).(c_routes)))], w).

(** ** Properties *)

(** *** What is listed holds wherever the model is routed *)

Section guarantees.
Context (usable : Z -> string -> bool).

Lemma merged_below {A} (R : A -> A -> Prop) (merge : A -> A -> A) seed value rows r :
  (forall a b, R (merge a b) a) -> (forall a b, R (merge a b) b) -> (forall a b c, R a b -> R b c -> R a c) ->
  r ∈ rows -> usable r.(mo_provider) r.(mo_model) = true ->
  exists v, merged usable merge seed value rows !! r.(mo_model) = Some v /\ R v (value r).
Proof.
  intros H1 H2 H3. unfold merged. induction rows as [|x rows IH] using rev_ind; [by intros []%elem_of_nil|].
  rewrite foldl_app. cbn [foldl]. set (t := foldl _ _ rows) in *. intros [Hr|Hr]%elem_of_app Hu.
  - destruct (IH Hr Hu) as (v & Hv & HR). destruct (usable (mo_provider x) (mo_model x)); [|by exists v].
    destruct (decide (mo_model x = mo_model r)) as [E|E]; [|exists v; by rewrite lookup_insert_ne].
    rewrite E, lookup_insert_eq, Hv. eexists. split; [done|]. cbn. by eapply H3; [apply H1|].
  - apply list_elem_of_singleton in Hr as <-. rewrite Hu, lookup_insert_eq. eexists. split; [done|]. apply H2.
Qed.

Definition at_most (a b : option Z) : Prop := forall n, b = Some n -> exists m, a = Some m /\ m <= n.
Lemma merge_min_below a b : at_most (merge_min_opt a b) a /\ at_most (merge_min_opt a b) b.
Proof. split; intros n Hn; subst; [destruct b|destruct a]; cbn; eexists; (split; [done|lia]). Qed.
Lemma at_most_trans a b c : at_most a b -> at_most b c -> at_most a c.
Proof. intros H1 H2 n Hn. destruct (H2 n Hn) as (m & Hm & ?). destruct (H1 m Hm) as (k & -> & ?). exists k. split; [done|lia]. Qed.
Lemma merge_capability_below a b : rank (merge_capability a b) <= rank a /\ rank (merge_capability a b) <= rank b.
Proof. unfold merge_capability. destruct (Z.leb_spec (rank a) (rank b)); lia. Qed.

Lemma push_ids data x : li_id <$> push data x = (li_id <$> data) \/ (x.(li_id) ∉ (li_id <$> data) /\ li_id <$> push data x = (li_id <$> data) ++ [x.(li_id)]).
Proof.
  unfold push. destruct (existsb _ _) eqn:E; [by left|]. right. split; [|by rewrite fmap_app].
  intros (y & Ey & Hy)%list_elem_of_fmap. assert (K : existsb (fun y => bool_decide (li_id y = li_id x)) data = true); [|congruence].
  apply existsb_exists. exists y. split; [by apply list_elem_of_In|]. by apply bool_decide_eq_true.
Qed.
Lemma push_all_nodup l data : NoDup (li_id <$> data) -> NoDup (li_id <$> foldl push data l).
Proof.
  revert data. induction l as [|x l IH]; intros data H; [done|]. apply IH. destruct (push_ids data x) as [->|[Hn ->]]; [done|].
  apply NoDup_app. split_and!; [done|set_solver|apply NoDup_singleton].
Qed.
Lemma push_elem data x y : y ∈ push data x -> y ∈ data \/ (y = x /\ x.(li_id) ∉ (li_id <$> data)).
Proof.
  destruct (push_ids data x) as [E|[Hn _]]; unfold push in *; destruct (existsb _ _); try (by left).
  - rewrite fmap_app in E. apply (f_equal length) in E. rewrite length_app in E. cbn in E. lia.
  - rewrite elem_of_app, list_elem_of_singleton. intros [?| ->]; [by left|by right].
Qed.
Lemma push_grows data x i : i ∈ (li_id <$> data) \/ i = x.(li_id) -> i ∈ (li_id <$> push data x).
Proof.
  unfold push. destruct (existsb _ _) eqn:E; [|rewrite fmap_app; set_solver]. intros [?| ->]; [done|].
  apply existsb_exists in E as (y & Hy%list_elem_of_In & Ey%bool_decide_eq_true). rewrite <- Ey. by apply list_elem_of_fmap_2.
Qed.
Lemma push_all_ids l data i : i ∈ (li_id <$> foldl push data l) <-> i ∈ (li_id <$> data) \/ i ∈ (li_id <$> l).
Proof.
  revert data. induction l as [|x l IH]; intros data; cbn; [set_solver|]. rewrite IH. split.
  - destruct (push_ids data x) as [->|[_ ->]]; set_solver.
  - intros [?|[->|?]%elem_of_cons]; [left; apply push_grows; by left|left; apply push_grows; by right|by right].
Qed.
Lemma push_all_elem l data y : y ∈ foldl push data l -> y ∈ data \/ (y ∈ l /\ y.(li_id) ∉ (li_id <$> data)).
Proof.
  revert data. induction l as [|x l IH]; intros data; cbn; [by left|]. intros [[?|[-> ?]]%push_elem|[? Hn]]%IH; [by left|right; set_solver|].
  right. split; [set_solver|]. intros ?. apply Hn, push_grows. by left.
Qed.
Lemma catalog_part_elem rows x : x ∈ catalog_part usable rows -> x = catalog_entry usable rows x.(li_id).
Proof. unfold catalog_part. by intros [[]%elem_of_nil|[(y & -> & _)%list_elem_of_fmap _]]%push_all_elem. Qed.
Lemma catalog_part_ids rows i :
  i ∈ (li_id <$> catalog_part usable rows) <-> exists r, r ∈ rows /\ usable r.(mo_provider) r.(mo_model) = true /\ r.(mo_model) = i.
Proof.
  unfold catalog_part. rewrite push_all_ids, <- list_fmap_compose. cbn. split.
  - intros [[]%elem_of_nil|(r & -> & Hr)%list_elem_of_fmap]. apply list_elem_of_In, filter_In in Hr as [?%list_elem_of_In ?]. by exists r.
  - intros (r & Hr & Hu & <-). right. apply list_elem_of_fmap. exists r. split; [done|]. apply list_elem_of_In, filter_In. by rewrite <- list_elem_of_In.
Qed.

(** Of a model that several providers offer, the list promises no more than any of them that the user may use gives: no longer
context, no longer output and no stronger capability than the row of any such provider; every such model is listed, and no name
is listed twice. *)
Theorem listed_limits_hold rows routes r :
  r ∈ rows -> usable r.(mo_provider) r.(mo_model) = true ->
  NoDup (li_id <$> listed usable rows routes) /\ r.(mo_model) ∈ (li_id <$> listed usable rows routes) /\
  forall x, x ∈ listed usable rows routes -> x.(li_id) = r.(mo_model) ->
    at_most x.(li_context) r.(mo_context_length) /\ at_most x.(li_max_output) r.(mo_max_output_tokens) /\
    rank x.(li_capability) <= rank r.(mo_capability).
Proof.
  intros Hr Hu. assert (Hi : r.(mo_model) ∈ (li_id <$> catalog_part usable rows)) by (apply catalog_part_ids; by exists r).
  split_and!; [by apply push_all_nodup, push_all_nodup, NoDup_nil_2|unfold listed; rewrite push_all_ids; by left|].
  intros x [Hx%catalog_part_elem|[_ Hn]]%push_all_elem E; [|by rewrite E in Hn]. rewrite Hx, E. unfold catalog_entry; cbn.
  destruct (merged_below at_most merge_min_opt (fun _ => None) mo_context_length rows r) as (a & Ea & Ha); try done;
    [apply merge_min_below|apply merge_min_below|apply at_most_trans|].
  destruct (merged_below at_most merge_min_opt (fun _ => None) mo_max_output_tokens rows r) as (b & Eb & Hb); try done;
    [apply merge_min_below|apply merge_min_below|apply at_most_trans|].
  destruct (merged_below (fun a b => rank a <= rank b) merge_capability mo_capability mo_capability rows r) as (c & Ec & Hc); try done;
    [apply merge_capability_below|apply merge_capability_below|lia|].
  unfold catalog_ctx, catalog_max_out, catalog_cap. by rewrite Ea, Eb, Ec.
Qed.
End guarantees.

(** *** A listed name of a route can be called *)

Lemma disabled_fold l : forall d pid s,
  model_disabled (foldl group_disabled d l) pid s = true <->
  model_disabled d pid s = true \/ exists r, r ∈ l /\ r.(mo_provider) = pid /\ r.(mo_model) = s.
Proof.
  induction l as [|x l IH]; intros d pid s; cbn; [set_solver|]. rewrite IH.
  assert (K : model_disabled (group_disabled d x) pid s = true <-> model_disabled d pid s = true \/ (x.(mo_provider) = pid /\ x.(mo_model) = s)).
  { unfold model_disabled, group_disabled. destruct (decide (x.(mo_provider) = pid)) as [<-|E].
    - rewrite lookup_insert_eq. destruct (d !! _); cbn; rewrite ?bool_decide_eq_true; set_solver.
    - rewrite lookup_insert_ne by done. naive_solver. }
  rewrite K. set_solver.
Qed.
Lemma enabled_not_disabled us cfg root t m :
  config_ok cfg root us t -> m ∈ catalog t -> model_disabled (load_disabled_models t) m.(mo_provider) m.(mo_model) = false.
Proof.
  intros Ht Hm. unfold load_disabled_models. apply not_true_iff_false. rewrite disabled_fold. intros [H|(r & Hr & E1 & E2)].
  { unfold model_disabled in H. by rewrite lookup_empty in H. }
  apply filter_elem in Hr as [[i Hi]%rows_elem Hd]. apply filter_elem in Hm as [[j Hj]%rows_elem [He _]%andb_true_iff].
  assert (i = j) as -> by (eapply (proj2 (ck_models _ _ _ _ Ht)); done). rewrite Hi in Hj. injection Hj as ->. by rewrite He in Hd.
Qed.
Lemma catalog_provider us cfg root t m :
  config_ok cfg root us t -> m ∈ catalog t -> m.(mo_provider) ∈ (id <$> load_providers t).
Proof.
  intros Ht Hm. apply filter_elem in Hm as [_ [_ Hp]%andb_true_iff]. destruct (providers t !! _) as [p|] eqn:Ep; [|done].
  apply list_elem_of_fmap. exists p.(pr_data). split; [by destruct (proj1 (ck_providers _ _ _ _ Ht) _ _ Ep) as (-> & _)|].
  apply load_providers_elem. by exists m.(mo_provider), p.
Qed.

(** C37: a name of a route that the list shows to a user can be called by that user, as long as the caches hold the
configuration that is stored, which they do after every change whose reload succeeds (after one whose reload fails a listed
model may be refused: [GatewayExamples.stale_providers_refuse_listed]): for a request that the route serves, it has an
enabled provider, the model is not switched off there and the user may use it there, so the request is only refused for a
protocol that no candidate speaks. (The stored configuration is one the handlers leave, with its protected administrator; a
pattern that ends in the marker of long context must name its upstream model: the marker is cut from the name that is looked
up. A name that several routes have is resolved to the first of them.) *)
Theorem listed_alias_callable cfg root static g user e r x :
  ConfigHistory.good cfg root g.(world).(db) -> conf_of g = load_config g.(world).(db).(config) ->
  alias (can_use g.(world).(caches) user) (catalog g.(world).(db).(config)) r = Some x ->
  outbound_model r x.(li_id) = default r.(model_pattern) r.(upstream_model) ->
  match choose_candidates (config_of static g) e user x.(li_id) r with
  | Ok l => l <> []
  | Err err => error_status err = 400
  end.
Proof.
  intros Hg Ec Ha Ho. unfold alias in Ha. destruct (ends_with_char _ _); [done|]. destruct (List.find _ _) as [m|] eqn:Ef; [|done]. cbn in Ha.
  destruct (can_use _ _ _ _) eqn:Eu; [|done]. injection Ha as <-. cbn in *.
  apply find_some in Ef as [Hm%list_elem_of_In [E1%Z.eqb_eq E2%bool_decide_eq_true]%andb_true_iff].
  pose proof (catalog_provider _ _ _ _ _ Hg Hm) as Hp. pose proof (enabled_not_disabled _ _ _ _ _ Hg Hm) as Hd.
  pose proof (choose_candidates_spec (config_of static g) e user r.(model_pattern) r) as Hc.
  destruct (resolve_candidates_spec (config_of static g).(cfg_providers) r) as (_ & _ & Hid & _).
  assert (Hi : r.(provider_id) ∈ (id <$> resolve_candidates (config_of static g).(cfg_providers) r)).
  { apply Hid. split; [by left|]. cbn. rewrite Ec. cbn. by rewrite <- E1. }
  apply list_elem_of_fmap in Hi as (p & Ep & Hin).
  assert (U : Pipeline.usable (config_of static g) r (model_pattern r) p = true).
  { unfold Pipeline.usable. rewrite Ho, <- E2, <- Ep, <- E1. cbn. rewrite Ec. cbn. by rewrite Hd. }
  assert (A : authorised (config_of static g) user (model_pattern r) p = true).
  { unfold authorised, can_use in *. destruct user as [u|]; [|done]. rewrite <- Ep. cbn. by destruct (bool_decide _). }
  destruct (choose_candidates _ _ _ _ _) as [l|err]; [apply Hc|].
  destruct Hc as [(_ & H)|[(_ & _ & H)|[(_ & _ & H)|(H & _)]]]; [rewrite H in Hin; by apply elem_of_nil in Hin| | |done].
  - specialize (H _ Hin). congruence.
  - specialize (H _ Hin U). congruence.
Qed.
