(* ===== verification/GatewayExamples.v ===== *)
(** * Examples of requests from end to end

A gateway with one provider, one model and one user, built with the operations of [ConfigAdmin]. It shows that the
hypotheses of the theorems of [GatewayHistory], [GatewayEffects] and [Catalog] can hold, and where the list of models and the
routing of a request disagree. *)

From S2P Require Import Prelude Float Json Errors RateLimit Breaker Routing Calendar Plans Metering Body Streams Chat ErrorShape Rectify Upstream.
From S2P Require Import ConfigTables Database PlanConfig ConfigStore Accounts ConfigAdmin ConfigHistory ConfigEffects Sessions ConfigExamples.
From S2P Require Import Pipeline Intake Gateway GatewayHistory GatewayEffects Catalog.

Local Open Scope Z_scope.
Import ConfigSample.

Module GatewaySample.
Definition static : Static :=
  {| st_max_attempts := 3; st_zen_table := []; st_breaker := default_config; rectify_enabled := true; inject_claude_code_beta := false;
     non_stream_timeout_secs := 0 |}.
Definition start : World := Sample.start {[9 := Sessions.a_key]}.
Definition configured : World := (list_models ["m1"] (create provider_request start).2).2.
Definition gateway (w : World) : Gateway :=
  {| world := w; counters := Guards.init; slots := ∅; plan_usage := ∅; alerts_seen := ∅; breakers := ∅; remembered := []; calls := []; outbox := [] |}.
Definition answer : Response := {| r_code := 200; r_content_type := "application/json"; r_headers := []; r_bytes := Some "{}" |}.
Definition env : Env :=
  {| e_now := 5; e_local_now := 5; e_jitter := F64.of_Z 0; e_request_id := "r1"; e_client_ip := "10.0.0.1"; e_transport := fun _ => Some (Ok answer);
     e_items := fun _ => []; e_allow := fun _ => 5; e_done := fun _ => 6 |}.
Definition asks (model : string) (s : string) : result Value string := Ok (VObject [("model", VString model)]).
Definition convert2 (v : Value) (m : string) : result Value string := Ok v.
Definition convert3 (v : Value) (m b : string) : result Value string := Ok v.
Definition no_history (l : list (string * Value)) (v : Value) : result Value string := Ok v.
Definition same (s : string) : string := s.

Abbreviation run model h :=
  (proxy (C := Gregorian.calendar) CodingSample.codecs (asks model) Some lower Some Sample.sha256_hex Sample.cfg static convert3 convert2 no_history same unseal "" sample_deps env h "{}" chat).
Abbreviation asked model h :=
  (requests (C := Gregorian.calendar) CodingSample.codecs (asks model) Some lower Some Sample.sha256_hex Sample.cfg static convert3 convert2 no_history same unseal "" sample_deps env h "{}" chat).
Definition served : Gateway * result (Answer * Held) AppError := run "m1" key_header (gateway configured).
End GatewaySample.
Import GatewaySample.

Example served_by_provider :
  served.2 = Ok (ABody 200 "application/json" "{}", {| h_user := Some (7, "m1"); h_slots := [] |}) /\
  ((fun pq => (pq.1.(id), pq.2.(url))) <$> asked "m1" key_header (gateway configured)) = [(1, "https://acme.test/v1/chat/completions")].
Proof. vm_compute. split; reflexivity. Qed.

(** The same tables as in [ConfigExamples], with a key of the user. *)
Lemma start_good : ConfigHistory.good Sample.cfg 1 start.(db).
Proof. exact sample_good. Qed.
Lemma configured_cached : cached 1 configured.(caches).
Proof.
  destruct (keeps_create_provider Sample.cfg 1 text seal 5 1 provider_request start start_good sample_cached) as [Hg Hc].
  apply (keeps_store_models Sample.cfg 1 text 5 1 1 ["m1"] _ Hg Hc).
Qed.

Abbreviation may_ask :=
  (entitled (C := Gregorian.calendar) CodingSample.codecs (asks "m1") Some Some Sample.sha256_hex Sample.cfg unseal env key_header "{}" chat (gateway configured)).

(** A network that answers at the address of that provider only. *)
Definition only (q : Request) : option (result Response string) :=
  if bool_decide (q.(url) = "https://acme.test/v1/chat/completions") then Some (Ok answer) else None.
Lemma network_confined_witness :
  proxy (C := Gregorian.calendar) CodingSample.codecs (asks "m1") Some lower Some Sample.sha256_hex Sample.cfg static convert3 convert2 no_history same unseal ""
    sample_deps (with_transport only env) key_header "{}" chat (gateway configured) = served.
Proof.
  apply (network_confined (C := Gregorian.calendar) CodingSample.codecs (asks "m1") Some lower Some Sample.sha256_hex Sample.cfg static convert3 convert2 no_history
           same unseal "" sample_deps 1 env only key_header "{}" chat (gateway configured)).
  - intros s n [= <-]. reflexivity.
  - exact configured_cached.
  - intros p q (user & key & json & named & model & route & secret & _ & _ & _ & _ & _ & Hp & _ & _ & _ & _ & Hu & _).
    assert (E : (conf_of (gateway configured)).(c_providers) = [acme]) by (vm_compute; reflexivity).
    rewrite E in Hp. apply list_elem_of_singleton in Hp as ->.
    assert (Eu : upstream_url (base_url acme) (path_to chat acme) = "https://acme.test/v1/chat/completions") by (vm_compute; reflexivity).
    unfold only. rewrite Hu, Eu. rewrite bool_decide_true by reflexivity. reflexivity.
Defined.

(** A request without a key, and one with a key that is wrong. *)
Lemma refusal_leaves_no_trace_witness :
  exists w, run "m1" [] (gateway configured) =
              (set_world w (gateway configured), Err (with_request_id (Auth "missing Authorization: Bearer header or x-api-key header") "r1")) /\
    w.(db) = configured.(db) /\ w.(caches) = configured.(caches).
Proof.
  eapply (refusal_leaves_no_trace (C := Gregorian.calendar) CodingSample.codecs (asks "m1") Some lower Some Sample.sha256_hex Sample.cfg static convert3 convert2
            no_history same unseal "" sample_deps env [] "{}" chat (gateway configured)).
  vm_compute. reflexivity.
Defined.

(** The request is served and its response ends while another one waits. *)
Lemma guards_never_leak_witness :
  let h := {| h_user := Some (7, "m1"); h_slots := [] |} in
  (release h (enter_request served.1)).(counters).(Guards.active_requests) = 1.
Proof.
  destruct (guards_never_leak (C := Gregorian.calendar) CodingSample.codecs (asks "m1") Some lower Some Sample.sha256_hex Sample.cfg static convert3 convert2
              no_history same unseal "" sample_deps (gateway configured)
              (release {| h_user := Some (7, "m1"); h_slots := [] |} (enter_request served.1)) [Waiting]) as [H _].
  - split; reflexivity.
  - pose proof (proxy_runs (C := Gregorian.calendar) CodingSample.codecs (asks "m1") Some lower Some Sample.sha256_hex Sample.cfg static convert3 convert2
      no_history same unseal "" sample_deps env key_header "{}" chat (gateway configured) []) as R.
    destruct served_by_provider as [E _]. unfold served in *.
    destruct (run "m1" key_header (gateway configured)) as [g' r]. cbn [snd fst] in *. subst r.
    etransitivity; [exact R|]. eapply rtc_l; [apply step_enter|]. apply rtc_once.
    exact (step_end _ _ _ _ _ _ _ _ _ _ _ _ _ _ _ {| h_user := Some (7, "m1"); h_slots := [] |} _ [Waiting] []).
  - exact H.
Defined.

(** *** The list of models *)

Definition second_request : ProviderReq :=
  {| vr_name := "other"; vr_api_type := "openai"; vr_base_url := "https://other.test/v1"; vr_api_key := Some "sk-2"; vr_timeout_ms := 60000;
     vr_enabled := true; vr_extra_body := VObject []; vr_auth_scheme := "bearer"; vr_extra_headers := VObject [];
     vr_supports_images := true |}.
(** Two providers offer the model, and the user may use the second one only. *)
Definition two_providers : World :=
  (put_user_access text Sample.cfg 1 7 [(Some 2, None)] (store_models text 5 1 2 ["m1"; "m2"] (create second_request configured).2).2).2.
Definition names (v : Value) : list string :=
  match get "data" v with Some (VArray l) => omap (get_str "id") l | _ => [] end.
Definition list_for (h : list (string * string)) (w : World) : list string := names (Catalog.models 5 Sample.sha256_hex Some Sample.cfg h w).1.

(** The first provider has the route of the model: the list shows the model to the user, and a request for it is refused. *)
Theorem listed_but_forbidden :
  "m1" ∈ list_for key_header two_providers /\
  match (run "m1" key_header (gateway two_providers)).2 with Err e => error_status e = 403 | Ok _ => False end.
Proof. split; [eapply (bool_decide_unpack _)|]; vm_compute; reflexivity. Qed.

(** A user who may use one model is shown that one; with a key that is not accepted the others are shown too. *)
Theorem refused_key_lists_all :
  let w := (put_user_access text Sample.cfg 1 7 [(Some 2, Some "m2")] two_providers).2 in
  list_for key_header w = ["m2"] /\ "m1" ∈ list_for [("x-api-key", "wrong")] w /\
  is_ok (authenticate 5 Sample.sha256_hex Some Sample.cfg [("x-api-key", "wrong")] w).1 = false.
Proof. cbv zeta. split; [|split; [eapply (bool_decide_unpack _)|]]; vm_compute; reflexivity. Qed.

(** The two rows of the model, with different limits. *)
Definition row_of (pid : Z) (ctx out : option Z) (cap : option string) : AdminModel :=
  {| mo_id := pid; mo_provider := pid; mo_model := "m1"; mo_enabled := true; mo_context_length := ctx; mo_capability := cap; mo_max_output_tokens := out;
     mo_created_at := 0 |}.
Definition two_rows : list AdminModel :=
  [row_of 1 (Some 128000) None (Some "vision"); row_of 2 (Some 8000) (Some 100) (Some "text"); row_of 3 (Some 5) (Some 5) None].
Lemma listed_limits_hold_witness :
  forall x, x ∈ listed (fun pid _ => pid <? 3) two_rows [] -> x.(li_id) = "m1" -> at_most x.(li_context) (Some 8000) /\ rank x.(li_capability) <= 1.
Proof.
  destruct (listed_limits_hold (fun pid _ => pid <? 3) two_rows [] (row_of 2 (Some 8000) (Some 100) (Some "text"))) as (_ & _ & H).
  - apply list_elem_of_further, list_elem_of_here.
  - reflexivity.
  - intros x Hx E. destruct (H x Hx E) as (H1 & _ & H2). split; [exact H1|exact H2].
Defined.

Definition the_route : option ModelRoute := head (conf_of (gateway configured)).(c_routes).
Lemma configured_good : ConfigHistory.good Sample.cfg 1 configured.(db).
Proof.
  destruct (keeps_create_provider Sample.cfg 1 text seal 5 1 provider_request start start_good sample_cached) as [Hg Hc].
  apply (keeps_store_models Sample.cfg 1 text 5 1 1 ["m1"] _ Hg Hc).
Qed.
Lemma listed_alias_callable_witness :
  match the_route with
  | Some r =>
      exists x, alias (can_use configured.(caches) (Some 7)) (catalog configured.(db).(config)) r = Some x /\
        match choose_candidates (config_of static (gateway configured)) chat (Some 7) x.(li_id) r with Ok l => l <> [] | Err e => error_status e = 400 end
  | None => False
  end.
Proof.
  destruct the_route as [r|] eqn:Er; [|vm_compute in Er; discriminate Er].
  destruct (alias (can_use configured.(caches) (Some 7)) (catalog configured.(db).(config)) r) as [x|] eqn:Ex;
    [|vm_compute in Er; injection Er as <-; vm_compute in Ex; discriminate Ex].
  exists x. split; [reflexivity|].
  apply (listed_alias_callable Sample.cfg 1 static (gateway configured) (Some 7) chat r x).
  - exact configured_good.
  - vm_compute. reflexivity.
  - exact Ex.
  - vm_compute in Er. injection Er as <-. vm_compute in Ex. injection Ex as <-. reflexivity.
Defined.

(** The list reads the catalog from the database and a call the caches: when the providers could not be reloaded after the
    changes (the second statement of the first change and the eighth of the other fail), a model is listed and its calls fail. *)
Definition failing (fs : list bool) (w : World) : World := {| db := w.(db); faults := fs; entropy := w.(entropy); caches := w.(caches) |}.
Definition not_reloaded : World :=
  let created := (create provider_request (failing [false; true] start)).2 in
  failing [] (list_models ["m1"] (failing (repeat false 7 ++ [true]) created)).2.
Theorem stale_providers_refuse_listed :
  list_for key_header not_reloaded = ["m1"] /\ not_reloaded.(caches).(conf).(c_providers) = [] /\
  match (run "m1" key_header (gateway not_reloaded)).2 with Ok _ => False | Err e => error_status e = 500 end.
Proof. vm_compute. split_and!; reflexivity. Qed.
